(* ===== verification/_CoqProject ===== *)
-Q . S2P
Prelude.v
Regex.v
Errors.v
Domain.v
Sha256.v
Json.v
IsoTime.v
JsonDecode.v
Pg.v
AuthorityModels.v
AuthoritySchema.v
AuthoritySamples.v
AuthorityRows.v
Outbox.v
OutboxSafety.v
OutboxSpec.v
OutboxStore.v
AuthorityRepository.v
AuthorityInvariant.v
AuthoritySpec.v
AuthorityClaims.v
AuthorityWitnesses.v
AuthorityAccess.v
AuthorityIsolation.v
AuthorityRecovery.v
Pool.v
Transaction.v
FaultyDriver.v
StopEpochs.v
StopSpec.v
StopClaims.v
Revision.v
Migrations.v
MigrationSpec.v
MigrationLineage.v
Reconciliation.v
ReconciliationStore.v
ReconciliationSafety.v
ReconciliationSpec.v
Boot.v
BootSpec.v
AuditChain.v
AuditSpec.v
AuditClaims.v
AuditRetention.v
AuditRetentionSpec.v
AuditDelivery.v
AuditDeliverySpec.v
AuditDeliveryClaims.v
AuditQuery.v
AuditQuerySpec.v
BlobKeys.v
ArtifactSchema.v
Materialization.v
Purge.v
PurgeTables.v
PurgeSpec.v
PurgeSafety.v
PurgeClaims.v
PurgeProgress.v
Compatibility.v
EndpointReadiness.v
EndpointSpec.v
EndpointClaims.v
JointRestore.v
Recovery.v
JointRestoreSpec.v
JointRestoreClaims.v
