(* ===== verification/Prelude.v ===== *)
(** * AstralPlane: a verification of the data plane

    AstralPlane (src/src/astralplane) is a Python library that owns the durable
    state of a product in PostgreSQL.  This development translates its core
    into Rocq functions and proves what the core promises to its callers.

    ** The program and its model

    A caller borrows a connection from a pool, opens a transaction on it and
    calls repositories, which run SQL statements and raise [PlaneError]s.  At
    start-up a process migrates the schema, reconciles the products' hooks and
    publishes that it is ready.

    - errors.py: the exception classes, their codes, discard flags and bounded
      metadata.  [Errors].
    - domain.py: validators, the freezing of nested values, the value classes.
      [Domain], with [Regex] for the patterns and [Sha256] for the digests.
    - authority/: models, lifecycle, effects and claims ([AuthorityModels]), the
      five tables of schema 074 in database/migrations.py ([AuthoritySchema]),
      rows and their decoding ([AuthorityRows]), every statement and method of
      authority/repository.py ([AuthorityRepository]).  The repository writes to
      an outbox through the class [OutboxStore].
    - outbox.py: the table, the statements and the methods ([Outbox]);
      [OutboxStore] shows that they implement the class of that name.
    - database/pool.py: the critical sections as functions, the threads between
      them as the step relation [pool_step] ([Pool]).
    - database/transaction.py: begin, statements, savepoints, finish over a
      driver that may fail at any call ([Transaction]); [FaultyDriver] is such a
      driver over a live session, with the lemmas on what is committed.
    - repositories/stop_epochs.py and database/stop_schema.py ([StopEpochs]).
    - database/revision.py ([Revision]); the migration registry and runner of
      database/migrations.py ([Migrations]); the 29 declared migrations
      ([MigrationLineage]).
    - reconciliation.py ([Reconciliation]) and reconciliation_store.py
      ([ReconciliationStore]), joined by the class [ReconciliationSession].
    - database/bootstrap.py ([Boot]): concurrent calls of [initialize] as
      threads with a program counter.
    - repositories/audit.py: events, chain digests, appends, verification and
      queries ([AuditChain], [AuditQuery]), with [Json], [JsonDecode] and
      [IsoTime] for the canonical texts; audit_retention.py: pruning behind
      authenticated anchors ([AuditRetention]); audit_delivery.py: canonical
      payloads and their delivery through the outbox ([AuditDelivery]).
    - blob_store.py: the names of owners and keys, and the SQL functions of
      database/migrations.py that check them ([BlobKeys]); the attachment,
      owner and tombstone tables ([ArtifactSchema]).
    - repositories/artifacts.py: the materialization of attachments under a
      lease, with the store as the class [BlobStore] ([Materialization]).
    - purge.py: tombstones, their store and the executor that deletes, verifies
      and records ([Purge]).
    - compatibility.py ([Compatibility]); endpoint_readiness.py: the fence and
      the report on an endpoint and its blob roots ([EndpointReadiness]);
      joint_restore.py: the walk of the roots and the evidence of a restored
      unit ([JointRestore]); recovery.py: the retirement of its sessions
      ([Recovery]).

    [Pg] models what the statements use of PostgreSQL.  A table is a list of
    rows in insertion order; a statement is a function of the database that
    raises the driver's error classes when a CHECK, a key or a reference is
    violated; INSERT, UPDATE ... RETURNING, SELECT, ON CONFLICT and SKIP LOCKED
    are [Pg]'s combinators.  What PostgreSQL leaves open is in the class
    [PgEnv]: the order of an unordered scan, the collation, the session time
    zone, the rows that other transactions hold locked.  Theorems hold for
    every instance; [pg_reference] is one.  The monad [SM] is one transaction:
    statements, savepoints, caught errors, and a failed transaction that
    refuses every statement until a savepoint is restored.

    Python values are typed: text is a list of code points ([pystr]), integers
    are [Z] with the checks the code makes and the widths the columns have,
    times are microseconds with an offset, exceptions are classes with a
    message ([exn]), mappings are association lists where order shows and
    [gmap]s where it does not.

    ** What the theorems show

    - Authority: a receipt claim is authorised, atomic, idempotent and strictly
      ordered ([AuthorityClaims]); bindings, operations and effects follow
      their state machines and every reachable database is valid
      ([AuthoritySpec], [AuthorityInvariant]); at most one transition succeeds
      from a version ([AuthorityAccess]); owners are isolated
      ([AuthorityIsolation]); recovery listings are complete
      ([AuthorityRecovery]); rows decode to the values they were written from
      ([AuthorityRows]).  [AuthoritySamples] and [AuthorityWitnesses] hold
      concrete cases.
    - Outbox: leases exclude each other, settlements are fenced, at most one
      succeeds, and each operation does exactly what it says ([OutboxSafety],
      [OutboxSpec]).
    - Pool and transactions: custody of connections under any interleaving, no
      reuse of an unsafe connection, shutdown ([Pool]); a transaction block
      refines the abstract transaction [SM] and reports commits exactly
      ([Transaction]).
    - Stop epochs: the fence of an owner stop, exact transitions, monotonic
      state ([StopSpec], [StopClaims]).
    - Migration: a run applies exactly the declared path or nothing, and is
      idempotent ([MigrationSpec]); the declared lineage reaches the current
      revision from every accepted predecessor ([MigrationLineage]).
    - Reconciliation: markers are durable and monotonic under any failure of
      the driver ([ReconciliationSafety]), and on a live connection the run is
      an abstract function of the marker table ([ReconciliationSpec]).
    - Boot: exclusive, final and without endless waiting ([BootSpec]).
    - Audit: verification accepts exactly the well-linked chains and is tamper
      evident up to a collision of two of its digests ([AuditSpec], [AuditClaims]); after
      any appends and prunes the retained chain verifies
      ([AuditRetentionSpec]); payloads round-trip, deliveries settle exactly
      their row and delays are bounded ([AuditDeliverySpec],
      [AuditDeliveryClaims]); pages are exhaustive ([AuditQuerySpec]).
    - Purge: every statement keeps the constraints and the state machine of
      tombstones ([PurgeTables]); a tombstone is enqueued only with the fence
      of its scope, and a held lease publishes outside every fenced scope
      ([PurgeSpec]); for every store that obeys [BlobStoreLaws], executors among
      other processes keep purged scopes empty for ever, and exact keys, which
      the code does not inspect, keep the operator's evidence ([PurgeSafety],
      [PurgeClaims]); a due attempt on a store that deletes succeeds
      ([PurgeProgress]).  The executor is verified by rely and guarantee: the
      actions of the others between two of its own are arbitrary functions that
      keep [respectful], and its own actions are shown to keep it.
    - Restore: a report is writable exactly for a qualified endpoint, comes
      whatever the endpoint raises, and its fence stands for one endpoint ([EndpointSpec],
      [EndpointClaims]); the walk returns exactly for clean trees with exactly
      their files ([JointRestoreSpec]); a restore is qualified exactly when its
      roots hold the inventory, the evidence stands for one restored unit, and
      a recovery retires every session or none, whatever call of the driver
      fails, and can be repeated ([JointRestoreClaims]).
      Where a digest stands for a document, the exception is a collision of
      SHA-256 between the two documents at hand.

    Where the code does not do what it means to, a theorem shows the case:
    [enqueue_replay_after_retry], [recovery_listing_collation],
    [savepoint_name_reuse], [boot_reset_race], [unstable_event_breaks_chain],
    [poisoned_claim_blocks], [slash_lease_cannot_be_abandoned],
    [backslash_key_qualifies], [long_version_raises].

    ** Bounds and fuel

    Loops over data are structural.  The migration loop has as many turns as
    the registry has sources and one more; [migration_run_exact] shows that
    more turns change nothing.  Regular expressions are matched by structural
    recursion on the expression and the text.  The boot's calls are steps of a
    relation; [boot_calls_end] gives the measure.

    ** Not modelled

    - The concurrency of transactions: each runs alone on the database it
      starts from, as the row and advisory locks of the code arrange for the
      rows it writes; theorems about several calls are about any sequence of
      such transactions.  Threads are modelled in [Pool] and [Boot], and the
      executor of purges has other processes between its transactions.
    - Detaching of rows from the driver (transaction.py), the decoding of
      column metadata (reconciliation_store.py), key properties that only
      format identities.
    - Overflow of [datetime] arithmetic, and nested hook results whose mappings
      have keys that are not strings ([json.dumps] converts them).
    - The texts of DDL statements and their structural verifiers: parameters of
      the lineage.
    - The file-system code of the blob store: [BlobStore] is its interface, and
      [BlobStoreLaws] what the plane relies on, namely that only a publication
      adds a key, the one of its authority, and that a reported absence is true.
    - Changes of a blob root while it is walked, apart from the size of an open
      file and the identity of the root; what the database answers during an
      inspection is an argument, its order of statements is the code's.
    - The links of messages, the versions of artifacts and the asynchronous
      coordinator of repositories/artifacts.py.
    - The other repositories, the bundle store and the adapters listed as such
      in the manifest. *)

From stdpp Require Export base tactics list numbers option strings sorting fin_maps gmap.
From Stdlib Require Export ZArith Lia.
From Stdlib Require Ascii String.

#[global] Open Scope Z_scope.
#[global] Arguments bool_decide : simpl never.

(** ** Results: a Python call returns a value or raises *)

Inductive outcome (E A : Type) : Type :=
  | Ok (a : A)
  | Err (e : E).
Arguments Ok {E A} a.
Arguments Err {E A} e.

Definition outcome_bind {E A B : Type} (f : A -> outcome E B) (m : outcome E A)
  : outcome E B :=
  match m with Ok a => f a | Err e => Err e end.

#[global] Instance outcome_mret {E} : MRet (outcome E) := fun _ a => Ok a.
#[global] Instance outcome_mbind {E} : MBind (outcome E) :=
  fun _ _ f m => outcome_bind f m.

#[global] Instance outcome_eq_dec {E A} `{EqDecision E, EqDecision A} :
  EqDecision (outcome E A).
Proof. solve_decision. Defined.

(** [raise_unless b e]: the guard [if not b: raise e]. *)
Definition raise_unless {E} (b : bool) (e : E) : outcome E unit :=
  if b then Ok () else Err e.
(** [raise_if b e]: the guard [if b: raise e]. *)
Definition raise_if {E} (b : bool) (e : E) : outcome E unit :=
  if b then Err e else Ok ().

Definition is_ok {E A} (m : outcome E A) : bool :=
  match m with Ok _ => true | Err _ => false end.

(** [try/except] that replaces every error of the body. *)
Definition map_err {E E' A} (f : E -> E') (m : outcome E A) : outcome E' A :=
  match m with Ok a => Ok a | Err e => Err (f e) end.

(** Iterate a fallible check over a list, left to right, stopping at the
    first failure (a Python [for] loop around a validator). *)
Fixpoint check_each {E A} (f : A -> outcome E unit) (l : list A) : outcome E unit :=
  match l with
  | [] => Ok ()
  | x :: l' => f x ;; check_each f l'
  end.

(** Collect the results of a fallible map (a comprehension). *)
Fixpoint map_each {E A B} (f : A -> outcome E B) (l : list A) : outcome E (list B) :=
  match l with
  | [] => Ok []
  | x :: l' => y ← f x; ys ← map_each f l'; Ok (y :: ys)
  end.

Create HintDb plane discriminated.
Create Rewrite HintDb plane.

Lemma bind_Ok_inv {E A B} (f : A -> outcome E B) (m : outcome E A) b :
  (m ≫= f) = Ok b -> exists a, m = Ok a /\ f a = Ok b.
Proof. destruct m; simpl; [eauto | done]. Qed.

Section Outcome.
  Context {E A B : Type}.
  Implicit Types (m : outcome E A).

Lemma bind_Ok (f : A -> outcome E B) a : (Ok a ≫= f) = f a.
  Proof. done. Qed.

Lemma bind_Err (f : A -> outcome E B) e : (Err e ≫= f) = Err e.
  Proof. done. Qed.

Lemma raise_unless_Ok b (e : E) x : raise_unless b e = Ok x <-> b = true.
  Proof. destruct b, x; simpl; split; congruence. Qed.

Lemma raise_if_Ok b (e : E) x : raise_if b e = Ok x <-> b = false.
  Proof. destruct b, x; simpl; split; congruence. Qed.

Lemma check_each_Ok (f : A -> outcome E unit) l x :
    check_each f l = Ok x <-> Forall (fun a => f a = Ok ()) l.
  Proof.
    destruct x. induction l as [|a l IH]; simpl; [done|].
    rewrite Forall_cons, <- IH. destruct (f a) as [[]|]; simpl; intuition congruence.
  Qed.

Lemma map_each_Ok (f : A -> outcome E B) l ys :
    map_each f l = Ok ys <-> Forall2 (fun a y => f a = Ok y) l ys.
  Proof.
    revert ys. induction l as [|a l IH]; intros ys; simpl.
    - split; [intros [= <-]; constructor | by inversion 1].
    - split.
      + intros (y & Hy & (ys' & Hys & [= <-])%bind_Ok_inv)%bind_Ok_inv.
        constructor; [done | by apply IH].
      + inversion 1 as [|? y ? ys' Hy Hys]; subst.
        rewrite Hy; simpl. apply IH in Hys as ->. done.
  Qed.

Lemma map_err_Ok {E'} (f : E -> E') m a : map_err f m = Ok a <-> m = Ok a.
  Proof. destruct m; simpl; split; congruence. Qed.
End Outcome.

#[export] Hint Rewrite @raise_unless_Ok @raise_if_Ok @check_each_Ok @map_err_Ok : plane.

(** [inv_ok]: break every [m ≫= f = Ok b] hypothesis into its steps. *)
Ltac inv_ok :=
  repeat match goal with
  | H : (_ ≫= _) = Ok _ |- _ =>
      let a := fresh "v" in let H1 := fresh "Hs" in
      apply bind_Ok_inv in H as (a & H1 & H)
  | H : raise_unless _ _ = Ok _ |- _ => apply raise_unless_Ok in H
  | H : raise_if _ _ = Ok _ |- _ => apply raise_if_Ok in H
  | H : Ok _ = Ok _ |- _ => injection H as H
  | H : Err _ = Ok _ |- _ => discriminate H
  | H : Ok _ = Err _ |- _ => discriminate H
  end.

(** [split_bools]: turn conjunctions of boolean tests into hypotheses. *)
Ltac split_bools :=
  repeat match goal with
  | H : _ && _ = true |- _ => apply andb_true_iff in H as [? ?]
  | H : _ || _ = false |- _ => apply orb_false_iff in H as [? ?]
  | H : negb _ = true |- _ => apply negb_true_iff in H
  | H : negb _ = false |- _ => apply negb_false_iff in H
  | H : bool_decide _ = true |- _ => apply bool_decide_eq_true in H
  | H : bool_decide _ = false |- _ => apply bool_decide_eq_false in H
  | H : (_ =? _)%Z = true |- _ => apply Z.eqb_eq in H
  | H : (_ =? _)%Z = false |- _ => apply Z.eqb_neq in H
  | H : (_ <=? _)%Z = true |- _ => apply Z.leb_le in H
  | H : (_ <=? _)%Z = false |- _ => apply Z.leb_gt in H
  | H : (_ <? _)%Z = true |- _ => apply Z.ltb_lt in H
  | H : (_ <? _)%Z = false |- _ => apply Z.ltb_ge in H
  end.

(** ** Python strings: sequences of Unicode code points *)

Abbreviation pystr := (list N).

(** String literals of the source. *)
Definition u (s : string) : pystr := Ascii.N_of_ascii <$> String.list_ascii_of_string s.

#[global] Arguments u : simpl never.

(** [s.startswith(p)] *)
Fixpoint starts_with (p s : pystr) : bool :=
  match p, s with
  | [], _ => true
  | c :: p', d :: s' => bool_decide (c = d) && starts_with p' s'
  | _ :: _, [] => false
  end.

(** [s.removeprefix(p)] *)
Definition remove_prefix (p s : pystr) : pystr :=
  if starts_with p s then drop (length p) s else s.

(** Code points Python's [str.isspace] accepts (what [str.strip] removes). *)
Definition py_isspace (c : N) : bool :=
  bool_decide (c ∈ [9; 10; 11; 12; 13; 28; 29; 30; 31; 32; 133; 160; 5760;
                    8192; 8193; 8194; 8195; 8196; 8197; 8198; 8199; 8200;
                    8201; 8202; 8232; 8233; 8239; 8287; 12288]%N).

Fixpoint drop_spaces (s : pystr) : pystr :=
  match s with
  | c :: s' => if py_isspace c then drop_spaces s' else s
  | [] => []
  end.

(** [s.strip()] *)
Definition py_strip (s : pystr) : pystr := reverse (drop_spaces (reverse (drop_spaces s))).

(** Code-point order, the order of Python [str] comparison. *)
Fixpoint str_leb (a b : pystr) : bool :=
  match a, b with
  | [], _ => true
  | _ :: _, [] => false
  | x :: a', y :: b' => (x <? y)%N || ((x =? y)%N && str_leb a' b')
  end.

Definition str_le (a b : pystr) : Prop := str_leb a b = true.
#[global] Instance str_le_dec : RelDecision str_le.
Proof. intros a b. unfold str_le. apply _. Defined.

Lemma str_leb_refl a : str_leb a a = true.
Proof. induction a as [|x a IH]; simpl; [done|]. by rewrite N.ltb_irrefl, N.eqb_refl, IH. Qed.

Lemma str_leb_total a b : str_leb a b = true \/ str_leb b a = true.
Proof.
  revert b; induction a as [|x a IH]; intros [|y b]; simpl; auto.
  destruct (N.lt_trichotomy x y) as [H|[H|H]].
  - left. by rewrite (proj2 (N.ltb_lt _ _) H).
  - subst. rewrite N.ltb_irrefl, N.eqb_refl. simpl. apply IH.
  - right. by rewrite (proj2 (N.ltb_lt _ _) H).
Qed.

Lemma str_leb_antisym a b : str_leb a b = true -> str_leb b a = true -> a = b.
Proof.
  revert b; induction a as [|x a IH]; intros [|y b]; simpl; try done.
  rewrite !orb_true_iff, !andb_true_iff, !N.ltb_lt, !N.eqb_eq.
  intros [?|[-> H1]] [?|[? H2]]; try lia. f_equal. by apply IH.
Qed.

Lemma str_leb_trans a b c : str_leb a b = true -> str_leb b c = true -> str_leb a c = true.
Proof.
  revert b c; induction a as [|x a IH]; intros [|y b] [|z c]; simpl; try done.
  rewrite !orb_true_iff, !andb_true_iff, !N.ltb_lt, !N.eqb_eq.
  intros [?|[-> H1]] [?|[-> H2]]; [left; lia | left; lia | left; lia |].
  right. split; [done|]. by apply IH with b.
Qed.

#[global] Instance str_le_total : Total str_le.
Proof. intros a b. apply str_leb_total. Qed.
#[global] Instance str_le_trans : Transitive str_le.
Proof. intros a b c. apply str_leb_trans. Qed.
#[global] Instance str_le_antisym : AntiSymm (=) str_le.
Proof. intros a b. apply str_leb_antisym. Qed.
#[global] Instance str_le_refl : Reflexive str_le.
Proof. intros a. apply str_leb_refl. Qed.

(** ** Sorting by a boolean comparison *)

Definition bool_rel {A} (le : A -> A -> bool) (a b : A) : Prop := le a b = true.
#[global] Instance bool_rel_dec {A} (le : A -> A -> bool) : RelDecision (bool_rel le).
Proof. intros a b. unfold bool_rel. apply _. Defined.

(** Python's [sorted] and SQL's [ORDER BY].  Keys are unique where Python sorts;
    ties of a query come from a scan in any order. *)
Definition sort_by {A} (le : A -> A -> bool) (l : list A) : list A :=
  merge_sort (bool_rel le) l.

Lemma sort_by_perm {A} (le : A -> A -> bool) l : sort_by le l ≡ₚ l.
Proof. apply merge_sort_Permutation. Qed.

Lemma elem_of_sort_by {A} (le : A -> A -> bool) l x : x ∈ sort_by le l <-> x ∈ l.
Proof. by rewrite sort_by_perm. Qed.

Lemma sort_by_sorted {A} (le : A -> A -> bool) l :
  (forall a b, le a b = true \/ le b a = true) ->
  (forall a b c, le a b = true -> le b c = true -> le a c = true) ->
  StronglySorted (bool_rel le) (sort_by le l).
Proof.
  intros Htot Htr. unfold sort_by.
  assert (Total (bool_rel le)) by (intros a b; apply Htot).
  assert (Transitive (bool_rel le)) by (intros a b c; apply Htr).
  apply (StronglySorted_merge_sort (bool_rel le)).
Qed.

(** Sorting by a key commutes with a map that keeps the key. *)
Lemma list_merge_fmap {A B} (f : A -> B) (R : relation A) (R' : relation B)
    `{!RelDecision R, !RelDecision R'} l1 l2 :
  (forall a b, R' (f a) (f b) <-> R a b) ->
  list_merge R' (f <$> l1) (f <$> l2) = f <$> list_merge R l1 l2.
Proof.
  intros Hf. revert l2. induction l1 as [|x1 l1 IH1]; intros l2; [by destruct l2|].
  induction l2 as [|x2 l2 IH2]; [done|]. cbn.
  rewrite (decide_ext (R' (f x1) (f x2)) (R x1 x2)) by apply Hf.
  case_decide; cbn; f_equal; [apply (IH1 (x2 :: l2))|apply IH2].
Qed.

Lemma sort_by_fmap {A B} (f : A -> B) (le : A -> A -> bool) (le' : B -> B -> bool) l :
  (forall a b, le' (f a) (f b) = le a b) -> sort_by le' (f <$> l) = f <$> sort_by le l.
Proof.
  intros Hf. unfold sort_by, merge_sort.
  assert (forall a b, bool_rel le' (f a) (f b) <-> bool_rel le a b) as Hr by (intros a b; unfold bool_rel; by rewrite Hf).
  assert (forall (st : list (option (list A))) (x : list A), merge_list_to_stack (bool_rel le') (fmap (M := option) (fmap (M := list) f) <$> st) (f <$> x)
                       = fmap (M := option) (fmap (M := list) f) <$> merge_list_to_stack (bool_rel le) st x) as Hstack.
  { induction st as [|[y|] st IH]; intros x; cbn; [done| |done]. f_equal.
    rewrite (list_merge_fmap f (bool_rel le) (bool_rel le') y x Hr). apply IH. }
  assert (forall (st : list (option (list A))), merge_stack (bool_rel le') (fmap (M := option) (fmap (M := list) f) <$> st) = f <$> merge_stack (bool_rel le) st) as Hmerge.
  { induction st as [|[y|] st IH]; cbn; [done| |done]. rewrite IH. by apply (list_merge_fmap f (bool_rel le) (bool_rel le')). }
  change (@nil (option (list B))) with (fmap (M := option) (fmap (M := list) f) <$> @nil (option (list A))).
  generalize (@nil (option (list A))) as st.
  induction l as [|x l IH]; intros st; cbn; [apply Hmerge|]. rewrite <- IH. f_equal. apply (Hstack st [x]).
Qed.

(** A sorted list is its own sort, when the order is antisymmetric. *)
Lemma sort_by_id {A} (le : A -> A -> bool) l :
  (forall a b, le a b = true \/ le b a = true) ->
  (forall a b c, le a b = true -> le b c = true -> le a c = true) ->
  (forall a b, le a b = true -> le b a = true -> a = b) ->
  StronglySorted (bool_rel le) l -> sort_by le l = l.
Proof.
  intros Htot Htr Hanti Hs.
  assert (AntiSymm (=) (bool_rel le)) by (intros a b; apply Hanti).
  apply (StronglySorted_unique (bool_rel le)); [by apply sort_by_sorted | done | apply sort_by_perm].
Qed.

(** Ordering by a time, then by a tie-break: [ORDER BY time, key] and Python
    tuples [(time, key)]. *)
Section TimeKey.
Context {A : Type} (time : A -> Z) (tie : A -> A -> bool).

Definition time_key_leb (a b : A) : bool :=
  (time a <? time b) || ((time a =? time b) && tie a b).

Lemma time_key_total :
  (forall a b, tie a b = true \/ tie b a = true) ->
  forall a b, time_key_leb a b = true \/ time_key_leb b a = true.
Proof.
  intros Htie a b. unfold time_key_leb.
  destruct (Z.lt_trichotomy (time a) (time b)) as [Hl|[He|Hl]].
  - left. by rewrite (proj2 (Z.ltb_lt _ _) Hl).
  - rewrite He, Z.ltb_irrefl, Z.eqb_refl. cbn. apply Htie.
  - right. by rewrite (proj2 (Z.ltb_lt _ _) Hl).
Qed.

Lemma time_key_trans :
  (forall a b c, tie a b = true -> tie b c = true -> tie a c = true) ->
  forall a b c, time_key_leb a b = true -> time_key_leb b c = true -> time_key_leb a c = true.
Proof.
  intros Htie a b c. unfold time_key_leb.
  rewrite !orb_true_iff, !andb_true_iff, !Z.ltb_lt, !Z.eqb_eq.
  intros [?|[? H1]] [?|[? H2]]; [left; lia|left; lia|left; lia|]. right. split; [lia|eauto].
Qed.

Lemma time_key_antisym a b :
  time_key_leb a b = true -> time_key_leb b a = true -> tie a b = true /\ tie b a = true.
Proof.
  unfold time_key_leb. rewrite !orb_true_iff, !andb_true_iff, !Z.ltb_lt, !Z.eqb_eq.
  intros [?|[? H1]] [?|[? H2]]; [lia|lia|lia|done].
Qed.
End TimeKey.

(** In a sorted list the first [n] elements come before the others. *)
Lemma take_before_drop {A} (le : A -> A -> bool) n l x y :
  StronglySorted (bool_rel le) l -> x ∈ take n l -> y ∈ drop n l -> le x y = true.
Proof.
  intros Hs. revert n. induction Hs as [|a l Hs IH HF]; intros [|n] Hx Hy;
    try by apply not_elem_of_nil in Hx.
  cbn in Hx, Hy. apply elem_of_cons in Hx as [->|Hx]; [|by eapply IH].
  rewrite Forall_forall in HF. apply HF. rewrite <- (take_drop n l). apply elem_of_app. by right.
Qed.

(** [x is not None] *)
Definition is_some {A} (o : option A) : bool := match o with Some _ => true | None => false end.

(** ** Machine integers of the PostgreSQL columns *)

Definition int8_max : Z := 9223372036854775807.
Definition int4_max : Z := 2147483647.
Definition is_int8 (z : Z) : bool := (- int8_max - 1 <=? z) && (z <=? int8_max).
Definition is_int4 (z : Z) : bool := (- int4_max - 1 <=? z) && (z <=? int4_max).

(** ** Lists as tables *)

Section Tables.
  Context {A : Type}.
  Implicit Types (l : list A) (p : A -> bool).

  (** Rows satisfying a boolean predicate. *)
Definition rows_where p l : list A := List.filter p l.

Definition exists_row p l : bool := existsb p l.

  (** [UPDATE ... SET f WHERE p]: every matching row is replaced in place. *)
Definition update_where p (f : A -> A) l : list A :=
    (fun r => if p r then f r else r) <$> l.

Lemma elem_of_rows_where p l x : x ∈ rows_where p l <-> x ∈ l /\ p x = true.
  Proof. unfold rows_where. rewrite !list_elem_of_In, filter_In. done. Qed.

Lemma NoDup_rows_where p l : NoDup l -> NoDup (rows_where p l).
  Proof. rewrite !NoDup_ListNoDup. apply List.NoDup_filter. Qed.

Lemma rows_where_perm p l l' : l ≡ₚ l' -> rows_where p l ≡ₚ rows_where p l'.
  Proof.
    unfold rows_where. induction 1 as [|x l l' _ IH|x y l|l1 l2 l3 _ IH1 _ IH2]; cbn.
    - done.
    - destruct (p x); by rewrite IH.
    - destruct (p x), (p y); try done. apply Permutation_swap.
    - by rewrite IH1.
  Qed.

Lemma exists_row_true p l : exists_row p l = true <-> exists x, x ∈ l /\ p x = true.
  Proof.
    unfold exists_row. rewrite existsb_exists. setoid_rewrite list_elem_of_In. done.
  Qed.

Lemma exists_row_false p l : exists_row p l = false <-> forall x, x ∈ l -> p x = false.
  Proof.
    split.
    - intros H x Hx. destruct (p x) eqn:Hp; [|done].
      assert (exists_row p l = true) by (apply exists_row_true; eauto). congruence.
    - intros H. destruct (exists_row p l) eqn:He; [|done].
      apply exists_row_true in He as (x & Hx & Hp). rewrite (H x Hx) in Hp. done.
  Qed.

Lemma elem_of_update_where p f l x :
    x ∈ update_where p f l <->
    exists y, y ∈ l /\ x = if p y then f y else y.
  Proof. unfold update_where. rewrite list_elem_of_fmap. naive_solver. Qed.

Lemma rows_where_nil p l : rows_where p l = [] <-> forall x, x ∈ l -> p x = false.
  Proof.
    split.
    - intros H x Hx. destruct (p x) eqn:Hp; [|done].
      assert (x ∈ rows_where p l) as Hin by (by apply elem_of_rows_where).
      rewrite H in Hin. by apply not_elem_of_nil in Hin.
    - intros H. destruct (rows_where p l) as [|y l'] eqn:Hl; [done|].
      assert (y ∈ rows_where p l) as [Hy Hp]%elem_of_rows_where by (rewrite Hl; by left).
      rewrite (H y Hy) in Hp. done.
  Qed.

Lemma update_where_ext (p q : A -> bool) (f g : A -> A) l :
    (forall x, x ∈ l -> p x = q x) -> (forall x, x ∈ l -> q x = true -> f x = g x) ->
    update_where p f l = update_where q g l.
  Proof.
    intros Hpq Hfg. unfold update_where. apply list_fmap_ext. intros i x Hx.
    apply list_elem_of_lookup_2 in Hx. rewrite (Hpq x Hx). destruct (q x) eqn:Hq; auto.
  Qed.

Lemma update_where_none p f l :
    (forall x, x ∈ l -> p x = false) -> update_where p f l = l.
  Proof.
    induction l as [|x l IH]; intros H; [done|].
    unfold update_where in *; simpl. rewrite (H x) by left.
    f_equal. apply IH. intros; apply H; by right.
  Qed.
End Tables.

(** ** Rows a statement leaves alone *)

Section OtherRows.
Context {row : Type}.
Implicit Types (p keep : row -> bool) (t : list row).

Lemma rows_where_update keep p f t :
  (forall r, p r = true -> keep r = false /\ keep (f r) = false) ->
  rows_where keep (update_where p f t) = rows_where keep t.
Proof.
  intros Hp. induction t as [|r t IH]; [done|]. unfold rows_where, update_where in *. cbn.
  destruct (p r) eqn:Hr; [|by rewrite IH]. destruct (Hp r Hr) as [-> Hf]. by rewrite Hf, IH.
Qed.

Lemma rows_where_snoc keep t r : keep r = false -> rows_where keep (t ++ [r]) = rows_where keep t.
Proof.
  intros Hk. unfold rows_where. rewrite List.filter_app. cbn. by rewrite Hk, app_nil_r.
Qed.

(** A narrower selection of the same rows. *)
Lemma rows_where_sub p keep t :
  (forall r, p r = true -> keep r = true) -> rows_where p (rows_where keep t) = rows_where p t.
Proof.
  intros Hp. induction t as [|r t IH]; [done|]. unfold rows_where in *. cbn.
  destruct (keep r) eqn:Hk; cbn; [by rewrite IH|].
  destruct (p r) eqn:Hr; [|done]. specialize (Hp r Hr). congruence.
Qed.

Lemma rows_where_narrow p keep t t' :
  (forall r, p r = true -> keep r = true) -> rows_where keep t = rows_where keep t' ->
  rows_where p t = rows_where p t'.
Proof. intros Hp Ht. rewrite <- (rows_where_sub p keep t), Ht, rows_where_sub; done. Qed.
End OtherRows.
