(* ===== verification/Regex.v ===== *)
(** * Regular expressions of the source

    The validators of the program are Python [re] patterns used with
    [fullmatch] and PostgreSQL [~] patterns anchored by [^] and [$].  This
    file has the fragment they use (character classes, literal text,
    sequence, an optional group, bounded and unbounded repetition of a
    class), an executable backtracking matcher, its specification by the
    language of the pattern, and the patterns shared by several components
    with their direct characterisations. *)

From S2P Require Import Prelude.

Inductive regex : Type :=
  | RChar (f : N -> bool)
  | RLit (t : pystr)
  | RSeq (a b : regex)
  | ROpt (a : regex)
  | RRep (lo hi : nat) (f : N -> bool)
  | RStar (f : N -> bool).

(** ** The matcher *)

Fixpoint lit_match (t : pystr) (k : pystr -> bool) (s : pystr) : bool :=
  match t, s with
  | [], _ => k s
  | c :: t', d :: s' => bool_decide (c = d) && lit_match t' k s'
  | _ :: _, [] => false
  end.

Fixpoint rep_match (f : N -> bool) (lo hi : nat) (k : pystr -> bool) (s : pystr) : bool :=
  match hi with
  | O => Nat.eqb lo 0 && k s
  | S hi' =>
      match s with
      | c :: s' => f c && rep_match f (pred lo) hi' k s'
      | [] => false
      end || (Nat.eqb lo 0 && k s)
  end.

Fixpoint star_match (f : N -> bool) (k : pystr -> bool) (s : pystr) : bool :=
  match s with
  | c :: s' => f c && star_match f k s'
  | [] => false
  end || k s.

Fixpoint rmatch (r : regex) (k : pystr -> bool) (s : pystr) : bool :=
  match r with
  | RChar f => match s with c :: s' => f c && k s' | [] => false end
  | RLit t => lit_match t k s
  | RSeq a b => rmatch a (rmatch b k) s
  | ROpt a => rmatch a k s || k s
  | RRep lo hi f => rep_match f lo hi k s
  | RStar f => star_match f k s
  end.

Definition at_end (s : pystr) : bool := match s with [] => true | _ => false end.

(** [pattern.fullmatch(s) is not None] *)
Definition fullmatch (r : regex) (s : pystr) : bool := rmatch r at_end s.

#[global] Arguments fullmatch : simpl never.

(** ** The language of a pattern *)

Fixpoint lang (r : regex) (s : pystr) : Prop :=
  match r with
  | RChar f => exists c, s = [c] /\ f c = true
  | RLit t => s = t
  | RSeq a b => exists s1 s2, s = s1 ++ s2 /\ lang a s1 /\ lang b s2
  | ROpt a => s = [] \/ lang a s
  | RRep lo hi f => (lo <= length s <= hi)%nat /\ Forall (fun c => f c = true) s
  | RStar f => Forall (fun c => f c = true) s
  end.

Lemma lit_match_spec t k s :
  lit_match t k s = true <-> exists s2, s = t ++ s2 /\ k s2 = true.
Proof.
  revert s; induction t as [|c t IH]; intros s; simpl.
  - naive_solver.
  - destruct s as [|d s]; [naive_solver|].
    rewrite andb_true_iff, bool_decide_eq_true, IH. naive_solver.
Qed.

Lemma rep_match_spec f lo hi k s :
  rep_match f lo hi k s = true <->
  exists s1 s2, s = s1 ++ s2 /\ ((lo <= length s1 <= hi)%nat /\ Forall (fun c => f c = true) s1)
                /\ k s2 = true.
Proof.
  revert lo s; induction hi as [|hi IH]; intros lo s; simpl.
  - rewrite andb_true_iff, Nat.eqb_eq. split.
    + intros [-> Hk]. exists [], s. simpl. repeat split; auto.
    + intros ([|c s1] & s2 & -> & [[? ?] _] & Hk); simpl in *; [|lia]. split; [lia|done].
  - rewrite orb_true_iff, andb_true_iff, Nat.eqb_eq. split.
    + intros [H|[-> Hk]].
      * destruct s as [|c s]; [done|]. apply andb_true_iff in H as [Hc H].
        apply IH in H as (s1 & s2 & -> & [[? ?] HF] & Hk).
        exists (c :: s1), s2. simpl. repeat split; auto; lia.
      * exists [], s. simpl. repeat split; auto; lia.
    + intros ([|c s1] & s2 & -> & [[? ?] HF] & Hk); simpl in *.
      * right. split; [lia|done].
      * left. inversion HF; subst. apply andb_true_iff. split; [done|].
        apply IH. exists s1, s2. repeat split; auto; lia.
Qed.

Lemma star_match_spec f k s :
  star_match f k s = true <->
  exists s1 s2, s = s1 ++ s2 /\ Forall (fun c => f c = true) s1 /\ k s2 = true.
Proof.
  induction s as [|c s IH]; simpl.
  - split; [intros Hk; by exists [], []|].
    intros (s1 & s2 & Heq & _ & Hk). symmetry in Heq. apply app_nil in Heq as [-> ->]. done.
  - rewrite orb_true_iff, andb_true_iff, IH. split.
    + intros [[Hc (s1 & s2 & -> & HF & Hk)]|Hk].
      * exists (c :: s1), s2. auto.
      * exists [], (c :: s). auto.
    + intros ([|d s1] & s2 & Heq & HF & Hk); simpl in *.
      * right. by rewrite Heq.
      * left. injection Heq as -> ->. inversion HF; subst. eauto 10.
Qed.

Lemma rmatch_spec r k s :
  rmatch r k s = true <-> exists s1 s2, s = s1 ++ s2 /\ lang r s1 /\ k s2 = true.
Proof.
  revert k s; induction r as [f|t|a IHa b IHb|a IHa|lo hi f|f]; intros k s; simpl.
  - split.
    + destruct s as [|c s]; [done|]. intros [Hc Hk]%andb_true_iff. exists [c], s. eauto.
    + intros (s1 & s2 & -> & (c & -> & Hc) & Hk). simpl. by rewrite Hc.
  - rewrite lit_match_spec. naive_solver.
  - rewrite IHa. setoid_rewrite IHb. split.
    + intros (s1 & s2 & -> & H1 & s3 & s4 & -> & H3 & Hk).
      exists (s1 ++ s3), s4. rewrite app_assoc. eauto 10.
    + intros (s1 & s2 & -> & (s3 & s4 & -> & H3 & H4) & Hk).
      exists s3, (s4 ++ s2). rewrite app_assoc. eauto 10.
  - rewrite orb_true_iff, IHa. split.
    + intros [(s1 & s2 & -> & H1 & Hk)|Hk]; [eauto 10|].
      exists [], s. auto.
    + intros (s1 & s2 & -> & [->|H1] & Hk); [auto | left; eauto 10].
  - apply rep_match_spec.
  - apply star_match_spec.
Qed.

(** The matcher decides the language of the pattern. *)
Theorem fullmatch_lang r s : fullmatch r s = true <-> lang r s.
Proof.
  unfold fullmatch. rewrite rmatch_spec. split.
  - intros (s1 & [|c s2] & -> & H & Hk); [by rewrite app_nil_r | done].
  - intros H. exists s, []. rewrite app_nil_r. auto.
Qed.

(** ** Character classes *)

Definition in_range (lo hi c : N) : bool := ((lo <=? c) && (c <=? hi))%N.
Definition is_upper : N -> bool := in_range 65 90.
Definition is_lower : N -> bool := in_range 97 122.
Definition is_digit : N -> bool := in_range 48 57.
(** [[A-Za-z0-9]] *)
Definition is_alnum (c : N) : bool := is_upper c || is_lower c || is_digit c.
(** [[0-9a-f]] *)
Definition is_hex (c : N) : bool := is_digit c || in_range 97 102 c.
(** one of the characters of a literal *)
Definition one_of (t : string) (c : N) : bool := bool_decide (c ∈ u t).

Lemma is_hex_alnum c : is_hex c = true -> is_alnum c = true.
Proof.
  unfold is_hex, is_alnum, is_digit, is_lower, in_range.
  rewrite !orb_true_iff, !andb_true_iff, !N.leb_le. lia.
Qed.

Lemma all_hex_alnum s :
  Forall (fun c => is_hex c = true) s -> Forall (fun c => is_alnum c = true) s.
Proof. intros H. eapply Forall_impl; [exact H|]. apply is_hex_alnum. Qed.

(** Two patterns that many components share: [[0-9a-f]{64}] and
    [sha256:[0-9a-f]{64}]. *)
Definition hex64_re : regex := RRep 64 64 is_hex.
Definition lets_digest_re : regex := RSeq (RLit (u "sha256:")) hex64_re.

Lemma hex64_spec s :
  fullmatch hex64_re s = true <-> length s = 64%nat /\ Forall (fun c => is_hex c = true) s.
Proof.
  rewrite fullmatch_lang; unfold hex64_re; cbn [lang].
  split; intros [H ?]; (split; [lia | done]).
Qed.

Lemma lets_digest_spec s :
  fullmatch lets_digest_re s = true <->
  exists d, s = u "sha256:" ++ d /\ fullmatch hex64_re d = true.
Proof.
  rewrite fullmatch_lang. unfold lets_digest_re.
  change (lang (RSeq (RLit (u "sha256:")) hex64_re) s)
    with (exists s1 s2, s = s1 ++ s2 /\ s1 = u "sha256:" /\ lang hex64_re s2).
  setoid_rewrite fullmatch_lang. split.
  - intros (s1 & s2 & -> & -> & H). by exists s2.
  - intros (d & -> & H). by exists (u "sha256:"), d.
Qed.

Lemma starts_with_spec p s : starts_with p s = true <-> exists s2, s = p ++ s2.
Proof.
  revert s; induction p as [|c p IH]; intros s; simpl; [naive_solver|].
  destruct s as [|d s]; [naive_solver|].
  rewrite andb_true_iff, bool_decide_eq_true, IH. naive_solver.
Qed.

Lemma remove_prefix_app p s : remove_prefix p (p ++ s) = s.
Proof.
  unfold remove_prefix.
  assert (starts_with p (p ++ s) = true) as -> by (apply starts_with_spec; eauto).
  by rewrite drop_app_length.
Qed.
