(* ===== verification/Errors.v ===== *)
(** * Typed errors of the library (src/src/astralplane/errors.py)

    [exn_class] is the class hierarchy of [PlaneError] with the classes the
    repositories add, the builtin classes the handlers distinguish, and the
    PostgreSQL driver errors a statement can raise.  An exception value is a
    class with its message.  [PlaneError.__init__] bounds the diagnostic code
    and metadata; that bounding is [_resolve_code] and [_bounded_metadata]. *)

From stdpp Require Import pretty.
From S2P Require Import Prelude Regex.

(** ** The class hierarchy *)

Inductive exn_class : Type :=
  (* builtins *)
  | BaseException_ | KeyboardInterrupt_ | SystemExit_
  | Exception_ | RuntimeError_ | TypeError_ | ValueError_ | AssertionError_ | OverflowError_
  | JSONDecodeError_ | UnicodeDecodeError_ | UnicodeEncodeError_
  (* a class of the embedding program, by its name *)
  | HostError (name : pystr)
  (* errors of the PostgreSQL driver *)
  | PgCheckViolation | PgUniqueViolation | PgForeignKeyViolation
  | PgNumericOutOfRange | PgInFailedTransaction | PgOperationalError
  | PgInsufficientPrivilege | PgInvalidTextRepresentation
  (* errors.py *)
  | PlaneError
  | PoolClosedError | PoolCheckoutError | PoolInUseError | ConnectionResetError
  | PoolReleaseError | PoolShutdownError
  | TransactionStateError | TransactionStatementError | TransactionCleanupError
  | TransactionCommitError | TransactionCommitOutcomeUnknownError
  | TransactionRollbackError
  | SQLContractError | SchemaRevisionError | MigrationDefinitionError
  | InitializationError | ReconciliationError | DomainValidationError
  | errors_RepositoryConflictError (* of errors.py; nothing raises it *)
  (* repositories/__init__.py *)
  | RepositoryError | RepositoryConflictError | RepositoryDataError
  | RepositoryNotFoundError | RepositoryValidationError
  (* authority/repository.py *)
  | AuthorityIdempotencyConflictError | AuthorityCompareAndSetConflictError
  | ReceiptClaimConflictError | ReceiptWatermarkConflictError
  (* repositories/stop_epochs.py *)
  | StopEpochConflictError | OwnerStoppedError
  (* audit_retention.py *)
  | AuditRetentionError
  (* endpoint_readiness.py, joint_restore.py, recovery.py *)
  | EndpointReadinessError | EndpointFenceError | JointRestoreError | SessionRetirementError.

#[global] Instance exn_class_eq_dec : EqDecision exn_class.
Proof. solve_decision. Defined.

(** Direct base classes. *)
Definition bases (c : exn_class) : list exn_class :=
  match c with
  | BaseException_ => []
  | KeyboardInterrupt_ | SystemExit_ | Exception_ => [BaseException_]
  | RuntimeError_ | TypeError_ | ValueError_ | AssertionError_ | OverflowError_ | HostError _ => [Exception_]
  | PgCheckViolation | PgUniqueViolation | PgForeignKeyViolation
  | PgNumericOutOfRange | PgInFailedTransaction | PgOperationalError
  | PgInsufficientPrivilege | PgInvalidTextRepresentation => [Exception_]
  | JSONDecodeError_ | UnicodeDecodeError_ | UnicodeEncodeError_ => [ValueError_]
  | PlaneError => [RuntimeError_]
  | PoolClosedError | PoolCheckoutError | PoolInUseError | ConnectionResetError
  | PoolReleaseError | PoolShutdownError
  | TransactionStateError | TransactionCommitError
  | SchemaRevisionError | InitializationError | ReconciliationError
  | errors_RepositoryConflictError => [PlaneError]
  | SQLContractError | MigrationDefinitionError | DomainValidationError =>
      [PlaneError; ValueError_]
  | TransactionStatementError | TransactionCleanupError => [TransactionStateError]
  | TransactionCommitOutcomeUnknownError => [TransactionCommitError]
  | TransactionRollbackError => [TransactionCleanupError]
  | RepositoryError | AuditRetentionError
  | EndpointReadinessError | JointRestoreError | SessionRetirementError => [PlaneError]
  | EndpointFenceError => [EndpointReadinessError]
  | RepositoryConflictError | RepositoryDataError | RepositoryNotFoundError => [RepositoryError]
  | RepositoryValidationError => [RepositoryError; ValueError_]
  | AuthorityIdempotencyConflictError | AuthorityCompareAndSetConflictError
  | ReceiptClaimConflictError | ReceiptWatermarkConflictError
  | StopEpochConflictError | OwnerStoppedError => [RepositoryConflictError]
  end.

(** [isinstance(exc, d)] for an exception of class [c]; the hierarchy is at
    most seven levels deep. *)
Fixpoint subclass_fuel (n : nat) (c d : exn_class) : bool :=
  bool_decide (c = d) ||
  match n with
  | O => false
  | S n' => existsb (fun b => subclass_fuel n' b d) (bases c)
  end.
Definition isinstance (c d : exn_class) : bool := subclass_fuel 7 c d.

(** The class attribute [default_code]; classes outside the hierarchy of
    [PlaneError] have none. *)
Definition default_code (c : exn_class) : option string :=
  match c with
  | BaseException_ | KeyboardInterrupt_ | SystemExit_
  | Exception_ | RuntimeError_ | TypeError_ | ValueError_ | AssertionError_ | OverflowError_ | HostError _
  | PgCheckViolation | PgUniqueViolation | PgForeignKeyViolation
  | PgNumericOutOfRange | PgInFailedTransaction | PgOperationalError
  | PgInsufficientPrivilege | PgInvalidTextRepresentation
  | JSONDecodeError_ | UnicodeDecodeError_ | UnicodeEncodeError_ => None
  | PlaneError => Some "plane_error"
  | PoolClosedError => Some "pool_closed"
  | PoolCheckoutError => Some "pool_checkout_failed"
  | PoolInUseError => Some "pool_in_use"
  | ConnectionResetError => Some "connection_reset_failed"
  | PoolReleaseError => Some "pool_release_failed"
  | PoolShutdownError => Some "pool_shutdown_failed"
  | TransactionStateError => Some "transaction_state"
  | TransactionStatementError => Some "transaction_statement_failed"
  | TransactionCleanupError => Some "transaction_cleanup_failed"
  | TransactionCommitError => Some "transaction_commit_failed"
  | TransactionCommitOutcomeUnknownError => Some "transaction_commit_outcome_unknown"
  | TransactionRollbackError => Some "transaction_rollback_failed"
  | SQLContractError => Some "sql_contract"
  | SchemaRevisionError => Some "schema_revision_incompatible"
  | MigrationDefinitionError => Some "migration_definition"
  | InitializationError => Some "initialization_failed"
  | ReconciliationError => Some "reconciliation_failed"
  | DomainValidationError => Some "domain_validation"
  | errors_RepositoryConflictError => Some "repository_conflict"
  | RepositoryError => Some "repository_error"
  | RepositoryConflictError => Some "repository_conflict"
  | RepositoryDataError => Some "repository_data_invalid"
  | RepositoryNotFoundError => Some "repository_not_found"
  | RepositoryValidationError => Some "repository_validation"
  | AuthorityIdempotencyConflictError => Some "authority_idempotency_conflict"
  | AuthorityCompareAndSetConflictError => Some "authority_compare_and_set_conflict"
  | ReceiptClaimConflictError => Some "authority_receipt_claim_conflict"
  | ReceiptWatermarkConflictError => Some "authority_receipt_watermark_conflict"
  | StopEpochConflictError => Some "stop_epoch_conflict"
  | OwnerStoppedError => Some "owner_stopped"
  | AuditRetentionError => Some "audit_retention_failed"
  | EndpointReadinessError => Some "endpoint_readiness_unavailable"
  | EndpointFenceError => Some "endpoint_fence_stale"
  | JointRestoreError => Some "joint_restore_unavailable"
  | SessionRetirementError => Some "session_retirement_unavailable"
  end%string.

(** The class attribute [discard_connection]: set by a class, else inherited
    along the method resolution order, [False] outside the hierarchy
    ([getattr(..., False)]). *)
Definition sets_discard (c : exn_class) : option bool :=
  match c with
  | PlaneError => Some false
  | TransactionStatementError | TransactionCleanupError
  | TransactionCommitOutcomeUnknownError => Some true
  | _ => None
  end.

Fixpoint discard_fuel (n : nat) (c : exn_class) : bool :=
  match sets_discard c with
  | Some b => b
  | None =>
      match n with
      | O => false
      | S n' => match bases c with [] => false | b :: _ => discard_fuel n' b end
      end
  end.
Definition discard_connection (c : exn_class) : bool := discard_fuel 7 c.

(** [type(exc).__name__] *)
Definition type_name (c : exn_class) : pystr :=
  match c with
  | BaseException_ => u "BaseException" | KeyboardInterrupt_ => u "KeyboardInterrupt"
  | SystemExit_ => u "SystemExit" | Exception_ => u "Exception" | RuntimeError_ => u "RuntimeError"
  | TypeError_ => u "TypeError" | ValueError_ => u "ValueError" | AssertionError_ => u "AssertionError"
  | OverflowError_ => u "OverflowError"
  | HostError name => name
  | PgCheckViolation => u "CheckViolation" | PgUniqueViolation => u "UniqueViolation"
  | PgForeignKeyViolation => u "ForeignKeyViolation" | PgNumericOutOfRange => u "NumericValueOutOfRange"
  | PgInFailedTransaction => u "InFailedSqlTransaction" | PgOperationalError => u "OperationalError"
  | PlaneError => u "PlaneError" | PoolClosedError => u "PoolClosedError"
  | PoolCheckoutError => u "PoolCheckoutError" | PoolInUseError => u "PoolInUseError"
  | ConnectionResetError => u "ConnectionResetError" | PoolReleaseError => u "PoolReleaseError"
  | PoolShutdownError => u "PoolShutdownError" | TransactionStateError => u "TransactionStateError"
  | TransactionStatementError => u "TransactionStatementError"
  | TransactionCleanupError => u "TransactionCleanupError"
  | TransactionCommitError => u "TransactionCommitError"
  | TransactionCommitOutcomeUnknownError => u "TransactionCommitOutcomeUnknownError"
  | TransactionRollbackError => u "TransactionRollbackError" | SQLContractError => u "SQLContractError"
  | SchemaRevisionError => u "SchemaRevisionError" | MigrationDefinitionError => u "MigrationDefinitionError"
  | InitializationError => u "InitializationError" | ReconciliationError => u "ReconciliationError"
  | DomainValidationError => u "DomainValidationError"
  | errors_RepositoryConflictError | RepositoryConflictError => u "RepositoryConflictError"
  | RepositoryError => u "RepositoryError" | RepositoryDataError => u "RepositoryDataError"
  | RepositoryNotFoundError => u "RepositoryNotFoundError"
  | RepositoryValidationError => u "RepositoryValidationError"
  | AuthorityIdempotencyConflictError => u "AuthorityIdempotencyConflictError"
  | AuthorityCompareAndSetConflictError => u "AuthorityCompareAndSetConflictError"
  | ReceiptClaimConflictError => u "ReceiptClaimConflictError"
  | ReceiptWatermarkConflictError => u "ReceiptWatermarkConflictError"
  | JSONDecodeError_ => u "JSONDecodeError" | UnicodeDecodeError_ => u "UnicodeDecodeError"
  | UnicodeEncodeError_ => u "UnicodeEncodeError"
  | PgInsufficientPrivilege => u "InsufficientPrivilege"
  | PgInvalidTextRepresentation => u "InvalidTextRepresentation"
  | AuditRetentionError => u "AuditRetentionError"
  | EndpointReadinessError => u "EndpointReadinessError" | EndpointFenceError => u "EndpointFenceError"
  | JointRestoreError => u "JointRestoreError" | SessionRetirementError => u "SessionRetirementError"
  | StopEpochConflictError => u "StopEpochConflictError" | OwnerStoppedError => u "OwnerStoppedError"
  end.

(** ** Exception values *)

Record exn : Type := Exn { exn_cls : exn_class; exn_msg : string }.

#[global] Instance exn_eq_dec : EqDecision exn.
Proof. solve_decision. Defined.

Abbreviation result := (outcome exn).

(** [raise Cls(msg)] *)
Abbreviation raise c msg := (Err (Exn c msg)).
Definition guard_raise (ok : bool) (c : exn_class) (msg : string) : result unit :=
  raise_unless ok (Exn c msg).

Definition is_exception (e : exn) : bool := isinstance (exn_cls e) Exception_.
Definition is_plane_error (e : exn) : bool := isinstance (exn_cls e) PlaneError.

(** ** Bounded diagnostics *)

Definition MAX_METADATA_ENTRIES : nat := 16.
Definition MAX_METADATA_KEY_LENGTH : nat := 64.
Definition MAX_METADATA_VALUE_LENGTH : nat := 512.
Definition MAX_CODE_LENGTH : nat := 64.

(** [[A-Za-z0-9][A-Za-z0-9._:-]*] *)
Definition error_identifier_re : regex :=
  RSeq (RChar is_alnum) (RStar (fun c => is_alnum c || one_of "._:-" c)).

(** [[\x00-\x1f\x7f-\x9f]] *)
Definition is_control (c : N) : bool := in_range 0 31 c || in_range 127 159 c.

(** Diagnostic values: a string, [None], a bool, an int, a float (given by
    the text [str] prints for it), or anything else. *)
Inductive diag_value : Type :=
  | DStr (s : pystr)
  | DNone
  | DBool (b : bool)
  | DInt (z : Z)
  | DFloat (text : pystr)
  | DOther.

Definition hex_digit (n : N) : N := if (n <? 10)%N then (48 + n)%N else (87 + n)%N.

(** The text [\xNN] that replaces a control character. *)
Definition escape_control (c : N) : pystr :=
  u "\x" ++ [hex_digit (c / 16); hex_digit (c mod 16)].

Definition sub_controls (s : pystr) : pystr :=
  s ≫= fun c => if is_control c then escape_control c else [c].

Definition bit_length (z : Z) : Z := if z =? 0 then 0 else Z.log2 (Z.abs z) + 1.

Definition UNSUPPORTED : pystr := u "<unsupported>".

Definition _diagnostic_value (v : diag_value) : pystr :=
  let finish t := take MAX_METADATA_VALUE_LENGTH (sub_controls t) in
  match v with
  | DStr s => finish (take MAX_METADATA_VALUE_LENGTH s)
  | DNone => finish (u "None")
  | DBool b => finish (u (if b then "True" else "False"))
  | DInt z => if 1700 <? bit_length z then UNSUPPORTED else finish (u (pretty z))
  | DFloat t => finish t
  | DOther => UNSUPPORTED
  end.

(** The [metadata] argument: absent, not a [Mapping], or a mapping given by
    its items, a key being [None] when it is not a string. *)
Inductive metadata_arg : Type :=
  | MetaNone
  | MetaNotMapping
  | MetaItems (items : list (option pystr * diag_value)).

Definition check_metadata_key (k : option pystr) : result pystr :=
  match k with
  | None => raise TypeError_ "PlaneError metadata keys must be strings"
  | Some key =>
      raise_if (Nat.ltb MAX_METADATA_KEY_LENGTH (length key))
        (Exn ValueError_ "PlaneError metadata key exceeds its maximum length") ;;
      raise_unless (fullmatch error_identifier_re key)
        (Exn ValueError_ "PlaneError metadata key contains unsupported characters") ;;
      Ok key
  end.

Definition meta_key_le (a b : pystr * diag_value) : Prop := str_le (fst a) (fst b).
#[global] Instance meta_key_le_dec : RelDecision meta_key_le.
Proof. intros a b. unfold meta_key_le. apply _. Defined.

Definition _bounded_metadata (m : metadata_arg) : result (list (pystr * pystr)) :=
  match m with
  | MetaNone => Ok []
  | MetaNotMapping => raise TypeError_ "PlaneError metadata must be a Mapping or None"
  | MetaItems items =>
      keyed ← map_each (fun kv => k ← check_metadata_key (fst kv); Ok (k, snd kv)) items;
      Ok ((fun kv => (fst kv, _diagnostic_value (snd kv)))
            <$> take MAX_METADATA_ENTRIES (merge_sort meta_key_le keyed))
  end.

(** The [code] argument: absent, a string, or something else. *)
Inductive code_arg : Type := CodeNone | CodeStr (s : pystr) | CodeOther.

Definition _resolve_code (code : code_arg) (default : pystr) : result pystr :=
  selected ← match code with
             | CodeOther => raise TypeError_ "PlaneError code must be a string"
             | CodeNone | CodeStr [] => Ok default
             | CodeStr s => Ok s
             end;
  raise_if (Nat.ltb MAX_CODE_LENGTH (length selected))
    (Exn ValueError_ "PlaneError code exceeds its maximum length") ;;
  raise_unless (fullmatch error_identifier_re selected)
    (Exn ValueError_ "PlaneError code contains unsupported characters") ;;
  Ok selected.

(** What [PlaneError.__init__] stores. *)
Record plane_error : Type := {
  pe_code : pystr;
  pe_metadata : list (pystr * pystr)
}.

Definition plane_error_init (c : exn_class) (code : code_arg) (m : metadata_arg)
  : result plane_error :=
  resolved ← _resolve_code code (u (default "" (default_code c)));
  meta ← _bounded_metadata m;
  Ok {| pe_code := resolved; pe_metadata := meta |}.

(** ** Properties *)

(** A diagnostic text: at most [n] characters, none of them a control. *)
Definition printable (n : nat) (s : pystr) : Prop :=
  (length s <= n)%nat /\ Forall (fun c => is_control c = false) s.

Lemma is_control_spec c :
  is_control c = true <-> (c <= 31 \/ 127 <= c <= 159)%N.
Proof.
  unfold is_control, in_range. rewrite orb_true_iff, !andb_true_iff, !N.leb_le. lia.
Qed.

Lemma hex_digit_not_control n : (n < 16)%N -> is_control (hex_digit n) = false.
Proof.
  intros Hn. destruct (is_control (hex_digit n)) eqn:H; [|done].
  apply is_control_spec in H. unfold hex_digit in H. destruct (n <? 10)%N eqn:Hlt;
    [apply N.ltb_lt in Hlt | apply N.ltb_ge in Hlt]; lia.
Qed.

Lemma escape_control_printable c :
  is_control c = true -> Forall (fun d => is_control d = false) (escape_control c).
Proof.
  intros Hc%is_control_spec. unfold escape_control.
  apply Forall_app; split; [by repeat constructor|].
  repeat constructor; apply hex_digit_not_control.
  - apply N.Div0.div_lt_upper_bound; lia.
  - by apply N.mod_lt.
Qed.

Lemma sub_controls_printable s : Forall (fun d => is_control d = false) (sub_controls s).
Proof.
  unfold sub_controls. induction s as [|c s IH]; simpl; [constructor|].
  apply Forall_app; split; [|exact IH].
  destruct (is_control c) eqn:Hc; [by apply escape_control_printable | by repeat constructor].
Qed.

Lemma take_printable n s :
  Forall (fun c => is_control c = false) s -> printable n (take n s).
Proof.
  intros H. split; [rewrite length_take; lia|]. by apply Forall_take.
Qed.

Lemma diagnostic_value_printable v :
  printable MAX_METADATA_VALUE_LENGTH (_diagnostic_value v).
Proof.
  assert (printable MAX_METADATA_VALUE_LENGTH UNSUPPORTED) as Hu.
  { split; [vm_compute; lia | repeat constructor]. }
  unfold _diagnostic_value. repeat case_match;
    first [exact Hu | apply take_printable, sub_controls_printable].
Qed.

Lemma check_metadata_key_Ok k key :
  check_metadata_key k = Ok key ->
  k = Some key /\ (length key <= MAX_METADATA_KEY_LENGTH)%nat
  /\ fullmatch error_identifier_re key = true.
Proof.
  destruct k as [s|]; simpl; [|done]. intros H. inv_ok. subst.
  apply Nat.ltb_ge in Hs. auto.
Qed.

#[global] Instance meta_key_le_total : Total meta_key_le.
Proof. intros a b. apply (total str_le). Qed.
#[global] Instance meta_key_le_trans : Transitive meta_key_le.
Proof. intros a b c. apply (transitivity (R := str_le)). Qed.

Lemma keyed_items_Ok items keyed :
  map_each (fun kv : option pystr * diag_value =>
    k ← check_metadata_key (fst kv); Ok (k, snd kv)) items = Ok keyed ->
  Forall (fun kv => (length (fst kv) <= MAX_METADATA_KEY_LENGTH)%nat
                    /\ fullmatch error_identifier_re (fst kv) = true) keyed.
Proof.
  intros H%map_each_Ok. induction H as [|[k v] y l l' Hy HF IH]; constructor; [|done].
  simpl in Hy. inv_ok. subst y. apply check_metadata_key_Ok in Hs as (_ & ? & ?). auto.
Qed.

(** [x] is one of the sorted keys' entries: the diagnostics an error carries
    are bounded in number and size, ordered by key, and free of control
    characters. *)
Definition bounded_diagnostics (e : plane_error) : Prop :=
  (length (pe_code e) <= MAX_CODE_LENGTH)%nat
  /\ (length (pe_metadata e) <= MAX_METADATA_ENTRIES)%nat
  /\ StronglySorted (fun a b : pystr * pystr => str_le (fst a) (fst b)) (pe_metadata e)
  /\ Forall (fun kv => (length (fst kv) <= MAX_METADATA_KEY_LENGTH)%nat
                       /\ fullmatch error_identifier_re (fst kv) = true
                       /\ printable MAX_METADATA_VALUE_LENGTH (snd kv)) (pe_metadata e).

Lemma StronglySorted_take {A} (R : A -> A -> Prop) n l :
  StronglySorted R l -> StronglySorted R (take n l).
Proof.
  intros H. revert n. induction H as [|a l HS IH HF]; intros [|n]; simpl; try constructor.
  - apply IH.
  - by apply Forall_take.
Qed.

Lemma StronglySorted_fmap_key {A B} (R : B -> B -> Prop) (f : A -> B) l :
  StronglySorted (fun a b => R (f a) (f b)) l -> StronglySorted R (f <$> l).
Proof.
  induction 1 as [|a l HS IH HF]; simpl; constructor; [done|].
  by apply Forall_fmap.
Qed.

Lemma bounded_metadata_ok m l :
  _bounded_metadata m = Ok l ->
  (length l <= MAX_METADATA_ENTRIES)%nat
  /\ StronglySorted (fun a b : pystr * pystr => str_le (fst a) (fst b)) l
  /\ Forall (fun kv => (length (fst kv) <= MAX_METADATA_KEY_LENGTH)%nat
                       /\ fullmatch error_identifier_re (fst kv) = true
                       /\ printable MAX_METADATA_VALUE_LENGTH (snd kv)) l.
Proof.
  destruct m as [| |items]; simpl; intros H; [injection H as <- | done | inv_ok; subst l].
  { split; [simpl; lia | repeat constructor]. }
  apply keyed_items_Ok in Hs. split; [|split].
  - rewrite length_fmap, length_take. lia.
  - apply StronglySorted_fmap_key. apply StronglySorted_take.
    apply (StronglySorted_merge_sort meta_key_le).
  - apply Forall_fmap, Forall_take. rewrite merge_sort_Permutation.
    eapply Forall_impl; [exact Hs|]. intros [k dv] [? ?]. simpl.
    auto using diagnostic_value_printable.
Qed.

Lemma resolve_code_ok code d c :
  _resolve_code code d = Ok c ->
  (length c <= MAX_CODE_LENGTH)%nat /\ fullmatch error_identifier_re c = true.
Proof. unfold _resolve_code. intros H. inv_ok. subst. apply Nat.ltb_ge in Hs0. auto. Qed.

(** Whatever code and metadata a caller passes, an error object that
    [PlaneError.__init__] builds has a code of at most 64 characters, at most
    16 metadata entries ordered by key, keys of at most 64 identifier
    characters and values of at most 512 characters without any control
    character. *)
Theorem plane_error_bounded c code m e :
  plane_error_init c code m = Ok e -> bounded_diagnostics e.
Proof.
  unfold plane_error_init. intros H. inv_ok. subst e.
  apply resolve_code_ok in Hs as [? _]. apply bounded_metadata_ok in Hs0. done.
Qed.

Lemma plane_error_bounded_witness :
  exists e,
    plane_error_init PoolInUseError CodeNone
      (MetaItems [(Some (u "borrowed"), DInt 3); (Some (u "a"), DStr [10; 65]%N)]) = Ok e
    /\ pe_metadata e = [(u "a", u "\x0aA"); (u "borrowed", u "3")]
    /\ bounded_diagnostics e.
Proof.
  eexists. split; [vm_compute; reflexivity|]. split; [reflexivity|].
  eapply (plane_error_bounded PoolInUseError CodeNone
      (MetaItems [(Some (u "borrowed"), DInt 3); (Some (u "a"), DStr [10; 65]%N)])).
  vm_compute. reflexivity.
Defined.

(** A connection is discarded by error type exactly for lost statements,
    failed cleanup (failed rollback included) and unknown commit outcomes. *)
Lemma discard_connection_spec c :
  discard_connection c = true <->
  c ∈ [TransactionStatementError; TransactionCleanupError;
       TransactionRollbackError; TransactionCommitOutcomeUnknownError].
Proof.
  split; [|intros H; repeat (apply elem_of_cons in H as [->|H]; [done|]);
           by apply not_elem_of_nil in H].
  destruct c; vm_compute; intros; try discriminate; repeat constructor.
Qed.
