(* ===== verification/Domain.v ===== *)
(** * Host-neutral domain values (src/src/astralplane/domain.py)

    Canonical identifiers and digests, timezone-aware instants, the bounded
    freezing of JSON-like values, and the immutable value types every
    repository shares. *)

From S2P Require Import Prelude Regex Errors.

(** ** Canonical text *)

(** Characters inside an identifier: [[A-Za-z0-9._:@/-]] *)
Definition is_idchar (c : N) : bool := is_alnum c || one_of "._:@/-" c.

(** [^[A-Za-z0-9](?:[A-Za-z0-9._:@/-]{0,126}[A-Za-z0-9])?$] *)
Definition identifier_re : regex :=
  RSeq (RChar is_alnum) (ROpt (RSeq (RRep 0 126 is_idchar) (RChar is_alnum))).

Definition is_identifier (s : pystr) : bool := fullmatch identifier_re s.
Definition is_sha256 (s : pystr) : bool := fullmatch hex64_re s.
Definition is_lets_digest (s : pystr) : bool := fullmatch lets_digest_re s.

#[global] Arguments is_identifier : simpl never.
#[global] Arguments is_sha256 : simpl never.
#[global] Arguments is_lets_digest : simpl never.

Definition require_identifier (value : pystr) (field : string) : result pystr :=
  if is_identifier value then Ok value
  else raise DomainValidationError (field ++ " must be a canonical bounded identifier").

Definition require_sha256 (value : pystr) (field : string) : result pystr :=
  if is_sha256 value then Ok value
  else raise DomainValidationError (field ++ " must be lowercase SHA-256").

(** ** Instants

    A [datetime] is naive, or aware with its UTC offset; both in
    microseconds.  Aware datetimes compare by instant. *)
Inductive datetime : Type :=
  | Naive (wall : Z)
  | Aware (wall offset : Z).

#[global] Instance datetime_eq_dec : EqDecision datetime.
Proof. solve_decision. Defined.

(** The aware datetime of an instant in UTC. *)
Definition utc (t : Z) : datetime := Aware t 0.

(** [value.astimezone(UTC)] with the guard of [require_utc]. *)
Definition require_utc (value : datetime) (field : string) : result datetime :=
  match value with
  | Naive _ => raise DomainValidationError (field ++ " must be timezone-aware")
  | Aware wall off => Ok (utc (wall - off))
  end.

(** The instant of a normalised datetime. *)
Definition instant (d : datetime) : Z :=
  match d with Naive w => w | Aware w off => w - off end.

Definition is_utc (d : datetime) : bool :=
  match d with Aware _ off => (off =? 0) | Naive _ => false end.

Lemma require_utc_Ok d f d' :
  require_utc d f = Ok d' <-> (exists w off, d = Aware w off) /\ d' = utc (instant d).
Proof.
  destruct d as [w|w off]; simpl; split.
  - done.
  - intros [(? & ? & ?) _]. done.
  - intros [= <-]. eauto.
  - intros [_ ->]. done.
Qed.

Lemma require_utc_utc t f : require_utc (utc t) f = Ok (utc t).
Proof. simpl. by rewrite Z.sub_0_r. Qed.

Lemma instant_utc t : instant (utc t) = t.
Proof. simpl. lia. Qed.

#[export] Hint Rewrite require_utc_utc instant_utc : plane.

(** ** Identifier facts *)

Lemma require_identifier_Ok s f s' :
  require_identifier s f = Ok s' <-> is_identifier s = true /\ s' = s.
Proof. unfold require_identifier. case_match; split; try naive_solver; intros [= <-]; auto. Qed.

Lemma require_sha256_Ok s f s' :
  require_sha256 s f = Ok s' <-> is_sha256 s = true /\ s' = s.
Proof. unfold require_sha256. case_match; split; try naive_solver; intros [= <-]; auto. Qed.

#[export] Hint Rewrite require_identifier_Ok require_sha256_Ok : plane.

Lemma is_identifier_spec s :
  is_identifier s = true <->
  (exists c, s = [c] /\ is_alnum c = true)
  \/ (exists c m d, s = c :: m ++ [d] /\ is_alnum c = true
        /\ Forall (fun x => is_idchar x = true) m /\ (length m <= 126)%nat
        /\ is_alnum d = true).
Proof.
  unfold is_identifier. rewrite fullmatch_lang. unfold identifier_re. cbn [lang]. split.
  - intros (s1 & s2 & -> & (c & -> & Hc) & [->|H2]).
    + left. eauto.
    + destruct H2 as (m & s4 & -> & [[_ Hl] Hm] & (d & -> & Hd)).
      right. exists c, m, d. auto.
  - intros [(c & -> & Hc)|(c & m & d & -> & Hc & Hm & Hl & Hd)].
    + exists [c], []. split; [done|]. split; [eauto|]. by left.
    + exists [c], (m ++ [d]). split; [done|]. split; [eauto|]. right.
      exists m, [d]. repeat split; eauto; lia.
Qed.

Lemma identifier_length s : is_identifier s = true -> (1 <= length s <= 128)%nat.
Proof.
  intros [(c & -> & _)|(c & m & d & -> & _ & _ & Hl & _)]%is_identifier_spec; simpl; [lia|].
  rewrite length_app. simpl. lia.
Qed.

Lemma alnum_idchar c : is_alnum c = true -> is_idchar c = true.
Proof. unfold is_idchar. intros ->. done. Qed.

(** An identifier extended by lowercase hex digits is one, within the bound. *)
Lemma identifier_app_hex p h :
  is_identifier p = true -> Forall (fun c => is_hex c = true) h -> h <> [] ->
  forall sep, Forall (fun c => is_idchar c = true) sep ->
  (length p + length sep + length h <= 128)%nat ->
  is_identifier (p ++ sep ++ h) = true.
Proof.
  intros Hp Hh Hne sep Hsep Hlen. apply is_identifier_spec. right.
  destruct (exists_last Hne) as (h' & d & ->).
  apply Forall_app in Hh as [Hh Hd]. rewrite Forall_singleton in Hd.
  apply all_hex_alnum in Hh.
  assert (exists c m, p = c :: m /\ is_alnum c = true
                      /\ Forall (fun x => is_idchar x = true) m) as (c & m & -> & Hc & Hm).
  { apply is_identifier_spec in Hp as [(c & -> & Hc)|(c & m & e & -> & Hc & Hm & _ & He)].
    - by exists c, [].
    - exists c, (m ++ [e]). rewrite Forall_app, Forall_singleton. auto using alnum_idchar. }
  rewrite !length_app in Hlen. simpl in Hlen.
  exists c, (m ++ sep ++ h'), d. split; [simpl; by rewrite <- !app_assoc|].
  split; [done|]. split.
  - rewrite !Forall_app. split; [done|]. split; [done|].
    eapply Forall_impl; [exact Hh|]. apply alnum_idchar.
  - rewrite !length_app. split; [lia|]. by apply is_hex_alnum.
Qed.

(** ** Freezing JSON-like values

    [pyval] is what [freeze_domain_value] distinguishes of a Python object:
    the exact builtins, other [Mapping]/[Sequence] objects, and the rest.  A
    dict is its items in insertion order. *)

Inductive pyfloat : Type := FFinite (text : pystr) | FNan | FInf (negative : bool).

Inductive pyval : Type :=
  | PNone
  | PBool (b : bool)
  | PInt (z : Z)
  | PFloat (f : pyfloat)
  | PStr (s : pystr)
  | PList (l : list pyval)
  | PTuple (l : list pyval)
  | PDict (items : list (pyval * pyval))
  | POtherContainer
  | PObject.

(** Immutable results: scalars, tuples and mapping proxies. *)
Inductive domain_value : Type :=
  | VNone
  | VBool (b : bool)
  | VInt (z : Z)
  | VFloat (text : pystr)
  | VStr (s : pystr)
  | VTuple (l : list domain_value)
  | VMap (items : list (pystr * domain_value)).

Definition MAX_DEPTH : Z := 12.
Definition MAX_ITEMS : Z := 4096.
Definition MAX_TEXT : Z := 16384.

(** A mapping key: an exact non-empty [str] of at most 256 characters
    without NUL. *)
Definition valid_key (key : pyval) : option pystr :=
  match key with
  | PStr s =>
      if bool_decide (s <> []) && Nat.leb (length s) 256 && bool_decide (0%N ∉ s)
      then Some s else None
  | _ => None
  end.

(** The loops over a sequence and over dict items, with the recursive call
    as a parameter; both thread the remaining item budget. *)
Section FreezeLoops.
  Variables (field : string) (rec : pyval -> Z -> result (domain_value * Z)).

Fixpoint freeze_seq (l : list pyval) (b : Z) : result (list domain_value * Z) :=
    match l with
    | [] => Ok ([], b)
    | x :: l' =>
        yb ← rec x b;
        ysb ← freeze_seq l' (snd yb);
        Ok (fst yb :: fst ysb, snd ysb)
    end.

Fixpoint freeze_items (seen : list pystr) (l : list (pyval * pyval)) (b : Z)
    : result (list (pystr * domain_value) * Z) :=
    match l with
    | [] => Ok ([], b)
    | (key, x) :: l' =>
        match valid_key key with
        | None => raise DomainValidationError (field ++ " contains an invalid mapping key")
        | Some k =>
            if bool_decide (k ∈ seen) then
              raise DomainValidationError (field ++ " contains a duplicate mapping key")
            else
              yb ← rec x b;
              ysb ← freeze_items (k :: seen) l' (snd yb);
              Ok ((k, fst yb) :: fst ysb, snd ysb)
        end
    end.
End FreezeLoops.

(** [freeze depth v budget]: the frozen value and the remaining item budget,
    which the Python code keeps in a one-element list it mutates. *)
Fixpoint freeze (field : string) (depth : Z) (v : pyval) (budget : Z)
  : result (domain_value * Z) :=
  if MAX_DEPTH <? depth then
    raise DomainValidationError (field ++ " exceeds the maximum nesting depth")
  else
  let budget := budget - 1 in
  if budget <? 0 then
    raise DomainValidationError (field ++ " exceeds the maximum item count")
  else
  match v with
  | PNone => Ok (VNone, budget)
  | PBool b => Ok (VBool b, budget)
  | PInt z => Ok (VInt z, budget)
  | PFloat (FFinite t) => Ok (VFloat t, budget)
  | PFloat _ =>
      raise DomainValidationError (field ++ " contains a non-finite number")
  | PStr s =>
      if (MAX_TEXT <? Z.of_nat (length s)) || bool_decide (0%N ∈ s)
      then raise DomainValidationError (field ++ " contains invalid text")
      else Ok (VStr s, budget)
  | PList l | PTuple l =>
      vb ← freeze_seq (fun x => freeze field (depth + 1) x) l budget; Ok (VTuple (fst vb), snd vb)
  | PDict items =>
      vb ← freeze_items field (fun x => freeze field (depth + 1) x) [] items budget; Ok (VMap (fst vb), snd vb)
  | POtherContainer =>
      raise DomainValidationError (field ++ " must use exact builtin containers")
  | PObject =>
      raise DomainValidationError (field ++ " contains an unsupported value type")
  end.

Definition freeze_domain_value (v : pyval) (field : string) : result domain_value :=
  vb ← freeze field 0 v MAX_ITEMS; Ok (fst vb).

(** ** What the freezing computes *)

Definition is_container (v : pyval) : bool :=
  match v with PList _ | PTuple _ | PDict _ => true | _ => false end.

Section PyvalInd.
  Variable P : pyval -> Prop.
  Hypothesis Hscalar : forall v, is_container v = false -> P v.
  Hypothesis Hlist : forall l, Forall P l -> P (PList l).
  Hypothesis Htuple : forall l, Forall P l -> P (PTuple l).
  Hypothesis Hdict : forall items, Forall (fun kv => P (snd kv)) items -> P (PDict items).

Fixpoint pyval_ind' (v : pyval) : P v :=
    match v with
    | PList l => Hlist l ((fix go l : Forall P l :=
        match l with [] => Forall_nil_2 P | x :: l' => Forall_cons_2 P x l' (pyval_ind' x) (go l') end) l)
    | PTuple l => Htuple l ((fix go l : Forall P l :=
        match l with [] => Forall_nil_2 P | x :: l' => Forall_cons_2 P x l' (pyval_ind' x) (go l') end) l)
    | PDict items => Hdict items ((fix go l : Forall (fun kv => P (snd kv)) l :=
        match l with
        | [] => Forall_nil_2 _
        | kv :: l' => Forall_cons_2 _ kv l' (pyval_ind' (snd kv)) (go l')
        end) items)
    | PNone => Hscalar PNone eq_refl
    | PBool b => Hscalar (PBool b) eq_refl
    | PInt z => Hscalar (PInt z) eq_refl
    | PFloat f => Hscalar (PFloat f) eq_refl
    | PStr s => Hscalar (PStr s) eq_refl
    | POtherContainer => Hscalar POtherContainer eq_refl
    | PObject => Hscalar PObject eq_refl
    end.
End PyvalInd.

(** Number of values frozen, nesting depth, and the immutable copy. *)
Fixpoint nodes (v : pyval) : Z :=
  match v with
  | PList l | PTuple l => 1 + foldr (fun x n => nodes x + n) 0 l
  | PDict items => 1 + foldr (fun kv n => nodes (snd kv) + n) 0 items
  | _ => 1
  end.

Fixpoint height (v : pyval) : Z :=
  match v with
  | PList l | PTuple l => foldr (fun x n => Z.max (1 + height x) n) 0 l
  | PDict items => foldr (fun kv n => Z.max (1 + height (snd kv)) n) 0 items
  | _ => 0
  end.

Definition key_text (k : pyval) : pystr := match k with PStr s => s | _ => [] end.

Fixpoint immutable_copy (v : pyval) : domain_value :=
  match v with
  | PBool b => VBool b
  | PInt z => VInt z
  | PFloat (FFinite t) => VFloat t
  | PStr s => VStr s
  | PList l | PTuple l => VTuple (map immutable_copy l)
  | PDict items => VMap (map (fun kv => (key_text (fst kv), immutable_copy (snd kv))) items)
  | _ => VNone
  end.

(** The values the module accepts, bounds aside. *)
Fixpoint supported (v : pyval) : Prop :=
  match v with
  | PNone | PBool _ | PInt _ | PFloat (FFinite _) => True
  | PFloat _ | POtherContainer | PObject => False
  | PStr s => Z.of_nat (length s) <= MAX_TEXT /\ 0%N ∉ s
  | PList l | PTuple l => foldr (fun x p => supported x /\ p) True l
  | PDict items =>
      foldr (fun kv p => is_Some (valid_key (fst kv)) /\ supported (snd kv) /\ p) True items
      /\ NoDup (map (fun kv => key_text (fst kv)) items)
  end.

(** The exact effect of one call of [freeze]. *)
Definition freeze_exact (field : string) (v : pyval) : Prop :=
  forall depth budget w b,
    freeze field depth v budget = Ok (w, b) <->
    w = immutable_copy v /\ b = budget - nodes v /\ supported v
    /\ depth + height v <= MAX_DEPTH /\ nodes v <= budget.

Lemma nodes_pos v : 1 <= nodes v.
Proof.
  induction v as [v Hv|l IH|l IH|l IH] using pyval_ind'; [by destruct v| | |]; simpl;
    (induction IH as [|x l' Hx _ IHl]; simpl in *; lia).
Qed.

Lemma nodes_list_nonneg l : 0 <= foldr (fun x n => nodes x + n) 0 l.
Proof. induction l as [|x l IH]; simpl; [lia|]. pose proof (nodes_pos x). lia. Qed.

Lemma nodes_items_nonneg (l : list (pyval * pyval)) :
  0 <= foldr (fun kv n => nodes (snd kv) + n) 0 l.
Proof. induction l as [|[k x] l IH]; simpl; [lia|]. pose proof (nodes_pos x). lia. Qed.

Lemma valid_key_text k s : valid_key k = Some s -> key_text k = s.
Proof. destruct k; simpl; try done. case_match; naive_solver. Qed.

Lemma freeze_seq_exact field depth l ws b budget :
  Forall (freeze_exact field) l ->
  depth <= MAX_DEPTH -> 0 <= budget ->
  freeze_seq (fun x => freeze field (depth + 1) x) l budget = Ok (ws, b) <->
  ws = map immutable_copy l /\ b = budget - foldr (fun x n => nodes x + n) 0 l
  /\ foldr (fun x p => supported x /\ p) True l
  /\ depth + foldr (fun x n => Z.max (1 + height x) n) 0 l <= MAX_DEPTH
  /\ foldr (fun x n => nodes x + n) 0 l <= budget.
Proof.
  intros HF Hd. revert ws b budget. induction HF as [|x l Hx HF IH]; intros ws b budget Hb; simpl.
  - split; [intros [= <- <-]; repeat split; lia|]. intros (-> & -> & _). f_equal. f_equal. lia.
  - pose proof (nodes_list_nonneg l). split.
    + intros ([y b1] & Hy & ([ys b2] & Hys & [= <- <-])%bind_Ok_inv)%bind_Ok_inv. simpl in *.
      apply Hx in Hy as (-> & -> & ? & ? & ?). apply IH in Hys as (-> & -> & ? & ? & ?); [|lia].
      repeat split; auto; lia.
    + intros (-> & -> & [Hs Hs'] & Hh & Hn).
      assert (freeze field (depth + 1) x budget = Ok (immutable_copy x, budget - nodes x)) as ->.
      { apply Hx. repeat split; auto; lia. }
      simpl.
      assert (freeze_seq (fun x => freeze field (depth + 1) x) l (budget - nodes x)
              = Ok (map immutable_copy l,
                    budget - nodes x - foldr (fun x n => nodes x + n) 0 l)) as ->.
      { apply IH; [lia|]. repeat split; auto; lia. }
      simpl. f_equal. f_equal. lia.
Qed.

Lemma freeze_items_exact field depth seen l ws b budget :
  Forall (fun kv => freeze_exact field (snd kv)) l ->
  depth <= MAX_DEPTH -> 0 <= budget ->
  freeze_items field (fun x => freeze field (depth + 1) x) seen l budget = Ok (ws, b) <->
  ws = map (fun kv => (key_text (fst kv), immutable_copy (snd kv))) l
  /\ b = budget - foldr (fun kv n => nodes (snd kv) + n) 0 l
  /\ foldr (fun kv p => is_Some (valid_key (fst kv)) /\ supported (snd kv) /\ p) True l
  /\ (NoDup (map (fun kv => key_text (fst kv)) l)
      /\ Forall (fun kv => key_text (fst kv) ∉ seen) l)
  /\ depth + foldr (fun kv n => Z.max (1 + height (snd kv)) n) 0 l <= MAX_DEPTH
  /\ foldr (fun kv n => nodes (snd kv) + n) 0 l <= budget.
Proof.
  intros HF Hd. revert seen ws b budget.
  induction HF as [|[k x] l Hx HF IH]; intros seen ws b budget Hb; simpl.
  - split; [intros [= <- <-]; repeat split; try lia; constructor|].
    intros (-> & -> & _). f_equal. f_equal. lia.
  - pose proof (nodes_items_nonneg l). simpl in Hx. rewrite Forall_cons, NoDup_cons. simpl.
    destruct (valid_key k) as [s|] eqn:Hk; [|split; [done|naive_solver]].
    rewrite (valid_key_text _ _ Hk).
    case_bool_decide as Hin; [split; [done|naive_solver]|].
    split.
    + intros ([y b1] & Hy & ([ys b2] & Hys & [= <- <-])%bind_Ok_inv)%bind_Ok_inv. simpl in *.
      apply Hx in Hy as (-> & -> & ? & ? & ?).
      apply IH in Hys as (-> & -> & ? & [? Hse] & ? & ?); [|lia].
      repeat split; auto; try lia; try eauto.
      * intros Hk'. apply list_elem_of_In, in_map_iff in Hk' as (kv & Hkv & Hin').
        rewrite Forall_forall in Hse. apply (Hse kv); [by apply list_elem_of_In|].
        rewrite Hkv. by left.
      * eapply Forall_impl; [exact Hse|]. intros kv Hkv Hc. apply Hkv. by right.
    + intros (-> & -> & (_ & Hs & Hs') & [[Hk' Hnd] [_ Hse]] & Hh & Hn).
      assert (freeze field (depth + 1) x budget = Ok (immutable_copy x, budget - nodes x)) as ->.
      { apply Hx. repeat split; auto; lia. }
      simpl. rewrite (proj2 (IH (s :: seen)
        (map (fun kv => (key_text (fst kv), immutable_copy (snd kv))) l)
        (budget - nodes x - foldr (fun kv n => nodes (snd kv) + n) 0 l)
        (budget - nodes x) ltac:(lia))).
      { simpl. f_equal. f_equal. lia. }
      repeat split; auto; try lia.
      apply Forall_forall. intros kv Hkv [Heq|Hc]%elem_of_cons.
      * apply Hk'. rewrite <- Heq. apply list_elem_of_In, in_map_iff.
        exists kv. by rewrite <- list_elem_of_In.
      * rewrite Forall_forall in Hse. by apply (Hse kv).
Qed.

Lemma heights_nonneg {A} (f : A -> Z) l : 0 <= foldr (fun x n => Z.max (1 + f x) n) 0 l.
Proof. induction l as [|x l IH]; simpl; lia. Qed.

Lemma freeze_exact_scalar field v : is_container v = false -> freeze_exact field v.
Proof.
  intros Hv depth budget w b. destruct v as [| | |[]| | | | | |]; try done; simpl;
    (destruct (Z.ltb_spec MAX_DEPTH depth); [split; [done|naive_solver lia]|];
     destruct (Z.ltb_spec (budget - 1) 0); [split; [done|naive_solver lia]|];
     try (split; [done|naive_solver])).
  all: try (split; [intros [= <- <-]; repeat split; lia | by intros (-> & -> & _)]).
  destruct (Z.ltb_spec MAX_TEXT (Z.of_nat (length s))); simpl; [split; [done|naive_solver lia]|].
  case_bool_decide; (split; [try done|naive_solver]). intros [= <- <-]. repeat split; auto; lia.
Qed.

Lemma freeze_exact_all field v : freeze_exact field v.
Proof.
  induction v as [v Hv|l IH|l IH|l IH] using pyval_ind'; [by apply freeze_exact_scalar| | |].
  all: intros depth budget w b; simpl;
    try pose proof (nodes_list_nonneg l); try pose proof (nodes_items_nonneg l);
    first [ pose proof (heights_nonneg height l)
          | pose proof (heights_nonneg (fun kv : pyval * pyval => height (snd kv)) l) ];
    (destruct (Z.ltb_spec MAX_DEPTH depth) as [|Hd]; [split; [done|lia]|]);
    (destruct (Z.ltb_spec (budget - 1) 0) as [|Hb]; [split; [done|lia]|]).
  all: split; [intros ([ws b1] & Hws & [= <- <-])%bind_Ok_inv; simpl|].
  all: try (apply freeze_seq_exact in Hws as (-> & -> & ? & ? & ?); [|done|done|done];
            repeat split; auto; lia).
  all: try (apply freeze_items_exact in Hws as (-> & -> & ? & [? _] & ? & ?); [|done|done|done];
            repeat split; auto; lia).
  1,2: intros (-> & -> & Hs & Hh & Hn);
    rewrite (proj2 (freeze_seq_exact field depth l (map immutable_copy l)
      (budget - 1 - foldr (fun x n => nodes x + n) 0 l) (budget - 1) IH Hd Hb));
    [simpl; do 2 f_equal; lia | repeat split; auto; lia].
  intros (-> & -> & [Hs Hnd] & Hh & Hn).
  rewrite (proj2 (freeze_items_exact field depth [] l
      (map (fun kv => (key_text (fst kv), immutable_copy (snd kv))) l)
      (budget - 1 - foldr (fun kv n => nodes (snd kv) + n) 0 l) (budget - 1) IH Hd Hb));
    [simpl; do 2 f_equal; lia | repeat split; auto; try lia].
  apply Forall_forall. intros kv _. apply not_elem_of_nil.
Qed.

Lemma freeze_domain_value_Ok v field w :
  freeze_domain_value v field = Ok w <->
  w = immutable_copy v /\ supported v /\ height v <= MAX_DEPTH /\ nodes v <= MAX_ITEMS.
Proof.
  unfold freeze_domain_value. split.
  - intros ([w' b] & (-> & -> & ? & ? & ?)%freeze_exact_all & [= <-])%bind_Ok_inv. auto.
  - intros (-> & Hs & Hh & Hn).
    rewrite (proj2 (freeze_exact_all field v 0 MAX_ITEMS (immutable_copy v) (MAX_ITEMS - nodes v))); auto.
Qed.

(** [freeze_domain_value] accepts exactly the values built from exact
    builtins with finite floats, NUL-free text of at most 16384 characters
    and distinct valid keys, nested at most 12 deep, with at most 4096 values
    in all; and then it returns the immutable copy of the value. *)
Theorem freeze_domain_value_exact v field w :
  freeze_domain_value v field = Ok w <->
  w = immutable_copy v /\ supported v /\ height v <= MAX_DEPTH /\ nodes v <= MAX_ITEMS.
Proof. apply freeze_domain_value_Ok. Qed.

(** ** Shared value types *)

Inductive MutationState : Type := APPLIED | REPLAYED | CONFLICT | NOT_FOUND.

Record OwnerContext : Type := {
  oc_owner_id : pystr;
  oc_actor_id : pystr;
  oc_correlation_id : pystr;
  oc_tenant_id : option pystr
}.

(** [OwnerContext.__post_init__] *)
Definition OwnerContext_init (c : OwnerContext) : result OwnerContext :=
  require_identifier (oc_owner_id c) "owner id" ;;
  require_identifier (oc_actor_id c) "actor id" ;;
  require_identifier (oc_correlation_id c) "correlation id" ;;
  match oc_tenant_id c with
  | None => Ok []
  | Some t => require_identifier t "tenant id"
  end ;;
  Ok c.

Record VersionedIdentity : Type := {
  vi_owner_id : pystr;
  vi_record_id : pystr;
  vi_version : Z
}.

(** [VersionedIdentity.__post_init__] *)
Definition VersionedIdentity_init (i : VersionedIdentity) : result VersionedIdentity :=
  require_identifier (vi_owner_id i) "owner id" ;;
  require_identifier (vi_record_id i) "record id" ;;
  raise_if (vi_version i <? 0)
    (Exn DomainValidationError "version must be a non-negative integer") ;;
  Ok i.

Record MutationReceipt : Type := {
  mr_identity : VersionedIdentity;
  mr_state : MutationState;
  mr_operation_id : pystr;
  mr_committed_at : datetime;
  mr_metadata : domain_value
}.

(** [MutationReceipt(...)] with the items of its [metadata] mapping. *)
Definition MutationReceipt_init (identity : VersionedIdentity) (state : MutationState)
    (operation_id : pystr) (committed_at : datetime) (metadata : list (pyval * pyval))
  : result MutationReceipt :=
  require_identifier operation_id "operation id" ;;
  at_utc ← require_utc committed_at "committed at";
  frozen ← freeze_domain_value (PDict metadata) "metadata";
  match frozen with
  | VMap _ =>
      Ok {| mr_identity := identity; mr_state := state; mr_operation_id := operation_id;
            mr_committed_at := at_utc; mr_metadata := frozen |}
  | _ => raise DomainValidationError "metadata must be a mapping"
  end.

(** The guard on the frozen metadata cannot fire: a dict freezes to a
    mapping, so building a receipt fails only on its three inputs. *)
Lemma MutationReceipt_init_Ok i st op at_ md r :
  MutationReceipt_init i st op at_ md = Ok r <->
  is_identifier op = true /\ (exists w off, at_ = Aware w off)
  /\ supported (PDict md) /\ height (PDict md) <= MAX_DEPTH /\ nodes (PDict md) <= MAX_ITEMS
  /\ r = {| mr_identity := i; mr_state := st; mr_operation_id := op;
            mr_committed_at := utc (instant at_);
            mr_metadata := immutable_copy (PDict md) |}.
Proof.
  unfold MutationReceipt_init. split.
  - intros H. inv_ok. apply require_identifier_Ok in Hs as [? _].
    apply require_utc_Ok in Hs0 as [? ->].
    apply freeze_domain_value_Ok in Hs1 as (-> & ? & ? & ?). simpl in H. injection H as <-. auto 10.
  - intros (Hop & Ht & Hs & Hh & Hn & ->).
    rewrite (proj2 (require_identifier_Ok op "operation id" op) (conj Hop eq_refl)). simpl.
    rewrite (proj2 (require_utc_Ok at_ "committed at" _) (conj Ht eq_refl)). simpl.
    rewrite (proj2 (freeze_domain_value_Ok (PDict md) "metadata" _)
               (conj eq_refl (conj Hs (conj Hh Hn)))). done.
Qed.
