(* ===== verification/Sha256.v ===== *)
(** * SHA-256, the digest of [hashlib.sha256(...).hexdigest()]

    The library hashes pending identities and outbox payloads with SHA-256.
    This is the FIPS 180-4 function on byte lists over 32-bit words kept as
    [Z], with the hexadecimal digest the program compares. *)

From S2P Require Import Prelude Regex.

Definition w32 (x : Z) : Z := Z.land x 4294967295.
Definition add32 (x y : Z) : Z := w32 (x + y).
Definition rotr (n x : Z) : Z := Z.lor (Z.shiftr x n) (w32 (Z.shiftl x (32 - n))).
Definition not32 (x : Z) : Z := Z.lxor x 4294967295.

Definition ch (x y z : Z) : Z := Z.lxor (Z.land x y) (Z.land (not32 x) z).
Definition maj (x y z : Z) : Z := Z.lxor (Z.lxor (Z.land x y) (Z.land x z)) (Z.land y z).
Definition bsig0 (x : Z) : Z := Z.lxor (Z.lxor (rotr 2 x) (rotr 13 x)) (rotr 22 x).
Definition bsig1 (x : Z) : Z := Z.lxor (Z.lxor (rotr 6 x) (rotr 11 x)) (rotr 25 x).
Definition ssig0 (x : Z) : Z := Z.lxor (Z.lxor (rotr 7 x) (rotr 18 x)) (Z.shiftr x 3).
Definition ssig1 (x : Z) : Z := Z.lxor (Z.lxor (rotr 17 x) (rotr 19 x)) (Z.shiftr x 10).

(** The first 64 primes, by trial division. *)
Definition is_prime (n : Z) : bool :=
  forallb (fun k => negb (n mod (Z.of_nat k + 2) =? 0)) (seq 0 (Z.to_nat (Z.sqrt n) - 1)).
Definition primes64 : list Z :=
  Eval vm_compute in filter (fun n => is_prime n = true) (Z.of_nat <$> seq 2 310).

(** The integer cube root, one bit at a time from the top. *)
Fixpoint cube_root (bits : nat) (x acc : Z) : Z :=
  match bits with
  | O => acc
  | S b => let try_ := acc + Z.shiftl 1 (Z.of_nat b) in
           cube_root b x (if try_ * try_ * try_ <=? x then try_ else acc)
  end.

(** The first 32 bits of the fractional part of the cube root of each prime. *)
Definition K256 : list Z :=
  Eval vm_compute in (fun p => w32 (cube_root 35 (Z.shiftl p 96) 0)) <$> primes64.

(** The eight working variables. *)
Record digest_state : Type := DS { ha : Z; hb : Z; hc : Z; hd : Z; he : Z; hf : Z; hg : Z; hh : Z }.

(** The same of the square roots of the first eight primes. *)
Definition H256 : digest_state :=
  Eval vm_compute in
    let root i := w32 (Z.sqrt (Z.shiftl (default 0 (primes64 !! i)) 64)) in
    DS (root 0%nat) (root 1%nat) (root 2%nat) (root 3%nat) (root 4%nat) (root 5%nat) (root 6%nat) (root 7%nat).

Definition round (s : digest_state) (kw : Z * Z) : digest_state :=
  let t1 := add32 (add32 (add32 (add32 (hh s) (bsig1 (he s))) (ch (he s) (hf s) (hg s))) (fst kw)) (snd kw) in
  let t2 := add32 (bsig0 (ha s)) (maj (ha s) (hb s) (hc s)) in
  DS (add32 t1 t2) (ha s) (hb s) (hc s) (add32 (hd s) t1) (he s) (hf s) (hg s).

(** The message schedule: sixteen words extended to [16 + n], most recent
    word first while it grows. *)
Fixpoint schedule (n : nat) (ws : list Z) : list Z :=
  match n with
  | O => ws
  | S n' =>
      let at_ i := default 0 (ws !! i) in
      schedule n' (add32 (add32 (add32 (ssig1 (at_ 1%nat)) (at_ 6%nat)) (ssig0 (at_ 14%nat)))
                     (at_ 15%nat) :: ws)
  end.

Definition compress (s : digest_state) (block : list Z) : digest_state :=
  let ws := reverse (schedule 48 (reverse block)) in
  let r := foldl round s (zip K256 ws) in
  DS (add32 (ha s) (ha r)) (add32 (hb s) (hb r)) (add32 (hc s) (hc r)) (add32 (hd s) (hd r))
     (add32 (he s) (he r)) (add32 (hf s) (hf r)) (add32 (hg s) (hg r)) (add32 (hh s) (hh r)).

(** [n] big-endian bytes of a number. *)
Fixpoint be_bytes (n : nat) (x : Z) : list Z :=
  match n with O => [] | S n' => be_bytes n' (Z.shiftr x 8) ++ [Z.land x 255] end.

Definition pad (msg : list Z) : list Z :=
  let len := Z.of_nat (length msg) in
  msg ++ [128] ++ replicate (Z.to_nat ((55 - len) mod 64)) 0 ++ be_bytes 8 (8 * len).

Fixpoint words_of (bs : list Z) : list Z :=
  match bs with
  | a :: b :: c :: d :: bs' =>
      Z.lor (Z.lor (Z.shiftl a 24) (Z.shiftl b 16)) (Z.lor (Z.shiftl c 8) d) :: words_of bs'
  | _ => []
  end.

(** Blocks of sixteen words, one unit of fuel per block. *)
Fixpoint process (fuel : nat) (s : digest_state) (ws : list Z) : digest_state :=
  match fuel with
  | O => s
  | S fuel' =>
      match ws with
      | [] => s
      | _ => process fuel' (compress s (take 16 ws)) (drop 16 ws)
      end
  end.

Definition sha256 (msg : list Z) : digest_state :=
  let ws := words_of (pad msg) in process (length ws) H256 ws.

Definition hex_char (x : Z) : N :=
  let d := Z.to_N (Z.land x 15) in if (d <? 10)%N then (48 + d)%N else (87 + d)%N.

(** The [n] low hexadecimal digits of a number, most significant first. *)
Fixpoint hex_digits (n : nat) (x : Z) : pystr :=
  match n with O => [] | S n' => hex_digits n' (Z.shiftr x 4) ++ [hex_char x] end.

Definition hexdigest (s : digest_state) : pystr :=
  [ha s; hb s; hc s; hd s; he s; hf s; hg s; hh s] ≫= hex_digits 8.

(** [hashlib.sha256(data).hexdigest()] for data given as byte values. *)
Definition sha256_hex (data : list N) : pystr := hexdigest (sha256 (Z.of_N <$> data)).

#[global] Arguments sha256_hex : simpl never.

(** [hashlib.sha256(data).digest()] *)
Definition digest_bytes (s : digest_state) : list N :=
  [ha s; hb s; hc s; hd s; he s; hf s; hg s; hh s] ≫= fun w => Z.to_N <$> be_bytes 4 w.
Definition sha256_digest (data : list N) : list N := digest_bytes (sha256 (Z.of_N <$> data)).

Lemma sha256_digest_length data : length (sha256_digest data) = 32%nat.
Proof. done. Qed.

#[global] Arguments sha256_digest : simpl never.

Example sha256_empty :
  sha256_hex [] = u "e3b0c44298fc1c149afbf4c8996fb92427ae41e4649b934ca495991b7852b855".
Proof. vm_compute. reflexivity. Qed.

Example sha256_abc :
  sha256_hex (u "abc") = u "ba7816bf8f01cfea414140de5dae2223b00361a396177a9cb410ff61f20015ad".
Proof. vm_compute. reflexivity. Qed.

Example sha256_two_blocks :
  sha256_hex (u "abcdbcdecdefdefgefghfghighijhijkijkljklmklmnlmnomnopnopq")
  = u "248d6a61d20638b8e5c026930c3e6039a33ce45964ff2167f6ecedd419db06c1".
Proof. vm_compute. reflexivity. Qed.

Lemma hex_char_hex x : is_hex (hex_char x) = true.
Proof.
  assert (0 <= Z.land x 15 < 16) as Hr.
  { change 15 with (Z.ones 4). rewrite Z.land_ones by lia. apply Z.mod_pos_bound. lia. }
  unfold hex_char, is_hex, is_digit, in_range.
  set (d := Z.to_N (Z.land x 15)). assert (d < 16)%N by (subst d; lia). clearbody d.
  destruct (N.ltb_spec d 10); rewrite orb_true_iff, !andb_true_iff, !N.leb_le; lia.
Qed.

Lemma hex_digits_ok n x :
  length (hex_digits n x) = n /\ Forall (fun c => is_hex c = true) (hex_digits n x).
Proof.
  revert x; induction n as [|n IH]; intros x; simpl; [auto|].
  destruct (IH (Z.shiftr x 4)) as [Hl HF]. rewrite length_app, Forall_app, Hl. simpl.
  split; [lia|]. split; [done|]. repeat constructor. apply hex_char_hex.
Qed.

Lemma hex_words_ok ws :
  length (ws ≫= hex_digits 8) = (8 * length ws)%nat
  /\ Forall (fun c => is_hex c = true) (ws ≫= hex_digits 8).
Proof.
  induction ws as [|w ws [IHl IHF]]; [by split|].
  change ((w :: ws) ≫= hex_digits 8) with (hex_digits 8 w ++ (ws ≫= hex_digits 8)).
  destruct (hex_digits_ok 8 w) as [Hl HF]. rewrite length_app, Forall_app, Hl, IHl.
  cbn [length]. split; [lia | done].
Qed.

(** The digest is 64 lowercase hexadecimal characters. *)
Lemma sha256_hex_format data : fullmatch hex64_re (sha256_hex data) = true.
Proof. apply hex64_spec. apply (hex_words_ok [_; _; _; _; _; _; _; _]). Qed.
