(* ===== verification/Json.v ===== *)
(** * [json.dumps] as the library calls it, and UTF-8

    Digests of plans, registries and results are taken over
    [json.dumps(value, sort_keys=True, separators=(",", ":"))], with and
    without [ensure_ascii].  [json] is what the encoder distinguishes of a
    value whose mappings have string keys; a finite float carries the text of
    its [repr].  Nesting beyond the interpreter's recursion limit is not
    modelled. *)

From S2P Require Import Prelude Regex Errors Sha256.

Inductive json : Type :=
  | JNull
  | JBool (b : bool)
  | JInt (z : Z)
  | JFloat (text : pystr)
  | JNonFinite
  | JStr (s : pystr)
  | JArr (l : list json)
  | JObj (items : list (pystr * json))
  | JOther.

(** ** Strings *)

(** [\uXXXX] *)
Definition u_escape (n : N) : pystr := u "\u" ++ hex_digits 4 (Z.of_N n).

Definition escape_char (ensure_ascii : bool) (c : N) : pystr :=
  if (c =? 34)%N then u "\" ++ [34%N]
  else if (c =? 92)%N then u "\\"
  else if (c =? 10)%N then u "\n"
  else if (c =? 13)%N then u "\r"
  else if (c =? 9)%N then u "\t"
  else if (c =? 12)%N then u "\f"
  else if (c =? 8)%N then u "\b"
  else if ensure_ascii then
    if ((32 <=? c) && (c <=? 126))%N then [c]
    else if (c <? 65536)%N then u_escape c
    else u_escape (55296 + N.shiftr (c - 65536) 10)%N ++ u_escape (56320 + N.land (c - 65536) 1023)%N
  else if (c <? 32)%N then u_escape c
  else [c].

Definition quote (ensure_ascii : bool) (s : pystr) : pystr :=
  [34%N] ++ (s ≫= escape_char ensure_ascii) ++ [34%N].

(** ** Values *)

(** [sep.join(parts)] *)
Fixpoint join (sep : pystr) (parts : list pystr) : pystr :=
  match parts with
  | [] => []
  | [p] => p
  | p :: parts' => p ++ sep ++ join sep parts'
  end.

(** Decimal digits of a natural number. *)
Fixpoint digits_go (fuel : nat) (n : N) (acc : pystr) : pystr :=
  match fuel with
  | O => acc
  | S fuel' =>
      if (n <? 10)%N then (48 + n)%N :: acc
      else digits_go fuel' (n / 10)%N ((48 + n mod 10)%N :: acc)
  end.
Definition nat_text (n : N) : pystr := digits_go (S (N.to_nat (N.size n))) n [].
Definition int_text (z : Z) : pystr := (if z <? 0 then [45%N] else []) ++ nat_text (Z.abs_N z).

(** [sys.int_info.default_max_str_digits]: longer integers have no text. *)
Definition MAX_STR_DIGITS : Z := 4300.
Definition printable (z : Z) : bool := Z.of_nat (length (nat_text (Z.abs_N z))) <=? MAX_STR_DIGITS.

(** [sort_keys=True, separators=(",", ":"), allow_nan=False] *)
Fixpoint dumps (ensure_ascii : bool) (v : json) : result pystr :=
  match v with
  | JNull => Ok (u "null")
  | JBool b => Ok (u (if b then "true" else "false"))
  | JInt z =>
      raise_unless (printable z) (Exn ValueError_ "Exceeds the limit for integer string conversion") ;;
      Ok (int_text z)
  | JFloat text => Ok text
  | JNonFinite => raise ValueError_ "Out of range float values are not JSON compliant"
  | JStr s => Ok (quote ensure_ascii s)
  | JArr l => texts ← map_each (dumps ensure_ascii) l; Ok (u "[" ++ join (u ",") texts ++ u "]")
  | JObj items =>
      members ← map_each (fun '(k, x) => t ← dumps ensure_ascii x; Ok (k, t)) items;
      Ok (u "{" ++ join (u ",") ((fun '(k, t) => quote ensure_ascii k ++ u ":" ++ t) <$>
                                 sort_by (fun a b => str_leb (fst a) (fst b)) members) ++ u "}")
  | JOther => raise TypeError_ "Object is not JSON serializable"
  end.

(** ** UTF-8 *)

(** [str.encode("utf-8")] of one character; surrogates cannot be encoded. *)
Definition utf8_char (c : N) : option (list N) :=
  let tail n := (128 + N.land (N.shiftr c n) 63)%N in
  if (c <? 128)%N then Some [c]
  else if (c <? 2048)%N then Some [192 + N.shiftr c 6; tail 0]%N
  else if ((55296 <=? c) && (c <=? 57343))%N then None
  else if (c <? 65536)%N then Some [224 + N.shiftr c 12; tail 6; tail 0]%N
  else Some [240 + N.shiftr c 18; tail 12; tail 6; tail 0]%N.

Definition utf8_encode (s : pystr) : result (list N) :=
  match mapM utf8_char s with
  | Some bytes => Ok (concat bytes)
  | None => raise UnicodeEncodeError_ "surrogates not allowed"
  end.

(** Text written with single quotes for double ones. *)
Definition quoted (s : string) : pystr := (fun c => if (c =? 39)%N then 34%N else c) <$> u s.

Example dumps_plan :
  dumps true (JObj [(u "schemaRevision", JStr (u "089.014"));
                    (u "hooks", JArr [JObj [(u "version", JStr [92; 233; 66048]%N); (u "name", JInt (-12))]])])
  = Ok (quoted "{'hooks':[{'name':-12,'version':'\\\u00e9\ud800\ude00'}],'schemaRevision':'089.014'}").
Proof. vm_compute. reflexivity. Qed.

Example utf8_text : utf8_encode [97; 233; 8364; 66048]%N
  = Ok [97; 195; 169; 226; 130; 172; 240; 144; 136; 128]%N.
Proof. vm_compute. reflexivity. Qed.
