(* ===== verification/IsoTime.v ===== *)
(** * [datetime.isoformat] in UTC

    The text of an instant, given in microseconds since 1970 as elsewhere, in
    the proleptic Gregorian calendar of the standard library; it determines
    the instant over the years 1 to 9999 that a [datetime] can hold. *)

From Stdlib Require Import ZifyBool.
From S2P Require Import Prelude.

(** ** The calendar *)

(** Year, month and day of a day counted from 0000-03-01; an era has 400 years. *)
Definition civil_of_days (z : Z) : Z * Z * Z :=
  let era := z / 146097 in
  let doe := z mod 146097 in
  let yoe := (doe - doe / 1460 + doe / 36524 - doe / 146096) / 365 in
  let doy := doe - (365 * yoe + yoe / 4 - yoe / 100) in
  let mp := (5 * doy + 2) / 153 in
  let d := doy - (153 * mp + 2) / 5 + 1 in
  let m := if mp <? 10 then mp + 3 else mp - 9 in
  let y := yoe + era * 400 in
  ((if m <=? 2 then y + 1 else y), m, d).

(** Days from 0000-03-01 to 1970-01-01, and microseconds. *)
Definition EPOCH_DAYS : Z := 719468.
Definition DAY : Z := 86400000000.

(** 0001-01-01 up to 9999-12-31T23:59:59.999999 *)
Definition in_datetime_range (t : Z) : bool := (-62135596800000000 <=? t) && (t <? 253402300800000000).

(** ** Text *)

(** The [w] low decimal digits. *)
Fixpoint pad (w : nat) (n : Z) : pystr :=
  match w with O => [] | S w' => pad w' (n / 10) ++ [(48 + Z.to_N (n mod 10))%N] end.

(** [value.astimezone(UTC).isoformat()] without its offset. *)
Definition iso_text (t : Z) : pystr :=
  let '(y, m, d) := civil_of_days (t / DAY + EPOCH_DAYS) in
  let us := t mod DAY in
  let s := us / 1000000 in
  let f := us mod 1000000 in
  pad 4 y ++ u "-" ++ pad 2 m ++ u "-" ++ pad 2 d ++ u "T"
  ++ pad 2 (s / 3600) ++ u ":" ++ pad 2 (s / 60 mod 60) ++ u ":" ++ pad 2 (s mod 60)
  ++ (if f =? 0 then [] else u "." ++ pad 6 f).

Example iso_epoch : iso_text 0 = u "1970-01-01T00:00:00".
Proof. vm_compute. reflexivity. Qed.
Example iso_leap : iso_text 1709251199000001 = u "2024-02-29T23:59:59.000001".
Proof. vm_compute. reflexivity. Qed.
Example iso_first : iso_text (-62135596800000000) = u "0001-01-01T00:00:00".
Proof. vm_compute. reflexivity. Qed.
Example iso_last : iso_text 253402300799999999 = u "9999-12-31T23:59:59.999999".
Proof. vm_compute. reflexivity. Qed.

(** ** The text determines the instant *)

(** Every day of an era has its year and month in range. *)
Definition era_day_ok (doe : Z) : bool :=
  let yoe := (doe - doe / 1460 + doe / 36524 - doe / 146096) / 365 in
  let doy := doe - (365 * yoe + yoe / 4 - yoe / 100) in
  let mp := (5 * doy + 2) / 153 in
  let d := doy - (153 * mp + 2) / 5 + 1 in
  (0 <=? yoe) && (yoe <? 400) && (0 <=? mp) && (mp <=? 11) && (1 <=? d) && (d <=? 31).

Fixpoint all_below (f : Z -> bool) (n : nat) (z : Z) : bool :=
  match n with O => true | S n' => f z && all_below f n' (z + 1) end.

Lemma all_below_spec f n z x : all_below f n z = true -> z <= x < z + Z.of_nat n -> f x = true.
Proof.
  revert z. induction n as [|n IH]; intros z; cbn [all_below]; [lia|].
  intros [Hz Hn]%andb_true_iff Hx. destruct (Z.eq_dec z x) as [->|Hne]; [done|]. apply (IH (z + 1)); [done|lia].
Qed.

Lemma era_days_ok doe : 0 <= doe < 146097 -> era_day_ok doe = true.
Proof.
  intros Hd. apply (all_below_spec era_day_ok (Z.to_nat 146097) 0); [vm_compute; reflexivity|lia].
Qed.

(** A day from its year, month and day. *)
Definition days_of_civil (c : Z * Z * Z) : Z :=
  let '(y, m, d) := c in
  let y' := if m <=? 2 then y - 1 else y in
  let mp := if m <=? 2 then m + 9 else m - 3 in
  365 * y' + y' / 4 - y' / 100 + y' / 400 + (153 * mp + 2) / 5 + d - 1.

Lemma civil_roundtrip z : days_of_civil (civil_of_days z) = z.
Proof.
  unfold civil_of_days, days_of_civil. pose proof (Z.mod_pos_bound z 146097 ltac:(lia)) as Hdoe.
  pose proof (Z.div_mod z 146097 ltac:(lia)) as Hz. pose proof (era_days_ok _ Hdoe) as Hok. unfold era_day_ok in Hok.
  revert Hz Hok. generalize (z / 146097) as era. generalize (z mod 146097) as doe. intros doe era Hz Hok.
  set (yoe := (doe - doe / 1460 + doe / 36524 - doe / 146096) / 365) in *.
  set (doy := doe - (365 * yoe + yoe / 4 - yoe / 100)) in *. set (mp := (5 * doy + 2) / 153) in *.
  assert (0 <= yoe < 400 /\ 0 <= mp <= 11) as [Hy Hm] by lia. clear Hok.
  assert (doe = doy + (365 * yoe + yoe / 4 - yoe / 100)) as Hdoy by (subst doy; lia).
  clearbody doy mp yoe.
  assert ((yoe + era * 400) / 4 = yoe / 4 + era * 100) as E4
    by (replace (yoe + era * 400) with (yoe + era * 100 * 4) by lia; by rewrite Z.div_add by lia).
  assert ((yoe + era * 400) / 100 = yoe / 100 + era * 4) as E100
    by (replace (yoe + era * 400) with (yoe + era * 4 * 100) by lia; by rewrite Z.div_add by lia).
  assert ((yoe + era * 400) / 400 = era) as E400
    by (rewrite Z.div_add by lia; rewrite Z.div_small by lia; lia).
  destruct (Z.ltb_spec mp 10).
  - replace (mp + 3 <=? 2) with false by lia. replace (mp + 3 - 3) with mp by lia. rewrite E4, E100, E400. lia.
  - replace (mp - 9 <=? 2) with true by lia. replace (mp - 9 + 9) with mp by lia.
    replace (yoe + era * 400 + 1 - 1) with (yoe + era * 400) by lia. rewrite E4, E100, E400. lia.
Qed.

Lemma civil_range z : 0 <= z < 3652365 ->
  let '(y, m, d) := civil_of_days z in 0 <= y < 10000 /\ 0 <= m < 100 /\ 0 <= d < 100.
Proof.
  unfold civil_of_days. intros Hrange. pose proof (Z.mod_pos_bound z 146097 ltac:(lia)) as Hdoe.
  pose proof (Z.div_mod z 146097 ltac:(lia)) as Hz. pose proof (era_days_ok _ Hdoe) as Hok. unfold era_day_ok in Hok.
  revert Hz Hok Hdoe. generalize (z / 146097) as era. generalize (z mod 146097) as doe. intros doe era Hz Hok Hdoe.
  set (yoe := (doe - doe / 1460 + doe / 36524 - doe / 146096) / 365) in *.
  set (doy := doe - (365 * yoe + yoe / 4 - yoe / 100)) in *. set (mp := (5 * doy + 2) / 153) in *.
  assert (0 <= yoe < 400 /\ 0 <= mp <= 11 /\ 1 <= doy - (153 * mp + 2) / 5 + 1 <= 31) as (Hy & Hm & Hd) by lia.
  assert (0 <= era <= 24) as Hera by lia. clear Hok.
  split; [|destruct (Z.ltb_spec mp 10); lia].
  destruct (Z.ltb_spec mp 10); [destruct (mp + 3 <=? 2) eqn:E; lia|]. replace (mp - 9 <=? 2) with true by lia.
  destruct (Z.eq_dec (yoe + era * 400) 9999) as [Hlast|Hne]; [exfalso|lia].
  assert (yoe = 399 /\ era = 24) as [Hyoe ->] by lia.
  assert (306 <= doy) as Hdoy by (assert (306 <= (153 * mp + 2) / 5) by (apply Z.div_le_lower_bound; lia); lia).
  subst doy. rewrite Hyoe in Hdoy. change (399 / 4) with 99 in Hdoy. change (399 / 100) with 3 in Hdoy. lia.
Qed.

Lemma length_pad w n : length (pad w n) = w.
Proof. revert n. induction w as [|w IH]; intros n; cbn; [done|]. rewrite length_app, IH. cbn. lia. Qed.

Lemma pad_inj w a b : 0 <= a < 10 ^ Z.of_nat w -> 0 <= b < 10 ^ Z.of_nat w -> pad w a = pad w b -> a = b.
Proof.
  revert a b. induction w as [|w IH]; intros a b Ha Hb; cbn [pad]; [cbn in *; lia|].
  rewrite Nat2Z.inj_succ, Z.pow_succ_r in Ha, Hb by lia. intros Heq. apply app_inj_tail in Heq as [Hq Hr].
  pose proof (Z.mod_pos_bound a 10 ltac:(lia)). pose proof (Z.mod_pos_bound b 10 ltac:(lia)).
  assert (a / 10 = b / 10) as Hd.
  { apply IH; [| |done]; (split; [apply Z.div_pos; lia|apply Z.div_lt_upper_bound; lia]). }
  pose proof (Z.div_mod a 10 ltac:(lia)). pose proof (Z.div_mod b 10 ltac:(lia)). lia.
Qed.

(** Two texts made of a field of [w] digits and a tail. *)
Lemma pad_app_inj w a b s s' :
  0 <= a < 10 ^ Z.of_nat w -> 0 <= b < 10 ^ Z.of_nat w -> pad w a ++ s = pad w b ++ s' -> a = b /\ s = s'.
Proof.
  intros Ha Hb Heq. apply app_inj_1 in Heq as [Hp ->]; [|by rewrite !length_pad]. split; [|done]. by eapply pad_inj.
Qed.

Lemma iso_text_inj t t' :
  in_datetime_range t = true -> in_datetime_range t' = true -> iso_text t = iso_text t' -> t = t'.
Proof.
  unfold in_datetime_range, iso_text. intros Ht Ht'.
  assert (forall t, (-62135596800000000 <=? t) && (t <? 253402300800000000) = true -> 0 <= t / DAY + EPOCH_DAYS < 3652365) as Hdays.
  { intros x Hx. unfold DAY, EPOCH_DAYS. Z.div_mod_to_equations. lia. }
  pose proof (civil_range _ (Hdays t Ht)) as Hr. pose proof (civil_range _ (Hdays t' Ht')) as Hr'.
  pose proof (civil_roundtrip (t / DAY + EPOCH_DAYS)) as Hc. pose proof (civil_roundtrip (t' / DAY + EPOCH_DAYS)) as Hc'.
  destruct (civil_of_days (t / DAY + EPOCH_DAYS)) as [[y m] d]. destruct (civil_of_days (t' / DAY + EPOCH_DAYS)) as [[y' m'] d'].
  assert (forall x, 0 <= x mod DAY < DAY) as Hus by (intros; apply Z.mod_pos_bound; unfold DAY; lia).
  pose proof (Hus t) as U. pose proof (Hus t') as U'.
  assert (t = DAY * (t / DAY) + t mod DAY) as Et by (apply Z.div_mod; unfold DAY; lia).
  assert (t' = DAY * (t' / DAY) + t' mod DAY) as Et' by (apply Z.div_mod; unfold DAY; lia).
  revert Hc Hc' U U' Et Et'. generalize (t / DAY) (t' / DAY) (t mod DAY) (t' mod DAY).
  intros q q' us us' Hc Hc' U U' -> ->. clear Ht Ht' Hdays Hus.
  assert (forall s, 0 <= s < DAY -> 0 <= s / 1000000 < 86400 /\ s = 1000000 * (s / 1000000) + s mod 1000000 /\ 0 <= s mod 1000000 < 1000000) as Hs.
  { intros s Hs. unfold DAY in Hs. split_and!; Z.div_mod_to_equations; lia. }
  destruct (Hs us U) as (S1 & S2 & S3). destruct (Hs us' U') as (S1' & S2' & S3'). clear Hs.
  revert S1 S2 S3 S1' S2' S3'. generalize (us / 1000000) (us mod 1000000) (us' / 1000000) (us' mod 1000000).
  intros s f s' f' S1 -> S3 S1' -> S3' Heq.
  apply pad_app_inj in Heq as [<- Heq]; [|lia|lia]. apply app_inv_head in Heq.
  apply pad_app_inj in Heq as [<- Heq]; [|lia|lia]. apply app_inv_head in Heq.
  apply pad_app_inj in Heq as [<- Heq]; [|lia|lia]. apply app_inv_head in Heq.
  assert (q = q') as <- by lia.
  apply pad_app_inj in Heq as [Hh Heq]; [|Z.div_mod_to_equations; lia|Z.div_mod_to_equations; lia]. apply app_inv_head in Heq.
  apply pad_app_inj in Heq as [Hmin Heq]; [|Z.div_mod_to_equations; lia|Z.div_mod_to_equations; lia]. apply app_inv_head in Heq.
  apply pad_app_inj in Heq as [Hsec Heq]; [|Z.div_mod_to_equations; lia|Z.div_mod_to_equations; lia].
  assert (s = s') as <- by (Z.div_mod_to_equations; lia).
  assert (f = f') as <-; [|done].
  destruct (Z.eqb_spec f 0) as [->|Hf], (Z.eqb_spec f' 0) as [->|Hf']; [done|discriminate Heq|discriminate Heq|].
  apply app_inv_head in Heq. apply (pad_inj 6); [lia|lia|done].
Qed.

(** Its characters are ASCII. *)
Lemma pad_ascii w n : Forall (fun c => (c < 128)%N) (pad w n).
Proof.
  revert n. induction w as [|w IH]; intros n; cbn; [constructor|]. apply Forall_app. split; [apply IH|].
  constructor; [|constructor]. pose proof (Z.mod_pos_bound n 10 ltac:(lia)) as Hm. revert Hm. generalize (n mod 10). lia.
Qed.

Lemma iso_text_ascii t : Forall (fun c => (c < 128)%N) (iso_text t).
Proof.
  unfold iso_text. destruct (civil_of_days _) as [[y m] d].
  repeat first [apply pad_ascii | apply Forall_app; split | (repeat constructor; done)].
  destruct (Z.eqb _ 0); [constructor|]. apply Forall_app. split; [repeat constructor; done|apply pad_ascii].
Qed.
