(* ===== verification/JsonDecode.v ===== *)
(** * [json.loads], and its inverse law

    The decoder of the standard library on text and on UTF-8 bytes.  Canonical
    JSON is decoded again before it is trusted and hashed; [loads_dumps] shows
    that what [dumps] wrote is read back, so canonical text determines the
    value. *)

From Stdlib Require Import ZifyBool.
From S2P Require Import Prelude Regex Errors Sha256 Json.

(** ** Numbers with a fraction *)

(** What the decoder uses of [float] and [repr]: the value of a number with a
    fraction or an exponent, and which texts [repr] produces for finite floats;
    [float] reads them back.  Their shape is the one of the language. *)
Definition is_dec (c : N) : bool := (48 <=? c)%N && (c <=? 57)%N.

Definition int_shape (s : pystr) : Prop :=
  s = [48%N] \/ exists c r, s = c :: r /\ is_dec c = true /\ c <> 48%N /\ forallb is_dec r = true.
Definition frac_shape (s : pystr) : Prop :=
  s = [] \/ exists c r, s = 46%N :: c :: r /\ forallb is_dec (c :: r) = true.
Definition exp_shape (s : pystr) : Prop :=
  s = [] \/ exists sign c r, s = 101%N :: sign ++ c :: r /\ (sign = [] \/ sign = [43%N] \/ sign = [45%N])
                          /\ forallb is_dec (c :: r) = true.

Class PyFloat : Type := {
  float_value : pystr -> json;
  is_repr : pystr -> bool;
  is_repr_value t : is_repr t = true -> float_value t = JFloat t;
  is_repr_shape t : is_repr t = true -> exists sign int frac exp,
    t = sign ++ int ++ frac ++ exp /\ (sign = [] \/ sign = [45%N]) /\ int_shape int
    /\ frac_shape frac /\ exp_shape exp /\ frac ++ exp <> []
}.

(** ** The scanner *)

Definition decode_error {A} : result A := raise JSONDecodeError_ "invalid JSON document".

Fixpoint skip_ws (s : pystr) : pystr :=
  match s with
  | c :: s' => if bool_decide (c ∈ [32; 9; 10; 13]%N) then skip_ws s' else s
  | [] => []
  end.

Definition hex_value (c : N) : option N :=
  if is_dec c then Some (c - 48)%N
  else if (97 <=? c)%N && (c <=? 102)%N then Some (c - 87)%N
  else if (65 <=? c)%N && (c <=? 70)%N then Some (c - 55)%N
  else None.
Definition hex4 (a b c d : N) : option N :=
  x ← hex_value a; y ← hex_value b; z ← hex_value c; w ← hex_value d;
  Some (((x * 16 + y) * 16 + z) * 16 + w)%N.

Definition is_high (c : N) : bool := (55296 <=? c)%N && (c <=? 56319)%N.
Definition is_low (c : N) : bool := (56320 <=? c)%N && (c <=? 57343)%N.

(** One character escape after the backslash. *)
Definition simple_escape (c : N) : option N :=
  if bool_decide (c ∈ [34; 92; 47]%N) then Some c
  else if (c =? 98)%N then Some 8%N
  else if (c =? 102)%N then Some 12%N
  else if (c =? 110)%N then Some 10%N
  else if (c =? 114)%N then Some 13%N
  else if (c =? 116)%N then Some 9%N
  else None.

(** The surrogate of a second escape that completes [hi]. *)
Definition low_of (hi x y a b c d : N) : option N :=
  if is_high hi && (x =? 92)%N && (y =? 117)%N then
    lo ← hex4 a b c d; if is_low lo then Some lo else None
  else None.

(** The string after its opening quote. *)
Fixpoint string_body (s : pystr) : result (pystr * pystr) :=
  match s with
  | [] => decode_error
  | c :: rest =>
      if (c =? 34)%N then Ok ([], rest)
      else if (c =? 92)%N then
        match rest with
        | [] => decode_error
        | e :: rest1 =>
            if (e =? 117)%N then
              match rest1 with
              | h1 :: h2 :: h3 :: h4 :: rest2 =>
                  match hex4 h1 h2 h3 h4 with
                  | None => decode_error
                  | Some hi =>
                      let single := '(text, r) ← string_body rest2; Ok (hi :: text, r) in
                      match rest2 with
                      | x :: y :: l1 :: l2 :: l3 :: l4 :: rest3 =>
                          match low_of hi x y l1 l2 l3 l4 with
                          | Some lo =>
                              '(text, r) ← string_body rest3;
                              Ok ((65536 + (hi - 55296) * 1024 + (lo - 56320))%N :: text, r)
                          | None => single
                          end
                      | _ => single
                      end
                  end
              | _ => decode_error
              end
            else
              match simple_escape e with
              | Some x => '(text, r) ← string_body rest1; Ok (x :: text, r)
              | None => decode_error
              end
        end
      else if (c <? 32)%N then decode_error
      else '(text, r) ← string_body rest; Ok (c :: text, r)
  end.

Fixpoint span_digits (s : pystr) : pystr * pystr :=
  match s with
  | c :: s' => if is_dec c then let '(ds, r) := span_digits s' in (c :: ds, r) else ([], s)
  | [] => ([], [])
  end.

Definition digits_value (ds : pystr) : N := fold_left (fun a c => 10 * a + (c - 48))%N ds 0%N.

(** [int(text)] and [float(text)] *)
Definition int_value (sign int : pystr) : result json :=
  raise_if (MAX_STR_DIGITS <? Z.of_nat (length int))
    (Exn ValueError_ "Exceeds the limit for integer string conversion") ;;
  Ok (JInt (match sign with [] => Z.of_N (digits_value int) | _ => - Z.of_N (digits_value int) end)).

Definition is_char (x : N) (s : pystr) : bool := match s with c :: _ => (c =? x)%N | [] => false end.
Definition scan_sign (s : pystr) : pystr * pystr := if is_char 45 s then ([45%N], drop 1 s) else ([], s).
Definition scan_int (s : pystr) : option (pystr * pystr) :=
  if is_char 48 s then Some ([48%N], drop 1 s)
  else match span_digits s with ([], _) => None | x => Some x end.
Definition scan_frac (s : pystr) : pystr * pystr :=
  if is_char 46 s then
    match span_digits (drop 1 s) with ([], _) => ([], s) | (ds, r) => (46%N :: ds, r) end
  else ([], s).
Definition scan_exp (s : pystr) : pystr * pystr :=
  if is_char 101 s || is_char 69 s then
    let s1 := drop 1 s in
    let sign := if is_char 43 s1 || is_char 45 s1 then take 1 s1 else [] in
    match span_digits (drop (length sign) s1) with ([], _) => ([], s) | (ds, r) => (take 1 s ++ sign ++ ds, r) end
  else ([], s).

Section Loads.
Context `{PyFloat}.

(** A number of the JSON grammar, [NaN] or an infinity. *)
Definition number (s : pystr) : result (json * pystr) :=
  let '(sign, s1) := scan_sign s in
  match scan_int s1 with
  | None =>
      if starts_with (u "NaN") s then Ok (JNonFinite, drop 3 s)
      else if starts_with (u "Infinity") s then Ok (JNonFinite, drop 8 s)
      else if starts_with (u "-Infinity") s then Ok (JNonFinite, drop 9 s)
      else decode_error
  | Some (int, s2) =>
      let '(frac, s3) := scan_frac s2 in
      let '(exp, s4) := scan_exp s3 in
      match frac ++ exp with
      | [] => z ← int_value sign int; Ok (z, s4)
      | _ => Ok (float_value (sign ++ int ++ frac ++ exp), s4)
      end
  end.

(** [dict(pairs)]: the last value of a key, at its first place. *)
Fixpoint dict_set (k : pystr) (v : json) (items : list (pystr * json)) : list (pystr * json) :=
  match items with
  | [] => [(k, v)]
  | (k', v') :: items' => if bool_decide (k = k') then (k, v) :: items' else (k', v') :: dict_set k v items'
  end.
Definition dict_of (pairs : list (pystr * json)) : list (pystr * json) :=
  fold_left (fun items '(k, v) => dict_set k v items) pairs [].

(** The elements of an array, the members of an object, up to the bracket. *)
Section Items.
Context (scan : pystr -> result (json * pystr)).

Fixpoint elements (fuel : nat) (s : pystr) : result (list json * pystr) :=
  match fuel with
  | O => decode_error
  | S fuel' =>
      '(v, r) ← scan s;
      let r := skip_ws r in
      if is_char 44 r then '(vs, r') ← elements fuel' (skip_ws (drop 1 r)); Ok (v :: vs, r')
      else if is_char 93 r then Ok ([v], drop 1 r)
      else decode_error
  end.

Fixpoint members (fuel : nat) (s : pystr) : result (list (pystr * json) * pystr) :=
  match fuel with
  | O => decode_error
  | S fuel' =>
      if is_char 34 s then
        '(k, r) ← string_body (drop 1 s);
        let r := skip_ws r in
        if is_char 58 r then
          '(v, r1) ← scan (skip_ws (drop 1 r));
          let r1 := skip_ws r1 in
          if is_char 44 r1 then '(kvs, r2) ← members fuel' (skip_ws (drop 1 r1)); Ok ((k, v) :: kvs, r2)
          else if is_char 125 r1 then Ok ([(k, v)], drop 1 r1)
          else decode_error
        else decode_error
      else decode_error
  end.
End Items.

Fixpoint scan_once (fuel : nat) (s : pystr) : result (json * pystr) :=
  match fuel with
  | O => decode_error
  | S fuel' =>
      if is_char 34 s then '(text, r) ← string_body (drop 1 s); Ok (JStr text, r)
      else if is_char 123 s then
        let r := skip_ws (drop 1 s) in
        if is_char 125 r then Ok (JObj [], drop 1 r)
        else '(kvs, r') ← members (scan_once fuel') fuel' r; Ok (JObj (dict_of kvs), r')
      else if is_char 91 s then
        let r := skip_ws (drop 1 s) in
        if is_char 93 r then Ok (JArr [], drop 1 r)
        else '(vs, r') ← elements (scan_once fuel') fuel' r; Ok (JArr vs, r')
      else if starts_with (u "null") s then Ok (JNull, drop 4 s)
      else if starts_with (u "true") s then Ok (JBool true, drop 4 s)
      else if starts_with (u "false") s then Ok (JBool false, drop 5 s)
      else number s
  end.

(** [json.loads(s)] for a [str]; each level consumes a character, so the
    length is fuel enough. *)
Definition loads (s : pystr) : result json :=
  '(v, r) ← scan_once (S (length s)) (skip_ws s);
  match skip_ws r with [] => Ok v | _ => decode_error end.
End Loads.

(** ** Strings *)

(** A character that UTF-8 encodes. *)
Definition scalar (c : N) : bool := (c <? 1114112)%N && negb ((55296 <=? c)%N && (c <=? 57343)%N).

Lemma hex_value_char x : hex_value (hex_char x) = Some (Z.to_N (x mod 16)).
Proof.
  unfold hex_char. assert (0 <= x mod 16 < 16) as Hx by (apply Z.mod_pos_bound; lia).
  change 15 with (Z.ones 4). rewrite Z.land_ones by lia. change (2 ^ 4) with 16.
  generalize dependent (x mod 16). intros y Hy.
  assert (y = 0 \/ y = 1 \/ y = 2 \/ y = 3 \/ y = 4 \/ y = 5 \/ y = 6 \/ y = 7 \/ y = 8 \/ y = 9 \/ y = 10
          \/ y = 11 \/ y = 12 \/ y = 13 \/ y = 14 \/ y = 15) as Hc by lia.
  repeat destruct Hc as [->|Hc]; [vm_compute; reflexivity..|]. subst. vm_compute. reflexivity.
Qed.

Lemma hex4_digits n :
  (n < 65536)%N -> exists a b c d, hex_digits 4 (Z.of_N n) = [a; b; c; d] /\ hex4 a b c d = Some n.
Proof.
  intros Hn. cbn. eexists _, _, _, _. split; [reflexivity|].
  unfold hex4. rewrite !hex_value_char. cbn [mbind option_bind]. f_equal.
  rewrite !Z.shiftr_div_pow2 by lia. change (2 ^ 4) with 16. Z.div_mod_to_equations. lia.
Qed.

Lemma body_simple e x rest :
  simple_escape e = Some x -> e <> 117%N ->
  string_body (92%N :: e :: rest) = '(text, r) ← string_body rest; Ok (x :: text, r).
Proof. intros He Hne. cbn. rewrite (proj2 (N.eqb_neq e 117) Hne), He. done. Qed.

Lemma body_unicode n rest :
  (n < 65536)%N -> is_high n = false ->
  string_body (u_escape n ++ rest) = '(text, r) ← string_body rest; Ok (n :: text, r).
Proof.
  intros Hn Hh. unfold u_escape. destruct (hex4_digits n Hn) as (a & b & c & d & -> & Hx).
  change (u "\u") with [92; 117]%N. cbn -[string_body]. cbn [string_body]. cbn [N.eqb Pos.eqb]. rewrite Hx.
  unfold low_of. rewrite Hh. cbn [andb].
  destruct rest as [|x1 [|x2 [|x3 [|x4 [|x5 [|x6 rest]]]]]]; done.
Qed.

Lemma body_pair hi lo rest :
  is_high hi = true -> is_low lo = true ->
  string_body (u_escape hi ++ u_escape lo ++ rest)
  = '(text, r) ← string_body rest; Ok ((65536 + (hi - 55296) * 1024 + (lo - 56320))%N :: text, r).
Proof.
  intros Hh Hl.
  assert (hi < 65536)%N as Hhi by (unfold is_high in Hh; lia).
  assert (lo < 65536)%N as Hlo by (unfold is_low in Hl; lia).
  unfold u_escape. destruct (hex4_digits hi Hhi) as (a & b & c & d & -> & Hx).
  destruct (hex4_digits lo Hlo) as (a' & b' & c' & d' & -> & Hy).
  change (u "\u") with [92; 117]%N. cbn -[string_body]. cbn [string_body]. cbn [N.eqb Pos.eqb]. rewrite Hx.
  unfold low_of. rewrite Hh. cbn [N.eqb Pos.eqb andb]. rewrite Hy. cbn [mbind option_bind]. rewrite Hl. done.
Qed.

Lemma body_plain c rest :
  (32 <= c)%N -> c <> 34%N -> c <> 92%N ->
  string_body (c :: rest) = '(text, r) ← string_body rest; Ok (c :: text, r).
Proof.
  intros H1 H2 H3. cbn. rewrite (proj2 (N.eqb_neq c 34) H2), (proj2 (N.eqb_neq c 92) H3).
  by rewrite (proj2 (N.ltb_ge c 32) H1).
Qed.

Lemma body_escape b c rest :
  scalar c = true ->
  string_body (escape_char b c ++ rest) = '(text, r) ← string_body rest; Ok (c :: text, r).
Proof.
  intros Hc. unfold scalar in Hc. unfold escape_char.
  destruct (N.eqb_spec c 34) as [->|H34]; [apply (body_simple 34 34 rest); done|].
  destruct (N.eqb_spec c 92) as [->|H92]; [apply (body_simple 92 92 rest); done|].
  destruct (N.eqb_spec c 10) as [->|H10]; [apply (body_simple 110 10 rest); done|].
  destruct (N.eqb_spec c 13) as [->|H13]; [apply (body_simple 114 13 rest); done|].
  destruct (N.eqb_spec c 9) as [->|H9]; [apply (body_simple 116 9 rest); done|].
  destruct (N.eqb_spec c 12) as [->|H12]; [apply (body_simple 102 12 rest); done|].
  destruct (N.eqb_spec c 8) as [->|H8]; [apply (body_simple 98 8 rest); done|].
  assert (forall n, n = c -> (n < 65536)%N -> is_high n = false) as Hhigh.
  { intros n -> Hn. unfold is_high. lia. }
  destruct b.
  - destruct ((32 <=? c)%N && (c <=? 126)%N) eqn:Hp; [apply body_plain; [lia|done|done]|].
    destruct (N.ltb_spec c 65536) as [Hs|Hb]; [apply body_unicode; [done|by apply Hhigh]|].
    rewrite <- app_assoc. rewrite body_pair.
    + destruct (string_body rest) as [[text r]|]; [|done]. cbn. repeat f_equal.
      rewrite N.shiftr_div_pow2. change 1023%N with (N.ones 10). rewrite N.land_ones. change (2 ^ 10)%N with 1024%N.
      pose proof (N.div_mod (c - 65536) 1024 ltac:(lia)) as Hdm.
      revert Hdm. generalize ((c - 65536) / 1024)%N ((c - 65536) mod 1024)%N. intros q m Hdm. lia.
    + unfold is_high. rewrite N.shiftr_div_pow2. change (2 ^ 10)%N with 1024%N.
      assert ((c - 65536) / 1024 < 1024)%N as Hq by (apply N.Div0.div_lt_upper_bound; lia).
      revert Hq. generalize ((c - 65536) / 1024)%N. intros q Hq. lia.
    + unfold is_low. change 1023%N with (N.ones 10). rewrite N.land_ones. change (2 ^ 10)%N with 1024%N.
      assert ((c - 65536) mod 1024 < 1024)%N as Hm by (apply N.mod_lt; lia).
      revert Hm. generalize ((c - 65536) mod 1024)%N. intros m Hm. lia.
  - destruct (N.ltb_spec c 32) as [Hs|Hb]; [apply body_unicode; [lia|apply Hhigh; [done|lia]]|].
    by apply body_plain.
Qed.

Lemma string_roundtrip b s rest :
  forallb scalar s = true ->
  string_body ((s ≫= escape_char b) ++ 34%N :: rest) = Ok (s, rest).
Proof.
  induction s as [|c s IH]; [done|]. cbn [forallb]. intros [Hc Hs]%andb_true_iff.
  change ((c :: s) ≫= escape_char b) with (escape_char b c ++ (s ≫= escape_char b)).
  rewrite <- app_assoc, body_escape by done. by rewrite IH.
Qed.

(** ** Numbers *)

Lemma digits_go_value fuel n acc :
  (n < 2 ^ N.of_nat fuel)%N ->
  fold_left (fun a c => 10 * a + (c - 48))%N (digits_go fuel n acc) 0%N
  = fold_left (fun a c => 10 * a + (c - 48))%N acc n.
Proof.
  revert n acc. induction fuel as [|fuel IH]; intros n acc Hn; cbn [digits_go].
  - cbn in Hn. by replace n with 0%N by lia.
  - destruct (N.ltb_spec n 10) as [Hs|Hb]; [cbn [fold_left]; f_equal; lia|].
    rewrite IH.
    + cbn [fold_left]. f_equal. pose proof (N.div_mod n 10 ltac:(lia)) as Hdm. revert Hdm.
      generalize (n / 10)%N (n mod 10)%N. intros q m Hdm. lia.
    + rewrite Nat2N.inj_succ, N.pow_succ_r' in Hn. apply N.Div0.div_lt_upper_bound. lia.
Qed.

Lemma digits_go_shape fuel n acc :
  (n < 2 ^ N.of_nat fuel)%N -> forallb is_dec acc = true ->
  forallb is_dec (digits_go fuel n acc) = true /\ ((0 < n)%N -> exists c r, digits_go fuel n acc = c :: r /\ c <> 48%N).
Proof.
  revert n acc. induction fuel as [|fuel IH]; intros n acc Hn Ha; cbn [digits_go].
  - cbn in Hn. split; [done|lia].
  - destruct (N.ltb_spec n 10) as [Hs|Hb].
    + split; [cbn; rewrite Ha; unfold is_dec; lia|]. intros Hp. exists (48 + n)%N, acc. split; [done|lia].
    + assert (n mod 10 < 10)%N as Hm by (apply N.mod_lt; lia).
      assert (n / 10 < 2 ^ N.of_nat fuel)%N as Hq.
      { rewrite Nat2N.inj_succ, N.pow_succ_r' in Hn. apply N.Div0.div_lt_upper_bound. lia. }
      assert (0 < n / 10)%N as Hpos by (apply N.div_str_pos; lia).
      destruct (IH (n / 10)%N ((48 + n mod 10)%N :: acc) Hq) as [H1 H2].
      { cbn. rewrite Ha. unfold is_dec. revert Hm. generalize (n mod 10)%N. intros m Hm. lia. }
      auto.
Qed.

Lemma nat_text_bound n : (n < 2 ^ N.of_nat (S (N.to_nat (N.size n))))%N.
Proof.
  rewrite Nat2N.inj_succ, N2Nat.id, N.pow_succ_r'. pose proof (N.size_gt n). lia.
Qed.

Lemma nat_text_value n : digits_value (nat_text n) = n.
Proof. unfold digits_value, nat_text. rewrite digits_go_value; [done|apply nat_text_bound]. Qed.

Lemma nat_text_shape n : int_shape (nat_text n).
Proof.
  destruct (N.eqb_spec n 0) as [->|Hn]; [by left|]. right.
  destruct (digits_go_shape _ n [] (nat_text_bound n) eq_refl) as [Hd Hs].
  destruct (Hs ltac:(lia)) as (c & r & Heq & Hc). exists c, r.
  unfold nat_text. rewrite Heq in *. cbn [forallb] in Hd. apply andb_true_iff in Hd as [? ?]. auto.
Qed.

(** Text after which a number ends. *)
Definition ends (s : pystr) : bool :=
  match s with c :: _ => negb (is_dec c) && negb (bool_decide (c ∈ [46; 101; 69]%N)) | [] => true end.

Lemma ends_digit c s : ends (c :: s) = true -> is_dec c = false.
Proof. cbn. by intros [?%negb_true_iff _]%andb_true_iff. Qed.

Lemma ends_not x s : ends s = true -> x ∈ [46; 101; 69]%N -> is_char x s = false.
Proof.
  destruct s as [|c s]; [done|]. cbn. intros [_ Hc%negb_true_iff]%andb_true_iff Hx.
  apply bool_decide_eq_false in Hc. apply N.eqb_neq. by intros ->.
Qed.

Lemma span_digits_app ds s :
  forallb is_dec ds = true -> match s with c :: _ => is_dec c = false | [] => True end ->
  span_digits (ds ++ s) = (ds, s).
Proof.
  induction ds as [|c ds IH]; cbn.
  - intros _ Hs. destruct s as [|c s]; [done|]. cbn. by rewrite Hs.
  - intros [-> Hds]%andb_true_iff Hs. by rewrite IH.
Qed.

Lemma scan_int_shape i s :
  int_shape i -> match s with c :: _ => is_dec c = false | [] => True end -> scan_int (i ++ s) = Some (i, s).
Proof.
  unfold scan_int. intros [->|(c & r & -> & Hc & Hne & Hr)] Hs; [done|].
  cbn [is_char app]. rewrite (proj2 (N.eqb_neq c 48) Hne). change (c :: r ++ s) with ((c :: r) ++ s).
  rewrite span_digits_app; [done| |done]. cbn. by rewrite Hc.
Qed.

Lemma scan_frac_shape f s :
  frac_shape f -> is_char 46 s = false -> match s with c :: _ => is_dec c = false | [] => True end ->
  scan_frac (f ++ s) = (f, s).
Proof.
  unfold scan_frac. intros [->|(c & r & -> & Hr)] Hdot Hs; [cbn; by rewrite Hdot|].
  cbn [is_char app N.eqb Pos.eqb drop]. rewrite ?drop_0. change (c :: r ++ s) with ((c :: r) ++ s). by rewrite span_digits_app.
Qed.

Lemma scan_exp_shape e s :
  exp_shape e -> is_char 101 s = false -> is_char 69 s = false ->
  match s with c :: _ => is_dec c = false | [] => True end -> scan_exp (e ++ s) = (e, s).
Proof.
  unfold scan_exp. intros [->|(sign & c & r & -> & Hsign & Hr)] H1 H2 Hs; [cbn [app]; by rewrite H1, H2|].
  cbn [is_char app N.eqb Pos.eqb orb drop take]. rewrite <- app_assoc, drop_0, take_0.
  assert ((if is_char 43 (sign ++ (c :: r) ++ s) || is_char 45 (sign ++ (c :: r) ++ s) then take 1 (sign ++ (c :: r) ++ s) else [])
          = sign) as ->.
  { destruct Hsign as [->|[->| ->]]; [|done|done]. cbn. cbn in Hr. unfold is_dec in Hr.
    rewrite (proj2 (N.eqb_neq c 43)), (proj2 (N.eqb_neq c 45)) by lia. done. }
  rewrite drop_app_length. by rewrite span_digits_app.
Qed.

Section Number.
Context `{PyFloat}.

Lemma number_parts sign int frac exp s :
  (sign = [] \/ sign = [45%N]) -> int_shape int -> frac_shape frac -> exp_shape exp -> ends s = true ->
  number (sign ++ int ++ frac ++ exp ++ s)
  = match frac ++ exp with
    | [] => z ← int_value sign int; Ok (z, s)
    | _ => Ok (float_value (sign ++ int ++ frac ++ exp), s)
    end.
Proof.
  intros Hsign Hint Hfrac Hexp Hs. unfold number.
  assert (scan_sign (sign ++ int ++ frac ++ exp ++ s) = (sign, int ++ frac ++ exp ++ s)) as ->.
  { destruct Hsign as [->| ->]; [|done]. unfold scan_sign. cbn [app].
    destruct Hint as [->|(c & r & -> & Hc & _)]; [done|]. cbn. unfold is_dec in Hc.
    by rewrite (proj2 (N.eqb_neq c 45)) by lia. }
  assert (match s with c :: _ => is_dec c = false | [] => True end) as Hd by (destruct s; [done|by eapply ends_digit]).
  rewrite scan_int_shape; [|done|].
  2: { destruct Hfrac as [->|(c & r & -> & _)]; [|done]. destruct Hexp as [->|(sg & c & r & -> & _)]; done. }
  rewrite scan_frac_shape; [|done| |].
  2: { destruct Hexp as [->|(sg & c & r & -> & _)]; [|done]. apply ends_not; [done|set_solver]. }
  2: { destruct Hexp as [->|(sg & c & r & -> & _)]; done. }
  rewrite scan_exp_shape; [done|done|apply ends_not; [done|set_solver]|apply ends_not; [done|set_solver]|done].
Qed.

Lemma number_int z s : printable z = true -> ends s = true -> number (int_text z ++ s) = Ok (JInt z, s).
Proof.
  intros Hp Hs. unfold int_text. rewrite <- app_assoc.
  pose proof (number_parts (if z <? 0 then [45%N] else []) (nat_text (Z.abs_N z)) [] [] s) as Hn.
  cbn [app] in Hn. rewrite Hn; [|destruct (z <? 0); auto|apply nat_text_shape|by left|by left|done].
  unfold int_value, printable in *. rewrite (Z.ltb_antisym _ MAX_STR_DIGITS), Hp.
  cbn [raise_if negb mbind outcome_mbind outcome_bind]. rewrite nat_text_value.
  destruct (Z.ltb_spec z 0); cbn; repeat f_equal; lia.
Qed.

Lemma number_float t s : is_repr t = true -> ends s = true -> number (t ++ s) = Ok (JFloat t, s).
Proof.
  intros Ht Hs. destruct (is_repr_shape t Ht) as (sign & int & frac & exp & -> & H1 & H2 & H3 & H4 & H5).
  rewrite <- !app_assoc. rewrite number_parts by done. rewrite is_repr_value by done.
  by destruct (frac ++ exp).
Qed.
End Number.

(** ** Values *)

Lemma json_nested_ind (P : json -> Prop) :
  P JNull -> (forall b, P (JBool b)) -> (forall z, P (JInt z)) -> (forall t, P (JFloat t)) -> P JNonFinite ->
  (forall s, P (JStr s)) -> (forall l, Forall P l -> P (JArr l)) ->
  (forall items, Forall (fun kv => P (snd kv)) items -> P (JObj items)) -> P JOther ->
  forall v, P v.
Proof.
  intros Hnull Hbool Hint Hfloat Hnf Hstr Harr Hobj Hother. fix IH 1.
  intros [|b|z|t| |s|l|items|]; [done|done|done|done|done|done| | |done].
  - apply Harr. induction l as [|x l IHl]; constructor; [apply IH|apply IHl].
  - apply Hobj. induction items as [|[k x] items IHi]; constructor; [apply IH|apply IHi].
Qed.

Definition key_leb {A} (a b : pystr * A) : bool := str_leb (fst a) (fst b).

(** The value with the keys of its objects in order. *)
Fixpoint sort_json (v : json) : json :=
  match v with
  | JArr l => JArr (sort_json <$> l)
  | JObj items => JObj (sort_by key_leb ((fun '(k, x) => (k, sort_json x)) <$> items))
  | _ => v
  end.

Section Values.
Context `{PyFloat}.

(** Strings of encodable characters, floats by their [repr], objects without
    repeated keys. *)
Fixpoint json_wf (v : json) : bool :=
  match v with
  | JNull | JBool _ | JInt _ | JNonFinite | JOther => true
  | JFloat t => is_repr t
  | JStr s => forallb scalar s
  | JArr l => forallb json_wf l
  | JObj items =>
      bool_decide (NoDup (fst <$> items)) && forallb (fun '(k, x) => forallb scalar k && json_wf x) items
  end.

(** Text that starts neither with white space nor with a closing bracket. *)
Definition starts (s : pystr) : bool :=
  match s with c :: _ => negb (bool_decide (c ∈ [32; 9; 10; 13; 93; 125]%N)) | [] => false end.

Lemma starts_skip s r : starts s = true -> skip_ws (s ++ r) = s ++ r.
Proof.
  destruct s as [|c s]; [done|]. cbn. intros Hc%negb_true_iff%bool_decide_eq_false.
  rewrite bool_decide_eq_false_2; [done|]. intros Hin. apply Hc. set_solver.
Qed.

Lemma starts_char s r x : starts s = true -> x ∈ [93; 125]%N -> is_char x (s ++ r) = false.
Proof.
  destruct s as [|c s]; [done|]. cbn. intros Hc%negb_true_iff%bool_decide_eq_false Hx.
  apply N.eqb_neq. intros ->. apply Hc. set_solver.
Qed.

Lemma int_text_starts z : exists c s, int_text z = c :: s /\ (c = 45%N \/ is_dec c = true).
Proof.
  unfold int_text. destruct (z <? 0); [by eexists _, _; split; [reflexivity|left]|]. cbn [app].
  destruct (nat_text_shape (Z.abs_N z)) as [->|(c & r & -> & Hc & _)]; eexists _, _; (split; [reflexivity|right]); done.
Qed.

Lemma repr_starts t : is_repr t = true -> exists c s, t = c :: s /\ (c = 45%N \/ is_dec c = true).
Proof.
  intros Ht. destruct (is_repr_shape t Ht) as (sign & int & frac & exp & -> & Hs & Hi & _).
  destruct Hs as [->| ->]; [|by eexists _, _; split; [reflexivity|left]]. cbn [app].
  destruct Hi as [->|(c & r & -> & Hc & _)]; eexists _, _; (split; [reflexivity|right]); done.
Qed.

Lemma digit_starts c s : c = 45%N \/ is_dec c = true -> starts (c :: s) = true.
Proof.
  intros Hc. cbn. apply negb_true_iff, bool_decide_eq_false. unfold is_dec in Hc. intros Hin.
  repeat (apply elem_of_cons in Hin as [->|Hin]; [destruct Hc; [done|lia]|]). by apply elem_of_nil in Hin.
Qed.

Lemma dumps_starts b v t : json_wf v = true -> dumps b v = Ok t -> starts t = true.
Proof.
  intros Hwf. destruct v as [|flag|z|text| |s|l|items|]; cbn [dumps]; intros Hd; inv_ok; try discriminate Hd; subst; try done.
  - by destruct flag.
  - destruct (int_text_starts z) as (c & s & -> & Hc). by apply digit_starts.
  - destruct (repr_starts _ Hwf) as (c & s & -> & Hc). by apply digit_starts.
Qed.

(** A digit or a minus sign leads to the number scanner. *)
Lemma scan_number fuel c s :
  c = 45%N \/ is_dec c = true -> scan_once (S fuel) (c :: s) = number (c :: s).
Proof.
  intros Hc. assert (forall x : N, x ∈ [34; 123; 91; 110; 116; 102]%N -> c <> x) as Hne.
  { intros x Hx ->. unfold is_dec in Hc.
    repeat (apply elem_of_cons in Hx as [->|Hx]; [destruct Hc; [done|lia]|]). by apply elem_of_nil in Hx. }
  cbn [scan_once is_char]. rewrite !(proj2 (N.eqb_neq _ _)) by (apply Hne; set_solver).
  assert (forall x l, x ∈ [110; 116; 102]%N -> starts_with (x :: l) (c :: s) = false) as Hw.
  { intros x l Hx. cbn. rewrite bool_decide_eq_false_2; [done|]. intros <-. apply (Hne x); [set_solver|done]. }
  unfold u. cbn [String.list_ascii_of_string fmap list_fmap].
  rewrite !Hw by (vm_compute; set_solver). done.
Qed.
End Values.

Section Roundtrip.
Context `{PyFloat}.

(** [scan] reads [t] as [v] wherever a value ends. *)
Definition reads (scan : pystr -> result (json * pystr)) (v : json) (t : pystr) : Prop :=
  starts t = true /\ forall rest, ends rest = true -> scan (t ++ rest) = Ok (v, rest).

Lemma elements_read scan vs ts fuel rest :
  Forall2 (reads scan) vs ts -> vs <> [] -> (length vs <= fuel)%nat ->
  elements scan fuel (join (u ",") ts ++ 93%N :: rest) = Ok (vs, rest).
Proof.
  intros Hr. revert fuel. induction Hr as [|v t vs ts [Ht Hscan] Hr IH]; intros [|fuel] Hne Hl; cbn in Hl; try done; [lia|].
  cbn [elements]. destruct Hr as [|v' t' vs' ts' Ht' Hr'].
  - cbn [join]. by rewrite Hscan.
  - change (join (u ",") (t :: t' :: ts')) with (t ++ u "," ++ join (u ",") (t' :: ts')).
    rewrite <- !app_assoc, Hscan by done.
    cbn [mbind outcome_mbind outcome_bind app]. change (u ",") with [44%N]. cbn [app skip_ws].
    rewrite (bool_decide_eq_false_2 (44%N ∈ _)) by (vm_compute; set_solver). cbn [is_char N.eqb Pos.eqb drop].
    rewrite drop_0. change [44%N] with (u ",").
    rewrite starts_skip; [|destruct ts'; [apply Ht'|]; destruct Ht' as [Hs _]; cbn; by destruct t'].
    rewrite IH; [done|done|cbn in *; lia].
Qed.

Lemma members_read b scan (kvs : list (pystr * json)) (kts : list (pystr * pystr)) fuel rest :
  Forall2 (fun kv kt => fst kv = fst kt /\ forallb scalar (fst kv) = true /\ reads scan (snd kv) (snd kt)) kvs kts ->
  kvs <> [] -> (length kvs <= fuel)%nat ->
  members scan fuel (join (u ",") ((fun '(k, t) => quote b k ++ u ":" ++ t) <$> kts) ++ 125%N :: rest) = Ok (kvs, rest).
Proof.
  intros Hr. revert fuel.
  induction Hr as [|[k v] [k' t] kvs kts (Hk & Hsc & Ht & Hscan) Hr IH]; intros [|fuel] Hne Hl; cbn in Hl; try done; [lia|].
  cbn in Hk, Hsc, Ht, Hscan. subst k'. cbn [members].
  assert (forall tail, ends tail = true ->
    members scan (S fuel) ((quote b k ++ u ":" ++ t) ++ tail)
    = (let r1 := skip_ws tail in
       if is_char 44 r1 then '(kvs, r2) ← members scan fuel (skip_ws (drop 1 r1)); Ok ((k, v) :: kvs, r2)
       else if is_char 125 r1 then Ok ([(k, v)], drop 1 r1) else decode_error)) as Hone.
  { intros tail Htail. unfold quote. cbn [members]. rewrite <- !app_assoc. cbn [app is_char N.eqb Pos.eqb drop].
    rewrite drop_0, string_roundtrip by done. cbn [mbind outcome_mbind outcome_bind].
    change (u ":") with [58%N]. cbn [app skip_ws].
    rewrite (bool_decide_eq_false_2 (58%N ∈ _)) by (vm_compute; set_solver). cbn [is_char N.eqb Pos.eqb drop].
    rewrite drop_0, starts_skip by done. rewrite Hscan by done. done. }
  destruct Hr as [|kv' kt' kvs' kts' Ht' Hr'].
  - cbn [fmap list_fmap join]. apply (Hone (125%N :: rest)). done.
  - change (join (u ",") ((fun '(k, t) => quote b k ++ u ":" ++ t) <$> (k, t) :: kt' :: kts'))
      with ((quote b k ++ u ":" ++ t) ++ u "," ++ join (u ",") ((fun '(k, t) => quote b k ++ u ":" ++ t) <$> kt' :: kts')).
    rewrite <- (app_assoc (quote b k ++ u ":" ++ t)). rewrite <- (app_assoc (u ",")).
    etrans; [apply Hone; done|]. change (u ",") with [44%N]. cbn zeta. cbn [app skip_ws].
    rewrite (bool_decide_eq_false_2 (44%N ∈ _)) by (vm_compute; set_solver). cbn [is_char N.eqb Pos.eqb drop].
    rewrite drop_0. change [44%N] with (u ",").
    assert (starts (join (u ",") ((fun '(k, t) => quote b k ++ u ":" ++ t) <$> kt' :: kts')) = true) as Hst.
    { destruct kt' as [k1 t1]. destruct kts'; vm_compute; done. }
    rewrite starts_skip by done. rewrite IH; [done|done|cbn in *; lia].
Qed.
End Roundtrip.

Lemma dict_set_new k v items : k ∉ fst <$> items -> dict_set k v items = items ++ [(k, v)].
Proof.
  induction items as [|[k' v'] items IH]; [done|]. cbn. intros Hk.
  rewrite bool_decide_eq_false_2 by set_solver. rewrite IH by set_solver. done.
Qed.

Lemma dict_of_id items : NoDup (fst <$> items) -> dict_of items = items.
Proof.
  unfold dict_of. enough (forall acc, NoDup (fst <$> acc ++ items) ->
    fold_left (fun l '(k, v) => dict_set k v l) items acc = acc ++ items) as Hgen by apply (Hgen []).
  induction items as [|[k v] items IH]; intros acc Hnd; cbn; [by rewrite app_nil_r|].
  rewrite dict_set_new.
  - rewrite IH by (by rewrite <- app_assoc). by rewrite <- app_assoc.
  - rewrite fmap_app, fmap_cons in Hnd. apply NoDup_app in Hnd as (_ & Hd & _). intros Hin. apply (Hd k Hin). by left.
Qed.

Lemma join_length sep ts : Forall (fun t => (1 <= length t)%nat) ts -> (length ts <= length (join sep ts))%nat.
Proof.
  induction 1 as [|t ts Ht Hts IH]; [done|]. destruct ts as [|t' ts]; [cbn; lia|].
  change (join sep (t :: t' :: ts)) with (t ++ sep ++ join sep (t' :: ts)). rewrite !length_app. cbn [length] in *. lia.
Qed.

Lemma join_elem_length sep ts t : t ∈ ts -> (length t <= length (join sep ts))%nat.
Proof.
  induction ts as [|x ts IH]; [by intros ?%elem_of_nil|]. intros [->|Ht]%elem_of_cons.
  - destruct ts; cbn [join]; [done|]. rewrite length_app. lia.
  - specialize (IH Ht). destruct ts as [|y ts]; [by apply elem_of_nil in Ht|].
    change (join sep (x :: y :: ts)) with (x ++ sep ++ join sep (y :: ts)). rewrite !length_app. lia.
Qed.

Lemma starts_length t : starts t = true -> (1 <= length t)%nat.
Proof. destruct t; [done|]. cbn. lia. Qed.

Section Main.
Context `{PyFloat}.

(** The texts of the members, in the order of their keys. *)
Lemma dumps_members b items ms :
  map_each (fun '(k, x) => t ← dumps b x; Ok (k, t)) items = Ok ms ->
  exists z : list (pystr * json * pystr),
    items = (fun '(k, x, _) => (k, x)) <$> z /\ ms = (fun '(k, _, t) => (k, t)) <$> z
    /\ Forall (fun '(_, x, t) => dumps b x = Ok t) z.
Proof.
  intros Hm. apply map_each_Ok in Hm.
  induction Hm as [|[k x] m items ms Hkx Hm IH]; [by exists []|].
  destruct IH as (z & -> & -> & Hz). inv_ok. subst m. exists ((k, x, v) :: z). by repeat split; constructor.
Qed.

(** What the induction shows of a value. *)
Definition scans (b : bool) (v : json) : Prop :=
  forall t fuel rest, json_wf v = true -> dumps b v = Ok t -> (length t < fuel)%nat -> ends rest = true ->
    scan_once fuel (t ++ rest) = Ok (sort_json v, rest).

Lemma scans_reads b v t fuel :
  scans b v -> json_wf v = true -> dumps b v = Ok t -> (length t < fuel)%nat -> reads (scan_once fuel) (sort_json v) t.
Proof. intros Hs Hwf Hd Hl. split; [by eapply dumps_starts|]. intros rest Hr. by apply Hs. Qed.

Lemma scans_array b l : Forall (scans b) l -> scans b (JArr l).
Proof.
  intros IH t [|fuel] rest Hwf Hd Hl Hr; [lia|]. cbn [dumps] in Hd. apply bind_Ok_inv in Hd as (ts & Hts & Hd).
  assert (t = [91%N] ++ join (u ",") ts ++ [93%N]) as -> by (by injection Hd as <-).
  apply map_each_Ok in Hts. cbn [json_wf] in Hwf.
  assert (forall x, x ∈ ts -> (length x < fuel)%nat) as Hlen.
  { intros x Hx. apply (join_elem_length (u ",")) in Hx. rewrite !length_app in Hl. cbn in Hl. lia. }
  assert (Forall2 (reads (scan_once fuel)) (sort_json <$> l) ts) as Hreads.
  { clear Hd Hl Hr. induction Hts as [|v x l ts Hx Hts IHl]; [constructor|]. apply Forall_cons_1 in IH as [Hv IH].
    cbn in Hwf. apply andb_true_iff in Hwf as [Hw Hwf]. constructor.
    - apply (scans_reads b); [done|done|done|]. apply Hlen. by left.
    - apply IHl; [done|done|]. intros y Hy. apply Hlen. by right. }
  assert (Forall (fun x => (1 <= length x)%nat) ts) as Hpos.
  { clear -Hreads. induction Hreads as [|v x vs xs [Hx _] _ IHr]; constructor; [by apply starts_length|done]. }
  cbn [scan_once sort_json]. rewrite <- !app_assoc. cbn [app is_char N.eqb Pos.eqb drop]. rewrite drop_0.
  destruct l as [|v0 l0].
  - apply Forall2_nil_inv_l in Hreads as ->. done.
  - assert (starts (join (u ",") ts) = true) as Hst.
    { inversion Hreads as [|? x ? ts' [Hx _] _]; subst. destruct ts' as [|y ts']; [done|].
      change (join (u ",") (x :: y :: ts')) with (x ++ u "," ++ join (u ",") (y :: ts')). by destruct x. }
    rewrite starts_skip by done. rewrite starts_char by (done || set_solver).
    rewrite (elements_read _ _ _ _ _ Hreads); [done|done|].
    pose proof (join_length (u ",") ts Hpos). apply Forall2_length in Hreads as ->. rewrite !length_app in Hl. cbn in Hl. lia.
Qed.

Lemma scans_object b items : Forall (fun kv => scans b (snd kv)) items -> scans b (JObj items).
Proof.
  intros IH t [|fuel] rest Hwf Hd Hl Hr; [lia|]. cbn [dumps] in Hd. apply bind_Ok_inv in Hd as (ms & Hms & Hd).
  destruct (dumps_members b items ms Hms) as (z & -> & -> & Hz).
  set (zs := sort_by (fun a b : pystr * json * pystr => key_leb (fst a) (fst b)) z).
  set (texts := (fun '(k, t) => quote b k ++ u ":" ++ t) <$> ((fun '(k, _, t) => (k, t)) <$> zs)).
  assert (t = [123%N] ++ join (u ",") texts ++ [125%N]) as ->.
  { injection Hd as <-. do 3 f_equal. unfold texts. f_equal. apply sort_by_fmap. by intros [[??]?] [[??]?]. }
  assert (zs ≡ₚ z) as Hperm by apply sort_by_perm.
  cbn [json_wf] in Hwf. apply andb_true_iff in Hwf as [Hnd%bool_decide_eq_true Hwf].
  assert (sort_json (JObj ((fun '(k, x, _) => (k, x)) <$> z)) = JObj ((fun '(k, x, _) => (k, sort_json x)) <$> zs)) as ->.
  { cbn [sort_json]. f_equal. unfold zs. rewrite <- list_fmap_compose.
    rewrite <- (sort_by_fmap (fun '(k, x, _) => (k, sort_json x)) _ key_leb) by (by intros [[??]?] [[??]?]).
    f_equal. apply list_fmap_ext. by intros ? [[??]?]. }
  assert (forall k x y, (k, x, y) ∈ zs -> (length y < fuel)%nat) as Hlen.
  { intros k x y Hin. assert (quote b k ++ u ":" ++ y ∈ texts) as Ht.
    { unfold texts. apply list_elem_of_fmap. exists (k, y). split; [done|]. apply list_elem_of_fmap. by exists (k, x, y). }
    apply (join_elem_length (u ",")) in Ht. rewrite !length_app in Ht, Hl. cbn in Hl, Ht. lia. }
  assert (Forall2 (fun kv kt => fst kv = fst kt /\ forallb scalar (fst kv) = true
                                /\ reads (scan_once fuel) (snd kv) (snd kt))
            ((fun '(k, x, _) => (k, sort_json x)) <$> zs) ((fun '(k, _, t) => (k, t)) <$> zs)) as Hreads.
  { apply Forall2_fmap_2, Forall_Forall2_diag, Forall_forall. intros [[k x] y] Hin. cbn.
    pose proof Hin as Hin'. rewrite Hperm in Hin'. rewrite forallb_forall in Hwf.
    assert ((k, x) ∈ (fun '(k, x, _) => (k, x)) <$> z) as Hkx by (apply list_elem_of_fmap; by exists (k, x, y)).
    specialize (Hwf (k, x) (proj1 (list_elem_of_In _ _) Hkx)). apply andb_true_iff in Hwf as [Hk Hx].
    split; [done|]. split; [done|]. 
    apply (scans_reads b); [|done| |by eapply Hlen].
    - exact (proj1 (Forall_forall _ _) IH (k, x) Hkx).
    - exact (proj1 (Forall_forall _ _) Hz (k, x, y) Hin'). }
  cbn [scan_once]. rewrite <- !app_assoc. cbn [app is_char N.eqb Pos.eqb drop]. rewrite drop_0.
  destruct (decide (zs = [])) as [Hnil|Hnil].
  - unfold texts. rewrite Hnil. done.
  - assert (starts (join (u ",") texts) = true) as Hst.
    { unfold texts. destruct zs as [|[[k x] y] [|[[k2 x2] y2] zs']]; [done|done|done]. }
    rewrite starts_skip by done. rewrite starts_char by (done || set_solver).
    unfold texts. rewrite (members_read b _ _ _ _ _ Hreads); [|by destruct zs|].
    + cbn. rewrite dict_of_id; [done|]. rewrite <- list_fmap_compose.
      rewrite <- list_fmap_compose in Hnd.
      assert (fst ∘ (fun '(k, x, _) => (k, sort_json x)) <$> zs ≡ₚ fst ∘ (fun '(k, x, _) => (k, x)) <$> z) as ->; [|done].
      rewrite Hperm. apply reflexive_eq, list_fmap_ext. by intros ? [[??]?].
    + rewrite length_fmap. assert (length texts = length zs) as <- by (unfold texts; by rewrite !length_fmap).
      assert (length texts <= length (join (u ",") texts))%nat as Hj.
      { apply join_length, Forall_forall. intros x Hx. unfold texts in Hx.
        apply list_elem_of_fmap in Hx as ([k y] & -> & _). rewrite !length_app. cbn. lia. }
      rewrite !length_app in Hl. cbn in Hl. lia.
Qed.

(** Decoding the text of a value gives the value, its keys in order. *)
Lemma scan_dumps b v : scans b v.
Proof.
  induction v as [|flag|z|text| |s|l IH|items IH|] using json_nested_ind.
  7: by apply scans_array. 7: by apply scans_object.
  all: intros t [|fuel] rest Hwf Hd Hl Hr; [lia|]; cbn [dumps] in Hd; try discriminate Hd; cbn [sort_json].
  - injection Hd as <-. reflexivity.
  - injection Hd as <-. destruct flag; reflexivity.
  - inv_ok. subst t. destruct (int_text_starts z) as (c & s & Hz & Hc).
    rewrite <- (number_int z rest) by done. rewrite Hz. cbn [app]. by apply scan_number.
  - injection Hd as <-. destruct (repr_starts text Hwf) as (c & s & Ht & Hc).
    rewrite <- (number_float text rest) by done. rewrite Ht. cbn [app]. by apply scan_number.
  - injection Hd as <-. unfold quote. cbn [scan_once]. rewrite <- !app_assoc. cbn [app is_char N.eqb Pos.eqb drop].
    rewrite drop_0. by rewrite string_roundtrip.
Qed.

Lemma loads_text b v t : json_wf v = true -> dumps b v = Ok t -> loads t = Ok (sort_json v).
Proof.
  intros Hwf Hd. unfold loads. pose proof (dumps_starts b v t Hwf Hd) as Hs.
  pose proof (starts_skip t [] Hs) as Hskip. rewrite app_nil_r in Hskip. rewrite Hskip.
  pose proof (scan_dumps b v t (S (length t)) [] Hwf Hd) as Hscan. rewrite app_nil_r in Hscan.
  rewrite Hscan by (done || lia). done.
Qed.
End Main.

(** ** Bytes *)

Definition is_cont (b : N) : bool := (128 <=? b)%N && (b <=? 191)%N.

(** [bytes.decode("utf-8", "surrogatepass")] *)
Fixpoint utf8_decode (s : list N) : result pystr :=
  let invalid := raise UnicodeDecodeError_ "invalid UTF-8" in
  match s with
  | [] => Ok []
  | b0 :: s1 =>
      if (b0 <? 128)%N then t ← utf8_decode s1; Ok (b0 :: t)
      else
        match s1 with
        | b1 :: s2 =>
            if (b0 <? 224)%N then
              let c := ((b0 - 192) * 64 + (b1 - 128))%N in
              if (194 <=? b0)%N && is_cont b1 then t ← utf8_decode s2; Ok (c :: t) else invalid
            else
              match s2 with
              | b2 :: s3 =>
                  if (b0 <? 240)%N then
                    let c := (((b0 - 224) * 64 + (b1 - 128)) * 64 + (b2 - 128))%N in
                    if is_cont b1 && is_cont b2 && (2048 <=? c)%N then t ← utf8_decode s3; Ok (c :: t) else invalid
                  else
                    match s3 with
                    | b3 :: s4 =>
                        let c := ((((b0 - 240) * 64 + (b1 - 128)) * 64 + (b2 - 128)) * 64 + (b3 - 128))%N in
                        if is_cont b1 && is_cont b2 && is_cont b3 && (65536 <=? c)%N && (c <? 1114112)%N
                        then t ← utf8_decode s4; Ok (c :: t) else invalid
                    | [] => invalid
                    end
              | [] => invalid
              end
        | [] => invalid
        end
  end.

(** [json.loads(payload)] for UTF-8 bytes.  The standard library also detects
    other encodings; what they decode to has no canonical text equal to the
    bytes, and the callers compare the two. *)
Definition loads_bytes `{PyFloat} (payload : list N) : result json :=
  text ← utf8_decode payload; loads text.

Lemma utf8_char_decode c bs rest :
  scalar c = true -> utf8_char c = Some bs ->
  utf8_decode (bs ++ rest) = t ← utf8_decode rest; Ok (c :: t).
Proof.
  unfold utf8_char, scalar. intros Hc.
  change 63%N with (N.ones 6). rewrite !N.land_ones, !N.shiftr_div_pow2.
  change (2 ^ 0)%N with 1%N. change (2 ^ 6)%N with 64%N. change (2 ^ 12)%N with 4096%N. change (2 ^ 18)%N with 262144%N.
  rewrite N.div_1_r.
  assert (forall a, a mod 64 < 64)%N as Hmod by (intros; apply N.mod_lt; lia).
  assert (c = 64 * (c / 64) + c mod 64)%N as H0 by (apply N.div_mod; lia).
  assert (c / 64 = 64 * (c / 4096) + (c / 64) mod 64)%N as H1.
  { rewrite (N.div_mod (c / 64) 64) at 1 by lia. rewrite N.Div0.div_div. done. }
  assert (c / 4096 = 64 * (c / 262144) + (c / 4096) mod 64)%N as H2.
  { rewrite (N.div_mod (c / 4096) 64) at 1 by lia. rewrite N.Div0.div_div. done. }
  pose proof (Hmod c) as M0. pose proof (Hmod (c / 64)%N) as M1. pose proof (Hmod (c / 4096)%N) as M2. clear Hmod.
  revert H0 H1 H2 M0 M1 M2. generalize (c mod 64)%N ((c / 64) mod 64)%N ((c / 4096) mod 64)%N.
  generalize (c / 64)%N (c / 4096)%N (c / 262144)%N. intros q1 q2 q3 m0 m1 m2 H0 H1 H2 M0 M1 M2.
  destruct (N.ltb_spec c 128) as [L1|G1].
  { intros [= <-]. cbn. rewrite (proj2 (N.ltb_lt c 128)) by lia. done. }
  destruct (N.ltb_spec c 2048) as [L2|G2].
  { intros [= <-]. cbn [utf8_decode app]. unfold is_cont.
    replace (192 + q1 <? 128)%N with false by lia. replace (192 + q1 <? 224)%N with true by lia.
    replace ((194 <=? 192 + q1) && ((128 <=? 128 + m0) && (128 + m0 <=? 191)))%N with true by lia.
    replace ((192 + q1 - 192) * 64 + (128 + m0 - 128))%N with c by lia. done. }
  destruct ((55296 <=? c)%N && (c <=? 57343)%N) eqn:Hsur; [done|].
  destruct (N.ltb_spec c 65536) as [L3|G3].
  { intros [= <-]. cbn [utf8_decode app]. unfold is_cont.
    replace (224 + q2 <? 128)%N with false by lia. replace (224 + q2 <? 224)%N with false by lia.
    replace (224 + q2 <? 240)%N with true by lia.
    replace (((224 + q2 - 224) * 64 + (128 + m1 - 128)) * 64 + (128 + m0 - 128))%N with c by lia.
    replace (((128 <=? 128 + m1) && (128 + m1 <=? 191)) && ((128 <=? 128 + m0) && (128 + m0 <=? 191)) && (2048 <=? c))%N
      with true by lia. done. }
  intros [= <-]. cbn [utf8_decode app]. unfold is_cont.
  replace (240 + q3 <? 128)%N with false by lia. replace (240 + q3 <? 224)%N with false by lia.
  replace (240 + q3 <? 240)%N with false by lia.
  replace ((((240 + q3 - 240) * 64 + (128 + m2 - 128)) * 64 + (128 + m1 - 128)) * 64 + (128 + m0 - 128))%N with c by lia.
  replace (((128 <=? 128 + m2) && (128 + m2 <=? 191)) && ((128 <=? 128 + m1) && (128 + m1 <=? 191))
           && ((128 <=? 128 + m0) && (128 + m0 <=? 191)) && (65536 <=? c) && (c <? 1114112))%N with true by lia. done.
Qed.

Lemma utf8_roundtrip s bytes : forallb scalar s = true -> utf8_encode s = Ok bytes -> utf8_decode bytes = Ok s.
Proof.
  unfold utf8_encode. destruct (mapM utf8_char s) as [l|] eqn:Hm; [|done]. intros Hs [= <-].
  apply mapM_Some in Hm. induction Hm as [|c bs s l Hc Hm IH]; [done|]. cbn in Hs. apply andb_true_iff in Hs as [H1 H2].
  cbn [concat]. rewrite (utf8_char_decode c bs) by done. by rewrite IH.
Qed.

(** What UTF-8 encodes has encodable characters only, given that a Python
    character is below U+110000. *)
Lemma utf8_scalar s bytes :
  Forall (fun c => (c < 1114112)%N) s -> utf8_encode s = Ok bytes -> forallb scalar s = true.
Proof.
  unfold utf8_encode. destruct (mapM utf8_char s) as [l|] eqn:Hm; [|done]. intros Hs _.
  apply mapM_Some in Hm. induction Hm as [|c bs s l Hc Hm IH]; [done|]. apply Forall_cons_1 in Hs as [H1 H2].
  cbn. rewrite (IH H2), andb_true_r. unfold scalar, utf8_char in *.
  destruct ((55296 <=? c)%N && (c <=? 57343)%N) eqn:Hsur; [|by rewrite andb_true_r; apply N.ltb_lt].
  replace (c <? 128)%N with false in Hc by lia. by replace (c <? 2048)%N with false in Hc by lia.
Qed.

(** ** Canonical text *)

(** Two lists sorted by a preorder that separates their elements. *)
Lemma sorted_unique {A} (R : A -> A -> Prop) l1 l2 :
  StronglySorted R l1 -> StronglySorted R l2 -> l1 ≡ₚ l2 ->
  (forall x y, x ∈ l1 -> y ∈ l1 -> R x y -> R y x -> x = y) -> l1 = l2.
Proof.
  intros H1. revert l2. induction H1 as [|x l1 H1 IH HF]; intros l2 H2 Hp Hsep.
  - by apply Permutation_nil_l in Hp.
  - destruct H2 as [|y l2 H2 HF2]; [by apply Permutation_nil_r in Hp|].
    assert (x = y) as <-.
    { assert (x ∈ y :: l2) as Hx by (rewrite <- Hp; by left). assert (y ∈ x :: l1) as Hy by (rewrite Hp; by left).
      apply elem_of_cons in Hx as [->|Hx]; [done|]. apply elem_of_cons in Hy as [->|Hy]; [done|].
      rewrite Forall_forall in HF, HF2. apply Hsep; [by left|by right|by apply HF|by apply HF2]. }
    f_equal. apply IH; [done|by apply Permutation_cons_inv in Hp|].
    intros a b Ha Hb. apply Hsep; by right.
Qed.

Lemma member_leb_total {A} (a b : pystr * A) : key_leb a b = true \/ key_leb b a = true.
Proof. apply str_leb_total. Qed.
Lemma member_leb_trans {A} (a b c : pystr * A) : key_leb a b = true -> key_leb b c = true -> key_leb a c = true.
Proof. apply str_leb_trans. Qed.

Lemma keys_functional {A} (l : list (pystr * A)) k x y : NoDup (fst <$> l) -> (k, x) ∈ l -> (k, y) ∈ l -> x = y.
Proof.
  induction l as [|[k' z] l IH]; [by intros _ ?%elem_of_nil|]. cbn. intros [Hk Hnd]%NoDup_cons Hx Hy.
  assert (forall v, (k, v) ∈ l -> k ∈ fst <$> l) as Hin by (intros v Hv; apply list_elem_of_fmap; by exists (k, v)).
  apply elem_of_cons in Hx as [[= <- <-]|Hx]; apply elem_of_cons in Hy as [Hy|Hy].
  - by injection Hy as <-.
  - by destruct Hk; eapply Hin.
  - injection Hy as <- <-. by destruct Hk; eapply Hin.
  - by apply IH.
Qed.

(** Sorting by unique keys. *)
Lemma sort_keys_perm {A} (l1 l2 : list (pystr * A)) :
  l1 ≡ₚ l2 -> NoDup (fst <$> l1) -> sort_by key_leb l1 = sort_by key_leb l2.
Proof.
  intros Hp Hnd. apply (sorted_unique (bool_rel key_leb)).
  - apply sort_by_sorted; [apply member_leb_total|apply member_leb_trans].
  - apply sort_by_sorted; [apply member_leb_total|apply member_leb_trans].
  - by rewrite !sort_by_perm.
  - intros [k x] [k' x'] Hx Hy H1 H2. apply elem_of_sort_by in Hx, Hy.
    assert (k = k') as -> by (by apply str_leb_antisym). f_equal. by eapply keys_functional.
Qed.

Lemma Ok_inj {E A} (a b : A) : @Ok E A a = Ok b -> a = b.
Proof. congruence. Qed.

Section Canonical.
Context `{PyFloat}.

(** Members whose values have the same text. *)
Definition same_text (b : bool) (x y : json) : Prop := forall t, dumps b x = Ok t -> dumps b y = Ok t.
Definition same_member (b : bool) (m m' : pystr * json) : Prop := fst m = fst m' /\ same_text b (snd m) (snd m').

Lemma dumps_array b l l' : Forall2 (same_text b) l l' -> same_text b (JArr l) (JArr l').
Proof.
  intros Hl t. cbn [dumps]. intros (ts & Hts & <-%Ok_inj)%bind_Ok_inv.
  assert (map_each (dumps b) l' = Ok ts) as ->; [|done].
  apply map_each_Ok in Hts. apply map_each_Ok. revert ts Hts.
  induction Hl as [|x y l l' Hx Hl IH]; intros ts Hts; inversion Hts; subst; constructor; auto.
Qed.

Lemma dumps_members_text b items items' ms :
  Forall2 (same_member b) items items' ->
  map_each (fun '(k, x) => t ← dumps b x; Ok (k, t)) items = Ok ms ->
  map_each (fun '(k, x) => t ← dumps b x; Ok (k, t)) items' = Ok ms.
Proof.
  rewrite !map_each_Ok. intros Hl. revert ms.
  induction Hl as [|[k x] [k' y] l l' [Hk Hx] Hl IH]; intros ms Hms; inversion Hms as [|? m ? ms' Hm Hms']; subst;
    constructor; [|by apply IH].
  apply bind_Ok_inv in Hm as (t & Ht & <-%Ok_inj). cbn in *. subst. by rewrite (Hx t Ht).
Qed.

(** The order of the keys of an object does not show in its text. *)
Lemma dumps_object b items items' items'' :
  Forall2 (same_member b) items items' -> items'' ≡ₚ items' -> NoDup (fst <$> items) ->
  same_text b (JObj items) (JObj items'').
Proof.
  intros Hl Hp Hnd t. cbn [dumps]. intros (ms & Hms & <-%Ok_inj)%bind_Ok_inv.
  assert (fst <$> ms = fst <$> items) as Hkeys.
  { apply map_each_Ok in Hms. clear -Hms. induction Hms as [|[k x] m l ms Hx Hl IHl]; [done|].
    apply bind_Ok_inv in Hx as (y & Hx & <-%Ok_inj). cbn. by f_equal. }
  apply (dumps_members_text _ _ _ _ Hl), map_each_Ok in Hms.
  destruct (Permutation_Forall2 (symmetry Hp) Hms) as (ms' & Hp' & Hms'). apply map_each_Ok in Hms'. rewrite Hms'. cbn.
  assert (sort_by key_leb ms' = sort_by key_leb ms) as Hsort
    by (apply sort_keys_perm; [by rewrite Hp'|]; by rewrite <- Hp', Hkeys).
  unfold key_leb in Hsort. by rewrite Hsort.
Qed.

Lemma dumps_sort b v t : json_wf v = true -> dumps b v = Ok t -> dumps b (sort_json v) = Ok t.
Proof.
  revert t.
  induction v as [|flag|z|text| |s|l IH|items IH|] using json_nested_ind; try done; intros t Hwf; revert t; cbn [json_wf sort_json] in *.
  - apply dumps_array. apply Forall2_fmap_r. rewrite forallb_forall in Hwf. rewrite Forall_forall in IH.
    apply Forall_Forall2_diag, Forall_forall. intros x Hx t. apply IH; [done|]. by apply Hwf, list_elem_of_In.
  - apply andb_true_iff in Hwf as [Hnd%bool_decide_eq_true Hwf]. rewrite forallb_forall in Hwf. rewrite Forall_forall in IH.
    apply (dumps_object _ _ ((fun '(k, x) => (k, sort_json x)) <$> items)); [|apply sort_by_perm|done].
    apply Forall2_fmap_r, Forall_Forall2_diag, Forall_forall. intros [k x] Hx. split; [done|]. intros t. cbn.
    apply (IH _ Hx). apply list_elem_of_In, Hwf in Hx. by apply andb_true_iff in Hx as [_ ?].
Qed.

Lemma json_wf_sort v : json_wf v = true -> json_wf (sort_json v) = true.
Proof.
  induction v as [|flag|z|text| |s|l IH|items IH|] using json_nested_ind; try done; cbn [json_wf sort_json].
  - intros Hwf. rewrite forallb_forall in *. intros x Hx%list_elem_of_In%list_elem_of_fmap.
    destruct Hx as (y & -> & Hy). rewrite Forall_forall in IH. apply IH; [done|]. apply Hwf. by apply list_elem_of_In.
  - intros [Hnd%bool_decide_eq_true Hwf]%andb_true_iff. apply andb_true_iff. split.
    + apply bool_decide_eq_true. rewrite sort_by_perm, <- list_fmap_compose.
      erewrite list_fmap_ext; [exact Hnd|]. by intros ? [??].
    + rewrite forallb_forall in *. intros x Hx%list_elem_of_In%elem_of_sort_by%list_elem_of_fmap.
      destruct Hx as ([k y] & -> & Hy). rewrite Forall_forall in IH. specialize (IH _ Hy).
      apply list_elem_of_In in Hy. specialize (Hwf _ Hy). cbn in *. apply andb_true_iff in Hwf as [-> Hw]. cbn. by apply IH.
Qed.

(** Every character of the text of a value can be encoded. *)
Lemma u_escape_scalar n : forallb scalar (u_escape n) = true.
Proof.
  unfold u_escape. rewrite forallb_app. apply andb_true_iff. split; [done|]. apply forallb_forall. intros x Hx.
  destruct (hex_digits_ok 4 (Z.of_N n)) as [_ Hh]. rewrite Forall_forall in Hh.
  apply list_elem_of_In, Hh in Hx. unfold is_hex, is_digit, in_range in Hx. unfold scalar. lia.
Qed.

Lemma quote_scalar b s : forallb scalar s = true -> forallb scalar (quote b s) = true.
Proof.
  intros Hs. unfold quote. rewrite !forallb_app. cbn [forallb]. apply andb_true_iff. split; [done|]. apply andb_true_iff. split; [|done].
  induction s as [|c s IH]; [done|]. cbn in Hs. apply andb_true_iff in Hs as [Hc Hs].
  change ((c :: s) ≫= escape_char b) with (escape_char b c ++ (s ≫= escape_char b)).
  rewrite forallb_app, IH by done. rewrite andb_true_r. unfold escape_char.
  repeat (destruct (c =? _)%N; [done|]).
  destruct b; [destruct ((32 <=? c)%N && (c <=? 126)%N); [|destruct (c <? 65536)%N]|destruct (c <? 32)%N];
    rewrite ?forallb_app, ?u_escape_scalar; cbn; rewrite ?Hc; done.
Qed.

Lemma join_scalar l : Forall (fun x => forallb scalar x = true) l -> forallb scalar (join (u ",") l) = true.
Proof.
  induction 1 as [|x l Hx Hl IH]; [done|]. destruct l as [|y l]; [done|].
  change (join (u ",") (x :: y :: l)) with (x ++ u "," ++ join (u ",") (y :: l)). rewrite !forallb_app, Hx, IH. done.
Qed.

Lemma digits_scalar s : forallb is_dec s = true -> forallb scalar s = true.
Proof.
  intros Hs. rewrite forallb_forall in *. intros x Hx%Hs. unfold is_dec in Hx. unfold scalar. lia.
Qed.

Lemma int_scalar s : int_shape s -> forallb scalar s = true.
Proof.
  intros [->|(c & r & -> & Hc & _ & Hr)]; [done|]. apply digits_scalar. cbn. by rewrite Hc.
Qed.

Lemma repr_scalar t : is_repr t = true -> forallb scalar t = true.
Proof.
  intros Ht. destruct (is_repr_shape t Ht) as (sign & int & frac & exp & -> & H1 & H2 & H3 & H4 & _).
  rewrite !forallb_app, (int_scalar int H2).
  assert (forallb scalar sign = true) as -> by (by destruct H1 as [->| ->]).
  assert (forallb scalar frac = true) as ->.
  { destruct H3 as [->|(c & r & -> & Hr)]; [done|]. change (46%N :: c :: r) with ([46%N] ++ c :: r).
    rewrite forallb_app, (digits_scalar _ Hr). done. }
  destruct H4 as [->|(sg & c & r & -> & Hsg & Hr)]; [done|].
  change (101%N :: sg ++ c :: r) with ([101%N] ++ sg ++ c :: r). rewrite !forallb_app, (digits_scalar _ Hr).
  by destruct Hsg as [->|[->| ->]].
Qed.

Lemma dumps_scalar b v t : json_wf v = true -> dumps b v = Ok t -> forallb scalar t = true.
Proof.
  revert t. induction v as [|flag|z|text| |s|l IH|items IH|] using json_nested_ind; cbn [json_wf dumps]; intros t Hwf Hd;
    try discriminate Hd.
  - by injection Hd as <-.
  - injection Hd as <-. by destruct flag.
  - apply bind_Ok_inv in Hd as (? & _ & <-%Ok_inj). unfold int_text. rewrite forallb_app, (int_scalar _ (nat_text_shape _)).
    by destruct (z <? 0).
  - apply Ok_inj in Hd as <-. by apply repr_scalar.
  - apply Ok_inj in Hd as <-. by apply quote_scalar.
  - apply bind_Ok_inv in Hd as (ts & Hts & <-%Ok_inj). rewrite !forallb_app, join_scalar; [done|].
    apply map_each_Ok in Hts. induction Hts as [|x y l ts Hx Hl IHl]; constructor; cbn in Hwf; apply andb_true_iff in Hwf as [Hw Hwf];
      apply Forall_cons_1 in IH as [Hy IH]; [by apply Hy|by apply IHl].
  - apply bind_Ok_inv in Hd as (ms & Hms & <-%Ok_inj). rewrite !forallb_app, join_scalar; [done|].
    apply andb_true_iff in Hwf as [_ Hwf]. apply Forall_fmap.
    rewrite sort_by_perm.
    apply map_each_Ok in Hms. induction Hms as [|[k x] m l ms Hx Hl IHl]; constructor; cbn in Hwf;
      apply andb_true_iff in Hwf as [[Hk Hw]%andb_true_iff Hwf]; apply Forall_cons_1 in IH as [Hy IH]; [|by apply IHl].
    apply bind_Ok_inv in Hx as (y & Hx & <-%Ok_inj). unfold compose. rewrite !forallb_app, (quote_scalar b k Hk), (Hy y Hw Hx). done.
Qed.

(** Text determines the value, up to the order of the keys. *)
Lemma dumps_inj b v1 v2 t :
  json_wf v1 = true -> json_wf v2 = true -> dumps b v1 = Ok t -> dumps b v2 = Ok t -> sort_json v1 = sort_json v2.
Proof.
  intros H1 H2 D1 D2. pose proof (loads_text b v1 t H1 D1) as E1. rewrite (loads_text b v2 t H2 D2) in E1. by apply Ok_inj in E1.
Qed.

(** The members of two objects with the same sorted form agree. *)
Lemma sort_json_member items1 items2 k x1 x2 :
  sort_json (JObj items1) = sort_json (JObj items2) -> NoDup (fst <$> items2) ->
  (k, x1) ∈ items1 -> (k, x2) ∈ items2 -> sort_json x1 = sort_json x2.
Proof.
  cbn. intros [= Hs] Hnd H1 H2. set (f := fun '(k, x) => (k, sort_json x)) in *.
  apply (keys_functional (f <$> items2) k).
  - rewrite <- list_fmap_compose. erewrite list_fmap_ext; [exact Hnd|]. by intros ? [??].
  - apply (elem_of_sort_by key_leb). rewrite <- Hs. apply elem_of_sort_by, list_elem_of_fmap. by exists (k, x1).
  - apply list_elem_of_fmap. by exists (k, x2).
Qed.
End Canonical.

Lemma utf8_encode_inj s1 s2 bytes :
  forallb scalar s1 = true -> forallb scalar s2 = true ->
  utf8_encode s1 = Ok bytes -> utf8_encode s2 = Ok bytes -> s1 = s2.
Proof.
  intros H1 H2 E1 E2. pose proof (utf8_roundtrip s1 bytes H1 E1) as D1.
  rewrite (utf8_roundtrip s2 bytes H2 E2) in D1. by apply Ok_inj in D1.
Qed.

Lemma ascii_scalar s : Forall (fun c => (c < 128)%N) s -> forallb scalar s = true.
Proof. intros Hs. apply forallb_forall. intros x Hx%list_elem_of_In. rewrite Forall_forall in Hs. specialize (Hs x Hx). unfold scalar. lia. Qed.
