(* ===== verification/Pg.v ===== *)
(** * PostgreSQL statements and caller-owned sessions

    The repositories run SQL text through a caller-owned [Transaction].  This
    file has what those statements mean on tables kept as lists of rows, and
    the state-and-exception monad in which a repository method is written:
    a statement that raises leaves the transaction failed, every later
    statement of it is refused, and a savepoint restores the tables it saw.

    What PostgreSQL leaves open is a parameter, the class [PgEnv]: the order
    of an unordered scan, the rows other transactions hold locked, the
    database collation, the session time zone, the server clock and the
    locale's control characters. *)

From S2P Require Import Prelude Regex Errors Domain.

(** ** What the server leaves open *)

Definition is_ascii_control (c : N) : bool := (c <? 32)%N || (c =? 127)%N.

Class PgEnv : Type := {
  (** rows of an unordered scan, per statement: some permutation of the table *)
  scan : string -> forall A : Type, list A -> list A;
  scan_perm : forall stmt (A : Type) (l : list A), Permutation (scan stmt A l) l;
  (** the database collation, a total order on text *)
  collate : pystr -> pystr -> bool;
  collate_total : forall a b, collate a b = true \/ collate b a = true;
  collate_trans : forall a b c, collate a b = true -> collate b c = true -> collate a c = true;
  collate_antisym : forall a b, collate a b = true -> collate b a = true -> a = b;
  (** offset of the session time zone, in microseconds *)
  session_offset : Z;
  (** rows another transaction holds locked, which SKIP LOCKED does not see *)
  row_locked : string -> forall A : Type, A -> bool;
  (** what [clock_timestamp()] reads for the n-th row of a table *)
  clock_timestamp : nat -> Z;
  (** [[:cntrl:]] of the locale, fixed on ASCII *)
  pg_cntrl : N -> bool;
  pg_cntrl_ascii : forall c, (c < 128)%N -> pg_cntrl c = is_ascii_control c
}.

(** A reference environment: heap order, the "C" collation, UTC. *)
#[global] Program Instance pg_reference : PgEnv | 100 := {|
  scan := fun _ _ l => l;
  collate := str_leb;
  session_offset := 0;
  row_locked := fun _ _ _ => false;
  clock_timestamp := fun n => Z.of_nat n;
  pg_cntrl := is_ascii_control
|}.
Next Obligation. done. Qed.
Next Obligation. apply str_leb_total. Qed.
Next Obligation. eauto using str_leb_trans. Qed.
Next Obligation. auto using str_leb_antisym. Qed.
Next Obligation. done. Qed.

(** The database's [lower(text)], which depends on its locale. *)
Class PgLower : Type := { pg_lower : pystr -> pystr }.
Definition ascii_lower (c : N) : N := if (65 <=? c)%N && (c <=? 90)%N then (c + 32)%N else c.
#[global] Instance lower_reference : PgLower | 100 := {| pg_lower := fmap ascii_lower |}.

(** What the driver returns for a [TIMESTAMPTZ]: an aware datetime in the
    session time zone. *)
Definition from_timestamptz `{PgEnv} (t : Z) : datetime :=
  Aware (t + session_offset) session_offset.

Lemma instant_from_timestamptz `{PgEnv} t : instant (from_timestamptz t) = t.
Proof. simpl. lia. Qed.

(** ** Statements on one table *)

Section Statements.
Context `{PgEnv} {row : Type}.
Implicit Types (t : list row) (p : row -> bool).

(** [SELECT ... WHERE p] fetched with [fetch_one]. *)
Definition select_one (stmt : string) p t : option row :=
  head (rows_where p (scan stmt row t)).

(** [ORDER BY] a key compared by [le]. *)
Definition select_ordered (stmt : string) (le : row -> row -> bool) p t : list row :=
  sort_by le (rows_where p (scan stmt row t)).

(** [ORDER BY ... FOR UPDATE SKIP LOCKED LIMIT n] *)
Definition select_skip_locked (stmt : string) (le : row -> row -> bool) p (limit : Z) t : list row :=
  take (Z.to_nat limit) (select_ordered stmt le (fun r => p r && negb (row_locked stmt row r)) t).

(** [INSERT ... ON CONFLICT DO NOTHING RETURNING *]: column types and CHECK
    constraints first, then the unique indexes, then the foreign keys. *)
Definition insert_do_nothing (check : row -> result unit) (conflict : row -> row -> bool)
    (foreign : row -> result unit) (r : row) t : result (option row * list row) :=
  check r ;;
  if exists_row (conflict r) t then Ok (None, t)
  else foreign r ;; Ok (Some r, t ++ [r]).

(** Unique indexes over a whole table: no row conflicts with a later one. *)
Fixpoint unique_ok (conflict : row -> row -> bool) t : bool :=
  match t with
  | [] => true
  | r :: t' => negb (exists_row (conflict r) t') && unique_ok conflict t'
  end.

(** [UPDATE ... SET f WHERE p RETURNING *] *)
Definition update_returning (check : row -> result unit) (conflict : row -> row -> bool)
    p (f : row -> row) t : result (list row * list row) :=
  let t' := update_where p f t in
  check_each check (f <$> rows_where p t) ;;
  if unique_ok conflict t' then Ok (f <$> rows_where p t, t')
  else raise PgUniqueViolation "duplicate key value violates unique constraint".
End Statements.

Section StatementFacts.
Context `{PgEnv} {row : Type}.
Implicit Types (t : list row) (p : row -> bool) (r : row).

Lemma elem_of_scan stmt t r : r ∈ scan stmt row t <-> r ∈ t.
Proof. by rewrite (scan_perm stmt row t). Qed.

Lemma select_one_Some stmt p t r :
  select_one stmt p t = Some r -> r ∈ t /\ p r = true.
Proof.
  unfold select_one. intros Hh.
  assert (r ∈ rows_where p (scan stmt row t)) as Hin.
  { destruct (rows_where p (scan stmt row t)); [done|]. injection Hh as ->. by left. }
  apply elem_of_rows_where in Hin as [Hr ?]. by apply elem_of_scan in Hr.
Qed.

Lemma select_one_None stmt p t :
  select_one stmt p t = None <-> forall r, r ∈ t -> p r = false.
Proof.
  unfold select_one. rewrite head_None, rows_where_nil.
  split; intros Hp r Hr; apply Hp; by apply (elem_of_scan stmt t r).
Qed.

(** A key that identifies at most one row makes the scan order irrelevant. *)
Lemma select_one_unique stmt p t r :
  r ∈ t -> p r = true -> (forall r', r' ∈ t -> p r' = true -> r' = r) ->
  select_one stmt p t = Some r.
Proof.
  intros Hr Hp Huniq. destruct (select_one stmt p t) as [r'|] eqn:Hs.
  - apply select_one_Some in Hs as [Hr' Hp']. f_equal. eauto.
  - rewrite select_one_None in Hs. specialize (Hs r Hr). congruence.
Qed.

Lemma select_ordered_perm stmt le p t :
  select_ordered stmt le p t ≡ₚ rows_where p (scan stmt row t).
Proof. unfold select_ordered. apply sort_by_perm. Qed.

Lemma elem_of_select_ordered stmt le p t r :
  r ∈ select_ordered stmt le p t <-> r ∈ t /\ p r = true.
Proof. by rewrite select_ordered_perm, elem_of_rows_where, elem_of_scan. Qed.

Lemma elem_of_select_skip_locked stmt le p limit t r :
  r ∈ select_skip_locked stmt le p limit t -> r ∈ t /\ p r = true.
Proof.
  unfold select_skip_locked. intros Hr. apply elem_of_take in Hr as (i & Hi & _).
  apply list_elem_of_lookup_2, elem_of_select_ordered in Hi as [? Hp].
  by apply andb_true_iff in Hp as [? _].
Qed.

Lemma length_select_skip_locked stmt le p limit t :
  (length (select_skip_locked stmt le p limit t) <= Z.to_nat limit)%nat.
Proof. unfold select_skip_locked. rewrite length_take. lia. Qed.

Lemma unique_ok_spec (conflict : row -> row -> bool) t :
  unique_ok conflict t = true <->
  forall i j r1 r2, (i < j)%nat -> t !! i = Some r1 -> t !! j = Some r2 -> conflict r1 r2 = false.
Proof.
  induction t as [|r t IH]; simpl; [split; [intros _ [] ? ? ? ? ?; done|done]|].
  rewrite andb_true_iff, negb_true_iff, IH, exists_row_false. split.
  - intros [Hr Ht] [|i] [|j] r1 r2 Hij; simpl; try lia.
    + intros [= <-] Hj. apply Hr. by eapply list_elem_of_lookup_2.
    + intros Hi Hj. eapply (Ht i j); eauto. lia.
  - intros Hall. split.
    + intros r2 Hr2. apply list_elem_of_lookup in Hr2 as [j Hj].
      by apply (Hall 0%nat (S j) r r2); [lia|..].
    + intros i j r1 r2 Hij Hi Hj. by apply (Hall (S i) (S j) r1 r2); [lia|..].
Qed.

(** With a symmetric conflict test two conflicting rows are the same row. *)
Lemma unique_ok_elem (conflict : row -> row -> bool) t r1 r2 :
  (forall a b, conflict a b = conflict b a) ->
  unique_ok conflict t = true -> r1 ∈ t -> r2 ∈ t -> conflict r1 r2 = true -> r1 = r2.
Proof.
  intros Hsym Hu [i Hi]%list_elem_of_lookup [j Hj]%list_elem_of_lookup Hc.
  rewrite unique_ok_spec in Hu.
  destruct (Nat.lt_trichotomy i j) as [Hij|[->|Hij]].
  - rewrite (Hu i j r1 r2) in Hc; done.
  - congruence.
  - rewrite Hsym, (Hu j i r2 r1) in Hc; done.
Qed.

Lemma unique_ok_NoDup (conflict : row -> row -> bool) t :
  (forall r, conflict r r = true) -> unique_ok conflict t = true -> NoDup t.
Proof.
  intros Hrefl Hu. apply NoDup_alt. intros i j x Hi Hj. rewrite unique_ok_spec in Hu. specialize (Hrefl x).
  destruct (Nat.lt_trichotomy i j) as [Hl|[->|Hl]]; [|done|].
  - by rewrite (Hu i j x x) in Hrefl.
  - by rewrite (Hu j i x x) in Hrefl.
Qed.

Lemma unique_ok_snoc (conflict : row -> row -> bool) t r :
  (forall a b, conflict a b = conflict b a) ->
  unique_ok conflict (t ++ [r]) = true <->
  unique_ok conflict t = true /\ exists_row (conflict r) t = false.
Proof.
  intros Hsym. induction t as [|x t IH]; simpl.
  - done.
  - unfold exists_row in *. rewrite existsb_app. simpl.
    rewrite orb_false_r, !andb_true_iff, IH, !negb_true_iff, !orb_false_iff, (Hsym r x).
    tauto.
Qed.

(** Rewriting rows without touching their keys keeps the indexes. *)
Lemma unique_ok_fmap (conflict : row -> row -> bool) (g : row -> row) t :
  (forall a b, conflict (g a) (g b) = conflict a b) ->
  unique_ok conflict (g <$> t) = unique_ok conflict t.
Proof.
  intros Hg. induction t as [|r t IH]; [done|]. rewrite fmap_cons. cbn [unique_ok]. rewrite IH.
  f_equal. f_equal. clear IH. unfold exists_row.
  induction t as [|x t IH]; [done|]. rewrite fmap_cons. cbn [existsb]. by rewrite Hg, IH.
Qed.

(** A predicate that pins a key selects one row. *)
Lemma rows_where_unique (conflict : row -> row -> bool) p t r :
  unique_ok conflict t = true ->
  (forall a b, p a = true -> p b = true -> conflict a b = true) ->
  r ∈ t -> p r = true -> rows_where p t = [r].
Proof.
  intros Hu Hp Hr Hpr. induction t as [|x t IH]; [by apply not_elem_of_nil in Hr|].
  cbn in Hu. apply andb_true_iff in Hu as [Hx%negb_true_iff Hu].
  rewrite exists_row_false in Hx. unfold rows_where in *. cbn.
  apply elem_of_cons in Hr as [->|Hr].
  - rewrite Hpr. f_equal. apply rows_where_nil. intros y Hy. destruct (p y) eqn:Hpy; [|done].
    specialize (Hx y Hy). rewrite (Hp x y) in Hx; done.
  - destruct (p x) eqn:Hpx; [|by apply IH].
    specialize (Hx r Hr). rewrite (Hp x r) in Hx; done.
Qed.

Lemma insert_do_nothing_Ok check conflict foreign r t o t' :
  insert_do_nothing check conflict foreign r t = Ok (o, t') ->
  check r = Ok () /\
  ((o = None /\ t' = t /\ exists_row (conflict r) t = true)
   \/ (o = Some r /\ t' = t ++ [r] /\ exists_row (conflict r) t = false
       /\ foreign r = Ok ())).
Proof.
  unfold insert_do_nothing. intros Hi. inv_ok. destruct v. split; [done|].
  destruct (exists_row (conflict r) t); inv_ok; simplify_eq; [by left|].
  destruct v. right. auto.
Qed.

Lemma update_returning_Ok check conflict p f t rs t' :
  update_returning check conflict p f t = Ok (rs, t') ->
  Forall (fun r => check r = Ok ()) (f <$> rows_where p t)
  /\ rs = f <$> rows_where p t /\ t' = update_where p f t /\ unique_ok conflict t' = true.
Proof.
  unfold update_returning. intros Hu. inv_ok. apply check_each_Ok in Hs.
  destruct (unique_ok conflict _) eqn:Hq; [|done]. injection Hu as <- <-. auto.
Qed.
End StatementFacts.

(** ** Parameters and plain inserts *)

(** Text PostgreSQL can store: no NUL, no surrogate. *)
Definition storable (s : pystr) : bool :=
  forallb (fun c => negb (c =? 0)%N && negb ((55296 <=? c) && (c <=? 57343))%N) s.
Definition text_params (l : list pystr) : result unit :=
  raise_unless (forallb storable l) (Exn ValueError_ "text parameter cannot be encoded").

(** [INSERT ...] without an [ON CONFLICT] clause. *)
Definition insert_row {row} (check : row -> result unit) (conflict : row -> row -> bool)
    (foreign : row -> result unit) (r : row) (t : list row) : result (list row) :=
  check r ;;
  raise_if (exists_row (conflict r) t)
    (Exn PgUniqueViolation "duplicate key value violates unique constraint") ;;
  foreign r ;; Ok (t ++ [r]).

Lemma insert_row_Ok {row} check conflict foreign (r : row) t t' :
  insert_row check conflict foreign r t = Ok t' ->
  check r = Ok () /\ exists_row (conflict r) t = false /\ t' = t ++ [r].
Proof.
  unfold insert_row. intros Hi. inv_ok. destruct v. split_and!; try done.
Qed.

(** ** Sessions: the state-and-exception monad of a repository method *)

Record session (DB : Type) : Type := Session { s_db : DB; s_failed : bool }.
Arguments Session {DB}.
Arguments s_db {DB}.
Arguments s_failed {DB}.

Definition SM (DB A : Type) : Type := session DB -> result A * session DB.

#[global] Instance SM_mret {DB} : MRet (SM DB) := fun _ a s => (Ok a, s).
#[global] Instance SM_mbind {DB} : MBind (SM DB) := fun _ _ f m s =>
  match m s with
  | (Ok a, s') => f a s'
  | (Err e, s') => (Err e, s')
  end.

(** A pure, fallible computation inside a method. *)
Definition lift {DB A} (r : result A) : SM DB A := fun s => (r, s).

(** One statement: refused on a failed transaction; an error of the server
    marks the transaction failed and keeps none of the statement's effects. *)
Definition exec {DB A} (st : DB -> result (A * DB)) : SM DB A := fun s =>
  if s_failed s then
    (raise TransactionStateError "transaction is aborted and must roll back", s)
  else
    match st (s_db s) with
    | Ok (a, db') => (Ok a, Session db' false)
    | Err e => (Err e, Session (s_db s) true)
    end.

(** A read-only statement. *)
Definition query {DB A} (q : DB -> A) : SM DB A := exec (fun db => Ok (q db, db)).

(** [with transaction.savepoint(name):] around a body. *)
Definition savepoint {DB A} (body : SM DB A) : SM DB A := fun s =>
  if s_failed s then
    (raise TransactionStateError "transaction is aborted and must roll back", s)
  else
    match body s with
    | (Ok a, s') =>
        if s_failed s' then
          (raise PgInFailedTransaction "current transaction is aborted", s')
        else (Ok a, s')
    | (Err e, _) => (Err e, Session (s_db s) false)
    end.

(** [with database.transaction() as tx:] around a body, on a connection whose
    driver calls succeed. *)
Definition transaction {DB A} (body : SM DB A) (db : DB) : result A * DB :=
  match body (Session db false) with
  | (Ok a, s') =>
      if s_failed s' then
        (raise TransactionStateError "transaction rolled back after a handled command failure", db)
      else (Ok a, s_db s')
  | (Err e, _) => (Err e, db)
  end.

(** [try: ... except Exception: pass] around a call, by a caller that goes on. *)
Definition attempt {DB A} (m : SM DB A) : SM DB unit := fun s => (Ok (), snd (m s)).

(** Run a method of a component on its part of a larger database. *)
Definition zoom {DB S A} (get : DB -> S) (put : S -> DB -> DB) (m : SM S A) : SM DB A := fun s =>
  let '(r, s') := m (Session (get (s_db s)) (s_failed s)) in
  (r, Session (put (s_db s') (s_db s)) (s_failed s')).

(** ** Relations every step of a method respects *)

Section Respects.
Context {DB : Type}.

(** [respects R m]: from any session, the tables before and after [m] are
    related by [R], whether [m] returns or raises. *)
Definition respects {A} (R : DB -> DB -> Prop) (m : SM DB A) : Prop :=
  forall s, R (s_db s) (s_db (snd (m s))).

Context (R : DB -> DB -> Prop) `{!PreOrder R}.

Lemma respects_ret {A} (a : A) : respects R (mret a : SM DB A).
Proof. intros s. simpl. reflexivity. Qed.

Lemma respects_lift {A} (r : result A) : respects R (lift r).
Proof. intros s. simpl. reflexivity. Qed.

Lemma respects_bind {A B} (m : SM DB A) (f : A -> SM DB B) :
  respects R m -> (forall a, respects R (f a)) -> respects R (m ≫= f).
Proof.
  intros Hm Hf s. specialize (Hm s). unfold mbind, SM_mbind.
  destruct (m s) as [[a|e] s']; simpl in *; [|done].
  etransitivity; [exact Hm | apply Hf].
Qed.

Lemma respects_attempt {A} (m : SM DB A) : respects R m -> respects R (attempt m).
Proof. intros Hm s. apply Hm. Qed.

(** The continuation of a pure step knows its result. *)
Lemma respects_lift_bind {A B} (r : result A) (f : A -> SM DB B) :
  (forall a, r = Ok a -> respects R (f a)) -> respects R (lift r ≫= f).
Proof.
  intros Hf s. unfold mbind, SM_mbind, lift. destruct r as [a|e]; simpl; [by apply Hf | reflexivity].
Qed.

Lemma respects_exec {A} (st : DB -> result (A * DB)) :
  (forall db a db', st db = Ok (a, db') -> R db db') -> respects R (exec st).
Proof.
  intros Hst s. unfold exec. destruct (s_failed s); simpl; [reflexivity|].
  destruct (st (s_db s)) as [[a db']|e] eqn:Hs; simpl; [by eapply Hst | reflexivity].
Qed.

Lemma respects_query {A} (q : DB -> A) : respects R (query q).
Proof. apply respects_exec. intros db a db' [= _ <-]. reflexivity. Qed.

Lemma respects_savepoint {A} (m : SM DB A) : respects R m -> respects R (savepoint m).
Proof.
  intros Hm s. specialize (Hm s). unfold savepoint. destruct (s_failed s); simpl; [reflexivity|].
  destruct (m s) as [[a|e] s'] eqn:Hms; simpl in *; [|reflexivity].
  by destruct (s_failed s').
Qed.

(** A savepoint needs the relation only of runs that return: one that raises
    restores the tables. *)
Lemma respects_savepoint_Ok {A} (m : SM DB A) :
  (forall s a s', m s = (Ok a, s') -> R (s_db s) (s_db s')) -> respects R (savepoint m).
Proof.
  intros Hm s. unfold savepoint. destruct (s_failed s); cbn; [reflexivity|].
  destruct (m s) as [[a|e] s'] eqn:Hms; cbn; [|reflexivity].
  specialize (Hm s a s' Hms). by destruct (s_failed s').
Qed.

(** A committed transaction is a step of [R] too. *)
Lemma respects_transaction {A} (m : SM DB A) db :
  respects R m -> R db (snd (transaction m db)).
Proof.
  intros Hm. specialize (Hm (Session db false)). unfold transaction.
  destruct (m (Session db false)) as [[a|e] s']; simpl in *; [|reflexivity].
  destruct (s_failed s'); simpl; [reflexivity | done].
Qed.
End Respects.

#[export] Hint Resolve respects_ret respects_lift respects_query respects_savepoint : plane.

(** Decompose a method into its statements. *)
Ltac respects_step :=
  match goal with
  | |- respects _ (lift _ ≫= _) => apply respects_lift_bind; [apply _ | intros ? ?]
  | |- respects _ (_ ≫= _) => apply respects_bind; [apply _ | | intros ?]
  | |- respects _ (mret _) => apply respects_ret; apply _
  | |- respects _ (lift _) => apply respects_lift; apply _
  | |- respects _ (query _) => apply respects_query; apply _
  | |- respects _ (savepoint _) => apply respects_savepoint; [apply _|]
  | |- respects _ (match ?x with _ => _ end) => destruct x
  end.
Ltac respects_auto := repeat respects_step.

(** ** Facts about runs *)

Section Runs.
Context {DB A : Type}.

(** A transaction that raises leaves the database as it was. *)
Lemma transaction_error_atomic (m : SM DB A) db e db' :
  transaction m db = (Err e, db') -> db' = db.
Proof.
  unfold transaction. destruct (m (Session db false)) as [[a|e'] s']; [|naive_solver].
  destruct (s_failed s'); naive_solver.
Qed.

Lemma transaction_run (m : SM DB A) t a t' :
  transaction m t = (Ok a, t') <->
  exists s', m (Session t false) = (Ok a, s') /\ s_failed s' = false /\ s_db s' = t'.
Proof.
  unfold transaction. destruct (m (Session t false)) as [[x|e] s'].
  - destruct (s_failed s') eqn:Hf; split.
    + done.
    + intros (s1 & [= -> ->] & ? & _). congruence.
    + intros [= -> <-]. eauto.
    + by intros (s1 & [= -> ->] & _ & ->).
  - split; [done | by intros (? & ? & _)].
Qed.

Lemma savepoint_error (m : SM DB A) s e s' :
  s_failed s = false -> savepoint m s = (Err e, s') ->
  s_db s' = s_db s \/ s_failed s' = true.
Proof.
  unfold savepoint. intros ->. destruct (m s) as [[a|e'] s1]; [|intros [= _ <-]; auto].
  destruct (s_failed s1) eqn:Hf; [|done]. intros [= _ <-]. auto.
Qed.

Lemma bind_run_Ok {B} (m : SM DB A) (f : A -> SM DB B) s b s' :
  (m ≫= f) s = (Ok b, s') <-> exists a s1, m s = (Ok a, s1) /\ f a s1 = (Ok b, s').
Proof.
  unfold mbind, SM_mbind. destruct (m s) as [[a|e] s1]; split; try done; naive_solver.
Qed.

Lemma exec_run_Ok (st : DB -> result (A * DB)) s a s' :
  exec st s = (Ok a, s') <->
  s_failed s = false /\ s_failed s' = false /\ st (s_db s) = Ok (a, s_db s').
Proof.
  unfold exec. destruct s as [db fl], s' as [db' fl']. simpl. destruct fl; [naive_solver|].
  destruct (st db) as [[a1 db1]|e]; naive_solver.
Qed.

Lemma lift_run_Ok (r : result A) (s s' : session DB) a :
  lift r s = (Ok a, s') <-> r = Ok a /\ s' = s.
Proof. unfold lift. naive_solver. Qed.

Lemma query_run_Ok (q : DB -> A) s a s' :
  query q s = (Ok a, s') <-> s_failed s = false /\ s' = s /\ a = q (s_db s).
Proof.
  unfold query. rewrite exec_run_Ok. destruct s as [db fl], s' as [db' fl']. simpl.
  split; [intros (-> & -> & [= -> ->]) | intros (-> & [= -> ->] & ->)]; auto.
Qed.

Lemma savepoint_run_Ok (m : SM DB A) s a s' :
  savepoint m s = (Ok a, s') <->
  s_failed s = false /\ s_failed s' = false /\ m s = (Ok a, s').
Proof.
  unfold savepoint. destruct (s_failed s).
  { split; [discriminate | by intros [? _]]. }
  destruct (m s) as [[a1|e] s1]; [|split; [discriminate | by intros (_ & _ & ?)]].
  destruct (s_failed s1) eqn:Hf; split; try discriminate.
  - intros (_ & ? & [= -> ->]). congruence.
  - intros [= -> ->]. auto.
  - by intros (_ & _ & ->).
Qed.
End Runs.

Lemma zoom_run_Ok {DB S A} (get : DB -> S) (put : S -> DB -> DB) (m : SM S A) s a s' :
  zoom get put m s = (Ok a, s') <->
  exists s1, m (Session (get (s_db s)) (s_failed s)) = (Ok a, s1)
             /\ s' = Session (put (s_db s1) (s_db s)) (s_failed s1).
Proof.
  unfold zoom. destruct (m _) as [r s1]. split.
  - intros [= -> <-]. eauto.
  - by intros (s2 & [= -> ->] & ->).
Qed.

(** [inv_run]: break a successful run into the runs of its steps. *)
Ltac inv_run :=
  repeat match goal with
  | H : (_ ≫= _) _ = (Ok _, _) |- _ =>
      let a := fresh "v" in let s := fresh "s" in let H1 := fresh "Hr" in
      apply bind_run_Ok in H as (a & s & H1 & H)
  | H : lift _ _ = (Ok _, _) |- _ =>
      let H1 := fresh "Hl" in apply lift_run_Ok in H as [H1 H]
  | H : query _ _ = (Ok _, _) |- _ =>
      let H1 := fresh "Hq" in let H2 := fresh "Hf" in
      apply query_run_Ok in H as (H2 & H & H1)
  | H : (mret _) _ = (Ok _, _) |- _ => injection H as H
  | H : (Ok _, _) = (Ok _, _) |- _ => injection H as H
  | H : (Err _, _) = (Ok _, _) |- _ => discriminate H
  end.

(** ** Tables that only evolve: rows change in place and are never removed *)

Section Evolution.
Context {row : Type} (R : row -> row -> Prop) `{!PreOrder R}.

(** [t'] is [t] with every row advanced by [R], and new rows appended. *)
Definition table_evolves (t t' : list row) : Prop :=
  exists l new, t' = l ++ new /\ Forall2 R t l.

#[global] Instance table_evolves_preorder : PreOrder table_evolves.
Proof.
  split.
  - intros t. exists t, []. split; [by rewrite app_nil_r|]. reflexivity.
  - intros t1 t2 t3 (l1 & n1 & -> & H1) (l2 & n2 & -> & H2).
    apply Forall2_app_inv_l in H2 as (a & b & Ha & Hb & ->).
    exists a, (b ++ n2). split; [by rewrite app_assoc|]. by transitivity l1.
Qed.

Lemma table_evolves_update p f t :
  (forall r, r ∈ t -> p r = true -> R r (f r)) -> table_evolves t (update_where p f t).
Proof.
  intros Hf. exists (update_where p f t), []. split; [by rewrite app_nil_r|].
  unfold update_where. induction t as [|r t IH]; [constructor|]. simpl. constructor.
  - destruct (p r) eqn:Hp; [apply Hf; [by left | done] | reflexivity].
  - apply IH. intros r' Hr'. apply Hf. by right.
Qed.

Lemma table_evolves_snoc t r : table_evolves t (t ++ [r]).
Proof. exists t, [r]. split; [done|]. reflexivity. Qed.

Lemma table_evolves_elem t t' r :
  table_evolves t t' -> r ∈ t -> exists r', r' ∈ t' /\ R r r'.
Proof.
  intros (l & new & -> & HF) [i Hi]%list_elem_of_lookup.
  eapply Forall2_lookup_l in HF as (r' & Hr' & HR); [|exact Hi].
  exists r'. split; [|done]. apply elem_of_app. left. by eapply list_elem_of_lookup_2.
Qed.
End Evolution.

Lemma Forall_update_where {row} (P : row -> Prop) p f (t : list row) :
  Forall P t -> (forall r, r ∈ t -> p r = true -> P r -> P (f r)) -> Forall P (update_where p f t).
Proof.
  rewrite !Forall_forall. intros HP Hf x (y & Hy & ->)%elem_of_update_where.
  destruct (p y) eqn:Hp; auto.
Qed.

(** What an insert and an update do to a table of well-formed rows. *)
Section Writes.
Context {row : Type} (wf : row -> Prop) (R : row -> row -> Prop) `{!PreOrder R}.
Variables (check : row -> result unit) (conflict : row -> row -> bool).
Hypothesis conflict_sym : forall a b, conflict a b = conflict b a.

Lemma insert_rows foreign r t o t' :
  insert_do_nothing check conflict foreign r t = Ok (o, t') ->
  wf r -> Forall wf t -> unique_ok conflict t = true ->
  Forall wf t' /\ unique_ok conflict t' = true /\ table_evolves R t t'
  /\ (forall x, x ∈ t' -> x ∈ t \/ (x = r /\ foreign r = Ok ())).
Proof.
  intros (_ & [(_ & -> & _)|(_ & -> & Hc & Hf)])%insert_do_nothing_Ok Hr Ht Hu.
  - split_and!; auto. reflexivity.
  - split_and!.
    + apply Forall_app. split; [done|]. by constructor.
    + by apply unique_ok_snoc.
    + by apply table_evolves_snoc.
    + intros x [?|Hx]%elem_of_app; [by left|]. apply list_elem_of_singleton in Hx. auto.
Qed.

Lemma update_rows p f t rs t' :
  update_returning check conflict p f t = Ok (rs, t') ->
  Forall wf t ->
  (forall r, r ∈ t -> p r = true -> check (f r) = Ok () -> wf (f r)) ->
  (forall r, r ∈ t -> p r = true -> R r (f r)) ->
  Forall wf t' /\ unique_ok conflict t' = true /\ table_evolves R t t'.
Proof.
  intros (HF & _ & -> & Hu)%update_returning_Ok Ht Hwf HR. split_and!; [|done|].
  - apply Forall_update_where; [done|]. intros r Hr Hp _. apply Hwf; auto.
    rewrite Forall_forall in HF. apply HF. apply list_elem_of_fmap.
    exists r. split; [done|]. by apply elem_of_rows_where.
  - by apply table_evolves_update.
Qed.
End Writes.
