(* ===== verification/AuthorityModels.v ===== *)
(** * Authority values (src/src/astralplane/authority/*.py)

    The four durable values of the authority component: an agent binding
    (models.py), a lifecycle operation (lifecycle.py), a protected effect
    (effects.py) and a receipt claim with its rollback anchor and sequence
    watermark (claims.py).  Each dataclass is a [Record]; its [__post_init__]
    is a function [..._init] that returns the normalised value or raises. *)

From stdpp Require Import pretty.
From S2P Require Import Prelude Regex Errors Domain Sha256.

(** ** String enumerations *)

(** A Python [StrEnum]: its members and the text of each, all distinct. *)
Class StrEnum (A : Type) `{EqDecision A} : Type := {
  enum_value : A -> pystr;
  enum_members : list A;
  enum_members_all : forall a, a ∈ enum_members;
  enum_value_inj : forall a b, enum_value a = enum_value b -> a = b
}.

(** [Enum(value)]: the member with that text. *)
Definition enum_of {A} `{StrEnum A} (s : pystr) : option A :=
  head (rows_where (fun a => bool_decide (enum_value a = s)) enum_members).

Lemma enum_of_value {A} `{StrEnum A} (a : A) : enum_of (enum_value a) = Some a.
Proof.
  unfold enum_of.
  destruct (rows_where _ enum_members) as [|b l] eqn:Hf; simpl.
  - assert (a ∈ rows_where (fun a' : A => bool_decide (enum_value a' = enum_value a)) enum_members)
      as Hin.
    { apply elem_of_rows_where. split; [apply enum_members_all|]. by apply bool_decide_eq_true. }
    rewrite Hf in Hin. by apply not_elem_of_nil in Hin.
  - assert (b ∈ b :: l) as Hin by left. rewrite <- Hf in Hin.
    apply elem_of_rows_where in Hin as [_ Hb%bool_decide_eq_true].
    apply enum_value_inj in Hb. by subst.
Qed.

Lemma enum_of_Some {A} `{StrEnum A} s (a : A) : enum_of s = Some a -> enum_value a = s.
Proof.
  unfold enum_of. destruct (rows_where _ _) as [|b l] eqn:Hf; [done|]. intros [= ->].
  assert (a ∈ a :: l) as Hin by left. rewrite <- Hf in Hin.
  apply elem_of_rows_where in Hin as [_ Hb]. by apply bool_decide_eq_true in Hb.
Qed.

Ltac solve_enum :=
  first [ intros []; vm_compute; repeat constructor
        | intros [] []; vm_compute; first [reflexivity | discriminate] ].

Inductive AuthorityPopulation : Type := SERVER_DYNAMIC | BYO_USER.
#[global] Instance AuthorityPopulation_eq_dec : EqDecision AuthorityPopulation.
Proof. solve_decision. Defined.
Definition AuthorityPopulation_value (p : AuthorityPopulation) : string :=
  match p with
    | SERVER_DYNAMIC => "server_dynamic" | BYO_USER => "byo_user" end.
#[global] Program Instance AuthorityPopulation_enum : StrEnum AuthorityPopulation := {|
  enum_value p := u (AuthorityPopulation_value p);
  enum_members := [SERVER_DYNAMIC; BYO_USER]
|}.
Next Obligation. intros []; set_solver. Qed.
Next Obligation. by intros [] []; vm_compute. Qed.

Inductive AuthorityBindingState : Type :=
  | PROVISIONING | ACTIVE | QUIESCENT | CLOSING | CLOSED
  | REVOKING | REVOKED | RECONCILING | EXPIRED.
#[global] Instance AuthorityBindingState_eq_dec : EqDecision AuthorityBindingState.
Proof. solve_decision. Defined.
Definition AuthorityBindingState_value (s : AuthorityBindingState) : string :=
  match s with
    | PROVISIONING => "provisioning" | ACTIVE => "active" | QUIESCENT => "quiescent"
    | CLOSING => "closing" | CLOSED => "closed" | REVOKING => "revoking"
    | REVOKED => "revoked" | RECONCILING => "reconciling" | EXPIRED => "expired" end.
#[global] Program Instance AuthorityBindingState_enum : StrEnum AuthorityBindingState := {|
  enum_value s := u (AuthorityBindingState_value s);
  enum_members := [PROVISIONING; ACTIVE; QUIESCENT; CLOSING; CLOSED; REVOKING; REVOKED;
                   RECONCILING; EXPIRED]
|}.
Next Obligation. intros []; set_solver. Qed.
Next Obligation. by intros [] []; vm_compute. Qed.

Definition binding_terminal (s : AuthorityBindingState) : bool :=
  match s with CLOSED | REVOKED | EXPIRED => true | _ => false end.

(** ** Shared validators *)

Definition _positive_integer (value : Z) (field : string) : result Z :=
  if value <=? 0 then raise DomainValidationError (field ++ " must be a positive integer")
  else Ok value.

Definition _non_negative_integer (value : Z) (field : string) : result Z :=
  if value <? 0 then raise DomainValidationError (field ++ " must be a non-negative integer")
  else Ok value.

Definition _lets_digest (value : pystr) (field : string) : result pystr :=
  if is_lets_digest value then Ok value
  else raise DomainValidationError (field ++ " must be a canonical LETS SHA-256 digest").

(** Validate a list of [(field, value)] identifiers, in order. *)
Definition require_identifiers (l : list (string * pystr)) : result unit :=
  check_each (fun fv => require_identifier (snd fv) (fst fv) ;; Ok ()) l.

Definition optional {A B} (f : A -> result B) (o : option A) : result (option B) :=
  match o with None => Ok None | Some a => b ← f a; Ok (Some b) end.

(** ** Agent bindings (models.py) *)

Definition _canonical_capabilities (value : list pystr) : result (list pystr) :=
  raise_if (bool_decide (value = []))
    (Exn DomainValidationError "capabilities must be a nonempty canonical tuple") ;;
  check_each (fun c => require_identifier c "capability" ;; Ok ()) value ;;
  raise_unless (bool_decide (sort_by str_leb value = value) && bool_decide (NoDup value))
    (Exn DomainValidationError "capabilities must be sorted and unique") ;;
  Ok value.

Inductive PendingAuthorityField : Type := F_warden | F_lease | F_lineage | F_subject.
#[global] Instance PendingAuthorityField_eq_dec : EqDecision PendingAuthorityField.
Proof. solve_decision. Defined.
Definition field_text (f : PendingAuthorityField) : string :=
  match f with
  | F_warden => "warden" | F_lease => "lease" | F_lineage => "lineage" | F_subject => "subject"
  end.

Definition PENDING_ID_DOMAIN : list N := u "astralplane.authority.pending/v1" ++ [0%N].
Definition PENDING_ID_PREFIX : pystr := u "pending:".

(** The text of a pending identity of a valid binding id. *)
Definition pending_text (binding_id : pystr) (f : PendingAuthorityField) : pystr :=
  PENDING_ID_PREFIX ++ u (field_text f) ++ u ":"
  ++ take 32 (sha256_hex (PENDING_ID_DOMAIN ++ binding_id)).

Definition pending_authority_identity (binding_id : pystr) (f : PendingAuthorityField)
  : result pystr :=
  canonical_binding_id ← require_identifier binding_id "binding id";
  Ok (pending_text canonical_binding_id f).

Record AgentAuthorityBinding : Type := {
  b_binding_id : pystr;
  b_owner_id : pystr;
  b_agent_id : pystr;
  b_runtime_id : pystr;
  b_runtime_generation : Z;
  b_population : AuthorityPopulation;
  b_tenant_id : pystr;
  b_envelope_id : pystr;
  b_warden_id : pystr;
  b_lease_id : pystr;
  b_lineage_id : pystr;
  b_subject_id : pystr;
  b_policy_digest : pystr;
  b_machine_digest : pystr;
  b_config_epoch : Z;
  b_capabilities : list pystr;
  b_lease_sequence : Z;
  b_lease_expires_at_ns : Z;
  b_state : AuthorityBindingState;
  b_created_at : datetime;
  b_updated_at : datetime;
  b_version : Z
}.
#[global] Instance AgentAuthorityBinding_eq_dec : EqDecision AgentAuthorityBinding.
Proof. solve_decision. Defined.

(** The four remote identities, and the pending text of each. *)
Definition remote_identities (b : AgentAuthorityBinding) : list pystr :=
  [b_warden_id b; b_lease_id b; b_lineage_id b; b_subject_id b].
Definition pending_identities (binding_id : pystr) : list pystr :=
  pending_text binding_id <$> [F_warden; F_lease; F_lineage; F_subject].

Definition has_pending_identity (b : AgentAuthorityBinding) : bool :=
  existsb (starts_with PENDING_ID_PREFIX) (remote_identities b).

Definition with_binding_times (b : AgentAuthorityBinding) (created updated : datetime)
  : AgentAuthorityBinding :=
  {| b_binding_id := b_binding_id b; b_owner_id := b_owner_id b; b_agent_id := b_agent_id b;
     b_runtime_id := b_runtime_id b; b_runtime_generation := b_runtime_generation b;
     b_population := b_population b; b_tenant_id := b_tenant_id b;
     b_envelope_id := b_envelope_id b; b_warden_id := b_warden_id b; b_lease_id := b_lease_id b;
     b_lineage_id := b_lineage_id b; b_subject_id := b_subject_id b;
     b_policy_digest := b_policy_digest b; b_machine_digest := b_machine_digest b;
     b_config_epoch := b_config_epoch b; b_capabilities := b_capabilities b;
     b_lease_sequence := b_lease_sequence b; b_lease_expires_at_ns := b_lease_expires_at_ns b;
     b_state := b_state b; b_created_at := created; b_updated_at := updated;
     b_version := b_version b |}.

(** The remote-identity rule of a binding: a provisioning binding, or a
    closed one that was never issued, carries exactly its pending identities
    and no lease; any other binding carries none and has a lease expiry. *)
Definition check_remote_state (b : AgentAuthorityBinding) : result unit :=
  w ← pending_authority_identity (b_binding_id b) F_warden;
  l ← pending_authority_identity (b_binding_id b) F_lease;
  n ← pending_authority_identity (b_binding_id b) F_lineage;
  s ← pending_authority_identity (b_binding_id b) F_subject;
  let retains_pending_intent := bool_decide (b_state b ∈ [PROVISIONING; CLOSED]) in
  if retains_pending_intent && has_pending_identity b then
    raise_if (bool_decide (remote_identities b <> [w; l; n; s]))
      (Exn DomainValidationError
        "pending binding requires deterministic pending remote identities") ;;
    raise_if (negb (b_lease_sequence b =? 0) || negb (b_lease_expires_at_ns b =? 0))
      (Exn DomainValidationError "pending binding cannot carry issued lease metadata")
  else if bool_decide (b_state b = PROVISIONING) then
    raise DomainValidationError
      "pending binding requires deterministic pending remote identities"
  else
    raise_if (has_pending_identity b)
      (Exn DomainValidationError "issued binding cannot carry a pending remote identity") ;;
    raise_if (b_lease_expires_at_ns b =? 0)
      (Exn DomainValidationError "issued binding lease expiry must be positive").

(** [AgentAuthorityBinding.__post_init__] *)
Definition binding_init (b : AgentAuthorityBinding) : result AgentAuthorityBinding :=
  require_identifiers
    [("binding id", b_binding_id b); ("owner id", b_owner_id b); ("agent id", b_agent_id b);
     ("runtime id", b_runtime_id b); ("tenant id", b_tenant_id b);
     ("envelope id", b_envelope_id b); ("warden id", b_warden_id b);
     ("lease id", b_lease_id b); ("lineage id", b_lineage_id b);
     ("subject id", b_subject_id b)]%string ;;
  _positive_integer (b_runtime_generation b) "runtime generation" ;;
  _lets_digest (b_policy_digest b) "policy digest" ;;
  _lets_digest (b_machine_digest b) "machine digest" ;;
  _positive_integer (b_config_epoch b) "config epoch" ;;
  _canonical_capabilities (b_capabilities b) ;;
  _non_negative_integer (b_lease_sequence b) "lease sequence" ;;
  _non_negative_integer (b_lease_expires_at_ns b) "lease expiry" ;;
  _non_negative_integer (b_version b) "version" ;;
  check_remote_state b ;;
  created ← require_utc (b_created_at b) "created at";
  updated ← require_utc (b_updated_at b) "updated at";
  raise_if (instant updated <? instant created)
    (Exn DomainValidationError "updated at cannot precede created at") ;;
  Ok (with_binding_times b created updated).

(** [AgentAuthorityBinding.provisioning_intent(...)] *)
Definition provisioning_intent (binding_id owner_id agent_id runtime_id : pystr)
    (runtime_generation : Z) (population : AuthorityPopulation)
    (tenant_id envelope_id policy_digest machine_digest : pystr) (config_epoch : Z)
    (capabilities : list pystr) (created_at : datetime) : result AgentAuthorityBinding :=
  w ← pending_authority_identity binding_id F_warden;
  l ← pending_authority_identity binding_id F_lease;
  n ← pending_authority_identity binding_id F_lineage;
  s ← pending_authority_identity binding_id F_subject;
  binding_init
    {| b_binding_id := binding_id; b_owner_id := owner_id; b_agent_id := agent_id;
       b_runtime_id := runtime_id; b_runtime_generation := runtime_generation;
       b_population := population; b_tenant_id := tenant_id; b_envelope_id := envelope_id;
       b_warden_id := w; b_lease_id := l; b_lineage_id := n; b_subject_id := s;
       b_policy_digest := policy_digest; b_machine_digest := machine_digest;
       b_config_epoch := config_epoch; b_capabilities := capabilities;
       b_lease_sequence := 0; b_lease_expires_at_ns := 0; b_state := PROVISIONING;
       b_created_at := created_at; b_updated_at := created_at; b_version := 0 |}.

(** ** Lifecycle operations (lifecycle.py) *)

Inductive AuthorityLifecycleKind : Type :=
  | K_PROVISION | K_SPAWN | K_RENEW | K_QUIESCE | K_RESUME | K_CLOSE | K_REVOKE | K_RECONCILE.
#[global] Instance AuthorityLifecycleKind_eq_dec : EqDecision AuthorityLifecycleKind.
Proof. solve_decision. Defined.
Definition AuthorityLifecycleKind_value (k : AuthorityLifecycleKind) : string :=
  match k with
    | K_PROVISION => "provision" | K_SPAWN => "spawn" | K_RENEW => "renew"
    | K_QUIESCE => "quiesce" | K_RESUME => "resume" | K_CLOSE => "close"
    | K_REVOKE => "revoke" | K_RECONCILE => "reconcile" end.
#[global] Program Instance AuthorityLifecycleKind_enum : StrEnum AuthorityLifecycleKind := {|
  enum_value k := u (AuthorityLifecycleKind_value k);
  enum_members := [K_PROVISION; K_SPAWN; K_RENEW; K_QUIESCE; K_RESUME; K_CLOSE; K_REVOKE;
                   K_RECONCILE]
|}.
Next Obligation. intros []; set_solver. Qed.
Next Obligation. by intros [] []; vm_compute. Qed.

Inductive AuthorityLifecycleStatus : Type :=
  | L_PENDING | L_IN_FLIGHT | L_SUCCEEDED | L_FAILED | L_UNCERTAIN | L_RECONCILED.
#[global] Instance AuthorityLifecycleStatus_eq_dec : EqDecision AuthorityLifecycleStatus.
Proof. solve_decision. Defined.
Definition AuthorityLifecycleStatus_value (s : AuthorityLifecycleStatus) : string :=
  match s with
    | L_PENDING => "pending" | L_IN_FLIGHT => "in_flight" | L_SUCCEEDED => "succeeded"
    | L_FAILED => "failed" | L_UNCERTAIN => "uncertain" | L_RECONCILED => "reconciled" end.
#[global] Program Instance AuthorityLifecycleStatus_enum : StrEnum AuthorityLifecycleStatus := {|
  enum_value s := u (AuthorityLifecycleStatus_value s);
  enum_members := [L_PENDING; L_IN_FLIGHT; L_SUCCEEDED; L_FAILED; L_UNCERTAIN; L_RECONCILED]
|}.
Next Obligation. intros []; set_solver. Qed.
Next Obligation. by intros [] []; vm_compute. Qed.

Definition lifecycle_terminal (s : AuthorityLifecycleStatus) : bool :=
  match s with L_SUCCEEDED | L_FAILED | L_RECONCILED => true | _ => false end.

Record AuthorityLifecycleOperation : Type := {
  l_operation_id : pystr;
  l_owner_id : pystr;
  l_binding_id : pystr;
  l_kind : AuthorityLifecycleKind;
  l_expected_binding_version : Z;
  l_expected_lease_sequence : option Z;
  l_request_fingerprint : pystr;
  l_status : AuthorityLifecycleStatus;
  l_remote_request_id : pystr;
  l_result_digest : option pystr;
  l_error_code : option pystr;
  l_attempt_count : Z;
  l_next_attempt_at : option datetime;
  l_last_attempt_at : option datetime;
  l_reconciled_at : option datetime;
  l_reconciliation_digest : option pystr;
  l_created_at : datetime;
  l_updated_at : datetime;
  l_version : Z
}.
#[global] Instance AuthorityLifecycleOperation_eq_dec : EqDecision AuthorityLifecycleOperation.
Proof. solve_decision. Defined.

Definition with_lifecycle_times (o : AuthorityLifecycleOperation)
    (next last reconciled : option datetime) (created updated : datetime)
  : AuthorityLifecycleOperation :=
  {| l_operation_id := l_operation_id o; l_owner_id := l_owner_id o;
     l_binding_id := l_binding_id o; l_kind := l_kind o;
     l_expected_binding_version := l_expected_binding_version o;
     l_expected_lease_sequence := l_expected_lease_sequence o;
     l_request_fingerprint := l_request_fingerprint o; l_status := l_status o;
     l_remote_request_id := l_remote_request_id o; l_result_digest := l_result_digest o;
     l_error_code := l_error_code o; l_attempt_count := l_attempt_count o;
     l_next_attempt_at := next; l_last_attempt_at := last; l_reconciled_at := reconciled;
     l_reconciliation_digest := l_reconciliation_digest o;
     l_created_at := created; l_updated_at := updated; l_version := l_version o |}.

(** [value is not None and value < created_at] *)
Definition precedes (value : option datetime) (created : datetime) : bool :=
  match value with None => false | Some t => instant t <? instant created end.

(** The attempt, outcome and reconciliation rules of a lifecycle operation. *)
Definition check_lifecycle_shape (o : AuthorityLifecycleOperation) : result unit :=
  let no {A} (x : option A) := bool_decide (is_Some x) in
  raise_if ((l_attempt_count o =? 0) && no (l_last_attempt_at o))
    (Exn DomainValidationError "unattempted operation cannot have a last attempt") ;;
  raise_if ((0 <? l_attempt_count o) && negb (no (l_last_attempt_at o)))
    (Exn DomainValidationError "attempted operation requires a last attempt") ;;
  raise_if (bool_decide (l_status o <> L_PENDING) && (l_attempt_count o =? 0))
    (Exn DomainValidationError "started operation must record an attempt") ;;
  raise_if (bool_decide (l_status o = L_SUCCEEDED) && negb (no (l_result_digest o)))
    (Exn DomainValidationError "succeeded operation requires a result digest") ;;
  raise_if (bool_decide (l_status o ∈ [L_FAILED; L_UNCERTAIN]) && negb (no (l_error_code o)))
    (Exn DomainValidationError "failed or uncertain operation requires an error code") ;;
  (if bool_decide (l_status o = L_RECONCILED) then
     raise_if (negb (no (l_reconciled_at o)) || negb (no (l_reconciliation_digest o)))
       (Exn DomainValidationError "reconciled operation requires reconciliation metadata") ;;
     raise_if (negb (no (l_result_digest o)) && negb (no (l_error_code o)))
       (Exn DomainValidationError "reconciled operation requires a result or error outcome")
   else
     raise_if (no (l_reconciled_at o) || no (l_reconciliation_digest o))
       (Exn DomainValidationError
         "only reconciled operation may carry reconciliation metadata")) ;;
  raise_if (lifecycle_terminal (l_status o) && no (l_next_attempt_at o))
    (Exn DomainValidationError "terminal operation cannot schedule another attempt").

(** [AuthorityLifecycleOperation.__post_init__] *)
Definition lifecycle_init (o : AuthorityLifecycleOperation) : result AuthorityLifecycleOperation :=
  require_identifiers
    [("operation id", l_operation_id o); ("owner id", l_owner_id o);
     ("binding id", l_binding_id o); ("remote request id", l_remote_request_id o)]%string ;;
  raise_if (bool_decide (l_remote_request_id o <> l_operation_id o))
    (Exn DomainValidationError "remote request id must equal operation id") ;;
  _non_negative_integer (l_expected_binding_version o) "expected binding version" ;;
  optional (fun z => _non_negative_integer z "expected lease sequence")
    (l_expected_lease_sequence o) ;;
  require_sha256 (l_request_fingerprint o) "request fingerprint" ;;
  _non_negative_integer (l_attempt_count o) "attempt count" ;;
  _non_negative_integer (l_version o) "version" ;;
  optional (fun d => require_sha256 d "result digest") (l_result_digest o) ;;
  optional (fun c => require_identifier c "error code") (l_error_code o) ;;
  raise_if (bool_decide (is_Some (l_result_digest o)) && bool_decide (is_Some (l_error_code o)))
    (Exn DomainValidationError "result digest and error code are mutually exclusive") ;;
  next ← optional (fun t => require_utc t "next attempt at") (l_next_attempt_at o);
  last ← optional (fun t => require_utc t "last attempt at") (l_last_attempt_at o);
  reconciled ← optional (fun t => require_utc t "reconciled at") (l_reconciled_at o);
  optional (fun d => require_sha256 d "reconciliation digest") (l_reconciliation_digest o) ;;
  created ← require_utc (l_created_at o) "created at";
  updated ← require_utc (l_updated_at o) "updated at";
  raise_if (instant updated <? instant created)
    (Exn DomainValidationError "updated at cannot precede created at") ;;
  check_each (fun fv =>
      raise_if (precedes (snd fv) created)
        (Exn DomainValidationError (fst fv ++ " cannot precede created at")))
    [("next attempt at", next); ("last attempt at", last); ("reconciled at", reconciled)]%string ;;
  check_lifecycle_shape o ;;
  Ok (with_lifecycle_times o next last reconciled created updated).

(** ** Protected effects (effects.py) *)

Inductive AstralToolScope : Type :=
  | SCOPE_READ | SCOPE_WRITE | SCOPE_SEARCH | SCOPE_SYSTEM | SCOPE_FILES | SCOPE_EXECUTE.
#[global] Instance AstralToolScope_eq_dec : EqDecision AstralToolScope.
Proof. solve_decision. Defined.
Definition AstralToolScope_value (s : AstralToolScope) : string :=
  match s with
    | SCOPE_READ => "tools:read" | SCOPE_WRITE => "tools:write" | SCOPE_SEARCH => "tools:search"
    | SCOPE_SYSTEM => "tools:system" | SCOPE_FILES => "tools:files"
    | SCOPE_EXECUTE => "tools:execute" end.
#[global] Program Instance AstralToolScope_enum : StrEnum AstralToolScope := {|
  enum_value s := u (AstralToolScope_value s);
  enum_members := [SCOPE_READ; SCOPE_WRITE; SCOPE_SEARCH; SCOPE_SYSTEM; SCOPE_FILES;
                   SCOPE_EXECUTE]
|}.
Next Obligation. intros []; set_solver. Qed.
Next Obligation. by intros [] []; vm_compute. Qed.

Inductive ProtectedEffectStatus : Type :=
  | E_CREATED | E_ASTRAL_AUTHORIZED | E_LETS_PENDING | E_RECEIPT_RECEIVED | E_RECEIPT_CLAIMED
  | E_EXECUTING | E_SUCCEEDED | E_DENIED | E_FAILED_CLOSED | E_EFFECT_FAILED
  | E_OUTCOME_UNCERTAIN.
#[global] Instance ProtectedEffectStatus_eq_dec : EqDecision ProtectedEffectStatus.
Proof. solve_decision. Defined.
Definition ProtectedEffectStatus_value (s : ProtectedEffectStatus) : string :=
  match s with
    | E_CREATED => "created" | E_ASTRAL_AUTHORIZED => "astral_authorized"
    | E_LETS_PENDING => "lets_pending" | E_RECEIPT_RECEIVED => "receipt_received"
    | E_RECEIPT_CLAIMED => "receipt_claimed" | E_EXECUTING => "executing"
    | E_SUCCEEDED => "succeeded" | E_DENIED => "denied" | E_FAILED_CLOSED => "failed_closed"
    | E_EFFECT_FAILED => "effect_failed" | E_OUTCOME_UNCERTAIN => "outcome_uncertain" end.
#[global] Program Instance ProtectedEffectStatus_enum : StrEnum ProtectedEffectStatus := {|
  enum_value s := u (ProtectedEffectStatus_value s);
  enum_members := [E_CREATED; E_ASTRAL_AUTHORIZED; E_LETS_PENDING; E_RECEIPT_RECEIVED;
                   E_RECEIPT_CLAIMED; E_EXECUTING; E_SUCCEEDED; E_DENIED; E_FAILED_CLOSED;
                   E_EFFECT_FAILED; E_OUTCOME_UNCERTAIN]
|}.
Next Obligation. intros []; set_solver. Qed.
Next Obligation. by intros [] []; vm_compute. Qed.

Definition effect_terminal (s : ProtectedEffectStatus) : bool :=
  match s with E_SUCCEEDED | E_DENIED | E_FAILED_CLOSED | E_EFFECT_FAILED => true | _ => false end.

Definition RECEIPT_REQUIRED : list ProtectedEffectStatus :=
  [E_RECEIPT_RECEIVED; E_RECEIPT_CLAIMED; E_EXECUTING; E_SUCCEEDED; E_EFFECT_FAILED;
   E_OUTCOME_UNCERTAIN].
Definition RECEIPT_FORBIDDEN : list ProtectedEffectStatus :=
  [E_CREATED; E_ASTRAL_AUTHORIZED; E_LETS_PENDING].
Definition ERROR_REQUIRED : list ProtectedEffectStatus :=
  [E_DENIED; E_FAILED_CLOSED; E_EFFECT_FAILED; E_OUTCOME_UNCERTAIN].
Definition OUTCOME_REQUIRED : list ProtectedEffectStatus := [E_SUCCEEDED; E_EFFECT_FAILED].

(** [_effect_nonce]: 16 to 256 characters, stripped, no ASCII control. *)
Definition _effect_nonce (value : pystr) : result pystr :=
  raise_unless (Nat.leb 16 (length value) && Nat.leb (length value) 256)
    (Exn DomainValidationError "nonce must contain 16 to 256 characters") ;;
  raise_if (bool_decide (value <> py_strip value)
            || existsb (fun c => (c <? 32)%N || (c =? 127)%N) value)
    (Exn DomainValidationError "nonce must be a canonical printable identifier") ;;
  Ok value.

Record ProtectedEffectOperation : Type := {
  e_operation_id : pystr;
  e_owner_id : pystr;
  e_agent_id : pystr;
  e_binding_id : pystr;
  e_tool_id : pystr;
  e_astral_scope : AstralToolScope;
  e_lets_capability : pystr;
  e_lets_transition : pystr;
  e_executor_audience : pystr;
  e_nonce : pystr;
  e_effect_digest : pystr;
  e_expected_sequence : Z;
  e_audit_correlation_id : pystr;
  e_status : ProtectedEffectStatus;
  e_receipt_id : option pystr;
  e_receipt_digest : option pystr;
  e_effect_result_digest : option pystr;
  e_error_code : option pystr;
  e_created_at : datetime;
  e_updated_at : datetime;
  e_version : Z
}.
#[global] Instance ProtectedEffectOperation_eq_dec : EqDecision ProtectedEffectOperation.
Proof. solve_decision. Defined.

Definition with_effect_times (o : ProtectedEffectOperation) (created updated : datetime)
  : ProtectedEffectOperation :=
  {| e_operation_id := e_operation_id o; e_owner_id := e_owner_id o; e_agent_id := e_agent_id o;
     e_binding_id := e_binding_id o; e_tool_id := e_tool_id o; e_astral_scope := e_astral_scope o;
     e_lets_capability := e_lets_capability o; e_lets_transition := e_lets_transition o;
     e_executor_audience := e_executor_audience o; e_nonce := e_nonce o;
     e_effect_digest := e_effect_digest o; e_expected_sequence := e_expected_sequence o;
     e_audit_correlation_id := e_audit_correlation_id o; e_status := e_status o;
     e_receipt_id := e_receipt_id o; e_receipt_digest := e_receipt_digest o;
     e_effect_result_digest := e_effect_result_digest o; e_error_code := e_error_code o;
     e_created_at := created; e_updated_at := updated; e_version := e_version o |}.

(** The receipt, error and outcome rules of a protected effect. *)
Definition check_effect_shape (o : ProtectedEffectOperation) : result unit :=
  let has_receipt_id := bool_decide (is_Some (e_receipt_id o)) in
  let has_receipt_digest := bool_decide (is_Some (e_receipt_digest o)) in
  let has_error := bool_decide (is_Some (e_error_code o)) in
  let has_outcome := bool_decide (is_Some (e_effect_result_digest o)) in
  let status_in l := bool_decide (e_status o ∈ l) in
  raise_if (xorb has_receipt_id has_receipt_digest)
    (Exn DomainValidationError "receipt id and receipt digest must be recorded together") ;;
  raise_if (status_in RECEIPT_REQUIRED && negb has_receipt_id)
    (Exn DomainValidationError "status requires validated receipt metadata") ;;
  raise_if (status_in RECEIPT_FORBIDDEN && has_receipt_id)
    (Exn DomainValidationError "status cannot carry receipt metadata") ;;
  raise_if (status_in ERROR_REQUIRED && negb has_error)
    (Exn DomainValidationError "denied or failed effect requires an error code") ;;
  raise_if (negb (status_in ERROR_REQUIRED) && has_error)
    (Exn DomainValidationError "non-error status cannot carry an error code") ;;
  raise_if (status_in OUTCOME_REQUIRED && negb has_outcome)
    (Exn DomainValidationError "known effect outcome requires a result digest") ;;
  raise_if (negb (status_in OUTCOME_REQUIRED) && has_outcome)
    (Exn DomainValidationError
      "status without a known effect outcome cannot carry a result digest").

(** [ProtectedEffectOperation.__post_init__] *)
Definition effect_init (o : ProtectedEffectOperation) : result ProtectedEffectOperation :=
  require_identifiers
    [("operation id", e_operation_id o); ("owner id", e_owner_id o); ("agent id", e_agent_id o);
     ("binding id", e_binding_id o); ("tool id", e_tool_id o);
     ("LETS capability", e_lets_capability o); ("LETS transition", e_lets_transition o);
     ("executor audience", e_executor_audience o);
     ("audit correlation id", e_audit_correlation_id o)]%string ;;
  _effect_nonce (e_nonce o) ;;
  require_sha256 (e_effect_digest o) "effect digest" ;;
  _non_negative_integer (e_expected_sequence o) "expected sequence" ;;
  _non_negative_integer (e_version o) "version" ;;
  optional (fun i => require_identifier i "receipt id") (e_receipt_id o) ;;
  optional (fun d => require_sha256 d "receipt digest") (e_receipt_digest o) ;;
  optional (fun d => require_sha256 d "effect result digest") (e_effect_result_digest o) ;;
  optional (fun c => require_identifier c "error code") (e_error_code o) ;;
  check_effect_shape o ;;
  created ← require_utc (e_created_at o) "created at";
  updated ← require_utc (e_updated_at o) "updated at";
  raise_if (instant updated <? instant created)
    (Exn DomainValidationError "updated at cannot precede created at") ;;
  Ok (with_effect_times o created updated).

(** ** Receipt claims, anchors and watermarks (claims.py) *)

Definition EXECUTOR_ANCHOR_FORMAT : pystr := u "LETS-EXECUTOR-AUTHORITY-ANCHOR/1".
Definition ZERO_SHA256 : pystr := replicate 64 48%N.

(** [_integer]: from a minimum through the signed 64-bit maximum. *)
Definition _integer (value : Z) (field : string) (minimum : Z) : result Z :=
  if (value <? minimum) || (int8_max <? value) then
    raise DomainValidationError
      (field ++ " must be an integer from " ++ pretty minimum
        ++ " through signed 64-bit maximum")
  else Ok value.

Record ExternalAuthorityAnchorMetadata : Type := {
  a_anchor_format : pystr;
  a_audience : pystr;
  a_tenant_id : pystr;
  a_envelope_id : pystr;
  a_config_epoch : Z;
  a_executor_policy_sha256 : pystr;
  a_trust_registry_sha256 : pystr;
  a_schema_version : Z;
  a_database_instance_id : pystr;
  a_claim_sequence : Z;
  a_claim_digest : pystr;
  a_clock_floor_ns : option Z;
  a_confirmed_at : datetime
}.
#[global] Instance ExternalAuthorityAnchorMetadata_eq_dec :
  EqDecision ExternalAuthorityAnchorMetadata.
Proof. solve_decision. Defined.

Definition with_anchor_time (a : ExternalAuthorityAnchorMetadata) (t : datetime)
  : ExternalAuthorityAnchorMetadata :=
  {| a_anchor_format := a_anchor_format a; a_audience := a_audience a;
     a_tenant_id := a_tenant_id a; a_envelope_id := a_envelope_id a;
     a_config_epoch := a_config_epoch a; a_executor_policy_sha256 := a_executor_policy_sha256 a;
     a_trust_registry_sha256 := a_trust_registry_sha256 a;
     a_schema_version := a_schema_version a; a_database_instance_id := a_database_instance_id a;
     a_claim_sequence := a_claim_sequence a; a_claim_digest := a_claim_digest a;
     a_clock_floor_ns := a_clock_floor_ns a; a_confirmed_at := t |}.

(** [ExternalAuthorityAnchorMetadata.__post_init__] *)
Definition anchor_init (a : ExternalAuthorityAnchorMetadata)
  : result ExternalAuthorityAnchorMetadata :=
  raise_if (bool_decide (a_anchor_format a <> EXECUTOR_ANCHOR_FORMAT))
    (Exn DomainValidationError "unsupported external authority anchor format") ;;
  require_identifiers
    [("anchor audience", a_audience a); ("anchor tenant id", a_tenant_id a);
     ("anchor envelope id", a_envelope_id a)]%string ;;
  _integer (a_config_epoch a) "anchor config epoch" 1 ;;
  require_sha256 (a_executor_policy_sha256 a) "anchor executor policy digest" ;;
  require_sha256 (a_trust_registry_sha256 a) "anchor trust registry digest" ;;
  _integer (a_schema_version a) "anchor schema version" 1 ;;
  require_sha256 (a_database_instance_id a) "anchor database instance id" ;;
  _integer (a_claim_sequence a) "anchor claim sequence" 0 ;;
  require_sha256 (a_claim_digest a) "anchor claim digest" ;;
  raise_if ((a_claim_sequence a =? 0) && bool_decide (a_claim_digest a <> ZERO_SHA256))
    (Exn DomainValidationError "an empty anchor claim chain must use the zero digest") ;;
  optional (fun z => _integer z "anchor clock floor" 0) (a_clock_floor_ns a) ;;
  confirmed ← require_utc (a_confirmed_at a) "anchor confirmed at";
  Ok (with_anchor_time a confirmed).

Record ReceiptSequenceWatermark : Type := {
  w_warden_id : pystr;
  w_lease_id : pystr;
  w_audience : pystr;
  w_last_sequence : Z;
  w_updated_at : datetime;
  w_expires_at_ns : Z;
  w_version : Z
}.
#[global] Instance ReceiptSequenceWatermark_eq_dec : EqDecision ReceiptSequenceWatermark.
Proof. solve_decision. Defined.

(** [ReceiptSequenceWatermark.__post_init__] *)
Definition watermark_init (w : ReceiptSequenceWatermark) : result ReceiptSequenceWatermark :=
  require_identifiers
    [("watermark warden id", w_warden_id w); ("watermark lease id", w_lease_id w);
     ("watermark audience", w_audience w)]%string ;;
  _integer (w_last_sequence w) "watermark sequence" 1 ;;
  _integer (w_expires_at_ns w) "watermark expiry" 1 ;;
  _integer (w_version w) "watermark version" 0 ;;
  updated ← require_utc (w_updated_at w) "watermark updated at";
  Ok {| w_warden_id := w_warden_id w; w_lease_id := w_lease_id w; w_audience := w_audience w;
        w_last_sequence := w_last_sequence w; w_updated_at := updated;
        w_expires_at_ns := w_expires_at_ns w; w_version := w_version w |}.

Definition watermark_key (w : ReceiptSequenceWatermark) : pystr * pystr * pystr :=
  (w_warden_id w, w_lease_id w, w_audience w).

(** [ReceiptSequenceWatermark.require_advance] *)
Definition require_advance (w : ReceiptSequenceWatermark) (key : pystr * pystr * pystr)
    (sequence : Z) : result unit :=
  raise_if (bool_decide (key <> watermark_key w))
    (Exn DomainValidationError "receipt does not match the sequence watermark") ;;
  candidate ← _integer sequence "receipt resulting sequence" 1;
  raise_if (candidate <=? w_last_sequence w)
    (Exn DomainValidationError "receipt sequence must strictly advance the watermark").

Record ReceiptClaim : Type := {
  c_receipt_id : pystr;
  c_operation_id : pystr;
  c_owner_id : pystr;
  c_binding_id : pystr;
  c_tenant_id : pystr;
  c_envelope_id : pystr;
  c_warden_id : pystr;
  c_lease_id : pystr;
  c_subject_id : pystr;
  c_lineage_id : pystr;
  c_policy_digest : pystr;
  c_machine_digest : pystr;
  c_config_epoch : Z;
  c_audience : pystr;
  c_transition : pystr;
  c_nonce : pystr;
  c_resulting_sequence : Z;
  c_evidence_digest : option pystr;
  c_issued_at_ns : Z;
  c_expires_at_ns : Z;
  c_claimed_at : datetime;
  c_canonical_digest : pystr;
  c_authority_anchor : ExternalAuthorityAnchorMetadata
}.
#[global] Instance ReceiptClaim_eq_dec : EqDecision ReceiptClaim.
Proof. solve_decision. Defined.

Definition with_claim_time (c : ReceiptClaim) (t : datetime) : ReceiptClaim :=
  {| c_receipt_id := c_receipt_id c; c_operation_id := c_operation_id c;
     c_owner_id := c_owner_id c; c_binding_id := c_binding_id c; c_tenant_id := c_tenant_id c;
     c_envelope_id := c_envelope_id c; c_warden_id := c_warden_id c; c_lease_id := c_lease_id c;
     c_subject_id := c_subject_id c; c_lineage_id := c_lineage_id c;
     c_policy_digest := c_policy_digest c; c_machine_digest := c_machine_digest c;
     c_config_epoch := c_config_epoch c; c_audience := c_audience c;
     c_transition := c_transition c; c_nonce := c_nonce c;
     c_resulting_sequence := c_resulting_sequence c; c_evidence_digest := c_evidence_digest c;
     c_issued_at_ns := c_issued_at_ns c; c_expires_at_ns := c_expires_at_ns c;
     c_claimed_at := t; c_canonical_digest := c_canonical_digest c;
     c_authority_anchor := c_authority_anchor c |}.

(** [ReceiptClaim.__post_init__]; the anchor argument is already an
    [ExternalAuthorityAnchorMetadata], normalised by its own constructor. *)
Definition claim_init (c : ReceiptClaim) : result ReceiptClaim :=
  require_identifiers
    [("receipt id", c_receipt_id c); ("operation id", c_operation_id c);
     ("owner id", c_owner_id c); ("binding id", c_binding_id c); ("tenant id", c_tenant_id c);
     ("envelope id", c_envelope_id c); ("warden id", c_warden_id c);
     ("lease id", c_lease_id c); ("subject id", c_subject_id c);
     ("lineage id", c_lineage_id c); ("audience", c_audience c);
     ("transition", c_transition c); ("nonce", c_nonce c)]%string ;;
  _lets_digest (c_policy_digest c) "policy digest" ;;
  _lets_digest (c_machine_digest c) "machine digest" ;;
  optional (fun d => _lets_digest d "evidence digest") (c_evidence_digest c) ;;
  _integer (c_config_epoch c) "config epoch" 1 ;;
  _integer (c_resulting_sequence c) "resulting sequence" 1 ;;
  issued ← _integer (c_issued_at_ns c) "issued at" 0;
  expires ← _integer (c_expires_at_ns c) "expires at" 1;
  raise_if (expires <=? issued)
    (Exn DomainValidationError "receipt expiry must follow issuance") ;;
  claimed ← require_utc (c_claimed_at c) "claimed at";
  require_sha256 (c_canonical_digest c) "canonical receipt digest" ;;
  let anchor := c_authority_anchor c in
  raise_if (bool_decide
      ((a_audience anchor, a_tenant_id anchor, a_envelope_id anchor, a_config_epoch anchor)
       <> (c_audience c, c_tenant_id c, c_envelope_id c, c_config_epoch c)))
    (Exn DomainValidationError "authority anchor identity does not match the receipt") ;;
  raise_if (a_claim_sequence anchor <? 1)
    (Exn DomainValidationError "claimed receipt requires a nonempty authority anchor head") ;;
  raise_unless (bool_decide (is_Some (a_clock_floor_ns anchor)))
    (Exn DomainValidationError "claimed receipt requires an anchored clock floor") ;;
  raise_if (instant (a_confirmed_at anchor) <? instant claimed)
    (Exn DomainValidationError "authority confirmation cannot precede the receipt claim") ;;
  Ok (with_claim_time c claimed).

Definition sequence_watermark_key (c : ReceiptClaim) : pystr * pystr * pystr :=
  (c_warden_id c, c_lease_id c, c_audience c).

#[global] Arguments require_identifiers : simpl never.
#[global] Arguments EXECUTOR_ANCHOR_FORMAT : simpl never.
#[global] Arguments ZERO_SHA256 : simpl never.
#[global] Arguments PENDING_ID_PREFIX : simpl never.
#[global] Arguments optional {A B} f !o /.
#[global] Arguments pending_text : simpl never.
#[global] Arguments check_remote_state : simpl never.
#[global] Arguments check_lifecycle_shape : simpl never.
#[global] Arguments check_effect_shape : simpl never.

(** ** Inverting the validators *)

Lemma positive_integer_Ok z f z' : _positive_integer z f = Ok z' <-> 0 < z /\ z' = z.
Proof.
  unfold _positive_integer. destruct (Z.leb_spec z 0); split; try done; try lia.
  - intros [= <-]. auto.
  - by intros [_ ->].
Qed.

Lemma non_negative_integer_Ok z f z' : _non_negative_integer z f = Ok z' <-> 0 <= z /\ z' = z.
Proof.
  unfold _non_negative_integer. destruct (Z.ltb_spec z 0); split; try done; try lia.
  - intros [= <-]. auto.
  - by intros [_ ->].
Qed.

Lemma lets_digest_Ok s f s' : _lets_digest s f = Ok s' <-> is_lets_digest s = true /\ s' = s.
Proof. unfold _lets_digest. case_match; split; try naive_solver; intros [= <-]; auto. Qed.

Lemma integer_Ok z f m z' : _integer z f m = Ok z' <-> m <= z <= int8_max /\ z' = z.
Proof.
  unfold _integer. destruct (Z.ltb_spec z m), (Z.ltb_spec int8_max z); simpl;
    (split; [try done; intros [= <-]; auto | intros [? ->]; try done; lia]).
Qed.

Lemma require_identifiers_Ok l x :
  require_identifiers l = Ok x <-> Forall (fun fv => is_identifier (snd fv) = true) l.
Proof.
  unfold require_identifiers. rewrite check_each_Ok. apply Forall_iff. intros [f s]. simpl.
  unfold require_identifier. destruct (is_identifier s); simpl; split; done.
Qed.

(** The option-lifted form of a validator that returns its argument. *)
Definition opt_all {A} (P : A -> Prop) (o : option A) : Prop :=
  match o with None => True | Some a => P a end.

Lemma optional_id_Ok {A} (P : A -> Prop) (f : A -> result A) o o' :
  (forall a a', f a = Ok a' <-> P a /\ a' = a) ->
  optional f o = Ok o' <-> opt_all P o /\ o' = o.
Proof.
  intros Hf. destruct o as [a|]; simpl; [|split; [by intros [= <-] | by intros [_ ->]]].
  split.
  - intros H. inv_ok. apply Hf in Hs as [? ->]. by subst.
  - intros [HP ->]. assert (f a = Ok a) as -> by (by apply Hf). done.
Qed.

Lemma optional_utc_Ok f o o' :
  optional (fun t => require_utc t f) o = Ok o' <->
  opt_all (fun t => exists w off, t = Aware w off) o /\ o' = (fun t => utc (instant t)) <$> o.
Proof.
  destruct o as [t|]; simpl; [|split; [by intros [= <-] | by intros [_ ->]]].
  split.
  - intros H. inv_ok. apply require_utc_Ok in Hs as [? ->]. by subst.
  - intros [HP ->].
    rewrite (proj2 (require_utc_Ok t f (utc (instant t))) (conj HP eq_refl)). done.
Qed.

#[export] Hint Rewrite positive_integer_Ok non_negative_integer_Ok lets_digest_Ok integer_Ok
  require_identifiers_Ok : plane.

Lemma canonical_capabilities_Ok l l' :
  _canonical_capabilities l = Ok l' <->
  l <> [] /\ Forall (fun c => is_identifier c = true) l
  /\ sort_by str_leb l = l /\ NoDup l /\ l' = l.
Proof.
  unfold _canonical_capabilities. split.
  - intros H. inv_ok. split_bools. apply check_each_Ok in Hs0. repeat split; auto.
    eapply Forall_impl; [exact Hs0|]. intros c Hc. simpl in Hc.
    unfold require_identifier in Hc. by destruct (is_identifier c).
  - intros (Hne & HF & Hsort & Hnd & ->).
    rewrite (bool_decide_eq_false_2 _ Hne). simpl.
    rewrite (proj2 (check_each_Ok (fun c => require_identifier c "capability" ;; Ok ()) l ())).
    + simpl. rewrite (bool_decide_eq_true_2 _ Hsort), (bool_decide_eq_true_2 _ Hnd). done.
    + eapply Forall_impl; [exact HF|]. intros c Hc. unfold require_identifier. by rewrite Hc.
Qed.
