(* ===== verification/AuthoritySchema.v ===== *)
(** * Authority tables (src/src/astralplane/database/migrations.py, revision 074)

    Rows of the five authority tables with their columns in declaration
    order, the CHECK constraints, unique indexes and trigger of the DDL as
    boolean functions of a row, and the row encoding and decoding of
    authority/repository.py. *)

From S2P Require Import Prelude Regex Errors Domain Sha256 Pg AuthorityModels.

(** ** Helper functions of the schema *)

(** [astralplane_identifier_is_canonical] *)
Definition identifier_is_canonical (candidate : pystr) : bool := fullmatch identifier_re candidate.

#[global] Arguments identifier_is_canonical : simpl never.

(** Strict order under the "C" collation. *)
Definition str_ltb (a b : pystr) : bool := negb (str_leb b a).

Fixpoint strictly_increasing (l : list pystr) : bool :=
  match l with
  | a :: (b :: _) as l' => str_ltb a b && strictly_increasing l'
  | _ => true
  end.

(** [astralplane_capabilities_are_canonical] *)
Definition capabilities_are_canonical (candidate : list pystr) : bool :=
  bool_decide (candidate <> [])
  && forallb identifier_is_canonical candidate && strictly_increasing candidate.

Definition text_in (s : pystr) (l : list string) : bool := bool_decide (s ∈ u <$> l).

#[global] Arguments text_in : simpl never.

(** [IS NULL OR p] *)
Definition null_or {A} (p : A -> bool) (o : option A) : bool :=
  match o with None => true | Some a => p a end.
Definition is_null {A} (o : option A) : bool := match o with None => true | Some _ => false end.

(** A row violates a CHECK constraint, or a column type. *)
Definition check_constraint (b : bool) : result unit :=
  raise_unless b (Exn PgCheckViolation "new row violates check constraint").
Definition column_range (b : bool) : result unit :=
  raise_unless b (Exn PgNumericOutOfRange "integer out of range").

(** ** astralplane_authority_binding *)

Record binding_row : Type := {
  rb_binding_id : pystr; rb_owner_id : pystr; rb_agent_id : pystr; rb_runtime_id : pystr;
  rb_runtime_generation : Z; rb_population : pystr; rb_tenant_id : pystr; rb_envelope_id : pystr;
  rb_warden_id : pystr; rb_lease_id : pystr; rb_lineage_id : pystr; rb_subject_id : pystr;
  rb_policy_digest : pystr; rb_machine_digest : pystr; rb_config_epoch : Z;
  rb_capabilities : list pystr; rb_lease_sequence : Z; rb_lease_expires_at_ns : Z;
  rb_state : pystr; rb_created_at : Z; rb_updated_at : Z; rb_version : Z
}.
#[global] Instance binding_row_eq_dec : EqDecision binding_row.
Proof. solve_decision. Defined.

Definition pending_column_re (f : PendingAuthorityField) : regex :=
  RSeq (RLit (PENDING_ID_PREFIX ++ u (field_text f) ++ u ":")) (RRep 32 32 is_hex).

Definition check_binding_identity (r : binding_row) : bool :=
  forallb identifier_is_canonical
    [rb_binding_id r; rb_owner_id r; rb_agent_id r; rb_runtime_id r; rb_tenant_id r;
     rb_envelope_id r; rb_warden_id r; rb_lease_id r; rb_lineage_id r; rb_subject_id r].

Definition check_binding_numeric (r : binding_row) : bool :=
  (0 <? rb_runtime_generation r) && (0 <? rb_config_epoch r) && (0 <=? rb_lease_sequence r)
  && (0 <=? rb_lease_expires_at_ns r) && (0 <=? rb_version r).

Definition check_binding_remote_state (r : binding_row) : bool :=
  (text_in (rb_state r) ["provisioning"; "closed"]
   && fullmatch (pending_column_re F_warden) (rb_warden_id r)
   && fullmatch (pending_column_re F_lease) (rb_lease_id r)
   && fullmatch (pending_column_re F_lineage) (rb_lineage_id r)
   && fullmatch (pending_column_re F_subject) (rb_subject_id r)
   && (rb_lease_sequence r =? 0) && (rb_lease_expires_at_ns r =? 0))
  || (negb (bool_decide (rb_state r = u "provisioning"))
      && negb (starts_with PENDING_ID_PREFIX (rb_warden_id r))
      && negb (starts_with PENDING_ID_PREFIX (rb_lease_id r))
      && negb (starts_with PENDING_ID_PREFIX (rb_lineage_id r))
      && negb (starts_with PENDING_ID_PREFIX (rb_subject_id r))
      && (0 <? rb_lease_expires_at_ns r)).

Definition binding_checks (r : binding_row) : bool :=
  check_binding_identity r
  && text_in (rb_population r) ["server_dynamic"; "byo_user"]
  && (fullmatch lets_digest_re (rb_policy_digest r)
      && fullmatch lets_digest_re (rb_machine_digest r))
  && capabilities_are_canonical (rb_capabilities r)
  && check_binding_numeric r
  && text_in (rb_state r)
       ["provisioning"; "active"; "quiescent"; "closing"; "closed"; "revoking"; "revoked";
        "reconciling"; "expired"]
  && (rb_created_at r <=? rb_updated_at r)
  && check_binding_remote_state r.

Definition binding_columns (r : binding_row) : bool :=
  forallb is_int8
    [rb_runtime_generation r; rb_config_epoch r; rb_lease_sequence r;
     rb_lease_expires_at_ns r; rb_version r].

Definition check_binding_row (r : binding_row) : result unit :=
  column_range (binding_columns r) ;; check_constraint (binding_checks r).

Definition row_nonterminal (r : binding_row) : bool :=
  text_in (rb_state r)
    ["provisioning"; "active"; "quiescent"; "closing"; "revoking"; "reconciling"].

(** Two rows that violate a unique index of the table together: the primary
    key, the owner key, the runtime key and the partial nonterminal index. *)
Definition binding_conflict (r r' : binding_row) : bool :=
  bool_decide (rb_binding_id r = rb_binding_id r')
  || bool_decide ((rb_owner_id r, rb_binding_id r) = (rb_owner_id r', rb_binding_id r'))
  || bool_decide ((rb_owner_id r, rb_agent_id r, rb_runtime_id r, rb_runtime_generation r)
                  = (rb_owner_id r', rb_agent_id r', rb_runtime_id r', rb_runtime_generation r'))
  || (row_nonterminal r && row_nonterminal r'
      && bool_decide ((rb_owner_id r, rb_agent_id r, rb_population r)
                      = (rb_owner_id r', rb_agent_id r', rb_population r'))).

(** ** astralplane_authority_lifecycle_operation *)

Record lifecycle_row : Type := {
  rl_operation_id : pystr; rl_owner_id : pystr; rl_binding_id : pystr; rl_kind : pystr;
  rl_expected_binding_version : Z; rl_expected_lease_sequence : option Z;
  rl_request_fingerprint : pystr; rl_status : pystr; rl_remote_request_id : pystr;
  rl_result_digest : option pystr; rl_error_code : option pystr; rl_attempt_count : Z;
  rl_next_attempt_at : option Z; rl_last_attempt_at : option Z; rl_reconciled_at : option Z;
  rl_reconciliation_digest : option pystr; rl_created_at : Z; rl_updated_at : Z; rl_version : Z
}.
#[global] Instance lifecycle_row_eq_dec : EqDecision lifecycle_row.
Proof. solve_decision. Defined.

Definition check_lifecycle_identity (r : lifecycle_row) : bool :=
  forallb identifier_is_canonical
    [rl_operation_id r; rl_owner_id r; rl_binding_id r; rl_remote_request_id r]
  && bool_decide (rl_remote_request_id r = rl_operation_id r)
  && null_or identifier_is_canonical (rl_error_code r).

Definition check_lifecycle_attempt (r : lifecycle_row) : bool :=
  (((rl_attempt_count r =? 0) && is_null (rl_last_attempt_at r))
   || ((0 <? rl_attempt_count r) && negb (is_null (rl_last_attempt_at r))))
  && (bool_decide (rl_status r = u "pending") || (0 <? rl_attempt_count r)).

Definition check_lifecycle_result (r : lifecycle_row) : bool :=
  (text_in (rl_status r) ["pending"; "in_flight"]
   && is_null (rl_result_digest r) && is_null (rl_error_code r))
  || (bool_decide (rl_status r = u "succeeded")
      && negb (is_null (rl_result_digest r)) && is_null (rl_error_code r))
  || (text_in (rl_status r) ["failed"; "uncertain"]
      && is_null (rl_result_digest r) && negb (is_null (rl_error_code r)))
  || (bool_decide (rl_status r = u "reconciled")
      && xorb (negb (is_null (rl_result_digest r))) (negb (is_null (rl_error_code r)))).

Definition check_lifecycle_reconciliation (r : lifecycle_row) : bool :=
  (bool_decide (rl_status r = u "reconciled")
   && negb (is_null (rl_reconciled_at r)) && negb (is_null (rl_reconciliation_digest r)))
  || (negb (bool_decide (rl_status r = u "reconciled"))
      && is_null (rl_reconciled_at r) && is_null (rl_reconciliation_digest r)).

Definition check_lifecycle_time (r : lifecycle_row) : bool :=
  (rl_created_at r <=? rl_updated_at r)
  && null_or (fun t => rl_created_at r <=? t) (rl_next_attempt_at r)
  && null_or (fun t => rl_created_at r <=? t) (rl_last_attempt_at r)
  && null_or (fun t => rl_created_at r <=? t) (rl_reconciled_at r)
  && (negb (text_in (rl_status r) ["succeeded"; "failed"; "reconciled"])
      || is_null (rl_next_attempt_at r)).

Definition lifecycle_checks (r : lifecycle_row) : bool :=
  check_lifecycle_identity r
  && text_in (rl_kind r)
       ["provision"; "spawn"; "renew"; "quiesce"; "resume"; "close"; "revoke"; "reconcile"]
  && ((0 <=? rl_expected_binding_version r)
      && null_or (fun z => 0 <=? z) (rl_expected_lease_sequence r)
      && (0 <=? rl_attempt_count r) && (0 <=? rl_version r))
  && (fullmatch hex64_re (rl_request_fingerprint r)
      && null_or (fullmatch hex64_re) (rl_result_digest r)
      && null_or (fullmatch hex64_re) (rl_reconciliation_digest r))
  && text_in (rl_status r)
       ["pending"; "in_flight"; "succeeded"; "failed"; "uncertain"; "reconciled"]
  && check_lifecycle_attempt r && check_lifecycle_result r
  && check_lifecycle_reconciliation r && check_lifecycle_time r.

(** [attempt_count] is an INTEGER, the other counters are BIGINT. *)
Definition lifecycle_columns (r : lifecycle_row) : bool :=
  is_int8 (rl_expected_binding_version r) && null_or is_int8 (rl_expected_lease_sequence r)
  && is_int4 (rl_attempt_count r) && is_int8 (rl_version r).

Definition check_lifecycle_row (r : lifecycle_row) : result unit :=
  column_range (lifecycle_columns r) ;; check_constraint (lifecycle_checks r).

Definition lifecycle_conflict (r r' : lifecycle_row) : bool :=
  bool_decide (rl_operation_id r = rl_operation_id r')
  || bool_decide ((rl_owner_id r, rl_operation_id r) = (rl_owner_id r', rl_operation_id r')).

(** ** astralplane_protected_effect_operation *)

Record effect_row : Type := {
  re_operation_id : pystr; re_owner_id : pystr; re_agent_id : pystr; re_binding_id : pystr;
  re_tool_id : pystr; re_astral_scope : pystr; re_lets_capability : pystr;
  re_lets_transition : pystr; re_executor_audience : pystr; re_nonce : pystr;
  re_effect_digest : pystr; re_expected_sequence : Z; re_audit_correlation_id : pystr;
  re_status : pystr; re_receipt_id : option pystr; re_receipt_digest : option pystr;
  re_effect_result_digest : option pystr; re_error_code : option pystr;
  re_created_at : Z; re_updated_at : Z; re_version : Z
}.
#[global] Instance effect_row_eq_dec : EqDecision effect_row.
Proof. solve_decision. Defined.

(** [btrim(text)]: spaces only, unlike Python's [strip]. *)
Fixpoint drop_blanks (s : pystr) : pystr :=
  match s with
  | c :: s' => if (c =? 32)%N then drop_blanks s' else s
  | [] => []
  end.
Definition btrim (s : pystr) : pystr := reverse (drop_blanks (reverse (drop_blanks s))).

Definition check_effect_nonce `{PgEnv} (nonce : pystr) : bool :=
  Nat.leb 16 (length nonce) && Nat.leb (length nonce) 256
  && bool_decide (nonce = btrim nonce) && negb (existsb pg_cntrl nonce).

Definition check_effect_identity `{PgEnv} (r : effect_row) : bool :=
  forallb identifier_is_canonical
    [re_operation_id r; re_owner_id r; re_agent_id r; re_binding_id r; re_tool_id r;
     re_lets_capability r; re_lets_transition r; re_executor_audience r;
     re_audit_correlation_id r]
  && null_or identifier_is_canonical (re_receipt_id r)
  && null_or identifier_is_canonical (re_error_code r)
  && check_effect_nonce (re_nonce r).

Definition check_effect_receipt_shape (r : effect_row) : bool :=
  Bool.eqb (is_null (re_receipt_id r)) (is_null (re_receipt_digest r))
  && (negb (text_in (re_status r)
        ["receipt_received"; "receipt_claimed"; "executing"; "succeeded"; "effect_failed";
         "outcome_uncertain"]) || negb (is_null (re_receipt_id r)))
  && (negb (text_in (re_status r) ["created"; "astral_authorized"; "lets_pending"])
      || is_null (re_receipt_id r)).

Definition check_effect_result_shape (r : effect_row) : bool :=
  Bool.eqb (text_in (re_status r) ["denied"; "failed_closed"; "effect_failed"; "outcome_uncertain"])
           (negb (is_null (re_error_code r)))
  && Bool.eqb (text_in (re_status r) ["succeeded"; "effect_failed"])
              (negb (is_null (re_effect_result_digest r))).

Definition effect_checks `{PgEnv} (r : effect_row) : bool :=
  check_effect_identity r
  && text_in (re_astral_scope r)
       ["tools:read"; "tools:write"; "tools:search"; "tools:system"; "tools:files";
        "tools:execute"]
  && (fullmatch hex64_re (re_effect_digest r)
      && null_or (fullmatch hex64_re) (re_receipt_digest r)
      && null_or (fullmatch hex64_re) (re_effect_result_digest r))
  && ((0 <=? re_expected_sequence r) && (0 <=? re_version r))
  && text_in (re_status r)
       ["created"; "astral_authorized"; "lets_pending"; "receipt_received"; "receipt_claimed";
        "executing"; "succeeded"; "denied"; "failed_closed"; "effect_failed";
        "outcome_uncertain"]
  && check_effect_receipt_shape r && check_effect_result_shape r
  && (re_created_at r <=? re_updated_at r).

Definition effect_columns (r : effect_row) : bool :=
  is_int8 (re_expected_sequence r) && is_int8 (re_version r).

Definition check_effect_row `{PgEnv} (r : effect_row) : result unit :=
  column_range (effect_columns r) ;; check_constraint (effect_checks r).

(** Unique keys: operation, owner and operation, receipt (nulls are
    distinct), and the nonce under an owner, binding and audience. *)
Definition effect_conflict (r r' : effect_row) : bool :=
  bool_decide (re_operation_id r = re_operation_id r')
  || bool_decide ((re_owner_id r, re_operation_id r) = (re_owner_id r', re_operation_id r'))
  || (negb (is_null (re_receipt_id r)) && bool_decide (re_receipt_id r = re_receipt_id r'))
  || bool_decide ((re_owner_id r, re_binding_id r, re_executor_audience r, re_nonce r)
                  = (re_owner_id r', re_binding_id r', re_executor_audience r', re_nonce r')).

(** ** astralplane_receipt_sequence_watermark *)

Record watermark_row : Type := {
  rw_warden_id : pystr; rw_lease_id : pystr; rw_audience : pystr; rw_last_sequence : Z;
  rw_updated_at : Z; rw_expires_at_ns : Z; rw_version : Z
}.
#[global] Instance watermark_row_eq_dec : EqDecision watermark_row.
Proof. solve_decision. Defined.

Definition watermark_checks (r : watermark_row) : bool :=
  forallb identifier_is_canonical [rw_warden_id r; rw_lease_id r; rw_audience r]
  && ((0 <? rw_last_sequence r) && (0 <? rw_expires_at_ns r) && (0 <=? rw_version r)).

Definition watermark_columns (r : watermark_row) : bool :=
  is_int8 (rw_last_sequence r) && is_int8 (rw_expires_at_ns r) && is_int8 (rw_version r).

Definition check_watermark_row (r : watermark_row) : result unit :=
  column_range (watermark_columns r) ;; check_constraint (watermark_checks r).

Definition watermark_row_key (r : watermark_row) : pystr * pystr * pystr :=
  (rw_warden_id r, rw_lease_id r, rw_audience r).

(** The trigger [astralplane_receipt_watermark_require_advance]. *)
Definition watermark_require_advance (old new : watermark_row) : result unit :=
  raise_if (bool_decide (watermark_row_key new <> watermark_row_key old)
            || (rw_last_sequence new <=? rw_last_sequence old)
            || negb (rw_version new =? rw_version old + 1)
            || (rw_updated_at new <? rw_updated_at old))
    (Exn PgCheckViolation "receipt watermark update must strictly advance its fenced sequence").

(** ** astralplane_receipt_claim *)

Record claim_row : Type := {
  rc_receipt_id : pystr; rc_operation_id : pystr; rc_owner_id : pystr; rc_binding_id : pystr;
  rc_tenant_id : pystr; rc_envelope_id : pystr; rc_warden_id : pystr; rc_lease_id : pystr;
  rc_subject_id : pystr; rc_lineage_id : pystr; rc_policy_digest : pystr;
  rc_machine_digest : pystr; rc_config_epoch : Z; rc_audience : pystr; rc_transition : pystr;
  rc_nonce : pystr; rc_resulting_sequence : Z; rc_evidence_digest : option pystr;
  rc_issued_at_ns : Z; rc_expires_at_ns : Z; rc_claimed_at : Z; rc_canonical_digest : pystr;
  rc_anchor_format : pystr; rc_anchor_executor_policy_sha256 : pystr;
  rc_anchor_trust_registry_sha256 : pystr; rc_anchor_schema_version : Z;
  rc_anchor_database_instance_id : pystr; rc_anchor_claim_sequence : Z;
  rc_anchor_claim_digest : pystr; rc_anchor_clock_floor_ns : option Z; rc_anchor_confirmed_at : Z
}.
#[global] Instance claim_row_eq_dec : EqDecision claim_row.
Proof. solve_decision. Defined.

Definition check_claim_identity (r : claim_row) : bool :=
  forallb identifier_is_canonical
    [rc_receipt_id r; rc_operation_id r; rc_owner_id r; rc_binding_id r; rc_tenant_id r;
     rc_envelope_id r; rc_warden_id r; rc_lease_id r; rc_subject_id r; rc_lineage_id r;
     rc_audience r; rc_transition r; rc_nonce r].

Definition check_claim_digests (r : claim_row) : bool :=
  (fullmatch lets_digest_re (rc_policy_digest r) && fullmatch lets_digest_re (rc_machine_digest r)
   && null_or (fullmatch lets_digest_re) (rc_evidence_digest r))
  && forallb (fullmatch hex64_re)
       [rc_canonical_digest r; rc_anchor_executor_policy_sha256 r;
        rc_anchor_trust_registry_sha256 r; rc_anchor_database_instance_id r;
        rc_anchor_claim_digest r].

Definition check_claim_numeric (r : claim_row) : bool :=
  (0 <? rc_config_epoch r) && (0 <? rc_resulting_sequence r) && (0 <=? rc_issued_at_ns r)
  && (rc_issued_at_ns r <? rc_expires_at_ns r).

(** The clock floor column is NOT NULL, unlike the anchor's optional field. *)
Definition check_claim_anchor (r : claim_row) : bool :=
  bool_decide (rc_anchor_format r = EXECUTOR_ANCHOR_FORMAT)
  && (0 <? rc_anchor_schema_version r) && (0 <? rc_anchor_claim_sequence r)
  && match rc_anchor_clock_floor_ns r with None => false | Some z => 0 <=? z end
  && (rc_claimed_at r <=? rc_anchor_confirmed_at r).

Definition claim_checks (r : claim_row) : bool :=
  check_claim_identity r && check_claim_digests r && check_claim_numeric r && check_claim_anchor r.

Definition claim_columns (r : claim_row) : bool :=
  forallb is_int8
    [rc_config_epoch r; rc_resulting_sequence r; rc_issued_at_ns r; rc_expires_at_ns r;
     rc_anchor_schema_version r; rc_anchor_claim_sequence r]
  && null_or is_int8 (rc_anchor_clock_floor_ns r).

Definition check_claim_row (r : claim_row) : result unit :=
  column_range (claim_columns r) ;; check_constraint (claim_checks r).

(** Unique keys: receipt, operation, nonce scope, sequence scope, digest. *)
Definition claim_conflict (r r' : claim_row) : bool :=
  bool_decide (rc_receipt_id r = rc_receipt_id r')
  || bool_decide (rc_operation_id r = rc_operation_id r')
  || bool_decide ((rc_tenant_id r, rc_envelope_id r, rc_audience r, rc_nonce r)
                  = (rc_tenant_id r', rc_envelope_id r', rc_audience r', rc_nonce r'))
  || bool_decide ((rc_warden_id r, rc_lease_id r, rc_audience r, rc_resulting_sequence r)
                  = (rc_warden_id r', rc_lease_id r', rc_audience r', rc_resulting_sequence r'))
  || bool_decide (rc_canonical_digest r = rc_canonical_digest r').

(** ** Rows of values (authority/repository.py) *)

Definition _binding_values (b : AgentAuthorityBinding) : binding_row :=
  {| rb_binding_id := b_binding_id b; rb_owner_id := b_owner_id b; rb_agent_id := b_agent_id b;
     rb_runtime_id := b_runtime_id b; rb_runtime_generation := b_runtime_generation b;
     rb_population := enum_value (b_population b); rb_tenant_id := b_tenant_id b;
     rb_envelope_id := b_envelope_id b; rb_warden_id := b_warden_id b;
     rb_lease_id := b_lease_id b; rb_lineage_id := b_lineage_id b;
     rb_subject_id := b_subject_id b; rb_policy_digest := b_policy_digest b;
     rb_machine_digest := b_machine_digest b; rb_config_epoch := b_config_epoch b;
     rb_capabilities := b_capabilities b; rb_lease_sequence := b_lease_sequence b;
     rb_lease_expires_at_ns := b_lease_expires_at_ns b; rb_state := enum_value (b_state b);
     rb_created_at := instant (b_created_at b); rb_updated_at := instant (b_updated_at b);
     rb_version := b_version b |}.

Definition _lifecycle_values (o : AuthorityLifecycleOperation) : lifecycle_row :=
  {| rl_operation_id := l_operation_id o; rl_owner_id := l_owner_id o;
     rl_binding_id := l_binding_id o; rl_kind := enum_value (l_kind o);
     rl_expected_binding_version := l_expected_binding_version o;
     rl_expected_lease_sequence := l_expected_lease_sequence o;
     rl_request_fingerprint := l_request_fingerprint o; rl_status := enum_value (l_status o);
     rl_remote_request_id := l_remote_request_id o; rl_result_digest := l_result_digest o;
     rl_error_code := l_error_code o; rl_attempt_count := l_attempt_count o;
     rl_next_attempt_at := instant <$> l_next_attempt_at o;
     rl_last_attempt_at := instant <$> l_last_attempt_at o;
     rl_reconciled_at := instant <$> l_reconciled_at o;
     rl_reconciliation_digest := l_reconciliation_digest o;
     rl_created_at := instant (l_created_at o); rl_updated_at := instant (l_updated_at o);
     rl_version := l_version o |}.

Definition _effect_values (o : ProtectedEffectOperation) : effect_row :=
  {| re_operation_id := e_operation_id o; re_owner_id := e_owner_id o;
     re_agent_id := e_agent_id o; re_binding_id := e_binding_id o; re_tool_id := e_tool_id o;
     re_astral_scope := enum_value (e_astral_scope o); re_lets_capability := e_lets_capability o;
     re_lets_transition := e_lets_transition o; re_executor_audience := e_executor_audience o;
     re_nonce := e_nonce o; re_effect_digest := e_effect_digest o;
     re_expected_sequence := e_expected_sequence o;
     re_audit_correlation_id := e_audit_correlation_id o; re_status := enum_value (e_status o);
     re_receipt_id := e_receipt_id o; re_receipt_digest := e_receipt_digest o;
     re_effect_result_digest := e_effect_result_digest o; re_error_code := e_error_code o;
     re_created_at := instant (e_created_at o); re_updated_at := instant (e_updated_at o);
     re_version := e_version o |}.

Definition watermark_values (w : ReceiptSequenceWatermark) : watermark_row :=
  {| rw_warden_id := w_warden_id w; rw_lease_id := w_lease_id w; rw_audience := w_audience w;
     rw_last_sequence := w_last_sequence w; rw_updated_at := instant (w_updated_at w);
     rw_expires_at_ns := w_expires_at_ns w; rw_version := w_version w |}.

Definition _claim_values (c : ReceiptClaim) : claim_row :=
  let anchor := c_authority_anchor c in
  {| rc_receipt_id := c_receipt_id c; rc_operation_id := c_operation_id c;
     rc_owner_id := c_owner_id c; rc_binding_id := c_binding_id c;
     rc_tenant_id := c_tenant_id c; rc_envelope_id := c_envelope_id c;
     rc_warden_id := c_warden_id c; rc_lease_id := c_lease_id c;
     rc_subject_id := c_subject_id c; rc_lineage_id := c_lineage_id c;
     rc_policy_digest := c_policy_digest c; rc_machine_digest := c_machine_digest c;
     rc_config_epoch := c_config_epoch c; rc_audience := c_audience c;
     rc_transition := c_transition c; rc_nonce := c_nonce c;
     rc_resulting_sequence := c_resulting_sequence c; rc_evidence_digest := c_evidence_digest c;
     rc_issued_at_ns := c_issued_at_ns c; rc_expires_at_ns := c_expires_at_ns c;
     rc_claimed_at := instant (c_claimed_at c); rc_canonical_digest := c_canonical_digest c;
     rc_anchor_format := a_anchor_format anchor;
     rc_anchor_executor_policy_sha256 := a_executor_policy_sha256 anchor;
     rc_anchor_trust_registry_sha256 := a_trust_registry_sha256 anchor;
     rc_anchor_schema_version := a_schema_version anchor;
     rc_anchor_database_instance_id := a_database_instance_id anchor;
     rc_anchor_claim_sequence := a_claim_sequence anchor;
     rc_anchor_claim_digest := a_claim_digest anchor;
     rc_anchor_clock_floor_ns := a_clock_floor_ns anchor;
     rc_anchor_confirmed_at := instant (a_confirmed_at anchor) |}.

(** [_decode]: a constructor's [DomainValidationError] (a [ValueError] too)
    becomes a [RepositoryDataError]. *)
Definition _decode {A} (r : result A) : result A :=
  match r with
  | Ok a => Ok a
  | Err e =>
      if isinstance (exn_cls e) DomainValidationError || isinstance (exn_cls e) TypeError_
         || isinstance (exn_cls e) ValueError_
      then raise RepositoryDataError "persisted authority row is invalid"
      else Err e
  end.

Definition _enum_member {A} `{StrEnum A} (value : pystr) : result A :=
  match enum_of value with
  | Some a => Ok a
  | None => raise RepositoryDataError "persisted authority enum is invalid"
  end.

Section Decoding.
Context `{PgEnv}.

Definition _binding_from_row (r : binding_row) : result AgentAuthorityBinding :=
  population ← _enum_member (rb_population r);
  state ← _enum_member (rb_state r);
  _decode (binding_init
    {| b_binding_id := rb_binding_id r; b_owner_id := rb_owner_id r; b_agent_id := rb_agent_id r;
       b_runtime_id := rb_runtime_id r; b_runtime_generation := rb_runtime_generation r;
       b_population := population; b_tenant_id := rb_tenant_id r;
       b_envelope_id := rb_envelope_id r; b_warden_id := rb_warden_id r;
       b_lease_id := rb_lease_id r; b_lineage_id := rb_lineage_id r;
       b_subject_id := rb_subject_id r; b_policy_digest := rb_policy_digest r;
       b_machine_digest := rb_machine_digest r; b_config_epoch := rb_config_epoch r;
       b_capabilities := rb_capabilities r; b_lease_sequence := rb_lease_sequence r;
       b_lease_expires_at_ns := rb_lease_expires_at_ns r; b_state := state;
       b_created_at := from_timestamptz (rb_created_at r);
       b_updated_at := from_timestamptz (rb_updated_at r); b_version := rb_version r |}).

Definition _lifecycle_from_row (r : lifecycle_row) : result AuthorityLifecycleOperation :=
  kind ← _enum_member (rl_kind r);
  status ← _enum_member (rl_status r);
  _decode (lifecycle_init
    {| l_operation_id := rl_operation_id r; l_owner_id := rl_owner_id r;
       l_binding_id := rl_binding_id r; l_kind := kind;
       l_expected_binding_version := rl_expected_binding_version r;
       l_expected_lease_sequence := rl_expected_lease_sequence r;
       l_request_fingerprint := rl_request_fingerprint r; l_status := status;
       l_remote_request_id := rl_remote_request_id r; l_result_digest := rl_result_digest r;
       l_error_code := rl_error_code r; l_attempt_count := rl_attempt_count r;
       l_next_attempt_at := from_timestamptz <$> rl_next_attempt_at r;
       l_last_attempt_at := from_timestamptz <$> rl_last_attempt_at r;
       l_reconciled_at := from_timestamptz <$> rl_reconciled_at r;
       l_reconciliation_digest := rl_reconciliation_digest r;
       l_created_at := from_timestamptz (rl_created_at r);
       l_updated_at := from_timestamptz (rl_updated_at r); l_version := rl_version r |}).

Definition _effect_from_row (r : effect_row) : result ProtectedEffectOperation :=
  scope ← _enum_member (re_astral_scope r);
  status ← _enum_member (re_status r);
  _decode (effect_init
    {| e_operation_id := re_operation_id r; e_owner_id := re_owner_id r;
       e_agent_id := re_agent_id r; e_binding_id := re_binding_id r; e_tool_id := re_tool_id r;
       e_astral_scope := scope; e_lets_capability := re_lets_capability r;
       e_lets_transition := re_lets_transition r; e_executor_audience := re_executor_audience r;
       e_nonce := re_nonce r; e_effect_digest := re_effect_digest r;
       e_expected_sequence := re_expected_sequence r;
       e_audit_correlation_id := re_audit_correlation_id r; e_status := status;
       e_receipt_id := re_receipt_id r; e_receipt_digest := re_receipt_digest r;
       e_effect_result_digest := re_effect_result_digest r; e_error_code := re_error_code r;
       e_created_at := from_timestamptz (re_created_at r);
       e_updated_at := from_timestamptz (re_updated_at r); e_version := re_version r |}).

Definition _watermark_from_row (r : watermark_row) : result ReceiptSequenceWatermark :=
  _decode (watermark_init
    {| w_warden_id := rw_warden_id r; w_lease_id := rw_lease_id r; w_audience := rw_audience r;
       w_last_sequence := rw_last_sequence r; w_updated_at := from_timestamptz (rw_updated_at r);
       w_expires_at_ns := rw_expires_at_ns r; w_version := rw_version r |}).

Definition _claim_from_row (r : claim_row) : result ReceiptClaim :=
  anchor ← _decode (anchor_init
    {| a_anchor_format := rc_anchor_format r; a_audience := rc_audience r;
       a_tenant_id := rc_tenant_id r; a_envelope_id := rc_envelope_id r;
       a_config_epoch := rc_config_epoch r;
       a_executor_policy_sha256 := rc_anchor_executor_policy_sha256 r;
       a_trust_registry_sha256 := rc_anchor_trust_registry_sha256 r;
       a_schema_version := rc_anchor_schema_version r;
       a_database_instance_id := rc_anchor_database_instance_id r;
       a_claim_sequence := rc_anchor_claim_sequence r;
       a_claim_digest := rc_anchor_claim_digest r;
       a_clock_floor_ns := rc_anchor_clock_floor_ns r;
       a_confirmed_at := from_timestamptz (rc_anchor_confirmed_at r) |});
  _decode (claim_init
    {| c_receipt_id := rc_receipt_id r; c_operation_id := rc_operation_id r;
       c_owner_id := rc_owner_id r; c_binding_id := rc_binding_id r;
       c_tenant_id := rc_tenant_id r; c_envelope_id := rc_envelope_id r;
       c_warden_id := rc_warden_id r; c_lease_id := rc_lease_id r;
       c_subject_id := rc_subject_id r; c_lineage_id := rc_lineage_id r;
       c_policy_digest := rc_policy_digest r; c_machine_digest := rc_machine_digest r;
       c_config_epoch := rc_config_epoch r; c_audience := rc_audience r;
       c_transition := rc_transition r; c_nonce := rc_nonce r;
       c_resulting_sequence := rc_resulting_sequence r;
       c_evidence_digest := rc_evidence_digest r; c_issued_at_ns := rc_issued_at_ns r;
       c_expires_at_ns := rc_expires_at_ns r; c_claimed_at := from_timestamptz (rc_claimed_at r);
       c_canonical_digest := rc_canonical_digest r; c_authority_anchor := anchor |}).
End Decoding.
