(* ===== verification/AuthoritySamples.v ===== *)
(** * Concrete authority values

    One owner's binding before and after activation, a protected effect along
    its life, the receipt that authorises it with its anchor and watermark,
    and a lifecycle operation.  The witnesses of the theorems evaluate the
    definitions on these. *)

From S2P Require Import Prelude Regex Errors Domain Sha256 AuthorityModels.

Definition hex64 (c : N) : pystr := replicate 64 c.
Definition lets (c : N) : pystr := u "sha256:" ++ hex64 c.

Definition sample_provisioning : AgentAuthorityBinding :=
  {| b_binding_id := u "bind-1"; b_owner_id := u "owner-a"; b_agent_id := u "agent-1";
     b_runtime_id := u "runtime-1"; b_runtime_generation := 1; b_population := SERVER_DYNAMIC;
     b_tenant_id := u "tenant-1"; b_envelope_id := u "envelope-1";
     b_warden_id := pending_text (u "bind-1") F_warden;
     b_lease_id := pending_text (u "bind-1") F_lease;
     b_lineage_id := pending_text (u "bind-1") F_lineage;
     b_subject_id := pending_text (u "bind-1") F_subject;
     b_policy_digest := lets 97; b_machine_digest := lets 98; b_config_epoch := 3;
     b_capabilities := [u "files.read"; u "files.write"];
     b_lease_sequence := 0; b_lease_expires_at_ns := 0; b_state := PROVISIONING;
     b_created_at := utc 1000; b_updated_at := utc 1000; b_version := 0 |}.

Definition sample_active : AgentAuthorityBinding :=
  {| b_binding_id := u "bind-1"; b_owner_id := u "owner-a"; b_agent_id := u "agent-1";
     b_runtime_id := u "runtime-1"; b_runtime_generation := 1; b_population := SERVER_DYNAMIC;
     b_tenant_id := u "tenant-1"; b_envelope_id := u "envelope-1";
     b_warden_id := u "warden-1"; b_lease_id := u "lease-1"; b_lineage_id := u "lineage-1";
     b_subject_id := u "subject-1";
     b_policy_digest := lets 97; b_machine_digest := lets 98; b_config_epoch := 3;
     b_capabilities := [u "files.read"; u "files.write"];
     b_lease_sequence := 7; b_lease_expires_at_ns := 90000; b_state := ACTIVE;
     b_created_at := utc 1000; b_updated_at := utc 1500; b_version := 1 |}.

(** An effect of [sample_active] at a given status, receipt, outcome, error
    and version. *)
Definition sample_effect (op nonce : string) (status : ProtectedEffectStatus)
    (receipt : option (pystr * pystr)) (outcome error : option pystr) (updated version : Z)
  : ProtectedEffectOperation :=
  {| e_operation_id := u op; e_owner_id := u "owner-a"; e_agent_id := u "agent-1";
     e_binding_id := u "bind-1"; e_tool_id := u "tool-1"; e_astral_scope := SCOPE_WRITE;
     e_lets_capability := u "files.write"; e_lets_transition := u "write-file";
     e_executor_audience := u "executor-1"; e_nonce := u nonce; e_effect_digest := hex64 99;
     e_expected_sequence := 7; e_audit_correlation_id := u "audit-1"; e_status := status;
     e_receipt_id := fst <$> receipt; e_receipt_digest := snd <$> receipt;
     e_effect_result_digest := outcome; e_error_code := error;
     e_created_at := utc 2000; e_updated_at := utc updated; e_version := version |}.

Definition sample_receipt : option (pystr * pystr) := Some (u "receipt-1", hex64 100).

Definition sample_created : ProtectedEffectOperation :=
  sample_effect "op-1" "nonce-0123456789abcdef" E_CREATED None None None 2000 0.
Definition sample_received : ProtectedEffectOperation :=
  sample_effect "op-1" "nonce-0123456789abcdef" E_RECEIPT_RECEIVED sample_receipt None None 2300 3.
Definition sample_claimed : ProtectedEffectOperation :=
  sample_effect "op-1" "nonce-0123456789abcdef" E_RECEIPT_CLAIMED sample_receipt None None 2400 4.

Definition sample_anchor : ExternalAuthorityAnchorMetadata :=
  {| a_anchor_format := EXECUTOR_ANCHOR_FORMAT; a_audience := u "executor-1";
     a_tenant_id := u "tenant-1"; a_envelope_id := u "envelope-1"; a_config_epoch := 3;
     a_executor_policy_sha256 := hex64 49; a_trust_registry_sha256 := hex64 50;
     a_schema_version := 1; a_database_instance_id := hex64 51; a_claim_sequence := 12;
     a_claim_digest := hex64 52; a_clock_floor_ns := Some 5; a_confirmed_at := utc 2450 |}.

Definition sample_claim : ReceiptClaim :=
  {| c_receipt_id := u "receipt-1"; c_operation_id := u "op-1"; c_owner_id := u "owner-a";
     c_binding_id := u "bind-1"; c_tenant_id := u "tenant-1"; c_envelope_id := u "envelope-1";
     c_warden_id := u "warden-1"; c_lease_id := u "lease-1"; c_subject_id := u "subject-1";
     c_lineage_id := u "lineage-1"; c_policy_digest := lets 97; c_machine_digest := lets 98;
     c_config_epoch := 3; c_audience := u "executor-1"; c_transition := u "write-file";
     c_nonce := u "nonce-0123456789abcdef"; c_resulting_sequence := 8;
     c_evidence_digest := Some (lets 99); c_issued_at_ns := 60000; c_expires_at_ns := 80000;
     c_claimed_at := utc 2400; c_canonical_digest := hex64 100;
     c_authority_anchor := sample_anchor |}.

Definition sample_watermark : ReceiptSequenceWatermark :=
  {| w_warden_id := u "warden-1"; w_lease_id := u "lease-1"; w_audience := u "executor-1";
     w_last_sequence := 8; w_updated_at := utc 2400; w_expires_at_ns := 80000; w_version := 0 |}.

Definition sample_lifecycle (op : string) (status : AuthorityLifecycleStatus) (attempts : Z)
    (next last : option Z) (result_digest error : option pystr) (version : Z)
  : AuthorityLifecycleOperation :=
  {| l_operation_id := u op; l_owner_id := u "owner-a"; l_binding_id := u "bind-1";
     l_kind := K_RENEW; l_expected_binding_version := 1; l_expected_lease_sequence := Some 7;
     l_request_fingerprint := hex64 97; l_status := status; l_remote_request_id := u op;
     l_result_digest := result_digest; l_error_code := error; l_attempt_count := attempts;
     l_next_attempt_at := utc <$> next; l_last_attempt_at := utc <$> last;
     l_reconciled_at := None; l_reconciliation_digest := None;
     l_created_at := utc 3000; l_updated_at := utc 3000; l_version := version |}.

Definition sample_pending_operation : AuthorityLifecycleOperation :=
  sample_lifecycle "life-1" L_PENDING 0 (Some 3100) None None None 0.

Example sample_values_valid :
  binding_init sample_provisioning = Ok sample_provisioning
  /\ binding_init sample_active = Ok sample_active
  /\ effect_init sample_created = Ok sample_created
  /\ effect_init sample_received = Ok sample_received
  /\ effect_init sample_claimed = Ok sample_claimed
  /\ anchor_init sample_anchor = Ok sample_anchor
  /\ claim_init sample_claim = Ok sample_claim
  /\ watermark_init sample_watermark = Ok sample_watermark
  /\ lifecycle_init sample_pending_operation = Ok sample_pending_operation.
Proof. repeat split; vm_compute; reflexivity. Qed.

(** The constructor for a provisioning intent computes the same value. *)
Example sample_provisioning_intent :
  provisioning_intent (u "bind-1") (u "owner-a") (u "agent-1") (u "runtime-1") 1 SERVER_DYNAMIC
    (u "tenant-1") (u "envelope-1") (lets 97) (lets 98) 3 [u "files.read"; u "files.write"]
    (Aware 1500 500) = Ok sample_provisioning.
Proof. vm_compute. reflexivity. Qed.
