(* ===== verification/AuthorityRows.v ===== *)
(** * Authority values and their rows

    What the validators of AuthorityModels.v and the constraints of
    AuthoritySchema.v say about each other: decoding the row of a value gives
    the value back in every session time zone, and the CHECK constraints of
    the schema accept the row of a validated value exactly when its integers
    fit their columns and, for two tables, a condition the Python validator
    does not impose. *)

From S2P Require Import Prelude Regex Errors Domain Sha256 Pg AuthorityModels AuthoritySchema.
From S2P Require Import AuthoritySamples.

(** A value its constructor returned: frozen dataclasses exist only so. *)
#[global] Arguments enum_value : simpl never.
Definition valid_binding (b : AgentAuthorityBinding) : Prop := binding_init b = Ok b.
Definition valid_lifecycle (o : AuthorityLifecycleOperation) : Prop := lifecycle_init o = Ok o.
Definition valid_effect (o : ProtectedEffectOperation) : Prop := effect_init o = Ok o.
Definition valid_watermark (w : ReceiptSequenceWatermark) : Prop := watermark_init w = Ok w.
Definition valid_claim (c : ReceiptClaim) : Prop :=
  claim_init c = Ok c /\ anchor_init (c_authority_anchor c) = Ok (c_authority_anchor c).

(** ** Only the instant of a timestamp matters *)

Lemma require_utc_instant d d' f x :
  require_utc d f = Ok x -> (exists w off, d' = Aware w off) -> instant d' = instant d ->
  require_utc d' f = Ok x.
Proof.
  intros [_ ->]%require_utc_Ok Hd' Hi. apply require_utc_Ok. by rewrite Hi.
Qed.

Lemma optional_utc_instant (o o' : option datetime) f x :
  optional (fun t => require_utc t f) o = Ok x ->
  opt_all (fun t => exists w off, t = Aware w off) o' ->
  instant <$> o' = instant <$> o ->
  optional (fun t => require_utc t f) o' = Ok x.
Proof.
  intros [_ ->]%optional_utc_Ok Ho' Hi. apply optional_utc_Ok. split; [done|].
  destruct o, o'; simplify_eq/=; congruence.
Qed.

Lemma instant_is_Some (o o' : option datetime) :
  instant <$> o = instant <$> o' -> bool_decide (is_Some o) = bool_decide (is_Some o').
Proof. destruct o, o'; simpl; intros [=]; apply bool_decide_ext; split; eauto. Qed.

(** Replay in the goal every step that succeeded in a hypothesis. *)
Ltac replay_ok :=
  repeat match goal with
  | H : ?m = Ok _ |- context [?m ≫= _] => rewrite H; cbn [mbind outcome_mbind outcome_bind]
  | H : ?b = false |- context [raise_if ?b _] => rewrite H; cbn [raise_if mbind outcome_mbind outcome_bind]
  | H : ?b = true |- context [raise_unless ?b _] =>
      rewrite H; cbn [raise_unless mbind outcome_mbind outcome_bind]
  end.

Lemma binding_init_instant b b' c d :
  binding_init b = Ok b' ->
  (exists w off, c = Aware w off) -> (exists w off, d = Aware w off) ->
  instant c = instant (b_created_at b) -> instant d = instant (b_updated_at b) ->
  binding_init (with_binding_times b c d) = Ok b'.
Proof.
  unfold binding_init. intros Hi Hc Hd Ec Ed. inv_ok.
  eapply require_utc_instant in Hs9; [|exact Hc|exact Ec].
  eapply require_utc_instant in Hs10; [|exact Hd|exact Ed].
  change (check_remote_state (with_binding_times b c d)) with (check_remote_state b).
  cbn. replay_ok. by rewrite <- Hi.
Qed.

Lemma lifecycle_init_instant o o' n l r c d :
  lifecycle_init o = Ok o' ->
  opt_all (fun t => exists w off, t = Aware w off) n ->
  opt_all (fun t => exists w off, t = Aware w off) l ->
  opt_all (fun t => exists w off, t = Aware w off) r ->
  (exists w off, c = Aware w off) -> (exists w off, d = Aware w off) ->
  instant <$> n = instant <$> l_next_attempt_at o ->
  instant <$> l = instant <$> l_last_attempt_at o ->
  instant <$> r = instant <$> l_reconciled_at o ->
  instant c = instant (l_created_at o) -> instant d = instant (l_updated_at o) ->
  lifecycle_init (with_lifecycle_times o n l r c d) = Ok o'.
Proof.
  unfold lifecycle_init. intros Hi Hn Hl Hr Hc Hd En El Er Ec Ed. inv_ok.
  eapply optional_utc_instant in Hs9; [|exact Hn|exact En].
  eapply optional_utc_instant in Hs10; [|exact Hl|exact El].
  eapply optional_utc_instant in Hs11; [|exact Hr|exact Er].
  eapply require_utc_instant in Hs13; [|exact Hc|exact Ec].
  eapply require_utc_instant in Hs14; [|exact Hd|exact Ed].
  assert (check_lifecycle_shape (with_lifecycle_times o n l r c d) = Ok v17) as Hshape.
  { rewrite <- Hs17. unfold check_lifecycle_shape. cbn.
    rewrite (instant_is_Some n _ En), (instant_is_Some l _ El), (instant_is_Some r _ Er). done. }
  cbn. cbn in Hs16. replay_ok. by rewrite <- Hi.
Qed.

Lemma effect_init_instant o o' c d :
  effect_init o = Ok o' ->
  (exists w off, c = Aware w off) -> (exists w off, d = Aware w off) ->
  instant c = instant (e_created_at o) -> instant d = instant (e_updated_at o) ->
  effect_init (with_effect_times o c d) = Ok o'.
Proof.
  unfold effect_init. intros Hi Hc Hd Ec Ed. inv_ok.
  eapply require_utc_instant in Hs9; [|exact Hc|exact Ec].
  eapply require_utc_instant in Hs10; [|exact Hd|exact Ed].
  change (check_effect_shape (with_effect_times o c d)) with (check_effect_shape o).
  cbn. replay_ok. by rewrite <- Hi.
Qed.

Lemma anchor_init_instant a a' t :
  anchor_init a = Ok a' -> (exists w off, t = Aware w off) ->
  instant t = instant (a_confirmed_at a) ->
  anchor_init (with_anchor_time a t) = Ok a'.
Proof.
  unfold anchor_init. intros Hi Ht Et. inv_ok.
  eapply require_utc_instant in Hs10; [|exact Ht|exact Et].
  cbn. replay_ok. by rewrite <- Hi.
Qed.

Lemma claim_init_instant c c' t :
  claim_init c = Ok c' -> (exists w off, t = Aware w off) ->
  instant t = instant (c_claimed_at c) ->
  claim_init (with_claim_time c t) = Ok c'.
Proof.
  unfold claim_init. intros Hi Ht Et. inv_ok.
  eapply require_utc_instant in Hs8; [|exact Ht|exact Et].
  cbn. replay_ok. by rewrite <- Hi.
Qed.

Definition with_watermark_time (w : ReceiptSequenceWatermark) (t : datetime)
  : ReceiptSequenceWatermark :=
  {| w_warden_id := w_warden_id w; w_lease_id := w_lease_id w; w_audience := w_audience w;
     w_last_sequence := w_last_sequence w; w_updated_at := t;
     w_expires_at_ns := w_expires_at_ns w; w_version := w_version w |}.

Lemma watermark_init_instant w w' t :
  watermark_init w = Ok w' -> (exists x off, t = Aware x off) ->
  instant t = instant (w_updated_at w) ->
  watermark_init (with_watermark_time w t) = Ok w'.
Proof.
  unfold watermark_init. intros Hi Ht Et. inv_ok.
  eapply require_utc_instant in Hs3; [|exact Ht|exact Et].
  cbn. replay_ok. by rewrite <- Hi.
Qed.

(** ** Round trips *)

Section RoundTrip.
Context `{PgEnv}.

Lemma from_timestamptz_aware t : exists w off, from_timestamptz t = Aware w off.
Proof. unfold from_timestamptz. eauto. Qed.

Lemma from_timestamptz_opt_aware (o : option Z) :
  opt_all (fun t => exists w off, t = Aware w off) (from_timestamptz <$> o).
Proof. destruct o; simpl; [apply from_timestamptz_aware | done]. Qed.

Lemma instant_from_timestamptz_opt (o : option datetime) :
  instant <$> (from_timestamptz <$> (instant <$> o)) = instant <$> o.
Proof. destruct o; simpl; [f_equal; lia | done]. Qed.

Lemma enum_member_value {A} `{StrEnum A} (a : A) : _enum_member (enum_value a) = Ok a.
Proof. unfold _enum_member. by rewrite enum_of_value. Qed.

Lemma binding_roundtrip b :
  valid_binding b -> _binding_from_row (_binding_values b) = Ok b.
Proof.
  intros Hv. unfold _binding_from_row. cbn [_binding_values rb_population rb_state].
  rewrite !enum_member_value. cbn [mbind outcome_mbind outcome_bind].
  apply (binding_init_instant b b
           (from_timestamptz (instant (b_created_at b)))
           (from_timestamptz (instant (b_updated_at b)))) in Hv;
    [|apply from_timestamptz_aware..|apply instant_from_timestamptz|apply instant_from_timestamptz].
  unfold _decode. unfold with_binding_times in Hv. cbn. by rewrite Hv.
Qed.

Lemma lifecycle_roundtrip o :
  valid_lifecycle o -> _lifecycle_from_row (_lifecycle_values o) = Ok o.
Proof.
  intros Hv. unfold _lifecycle_from_row. cbn [_lifecycle_values rl_kind rl_status].
  rewrite !enum_member_value. cbn [mbind outcome_mbind outcome_bind].
  apply (lifecycle_init_instant o o
           (from_timestamptz <$> (instant <$> l_next_attempt_at o))
           (from_timestamptz <$> (instant <$> l_last_attempt_at o))
           (from_timestamptz <$> (instant <$> l_reconciled_at o))
           (from_timestamptz (instant (l_created_at o)))
           (from_timestamptz (instant (l_updated_at o)))) in Hv;
    auto using from_timestamptz_aware, from_timestamptz_opt_aware, instant_from_timestamptz,
      instant_from_timestamptz_opt.
  unfold _decode. unfold with_lifecycle_times in Hv. cbn. by rewrite Hv.
Qed.

Lemma effect_roundtrip o :
  valid_effect o -> _effect_from_row (_effect_values o) = Ok o.
Proof.
  intros Hv. unfold _effect_from_row. cbn [_effect_values re_astral_scope re_status].
  rewrite !enum_member_value. cbn [mbind outcome_mbind outcome_bind].
  apply (effect_init_instant o o
           (from_timestamptz (instant (e_created_at o)))
           (from_timestamptz (instant (e_updated_at o)))) in Hv;
    auto using from_timestamptz_aware, instant_from_timestamptz.
  unfold _decode. unfold with_effect_times in Hv. cbn. by rewrite Hv.
Qed.

Lemma watermark_roundtrip w :
  valid_watermark w -> _watermark_from_row (watermark_values w) = Ok w.
Proof.
  intros Hv. apply (watermark_init_instant _ _ (from_timestamptz (instant (w_updated_at w)))) in Hv;
    [|apply from_timestamptz_aware|apply instant_from_timestamptz].
  unfold with_watermark_time in Hv. unfold _watermark_from_row, _decode. cbn. by rewrite Hv.
Qed.

Lemma claim_roundtrip c :
  valid_claim c -> _claim_from_row (_claim_values c) = Ok c.
Proof.
  intros [Hc Ha].
  assert (exists t, claim_init c = Ok (with_claim_time c t)
    /\ (a_audience (c_authority_anchor c), a_tenant_id (c_authority_anchor c),
        a_envelope_id (c_authority_anchor c), a_config_epoch (c_authority_anchor c))
       = (c_audience c, c_tenant_id c, c_envelope_id c, c_config_epoch c)) as (_ & _ & Hid).
  { rewrite Hc. unfold claim_init in Hc. inv_ok. exists (c_claimed_at c).
    split; [by destruct c|]. split_bools. by apply dec_stable. }
  injection Hid as Ea Et Ee Eg.
  apply (anchor_init_instant _ _
           (from_timestamptz (instant (a_confirmed_at (c_authority_anchor c))))) in Ha;
    [|apply from_timestamptz_aware|apply instant_from_timestamptz].
  apply (claim_init_instant _ _ (from_timestamptz (instant (c_claimed_at c)))) in Hc;
    [|apply from_timestamptz_aware|apply instant_from_timestamptz].
  unfold with_anchor_time in Ha. rewrite Ea, Et, Ee, Eg in Ha.
  unfold with_claim_time in Hc.
  unfold _claim_from_row, _decode. cbn. rewrite Ha. cbn. by rewrite Hc.
Qed.

(** C38: decoding the row that a validated value is stored as gives the value
    back, for all five authority values and in every session time zone. *)
Theorem authority_row_roundtrip :
  (forall b, valid_binding b -> _binding_from_row (_binding_values b) = Ok b)
  /\ (forall o, valid_lifecycle o -> _lifecycle_from_row (_lifecycle_values o) = Ok o)
  /\ (forall o, valid_effect o -> _effect_from_row (_effect_values o) = Ok o)
  /\ (forall w, valid_watermark w -> _watermark_from_row (watermark_values w) = Ok w)
  /\ (forall c, valid_claim c -> _claim_from_row (_claim_values c) = Ok c).
Proof.
  split_and!; auto using binding_roundtrip, lifecycle_roundtrip, effect_roundtrip,
    watermark_roundtrip, claim_roundtrip.
Qed.
End RoundTrip.

Lemma authority_row_roundtrip_witness :
  valid_binding sample_active /\ valid_claim sample_claim
  /\ _binding_from_row (_binding_values sample_active) = Ok sample_active
  /\ _claim_from_row (_claim_values sample_claim) = Ok sample_claim.
Proof.
  assert (valid_binding sample_active) by (vm_compute; reflexivity).
  assert (valid_claim sample_claim) by (split; vm_compute; reflexivity).
  destruct authority_row_roundtrip as (Hb & _ & _ & _ & Hc). auto.
Defined.

(** ** The CHECK constraints accept validated values *)

Lemma strictly_increasing_sorted l :
  sort_by str_leb l = l -> NoDup l -> strictly_increasing l = true.
Proof.
  intros Hs Hnd.
  pose proof (sort_by_sorted str_leb l str_leb_total str_leb_trans) as HS. rewrite Hs in HS.
  clear Hs. induction HS as [|a l HS IH HF]; [done|].
  inversion Hnd as [|? ? Ha Hnd']; subst. destruct l as [|b l]; [done|].
  change (strictly_increasing (a :: b :: l)) with (str_ltb a b && strictly_increasing (b :: l)).
  rewrite (IH Hnd'), andb_true_r.
  inversion HF as [|? ? Hab _]; subst. unfold str_ltb. apply negb_true_iff.
  destruct (str_leb b a) eqn:Hba; [|done]. exfalso. apply Ha.
  rewrite (str_leb_antisym a b); [by left | exact Hab | done].
Qed.

Lemma capabilities_canonical_ok l l' :
  _canonical_capabilities l = Ok l' -> capabilities_are_canonical l = true.
Proof.
  intros (Hne & HF & Hs & Hnd & _)%canonical_capabilities_Ok.
  unfold capabilities_are_canonical. rewrite (bool_decide_eq_true_2 _ Hne). simpl.
  rewrite (strictly_increasing_sorted l Hs Hnd), andb_true_r.
  apply forallb_forall. intros x Hx. rewrite Forall_forall in HF. by apply HF, list_elem_of_In.
Qed.

Lemma forallb_identifiers (l : list (string * pystr)) :
  Forall (fun fv => is_identifier (snd fv) = true) l ->
  forallb identifier_is_canonical (snd <$> l) = true.
Proof.
  intros HF. apply forallb_forall. intros s Hs. apply list_elem_of_In in Hs.
  apply list_elem_of_fmap in Hs as (fv & -> & Hfv). rewrite Forall_forall in HF. by apply HF.
Qed.

Lemma sha256_prefix_hex data :
  length (take 32 (sha256_hex data)) = 32%nat
  /\ Forall (fun c => is_hex c = true) (take 32 (sha256_hex data)).
Proof.
  pose proof (sha256_hex_format data) as [Hl HF]%hex64_spec.
  rewrite length_take, Hl. split; [done|]. by apply Forall_take.
Qed.

Lemma pending_text_column i f : fullmatch (pending_column_re f) (pending_text i f) = true.
Proof.
  apply fullmatch_lang. unfold pending_column_re.
  destruct (sha256_prefix_hex (PENDING_ID_DOMAIN ++ i)) as [Hl HF].
  exists (PENDING_ID_PREFIX ++ u (field_text f) ++ u ":"),
         (take 32 (sha256_hex (PENDING_ID_DOMAIN ++ i))).
  split; [unfold pending_text; by rewrite !app_assoc|]. split; [done|].
  split; [rewrite Hl; lia | done].
Qed.

Lemma text_in_enum {A} `{StrEnum A} (a : A) (l : list string) :
  text_in (enum_value a) l = existsb (fun t => bool_decide (enum_value a = u t)) l.
Proof.
  unfold text_in. induction l as [|t l IH]; [done|]. simpl. rewrite <- IH.
  apply eq_true_iff_eq. rewrite orb_true_iff, !bool_decide_eq_true, elem_of_cons. done.
Qed.

Lemma remote_state_check b :
  is_identifier (b_binding_id b) = true -> 0 <= b_lease_expires_at_ns b ->
  check_remote_state b = Ok () ->
  check_binding_remote_state (_binding_values b) = true.
Proof.
  intros Hid Hexp. unfold check_remote_state, pending_authority_identity, require_identifier.
  rewrite Hid. cbn [mbind outcome_mbind outcome_bind].
  unfold check_binding_remote_state. cbn [_binding_values rb_state rb_warden_id rb_lease_id
    rb_lineage_id rb_subject_id rb_lease_sequence rb_lease_expires_at_ns].
  destruct (has_pending_identity b) eqn:Hp; rewrite ?andb_true_r, ?andb_false_r.
  - case_bool_decide as Hst; [|case_bool_decide as Hpv; [done|by intros Hx; inv_ok]].
    intros Hx. inv_ok. split_bools. apply dec_stable in Hs. injection Hs as -> -> -> ->.
    apply orb_true_iff. left. rewrite !pending_text_column. apply Z.eqb_eq in H, H0. rewrite H, H0. simpl.
    rewrite !andb_true_r. set_unfold in Hst. destruct Hst as [->|[->|[]]]; done.
  - case_bool_decide as Hst; [done|]. intros Hx. inv_ok. clear Hs. split_bools.
    apply orb_true_iff. right. unfold has_pending_identity in Hp. cbn in Hp.
    rewrite !orb_false_iff in Hp. destruct Hp as (-> & -> & -> & -> & _). simpl.
    apply andb_true_iff. split; [|apply Z.ltb_lt; lia].
    rewrite !andb_true_r. apply negb_true_iff, bool_decide_eq_false. intros Heq.
    apply Hst. by apply (enum_value_inj (b_state b) PROVISIONING).
Qed.

Lemma binding_checks_valid b :
  valid_binding b -> binding_checks (_binding_values b) = true.
Proof.
  unfold valid_binding, binding_init. intros Hi. inv_ok.
  apply require_identifiers_Ok in Hs. apply positive_integer_Ok in Hs0 as [? _], Hs3 as [? _].
  apply lets_digest_Ok in Hs1 as [Hp _], Hs2 as [Hm _].
  apply capabilities_canonical_ok in Hs4.
  apply non_negative_integer_Ok in Hs5 as [? _], Hs6 as [? _], Hs7 as [? _].
  apply require_utc_Ok in Hs9 as [_ ->], Hs10 as [_ ->].
  assert (is_identifier (b_binding_id b) = true) as Hid by (by inversion Hs).
  destruct v8. apply remote_state_check in Hs8; [|done|done].
  unfold binding_checks. rewrite Hs8, andb_true_r.
  unfold check_binding_identity, check_binding_numeric. apply forallb_identifiers in Hs.
  cbn in Hs |- *. rewrite Hs, Hs4. unfold is_lets_digest in *. rewrite Hp, Hm.
  cbn in Hs11. split_bools. clear Hi.
  repeat (apply andb_true_iff; split); try done; try (by apply Z.ltb_lt || by apply Z.leb_le).
  - by destruct (b_population b).
  - by destruct (b_state b).
  - apply Z.leb_le. lia.
Qed.

(** The outcome columns of a lifecycle operation that has not finished:
    Python accepts them set, the constraint
    [astralplane_authority_lifecycle_result_check] does not. *)
Definition early_outcome (o : AuthorityLifecycleOperation) : bool :=
  bool_decide (l_status o ∈ [L_PENDING; L_IN_FLIGHT])
  && (negb (is_null (l_result_digest o)) || negb (is_null (l_error_code o))).

Lemma is_Some_null {A} (o : option A) : bool_decide (is_Some o) = negb (is_null o).
Proof. destruct o; simpl; [by apply bool_decide_eq_true_2 | by apply bool_decide_eq_false_2; intros [? ?]]. Qed.

Lemma null_fmap {A B} (f : A -> B) (o : option A) : is_null (f <$> o) = is_null o.
Proof. by destruct o. Qed.

Section LifecycleChecks.
Variable o : AuthorityLifecycleOperation.
Hypothesis Hshape : check_lifecycle_shape o = Ok ().
Hypothesis Hcount : 0 <= l_attempt_count o.

Lemma lifecycle_attempt_valid : check_lifecycle_attempt (_lifecycle_values o) = true.
Proof.
  clear -Hshape Hcount. unfold check_lifecycle_shape in Hshape. inv_ok. clear Hs3 Hs2 Hs4 Hshape.
  rewrite !is_Some_null in *. unfold check_lifecycle_attempt. cbn. rewrite null_fmap.
  destruct (Z.eqb_spec (l_attempt_count o) 0) as [E|E].
  - rewrite E in *. cbn in *. destruct (is_null (l_last_attempt_at o)); [|done].
    rewrite andb_true_r in Hs1. split_bools. apply dec_stable in Hs1. rewrite Hs1. done.
  - assert ((0 <? l_attempt_count o) = true) as Hpos by (apply Z.ltb_lt; lia).
    rewrite Hpos in *. cbn in *. destruct (is_null (l_last_attempt_at o)); [done|].
    by rewrite orb_true_r.
Qed.

Lemma lifecycle_reconciliation_valid :
  check_lifecycle_reconciliation (_lifecycle_values o) = true.
Proof.
  clear -Hshape. unfold check_lifecycle_shape in Hshape. inv_ok.
  rewrite !is_Some_null in *. unfold check_lifecycle_reconciliation. cbn. rewrite null_fmap.
  clear Hs Hs0 Hs1 Hs2 Hs3 Hshape. revert Hs4.
  destruct (is_null (l_reconciled_at o)), (is_null (l_reconciliation_digest o)),
    (is_null (l_result_digest o)), (is_null (l_error_code o)), (l_status o); vm_compute; done.
Qed.

Lemma lifecycle_result_valid :
  negb (is_null (l_result_digest o)) && negb (is_null (l_error_code o)) = false ->
  check_lifecycle_result (_lifecycle_values o) = negb (early_outcome o).
Proof.
  intros Hex. clear Hcount. unfold check_lifecycle_shape in Hshape. inv_ok.
  rewrite !is_Some_null in *. unfold check_lifecycle_result, early_outcome. cbn.
  clear Hs Hs0 Hs1 Hshape. revert Hex Hs2 Hs3 Hs4.
  destruct (is_null (l_reconciled_at o)), (is_null (l_reconciliation_digest o)),
    (is_null (l_result_digest o)), (is_null (l_error_code o)), (l_status o); vm_compute; done.
Qed.

Lemma lifecycle_next_valid :
  negb (text_in (enum_value (l_status o)) ["succeeded"; "failed"; "reconciled"])
  || is_null (l_next_attempt_at o) = true.
Proof.
  clear -Hshape. unfold check_lifecycle_shape in Hshape. inv_ok.
  rewrite is_Some_null in Hshape. clear -Hshape.
  destruct (l_status o); try done; cbn in Hshape; by destruct (is_null (l_next_attempt_at o)).
Qed.
End LifecycleChecks.

Lemma null_or_opt_all {A} (p : A -> bool) (o : option A) :
  null_or p o = true <-> opt_all (fun a => p a = true) o.
Proof. by destruct o. Qed.

Lemma precedes_false (o : option datetime) c :
  precedes o c = false -> null_or (fun t => instant c <=? t) (instant <$> o) = true.
Proof. destruct o; simpl; [|done]. intros H. apply Z.leb_le. by apply Z.ltb_ge in H. Qed.

Lemma lifecycle_checks_valid o :
  valid_lifecycle o -> lifecycle_checks (_lifecycle_values o) = negb (early_outcome o).
Proof.
  unfold valid_lifecycle, lifecycle_init. intros Hi. inv_ok.
  apply require_identifiers_Ok in Hs. apply non_negative_integer_Ok in Hs1 as [? _], Hs4 as [? _], Hs5 as [? _].
  apply (optional_id_Ok (fun z => 0 <= z)) in Hs2 as [Hels _]; [|intros; apply non_negative_integer_Ok].
  apply require_sha256_Ok in Hs3 as [Hfp _].
  apply (optional_id_Ok (fun d => is_sha256 d = true)) in Hs6 as [Hrd _]; [|intros; apply require_sha256_Ok].
  apply (optional_id_Ok (fun d => is_identifier d = true)) in Hs7 as [Hec _]; [|intros; apply require_identifier_Ok].
  apply (optional_id_Ok (fun d => is_sha256 d = true)) in Hs12 as [Hrcd _]; [|intros; apply require_sha256_Ok].
  apply optional_utc_Ok in Hs9 as [_ Hn], Hs10 as [_ Hl], Hs11 as [_ Hr].
  apply require_utc_Ok in Hs13 as [_ Hc], Hs14 as [_ Hu].
  destruct v17. pose proof (lifecycle_attempt_valid o Hs17 H0) as Hatt.
  pose proof (lifecycle_reconciliation_valid o Hs17) as Hrec.
  pose proof (lifecycle_next_valid o Hs17) as Hnext.
  rewrite !is_Some_null in Hs8. pose proof (lifecycle_result_valid o Hs17 Hs8) as Hres.
  assert (v9 = l_next_attempt_at o) as -> by (by rewrite <- Hi).
  assert (v10 = l_last_attempt_at o) as -> by (by rewrite <- Hi).
  assert (v11 = l_reconciled_at o) as -> by (by rewrite <- Hi).
  assert (v13 = l_created_at o) as -> by (by rewrite <- Hi).
  assert (v14 = l_updated_at o) as -> by (by rewrite <- Hi).
  assert (check_lifecycle_time (_lifecycle_values o) = true) as Htime.
  { unfold check_lifecycle_time. cbn. rewrite null_fmap, Hnext, andb_true_r.
    cbn in Hs16. inv_ok. rewrite !precedes_false by done. split_bools.
    rewrite !andb_true_r. apply Z.leb_le. lia. }
  unfold lifecycle_checks. rewrite Hatt, Hrec, Hres, Htime, !andb_true_r.
  assert (check_lifecycle_identity (_lifecycle_values o) = true) as ->.
  { unfold check_lifecycle_identity. apply forallb_identifiers in Hs. cbn in Hs |- *. rewrite Hs.
    split_bools. apply dec_stable in Hs0. rewrite (bool_decide_eq_true_2 _ Hs0).
    by apply null_or_opt_all. }
  cbn. unfold is_sha256 in *. rewrite Hfp.
  apply null_or_opt_all in Hrd as ->, Hrcd as ->.
  assert (null_or (fun z => 0 <=? z) (l_expected_lease_sequence o) = true) as ->.
  { apply null_or_opt_all. destruct (l_expected_lease_sequence o); [by apply Z.leb_le | done]. }
  apply Z.leb_le in H as ->, H0 as ->, H1 as ->.
  by destruct (l_kind o), (l_status o).
Qed.

(** A stripped text has no leading or trailing blank. *)
Lemma drop_spaces_suffix s : exists p, s = p ++ drop_spaces s.
Proof.
  induction s as [|c s [p IH]]; simpl; [by exists []|].
  case_match; [exists (c :: p); simpl; by f_equal | by exists []].
Qed.

Lemma drop_blanks_id s : drop_spaces s = s -> drop_blanks s = s.
Proof.
  destruct s as [|c s]; [done|]. simpl. destruct (N.eqb_spec c 32) as [->|]; [|done].
  change (py_isspace 32) with true. cbn. intros Heq. exfalso.
  destruct (drop_spaces_suffix s) as [p Hp]. rewrite Heq in Hp.
  apply (f_equal length) in Hp. rewrite length_app in Hp. simpl in Hp. lia.
Qed.

Lemma length_drop_spaces s : (length (drop_spaces s) <= length s)%nat.
Proof. induction s; simpl; [done|]. case_match; simpl; lia. Qed.

Lemma py_strip_btrim s : s = py_strip s -> s = btrim s.
Proof.
  intros Hs. unfold py_strip in Hs. unfold btrim.
  assert (drop_spaces s = s) as H1.
  { destruct (drop_spaces_suffix s) as [p Hp].
    pose proof (length_drop_spaces (reverse (drop_spaces s))) as Hl.
    rewrite length_reverse in Hl. apply (f_equal length) in Hs as Hs'.
    rewrite length_reverse in Hs'. destruct p; [done|].
    apply (f_equal length) in Hp. rewrite length_app in Hp. simpl in Hp. lia. }
  rewrite H1 in Hs. rewrite (drop_blanks_id s H1).
  assert (drop_spaces (reverse s) = reverse s) as H2.
  { by rewrite <- (reverse_involutive (drop_spaces _)), <- Hs. }
  by rewrite (drop_blanks_id _ H2), reverse_involutive.
Qed.

Lemma effect_shape_valid o :
  check_effect_shape o = Ok () ->
  check_effect_receipt_shape (_effect_values o) && check_effect_result_shape (_effect_values o)
  = true.
Proof.
  unfold check_effect_shape. intros Hs. inv_ok. rewrite !is_Some_null in *.
  unfold check_effect_receipt_shape, check_effect_result_shape. cbn.
  revert Hs Hs0 Hs1 Hs2 Hs3 Hs4 Hs5.
  destruct (is_null (e_receipt_id o)), (is_null (e_receipt_digest o)),
    (is_null (e_error_code o)), (is_null (e_effect_result_digest o)), (e_status o);
    vm_compute; done.
Qed.

Section StoredEffects.
Context `{PgEnv}.

Lemma effect_checks_valid o :
  valid_effect o -> effect_checks (_effect_values o) = negb (existsb pg_cntrl (e_nonce o)).
Proof.
  unfold valid_effect, effect_init. intros Hi. inv_ok.
  apply require_identifiers_Ok in Hs. unfold _effect_nonce in Hs0. inv_ok.
  apply require_sha256_Ok in Hs1 as [Hed _].
  apply non_negative_integer_Ok in Hs2 as [? _], Hs3 as [? _].
  apply (optional_id_Ok (fun d => is_identifier d = true)) in Hs4 as [Hri _]; [|intros; apply require_identifier_Ok].
  apply (optional_id_Ok (fun d => is_sha256 d = true)) in Hs5 as [Hrd _]; [|intros; apply require_sha256_Ok].
  apply (optional_id_Ok (fun d => is_sha256 d = true)) in Hs6 as [Hod _]; [|intros; apply require_sha256_Ok].
  apply (optional_id_Ok (fun d => is_identifier d = true)) in Hs7 as [Hec _]; [|intros; apply require_identifier_Ok].
  destruct v8. apply effect_shape_valid in Hs8. apply andb_true_iff in Hs8 as [Hrs Hos].
  assert (v9 = e_created_at o) as -> by (by rewrite <- Hi).
  assert (v10 = e_updated_at o) as -> by (by rewrite <- Hi).
  apply orb_false_iff in Hs13 as [Hst _]. split_bools. apply dec_stable in Hst.
  apply py_strip_btrim in Hst.
  unfold effect_checks, check_effect_identity, check_effect_nonce. rewrite Hrs, Hos.
  apply forallb_identifiers in Hs. cbn -[Nat.leb] in Hs |- *.
  rewrite Hs, (bool_decide_eq_true_2 _ Hst).
  unfold is_sha256 in *. rewrite Hed.
  change is_identifier with identifier_is_canonical in *.
  apply null_or_opt_all in Hri as ->, Hrd as ->, Hod as ->, Hec as ->.
  apply Z.leb_le in H0 as ->, H1 as ->. rewrite H2, H3, (proj2 (Z.leb_le _ _) Hs11).
  rewrite !andb_true_r. by destruct (existsb _ _), (e_astral_scope o), (e_status o).
Qed.
End StoredEffects.

Lemma is_int8_from m z : 0 <= m -> m <= z <= int8_max -> is_int8 z = true.
Proof. intros Hm Hz. unfold is_int8. apply andb_true_iff. rewrite !Z.leb_le. unfold int8_max in *. lia. Qed.

Lemma watermark_row_valid w :
  valid_watermark w -> check_watermark_row (watermark_values w) = Ok ().
Proof.
  unfold valid_watermark, watermark_init. intros Hi. inv_ok.
  apply require_identifiers_Ok in Hs. apply forallb_identifiers in Hs.
  apply integer_Ok in Hs0 as [? _], Hs1 as [? _], Hs2 as [? _].
  unfold check_watermark_row, watermark_columns, watermark_checks, watermark_values.
  cbn in Hs |- *. rewrite Hs.
  rewrite (is_int8_from 1 (w_last_sequence w)), (is_int8_from 1 (w_expires_at_ns w)),
    (is_int8_from 0 (w_version w)) by lia.
  rewrite !(proj2 (Z.ltb_lt 0 _)), (proj2 (Z.leb_le 0 _)) by lia. done.
Qed.

Lemma anchor_init_facts a a' :
  anchor_init a = Ok a' ->
  a_anchor_format a = EXECUTOR_ANCHOR_FORMAT
  /\ forallb (fullmatch hex64_re)
       [a_executor_policy_sha256 a; a_trust_registry_sha256 a; a_database_instance_id a;
        a_claim_digest a] = true
  /\ 1 <= a_schema_version a <= int8_max /\ 0 <= a_claim_sequence a <= int8_max
  /\ opt_all (fun z => 0 <= z <= int8_max) (a_clock_floor_ns a).
Proof.
  unfold anchor_init. intros Ha. inv_ok. split_bools. apply dec_stable in Hs.
  apply integer_Ok in Hs4 as [? _], Hs6 as [? _].
  apply require_sha256_Ok in Hs2 as [H2 _], Hs3 as [H3 _], Hs5 as [H5 _], Hs7 as [H7 _].
  apply (optional_id_Ok (fun z => 0 <= z <= int8_max)) in Hs9 as [? _]; [|intros; apply integer_Ok].
  split_and!; try done; try lia. unfold is_sha256 in *. cbn. by rewrite H2, H3, H5, H7.
Qed.

Lemma claim_row_valid c :
  valid_claim c -> check_claim_row (_claim_values c) = Ok ().
Proof.
  intros [Hc (Hfmt & Hhex & Hsv & Hcs & Hcf)%anchor_init_facts]. unfold claim_init in Hc. inv_ok.
  apply require_identifiers_Ok in Hs. apply forallb_identifiers in Hs.
  apply lets_digest_Ok in Hs0 as [Hp _], Hs1 as [Hm _].
  apply (optional_id_Ok (fun d => is_lets_digest d = true)) in Hs2 as [He _]; [|intros; apply lets_digest_Ok].
  apply integer_Ok in Hs3 as [? _], Hs4 as [? _], Hs5 as [? ->], Hs6 as [? ->].
  apply require_sha256_Ok in Hs9 as [Hcd _].
  assert (v8 = c_claimed_at c) as -> by (by rewrite <- Hc).
  clear Hc Hs8 Hs10. split_bools.
  destruct (a_clock_floor_ns (c_authority_anchor c)) as [z|] eqn:Hz; [|by destruct Hs12].
  unfold check_claim_row, claim_columns, claim_checks, check_claim_identity, check_claim_digests,
    check_claim_numeric, check_claim_anchor. cbn in Hs, Hhex, Hcf |- *. split_bools.
  rewrite Hz, (bool_decide_eq_true_2 _ Hfmt). cbn.
  rewrite (is_int8_from 1 (c_config_epoch c)), (is_int8_from 1 (c_resulting_sequence c)),
    (is_int8_from 0 (c_issued_at_ns c)), (is_int8_from 1 (c_expires_at_ns c)),
    (is_int8_from 1 (a_schema_version _)), (is_int8_from 0 (a_claim_sequence _)),
    (is_int8_from 0 z) by lia.
  unfold is_lets_digest, is_sha256 in *. apply null_or_opt_all in He as ->. cbn.
  rewrite !(proj2 (Z.ltb_lt _ _)), !(proj2 (Z.leb_le _ _)) by lia.
  rewrite Hp, Hm, Hcd. repeat match goal with H : fullmatch _ _ = true |- _ => rewrite H end.
  repeat match goal with H : identifier_is_canonical _ = true |- _ => rewrite H end.
  done.
Qed.

Lemma check_row_Ok columns checks :
  (column_range columns ;; check_constraint checks) = Ok () <-> columns && checks = true.
Proof. by destruct columns, checks. Qed.

Section Constraints.
Context `{PgEnv}.

(** The DDL's column types and CHECK constraints accept the row of a
    validated value: always for a watermark and a receipt claim, and for the
    others exactly when the integers fit their columns, a lifecycle operation
    in flight carries no outcome, and an effect nonce has no control character
    of the server's locale. *)
Theorem check_constraints_exact :
  (forall b, valid_binding b ->
     check_binding_row (_binding_values b) = Ok () <->
     binding_columns (_binding_values b) = true)
  /\ (forall o, valid_lifecycle o ->
     check_lifecycle_row (_lifecycle_values o) = Ok () <->
     lifecycle_columns (_lifecycle_values o) = true /\ early_outcome o = false)
  /\ (forall o, valid_effect o ->
     check_effect_row (_effect_values o) = Ok () <->
     effect_columns (_effect_values o) = true /\ existsb pg_cntrl (e_nonce o) = false)
  /\ (forall w, valid_watermark w -> check_watermark_row (watermark_values w) = Ok ())
  /\ (forall c, valid_claim c -> check_claim_row (_claim_values c) = Ok ()).
Proof.
  split_and!; auto using watermark_row_valid, claim_row_valid; intros x Hx.
  - unfold check_binding_row. by rewrite check_row_Ok, binding_checks_valid, andb_true_r.
  - unfold check_lifecycle_row.
    by rewrite check_row_Ok, lifecycle_checks_valid, andb_true_iff, negb_true_iff.
  - unfold check_effect_row.
    by rewrite check_row_Ok, effect_checks_valid, andb_true_iff, negb_true_iff.
Qed.
End Constraints.

(** The lifecycle condition is a real one: an operation in flight with an
    error code is a valid value that the table rejects. *)
Definition sample_early_outcome : AuthorityLifecycleOperation :=
  sample_lifecycle "life-2" L_IN_FLIGHT 1 None (Some 3000) None (Some (u "timeout")) 1.

Lemma check_constraints_exact_witness :
  check_effect_row (_effect_values sample_received) = Ok ()
  /\ check_claim_row (_claim_values sample_claim) = Ok ()
  /\ valid_lifecycle sample_early_outcome
  /\ check_lifecycle_row (_lifecycle_values sample_early_outcome) <> Ok ().
Proof.
  destruct (check_constraints_exact) as (_ & Hl & He & _ & Hc).
  assert (valid_lifecycle sample_early_outcome) as Hv by (vm_compute; reflexivity).
  split; [|split; [|split; [exact Hv|]]].
  - apply He; [vm_compute; reflexivity|]. split; vm_compute; reflexivity.
  - apply Hc. split; vm_compute; reflexivity.
  - intros H. apply (Hl _ Hv) in H as [_ H]. vm_compute in H. discriminate H.
Defined.
