(* ===== verification/Outbox.v ===== *)
(** * Transactional outbox (src/src/astralplane/outbox.py)

    [PostgresOutboxStore] over the table astralplane_outbox: enqueue, claim
    under a lease, the three fenced settlements ack, retry and dead_letter,
    and reclaiming expired leases.  The table is a list of rows in insertion
    order; each method is a program of the session monad of Pg.v, with one
    statement per SQL constant. *)

From S2P Require Import Prelude Regex Errors Domain Sha256 Pg.

(** ** Values (contracts/__init__.py) *)

Record OutboxEntry : Type := {
  oe_entry_id : pystr;
  oe_topic : pystr;
  oe_canonical_payload : list N;
  oe_payload_sha256 : pystr;
  oe_idempotency_key : pystr;
  oe_available_at : datetime
}.
#[global] Instance OutboxEntry_eq_dec : EqDecision OutboxEntry.
Proof. solve_decision. Defined.

Record ClaimedOutboxEntry : Type := {
  co_entry : OutboxEntry;
  co_worker_id : pystr;
  co_lease_expires_at : datetime;
  co_expected_version : Z;
  co_attempt : Z
}.

Record ReclaimedOutboxEntry : Type := {
  ri_entry_id : pystr;
  ri_previous_worker_id : pystr;
  ri_expected_version : Z;
  ri_available_at : datetime
}.

(** The row count and returned entry ids of a command. *)
Record command_result : Type := CommandResult { cr_rowcount : Z; cr_returned : list pystr }.

(** ** The table astralplane_outbox (database/migrations.py) *)

(** The CHECK on [status] makes the column an enumeration. *)
Inductive outbox_status : Type := O_pending | O_retry | O_claimed | O_succeeded | O_dead_letter.
#[global] Instance outbox_status_eq_dec : EqDecision outbox_status.
Proof. solve_decision. Defined.

Record outbox_row : Type := {
  ro_entry_id : pystr;
  ro_topic : pystr;
  ro_canonical_payload : list N;
  ro_payload_sha256 : pystr;
  ro_idempotency_key : pystr;
  ro_available_at : Z;
  ro_status : outbox_status;
  ro_lease_owner : option pystr;
  ro_lease_expires_at : option Z;
  ro_version : Z;
  ro_attempt_count : Z;
  ro_last_error_code : option pystr;
  ro_created_at : Z;
  ro_updated_at : Z
}.
#[global] Instance outbox_row_eq_dec : EqDecision outbox_row.
Proof. solve_decision. Defined.

Abbreviation outbox_table := (list outbox_row).

Definition _MAX_PAYLOAD_BYTES : Z := 1048576.

Definition topic_re : regex :=
  RSeq (RChar is_alnum) (RRep 0 127 (fun c => is_alnum c || one_of "._:-" c)).


(** [astralplane_outbox_lease_shape_check] *)
Definition lease_shape (r : outbox_row) : bool :=
  (bool_decide (ro_status r = O_claimed) && is_some (ro_lease_owner r)
   && is_some (ro_lease_expires_at r))
  || (bool_decide (ro_status r <> O_claimed) && negb (is_some (ro_lease_owner r))
      && negb (is_some (ro_lease_expires_at r))).

(** [astralplane_outbox_error_shape_check] *)
Definition error_shape (r : outbox_row) : bool :=
  (bool_decide (ro_status r ∈ [O_pending; O_claimed; O_succeeded])
   && negb (is_some (ro_last_error_code r)))
  || (bool_decide (ro_status r ∈ [O_retry; O_dead_letter]) && is_some (ro_last_error_code r)).

Definition payload_size (p : list N) : bool :=
  (1 <=? Z.of_nat (length p)) && (Z.of_nat (length p) <=? _MAX_PAYLOAD_BYTES).

Definition outbox_checks (r : outbox_row) : bool :=
  fullmatch hex64_re (ro_payload_sha256 r)
  && (0 <=? ro_version r) && (0 <=? ro_attempt_count r)
  && lease_shape r && error_shape r
  && payload_size (ro_canonical_payload r) && fullmatch topic_re (ro_topic r).

(** [version] is a BIGINT and [attempt_count] an INTEGER. *)
Definition check_outbox_row (r : outbox_row) : result unit :=
  raise_unless (is_int8 (ro_version r) && is_int4 (ro_attempt_count r))
    (Exn PgNumericOutOfRange "integer out of range") ;;
  raise_unless (outbox_checks r) (Exn PgCheckViolation "new row violates check constraint").

(** Primary key and UNIQUE (idempotency_key). *)
Definition outbox_conflict (r r' : outbox_row) : bool :=
  bool_decide (ro_entry_id r = ro_entry_id r')
  || bool_decide (ro_idempotency_key r = ro_idempotency_key r').

(** ** Validation (outbox.py) *)

Definition _SAFE_ID : regex := RSeq (RChar is_alnum) (RRep 0 254 is_idchar).
Definition _SAFE_TOPIC : regex := topic_re.
Definition _SAFE_ERROR_CODE : regex :=
  RSeq (RChar is_lower) (RRep 0 63 (fun c => is_lower c || is_digit c || one_of "_.-" c)).
Definition _MAX_LEASE_DURATION : Z := 86400000000.

#[global] Arguments _SAFE_ID : simpl never.
#[global] Arguments _SAFE_TOPIC : simpl never.
#[global] Arguments _SAFE_ERROR_CODE : simpl never.

Definition _bounded_text (value : pystr) (name : string) (pattern : regex) : result pystr :=
  if fullmatch pattern value then Ok value
  else raise SQLContractError (name ++ " is not a valid bounded identifier").

Definition _utc (value : datetime) (name : string) : result datetime :=
  match value with
  | Naive _ => raise SQLContractError (name ++ " must be timezone-aware")
  | Aware wall off => Ok (utc (wall - off))
  end.

Definition _positive_limit (limit : Z) : result Z :=
  if (1 <=? limit) && (limit <=? 1000) then Ok limit
  else raise SQLContractError "limit must be an integer between 1 and 1000".

(** [str.lower] on ASCII: no other code point lowers to a hexadecimal digit,
    so the digest test below sees no difference. *)
Definition lower_char (c : N) : N := if is_upper c then (c + 32)%N else c.
Definition py_lower (s : pystr) : pystr := lower_char <$> s.

Definition _validate_entry (entry : OutboxEntry) : result OutboxEntry :=
  entry_id ← _bounded_text (oe_entry_id entry) "entry_id" _SAFE_ID;
  topic ← _bounded_text (oe_topic entry) "topic" _SAFE_TOPIC;
  idempotency_key ← _bounded_text (oe_idempotency_key entry) "idempotency_key" _SAFE_ID;
  let payload := oe_canonical_payload entry in
  raise_unless (payload_size payload)
    (Exn SQLContractError "canonical_payload must contain between 1 and 1048576 bytes") ;;
  let payload_sha256 := py_lower (oe_payload_sha256 entry) in
  raise_unless (fullmatch hex64_re payload_sha256)
    (Exn SQLContractError "payload_sha256 must be a lowercase SHA-256 digest") ;;
  raise_if (bool_decide (sha256_hex payload <> payload_sha256))
    (Exn SQLContractError "canonical_payload does not match payload_sha256") ;;
  available_at ← _utc (oe_available_at entry) "available_at";
  Ok {| oe_entry_id := entry_id; oe_topic := topic; oe_canonical_payload := payload;
        oe_payload_sha256 := payload_sha256; oe_idempotency_key := idempotency_key;
        oe_available_at := available_at |}.

Definition record_invalid (what : string) : exn :=
  Exn PlaneError ("outbox returned an invalid " ++ what).

Section Records.
Context `{PgEnv}.

(** Columns are typed, so of the [_record_*] readers only the nullable and
    the pattern-bounded ones can fail. *)
Definition _record_text (value : option pystr) : result pystr :=
  match value with Some s => Ok s | None => Err (record_invalid "text field") end.

Definition _record_datetime (value : option Z) : result datetime :=
  match value with
  | Some t => map_err (fun _ => record_invalid "timestamp field") (_utc (from_timestamptz t) "")
  | None => Err (record_invalid "timestamp field")
  end.

Definition _record_bounded_text (value : option pystr) (pattern : regex) : result pystr :=
  text ← _record_text value;
  map_err (fun _ => record_invalid "bounded identifier") (_bounded_text text "" pattern).

Definition _entry_from_record (r : outbox_row) : result OutboxEntry :=
  available_at ← _record_datetime (Some (ro_available_at r));
  _validate_entry
    {| oe_entry_id := ro_entry_id r; oe_topic := ro_topic r;
       oe_canonical_payload := ro_canonical_payload r;
       oe_payload_sha256 := ro_payload_sha256 r;
       oe_idempotency_key := ro_idempotency_key r; oe_available_at := available_at |}.
End Records.

(** [_require_single_update] *)
Definition _require_single_update (operation : string) (c : command_result) : result command_result :=
  if cr_rowcount c =? 1 then Ok c
  else raise PlaneError ("outbox " ++ operation ++ " version fence rejected the operation").

Definition _fence_inputs (entry_id worker_id : pystr) (expected_version : Z)
  : result (pystr * pystr * Z) :=
  exact_entry_id ← _bounded_text entry_id "entry_id" _SAFE_ID;
  exact_worker_id ← _bounded_text worker_id "worker_id" _SAFE_ID;
  raise_if (expected_version <? 1)
    (Exn SQLContractError "expected_version must be a positive integer") ;;
  Ok (exact_entry_id, exact_worker_id, expected_version).

(** ** Statements *)

Section Store.
Context `{PgEnv}.

(** The row [_ENQUEUE_SQL] inserts; timestamps default to the server clock. *)
Definition enqueued_row (e : OutboxEntry) (n : nat) : outbox_row :=
  {| ro_entry_id := oe_entry_id e; ro_topic := oe_topic e;
     ro_canonical_payload := oe_canonical_payload e; ro_payload_sha256 := oe_payload_sha256 e;
     ro_idempotency_key := oe_idempotency_key e; ro_available_at := instant (oe_available_at e);
     ro_status := O_pending; ro_lease_owner := None; ro_lease_expires_at := None;
     ro_version := 0; ro_attempt_count := 0; ro_last_error_code := None;
     ro_created_at := clock_timestamp n; ro_updated_at := clock_timestamp n |}.

(** ON CONFLICT names the idempotency key only: an existing [entry_id] under
    another key is a unique violation. *)
Definition _ENQUEUE_SQL (e : OutboxEntry) (t : outbox_table)
  : result (command_result * outbox_table) :=
  let r := enqueued_row e (length t) in
  check_outbox_row r ;;
  if exists_row (fun r' => bool_decide (ro_idempotency_key r' = ro_idempotency_key r)) t
  then Ok (CommandResult 0 [], t)
  else if exists_row (fun r' => bool_decide (ro_entry_id r' = ro_entry_id r)) t
  then raise PgUniqueViolation "duplicate key value violates unique constraint"
  else Ok (CommandResult 1 [ro_entry_id r], t ++ [r]).

Definition _READ_IDEMPOTENT_SQL (key : pystr) (t : outbox_table) : option outbox_row :=
  select_one "outbox_read_idempotent" (fun r => bool_decide (ro_idempotency_key r = key)) t.

(** [SET] with the lease, the error and the availability a statement writes. *)
Definition set_row (st : outbox_status) (owner : option pystr) (expires : option Z)
    (error : option pystr) (available now : Z) (attempt : Z) (r : outbox_row) : outbox_row :=
  {| ro_entry_id := ro_entry_id r; ro_topic := ro_topic r;
     ro_canonical_payload := ro_canonical_payload r; ro_payload_sha256 := ro_payload_sha256 r;
     ro_idempotency_key := ro_idempotency_key r; ro_available_at := available;
     ro_status := st; ro_lease_owner := owner; ro_lease_expires_at := expires;
     ro_version := ro_version r + 1; ro_attempt_count := attempt;
     ro_last_error_code := error; ro_created_at := ro_created_at r; ro_updated_at := now |}.

(** [ORDER BY available_at, entry_id] under the database collation. *)
Definition available_le : outbox_row -> outbox_row -> bool :=
  time_key_leb ro_available_at (fun a b => collate (ro_entry_id a) (ro_entry_id b)).

Definition claimable (topics : list pystr) (now : Z) (r : outbox_row) : bool :=
  bool_decide (ro_status r ∈ [O_pending; O_retry]) && bool_decide (ro_topic r ∈ topics)
  && (ro_available_at r <=? now).

Definition claim_row_update (worker : pystr) (expires now : Z) (r : outbox_row) : outbox_row :=
  set_row O_claimed (Some worker) (Some expires) None (ro_available_at r) now
    (ro_attempt_count r + 1) r.

(** Rows named by a common table expression. *)
Definition selected (rows : list outbox_row) (r : outbox_row) : bool :=
  bool_decide (ro_entry_id r ∈ ro_entry_id <$> rows).

Definition _CLAIM_SQL (topics : list pystr) (now limit : Z) (worker : pystr) (expires : Z)
    (t : outbox_table) : result (list outbox_row * outbox_table) :=
  let candidates :=
    select_skip_locked "outbox_claim" available_le (claimable topics now) limit t in
  '(rows, t') ← update_returning check_outbox_row outbox_conflict (selected candidates)
                  (claim_row_update worker expires now) t;
  Ok (scan "outbox_claim_returning" outbox_row rows, t').

(** The fence of a settlement: the row is claimed by this worker at this
    version and the lease has not expired. *)
Definition fenced (entry_id worker : pystr) (version now : Z) (r : outbox_row) : bool :=
  bool_decide (ro_entry_id r = entry_id) && bool_decide (ro_status r = O_claimed)
  && bool_decide (ro_lease_owner r = Some worker) && (ro_version r =? version)
  && match ro_lease_expires_at r with Some t => now <? t | None => false end.

Definition settle (f : outbox_row -> outbox_row) (entry_id worker : pystr) (version now : Z)
    (t : outbox_table) : result (command_result * outbox_table) :=
  '(rows, t') ← update_returning check_outbox_row outbox_conflict
                  (fenced entry_id worker version now) f t;
  Ok (CommandResult (Z.of_nat (length rows)) [], t').

Definition acked (now : Z) (r : outbox_row) : outbox_row :=
  set_row O_succeeded None None None (ro_available_at r) now (ro_attempt_count r) r.
Definition retried (available : Z) (error : pystr) (now : Z) (r : outbox_row) : outbox_row :=
  set_row O_retry None None (Some error) available now (ro_attempt_count r) r.
Definition dead_lettered (error : pystr) (now : Z) (r : outbox_row) : outbox_row :=
  set_row O_dead_letter None None (Some error) (ro_available_at r) now (ro_attempt_count r) r.

Definition _ACK_SQL (now : Z) (entry_id worker : pystr) (version : Z) :=
  settle (acked now) entry_id worker version now.
Definition _RETRY_SQL (available : Z) (error : pystr) (now : Z) (entry_id worker : pystr)
    (version : Z) := settle (retried available error now) entry_id worker version now.
Definition _DEAD_LETTER_SQL (error : pystr) (now : Z) (entry_id worker : pystr) (version : Z) :=
  settle (dead_lettered error now) entry_id worker version now.

Definition _READ_MALFORMED_CLAIM_SQL (t : outbox_table) : option outbox_row :=
  head (select_ordered "outbox_malformed"
    (fun a b => collate (ro_entry_id a) (ro_entry_id b))
    (fun r => bool_decide (ro_status r = O_claimed)
              && (negb (is_some (ro_lease_owner r)) || negb (is_some (ro_lease_expires_at r)))) t).

(** Only rows with a lease are compared. *)
Definition lease_le : outbox_row -> outbox_row -> bool :=
  time_key_leb (fun r => default 0 (ro_lease_expires_at r))
    (fun a b => collate (ro_entry_id a) (ro_entry_id b)).

Definition lease_expired (now : Z) (r : outbox_row) : bool :=
  bool_decide (ro_status r = O_claimed)
  && match ro_lease_expires_at r with Some t => t <=? now | None => false end.

Definition reclaimed (now : Z) (r : outbox_row) : outbox_row :=
  set_row O_retry None None (Some (u "lease_expired")) now now (ro_attempt_count r) r.

(** Each returned row comes with the owner its lease had. *)
Definition _RECLAIM_SQL (now limit : Z) (t : outbox_table)
  : result (list (outbox_row * option pystr) * outbox_table) :=
  let expired := select_skip_locked "outbox_reclaim" lease_le (lease_expired now) limit t in
  '(_, t') ← update_returning check_outbox_row outbox_conflict (selected expired)
                  (reclaimed now) t;
  Ok (scan "outbox_reclaim_returning" (outbox_row * option pystr)
        ((fun r => (reclaimed now r, ro_lease_owner r)) <$> rows_where (selected expired) t), t').

(** ** The methods of [PostgresOutboxStore] *)

Definition enqueue (entry : OutboxEntry) : SM outbox_table command_result :=
  exact ← lift (_validate_entry entry);
  result ← exec (_ENQUEUE_SQL exact);
  if cr_rowcount result =? 1 then mret result
  else if negb (cr_rowcount result =? 0) then
    lift (raise PlaneError "outbox enqueue returned an invalid row count")
  else
    existing ← query (_READ_IDEMPOTENT_SQL (oe_idempotency_key exact));
    let conflict :=
      raise PlaneError "outbox idempotency key already represents different work" in
    match existing with
    | None => lift conflict
    | Some r =>
        found ← lift (_entry_from_record r);
        if bool_decide (found <> exact) then lift conflict else mret result
    end.

(** One element of the tuple [claim] builds from the returned records. *)
Definition claimed_entry (r : outbox_row) : result ClaimedOutboxEntry :=
  entry ← _entry_from_record r;
  worker ← _record_text (ro_lease_owner r);
  expires ← _record_datetime (ro_lease_expires_at r);
  Ok {| co_entry := entry; co_worker_id := worker; co_lease_expires_at := expires;
        co_expected_version := ro_version r; co_attempt := ro_attempt_count r |}.

(** [sorted(..., key=lambda item: (available_at, entry_id))] *)
Definition claimed_le : ClaimedOutboxEntry -> ClaimedOutboxEntry -> bool :=
  time_key_leb (fun i => instant (oe_available_at (co_entry i)))
    (fun a b => str_leb (oe_entry_id (co_entry a)) (oe_entry_id (co_entry b))).

Definition claim (worker_id : pystr) (topics : list pystr) (now : datetime) (lease_duration : Z)
    (limit : Z) : SM outbox_table (list ClaimedOutboxEntry) :=
  exact_worker_id ← lift (_bounded_text worker_id "worker_id" _SAFE_ID);
  lift (raise_if (bool_decide (topics = []))
    (Exn SQLContractError "topics must be a non-empty tuple")) ;;
  exact_topics ← lift (map_each (fun topic => _bounded_text topic "topic" _SAFE_TOPIC) topics);
  lift (raise_unless (bool_decide (NoDup exact_topics))
    (Exn SQLContractError "topics must not contain duplicates")) ;;
  exact_now ← lift (_utc now "now");
  lift (raise_unless ((0 <? lease_duration) && (lease_duration <=? _MAX_LEASE_DURATION))
    (Exn SQLContractError "lease_duration must be positive and no greater than 24 hours")) ;;
  let lease_expires_at := instant exact_now + lease_duration in
  exact_limit ← lift (_positive_limit limit);
  records ← exec (_CLAIM_SQL exact_topics (instant exact_now) exact_limit exact_worker_id
                    lease_expires_at);
  claimed ← lift (map_each claimed_entry records);
  lift (raise_if (existsb (fun i => bool_decide (co_worker_id i <> exact_worker_id)) claimed)
    (Exn PlaneError "outbox claim returned a different worker")) ;;
  mret (sort_by claimed_le claimed).

Definition ack (entry_id worker_id : pystr) (expected_version : Z) (now : datetime)
  : SM outbox_table command_result :=
  '(exact_entry_id, exact_worker_id, exact_version) ←
    lift (_fence_inputs entry_id worker_id expected_version);
  exact_now ← lift (_utc now "now");
  result ← exec (_ACK_SQL (instant exact_now) exact_entry_id exact_worker_id exact_version);
  lift (_require_single_update "ack" result).

Definition retry (entry_id worker_id : pystr) (expected_version : Z) (available_at : datetime)
    (error_code : pystr) (now : datetime) : SM outbox_table command_result :=
  '(exact_entry_id, exact_worker_id, exact_version) ←
    lift (_fence_inputs entry_id worker_id expected_version);
  exact_error ← lift (_bounded_text error_code "error_code" _SAFE_ERROR_CODE);
  exact_now ← lift (_utc now "now");
  exact_available ← lift (_utc available_at "available_at");
  result ← exec (_RETRY_SQL (instant exact_available) exact_error (instant exact_now)
                   exact_entry_id exact_worker_id exact_version);
  lift (_require_single_update "retry" result).

Definition dead_letter (entry_id worker_id : pystr) (expected_version : Z) (error_code : pystr)
    (now : datetime) : SM outbox_table command_result :=
  '(exact_entry_id, exact_worker_id, exact_version) ←
    lift (_fence_inputs entry_id worker_id expected_version);
  exact_error ← lift (_bounded_text error_code "error_code" _SAFE_ERROR_CODE);
  exact_now ← lift (_utc now "now");
  result ← exec (_DEAD_LETTER_SQL exact_error (instant exact_now) exact_entry_id
                   exact_worker_id exact_version);
  lift (_require_single_update "dead-letter" result).

Definition reclaimed_item (rec : outbox_row * option pystr) : result ReclaimedOutboxEntry :=
  let '(r, previous) := rec in
  entry_id ← _record_bounded_text (Some (ro_entry_id r)) _SAFE_ID;
  previous_worker_id ← _record_bounded_text previous _SAFE_ID;
  raise_if (ro_version r <? 1) (record_invalid "reclaimed version") ;;
  available_at ← _record_datetime (Some (ro_available_at r));
  Ok {| ri_entry_id := entry_id; ri_previous_worker_id := previous_worker_id;
        ri_expected_version := ro_version r; ri_available_at := available_at |}.

Definition reclaimed_le : ReclaimedOutboxEntry -> ReclaimedOutboxEntry -> bool :=
  time_key_leb (fun i => instant (ri_available_at i))
    (fun a b => str_leb (ri_entry_id a) (ri_entry_id b)).

Definition reclaim_expired (now : datetime) (limit : Z)
  : SM outbox_table (list ReclaimedOutboxEntry) :=
  exact_now ← lift (_utc now "now");
  malformed ← query _READ_MALFORMED_CLAIM_SQL;
  lift (raise_if (is_some malformed)
    (Exn PlaneError "outbox contains a malformed claimed lease")) ;;
  exact_limit ← lift (_positive_limit limit);
  records ← exec (_RECLAIM_SQL (instant exact_now) exact_limit);
  items ← lift (map_each reclaimed_item records);
  mret (sort_by reclaimed_le items).
End Store.
