(* ===== verification/OutboxSafety.v ===== *)
(** * Safety of the outbox

    The invariant of the table astralplane_outbox, the order in which a row
    evolves, and what a lease and a version fence guarantee, for every
    interleaving of committed operations and whatever PostgreSQL leaves open. *)

From S2P Require Import Prelude Regex Errors Domain Sha256 Pg Outbox.

(** ** The invariant of one row and of the table *)

Record row_ok (r : outbox_row) : Prop := {
  ok_constraints : check_outbox_row r = Ok ();
  ok_entry_id : fullmatch _SAFE_ID (ro_entry_id r) = true;
  ok_key : fullmatch _SAFE_ID (ro_idempotency_key r) = true;
  ok_digest : sha256_hex (ro_canonical_payload r) = ro_payload_sha256 r;
  ok_owner : forall w, ro_lease_owner r = Some w -> fullmatch _SAFE_ID w = true;
  ok_error : forall e, ro_last_error_code r = Some e -> fullmatch _SAFE_ERROR_CODE e = true;
  ok_counters : if bool_decide (ro_status r = O_pending)
                then ro_version r = 0 /\ ro_attempt_count r = 0
                else 1 <= ro_attempt_count r <= ro_version r
}.

Record outbox_inv (t : outbox_table) : Prop := {
  inv_rows : Forall row_ok t;
  inv_unique : unique_ok outbox_conflict t = true
}.

(** What a row keeps for ever. *)
Definition row_identity (r : outbox_row) :=
  (ro_entry_id r, ro_topic r, ro_canonical_payload r, ro_payload_sha256 r, ro_idempotency_key r,
   ro_created_at r).

Definition outbox_terminal (s : outbox_status) : bool :=
  match s with O_succeeded | O_dead_letter => true | _ => false end.

(** A row either stays as it is, or advances its version; a settled row
    stays. *)
Definition row_evolves (r r' : outbox_row) : Prop :=
  row_identity r' = row_identity r
  /\ (r' = r \/ (ro_version r < ro_version r' /\ outbox_terminal (ro_status r) = false)).

#[global] Instance row_evolves_preorder : PreOrder row_evolves.
Proof.
  split.
  - intros r. split; auto.
  - intros r1 r2 r3 [I1 H1] [I2 H2]. split; [congruence|].
    destruct H1 as [->|[? ?]]; [done|]. destruct H2 as [->|[? ?]]; right; split; auto; lia.
Qed.

(** What every operation guarantees from a table in the invariant. *)
Definition outbox_safe (t t' : outbox_table) : Prop :=
  outbox_inv t -> outbox_inv t' /\ table_evolves row_evolves t t'.

#[global] Instance outbox_safe_preorder : PreOrder outbox_safe.
Proof.
  split.
  - intros t Ht. split; [done|reflexivity].
  - intros t1 t2 t3 H1 H2 Ht. destruct (H1 Ht) as [Ht2 E1]. destruct (H2 Ht2) as [Ht3 E2].
    split; [done|]. by transitivity t2.
Qed.

Lemma outbox_conflict_sym a b : outbox_conflict a b = outbox_conflict b a.
Proof. unfold outbox_conflict. f_equal; apply bool_decide_ext; split; congruence. Qed.

Lemma outbox_unique t r1 r2 :
  outbox_inv t -> r1 ∈ t -> r2 ∈ t ->
  ro_entry_id r1 = ro_entry_id r2 \/ ro_idempotency_key r1 = ro_idempotency_key r2 -> r1 = r2.
Proof.
  intros [_ Hu] H1 H2 Hid. apply (unique_ok_elem outbox_conflict t); auto using outbox_conflict_sym.
  unfold outbox_conflict. rewrite orb_true_iff, !bool_decide_eq_true. done.
Qed.

Lemma check_outbox_row_Ok r x :
  check_outbox_row r = Ok x ->
  is_int8 (ro_version r) = true /\ is_int4 (ro_attempt_count r) = true /\ outbox_checks r = true.
Proof. unfold check_outbox_row. intros Hc. inv_ok. split_bools. auto. Qed.

(** The lease of a claimed row. *)
Lemma claimed_lease r :
  row_ok r -> ro_status r = O_claimed ->
  exists w e, ro_lease_owner r = Some w /\ ro_lease_expires_at r = Some e.
Proof.
  intros [(_ & _ & Hc)%check_outbox_row_Ok _ _ _ _ _ _] Hst. unfold outbox_checks, lease_shape in Hc.
  split_bools. rewrite Hst in *.
  destruct (ro_lease_owner r), (ro_lease_expires_at r); simpl in *; eauto;
    rewrite ?andb_false_r in *; done.
Qed.

(** ** Rewriting a row *)

Lemma set_row_ok st owner expires error available now attempt r :
  row_ok r -> check_outbox_row (set_row st owner expires error available now attempt r) = Ok () ->
  st <> O_pending -> ro_attempt_count r <= attempt <= ro_attempt_count r + 1 -> 1 <= attempt ->
  (forall w, owner = Some w -> fullmatch _SAFE_ID w = true) ->
  (forall e, error = Some e -> fullmatch _SAFE_ERROR_CODE e = true) ->
  row_ok (set_row st owner expires error available now attempt r).
Proof.
  intros Hr Hc Hst Ha1 Ha2 Ho He. destruct Hr. split; cbn; auto.
  rewrite (bool_decide_eq_false_2 _ Hst).
  destruct (bool_decide (ro_status r = O_pending)); lia.
Qed.

Lemma attempts_nonneg r : row_ok r -> 0 <= ro_attempt_count r.
Proof. intros Hr. pose proof (ok_counters r Hr). case_bool_decide; lia. Qed.

Lemma attempts_claimed r : row_ok r -> ro_status r = O_claimed -> 1 <= ro_attempt_count r.
Proof.
  intros Hr Hs. pose proof (ok_counters r Hr) as Hc.
  rewrite Hs, bool_decide_eq_false_2 in Hc by done. lia.
Qed.

Lemma set_row_evolves st owner expires error available now attempt r :
  outbox_terminal (ro_status r) = false ->
  row_evolves r (set_row st owner expires error available now attempt r).
Proof. intros Ht. split; [done|]. right. cbn. split; [lia|done]. Qed.

(** The rows named by a selection are the selected rows themselves. *)
Lemma selected_elem t rows r :
  outbox_inv t -> (forall x, x ∈ rows -> x ∈ t) -> r ∈ t ->
  selected rows r = true <-> r ∈ rows.
Proof.
  intros Hi Hsub Hr. unfold selected. rewrite bool_decide_eq_true, list_elem_of_fmap. split.
  - intros (x & Hid & Hx). rewrite (outbox_unique t r x Hi Hr (Hsub x Hx)); auto.
  - intros Hin. eauto.
Qed.

(** An update of rows that are not settled is safe. *)
Lemma update_safe p f t rs t' :
  update_returning check_outbox_row outbox_conflict p f t = Ok (rs, t') ->
  (outbox_inv t -> forall r, r ∈ t -> p r = true ->
     outbox_terminal (ro_status r) = false /\ row_evolves r (f r)
     /\ (check_outbox_row (f r) = Ok () -> row_ok (f r))) ->
  outbox_safe t t'.
Proof.
  intros (HF & -> & -> & Hu)%update_returning_Ok Hf Hi. specialize (Hf Hi).
  assert (forall r, r ∈ t -> p r = true -> check_outbox_row (f r) = Ok ()) as Hchk.
  { intros r Hr Hp. rewrite Forall_forall in HF. apply HF.
    apply list_elem_of_fmap. exists r. split; [done|]. by apply elem_of_rows_where. }
  split.
  - split; [|done]. apply Forall_update_where; [apply Hi|].
    intros r Hr Hp _. destruct (Hf r Hr Hp) as (_ & _ & Hok). auto.
  - apply table_evolves_update; [apply _|]. intros r Hr Hp. by destruct (Hf r Hr Hp) as (_ & ? & _).
Qed.

Section Statements.
Context `{PgEnv}.

Lemma bounded_text_Ok v name p x : _bounded_text v name p = Ok x -> x = v /\ fullmatch p v = true.
Proof. unfold _bounded_text. destruct (fullmatch p v); [|done]. by intros [= <-]. Qed.

Lemma utc_Ok d name x : _utc d name = Ok x -> x = utc (instant d).
Proof. destruct d; [done|]. by intros [= <-]. Qed.

Lemma validate_entry_Ok e x :
  _validate_entry e = Ok x ->
  fullmatch _SAFE_ID (oe_entry_id x) = true /\ fullmatch _SAFE_TOPIC (oe_topic x) = true
  /\ fullmatch _SAFE_ID (oe_idempotency_key x) = true
  /\ payload_size (oe_canonical_payload x) = true
  /\ fullmatch hex64_re (oe_payload_sha256 x) = true
  /\ sha256_hex (oe_canonical_payload x) = oe_payload_sha256 x
  /\ oe_available_at x = utc (instant (oe_available_at x)).
Proof.
  unfold _validate_entry. intros Hv. inv_ok.
  apply bounded_text_Ok in Hs as [-> ?], Hs0 as [-> ?], Hs1 as [-> ?].
  apply utc_Ok in Hs5 as ->. subst. cbn [oe_entry_id oe_topic oe_idempotency_key
    oe_canonical_payload oe_payload_sha256 oe_available_at].
  split_bools. apply dec_stable in Hs4. rewrite instant_utc. split_and!; auto.
Qed.

Lemma py_lower_hex s : fullmatch hex64_re s = true -> py_lower s = s.
Proof.
  intros [_ HF]%hex64_spec. unfold py_lower. induction HF as [|c s Hc _ IH]; [done|].
  cbn. rewrite IH. f_equal. unfold lower_char. destruct (is_upper c) eqn:Hu; [|done].
  unfold is_hex, is_upper, is_digit, in_range in *.
  rewrite orb_true_iff, !andb_true_iff, !N.leb_le in *. lia.
Qed.

Lemma enqueue_sql_safe e x c t t' :
  _validate_entry e = Ok x -> _ENQUEUE_SQL x t = Ok (c, t') -> outbox_safe t t'.
Proof.
  intros (He & Ht & Hk & Hp & Hh & Hd & _)%validate_entry_Ok Hq Hi.
  unfold _ENQUEUE_SQL in Hq. inv_ok.
  destruct (exists_row _ t) eqn:Hkey; inv_ok; [simplify_eq; split; [done|reflexivity]|].
  destruct (exists_row (fun r' => bool_decide (ro_entry_id r' = _)) t) eqn:Hid; inv_ok. simplify_eq.
  split; [|apply table_evolves_snoc, _].
  destruct Hi as [Hrows Hu]. split.
  - apply Forall_app. split; [done|]. constructor; [|constructor]. destruct v.
    split; cbn; auto; try discriminate. by rewrite bool_decide_eq_true_2.
  - apply unique_ok_snoc; [apply outbox_conflict_sym|]. split; [done|].
    apply exists_row_false. intros r Hr. rewrite exists_row_false in Hkey, Hid.
    specialize (Hkey r Hr). specialize (Hid r Hr). unfold outbox_conflict.
    apply orb_false_iff. cbn in *. split_bools. split; apply bool_decide_eq_false; congruence.
Qed.

Lemma claimable_open topics now r :
  claimable topics now r = true -> outbox_terminal (ro_status r) = false.
Proof. unfold claimable. by destruct (ro_status r). Qed.

Lemma claim_sql_safe topics now limit worker expires t rows t' :
  fullmatch _SAFE_ID worker = true ->
  _CLAIM_SQL topics now limit worker expires t = Ok (rows, t') -> outbox_safe t t'.
Proof.
  intros Hw Hc. unfold _CLAIM_SQL in Hc. inv_ok. destruct v as [rs t1]. inv_ok. simplify_eq.
  eapply update_safe; [exact Hs|]. intros Hi r Hr Hsel.
  apply (selected_elem t) in Hsel; [|done|intros y Hy; eapply elem_of_select_skip_locked; exact Hy|done].
  apply elem_of_select_skip_locked in Hsel as [_ Hcl%claimable_open].
  assert (row_ok r) as Hok by (by eapply (proj1 (Forall_forall _ _)); [apply Hi|]).
  pose proof (attempts_nonneg r Hok).
  split_and!; [done|by apply set_row_evolves|].
  intros Hck. apply set_row_ok; auto; first [lia | naive_solver].
Qed.

Lemma settle_safe f entry worker version now t c t' :
  settle f entry worker version now t = Ok (c, t') ->
  (forall r, row_ok r -> ro_status r = O_claimed ->
     row_evolves r (f r) /\ (check_outbox_row (f r) = Ok () -> row_ok (f r))) ->
  outbox_safe t t'.
Proof.
  unfold settle. intros Hs Hf. inv_ok. destruct v as [rs t1]. inv_ok. simplify_eq.
  eapply update_safe; [exact Hs0|]. intros Hi r Hr Hp. unfold fenced in Hp. split_bools.
  assert (row_ok r) as Hok by (by eapply (proj1 (Forall_forall _ _)); [apply Hi|]).
  rewrite (ltac:(done) : ro_status r = O_claimed) at 1. split; [done|]. auto.
Qed.

Lemma settled_row_ok st error available now r :
  row_ok r -> ro_status r = O_claimed -> st <> O_pending ->
  (forall e, error = Some e -> fullmatch _SAFE_ERROR_CODE e = true) ->
  let r' := set_row st None None error available now (ro_attempt_count r) r in
  row_evolves r r' /\ (check_outbox_row r' = Ok () -> row_ok r').
Proof.
  intros Hok Hst Hne He r'. pose proof (attempts_claimed r Hok Hst). split.
  - apply set_row_evolves. by rewrite Hst.
  - intros Hck. apply set_row_ok; auto; first [lia | naive_solver].
Qed.

Lemma reclaim_sql_safe now limit t rows t' :
  _RECLAIM_SQL now limit t = Ok (rows, t') -> outbox_safe t t'.
Proof.
  unfold _RECLAIM_SQL. intros Hq. inv_ok. destruct v as [rs t1]. inv_ok. simplify_eq.
  eapply update_safe; [exact Hs|]. intros Hi r Hr Hsel.
  apply (selected_elem t) in Hsel; [|done|intros y Hy; eapply elem_of_select_skip_locked; exact Hy|done].
  apply elem_of_select_skip_locked in Hsel as [_ Hcl]. unfold lease_expired in Hcl. split_bools.
  assert (row_ok r) as Hok by (by eapply (proj1 (Forall_forall _ _)); [apply Hi|]).
  rewrite (ltac:(done) : ro_status r = O_claimed) at 1. split; [done|].
  apply settled_row_ok; [done|done|done|]. intros e [= <-]. vm_compute. reflexivity.
Qed.

(** ** Every method is safe *)

Lemma enqueue_safe e : respects outbox_safe (enqueue e).
Proof.
  unfold enqueue. respects_auto. apply respects_exec; [apply _|]. intros t c t' Hq.
  by eapply enqueue_sql_safe.
Qed.

Lemma claim_safe worker topics now duration limit :
  respects outbox_safe (claim worker topics now duration limit).
Proof.
  unfold claim. respects_auto. apply respects_exec; [apply _|]. intros t c t' Hq.
  eapply claim_sql_safe; [|exact Hq].
  match goal with H : _bounded_text worker _ _ = Ok _ |- _ => by apply bounded_text_Ok in H as [-> ?] end.
Qed.

Ltac settlement :=
  respects_auto; apply respects_exec; [apply _|]; intros ? ? ? Hq;
  eapply settle_safe; [exact Hq|]; intros ? ? ?; apply settled_row_ok; try done;
  repeat match goal with H : _bounded_text _ _ _ = Ok _ |- _ => apply bounded_text_Ok in H as [-> ?] end;
  naive_solver.

Lemma ack_safe entry worker version now : respects outbox_safe (ack entry worker version now).
Proof. unfold ack. settlement. Qed.

Lemma retry_safe entry worker version available error now :
  respects outbox_safe (retry entry worker version available error now).
Proof. unfold retry. settlement. Qed.

Lemma dead_letter_safe entry worker version error now :
  respects outbox_safe (dead_letter entry worker version error now).
Proof. unfold dead_letter. settlement. Qed.

Lemma reclaim_safe now limit : respects outbox_safe (reclaim_expired now limit).
Proof.
  unfold reclaim_expired. respects_auto. apply respects_exec; [apply _|].
  intros t c t' Hq. by eapply reclaim_sql_safe.
Qed.
End Statements.

(** ** Interleavings of committed operations *)

(** One call of a store method with its arguments. *)
Inductive outbox_op : Type :=
  | OpEnqueue (entry : OutboxEntry)
  | OpClaim (worker : pystr) (topics : list pystr) (now : datetime) (duration limit : Z)
  | OpAck (entry worker : pystr) (version : Z) (now : datetime)
  | OpRetry (entry worker : pystr) (version : Z) (available : datetime) (error : pystr)
      (now : datetime)
  | OpDeadLetter (entry worker : pystr) (version : Z) (error : pystr) (now : datetime)
  | OpReclaim (now : datetime) (limit : Z).

Definition run_op `{PgEnv} (op : outbox_op) : SM outbox_table unit :=
  match op with
  | OpEnqueue e => enqueue e ;; mret ()
  | OpClaim w ts now d n => claim w ts now d n ;; mret ()
  | OpAck e w v now => ack e w v now ;; mret ()
  | OpRetry e w v a err now => retry e w v a err now ;; mret ()
  | OpDeadLetter e w v err now => dead_letter e w v err now ;; mret ()
  | OpReclaim now n => reclaim_expired now n ;; mret ()
  end.

(** A transaction of any calls, each of which the caller may guard with a handler
    for its error, committed or rolled back, under any server environment; the
    transactions of all workers interleave. *)
Fixpoint run_ops `{PgEnv} (ops : list (bool * outbox_op)) : SM outbox_table unit :=
  match ops with
  | [] => mret ()
  | (caught, op) :: ops' => (if caught : bool then attempt (run_op op) else run_op op) ;; run_ops ops'
  end.

Inductive outbox_step : outbox_table -> outbox_table -> Prop :=
  | step_transaction (env : PgEnv) (ops : list (bool * outbox_op)) t :
      outbox_step t (snd (transaction (run_ops (H := env) ops) t)).

Lemma run_op_safe `{PgEnv} op : respects outbox_safe (run_op op).
Proof.
  destruct op; cbn [run_op]; (apply respects_bind; [apply _| |intros; apply respects_ret, _]);
    auto using enqueue_safe, claim_safe, ack_safe, retry_safe, dead_letter_safe, reclaim_safe.
Qed.

Lemma run_ops_safe `{PgEnv} ops : respects outbox_safe (run_ops ops).
Proof.
  induction ops as [|[caught op] ops IH]; cbn [run_ops]; [apply respects_ret, _|].
  apply respects_bind; [apply _| |done]. destruct caught; [apply respects_attempt|]; apply run_op_safe.
Qed.

Lemma steps_safe t t' : rtc outbox_step t t' -> outbox_safe t t'.
Proof.
  induction 1 as [t|t1 t2 t3 Hs _ IH]; [reflexivity|]. transitivity t2; [|done].
  destruct Hs as [env ops t]. apply respects_transaction; [apply _|]. apply run_ops_safe.
Qed.

Lemma outbox_inv_empty : outbox_inv [].
Proof. split; [constructor | done]. Qed.

(** ** Settlements: ack, retry and dead_letter behind one fence *)

Inductive settlement : Type :=
  | S_ack
  | S_retry (available : datetime) (error : pystr)
  | S_dead_letter (error : pystr).

Definition settlement_op (k : settlement) (entry worker : pystr) (version : Z) (now : datetime)
  : outbox_op :=
  match k with
  | S_ack => OpAck entry worker version now
  | S_retry available error => OpRetry entry worker version available error now
  | S_dead_letter error => OpDeadLetter entry worker version error now
  end.

(** The row a settlement leaves. *)
Definition settled (k : settlement) (now : Z) : outbox_row -> outbox_row :=
  match k with
  | S_ack => acked now
  | S_retry available error => retried (instant available) error now
  | S_dead_letter error => dead_lettered error now
  end.

Definition is_aware (d : datetime) : bool := match d with Aware _ _ => true | Naive _ => false end.

(** Arguments the method accepts. *)
Definition settlement_args (k : settlement) (entry worker : pystr) (version : Z) (now : datetime)
  : bool :=
  fullmatch _SAFE_ID entry && fullmatch _SAFE_ID worker && (1 <=? version) && is_aware now
  && match k with
     | S_ack => true
     | S_retry available error => fullmatch _SAFE_ERROR_CODE error && is_aware available
     | S_dead_letter error => fullmatch _SAFE_ERROR_CODE error
     end.

Section Settlements.
Context `{PgEnv}.

Lemma utc_aware d name : _utc d name = if is_aware d then Ok (utc (instant d)) else _utc d name.
Proof. by destruct d. Qed.

(** A settlement is its one statement, behind the argument checks. *)
Lemma settlement_run k entry worker version now t :
  settlement_args k entry worker version now = true ->
  run_op (settlement_op k entry worker version now) (Session t false)
  = match settle (settled k (instant now)) entry worker version (instant now) t with
    | Ok (c, t') =>
        if cr_rowcount c =? 1 then (Ok (), Session t' false)
        else (raise PlaneError ("outbox " ++ match k with S_ack => "ack" | S_retry _ _ => "retry"
                | S_dead_letter _ => "dead-letter" end ++ " version fence rejected the operation"),
              Session t' false)
    | Err e => (Err e, Session t true)
    end.
Proof.
  unfold settlement_args. intros Ha. split_bools.
  assert (_fence_inputs entry worker version = Ok (entry, worker, version)) as Hf.
  { unfold _fence_inputs, _bounded_text. destruct (fullmatch _SAFE_ID entry); [|done].
    destruct (fullmatch _SAFE_ID worker); [|done]. cbn.
    destruct (Z.ltb_spec version 1); [lia|done]. }
  destruct now as [|w off]; [done|].
  destruct k as [|[|w' off'] error|error]; split_bools; try done;
    cbn [settlement_op run_op]; unfold ack, retry, dead_letter, _bounded_text;
    repeat match goal with H : fullmatch ?p ?s = true |- _ => rewrite H end;
    rewrite Hf; unfold mbind, SM_mbind, lift, exec; cbn -[settle];
    rewrite ?Z.sub_0_r; unfold _ACK_SQL, _RETRY_SQL, _DEAD_LETTER_SQL;
    match goal with |- context [settle ?f ?a ?b ?c ?d ?t] =>
      destruct (settle f a b c d t) as [[x t']|e] end; cbn;
    unfold _require_single_update;
    try match goal with |- context [cr_rowcount ?x =? 1] => destruct (cr_rowcount x =? 1) end; done.
Qed.

Lemma fenced_conflict entry worker version now a b :
  fenced entry worker version now a = true -> fenced entry worker version now b = true ->
  outbox_conflict a b = true.
Proof.
  unfold fenced, outbox_conflict. intros Ha Hb. split_bools.
  apply orb_true_iff. left. apply bool_decide_eq_true. congruence.
Qed.

Lemma settled_keys k now a b p :
  outbox_conflict (if p a : bool then settled k now a else a)
                  (if p b : bool then settled k now b else b) = outbox_conflict a b.
Proof. destruct (p a), (p b), k; done. Qed.

(** Settling a claimed row of the invariant violates no constraint, unless
    its version is the largest BIGINT. *)
Lemma settled_check k now r :
  row_ok r -> ro_status r = O_claimed -> ro_version r < int8_max ->
  check_outbox_row (settled k now r) = Ok ().
Proof.
  intros Hok Hst Hv. pose proof (attempts_claimed r Hok Hst).
  destruct Hok as [(H1 & H2 & Hc)%check_outbox_row_Ok _ _ _ _ _ _].
  unfold outbox_checks in Hc. split_bools.
  assert (is_int8 (ro_version r + 1) = true) as Hi8.
  { unfold is_int8 in *. split_bools. apply andb_true_iff. rewrite !Z.leb_le. lia. }
  unfold check_outbox_row, outbox_checks.
  destruct k; cbn -[is_int8 is_int4 fullmatch payload_size]; rewrite Hi8, H2; cbn -[fullmatch payload_size];
    repeat match goal with H : fullmatch _ _ = true |- _ => rewrite H; clear H
                         | H : payload_size _ = true |- _ => rewrite H; clear H end;
    rewrite !(proj2 (Z.leb_le _ _)) by lia; done.
Qed.

Lemma settle_hit k entry worker version now t r :
  outbox_inv t -> r ∈ t -> fenced entry worker version now r = true -> version < int8_max ->
  settle (settled k now) entry worker version now t
  = Ok (CommandResult 1 [], update_where (fenced entry worker version now) (settled k now) t).
Proof.
  intros Hi Hr Hf Hv. unfold settle, update_returning.
  rewrite (rows_where_unique outbox_conflict _ t r); [|apply Hi|apply fenced_conflict|done|done].
  assert (ro_status r = O_claimed /\ ro_version r = version) as [Hst Hver].
  { unfold fenced in Hf. split_bools. auto. }
  cbn -[update_where]. rewrite settled_check; [|by eapply (proj1 (Forall_forall _ _)); [apply Hi|]|done|lia].
  cbn -[update_where]. unfold update_where at 1.
  rewrite unique_ok_fmap; [|intros; apply settled_keys]. by rewrite (inv_unique t Hi).
Qed.

Lemma settle_miss f entry worker version now t :
  outbox_inv t -> (forall r, r ∈ t -> fenced entry worker version now r = false) ->
  settle f entry worker version now t = Ok (CommandResult 0 [], t).
Proof.
  intros Hi Hf. unfold settle, update_returning.
  rewrite (proj2 (rows_where_nil _ _) Hf), (update_where_none _ _ _ Hf). cbn.
  by rewrite (inv_unique t Hi).
Qed.
End Settlements.
