(* ===== verification/OutboxSpec.v ===== *)
(** * What the outbox promises

    The theorems of the outbox component: the table invariant on every
    reachable table, the version fence of a settlement, at-most-once
    settlement, exclusive claims, the lease, what a claim selects and what an
    enqueue stores. *)

From S2P Require Import Prelude Regex Errors Domain Sha256 Pg Outbox OutboxSafety.

(** ** A concrete table *)

Definition sample_entry (id : string) (available : Z) : OutboxEntry :=
  {| oe_entry_id := u id; oe_topic := u "authority.effect"; oe_canonical_payload := u "payload";
     oe_payload_sha256 := sha256_hex (u "payload"); oe_idempotency_key := u id;
     oe_available_at := utc available |}.

Definition sample_ops : list (bool * outbox_op) :=
  pair false <$> [OpEnqueue (sample_entry "entry-1" 100); OpEnqueue (sample_entry "entry-2" 50);
   OpClaim (u "worker-a") [u "authority.effect"] (utc 200) 1000 1].
Definition sample_table : outbox_table := snd (transaction (run_ops sample_ops) []).

Lemma sample_reachable : rtc outbox_step [] sample_table.
Proof. apply rtc_once. constructor. Qed.

Section Fence.
Context `{PgEnv}.

Lemma settlement_success k entry worker version now s s' :
  run_op (settlement_op k entry worker version now) s = (Ok (), s') ->
  settlement_args k entry worker version now = true.
Proof.
  unfold settlement_args. intros Hr.
  destruct k; cbn [settlement_op run_op] in Hr; unfold ack, retry, dead_letter in Hr; inv_run.
  all: match goal with Hf : _fence_inputs _ _ _ = Ok ?v |- _ =>
         destruct v as [[? ?] ?]; unfold _fence_inputs in Hf; inv_ok end.
  all: inv_run.
  all: repeat match goal with H : _bounded_text _ _ _ = Ok _ |- _ =>
         apply bounded_text_Ok in H as [-> H]; rewrite ?H end.
  all: split_bools; rewrite (proj2 (Z.leb_le 1 version)) by lia.
  all: destruct now; [done|]. all: try done.
  match goal with H : _utc available _ = Ok _ |- _ => by destruct available end.
Qed.

(** The outcome of a settlement on a table of the invariant. *)
Lemma settlement_miss k entry worker version now t :
  outbox_inv t -> settlement_args k entry worker version now = true ->
  (forall r, r ∈ t -> fenced entry worker version (instant now) r = false) ->
  exists msg, transaction (run_op (settlement_op k entry worker version now)) t
              = (raise PlaneError msg, t).
Proof.
  intros Hi Ha Hm. unfold transaction.
  rewrite (settlement_run k entry worker version now t Ha), (settle_miss _ _ _ _ _ t Hi Hm).
  cbn. eauto.
Qed.

Lemma fenced_row entry worker version now r x t :
  outbox_inv t -> r ∈ t -> x ∈ t -> fenced entry worker version now r = true ->
  fenced entry worker version now x = bool_decide (x = r).
Proof.
  intros Hi Hr Hx Hf. apply eq_true_iff_eq. rewrite bool_decide_eq_true. split; [|by intros ->].
  intros Hfx. apply (unique_ok_elem outbox_conflict t);
    [apply outbox_conflict_sym | apply Hi | done | done | by eapply fenced_conflict].
Qed.

Lemma settlement_hit k entry worker version now t r :
  outbox_inv t -> settlement_args k entry worker version now = true ->
  r ∈ t -> fenced entry worker version (instant now) r = true -> version < int8_max ->
  transaction (run_op (settlement_op k entry worker version now)) t
  = (Ok (), update_where (fun x => bool_decide (x = r)) (settled k (instant now)) t).
Proof.
  intros Hi Ha Hr Hf Hv. unfold transaction.
  rewrite (settlement_run k entry worker version now t Ha), (settle_hit _ _ _ _ _ t r Hi Hr Hf Hv).
  cbn -[update_where]. f_equal. apply update_where_ext; [|done]. intros x Hx. by apply (fenced_row _ _ _ _ _ _ t).
Qed.

(** Worker [worker] holds the lease of entry [entry] that row [r] records at
    [version], at time [now]. *)
Record holds_lease (entry worker : pystr) (version now : Z) (r : outbox_row) : Prop := {
  hl_entry : ro_entry_id r = entry;
  hl_claimed : ro_status r = O_claimed;
  hl_worker : ro_lease_owner r = Some worker;
  hl_version : ro_version r = version;
  hl_live : exists expires, ro_lease_expires_at r = Some expires /\ now < expires
}.

Lemma fenced_holds entry worker version now r :
  fenced entry worker version now r = true <-> holds_lease entry worker version now r.
Proof.
  unfold fenced. split.
  - intros Hf. split_bools. destruct (ro_lease_expires_at r) as [e|] eqn:He; [|done].
    split; try done. exists e. split; [done|lia].
  - intros [-> -> -> -> (e & -> & He)]. rewrite !bool_decide_eq_true_2 by done. cbn.
    rewrite Z.eqb_refl. cbn. by apply Z.ltb_lt.
Qed.

(** A settlement (ack, retry or dead letter) of a claimed entry succeeds
    exactly when the caller holds the row's lease: its worker id, its version
    and an expiry after now.  It then rewrites that row alone, and otherwise
    it raises the fence conflict and changes nothing. *)
Theorem settlement_fence_exact k entry worker version now t
    (Hinv : outbox_inv t) (Hargs : settlement_args k entry worker version now = true) :
  (forall r, r ∈ t -> holds_lease entry worker version (instant now) r ->
     version < int8_max ->
     transaction (run_op (settlement_op k entry worker version now)) t
     = (Ok (), update_where (fun x => bool_decide (x = r)) (settled k (instant now)) t))
  /\ ((forall r, r ∈ t -> ~ holds_lease entry worker version (instant now) r) ->
      exists msg, transaction (run_op (settlement_op k entry worker version now)) t
                  = (raise PlaneError msg, t)).
Proof.
  split.
  - intros r Hr Hl%fenced_holds ?. by apply settlement_hit.
  - intros Hn. apply settlement_miss; [done|done|]. intros r Hr. apply not_true_iff_false.
    rewrite fenced_holds. auto.
Qed.

(** A successful settlement rewrote the row its fence names. *)
Lemma settlement_settles k entry worker version now t t' :
  transaction (run_op (settlement_op k entry worker version now)) t = (Ok (), t') ->
  exists r, r ∈ t /\ fenced entry worker version (instant now) r = true
            /\ settled k (instant now) r ∈ t'.
Proof.
  intros (s' & Hr & Hf & <-)%transaction_run.
  pose proof (settlement_success _ _ _ _ _ _ _ Hr) as Ha.
  rewrite (settlement_run k entry worker version now t Ha) in Hr.
  destruct (settle _ _ _ _ _ _) as [[c t1]|] eqn:Hs; [|done].
  destruct (Z.eqb_spec (cr_rowcount c) 1) as [Hc|]; [|done]. injection Hr as <-. cbn [s_db].
  unfold settle in Hs. inv_ok. destruct v as [rows t2]. inv_ok. simplify_eq. cbn in Hc.
  apply update_returning_Ok in Hs0 as (_ & -> & -> & _).
  destruct (rows_where _ t) as [|r l] eqn:Hrows; [done|].
  assert (r ∈ r :: l) as Hin by left. rewrite <- Hrows in Hin.
  apply elem_of_rows_where in Hin as [Hr Hfe].
  exists r. split_and!; [done|done|]. apply elem_of_update_where. exists r. by rewrite Hfe.
Qed.

Lemma settled_identity k now r :
  row_identity (settled k now r) = row_identity r
  /\ ro_version (settled k now r) = ro_version r + 1.
Proof. by destruct k. Qed.
End Fence.

(** A fence older than the row's version misses. *)
Lemma stale_fence t r entry worker version now x :
  outbox_inv t -> r ∈ t -> ro_entry_id r = entry -> version < ro_version r ->
  x ∈ t -> fenced entry worker version now x = false.
Proof.
  intros Hi Hr Hid Hv Hx. destruct (fenced _ _ _ _ x) eqn:Hf; [|done].
  unfold fenced in Hf. split_bools.
  assert (x = r) as -> by (apply (outbox_unique t); auto; left; congruence). lia.
Qed.

(** After a row passed a version, a settlement at that version raises. *)
Lemma stale_settlement `{PgEnv} t r k entry worker version now :
  outbox_inv t -> r ∈ t -> ro_entry_id r = entry -> version < ro_version r ->
  exists e, transaction (run_op (settlement_op k entry worker version now)) t = (Err e, t).
Proof.
  intros Hi Hr Hid Hv.
  destruct (transaction _ t) as [[[]|e] t'] eqn:Ht.
  - exfalso. apply transaction_run in Ht as (s' & Hrun & _ & _).
    apply settlement_success in Hrun as Ha.
    destruct (settlement_miss k entry worker version now t Hi Ha) as [msg Hm].
    { intros x Hx. eauto using stale_fence. }
    unfold transaction in Hm. rewrite Hrun in Hm. by destruct (s_failed s').
  - exists e. f_equal. by eapply transaction_error_atomic.
Qed.

Lemma row_version_steps t t' r :
  outbox_inv t -> rtc outbox_step t t' -> r ∈ t ->
  outbox_inv t' /\ exists r', r' ∈ t' /\ ro_entry_id r' = ro_entry_id r /\ ro_version r <= ro_version r'.
Proof.
  intros Hi Hs Hr. destruct (steps_safe t t' Hs Hi) as [Hi' He]. split; [done|].
  destruct (table_evolves_elem _ _ _ r He Hr) as (r' & Hr' & Hid & Hv).
  exists r'. split; [done|]. unfold row_identity in Hid. split; [congruence|].
  destruct Hv as [->|[? _]]; lia.
Qed.

(** At most one settlement of a claim succeeds.  After a worker acked,
    retried or dead-lettered an entry at a version, every later settlement at
    that version raises and changes nothing, whoever sends it and whatever
    operations of other workers committed in between. *)
Theorem settled_at_most_once (env1 env2 : PgEnv) k1 k2 entry w1 w2 version now1 now2 t t1 t2
    (Hreach : rtc outbox_step [] t)
    (Hfirst : transaction (run_op (H := env1) (settlement_op k1 entry w1 version now1)) t
              = (Ok (), t1))
    (Hlater : rtc outbox_step t1 t2) :
  exists e, transaction (run_op (H := env2) (settlement_op k2 entry w2 version now2)) t2
            = (Err e, t2).
Proof.
  destruct (steps_safe [] t Hreach outbox_inv_empty) as [Hi _].
  destruct (settlement_settles _ _ _ _ _ _ _ Hfirst) as (r & _ & Hf & Hr).
  unfold fenced in Hf. split_bools.
  destruct (settled_identity k1 (instant now1) r) as [Hid Hver]. unfold row_identity in Hid.
  assert (outbox_inv t1) as Hi1.
  { pose proof (respects_transaction outbox_safe _ t (run_op_safe (H := env1) (settlement_op k1 entry w1 version now1))) as Hs.
    rewrite Hfirst in Hs. by apply Hs. }
  destruct (row_version_steps _ _ _ Hi1 Hlater Hr) as (Hi2 & r2 & Hr2 & Hid2 & Hv2).
  eapply stale_settlement; [exact Hi2|exact Hr2|congruence|lia].
Qed.

(** ** Claims *)

(** The entry a row stores, and what a claim returns for it. *)
Definition row_entry (r : outbox_row) : OutboxEntry :=
  {| oe_entry_id := ro_entry_id r; oe_topic := ro_topic r;
     oe_canonical_payload := ro_canonical_payload r; oe_payload_sha256 := ro_payload_sha256 r;
     oe_idempotency_key := ro_idempotency_key r; oe_available_at := utc (ro_available_at r) |}.

Definition claimed_item (worker : pystr) (expires : Z) (r : outbox_row) : ClaimedOutboxEntry :=
  {| co_entry := row_entry r; co_worker_id := worker; co_lease_expires_at := utc expires;
     co_expected_version := ro_version r + 1; co_attempt := ro_attempt_count r + 1 |}.

Definition claim_args (worker : pystr) (topics : list pystr) (now : datetime)
    (duration limit : Z) : Prop :=
  fullmatch _SAFE_ID worker = true /\ topics <> [] /\ NoDup topics
  /\ Forall (fun t => fullmatch _SAFE_TOPIC t = true) topics /\ is_aware now = true
  /\ 0 < duration <= _MAX_LEASE_DURATION /\ 1 <= limit <= 1000.

Lemma map_each_fmap {E A B} (f : A -> outcome E B) (g : A -> B) l :
  (forall x, x ∈ l -> f x = Ok (g x)) -> map_each f l = Ok (g <$> l).
Proof.
  induction l as [|x l IH]; intros Hf; [done|]. cbn [map_each]. rewrite (Hf x) by left.
  cbn. rewrite IH; [done|]. intros y Hy. apply Hf. by right.
Qed.

Lemma unique_NoDup t : outbox_inv t -> NoDup t.
Proof.
  intros [_ Hu]. apply (unique_ok_NoDup outbox_conflict); [|done]. intros r.
  unfold outbox_conflict. by rewrite bool_decide_eq_true_2.
Qed.

Section Claims.
Context `{PgEnv}.

Lemma entry_from_record_ok r : row_ok r -> _entry_from_record r = Ok (row_entry r).
Proof.
  intros Hok. unfold _entry_from_record, _record_datetime, _validate_entry, _bounded_text.
  destruct (check_outbox_row_Ok r _ (ok_constraints r Hok)) as (_ & _ & Hc).
  unfold outbox_checks in Hc. split_bools. cbn -[fullmatch payload_size].
  rewrite (ok_entry_id r Hok), (ok_key r Hok). cbn -[fullmatch payload_size].
  unfold _SAFE_TOPIC. repeat match goal with H : _ = true |- _ => rewrite H; clear H end.
  cbn -[fullmatch payload_size]. repeat match goal with H : payload_size _ = true |- _ => rewrite H end.
  cbn -[fullmatch]. rewrite py_lower_hex by done.
  repeat match goal with H : fullmatch _ (ro_payload_sha256 r) = true |- _ => rewrite H end.
  cbn. rewrite (ok_digest r Hok), bool_decide_eq_false_2 by (intros Hx; by apply Hx). cbn.
  unfold row_entry. do 2 f_equal. unfold utc. f_equal. lia.
Qed.

Lemma claim_check worker expires now r :
  row_ok r -> ro_version r < int8_max -> ro_attempt_count r < int4_max ->
  check_outbox_row (claim_row_update worker expires now r) = Ok ().
Proof.
  intros Hok Hv Ha. pose proof (attempts_nonneg r Hok).
  destruct Hok as [(H1 & H2 & Hc)%check_outbox_row_Ok _ _ _ _ _ _].
  unfold outbox_checks in Hc. split_bools.
  assert (is_int8 (ro_version r + 1) = true) as Hi8.
  { unfold is_int8 in *. split_bools. apply andb_true_iff. rewrite !Z.leb_le. lia. }
  assert (is_int4 (ro_attempt_count r + 1) = true) as Hi4.
  { unfold is_int4 in *. split_bools. apply andb_true_iff. rewrite !Z.leb_le. lia. }
  unfold check_outbox_row, outbox_checks. cbn -[is_int8 is_int4 fullmatch payload_size].
  rewrite Hi8, Hi4. cbn -[fullmatch payload_size].
  repeat match goal with H : fullmatch _ _ = true |- _ => rewrite H; clear H
                       | H : payload_size _ = true |- _ => rewrite H; clear H end.
  rewrite !(proj2 (Z.leb_le _ _)) by lia. done.
Qed.

Lemma claimed_entry_ok worker expires now r :
  row_ok (claim_row_update worker expires now r) ->
  claimed_entry (claim_row_update worker expires now r) = Ok (claimed_item worker expires r).
Proof.
  intros Hok. unfold claimed_entry. rewrite (entry_from_record_ok _ Hok). cbn.
  unfold claimed_item. do 2 f_equal. unfold utc. f_equal. lia.
Qed.

Lemma available_sorted l : StronglySorted (bool_rel available_le) (sort_by available_le l).
Proof.
  apply sort_by_sorted.
  - apply time_key_total. intros; apply collate_total.
  - apply time_key_trans. intros a b c. apply collate_trans.
Qed.

Lemma claimed_sorted l : StronglySorted (bool_rel claimed_le) (sort_by claimed_le l).
Proof.
  apply sort_by_sorted.
  - apply time_key_total. intros; apply str_leb_total.
  - apply time_key_trans. intros a b c. apply str_leb_trans.
Qed.

(** Rows a claim may take, and the batch it takes: the first in order. *)
Definition eligible (topics : list pystr) (now : Z) (r : outbox_row) : bool :=
  match ro_status r with O_pending | O_retry => true | _ => false end
  && existsb (fun topic => bool_decide (topic = ro_topic r)) topics
  && negb (now <? ro_available_at r) && negb (row_locked "outbox_claim" outbox_row r).
Definition claim_batch (topics : list pystr) (now limit : Z) (t : outbox_table) : outbox_table :=
  select_skip_locked "outbox_claim" available_le (claimable topics now) limit t.

Lemma eligible_claimable topics now r :
  eligible topics now r = claimable topics now r && negb (row_locked "outbox_claim" outbox_row r).
Proof.
  unfold eligible, claimable. f_equal. f_equal; [f_equal|].
  - symmetry. destruct (ro_status r); (apply bool_decide_eq_true_2 || apply bool_decide_eq_false_2); set_solver.
  - apply eq_true_iff_eq. rewrite existsb_exists, bool_decide_eq_true. split.
    + intros (x & Hx & <-%bool_decide_eq_true). by apply list_elem_of_In.
    + intros Hx%list_elem_of_In. eexists. split; [exact Hx|]. by apply bool_decide_eq_true.
  - by rewrite Z.leb_antisym.
Qed.

Lemma claim_batch_eligible topics now limit t :
  claim_batch topics now limit t
  = take (Z.to_nat limit) (select_ordered "outbox_claim" available_le (eligible topics now) t).
Proof.
  unfold claim_batch, select_skip_locked, select_ordered, rows_where. do 2 f_equal.
  apply List.filter_ext. intros r. symmetry. apply eligible_claimable.
Qed.

Lemma claim_batch_sub topics now limit t r :
  r ∈ claim_batch topics now limit t -> r ∈ t /\ claimable topics now r = true.
Proof. apply elem_of_select_skip_locked. Qed.

Lemma claim_batch_rows topics now limit t :
  outbox_inv t ->
  rows_where (selected (claim_batch topics now limit t)) t ≡ₚ claim_batch topics now limit t.
Proof.
  intros Hi. pose proof (unique_NoDup t Hi) as Hnd. apply NoDup_Permutation.
  - by apply NoDup_rows_where.
  - unfold claim_batch, select_skip_locked. eapply sublist_NoDup; [|apply sublist_take].
    rewrite select_ordered_perm. apply NoDup_rows_where. by rewrite scan_perm.
  - intros r. rewrite elem_of_rows_where. split.
    + intros [Hr Hs]. apply (selected_elem t) in Hs; [done|done| |done].
      intros x Hx. by apply claim_batch_sub in Hx as [? _].
    + intros Hr. destruct (claim_batch_sub _ _ _ _ _ Hr) as [Ht _]. split; [done|].
      apply (selected_elem t); [done| |done|done]. intros x Hx. by apply claim_batch_sub in Hx as [? _].
Qed.

(** What a claim returns for a claimed row. *)
Definition claimed_of_row (r : outbox_row) : ClaimedOutboxEntry :=
  {| co_entry := row_entry r; co_worker_id := default [] (ro_lease_owner r);
     co_lease_expires_at := utc (default 0 (ro_lease_expires_at r));
     co_expected_version := ro_version r; co_attempt := ro_attempt_count r |}.

(** The statement of a claim, on a table of the invariant. *)
Lemma claim_sql_run topics now limit worker expires t :
  outbox_inv t ->
  (forall r, r ∈ t -> claimable topics now r = true ->
     ro_version r < int8_max /\ ro_attempt_count r < int4_max) ->
  _CLAIM_SQL topics now limit worker expires t
  = Ok (scan "outbox_claim_returning" outbox_row
          (claim_row_update worker expires now
             <$> rows_where (selected (claim_batch topics now limit t)) t),
        update_where (selected (claim_batch topics now limit t))
          (claim_row_update worker expires now) t).
Proof.
  intros Hi Hroom. unfold _CLAIM_SQL. fold (claim_batch topics now limit t).
  set (b := claim_batch topics now limit t). unfold update_returning.
  rewrite (proj2 (check_each_Ok check_outbox_row
    (claim_row_update worker expires now <$> rows_where (selected b) t) ())).
  - cbn -[update_where]. unfold update_where at 1. rewrite unique_ok_fmap.
    + by rewrite (inv_unique t Hi).
    + intros x y. by destruct (selected b x), (selected b y).
  - apply Forall_forall. intros x (r & -> & Hr)%list_elem_of_fmap. subst b.
    rewrite (claim_batch_rows _ _ _ _ Hi) in Hr. apply claim_batch_sub in Hr as [Hr Hc].
    destruct (Hroom r Hr Hc). apply claim_check; [|done|done].
    by eapply (proj1 (Forall_forall _ _)); [apply Hi|].
Qed.

Lemma claim_update_ok worker expires now r :
  row_ok r -> fullmatch _SAFE_ID worker = true -> ro_version r < int8_max ->
  ro_attempt_count r < int4_max -> row_ok (claim_row_update worker expires now r).
Proof.
  intros Hok Hw Hv Ha. pose proof (attempts_nonneg r Hok).
  apply set_row_ok; auto; first [by apply claim_check | lia | naive_solver].
Qed.

(** Decoding the rows a claim returns never fails. *)
Lemma claim_decode worker expires now batch rows :
  fullmatch _SAFE_ID worker = true ->
  (forall r, r ∈ batch -> row_ok r /\ ro_version r < int8_max /\ ro_attempt_count r < int4_max) ->
  rows ≡ₚ claim_row_update worker expires now <$> batch ->
  map_each claimed_entry rows = Ok (claimed_of_row <$> rows)
  /\ existsb (fun i => bool_decide (co_worker_id i <> worker)) (claimed_of_row <$> rows) = false.
Proof.
  intros Hw Hb Hrows.
  assert (forall x, x ∈ rows -> exists r, x = claim_row_update worker expires now r /\ row_ok x) as Hx.
  { intros x Hx. rewrite Hrows in Hx. apply list_elem_of_fmap in Hx as (r & -> & Hr).
    exists r. split; [done|]. destruct (Hb r Hr) as (? & ? & ?). by apply claim_update_ok. }
  split.
  - apply map_each_fmap. intros x Hin. destruct (Hx x Hin) as (r & -> & Hok).
    by rewrite (claimed_entry_ok _ _ _ _ Hok).
  - apply (exists_row_false (fun i => bool_decide (co_worker_id i <> worker))).
    intros i (x & -> & Hin)%list_elem_of_fmap. destruct (Hx x Hin) as (r & -> & _).
    apply bool_decide_eq_false_2. intros Hne. by apply Hne.
Qed.

(** The batch is the head of the eligible rows in order. *)
Lemma claim_batch_first topics now limit t :
  1 <= limit ->
  Z.of_nat (length (claim_batch topics now limit t))
  = Z.min limit (Z.of_nat (length (rows_where (eligible topics now) t)))
  /\ (forall r, r ∈ claim_batch topics now limit t -> r ∈ t /\ eligible topics now r = true)
  /\ (forall r r', r ∈ claim_batch topics now limit t -> r' ∈ t ->
       r' ∉ claim_batch topics now limit t -> eligible topics now r' = true ->
       available_le r r' = true).
Proof.
  intros Hl. rewrite claim_batch_eligible. set (l := select_ordered _ _ _ _).
  assert (length l = length (rows_where (eligible topics now) t)) as Hlen.
  { unfold l. rewrite select_ordered_perm. apply Permutation_length, rows_where_perm, scan_perm. }
  split; [rewrite length_take, Hlen; lia|]. split.
  - intros r (i & Hi & _)%elem_of_take. by eapply elem_of_select_ordered, list_elem_of_lookup_2.
  - intros r r' Hr Hr' Hn He. eapply take_before_drop; [apply available_sorted|exact Hr|].
    assert (r' ∈ l) as Hin by (by apply elem_of_select_ordered).
    rewrite <- (take_drop (Z.to_nat limit) l) in Hin. by apply elem_of_app in Hin as [?|?].
Qed.

(** Where the arguments are accepted, [claim] is its statement and a decode. *)
Lemma claim_run worker topics now duration limit t rows t' :
  claim_args worker topics now duration limit ->
  _CLAIM_SQL topics (instant now) limit worker (instant now + duration) t = Ok (rows, t') ->
  transaction (claim worker topics now duration limit) t
  = match map_each claimed_entry rows with
    | Ok items =>
        if existsb (fun i => bool_decide (co_worker_id i <> worker)) items
        then (raise PlaneError "outbox claim returned a different worker", t)
        else (Ok (sort_by claimed_le items), t')
    | Err e => (Err e, t)
    end.
Proof.
  intros (Hw & Hne & Hnd & HF & Ha & Hd & Hl) Hq.
  unfold transaction, claim, _bounded_text, _positive_limit. rewrite Hw.
  rewrite (map_each_fmap _ id); [|intros x Hx; rewrite Forall_forall in HF; by rewrite (HF x Hx)].
  rewrite list_fmap_id, (bool_decide_eq_false_2 _ Hne).
  rewrite !(proj2 (Z.leb_le _ _)), (proj2 (Z.ltb_lt _ _)) by lia.
  destruct now as [|wall off]; [done|]. cbn in Hq.
  unfold mbind, SM_mbind, lift, exec. cbn -[_CLAIM_SQL].
  rewrite (bool_decide_eq_true_2 _ Hnd). cbn -[_CLAIM_SQL]. rewrite Z.sub_0_r, Hq. cbn.
  destruct (map_each claimed_entry rows) as [items|e]; [|done]. cbn.
  by destruct (existsb _ items).
Qed.

(** C20: a claim by a valid worker succeeds and takes exactly the first
    [limit] eligible rows by availability: pending or retrying rows of the
    topics, due, and not locked by another transaction.  Each becomes claimed
    by the worker until now + duration with its version and attempt advanced
    by one, no other row changes, and the result lists the claimed entries
    sorted, each with the version that fences its settlement. *)
Theorem claim_exact worker topics now duration limit t
    (Hinv : outbox_inv t) (Hargs : claim_args worker topics now duration limit)
    (Hroom : forall r, r ∈ t -> claimable topics (instant now) r = true ->
       ro_version r < int8_max /\ ro_attempt_count r < int4_max) :
  let batch := claim_batch topics (instant now) limit t in
  let expires := instant now + duration in
  exists items,
    transaction (claim worker topics now duration limit) t
    = (Ok items, update_where (fun r => bool_decide (r ∈ batch))
                   (claim_row_update worker expires (instant now)) t)
    /\ items ≡ₚ claimed_item worker expires <$> batch
    /\ StronglySorted (bool_rel claimed_le) items
    /\ Z.of_nat (length batch)
       = Z.min limit (Z.of_nat (length (rows_where (eligible topics (instant now)) t)))
    /\ (forall r, r ∈ batch -> r ∈ t /\ eligible topics (instant now) r = true)
    /\ (forall r r', r ∈ batch -> r' ∈ t -> r' ∉ batch ->
         eligible topics (instant now) r' = true -> available_le r r' = true).
Proof.
  intros batch expires.
  assert (forall r, r ∈ t -> selected batch r = bool_decide (r ∈ batch)) as Hsel.
  { intros r Hr. apply eq_true_iff_eq. rewrite bool_decide_eq_true. apply (selected_elem t); auto.
    intros x Hx. by apply claim_batch_sub in Hx as [? _]. }
  pose proof (claim_sql_run topics (instant now) limit worker expires t Hinv Hroom) as Hq.
  fold batch in Hq. set (rows := scan _ _ _) in Hq.
  assert (rows ≡ₚ claim_row_update worker expires (instant now) <$> batch) as Hrows.
  { unfold rows. rewrite scan_perm. unfold batch. by rewrite (claim_batch_rows _ _ _ _ Hinv). }
  destruct (claim_decode worker expires (instant now) batch rows) as [Hdec Hwork]; [apply Hargs| |done|].
  { intros r Hr. destruct (claim_batch_sub _ _ _ _ _ Hr) as [Ht Hc].
    split; [by eapply (proj1 (Forall_forall _ _)); [apply Hinv|] | by apply Hroom]. }
  exists (sort_by claimed_le (claimed_of_row <$> rows)). split; [|split; [|split]].
  - rewrite (claim_run _ _ _ _ _ _ _ _ Hargs Hq), Hdec, Hwork. f_equal. by apply update_where_ext.
  - rewrite sort_by_perm, Hrows, <- list_fmap_compose. done.
  - apply claimed_sorted.
  - apply claim_batch_first. destruct Hargs as (_ & _ & _ & _ & _ & _ & ?). lia.
Qed.
End Claims.

Lemma bounded_texts_id topics name p l :
  map_each (fun topic => _bounded_text topic name p) topics = Ok l -> topics = l.
Proof.
  intros HF%map_each_Ok. induction HF as [|x y l l' Hxy _ IH]; [done|].
  apply bounded_text_Ok in Hxy as [-> _]. by f_equal.
Qed.

Lemma claimed_entry_fields `{PgEnv} r i :
  claimed_entry r = Ok i ->
  oe_entry_id (co_entry i) = ro_entry_id r /\ co_expected_version i = ro_version r
  /\ Some (co_worker_id i) = ro_lease_owner r.
Proof.
  unfold claimed_entry, _record_text. intros Hc. inv_ok. subst. cbn.
  destruct (ro_lease_owner r); inv_ok. subst. split_and!; try done.
  unfold _entry_from_record, _validate_entry in Hs. inv_ok. subst. cbn in *.
  by match goal with Hx : _bounded_text (ro_entry_id r) _ _ = Ok _ |- _ =>
    apply bounded_text_Ok in Hx as [-> _] end.
Qed.

(** The statement of a successful claim and the decoding of its rows. *)
Lemma claim_inv `{PgEnv} worker topics now duration limit t items t' :
  transaction (claim worker topics now duration limit) t = (Ok items, t') ->
  let f := claim_row_update worker (instant now + duration) (instant now) in
  let batch := selected (claim_batch topics (instant now) limit t) in
  exists rows, rows ≡ₚ f <$> rows_where batch t /\ t' = update_where batch f t
    /\ exists decoded, items ≡ₚ decoded /\ Forall2 (fun r i => claimed_entry r = Ok i) rows decoded.
Proof.
  intros (s' & Hr & _ & <-)%transaction_run. unfold claim in Hr. inv_run. subst.
  repeat match goal with
  | Hx : _bounded_text _ _ _ = Ok _ |- _ => apply bounded_text_Ok in Hx as [-> _]
  | Hx : _utc _ _ = Ok _ |- _ => apply utc_Ok in Hx as ->; rewrite instant_utc in *
  end.
  match goal with Hx : _positive_limit limit = Ok _ |- _ =>
    unfold _positive_limit in Hx; destruct ((1 <=? limit) && (limit <=? 1000)); [injection Hx as <-|discriminate Hx] end.
  assert (v1 = topics) as -> by (symmetry; by eapply bounded_texts_id).
  apply exec_run_Ok in Hr7 as (_ & _ & Hq). cbn [s_db] in Hq. unfold _CLAIM_SQL in Hq. inv_ok.
  destruct v as [rs t1]. injection Hq as Hq1 Hq2. subst.
  apply update_returning_Ok in Hs as (_ & -> & Hdb & _). apply map_each_Ok in Hl0.
  eexists. split; [apply scan_perm|]. split; [exact Hdb|]. eexists. split; [apply sort_by_perm|exact Hl0].
Qed.

(** Each entry a claim returned was decoded from the claimed form of a
    claimable row, and each row of its batch is among them. *)
Lemma claim_items `{PgEnv} worker topics now duration limit t items t' i :
  outbox_inv t ->
  transaction (claim worker topics now duration limit) t = (Ok items, t') -> i ∈ items ->
  let f := claim_row_update worker (instant now + duration) (instant now) in
  exists r, r ∈ t /\ claimable topics (instant now) r = true /\ claimed_entry (f r) = Ok i /\ f r ∈ t'.
Proof.
  intros Hi (rows & Hrows & -> & decoded & Hdec & HF)%claim_inv Hin.
  rewrite Hdec in Hin. apply list_elem_of_lookup in Hin as [n Hn].
  destruct (Forall2_lookup_r _ _ _ _ _ HF Hn) as (x & Hx & Hd).
  apply list_elem_of_lookup_2 in Hx. rewrite Hrows in Hx. apply list_elem_of_fmap in Hx as (r & -> & Hr).
  apply elem_of_rows_where in Hr as [Hr Hsel].
  assert (claimable topics (instant now) r = true) as Hc.
  { apply (selected_elem t) in Hsel; [|done|intros y Hy; eapply elem_of_select_skip_locked; exact Hy|done].
    by eapply elem_of_select_skip_locked. }
  exists r. split_and!; [done..|]. apply elem_of_update_where. exists r. by rewrite Hsel.
Qed.

Lemma claim_takes `{PgEnv} worker topics now duration limit t items t' r :
  transaction (claim worker topics now duration limit) t = (Ok items, t') ->
  r ∈ claim_batch topics (instant now) limit t ->
  exists i, i ∈ items /\ claimed_entry (claim_row_update worker (instant now + duration) (instant now) r) = Ok i.
Proof.
  intros (rows & Hrows & _ & decoded & Hdec & HF)%claim_inv Hr.
  assert (r ∈ t) as Ht by (by apply claim_batch_sub in Hr as [? _]).
  assert (claim_row_update worker (instant now + duration) (instant now) r ∈ rows) as [n Hn]%list_elem_of_lookup.
  { rewrite Hrows. apply list_elem_of_fmap. exists r. split; [done|]. apply elem_of_rows_where. split; [done|].
    apply bool_decide_eq_true, list_elem_of_fmap. eauto. }
  destruct (Forall2_lookup_l _ _ _ _ _ HF Hn) as (i & Hi & Hd). exists i. split; [|done].
  rewrite Hdec. by eapply list_elem_of_lookup_2.
Qed.

Lemma claim_success `{PgEnv} worker topics now duration limit t items t' i :
  outbox_inv t ->
  transaction (claim worker topics now duration limit) t = (Ok items, t') -> i ∈ items ->
  exists r, r ∈ t /\ claimable topics (instant now) r = true
    /\ oe_entry_id (co_entry i) = ro_entry_id r
    /\ co_expected_version i = ro_version r + 1 /\ co_worker_id i = worker
    /\ claim_row_update worker (instant now + duration) (instant now) r ∈ t'.
Proof.
  intros Hi Ht Hin. destruct (claim_items _ _ _ _ _ _ _ _ _ Hi Ht Hin) as (r & Hr & Hc & Hdec & Hr').
  exists r. apply claimed_entry_fields in Hdec as (He & Hv & Hw). cbn in He, Hv, Hw. split_and!; try done. congruence.
Qed.

Lemma transaction_claim_inv `{PgEnv} worker topics now duration limit t items t' :
  outbox_inv t ->
  transaction (claim worker topics now duration limit) t = (Ok items, t') -> outbox_inv t'.
Proof.
  intros Hi Ht.
  pose proof (respects_transaction outbox_safe _ t (claim_safe worker topics now duration limit)) as Hs.
  rewrite Ht in Hs. by apply Hs.
Qed.

(** C5: leases exclude each other.  When a worker's claim returned an entry
    and, after any operations of other workers, another claim returns the same
    entry, the second carries a larger version, and from then on every
    settlement at the first worker's version raises and changes nothing. *)
Theorem claims_exclusive (env1 env2 env3 : PgEnv) w1 w2 ts1 ts2 now1 now2 d1 d2 n1 n2
    t t1 t2 t3 items1 items2 i j
    (Hreach : rtc outbox_step [] t)
    (Hclaim1 : transaction (claim (H := env1) w1 ts1 now1 d1 n1) t = (Ok items1, t1))
    (Hbetween : rtc outbox_step t1 t2)
    (Hclaim2 : transaction (claim (H := env2) w2 ts2 now2 d2 n2) t2 = (Ok items2, t3))
    (Hi : i ∈ items1) (Hj : j ∈ items2)
    (Hsame : oe_entry_id (co_entry i) = oe_entry_id (co_entry j)) :
  co_expected_version i < co_expected_version j
  /\ forall k worker now t4, rtc outbox_step t3 t4 ->
     exists e, transaction (run_op (H := env3)
       (settlement_op k (oe_entry_id (co_entry i)) worker (co_expected_version i) now)) t4
       = (Err e, t4).
Proof.
  destruct (steps_safe [] t Hreach outbox_inv_empty) as [Hinv _].
  destruct (claim_success _ _ _ _ _ _ _ _ i Hinv Hclaim1 Hi) as (r1 & _ & _ & E1 & V1 & _ & Hr1).
  pose proof (transaction_claim_inv _ _ _ _ _ _ _ _ Hinv Hclaim1) as Hinv1.
  destruct (row_version_steps _ _ _ Hinv1 Hbetween Hr1) as (Hinv2 & r & Hr & Eid & Ever).
  destruct (claim_success _ _ _ _ _ _ _ _ j Hinv2 Hclaim2 Hj) as (r2 & Hr2 & _ & E2 & V2 & _ & Hr3).
  pose proof (transaction_claim_inv _ _ _ _ _ _ _ _ Hinv2 Hclaim2) as Hinv3.
  cbn in Eid, Ever. assert (r = r2) as -> by (apply (outbox_unique t2); auto; left; congruence).
  split; [lia|]. intros k worker now t4 Hs.
  destruct (row_version_steps _ _ _ Hinv3 Hs Hr3) as (Hinv4 & r4 & Hr4 & Eid4 & Ever4).
  cbn in Eid4, Ever4. eapply stale_settlement; [exact Hinv4|exact Hr4|congruence|lia].
Qed.

(** C37: every table reachable by committed operations satisfies the
    constraints of the schema with unique entry ids and idempotency keys, and
    only stores validated entries whose digest is the SHA-256 of their payload;
    along any further operations a row keeps its identity, and either stays as
    it is or advances its version, and once succeeded or dead-lettered it never
    changes again. *)
Theorem outbox_always_safe t t'
    (Hreach : rtc outbox_step [] t) (Hlater : rtc outbox_step t t') :
  outbox_inv t /\ outbox_inv t'
  /\ (forall r, r ∈ t -> exists r', r' ∈ t' /\ row_identity r' = row_identity r
        /\ (r' = r \/ ro_version r < ro_version r')
        /\ (outbox_terminal (ro_status r) = true -> r' = r)).
Proof.
  destruct (steps_safe [] t Hreach outbox_inv_empty) as [Hi _].
  destruct (steps_safe t t' Hlater Hi) as [Hi' He]. split_and!; [done|done|].
  intros r Hr. destruct (table_evolves_elem _ _ _ r He Hr) as (r' & Hr' & Hid & Hv).
  exists r'. split_and!; [done|done|naive_solver|]. intros Ht. destruct Hv as [?|[_ ?]]; congruence.
Qed.

(** ** The lease *)

Lemma claim_sql_table `{PgEnv} topics now limit worker expires t rows t' :
  _CLAIM_SQL topics now limit worker expires t = Ok (rows, t') ->
  t' = update_where (selected (claim_batch topics now limit t))
         (claim_row_update worker expires now) t.
Proof.
  unfold _CLAIM_SQL. intros Hq. inv_ok. destruct v as [rs t1]. inv_ok. simplify_eq.
  by apply update_returning_Ok in Hs as (_ & _ & -> & _).
Qed.

Lemma reclaim_sql_table `{PgEnv} now limit t rows t' :
  _RECLAIM_SQL now limit t = Ok (rows, t') ->
  t' = update_where (selected (select_skip_locked "outbox_reclaim" lease_le (lease_expired now) limit t))
         (reclaimed now) t.
Proof.
  unfold _RECLAIM_SQL. intros Hq. inv_ok. destruct v as [rs t1]. inv_ok. simplify_eq.
  by apply update_returning_Ok in Hs as (_ & _ & -> & _).
Qed.

Lemma settle_table f entry worker version now t c t' :
  settle f entry worker version now t = Ok (c, t') ->
  t' = update_where (fenced entry worker version now) f t.
Proof.
  unfold settle. intros Hq. inv_ok. destruct v as [rs t1]. inv_ok. simplify_eq.
  by apply update_returning_Ok in Hs as (_ & _ & -> & _).
Qed.

Section Lease.
Variable r : outbox_row.

(** The row [r] is there and stays as it is. *)
Definition keeps (t t' : outbox_table) : Prop := outbox_inv t -> r ∈ t -> outbox_inv t' /\ r ∈ t'.

#[local] Instance keeps_preorder : PreOrder keeps.
Proof. split; [intros t; by split|]. intros t1 t2 t3 H1 H2 Hi Hr. destruct (H1 Hi Hr). auto. Qed.

Lemma keeps_update p f t t' :
  outbox_safe t t' -> t' = update_where p f t -> (outbox_inv t -> r ∈ t -> p r = false) -> keeps t t'.
Proof.
  intros Hs -> Hp Hi Hr. split; [by apply Hs|]. apply elem_of_update_where. exists r.
  by rewrite (Hp Hi Hr).
Qed.

Context `{PgEnv}.

Lemma enqueue_keeps e : respects keeps (enqueue e).
Proof.
  unfold enqueue. respects_auto. apply respects_exec; [apply _|]. intros t c t' Hq Hi Hr.
  split; [by eapply enqueue_sql_safe|]. unfold _ENQUEUE_SQL in Hq. inv_ok.
  case_match; inv_ok; [by simplify_eq|]. case_match; inv_ok. simplify_eq.
  apply elem_of_app. by left.
Qed.

Lemma claim_keeps worker topics now d n :
  ro_status r = O_claimed -> respects keeps (claim worker topics now d n).
Proof.
  intros Hst. unfold claim. respects_auto. apply respects_exec; [apply _|]. intros t c t' Hq.
  match goal with Hx : _bounded_text worker _ _ = Ok _ |- _ => apply bounded_text_Ok in Hx as [-> ?] end.
  eapply keeps_update; [by eapply claim_sql_safe|by eapply claim_sql_table|]. intros Hi Hr. destruct (selected _ r) eqn:Hsel; [|done].
  apply (selected_elem t) in Hsel; [|done|intros y Hy; eapply elem_of_select_skip_locked; exact Hy|done].
  apply elem_of_select_skip_locked in Hsel as [_ Hc]. unfold claimable in Hc. by rewrite Hst in Hc.
Qed.

Lemma reclaim_keeps now n :
  lease_expired (instant now) r = false -> respects keeps (reclaim_expired now n).
Proof.
  intros Hl. unfold reclaim_expired. respects_auto. apply respects_exec; [apply _|]. intros t c t' Hq.
  match goal with Hx : _utc _ _ = Ok _ |- _ => apply utc_Ok in Hx as ->; rewrite instant_utc in * end.
  eapply keeps_update; [by eapply reclaim_sql_safe|by eapply reclaim_sql_table|]. intros Hi Hr.
  destruct (selected _ r) eqn:Hsel; [|done].
  apply (selected_elem t) in Hsel; [|done|intros y Hy; eapply elem_of_select_skip_locked; exact Hy|done].
  apply elem_of_select_skip_locked in Hsel as [_ Hc]. congruence.
Qed.

Lemma settlement_keeps k entry worker version now t :
  fenced entry worker version (instant now) r = false -> outbox_inv t -> r ∈ t ->
  r ∈ snd (transaction (run_op (settlement_op k entry worker version now)) t).
Proof.
  intros Hf Hi Hr. destruct (transaction _ t) as [[[]|e] t'] eqn:Ht.
  - apply transaction_run in Ht as (s' & Hrun & _ & <-).
    pose proof (settlement_success _ _ _ _ _ _ _ Hrun) as Ha.
    rewrite (settlement_run k entry worker version now t Ha) in Hrun.
    destruct (settle _ _ _ _ _ _) as [[c t1]|] eqn:Hq; [|done].
    apply settle_table in Hq as ->. case_match; [|done]. injection Hrun as <-. cbn [snd s_db].
    apply elem_of_update_where. exists r. by rewrite Hf.
  - by rewrite (transaction_error_atomic _ _ _ _ Ht).
Qed.

Lemma keeps_transaction {A} (m : SM outbox_table A) t :
  respects keeps m -> outbox_inv t -> r ∈ t -> r ∈ snd (transaction (m ;; mret ()) t).
Proof.
  intros Hm Hi Hr. assert (respects keeps (m ;; mret ())) as Hm'.
  { apply respects_bind; [apply _|done|]. intros. apply respects_ret, _. }
  apply (respects_transaction keeps _ t Hm' Hi Hr).
Qed.
End Lease.

(** C21: a lease is honoured.  Under one operation, the row of a claimed entry
    changes only by a settlement sent by its lease holder at its version before
    the lease expires, or by reclaiming at or after the expiry: never by
    another worker's claim, settlement or enqueue. *)
Theorem lease_honoured `{PgEnv} op t r worker expires
    (Hinv : outbox_inv t) (Hr : r ∈ t) (Hst : ro_status r = O_claimed)
    (Howner : ro_lease_owner r = Some worker) (Hexp : ro_lease_expires_at r = Some expires)
    (Hchanged : r ∉ snd (transaction (run_op op) t)) :
  (exists k now, op = settlement_op k (ro_entry_id r) worker (ro_version r) now
                 /\ instant now < expires)
  \/ (exists now limit, op = OpReclaim now limit /\ expires <= instant now).
Proof.
  assert (forall k entry w v now, op = settlement_op k entry w v now ->
    exists k now, op = settlement_op k (ro_entry_id r) worker (ro_version r) now
                  /\ instant now < expires) as Hsettle.
  { intros k entry w v now ->. destruct (fenced entry w v (instant now) r) eqn:Hf.
    - unfold fenced in Hf. rewrite Hexp in Hf. split_bools. exists k, now.
      split; [|done]. f_equal; congruence.
    - destruct Hchanged. by apply settlement_keeps. }
  destruct op as [e|w ts now d n|e w v now|e w v a err now|e w v err now|now n].
  - destruct Hchanged. apply (keeps_transaction r (enqueue e)); auto using enqueue_keeps.
  - destruct Hchanged. apply (keeps_transaction r (claim w ts now d n)); auto using claim_keeps.
  - left. by apply (Hsettle S_ack e w v now).
  - left. by apply (Hsettle (S_retry a err) e w v now).
  - left. by apply (Hsettle (S_dead_letter err) e w v now).
  - right. exists now, n. split; [done|]. apply Z.nlt_ge. intros Hlt. apply Hchanged.
    apply (keeps_transaction r (reclaim_expired now n)); [|done|done]. apply reclaim_keeps.
    unfold lease_expired. rewrite Hexp, Hst. cbn. by apply Z.leb_gt.
Qed.

(** ** Enqueue *)

Section Enqueue.
Context `{PgEnv}.

Lemma enqueued_check e x n : _validate_entry e = Ok x -> check_outbox_row (enqueued_row x n) = Ok ().
Proof.
  intros (_ & Ht & _ & Hp & Hh & _ & _)%validate_entry_Ok.
  unfold check_outbox_row, outbox_checks. cbn -[fullmatch payload_size].
  unfold _SAFE_TOPIC in Ht. by rewrite Ht, Hp, Hh.
Qed.

(** [enqueue] is its insert, then the idempotent read. *)
Lemma enqueue_run e x t :
  _validate_entry e = Ok x ->
  transaction (enqueue e) t
  = match _ENQUEUE_SQL x t with
    | Err err => (Err err, t)
    | Ok (c, t') =>
        if cr_rowcount c =? 1 then (Ok c, t')
        else if negb (cr_rowcount c =? 0) then
          (raise PlaneError "outbox enqueue returned an invalid row count", t)
        else match _READ_IDEMPOTENT_SQL (oe_idempotency_key x) t' with
          | None => (raise PlaneError "outbox idempotency key already represents different work", t)
          | Some r =>
              match _entry_from_record r with
              | Err err => (Err err, t)
              | Ok found =>
                  if bool_decide (found <> x)
                  then (raise PlaneError "outbox idempotency key already represents different work", t)
                  else (Ok c, t')
              end
          end
    end.
Proof.
  intros Hv. unfold transaction, enqueue. rewrite Hv.
  unfold mbind, SM_mbind, lift, exec, query. cbn -[_ENQUEUE_SQL _READ_IDEMPOTENT_SQL _entry_from_record].
  destruct (_ENQUEUE_SQL x t) as [[c t']|err]; [|done].
  cbn -[_READ_IDEMPOTENT_SQL _entry_from_record].
  destruct (cr_rowcount c =? 1); [done|]. destruct (negb (cr_rowcount c =? 0)); [done|].
  unfold exec. cbn -[_READ_IDEMPOTENT_SQL _entry_from_record].
  destruct (_READ_IDEMPOTENT_SQL _ t') as [r|]; [|done].
  cbn -[_entry_from_record]. destruct (_entry_from_record r) as [found|]; [|done]. cbn.
  by destruct (bool_decide _).
Qed.

Definition row_has_key (key : pystr) (r : outbox_row) : bool :=
  bool_decide (ro_idempotency_key r = key).
Definition row_has_id (id : pystr) (r : outbox_row) : bool := bool_decide (ro_entry_id r = id).

Lemma enqueue_fresh e x t :
  _validate_entry e = Ok x ->
  exists_row (row_has_key (oe_idempotency_key x)) t = false ->
  transaction (enqueue e) t
  = if exists_row (row_has_id (oe_entry_id x)) t
    then (raise PgUniqueViolation "duplicate key value violates unique constraint", t)
    else (Ok (CommandResult 1 [oe_entry_id x]), t ++ [enqueued_row x (length t)]).
Proof.
  intros Hv Hk. rewrite (enqueue_run e x t Hv). unfold _ENQUEUE_SQL.
  rewrite (enqueued_check e x _ Hv). cbn -[exists_row]. unfold row_has_key in Hk. rewrite Hk.
  change (fun r' => bool_decide (ro_entry_id r' = oe_entry_id x)) with (row_has_id (oe_entry_id x)).
  by destruct (exists_row (row_has_id (oe_entry_id x)) t).
Qed.

Lemma enqueue_existing e x t r :
  outbox_inv t -> _validate_entry e = Ok x ->
  r ∈ t -> ro_idempotency_key r = oe_idempotency_key x ->
  transaction (enqueue e) t
  = if bool_decide (row_entry r = x) then (Ok (CommandResult 0 []), t)
    else (raise PlaneError "outbox idempotency key already represents different work", t).
Proof.
  intros Hi Hv Hr Hk. rewrite (enqueue_run e x t Hv). unfold _ENQUEUE_SQL.
  rewrite (enqueued_check e x _ Hv). cbn -[exists_row _READ_IDEMPOTENT_SQL _entry_from_record].
  rewrite (proj2 (exists_row_true _ t)) by (exists r; split; [done|by apply bool_decide_eq_true]).
  cbn -[_READ_IDEMPOTENT_SQL _entry_from_record].
  unfold _READ_IDEMPOTENT_SQL. rewrite (select_one_unique _ _ t r);
    [|done|by apply bool_decide_eq_true|].
  - rewrite entry_from_record_ok by (by eapply (proj1 (Forall_forall _ _)); [apply Hi|]).
    case_bool_decide as H1; case_bool_decide as H2; congruence.
  - intros r' Hr' Hk'%bool_decide_eq_true. apply (outbox_unique t); auto. right. congruence.
Qed.

(** What an enqueue of a valid entry does, on every branch: a fresh
    idempotency key and entry id append one pending row, a key already present
    changes nothing and succeeds exactly when the stored work equals the entry,
    and a taken entry id under a fresh key is refused by the primary key. *)
Theorem enqueue_exact e x t (Hinv : outbox_inv t) (Hvalid : _validate_entry e = Ok x) :
  (exists_row (row_has_key (oe_idempotency_key x)) t = false ->
     transaction (enqueue e) t
     = if exists_row (row_has_id (oe_entry_id x)) t
       then (raise PgUniqueViolation "duplicate key value violates unique constraint", t)
       else (Ok (CommandResult 1 [oe_entry_id x]), t ++ [enqueued_row x (length t)]))
  /\ (forall r, r ∈ t -> ro_idempotency_key r = oe_idempotency_key x ->
     transaction (enqueue e) t
     = if bool_decide (row_entry r = x) then (Ok (CommandResult 0 []), t)
       else (raise PlaneError "outbox idempotency key already represents different work", t)).
Proof. split; [intros; by apply enqueue_fresh | intros; by apply enqueue_existing]. Qed.
End Enqueue.

(** Replaying an enqueue is idempotent only until the entry is retried.  A
    retry writes its new availability into the column the replay is compared
    with, so the same entry enqueued again after a retry at another time is
    refused as different work. *)
Theorem enqueue_replay_after_retry (env1 env2 : PgEnv) e x t t1 r worker version available error now
    (Hinv : outbox_inv t) (Hvalid : _validate_entry e = Ok x)
    (Hr : r ∈ t) (Hsame : row_entry r = x)
    (Hretry : transaction (run_op (H := env1)
       (OpRetry (oe_entry_id x) worker version available error now)) t = (Ok (), t1))
    (Hmoved : instant available <> ro_available_at r) :
  transaction (enqueue (H := env1) e) t = (Ok (CommandResult 0 []), t)
  /\ transaction (enqueue (H := env2) e) t1
     = (raise PlaneError "outbox idempotency key already represents different work", t1).
Proof.
  assert (ro_idempotency_key r = oe_idempotency_key x) as Hk by (by rewrite <- Hsame).
  split; [rewrite (enqueue_existing e x t r Hinv Hvalid Hr Hk); by rewrite bool_decide_eq_true_2|].
  pose proof (respects_transaction outbox_safe _ t
    (run_op_safe (H := env1) (OpRetry (oe_entry_id x) worker version available error now))) as Hs.
  rewrite Hretry in Hs. destruct (Hs Hinv) as [Hi1 _]. clear Hs.
  destruct (settlement_settles (S_retry available error) _ _ _ _ _ _ Hretry)
    as (r' & Hr' & Hf & Hin).
  unfold fenced in Hf. split_bools.
  assert (r' = r) as -> by (apply (outbox_unique t); auto; left; by rewrite <- Hsame in *).
  rewrite (enqueue_existing e x t1 _ Hi1 Hvalid Hin Hk).
  rewrite bool_decide_eq_false_2; [done|]. rewrite <- Hsame. intros Heq.
  apply (f_equal oe_available_at) in Heq. injection Heq. done.
Qed.

(** ** Witnesses on the concrete table *)

Lemma sample_inv : outbox_inv sample_table.
Proof. apply (steps_safe [] sample_table sample_reachable outbox_inv_empty). Qed.

Lemma settlement_fence_exact_witness :
  (exists t', transaction (run_op (settlement_op S_ack (u "entry-2") (u "worker-a") 1 (utc 300)))
                sample_table = (Ok (), t'))
  /\ (exists msg, transaction (run_op (settlement_op S_ack (u "entry-2") (u "worker-b") 1 (utc 300)))
                sample_table = (raise PlaneError msg, sample_table)).
Proof.
  split.
  - destruct (proj1 (exists_row_true (fenced (u "entry-2") (u "worker-a") 1 300) sample_table))
      as (r & Hr & Hf); [vm_compute; reflexivity|].
    eexists. apply (settlement_fence_exact S_ack (u "entry-2") (u "worker-a") 1 (utc 300)
      sample_table sample_inv); [vm_compute; reflexivity|exact Hr|by apply fenced_holds|vm_compute; reflexivity].
  - apply (settlement_fence_exact S_ack (u "entry-2") (u "worker-b") 1 (utc 300)
      sample_table sample_inv); [vm_compute; reflexivity|].
    intros r Hr Hl%fenced_holds.
    rewrite (proj1 (exists_row_false (fenced (u "entry-2") (u "worker-b") 1 300) sample_table)) in Hl;
      [done|vm_compute; reflexivity|done].
Defined.

Definition sample_acked : outbox_table :=
  snd (transaction (run_op (OpAck (u "entry-2") (u "worker-a") 1 (utc 300))) sample_table).

Lemma settled_at_most_once_witness :
  exists e, transaction (run_op (settlement_op (S_dead_letter (u "late")) (u "entry-2")
                                   (u "worker-a") 1 (utc 310))) sample_acked
            = (Err e, sample_acked).
Proof.
  apply (settled_at_most_once pg_reference pg_reference S_ack (S_dead_letter (u "late"))
    (u "entry-2") (u "worker-a") (u "worker-a") 1 (utc 300) (utc 310) sample_table sample_acked
    sample_acked); [apply sample_reachable | vm_compute; reflexivity | apply rtc_refl].
Defined.

Lemma claim_exact_witness :
  exists items, transaction (claim (u "worker-b") [u "authority.effect"] (utc 400) 500 10) sample_table
    = (Ok items, update_where
         (fun r => bool_decide (r ∈ claim_batch [u "authority.effect"] 400 10 sample_table))
         (claim_row_update (u "worker-b") 900 400) sample_table)
    /\ length (claim_batch [u "authority.effect"] 400 10 sample_table) = 1%nat.
Proof.
  assert (claim_args (u "worker-b") [u "authority.effect"] (utc 400) 500 10) as Ha.
  { split_and!; try (vm_compute; reflexivity); try (vm_compute; discriminate).
    - apply NoDup_singleton.
    - repeat constructor; vm_compute; reflexivity. }
  destruct (claim_exact (u "worker-b") [u "authority.effect"] (utc 400) 500 10 sample_table
    sample_inv Ha) as (items & Hrun & _).
  { intros r Hr _. assert (forallb (fun r => (ro_version r <? int8_max) && (ro_attempt_count r <? int4_max))
      sample_table = true) as Hall by (vm_compute; reflexivity).
    rewrite forallb_forall in Hall. apply list_elem_of_In, Hall in Hr. split_bools. auto. }
  exists items. split; [exact Hrun|]. vm_compute. reflexivity.
Defined.

(** The second claim of the story: worker-a's lease expired at 1200. *)
Definition sample_reclaimed : outbox_table :=
  snd (transaction (run_ops [(true, OpReclaim (utc 1200) 10)]) sample_table).

Definition claim_topics : list pystr := [u "authority.effect"].
Definition claimed_first : list ClaimedOutboxEntry * outbox_table :=
  match transaction (claim (u "worker-a") claim_topics (utc 200) 1000 1)
          (snd (transaction (run_ops (take 2 sample_ops)) [])) with
  | (Ok l, t) => (l, t) | (Err _, t) => ([], t) end.
Definition claimed_second : list ClaimedOutboxEntry * outbox_table :=
  match transaction (claim (u "worker-b") claim_topics (utc 1200) 1000 5) sample_reclaimed with
  | (Ok l, t) => (l, t) | (Err _, t) => ([], t) end.

Lemma claims_exclusive_witness :
  exists i j, i ∈ fst claimed_first /\ j ∈ fst claimed_second
    /\ oe_entry_id (co_entry i) = u "entry-2" /\ co_expected_version i < co_expected_version j.
Proof.
  destruct (fst claimed_first) as [|i l] eqn:E1; [vm_compute in E1; discriminate E1|].
  destruct (fst claimed_second) as [|k [|j l']] eqn:E2; [vm_compute in E2; discriminate E2..|].
  assert (oe_entry_id (co_entry i) = u "entry-2") as Hi
    by (vm_compute in E1; injection E1 as <- _; reflexivity).
  assert (oe_entry_id (co_entry j) = u "entry-2") as Hj
    by (vm_compute in E2; injection E2 as _ <- _; reflexivity).
  exists i, j. split_and!; [left|right; left|exact Hi|].
  apply (claims_exclusive pg_reference pg_reference pg_reference (u "worker-a") (u "worker-b")
    claim_topics claim_topics (utc 200) (utc 1200) 1000 1000 1 5
    (snd (transaction (run_ops (take 2 sample_ops)) [])) (snd claimed_first) sample_reclaimed
    (snd claimed_second) (fst claimed_first) (fst claimed_second) i j);
    [apply rtc_once; constructor | vm_compute; reflexivity | | vm_compute; reflexivity
    | rewrite E1; left | rewrite E2; right; left | congruence].
  assert (snd claimed_first = sample_table) as -> by (vm_compute; reflexivity).
  apply rtc_once. constructor.
Defined.

Lemma outbox_always_safe_witness : outbox_inv sample_table /\ outbox_inv sample_reclaimed.
Proof.
  destruct (outbox_always_safe sample_table sample_reclaimed) as (H1 & H2 & _);
    [apply sample_reachable | apply rtc_once; constructor | split; [exact H1 | exact H2]].
Defined.

Definition sample_leased : outbox_row :=
  claim_row_update (u "worker-a") 1200 200 (enqueued_row (sample_entry "entry-2" 50) 1).

Lemma lease_honoured_witness :
  sample_leased ∈ sample_table
  /\ (sample_leased ∉ snd (transaction (run_op (OpReclaim (utc 1200) 10)) sample_table))
  /\ ((exists k now, OpReclaim (utc 1200) 10
           = settlement_op k (ro_entry_id sample_leased) (u "worker-a") (ro_version sample_leased) now
         /\ instant now < 1200)
      \/ (exists now limit, (OpReclaim (utc 1200) 10 = OpReclaim now limit) /\ 1200 <= instant now)).
Proof.
  assert (sample_leased ∈ sample_table) as Hr
    by (apply (bool_decide_eq_true_1 _); vm_compute; reflexivity).
  assert (sample_leased ∉ snd (transaction (run_op (OpReclaim (utc 1200) 10)) sample_table)) as Hn
    by (apply (bool_decide_eq_false_1 _); vm_compute; reflexivity).
  split; [exact Hr|]. split; [exact Hn|].
  apply (lease_honoured (OpReclaim (utc 1200) 10) sample_table _ (u "worker-a") 1200 sample_inv Hr);
    [vm_compute; reflexivity..|exact Hn].
Defined.

Lemma enqueue_exact_witness :
  transaction (enqueue (sample_entry "entry-3" 70)) sample_table
  = (Ok (CommandResult 1 [u "entry-3"]),
     sample_table ++ [enqueued_row (sample_entry "entry-3" 70) 2]).
Proof.
  destruct (enqueue_exact (sample_entry "entry-3" 70) (sample_entry "entry-3" 70) sample_table
    sample_inv) as [Hf _]; [vm_compute; reflexivity|].
  rewrite Hf by (vm_compute; reflexivity). vm_compute. reflexivity.
Defined.

Definition sample_retry : outbox_op :=
  OpRetry (u "entry-2") (u "worker-a") 1 (utc 5000) (u "busy") (utc 300).

Lemma enqueue_replay_after_retry_witness :
  transaction (enqueue (sample_entry "entry-2" 50)) (snd (transaction (run_op sample_retry) sample_table))
  = (raise PlaneError "outbox idempotency key already represents different work",
     snd (transaction (run_op sample_retry) sample_table)).
Proof.
  assert (exists r, r ∈ sample_table /\ row_entry r = sample_entry "entry-2" 50) as (r & Hr & He).
  { destruct (proj1 (exists_row_true (fun r => bool_decide (row_entry r = sample_entry "entry-2" 50))
      sample_table)) as (r & Hr & He%bool_decide_eq_true); [vm_compute; reflexivity|eauto]. }
  apply (enqueue_replay_after_retry pg_reference pg_reference (sample_entry "entry-2" 50)
    (sample_entry "entry-2" 50) sample_table (snd (transaction (run_op sample_retry) sample_table))
    r (u "worker-a") 1 (utc 5000) (u "busy") (utc 300) sample_inv);
    [vm_compute; reflexivity|exact Hr|exact He|vm_compute; reflexivity|].
  apply (f_equal (fun e => instant (oe_available_at e))) in He. cbn in He. cbn. lia.
Defined.
