(* ===== verification/OutboxStore.v ===== *)
(** * The outbox as other components see it

    [OutboxStore] is what a repository relies on when it is handed an outbox
    (the protocol of contracts/__init__.py, as far as repositories call it):
    an enqueue that returns has made the entry durable in a transaction that is
    still usable, no later operation of the store loses it, and the store keeps
    its own invariant.  The PostgreSQL store of Outbox.v implements it. *)

From S2P Require Import Prelude Regex Errors Domain Sha256 Pg Outbox OutboxSafety.

Class OutboxStore (S : Type) : Type := {
  store_enqueue : OutboxEntry -> SM S command_result;
  store_inv : S -> Prop;
  (** the store holds the work of an entry *)
  store_holds : S -> OutboxEntry -> Prop;
  store_evolves : S -> S -> Prop;
  store_preorder :: PreOrder store_evolves;
  enqueue_evolves : forall e, respects store_evolves (store_enqueue e);
  store_inv_evolves : forall d d', store_evolves d d' -> store_inv d -> store_inv d';
  enqueue_holds : forall e s c s', store_inv (s_db s) ->
    store_enqueue e s = (Ok c, s') -> store_holds (s_db s') e;
  enqueue_open : forall e s c s', store_enqueue e s = (Ok c, s') -> s_failed s' = false;
  holds_evolves : forall d d' e, store_inv d -> store_evolves d d' ->
    store_holds d e -> store_holds d' e
}.

(** The work of an entry in the table: a row with its identity, topic,
    payload, digest and idempotency key. *)
Definition table_holds (t : outbox_table) (e : OutboxEntry) : Prop :=
  exists r x, r ∈ t /\ _validate_entry e = Ok x
    /\ ro_entry_id r = oe_entry_id x /\ ro_topic r = oe_topic x
    /\ ro_canonical_payload r = oe_canonical_payload x
    /\ ro_payload_sha256 r = oe_payload_sha256 x
    /\ ro_idempotency_key r = oe_idempotency_key x.

Section Postgres.
Context `{PgEnv}.

Lemma table_holds_evolves t t' e :
  outbox_inv t -> outbox_safe t t' -> table_holds t e -> table_holds t' e.
Proof.
  intros Hi Hs (r & x & Hr & Hv & E1 & E2 & E3 & E4 & E5). destruct (Hs Hi) as [_ He].
  destruct (table_evolves_elem _ _ _ r He Hr) as (r' & Hr' & Hid & _).
  unfold row_identity in Hid. injection Hid as I1 I2 I3 I4 I5 _.
  exists r', x. split_and!; congruence.
Qed.

Lemma entry_from_record_fields r x :
  _entry_from_record r = Ok x ->
  ro_entry_id r = oe_entry_id x /\ ro_topic r = oe_topic x
  /\ ro_canonical_payload r = oe_canonical_payload x
  /\ py_lower (ro_payload_sha256 r) = oe_payload_sha256 x
  /\ ro_idempotency_key r = oe_idempotency_key x.
Proof.
  unfold _entry_from_record, _validate_entry. intros Hx. inv_ok. subst.
  repeat match goal with Hb : _bounded_text _ _ _ = Ok _ |- _ => apply bounded_text_Ok in Hb as [-> _] end.
  done.
Qed.

Lemma py_lower_idem_digest r : row_ok r -> py_lower (ro_payload_sha256 r) = ro_payload_sha256 r.
Proof.
  intros Hok. destruct (check_outbox_row_Ok r _ (ok_constraints r Hok)) as (_ & _ & Hc).
  unfold outbox_checks in Hc. split_bools. by apply py_lower_hex.
Qed.

Lemma enqueue_table_holds e s c s' :
  outbox_inv (s_db s) -> enqueue e s = (Ok c, s') -> table_holds (s_db s') e.
Proof.
  intros Hi Hr. unfold enqueue in Hr. inv_run. subst. apply exec_run_Ok in Hr1 as (_ & _ & Hq).
  unfold _ENQUEUE_SQL in Hq. inv_ok.
  destruct (exists_row _ (s_db s)) eqn:Hk.
  - injection Hq as <- Hdb. cbn -[_entry_from_record] in Hr. inv_run.
    destruct v0 as [r|]; [|inv_run; inv_ok].
    inv_run. case_bool_decide as Hne; inv_run; [inv_ok|]. subst.
    symmetry in Hq. unfold _READ_IDEMPOTENT_SQL in Hq. apply select_one_Some in Hq as [Hin _].
    apply entry_from_record_fields in Hl0 as (E1 & E2 & E3 & E4 & E5).
    rewrite py_lower_idem_digest in E4
      by (eapply (proj1 (Forall_forall _ _)); [apply Hi|by rewrite Hdb]).
    exists r, v. split_and!; auto.
  - destruct (exists_row (fun r' => bool_decide (ro_entry_id r' = _)) _); [inv_ok|].
    injection Hq as <- Hdb. cbn in Hr. inv_run. subst.
    exists (enqueued_row v (length (s_db s))), v. rewrite <- Hdb.
    split_and!; try done. apply elem_of_app. right. by left.
Qed.

Lemma enqueue_session e s c s' : enqueue e s = (Ok c, s') -> s_failed s' = false.
Proof.
  intros Hr. unfold enqueue in Hr. inv_run. subst. apply exec_run_Ok in Hr1 as (_ & Hf & _).
  case_match; [by inv_run; subst|]. case_match; [inv_run; inv_ok|]. inv_run.
  case_match; [|inv_run; inv_ok]. inv_run. case_match; [inv_run; inv_ok|]. inv_run. by subst.
Qed.

#[export] Instance PostgresOutboxStore : OutboxStore outbox_table := {|
  store_enqueue := enqueue;
  store_inv := outbox_inv;
  store_holds := table_holds;
  store_evolves := outbox_safe;
  enqueue_evolves := enqueue_safe;
  store_inv_evolves := fun d d' Hs Hi => proj1 (Hs Hi);
  enqueue_holds := enqueue_table_holds;
  enqueue_open := enqueue_session;
  holds_evolves := table_holds_evolves
|}.
End Postgres.
