(* ===== verification/AuthorityRepository.v ===== *)
(** * The authority repository (src/src/astralplane/authority/repository.py)

    [AuthorityRepository] over its five tables and an outbox it is handed:
    creation, compare-and-set transitions and recovery listings of bindings,
    lifecycle operations and protected effects, and [claim_receipt], which
    under one savepoint inserts the receipt claim, advances the sequence
    watermark, moves the effect and enqueues the outbox entry.  One definition
    per SQL constant and per method. *)

From S2P Require Import Prelude Regex Errors Domain Sha256 Pg AuthorityModels AuthoritySchema.
From S2P Require Import Outbox OutboxSafety OutboxStore.

(** ** The database of the component *)

Record authority_db (S : Type) : Type := AuthorityDb {
  db_bindings : list binding_row;
  db_lifecycle : list lifecycle_row;
  db_effects : list effect_row;
  db_watermarks : list watermark_row;
  db_claims : list claim_row;
  db_outbox : S
}.
Arguments AuthorityDb {S}.
Arguments db_bindings {S}.
Arguments db_lifecycle {S}.
Arguments db_effects {S}.
Arguments db_watermarks {S}.
Arguments db_claims {S}.
Arguments db_outbox {S}.

Section Tables.
Context {S : Type}.
Implicit Types db : authority_db S.

Definition set_bindings t db :=
  AuthorityDb t (db_lifecycle db) (db_effects db) (db_watermarks db) (db_claims db) (db_outbox db).
Definition set_lifecycle t db :=
  AuthorityDb (db_bindings db) t (db_effects db) (db_watermarks db) (db_claims db) (db_outbox db).
Definition set_effects t db :=
  AuthorityDb (db_bindings db) (db_lifecycle db) t (db_watermarks db) (db_claims db) (db_outbox db).
Definition set_watermarks t db :=
  AuthorityDb (db_bindings db) (db_lifecycle db) (db_effects db) t (db_claims db) (db_outbox db).
Definition set_claims t db :=
  AuthorityDb (db_bindings db) (db_lifecycle db) (db_effects db) (db_watermarks db) t (db_outbox db).
Definition set_outbox (t : S) db :=
  AuthorityDb (db_bindings db) (db_lifecycle db) (db_effects db) (db_watermarks db) (db_claims db) t.

(** A statement on one table as a statement on the database. *)
Definition on {T A} (get : authority_db S -> T) (put : T -> authority_db S -> authority_db S)
    (st : authority_db S -> T -> result (A * T)) (db : authority_db S) : result (A * authority_db S) :=
  '(a, t) ← st db (get db);
  Ok (a, put t db).
End Tables.

(** ** Foreign keys *)

Definition foreign_key (b : bool) : result unit :=
  raise_unless b (Exn PgForeignKeyViolation "insert violates foreign key constraint").

Definition binding_exists (owner binding : pystr) (t : list binding_row) : bool :=
  exists_row (fun r => bool_decide (rb_owner_id r = owner) && bool_decide (rb_binding_id r = binding)) t.

Definition effect_exists (owner operation : pystr) (t : list effect_row) : bool :=
  exists_row (fun r => bool_decide (re_owner_id r = owner) && bool_decide (re_operation_id r = operation)) t.

(** ** Validation helpers *)

(** [_EFFECT_TRANSITIONS] *)
Definition _EFFECT_TRANSITIONS (s : ProtectedEffectStatus) : list ProtectedEffectStatus :=
  match s with
  | E_CREATED => [E_ASTRAL_AUTHORIZED; E_DENIED; E_FAILED_CLOSED]
  | E_ASTRAL_AUTHORIZED => [E_LETS_PENDING; E_DENIED; E_FAILED_CLOSED]
  | E_LETS_PENDING => [E_RECEIPT_RECEIVED; E_DENIED; E_FAILED_CLOSED]
  | E_RECEIPT_RECEIVED => [E_RECEIPT_CLAIMED; E_DENIED; E_FAILED_CLOSED]
  | E_RECEIPT_CLAIMED => [E_EXECUTING; E_DENIED; E_FAILED_CLOSED]
  | E_EXECUTING => [E_SUCCEEDED; E_EFFECT_FAILED; E_OUTCOME_UNCERTAIN]
  | E_OUTCOME_UNCERTAIN => [E_SUCCEEDED; E_EFFECT_FAILED]
  | _ => []
  end.

Definition _same_lifecycle_request (left right : AuthorityLifecycleOperation) : bool :=
  bool_decide
    ((l_owner_id left, l_operation_id left, l_binding_id left, l_kind left,
      l_expected_binding_version left, l_expected_lease_sequence left,
      l_request_fingerprint left, l_remote_request_id left)
     = (l_owner_id right, l_operation_id right, l_binding_id right, l_kind right,
        l_expected_binding_version right, l_expected_lease_sequence right,
        l_request_fingerprint right, l_remote_request_id right)).

(** The first thirteen columns of an effect: its immutable intent. *)
Definition effect_intent (o : ProtectedEffectOperation) :=
  (e_operation_id o, e_owner_id o, e_agent_id o, e_binding_id o, e_tool_id o, e_astral_scope o,
   e_lets_capability o, e_lets_transition o, e_executor_audience o, e_nonce o, e_effect_digest o,
   e_expected_sequence o, e_audit_correlation_id o).

Definition _same_effect_intent (left right : ProtectedEffectOperation) : bool :=
  bool_decide (effect_intent left = effect_intent right)
  && (instant (e_created_at left) =? instant (e_created_at right)).

Definition _require_next_version (replacement_version expected_version : Z) : result unit :=
  raise_if ((expected_version <? 0) || negb (replacement_version =? expected_version + 1))
    (Exn RepositoryValidationError
      "replacement version must advance the expected version exactly once").

Definition _require_query_identifier (value : pystr) (field : string) : result pystr :=
  match require_identifier value field with
  | Ok v => Ok v
  | Err e =>
      if isinstance (exn_cls e) DomainValidationError
      then raise RepositoryValidationError (field ++ " is invalid") else Err e
  end.

(** [except DomainValidationError] around a validator of arguments. *)
Definition as_validation {A} (msg : string) (r : result A) : result A :=
  match r with
  | Ok a => Ok a
  | Err e =>
      if isinstance (exn_cls e) DomainValidationError then raise RepositoryValidationError msg
      else Err e
  end.

(** The row a write returned, decoded and compared with what was written. *)
Definition check_persisted {A R} `{EqDecision A} (from_row : R -> result A) (exact : A) (msg : string)
    (r : R) : result A :=
  persisted ← from_row r;
  raise_if (bool_decide (persisted <> exact)) (Exn RepositoryDataError msg) ;;
  Ok persisted.

(** ** Statements *)

Section Statements.
Context `{PgEnv} {S : Type}.
Implicit Types db : authority_db S.

Definition _INSERT_BINDING (b : AgentAuthorityBinding) : authority_db S -> result (option binding_row * authority_db S) :=
  on db_bindings set_bindings (fun _ =>
    insert_do_nothing check_binding_row binding_conflict (fun _ => Ok ()) (_binding_values b)).

Definition _READ_BINDING_CONFLICT (b : AgentAuthorityBinding) db : option binding_row :=
  let v := _binding_values b in
  select_one "binding_conflict" (fun r =>
    bool_decide (rb_owner_id r = rb_owner_id v)
    && (bool_decide (rb_binding_id r = rb_binding_id v)
        || (bool_decide (rb_agent_id r = rb_agent_id v)
            && bool_decide (rb_population r = rb_population v)
            && negb (text_in (rb_state r) ["closed"; "revoked"; "expired"]))
        || (bool_decide (rb_agent_id r = rb_agent_id v)
            && bool_decide (rb_runtime_id r = rb_runtime_id v)
            && (rb_runtime_generation r =? rb_runtime_generation v)))) (db_bindings db).

Definition _GET_BINDING (owner binding : pystr) db : option binding_row :=
  select_one "binding_get" (fun r =>
    bool_decide (rb_owner_id r = owner) && bool_decide (rb_binding_id r = binding)) (db_bindings db).
Definition _LOCK_BINDING (owner binding : pystr) db : option binding_row :=
  _GET_BINDING owner binding db.

Definition _GET_ACTIVE_BINDING (owner agent runtime : pystr) (generation : Z) db : option binding_row :=
  select_one "binding_active" (fun r =>
    bool_decide (rb_owner_id r = owner) && bool_decide (rb_agent_id r = agent)
    && bool_decide (rb_runtime_id r = runtime) && (rb_runtime_generation r =? generation)
    && bool_decide (rb_state r = u "active")) (db_bindings db).

(** [ORDER BY created_at DESC, binding_id DESC LIMIT 1] *)
Definition latest_le : binding_row -> binding_row -> bool :=
  time_key_leb (fun r => - rb_created_at r) (fun a b => collate (rb_binding_id b) (rb_binding_id a)).

Definition _GET_LATEST_BINDING (owner agent : pystr) (population : AuthorityPopulation) db
  : option binding_row :=
  head (select_ordered "binding_latest" latest_le (fun r =>
    bool_decide (rb_owner_id r = owner) && bool_decide (rb_agent_id r = agent)
    && bool_decide (rb_population r = enum_value population)) (db_bindings db)).

(** The columns both binding updates fence. *)
Definition binding_scope (v r : binding_row) : bool :=
  bool_decide (rb_owner_id r = rb_owner_id v) && bool_decide (rb_binding_id r = rb_binding_id v)
  && bool_decide (rb_agent_id r = rb_agent_id v) && bool_decide (rb_runtime_id r = rb_runtime_id v)
  && (rb_runtime_generation r =? rb_runtime_generation v)
  && bool_decide (rb_population r = rb_population v) && bool_decide (rb_tenant_id r = rb_tenant_id v)
  && bool_decide (rb_envelope_id r = rb_envelope_id v)
  && bool_decide (rb_policy_digest r = rb_policy_digest v)
  && bool_decide (rb_machine_digest r = rb_machine_digest v)
  && (rb_config_epoch r =? rb_config_epoch v) && bool_decide (rb_capabilities r = rb_capabilities v).

Definition remote_ids (r : binding_row) : list pystr :=
  [rb_warden_id r; rb_lease_id r; rb_lineage_id r; rb_subject_id r].

Definition set_binding_row (warden lease lineage subject : pystr) (v r : binding_row) : binding_row :=
  {| rb_binding_id := rb_binding_id r; rb_owner_id := rb_owner_id r; rb_agent_id := rb_agent_id r;
     rb_runtime_id := rb_runtime_id r; rb_runtime_generation := rb_runtime_generation r;
     rb_population := rb_population r; rb_tenant_id := rb_tenant_id r;
     rb_envelope_id := rb_envelope_id r; rb_warden_id := warden; rb_lease_id := lease;
     rb_lineage_id := lineage; rb_subject_id := subject;
     rb_policy_digest := rb_policy_digest r; rb_machine_digest := rb_machine_digest r;
     rb_config_epoch := rb_config_epoch r; rb_capabilities := rb_capabilities r;
     rb_lease_sequence := rb_lease_sequence v; rb_lease_expires_at_ns := rb_lease_expires_at_ns v;
     rb_state := rb_state v; rb_created_at := rb_created_at r; rb_updated_at := rb_updated_at v;
     rb_version := rb_version v |}.

Definition transition_binding_fence (v : binding_row) (expected_state : AuthorityBindingState)
    (expected_version : Z) (r : binding_row) : bool :=
  binding_scope v r && bool_decide (remote_ids r = remote_ids v)
  && bool_decide (rb_state r = enum_value expected_state) && (rb_version r =? expected_version).
Definition transition_binding_set (v r : binding_row) : binding_row :=
  set_binding_row (rb_warden_id r) (rb_lease_id r) (rb_lineage_id r) (rb_subject_id r) v r.

Definition _TRANSITION_BINDING (b : AgentAuthorityBinding) (expected_state : AuthorityBindingState)
    (expected_version : Z) : authority_db S -> result (option binding_row * authority_db S) :=
  on db_bindings set_bindings (fun _ t =>
    '(rows, t') ← update_returning check_binding_row binding_conflict
      (transition_binding_fence (_binding_values b) expected_state expected_version)
      (transition_binding_set (_binding_values b)) t;
    Ok (head rows, t')).

Definition activate_binding_fence (v : binding_row) (pending : list pystr) (expected_version : Z)
    (r : binding_row) : bool :=
  binding_scope v r && (rb_created_at r =? rb_created_at v)
  && bool_decide (remote_ids r = pending)
  && (rb_lease_sequence r =? 0) && (rb_lease_expires_at_ns r =? 0)
  && bool_decide (rb_state r = u "provisioning") && (rb_version r =? expected_version).
Definition activate_binding_set (v r : binding_row) : binding_row :=
  set_binding_row (rb_warden_id v) (rb_lease_id v) (rb_lineage_id v) (rb_subject_id v) v r.

Definition _ACTIVATE_BINDING (b : AgentAuthorityBinding) (pending : list pystr)
    (expected_version : Z) : authority_db S -> result (option binding_row * authority_db S) :=
  on db_bindings set_bindings (fun _ t =>
    '(rows, t') ← update_returning check_binding_row binding_conflict
      (activate_binding_fence (_binding_values b) pending expected_version)
      (activate_binding_set (_binding_values b)) t;
    Ok (head rows, t')).

Definition _INSERT_LIFECYCLE (o : AuthorityLifecycleOperation) : authority_db S -> result (option lifecycle_row * authority_db S) :=
  on db_lifecycle set_lifecycle (fun db =>
    insert_do_nothing check_lifecycle_row lifecycle_conflict
      (fun r => foreign_key (binding_exists (rl_owner_id r) (rl_binding_id r) (db_bindings db)))
      (_lifecycle_values o)).

Definition _GET_LIFECYCLE (owner operation : pystr) db : option lifecycle_row :=
  select_one "lifecycle_get" (fun r =>
    bool_decide (rl_owner_id r = owner) && bool_decide (rl_operation_id r = operation))
    (db_lifecycle db).
Definition _LOCK_LIFECYCLE (owner operation : pystr) db : option lifecycle_row :=
  _GET_LIFECYCLE owner operation db.

Definition lifecycle_due (due : Z) (r : lifecycle_row) : bool :=
  text_in (rl_status r) ["pending"; "in_flight"; "uncertain"]
  && match rl_next_attempt_at r with Some t => t <=? due | None => false end.

Definition _LIST_RECOVERABLE_LIFECYCLE (owner : pystr) (due limit : Z) db : list lifecycle_row :=
  select_skip_locked "lifecycle_recoverable"
    (time_key_leb (fun r => default 0 (rl_next_attempt_at r))
       (fun a b => collate (rl_operation_id a) (rl_operation_id b)))
    (fun r => bool_decide (rl_owner_id r = owner) && lifecycle_due due r) limit (db_lifecycle db).

Definition transition_lifecycle_fence (v : lifecycle_row) (expected_status : AuthorityLifecycleStatus)
    (expected_version : Z) (r : lifecycle_row) : bool :=
  bool_decide (rl_owner_id r = rl_owner_id v) && bool_decide (rl_operation_id r = rl_operation_id v)
  && bool_decide (rl_binding_id r = rl_binding_id v) && bool_decide (rl_kind r = rl_kind v)
  && (rl_expected_binding_version r =? rl_expected_binding_version v)
  && bool_decide (rl_expected_lease_sequence r = rl_expected_lease_sequence v)
  && bool_decide (rl_request_fingerprint r = rl_request_fingerprint v)
  && bool_decide (rl_remote_request_id r = rl_remote_request_id v)
  && bool_decide (rl_status r = enum_value expected_status) && (rl_version r =? expected_version).

Definition transition_lifecycle_set (v r : lifecycle_row) : lifecycle_row :=
  {| rl_operation_id := rl_operation_id r; rl_owner_id := rl_owner_id r;
     rl_binding_id := rl_binding_id r; rl_kind := rl_kind r;
     rl_expected_binding_version := rl_expected_binding_version r;
     rl_expected_lease_sequence := rl_expected_lease_sequence r;
     rl_request_fingerprint := rl_request_fingerprint r; rl_status := rl_status v;
     rl_remote_request_id := rl_remote_request_id r; rl_result_digest := rl_result_digest v;
     rl_error_code := rl_error_code v; rl_attempt_count := rl_attempt_count v;
     rl_next_attempt_at := rl_next_attempt_at v; rl_last_attempt_at := rl_last_attempt_at v;
     rl_reconciled_at := rl_reconciled_at v;
     rl_reconciliation_digest := rl_reconciliation_digest v;
     rl_created_at := rl_created_at r; rl_updated_at := rl_updated_at v; rl_version := rl_version v |}.

Definition _TRANSITION_LIFECYCLE (o : AuthorityLifecycleOperation)
    (expected_status : AuthorityLifecycleStatus) (expected_version : Z)
  : authority_db S -> result (option lifecycle_row * authority_db S) :=
  on db_lifecycle set_lifecycle (fun _ t =>
    '(rows, t') ← update_returning check_lifecycle_row lifecycle_conflict
      (transition_lifecycle_fence (_lifecycle_values o) expected_status expected_version)
      (transition_lifecycle_set (_lifecycle_values o)) t;
    Ok (head rows, t')).

Definition _INSERT_EFFECT (o : ProtectedEffectOperation) : authority_db S -> result (option effect_row * authority_db S) :=
  on db_effects set_effects (fun db =>
    insert_do_nothing check_effect_row effect_conflict
      (fun r => foreign_key (binding_exists (re_owner_id r) (re_binding_id r) (db_bindings db)))
      (_effect_values o)).

Definition _READ_EFFECT_CONFLICT (o : ProtectedEffectOperation) db : option effect_row :=
  select_one "effect_conflict" (fun r =>
    bool_decide (re_owner_id r = e_owner_id o)
    && (bool_decide (re_operation_id r = e_operation_id o)
        || (bool_decide (re_binding_id r = e_binding_id o)
            && bool_decide (re_executor_audience r = e_executor_audience o)
            && bool_decide (re_nonce r = e_nonce o)))) (db_effects db).

Definition _GET_EFFECT (owner operation : pystr) db : option effect_row :=
  select_one "effect_get" (fun r =>
    bool_decide (re_owner_id r = owner) && bool_decide (re_operation_id r = operation))
    (db_effects db).
Definition _LOCK_EFFECT (owner operation : pystr) db : option effect_row :=
  _GET_EFFECT owner operation db.

Definition effect_stale (cutoff : Z) (r : effect_row) : bool :=
  text_in (re_status r)
    ["created"; "astral_authorized"; "lets_pending"; "receipt_received"; "receipt_claimed";
     "executing"; "outcome_uncertain"]
  && (re_updated_at r <? cutoff).

Definition _LIST_RECOVERABLE_EFFECTS (owner : pystr) (cutoff limit : Z) db : list effect_row :=
  select_skip_locked "effect_recoverable"
    (time_key_leb re_updated_at (fun a b => collate (re_operation_id a) (re_operation_id b)))
    (fun r => bool_decide (re_owner_id r = owner) && effect_stale cutoff r) limit (db_effects db).

Definition transition_effect_fence (v : effect_row) (expected_status : ProtectedEffectStatus)
    (expected_version : Z) (r : effect_row) : bool :=
  bool_decide (re_owner_id r = re_owner_id v) && bool_decide (re_operation_id r = re_operation_id v)
  && bool_decide (re_agent_id r = re_agent_id v) && bool_decide (re_binding_id r = re_binding_id v)
  && bool_decide (re_tool_id r = re_tool_id v) && bool_decide (re_astral_scope r = re_astral_scope v)
  && bool_decide (re_lets_capability r = re_lets_capability v)
  && bool_decide (re_lets_transition r = re_lets_transition v)
  && bool_decide (re_executor_audience r = re_executor_audience v)
  && bool_decide (re_nonce r = re_nonce v) && bool_decide (re_effect_digest r = re_effect_digest v)
  && (re_expected_sequence r =? re_expected_sequence v)
  && bool_decide (re_audit_correlation_id r = re_audit_correlation_id v)
  && bool_decide (re_status r = enum_value expected_status) && (re_version r =? expected_version).

Definition transition_effect_set (v r : effect_row) : effect_row :=
  {| re_operation_id := re_operation_id r; re_owner_id := re_owner_id r;
     re_agent_id := re_agent_id r; re_binding_id := re_binding_id r; re_tool_id := re_tool_id r;
     re_astral_scope := re_astral_scope r; re_lets_capability := re_lets_capability r;
     re_lets_transition := re_lets_transition r; re_executor_audience := re_executor_audience r;
     re_nonce := re_nonce r; re_effect_digest := re_effect_digest r;
     re_expected_sequence := re_expected_sequence r;
     re_audit_correlation_id := re_audit_correlation_id r; re_status := re_status v;
     re_receipt_id := re_receipt_id v; re_receipt_digest := re_receipt_digest v;
     re_effect_result_digest := re_effect_result_digest v; re_error_code := re_error_code v;
     re_created_at := re_created_at r; re_updated_at := re_updated_at v; re_version := re_version v |}.

Definition _TRANSITION_EFFECT (o : ProtectedEffectOperation)
    (expected_status : ProtectedEffectStatus) (expected_version : Z)
  : authority_db S -> result (option effect_row * authority_db S) :=
  on db_effects set_effects (fun _ t =>
    '(rows, t') ← update_returning check_effect_row effect_conflict
      (transition_effect_fence (_effect_values o) expected_status expected_version)
      (transition_effect_set (_effect_values o)) t;
    Ok (head rows, t')).

(** [UNION ALL] of the due lifecycle operations and the stale effects, by
    owner and time. *)
Definition recoverable (due cutoff : Z) db : list (pystr * Z) :=
  ((fun r => (rl_owner_id r, default 0 (rl_next_attempt_at r)))
     <$> rows_where (lifecycle_due due) (db_lifecycle db))
  ++ ((fun r => (re_owner_id r, re_updated_at r)) <$> rows_where (effect_stale cutoff) (db_effects db)).

(** [MIN(recovery_at)] of one group. *)
Definition group_min (owner : pystr) (l : list (pystr * Z)) : Z :=
  match snd <$> rows_where (fun p => bool_decide (fst p = owner)) l with
  | [] => 0
  | t :: ts => foldr Z.min t ts
  end.

Definition _LIST_RECOVERY_OWNERS (due cutoff limit : Z) db : list (pystr * Z) :=
  let l := recoverable due cutoff db in
  let groups := (fun owner => (owner, group_min owner l)) <$> remove_dups (fst <$> l) in
  take (Z.to_nat limit)
    (sort_by (time_key_leb snd (fun a b => collate (fst a) (fst b))) groups).

Definition _INSERT_CLAIM (c : ReceiptClaim) : authority_db S -> result (option claim_row * authority_db S) :=
  on db_claims set_claims (fun db =>
    insert_do_nothing check_claim_row claim_conflict
      (fun r => foreign_key (binding_exists (rc_owner_id r) (rc_binding_id r) (db_bindings db)) ;;
                foreign_key (effect_exists (rc_owner_id r) (rc_operation_id r) (db_effects db)))
      (_claim_values c)).

Definition _READ_CLAIM_CONFLICT (c : ReceiptClaim) db : option claim_row :=
  select_one "claim_conflict" (fun r =>
    bool_decide (rc_owner_id r = c_owner_id c)
    && (bool_decide (rc_receipt_id r = c_receipt_id c)
        || bool_decide (rc_operation_id r = c_operation_id c)
        || bool_decide (rc_canonical_digest r = c_canonical_digest c)
        || bool_decide ((rc_tenant_id r, rc_envelope_id r, rc_audience r, rc_nonce r)
                        = (c_tenant_id c, c_envelope_id c, c_audience c, c_nonce c))
        || bool_decide ((rc_warden_id r, rc_lease_id r, rc_audience r, rc_resulting_sequence r)
                        = (c_warden_id c, c_lease_id c, c_audience c, c_resulting_sequence c))))
    (db_claims db).

(** [INSERT ... ON CONFLICT (warden_id, lease_id, audience) DO UPDATE ... WHERE]
    with the trigger of the table on the update.  [version + 1] is a BIGINT sum:
    at the largest version the server raises. *)
Definition _ADVANCE_WATERMARK (w : ReceiptSequenceWatermark) : authority_db S -> result (option watermark_row * authority_db S) :=
  on db_watermarks set_watermarks (fun _ t =>
    let v := watermark_values w in
    let same r := bool_decide (watermark_row_key r = watermark_row_key v) in
    check_watermark_row v ;;
    match rows_where same t with
    | [] => Ok (Some v, t ++ [v])
    | old :: _ =>
        if rw_last_sequence old <? rw_last_sequence v then
          raise_unless (is_int8 (rw_version old + 1))
            (Exn PgNumericOutOfRange "bigint out of range") ;;
          if (rw_version old + 1 =? rw_version v) && (rw_updated_at old <=? rw_updated_at v)
          then watermark_require_advance old v ;; Ok (Some v, update_where same (fun _ => v) t)
          else Ok (None, t)
        else Ok (None, t)
    end).
End Statements.

(** ** The methods of [AuthorityRepository] *)

Section Repository.
Context `{PgEnv} {S : Type} `{!OutboxStore S}.
Abbreviation DB := (authority_db S).

Definition create_binding (binding : AgentAuthorityBinding) : SM DB AgentAuthorityBinding :=
  row ← exec (_INSERT_BINDING binding);
  match row with
  | Some r =>
      lift (check_persisted _binding_from_row binding "binding insert returned different data" r)
  | None =>
      existing ← query (_READ_BINDING_CONFLICT binding);
      let conflict := raise AuthorityIdempotencyConflictError
                        "binding identity represents different work" in
      match existing with
      | None => lift conflict
      | Some r =>
          found ← lift (_binding_from_row r);
          if bool_decide (found = binding) then mret binding else lift conflict
      end
  end.

Definition get_binding (owner_id binding_id : pystr) : SM DB (option AgentAuthorityBinding) :=
  row ← query (_GET_BINDING owner_id binding_id);
  match row with
  | None => mret None
  | Some r => b ← lift (_binding_from_row r); mret (Some b)
  end.

Definition get_active_binding (owner_id agent_id runtime_id : pystr) (runtime_generation : Z)
  : SM DB (option AgentAuthorityBinding) :=
  owner ← lift (_require_query_identifier owner_id "owner id");
  agent ← lift (_require_query_identifier agent_id "agent id");
  runtime ← lift (_require_query_identifier runtime_id "runtime id");
  lift (raise_if (runtime_generation <=? 0)
    (Exn RepositoryValidationError "runtime generation must be a positive integer")) ;;
  row ← query (_GET_ACTIVE_BINDING owner agent runtime runtime_generation);
  match row with
  | None => mret None
  | Some r =>
      b ← lift (_binding_from_row r);
      lift (raise_if (bool_decide
          ((b_owner_id b, b_agent_id b, b_runtime_id b, b_runtime_generation b, b_state b)
           <> (owner, agent, runtime, runtime_generation, ACTIVE)))
        (Exn RepositoryDataError "active binding query returned a row outside its exact scope")) ;;
      mret (Some b)
  end.

Definition get_latest_binding (owner_id agent_id : pystr) (population : AuthorityPopulation)
  : SM DB (option AgentAuthorityBinding) :=
  owner ← lift (_require_query_identifier owner_id "owner id");
  agent ← lift (_require_query_identifier agent_id "agent id");
  row ← query (_GET_LATEST_BINDING owner agent population);
  match row with
  | None => mret None
  | Some r =>
      b ← lift (_binding_from_row r);
      lift (raise_if (bool_decide
          ((b_owner_id b, b_agent_id b, b_population b) <> (owner, agent, population)))
        (Exn RepositoryDataError
          "latest binding query returned a row outside its population scope")) ;;
      mret (Some b)
  end.

Definition transition_binding (replacement : AgentAuthorityBinding)
    (expected_state : AuthorityBindingState) (expected_version : Z) : SM DB AgentAuthorityBinding :=
  lift (_require_next_version (b_version replacement) expected_version) ;;
  lift (raise_if (binding_terminal expected_state)
    (Exn AuthorityCompareAndSetConflictError "terminal binding cannot reopen")) ;;
  row ← exec (_TRANSITION_BINDING replacement expected_state expected_version);
  match row with
  | None =>
      lift (raise AuthorityCompareAndSetConflictError "binding compare-and-set fence is stale")
  | Some r =>
      lift (check_persisted _binding_from_row replacement
              "binding transition returned different data" r)
  end.

(** The four pending identities, in the order of the columns. *)
Definition pending_fence (binding_id : pystr) : result (list pystr) :=
  map_each (pending_authority_identity binding_id) [F_warden; F_lease; F_lineage; F_subject].

Definition activate_binding (replacement : AgentAuthorityBinding) (expected_version : Z)
  : SM DB AgentAuthorityBinding :=
  lift (_require_next_version (b_version replacement) expected_version) ;;
  lift (raise_if (bool_decide (b_state replacement <> ACTIVE))
    (Exn RepositoryValidationError "activated binding must enter the active state")) ;;
  pending ← lift (pending_fence (b_binding_id replacement));
  row ← exec (_ACTIVATE_BINDING replacement pending expected_version);
  match row with
  | None =>
      lift (raise AuthorityCompareAndSetConflictError
              "binding activation compare-and-set fence is stale")
  | Some r =>
      lift (check_persisted _binding_from_row replacement
              "binding activation returned different data" r)
  end.

Definition abandon_provisioning_binding (replacement : AgentAuthorityBinding)
    (expected_version : Z) : SM DB AgentAuthorityBinding :=
  pending ← lift (pending_fence (b_binding_id replacement));
  lift (raise_if (bool_decide (b_state replacement <> CLOSED))
    (Exn RepositoryValidationError "abandoned provisioning binding must enter the closed state")) ;;
  lift (raise_if (bool_decide (remote_identities replacement <> pending)
                  || negb (b_lease_sequence replacement =? 0)
                  || negb (b_lease_expires_at_ns replacement =? 0))
    (Exn RepositoryValidationError
      "abandoned provisioning binding must retain its pending authority fence")) ;;
  transition_binding replacement PROVISIONING expected_version.

Definition create_lifecycle_operation (operation : AuthorityLifecycleOperation)
  : SM DB AuthorityLifecycleOperation :=
  row ← exec (_INSERT_LIFECYCLE operation);
  match row with
  | Some r =>
      lift (check_persisted _lifecycle_from_row operation "lifecycle insert returned different data" r)
  | None =>
      existing ← query (_LOCK_LIFECYCLE (l_owner_id operation) (l_operation_id operation));
      let conflict := raise AuthorityIdempotencyConflictError
                        "lifecycle operation fingerprint represents different work" in
      match existing with
      | None => lift conflict
      | Some r =>
          persisted ← lift (_lifecycle_from_row r);
          if _same_lifecycle_request persisted operation then mret persisted else lift conflict
      end
  end.

Definition get_lifecycle_operation (owner_id operation_id : pystr)
  : SM DB (option AuthorityLifecycleOperation) :=
  row ← query (_GET_LIFECYCLE owner_id operation_id);
  match row with
  | None => mret None
  | Some r => o ← lift (_lifecycle_from_row r); mret (Some o)
  end.

Definition list_recoverable_lifecycle_operations (owner_id : pystr) (due_at : datetime) (limit : Z)
  : SM DB (list AuthorityLifecycleOperation) :=
  '(owner, due) ← lift (as_validation "lifecycle recovery scope is invalid"
    (o ← require_identifier owner_id "owner id"; d ← require_utc due_at "due at"; Ok (o, d)));
  lift (raise_unless ((1 <=? limit) && (limit <=? 200))
    (Exn RepositoryValidationError "lifecycle recovery limit must be between 1 and 200")) ;;
  rows ← query (_LIST_RECOVERABLE_LIFECYCLE owner (instant due) limit);
  lift (map_each _lifecycle_from_row rows).

Definition transition_lifecycle_operation (replacement : AuthorityLifecycleOperation)
    (expected_status : AuthorityLifecycleStatus) (expected_version : Z)
  : SM DB AuthorityLifecycleOperation :=
  lift (_require_next_version (l_version replacement) expected_version) ;;
  lift (raise_if (lifecycle_terminal expected_status)
    (Exn AuthorityCompareAndSetConflictError "terminal lifecycle operation cannot reopen")) ;;
  row ← exec (_TRANSITION_LIFECYCLE replacement expected_status expected_version);
  match row with
  | None =>
      lift (raise AuthorityCompareAndSetConflictError "lifecycle compare-and-set fence is stale")
  | Some r =>
      lift (check_persisted _lifecycle_from_row replacement
              "lifecycle transition returned different data" r)
  end.

Definition create_protected_effect (operation : ProtectedEffectOperation)
  : SM DB ProtectedEffectOperation :=
  row ← exec (_INSERT_EFFECT operation);
  match row with
  | Some r =>
      lift (check_persisted _effect_from_row operation
              "protected effect insert returned different data" r)
  | None =>
      existing ← query (_READ_EFFECT_CONFLICT operation);
      let conflict := raise AuthorityIdempotencyConflictError
                        "effect intent represents different work" in
      match existing with
      | None => lift conflict
      | Some r =>
          persisted ← lift (_effect_from_row r);
          if _same_effect_intent persisted operation then mret persisted else lift conflict
      end
  end.

Definition get_protected_effect (owner_id operation_id : pystr)
  : SM DB (option ProtectedEffectOperation) :=
  row ← query (_GET_EFFECT owner_id operation_id);
  match row with
  | None => mret None
  | Some r => o ← lift (_effect_from_row r); mret (Some o)
  end.

Definition _RECOVERABLE_EFFECT_STATUSES : list ProtectedEffectStatus :=
  [E_CREATED; E_ASTRAL_AUTHORIZED; E_LETS_PENDING; E_RECEIPT_RECEIVED; E_RECEIPT_CLAIMED;
   E_EXECUTING; E_OUTCOME_UNCERTAIN].

(** [keys != sorted(keys)] on pairs of a time and a text, in Python's order. *)
Definition key_leb : Z * pystr -> Z * pystr -> bool :=
  time_key_leb fst (fun a b => str_leb (snd a) (snd b)).
Definition keys_sorted (keys : list (Z * pystr)) : bool := bool_decide (sort_by key_leb keys = keys).

Definition list_recoverable_protected_effects (owner_id : pystr) (updated_before : datetime)
    (limit : Z) : SM DB (list ProtectedEffectOperation) :=
  owner ← lift (_require_query_identifier owner_id "owner id");
  cutoff ← lift (as_validation "effect recovery cutoff must be UTC-aware"
    (require_utc updated_before "updated before"));
  lift (raise_unless ((1 <=? limit) && (limit <=? 200))
    (Exn RepositoryValidationError "effect recovery limit must be between 1 and 200")) ;;
  rows ← query (_LIST_RECOVERABLE_EFFECTS owner (instant cutoff) limit);
  effects ← lift (map_each _effect_from_row rows);
  lift (raise_if (limit <? Z.of_nat (length effects))
    (Exn RepositoryDataError "effect recovery query exceeded its limit")) ;;
  lift (check_each (fun e =>
      raise_if (bool_decide (e_owner_id e <> owner)
                || negb (bool_decide (e_status e ∈ _RECOVERABLE_EFFECT_STATUSES))
                || (instant cutoff <=? instant (e_updated_at e)))
        (Exn RepositoryDataError
          "effect recovery query returned a row outside its stale owner scope")) effects) ;;
  lift (raise_unless (keys_sorted
      ((fun e => (instant (e_updated_at e), e_operation_id e)) <$> effects))
    (Exn RepositoryDataError "effect recovery query returned nondeterministically ordered rows")) ;;
  mret effects.

Definition list_recovery_owners (lifecycle_due_at effect_updated_before : datetime) (limit : Z)
  : SM DB (list pystr) :=
  '(due, cutoff) ← lift (as_validation "recovery owner cutoff must be UTC-aware"
    (d ← require_utc lifecycle_due_at "lifecycle due at";
     c ← require_utc effect_updated_before "effect updated before"; Ok (d, c)));
  lift (raise_unless ((1 <=? limit) && (limit <=? 1000))
    (Exn RepositoryValidationError "recovery owner limit must be between 1 and 1000")) ;;
  rows ← query (_LIST_RECOVERY_OWNERS (instant due) (instant cutoff) limit);
  lift (raise_if (limit <? Z.of_nat (length rows))
    (Exn RepositoryDataError "recovery owner query exceeded its limit")) ;;
  keys ← lift (map_each (fun row =>
      match (owner ← require_identifier (fst row) "owner id";
             recovery_at ← require_utc (from_timestamptz (snd row)) "recovery at";
             Ok (instant recovery_at, owner)) with
      | Ok k => Ok k
      | Err e =>
          if isinstance (exn_cls e) DomainValidationError
          then raise RepositoryDataError "recovery owner query returned invalid data" else Err e
      end) rows);
  lift (raise_unless (bool_decide (NoDup (snd <$> keys)) && keys_sorted keys)
    (Exn RepositoryDataError "recovery owner query returned nondeterministic partitions")) ;;
  mret (snd <$> keys).

Definition transition_protected_effect (replacement : ProtectedEffectOperation)
    (expected_status : ProtectedEffectStatus) (expected_version : Z)
  : SM DB ProtectedEffectOperation :=
  lift (_require_next_version (e_version replacement) expected_version) ;;
  lift (raise_unless (bool_decide (e_status replacement ∈ _EFFECT_TRANSITIONS expected_status))
    (Exn AuthorityCompareAndSetConflictError "protected effect transition is not allowed")) ;;
  row ← exec (_TRANSITION_EFFECT replacement expected_status expected_version);
  match row with
  | None => lift (raise AuthorityCompareAndSetConflictError "effect compare-and-set fence is stale")
  | Some r =>
      lift (check_persisted _effect_from_row replacement "effect transition returned different data" r)
  end.

(** [claim.evidence_digest.removeprefix("sha256:")] against the effect. *)
Definition evidence_matches (claim : ReceiptClaim) (effect : ProtectedEffectOperation) : bool :=
  match c_evidence_digest claim with
  | None => true
  | Some d => bool_decide (remove_prefix (u "sha256:") d = e_effect_digest effect)
  end.

Definition _validate_claim_relationships (claim : ReceiptClaim) (binding : AgentAuthorityBinding)
    (effect : ProtectedEffectOperation) : result unit :=
  let refuse b msg := raise_if b (Exn ReceiptClaimConflictError msg) in
  refuse (bool_decide
      ((b_owner_id binding, b_binding_id binding, b_tenant_id binding, b_envelope_id binding,
        b_warden_id binding, b_lease_id binding, b_subject_id binding, b_lineage_id binding,
        b_policy_digest binding, b_machine_digest binding, b_config_epoch binding)
       <> (c_owner_id claim, c_binding_id claim, c_tenant_id claim, c_envelope_id claim,
           c_warden_id claim, c_lease_id claim, c_subject_id claim, c_lineage_id claim,
           c_policy_digest claim, c_machine_digest claim, c_config_epoch claim)))
    "receipt does not match the owner binding" ;;
  refuse (bool_decide (b_state binding <> ACTIVE)) "receipt binding is not active" ;;
  refuse (bool_decide (e_agent_id effect <> b_agent_id binding))
    "receipt effect agent does not match the binding" ;;
  refuse (negb (bool_decide (e_lets_capability effect ∈ b_capabilities binding)))
    "receipt effect capability is not bound" ;;
  refuse (negb (e_expected_sequence effect =? b_lease_sequence binding))
    "receipt effect sequence is stale" ;;
  refuse (negb (c_resulting_sequence claim =? e_expected_sequence effect + 1))
    "receipt sequence does not advance exactly once" ;;
  refuse (b_lease_expires_at_ns binding <? c_expires_at_ns claim)
    "receipt expiry exceeds the bound lease" ;;
  refuse (bool_decide
      ((e_owner_id effect, e_operation_id effect, e_binding_id effect, e_executor_audience effect,
        e_lets_transition effect, e_nonce effect)
       <> (c_owner_id claim, c_operation_id claim, c_binding_id claim, c_audience claim,
           c_transition claim, c_nonce claim)))
    "receipt does not match the protected effect" ;;
  refuse (negb (evidence_matches claim effect)) "receipt evidence does not match the effect".

Definition _validate_new_claim_transition (current replacement : ProtectedEffectOperation)
    (claim : ReceiptClaim) : result unit :=
  raise_unless (_same_effect_intent current replacement)
    (Exn ReceiptClaimConflictError "claimed effect changes immutable intent") ;;
  raise_if (bool_decide (e_status current <> E_RECEIPT_RECEIVED)
            || bool_decide (e_status replacement <> E_RECEIPT_CLAIMED)
            || negb (e_version replacement =? e_version current + 1)
            || bool_decide (e_receipt_id replacement <> Some (c_receipt_id claim))
            || bool_decide (e_receipt_digest replacement <> Some (c_canonical_digest claim)))
    (Exn ReceiptClaimConflictError "claimed effect does not advance the receipt fence").

Definition _require_existing_claim_effect (effect : ProtectedEffectOperation) (claim : ReceiptClaim)
  : result unit :=
  raise_if (negb (bool_decide (e_status effect ∈
              [E_RECEIPT_CLAIMED; E_EXECUTING; E_SUCCEEDED; E_EFFECT_FAILED; E_OUTCOME_UNCERTAIN]))
            || bool_decide (e_receipt_id effect <> Some (c_receipt_id claim))
            || bool_decide (e_receipt_digest effect <> Some (c_canonical_digest claim)))
    (Exn ReceiptClaimConflictError "existing claim lacks matching effect evidence").

Definition _advance_watermark (watermark : ReceiptSequenceWatermark) (claim : ReceiptClaim)
  : SM DB unit :=
  lift (raise_if (bool_decide (watermark_key watermark <> sequence_watermark_key claim)
                  || negb (w_last_sequence watermark =? c_resulting_sequence claim)
                  || negb (w_expires_at_ns watermark =? c_expires_at_ns claim))
    (Exn RepositoryValidationError "watermark does not represent the receipt claim")) ;;
  row ← exec (_ADVANCE_WATERMARK watermark);
  match row with
  | None =>
      lift (raise ReceiptWatermarkConflictError "receipt sequence did not strictly advance")
  | Some r =>
      lift (check_persisted _watermark_from_row watermark
              "watermark advancement returned different data" r ;; Ok ())
  end.

(** The call of [self._outbox.enqueue]. *)
Definition outbox_enqueue (entry : OutboxEntry) : SM DB command_result :=
  zoom db_outbox set_outbox (store_enqueue entry).

(** The body of the savepoint [astralplane_authority_claim]. *)
Definition claim_receipt_body (claim : ReceiptClaim) (watermark : ReceiptSequenceWatermark)
    (claimed_effect : ProtectedEffectOperation) (outbox_entry : OutboxEntry) : SM DB ReceiptClaim :=
  binding_row ← query (_LOCK_BINDING (c_owner_id claim) (c_binding_id claim));
  effect_row ← query (_LOCK_EFFECT (c_owner_id claim) (c_operation_id claim));
  match binding_row, effect_row with
  | Some br, Some er =>
      binding ← lift (_binding_from_row br);
      current_effect ← lift (_effect_from_row er);
      lift (_validate_claim_relationships claim binding current_effect) ;;
      claim_row ← exec (_INSERT_CLAIM claim);
      match claim_row with
      | None =>
          existing_row ← query (_READ_CLAIM_CONFLICT claim);
          let rejected := raise ReceiptClaimConflictError
                            "receipt uniqueness fence rejected the claim" in
          match existing_row with
          | None => lift rejected
          | Some cr =>
              existing ← lift (_claim_from_row cr);
              if bool_decide (existing = claim)
              then lift (_require_existing_claim_effect current_effect claim) ;; mret existing
              else lift rejected
          end
      | Some cr =>
          persisted_claim ←
            lift (check_persisted _claim_from_row claim "receipt insert returned different data" cr);
          lift (_validate_new_claim_transition current_effect claimed_effect claim) ;;
          _advance_watermark watermark claim ;;
          transition_protected_effect claimed_effect (e_status current_effect)
            (e_version current_effect) ;;
          outbox_enqueue outbox_entry ;;
          mret persisted_claim
      end
  | _, _ =>
      lift (raise ReceiptClaimConflictError "receipt owner binding or effect is unavailable")
  end.

Definition claim_receipt (claim : ReceiptClaim) (watermark : ReceiptSequenceWatermark)
    (claimed_effect : ProtectedEffectOperation) (outbox_entry : OutboxEntry) : SM DB ReceiptClaim :=
  savepoint (claim_receipt_body claim watermark claimed_effect outbox_entry).
End Repository.
