(* ===== verification/AuthorityInvariant.v ===== *)
(** * The invariant of the authority tables

    Every stored row is the row of a value its constructor accepts, the unique
    indexes and foreign keys of the schema hold, every claimed sequence is
    covered by its watermark, and the outbox keeps its own invariant.  Each
    method of the repository preserves all of it and lets rows only evolve:
    along the transition table for effects, never out of a terminal state,
    always with the next version.  The methods are given values their own
    constructors returned ([_require_model] accepts nothing else). *)

From S2P Require Import Prelude Regex Errors Domain Sha256 Pg AuthorityModels AuthoritySchema.
From S2P Require Import AuthoritySamples AuthorityRows Outbox OutboxSafety OutboxStore.
From S2P Require Import AuthorityRepository.

(** ** Rows of valid values *)

Definition binding_wf (r : binding_row) : Prop := exists b, valid_binding b /\ r = _binding_values b.
Definition lifecycle_wf (r : lifecycle_row) : Prop :=
  exists o, valid_lifecycle o /\ r = _lifecycle_values o.
Definition effect_wf (r : effect_row) : Prop := exists o, valid_effect o /\ r = _effect_values o.
Definition watermark_wf (r : watermark_row) : Prop :=
  exists w, valid_watermark w /\ r = watermark_values w.
Definition claim_wf (r : claim_row) : Prop := exists c, valid_claim c /\ r = _claim_values c.

(** An update keeps [created_at]: the new row is the replacement's with the
    old creation time, valid because the CHECK constraint orders the times. *)
Lemma binding_recreated b c :
  valid_binding b -> c <= instant (b_updated_at b) ->
  valid_binding (with_binding_times b (utc c) (b_updated_at b)).
Proof.
  unfold valid_binding, binding_init. intros Hi Hc. inv_ok.
  assert (v10 = b_updated_at b) as -> by (by rewrite <- Hi).
  change (check_remote_state (with_binding_times b (utc c) (b_updated_at b)))
    with (check_remote_state b).
  cbn. replay_ok. rewrite Z.sub_0_r.
  rewrite (proj2 (Z.ltb_ge _ _)) by (cbn; lia). done.
Qed.

Lemma effect_recreated o c :
  valid_effect o -> c <= instant (e_updated_at o) ->
  valid_effect (with_effect_times o (utc c) (e_updated_at o)).
Proof.
  unfold valid_effect, effect_init. intros Hi Hc. inv_ok.
  assert (v10 = e_updated_at o) as -> by (by rewrite <- Hi).
  change (check_effect_shape (with_effect_times o (utc c) (e_updated_at o)))
    with (check_effect_shape o).
  cbn. replay_ok. rewrite Z.sub_0_r.
  rewrite (proj2 (Z.ltb_ge _ _)) by (cbn; lia). done.
Qed.

Definition with_lifecycle_created (o : AuthorityLifecycleOperation) (c : Z)
  : AuthorityLifecycleOperation :=
  with_lifecycle_times o (l_next_attempt_at o) (l_last_attempt_at o) (l_reconciled_at o) (utc c)
    (l_updated_at o).

Lemma lifecycle_recreated o c :
  valid_lifecycle o -> c <= instant (l_updated_at o) ->
  opt_all (fun t => c <= instant t) (l_next_attempt_at o) ->
  opt_all (fun t => c <= instant t) (l_last_attempt_at o) ->
  opt_all (fun t => c <= instant t) (l_reconciled_at o) ->
  valid_lifecycle (with_lifecycle_created o c).
Proof.
  unfold valid_lifecycle, lifecycle_init. intros Hi Hc Hn Hl Hr. inv_ok.
  assert (v9 = l_next_attempt_at o) as -> by (by rewrite <- Hi).
  assert (v10 = l_last_attempt_at o) as -> by (by rewrite <- Hi).
  assert (v11 = l_reconciled_at o) as -> by (by rewrite <- Hi).
  assert (v14 = l_updated_at o) as -> by (by rewrite <- Hi).
  assert (forall x, opt_all (fun t => c <= instant t) x -> precedes x (utc (c - 0)) = false) as Hp.
  { intros [t|]; cbn; [|done]. intros ?. apply Z.ltb_ge. lia. }
  change (check_lifecycle_shape (with_lifecycle_created o c)) with (check_lifecycle_shape o).
  cbn. replay_ok. rewrite (proj2 (Z.ltb_ge _ _)) by (cbn; lia). cbn.
  rewrite !Hp by done. cbn. replay_ok. unfold with_lifecycle_created. by rewrite Z.sub_0_r.
Qed.

Section Writes.
Context `{PgEnv}.

Lemma check_row_checks columns checks x :
  (column_range columns ;; check_constraint checks) = Ok x -> checks = true.
Proof. destruct x. rewrite check_row_Ok. intros [_ ?]%andb_true_iff. done. Qed.

Lemma transition_binding_wf b st v r :
  valid_binding b -> transition_binding_fence (_binding_values b) st v r = true ->
  check_binding_row (transition_binding_set (_binding_values b) r) = Ok () ->
  binding_wf (transition_binding_set (_binding_values b) r).
Proof.
  intros Hv Hf Hc%check_row_checks.
  exists (with_binding_times b (utc (rb_created_at r)) (b_updated_at b)). split.
  - apply binding_recreated; [done|]. unfold binding_checks in Hc. split_bools. cbn in *. done.
  - unfold transition_binding_fence, binding_scope in Hf. split_bools. cbn in *.
    unfold transition_binding_set, set_binding_row, _binding_values. cbn.
    unfold remote_ids in *. cbn in *. simplify_eq. rewrite Z.sub_0_r. f_equal; done.
Qed.

Lemma activate_binding_wf b pending v r :
  valid_binding b -> activate_binding_fence (_binding_values b) pending v r = true ->
  activate_binding_set (_binding_values b) r = _binding_values b.
Proof.
  intros Hv Hf. unfold activate_binding_fence, binding_scope in Hf. split_bools. cbn in *.
  unfold activate_binding_set, set_binding_row, _binding_values. cbn. f_equal; done.
Qed.

Lemma transition_effect_wf o st v r :
  valid_effect o -> transition_effect_fence (_effect_values o) st v r = true ->
  check_effect_row (transition_effect_set (_effect_values o) r) = Ok () ->
  effect_wf (transition_effect_set (_effect_values o) r).
Proof.
  intros Hv Hf Hc%check_row_checks.
  exists (with_effect_times o (utc (re_created_at r)) (e_updated_at o)). split.
  - apply effect_recreated; [done|]. unfold effect_checks in Hc. split_bools. cbn in *. done.
  - unfold transition_effect_fence in Hf. split_bools. cbn in *.
    unfold transition_effect_set, _effect_values. cbn. rewrite Z.sub_0_r. f_equal; done.
Qed.

Lemma null_or_leb c (o : option datetime) :
  null_or (fun t => c <=? t) (instant <$> o) = true -> opt_all (fun t => c <= instant t) o.
Proof. destruct o; cbn; [apply Z.leb_le | done]. Qed.

Lemma transition_lifecycle_wf o st v r :
  valid_lifecycle o -> transition_lifecycle_fence (_lifecycle_values o) st v r = true ->
  check_lifecycle_row (transition_lifecycle_set (_lifecycle_values o) r) = Ok () ->
  lifecycle_wf (transition_lifecycle_set (_lifecycle_values o) r).
Proof.
  intros Hv Hf Hc%check_row_checks. exists (with_lifecycle_created o (rl_created_at r)). split.
  - unfold lifecycle_checks, check_lifecycle_time in Hc. rewrite !andb_true_iff in Hc.
    destruct Hc as [_ [[[[Hu Hn] Hl] Hr] _]]. cbn in *. apply Z.leb_le in Hu.
    apply lifecycle_recreated; auto using null_or_leb.
  - unfold transition_lifecycle_fence in Hf. split_bools. cbn in *.
    unfold transition_lifecycle_set, _lifecycle_values. cbn. rewrite Z.sub_0_r. f_equal; done.
Qed.
End Writes.

(** ** How rows evolve *)

Definition binding_identity (r : binding_row) :=
  (rb_binding_id r, rb_owner_id r, rb_agent_id r, rb_runtime_id r, rb_runtime_generation r,
   rb_population r, rb_tenant_id r, rb_envelope_id r, rb_policy_digest r, rb_machine_digest r,
   rb_config_epoch r, rb_capabilities r, rb_created_at r).

Definition binding_row_terminal (r : binding_row) : bool :=
  text_in (rb_state r) ["closed"; "revoked"; "expired"].

(** Remote identities change once, from pending to issued. *)
Definition binding_evolves (r r' : binding_row) : Prop :=
  binding_identity r' = binding_identity r
  /\ (starts_with PENDING_ID_PREFIX (rb_warden_id r) = false -> remote_ids r' = remote_ids r)
  /\ (r' = r \/ (rb_version r < rb_version r' /\ binding_row_terminal r = false)).

Definition lifecycle_identity (r : lifecycle_row) :=
  (rl_operation_id r, rl_owner_id r, rl_binding_id r, rl_kind r, rl_expected_binding_version r,
   rl_expected_lease_sequence r, rl_request_fingerprint r, rl_remote_request_id r, rl_created_at r).

Definition lifecycle_row_terminal (r : lifecycle_row) : bool :=
  text_in (rl_status r) ["succeeded"; "failed"; "reconciled"].

Definition lifecycle_evolves (r r' : lifecycle_row) : Prop :=
  lifecycle_identity r' = lifecycle_identity r
  /\ (r' = r \/ (rl_version r < rl_version r' /\ lifecycle_row_terminal r = false)).

Definition effect_identity (r : effect_row) :=
  (re_operation_id r, re_owner_id r, re_agent_id r, re_binding_id r, re_tool_id r,
   re_astral_scope r, re_lets_capability r, re_lets_transition r, re_executor_audience r,
   re_nonce r, re_effect_digest r, re_expected_sequence r, re_audit_correlation_id r,
   re_created_at r).

(** One allowed move of an effect. *)
Definition effect_move (s s' : ProtectedEffectStatus) : Prop := s' ∈ _EFFECT_TRANSITIONS s.

(** An effect moves along the transition table, one version per move. *)
Definition effect_evolves (r r' : effect_row) : Prop :=
  effect_identity r' = effect_identity r
  /\ (r' = r \/ exists s s' n,
        re_status r = enum_value s /\ re_status r' = enum_value s'
        /\ nsteps effect_move n s s' /\ (0 < n)%nat /\ re_version r' = re_version r + Z.of_nat n).

Definition watermark_evolves (r r' : watermark_row) : Prop :=
  watermark_row_key r' = watermark_row_key r
  /\ (r' = r \/ (rw_last_sequence r < rw_last_sequence r' /\ rw_version r < rw_version r'
                  /\ rw_updated_at r <= rw_updated_at r')).

#[global] Instance binding_evolves_preorder : PreOrder binding_evolves.
Proof.
  split; [intros r; split_and!; auto|]. intros r1 r2 r3 (I1 & R1 & H1) (I2 & R2 & H2).
  split_and!; [congruence| |].
  - intros Hp. rewrite R2; [auto|]. specialize (R1 Hp). unfold remote_ids in R1.
    injection R1 as -> _ _ _. done.
  - destruct H1 as [->|[? ?]]; [done|]. destruct H2 as [->|[? ?]]; right; split; auto; lia.
Qed.

#[global] Instance lifecycle_evolves_preorder : PreOrder lifecycle_evolves.
Proof.
  split; [intros r; split; auto|]. intros r1 r2 r3 (I1 & H1) (I2 & H2). split; [congruence|].
  destruct H1 as [->|[? ?]]; [done|]. destruct H2 as [->|[? ?]]; right; split; auto; lia.
Qed.

#[global] Instance effect_evolves_preorder : PreOrder effect_evolves.
Proof.
  split; [intros r; split; auto|]. intros r1 r2 r3 (I1 & H1) (I2 & H2). split; [congruence|].
  destruct H1 as [->|(s1 & s2 & n & E1 & E2 & Hn & Hp & Hv)]; [done|].
  destruct H2 as [->|(s2' & s3 & m & E2' & E3 & Hm & Hq & Hw)]; [eauto 10|].
  assert (s2' = s2) as -> by (apply enum_value_inj; congruence).
  right. exists s1, s3, (n + m)%nat. split_and!; [done|done| |lia|lia].
  by eapply nsteps_trans.
Qed.

#[global] Instance watermark_evolves_preorder : PreOrder watermark_evolves.
Proof.
  split; [intros r; split; auto|]. intros r1 r2 r3 (I1 & H1) (I2 & H2). split; [congruence|].
  destruct H1 as [->|(? & ? & ?)]; [done|]. destruct H2 as [->|(? & ? & ?)]; right; split_and!; lia.
Qed.

(** ** Steps of a run *)

Lemma next_version_Ok v e x : _require_next_version v e = Ok x -> 0 <= e /\ v = e + 1.
Proof. unfold _require_next_version. intros Hn. inv_ok. split_bools. lia. Qed.

Lemma check_persisted_Ok {A R} `{EqDecision A} (from_row : R -> result A) exact msg r x :
  check_persisted from_row exact msg r = Ok x -> from_row r = Ok exact /\ x = exact.
Proof.
  unfold check_persisted. intros Hc. inv_ok. split_bools. apply dec_stable in Hs0. by subst.
Qed.

(** Facts of the steps of a run. *)
Ltac run_facts :=
  repeat match goal with
  | Hx : check_persisted _ _ _ _ = Ok _ |- _ => apply check_persisted_Ok in Hx as [Hx ->]
  | Hx : _require_next_version _ _ = Ok _ |- _ => apply next_version_Ok in Hx as [? Hx]
  | Hx : raise_unless _ _ = Ok _ |- _ => apply raise_unless_Ok in Hx
  | Hx : raise_if _ _ = Ok _ |- _ => apply raise_if_Ok in Hx
  | Hx : exec _ _ = (Ok _, _) |- _ => apply exec_run_Ok in Hx as (? & ? & Hx)
  end; split_bools.

(** ** The database *)

Section Database.
Context `{PgEnv} {S : Type} `{!OutboxStore S}.
Implicit Types db : authority_db S.

(** Every claim is covered by the watermark of its lease and audience. *)
Definition watermark_covers (claims : list claim_row) (watermarks : list watermark_row) : Prop :=
  forall c, c ∈ claims -> exists w, w ∈ watermarks
    /\ watermark_row_key w = (rc_warden_id c, rc_lease_id c, rc_audience c)
    /\ rc_resulting_sequence c <= rw_last_sequence w.

Definition watermark_conflict (r r' : watermark_row) : bool :=
  bool_decide (watermark_row_key r = watermark_row_key r').

Record authority_inv db : Prop := {
  inv_bindings : Forall binding_wf (db_bindings db);
  inv_lifecycle : Forall lifecycle_wf (db_lifecycle db);
  inv_effects : Forall effect_wf (db_effects db);
  inv_watermarks : Forall watermark_wf (db_watermarks db);
  inv_claims : Forall claim_wf (db_claims db);
  inv_bindings_unique : unique_ok binding_conflict (db_bindings db) = true;
  inv_lifecycle_unique : unique_ok lifecycle_conflict (db_lifecycle db) = true;
  inv_effects_unique : unique_ok effect_conflict (db_effects db) = true;
  inv_watermarks_unique : unique_ok watermark_conflict (db_watermarks db) = true;
  inv_claims_unique : unique_ok claim_conflict (db_claims db) = true;
  inv_lifecycle_fk : forall r, r ∈ db_lifecycle db ->
    binding_exists (rl_owner_id r) (rl_binding_id r) (db_bindings db) = true;
  inv_effects_fk : forall r, r ∈ db_effects db ->
    binding_exists (re_owner_id r) (re_binding_id r) (db_bindings db) = true;
  inv_claims_fk : forall r, r ∈ db_claims db ->
    binding_exists (rc_owner_id r) (rc_binding_id r) (db_bindings db) = true
    /\ effect_exists (rc_owner_id r) (rc_operation_id r) (db_effects db) = true;
  inv_covers : watermark_covers (db_claims db) (db_watermarks db);
  inv_outbox : store_inv (db_outbox db)
}.

Record db_evolves db db' : Prop := {
  ev_bindings : table_evolves binding_evolves (db_bindings db) (db_bindings db');
  ev_lifecycle : table_evolves lifecycle_evolves (db_lifecycle db) (db_lifecycle db');
  ev_effects : table_evolves effect_evolves (db_effects db) (db_effects db');
  ev_watermarks : table_evolves watermark_evolves (db_watermarks db) (db_watermarks db');
  ev_claims : exists new, db_claims db' = db_claims db ++ new;
  ev_outbox : store_evolves (db_outbox db) (db_outbox db')
}.

#[global] Instance db_evolves_preorder : PreOrder db_evolves.
Proof.
  split.
  - intros db. split; try reflexivity. exists []. by rewrite app_nil_r.
  - intros d1 d2 d3 [] []. split; try (etransitivity; eassumption).
    destruct ev_claims0 as [n1 E1], ev_claims1 as [n2 E2]. exists (n1 ++ n2).
    by rewrite E2, E1, app_assoc.
Qed.

Definition authority_safe db db' : Prop := authority_inv db -> authority_inv db' /\ db_evolves db db'.

#[global] Instance authority_safe_preorder : PreOrder authority_safe.
Proof.
  split.
  - intros db Hi. split; [done|reflexivity].
  - intros d1 d2 d3 H1 H2 Hi. destruct (H1 Hi) as [Hi2 E1]. destruct (H2 Hi2) as [Hi3 E2].
    split; [done|]. by transitivity d2.
Qed.

(** References survive evolution of the referenced tables. *)
Lemma binding_exists_evolves owner binding t t' :
  table_evolves binding_evolves t t' -> binding_exists owner binding t = true ->
  binding_exists owner binding t' = true.
Proof.
  unfold binding_exists. rewrite !exists_row_true. intros He (r & Hr & Hp).
  destruct (table_evolves_elem _ _ _ r He Hr) as (r' & Hr' & Hid & _).
  exists r'. split; [done|]. unfold binding_identity in Hid. injection Hid as -> -> _. done.
Qed.

Lemma effect_exists_evolves owner operation t t' :
  table_evolves effect_evolves t t' -> effect_exists owner operation t = true ->
  effect_exists owner operation t' = true.
Proof.
  unfold effect_exists. rewrite !exists_row_true. intros He (r & Hr & Hp).
  destruct (table_evolves_elem _ _ _ r He Hr) as (r' & Hr' & Hid & _).
  exists r'. split; [done|]. unfold effect_identity in Hid. injection Hid as -> -> _. done.
Qed.

Lemma watermark_covers_evolves cs t t' :
  table_evolves watermark_evolves t t' -> watermark_covers cs t -> watermark_covers cs t'.
Proof.
  intros He Hc c Hin. destruct (Hc c Hin) as (w & Hw & Hk & Hl).
  destruct (table_evolves_elem _ _ _ w He Hw) as (w' & Hw' & Hk' & Hl').
  exists w'. split_and!; [done|congruence|]. destruct Hl' as [->|(? & _)]; lia.
Qed.

(** *** A change of one table *)

Lemma bindings_step db t :
  Forall binding_wf t -> unique_ok binding_conflict t = true ->
  table_evolves binding_evolves (db_bindings db) t -> authority_inv db ->
  authority_inv (set_bindings t db) /\ db_evolves db (set_bindings t db).
Proof.
  intros Hwf Hu He Hi. split.
  - destruct Hi. split; cbn; auto; intros r Hr.
    + eauto using binding_exists_evolves.
    + eauto using binding_exists_evolves.
    + destruct (inv_claims_fk0 r Hr). eauto using binding_exists_evolves.
  - split; cbn; try reflexivity; [done|]. exists []. by rewrite app_nil_r.
Qed.

Lemma lifecycle_step db t :
  Forall lifecycle_wf t -> unique_ok lifecycle_conflict t = true ->
  table_evolves lifecycle_evolves (db_lifecycle db) t ->
  (forall r, r ∈ t -> binding_exists (rl_owner_id r) (rl_binding_id r) (db_bindings db) = true) ->
  authority_inv db ->
  authority_inv (set_lifecycle t db) /\ db_evolves db (set_lifecycle t db).
Proof.
  intros Hwf Hu He Hfk Hi. split.
  - destruct Hi. split; cbn; auto.
  - split; cbn; try reflexivity; [done|]. exists []. by rewrite app_nil_r.
Qed.

Lemma effects_step db t :
  Forall effect_wf t -> unique_ok effect_conflict t = true ->
  table_evolves effect_evolves (db_effects db) t ->
  (forall r, r ∈ t -> binding_exists (re_owner_id r) (re_binding_id r) (db_bindings db) = true) ->
  authority_inv db ->
  authority_inv (set_effects t db) /\ db_evolves db (set_effects t db).
Proof.
  intros Hwf Hu He Hfk Hi. split.
  - destruct Hi. split; cbn; auto. intros r Hr. destruct (inv_claims_fk0 r Hr).
    eauto using effect_exists_evolves.
  - split; cbn; try reflexivity; [done|]. exists []. by rewrite app_nil_r.
Qed.

(** *** Every statement that writes *)

Lemma binding_conflict_sym a b : binding_conflict a b = binding_conflict b a.
Proof.
  unfold binding_conflict. rewrite (andb_comm (row_nonterminal a)).
  repeat f_equal; apply bool_decide_ext; split; congruence.
Qed.

Lemma lifecycle_conflict_sym a b : lifecycle_conflict a b = lifecycle_conflict b a.
Proof. unfold lifecycle_conflict. f_equal; apply bool_decide_ext; split; congruence. Qed.

Lemma effect_conflict_sym a b : effect_conflict a b = effect_conflict b a.
Proof.
  unfold effect_conflict. apply f_equal2; [apply f_equal2; [apply f_equal2|]|];
    try (apply bool_decide_ext; split; congruence).
  destruct (re_receipt_id a) as [x|], (re_receipt_id b) as [y|]; cbn; try done.
  apply bool_decide_ext; split; congruence.
Qed.

Lemma claim_conflict_sym a b : claim_conflict a b = claim_conflict b a.
Proof. unfold claim_conflict. repeat f_equal; apply bool_decide_ext; split; congruence. Qed.

Lemma insert_binding_safe b db o db' :
  valid_binding b -> _INSERT_BINDING b db = Ok (o, db') -> authority_safe db db'.
Proof.
  unfold _INSERT_BINDING, on. intros Hv Hq Hi. inv_ok. destruct v as [o' t]. inv_ok. simplify_eq.
  destruct (insert_rows binding_wf binding_evolves _ _ binding_conflict_sym _ _ _ _ _ Hs)
    as (? & ? & ? & _); [by exists b|apply Hi|apply Hi|]. by apply bindings_step.
Qed.

Lemma transition_binding_evolves b st e r :
  b_version b = e + 1 -> binding_terminal st = false ->
  transition_binding_fence (_binding_values b) st e r = true ->
  binding_evolves r (transition_binding_set (_binding_values b) r).
Proof.
  intros Hv Ht Hf. unfold transition_binding_fence in Hf. split_bools.
  split_and!; [done|done|]. right. cbn. split; [lia|].
  unfold binding_row_terminal. rewrite (ltac:(done) : rb_state r = enum_value st). by destruct st.
Qed.

Lemma transition_binding_sql_safe b st e db o db' :
  valid_binding b -> b_version b = e + 1 -> binding_terminal st = false ->
  _TRANSITION_BINDING b st e db = Ok (o, db') -> authority_safe db db'.
Proof.
  unfold _TRANSITION_BINDING, on. intros Hv He Ht Hq Hi. inv_ok. destruct v as [o' t]. inv_ok.
  destruct v0 as [rs t']. inv_ok. simplify_eq.
  destruct (update_rows binding_wf binding_evolves _ _ _ _ _ _ _ Hs0) as (? & ? & ?); [apply Hi| | |].
  - intros r _. by apply transition_binding_wf.
  - intros r _. by apply transition_binding_evolves.
  - by apply bindings_step.
Qed.

Lemma pending_fence_Ok i l : pending_fence i = Ok l -> l = pending_identities i.
Proof.
  unfold pending_fence, pending_authority_identity, require_identifier.
  destruct (is_identifier i); cbn; [|done]. by intros [= <-].
Qed.

Lemma pending_text_prefix i f : starts_with PENDING_ID_PREFIX (pending_text i f) = true.
Proof. apply starts_with_spec. unfold pending_text. eauto. Qed.

Lemma activate_binding_sql_safe b pending e db o db' :
  valid_binding b -> b_version b = e + 1 -> pending_fence (b_binding_id b) = Ok pending ->
  _ACTIVATE_BINDING b pending e db = Ok (o, db') -> authority_safe db db'.
Proof.
  unfold _ACTIVATE_BINDING, on. intros Hv He ->%pending_fence_Ok Hq Hi. inv_ok.
  destruct v as [o' t]. inv_ok. destruct v0 as [rs t']. inv_ok. simplify_eq.
  destruct (update_rows binding_wf binding_evolves _ _ _ _ _ _ _ Hs0) as (? & ? & ?); [apply Hi| | |].
  - intros r _ Hf _. exists b. split; [done|]. by eapply activate_binding_wf.
  - intros r _ Hf. unfold activate_binding_fence in Hf. split_bools.
    split_and!; [done| |right; cbn; split; [lia|]].
    + unfold remote_ids in *. cbn in *. simplify_eq.
      match goal with Hw : rb_warden_id r = _ |- _ => rewrite Hw end. by rewrite pending_text_prefix.
    + unfold binding_row_terminal. by rewrite (ltac:(done) : rb_state r = u "provisioning").
  - by apply bindings_step.
Qed.

Lemma foreign_key_Ok b x : foreign_key b = Ok x -> b = true.
Proof. unfold foreign_key. by intros ?%raise_unless_Ok. Qed.

Lemma insert_lifecycle_safe l db o db' :
  valid_lifecycle l -> _INSERT_LIFECYCLE l db = Ok (o, db') -> authority_safe db db'.
Proof.
  unfold _INSERT_LIFECYCLE, on. intros Hv Hq Hi. inv_ok. destruct v as [o' t]. inv_ok. simplify_eq.
  destruct (insert_rows lifecycle_wf lifecycle_evolves _ _ lifecycle_conflict_sym _ _ _ _ _ Hs)
    as (? & ? & ? & Hin); [by exists l|apply Hi|apply Hi|]. apply lifecycle_step; auto.
  intros r [Hr|[-> Hfk%foreign_key_Ok]]%Hin; [by apply Hi | done].
Qed.

Lemma transition_lifecycle_sql_safe l st e db o db' :
  valid_lifecycle l -> l_version l = e + 1 -> lifecycle_terminal st = false ->
  _TRANSITION_LIFECYCLE l st e db = Ok (o, db') -> authority_safe db db'.
Proof.
  unfold _TRANSITION_LIFECYCLE, on. intros Hv He Ht Hq Hi. inv_ok. destruct v as [o' t]. inv_ok.
  destruct v0 as [rs t']. inv_ok. simplify_eq.
  destruct (update_rows lifecycle_wf lifecycle_evolves _ _ _ _ _ _ _ Hs0) as (? & ? & ?); [apply Hi| | |].
  - intros r _. by apply transition_lifecycle_wf.
  - intros r _ Hf. unfold transition_lifecycle_fence in Hf. split_bools. split; [done|].
    right. cbn. split; [lia|]. unfold lifecycle_row_terminal.
    rewrite (ltac:(done) : rl_status r = enum_value st). by destruct st.
  - apply lifecycle_step; auto. apply update_returning_Ok in Hs0 as (_ & _ & -> & _).
    intros r (r0 & Hr0 & ->)%elem_of_update_where.
    destruct (transition_lifecycle_fence _ _ _ r0); by apply Hi in Hr0.
Qed.

Lemma insert_effect_safe e db o db' :
  valid_effect e -> _INSERT_EFFECT e db = Ok (o, db') -> authority_safe db db'.
Proof.
  unfold _INSERT_EFFECT, on. intros Hv Hq Hi. inv_ok. destruct v as [o' t]. inv_ok. simplify_eq.
  destruct (insert_rows effect_wf effect_evolves _ _ effect_conflict_sym _ _ _ _ _ Hs)
    as (? & ? & ? & Hin); [by exists e|apply Hi|apply Hi|]. apply effects_step; auto.
  intros r [Hr|[-> Hfk%foreign_key_Ok]]%Hin; [by apply Hi | done].
Qed.

Lemma transition_effect_evolves o st e r :
  e_version o = e + 1 -> effect_move st (e_status o) ->
  transition_effect_fence (_effect_values o) st e r = true ->
  effect_evolves r (transition_effect_set (_effect_values o) r).
Proof.
  intros Hv Hm Hf. unfold transition_effect_fence in Hf. split_bools. split; [done|]. right.
  exists st, (e_status o), 1%nat. cbn. split_and!; [done|done|by apply nsteps_once|lia|lia].
Qed.

Lemma transition_effect_sql_safe o st e db x db' :
  valid_effect o -> e_version o = e + 1 -> effect_move st (e_status o) ->
  _TRANSITION_EFFECT o st e db = Ok (x, db') -> authority_safe db db'.
Proof.
  unfold _TRANSITION_EFFECT, on. intros Hv He Ht Hq Hi. inv_ok. destruct v as [o' t]. inv_ok.
  destruct v0 as [rs t']. inv_ok. simplify_eq.
  destruct (update_rows effect_wf effect_evolves _ _ _ _ _ _ _ Hs0) as (? & ? & ?); [apply Hi| | |].
  - intros r _. by apply transition_effect_wf.
  - intros r _. by apply transition_effect_evolves.
  - apply effects_step; auto. apply update_returning_Ok in Hs0 as (_ & _ & -> & _).
    intros r (r0 & Hr0 & ->)%elem_of_update_where.
    destruct (transition_effect_fence _ _ _ r0); by apply Hi in Hr0.
Qed.

(** *** Receipt claims *)

Section ClaimRuns.
Variables (c : ReceiptClaim) (w : ReceiptSequenceWatermark) (e : ProtectedEffectOperation)
  (x : OutboxEntry).
Implicit Types s : session (authority_db S).

(** The binding and effect a claim is checked against. *)
Definition claim_context db b cur : Prop :=
  exists br er, _LOCK_BINDING (c_owner_id c) (c_binding_id c) db = Some br
    /\ _LOCK_EFFECT (c_owner_id c) (c_operation_id c) db = Some er
    /\ _binding_from_row br = Ok b /\ _effect_from_row er = Ok cur
    /\ _validate_claim_relationships c b cur = Ok ().

(** A claim found already stored. *)
Definition claim_replayed db cur : Prop :=
  exists o cr, _INSERT_CLAIM c db = Ok (o, db) /\ _READ_CLAIM_CONFLICT c db = Some cr
    /\ _claim_from_row cr = Ok c /\ _require_existing_claim_effect cur c = Ok ().

Definition watermark_represents : bool :=
  bool_decide (watermark_key w = sequence_watermark_key c)
  && (w_last_sequence w =? c_resulting_sequence c) && (w_expires_at_ns w =? c_expires_at_ns c).

(** A new claim: its statements, in order. *)
Definition claim_stored db cur (s' : session (authority_db S)) : Prop :=
  exists cr wr er db1 db2 db3 so res,
    _INSERT_CLAIM c db = Ok (Some cr, db1)
    /\ _validate_new_claim_transition cur e c = Ok ()
    /\ watermark_represents = true
    /\ _ADVANCE_WATERMARK w db1 = Ok (Some wr, db2)
    /\ e_version e = e_version cur + 1 /\ effect_move (e_status cur) (e_status e)
    /\ _TRANSITION_EFFECT e (e_status cur) (e_version cur) db2 = Ok (Some er, db3)
    /\ _effect_from_row er = Ok e
    /\ store_enqueue x (Session (db_outbox db3) false) = (Ok res, so)
    /\ s' = Session (set_outbox (s_db so) db3) (s_failed so).

Lemma advance_watermark_run s s' r :
  _advance_watermark w c s = (Ok r, s') ->
  s_failed s' = false /\ watermark_represents = true
  /\ exists wr, _ADVANCE_WATERMARK w (s_db s) = Ok (Some wr, s_db s').
Proof.
  unfold _advance_watermark. intros Hr. inv_run. subst.
  apply exec_run_Ok in Hr1 as (_ & Hf' & Hq). destruct v0 as [wr|]; [|inv_run; inv_ok].
  inv_run. subst. inv_ok. split_and!; [done| |eauto].
  unfold watermark_represents. split_bools.
  match goal with Hk : ~ (watermark_key w <> _) |- _ => apply dec_stable in Hk end.
  rewrite bool_decide_eq_true_2, !(proj2 (Z.eqb_eq _ _)); done.
Qed.

Lemma transition_effect_run o st v s s' r :
  transition_protected_effect o st v s = (Ok r, s') ->
  s_failed s' = false /\ e_version o = v + 1 /\ effect_move st (e_status o) /\ r = o
  /\ exists er, _TRANSITION_EFFECT o st v (s_db s) = Ok (Some er, s_db s')
                 /\ _effect_from_row er = Ok o.
Proof.
  unfold transition_protected_effect. intros Hr. inv_run. subst.
  destruct v2 as [er|]; [|inv_run; inv_ok]. inv_run. subst. run_facts. split_and!; eauto.
Qed.

Lemma insert_claim_none o db db' :
  _INSERT_CLAIM c db = Ok (o, db') -> o = None -> db' = db.
Proof.
  unfold _INSERT_CLAIM, on. intros Hq ->. inv_ok. destruct v as [o' t]. inv_ok. simplify_eq.
  apply insert_do_nothing_Ok in Hs as (_ & [(_ & -> & _)|(? & _)]); [by destruct db|done].
Qed.

Lemma claim_receipt_body_run s s' r :
  claim_receipt_body c w e x s = (Ok r, s') ->
  r = c /\ s_failed s = false /\ exists b cur, claim_context (s_db s) b cur
    /\ ((claim_replayed (s_db s) cur /\ s' = s) \/ claim_stored (s_db s) cur s').
Proof.
  unfold claim_receipt_body. intros Hr. inv_run. subst.
  destruct (_LOCK_BINDING _ _ _) as [br|] eqn:Hb; [|inv_run; inv_ok].
  destruct (_LOCK_EFFECT _ _ _) as [er|] eqn:He; [|inv_run; inv_ok].
  inv_run. subst. run_facts.
  match goal with Hx : _validate_claim_relationships _ _ _ = Ok ?u |- _ => destruct u end.
  destruct v2 as [cr|].
  - inv_run. subst. run_facts. split_and!; [done|done|].
    match goal with Hx : outbox_enqueue _ _ = _ |- _ => apply zoom_run_Ok in Hx as (so & Hso & ->) end.
    match goal with Hx : _advance_watermark _ _ _ = _ |- _ =>
      apply advance_watermark_run in Hx as (Hf1 & Hrep & wr & Hadv) end.
    match goal with Hx : transition_protected_effect _ _ _ _ = _ |- _ =>
      apply transition_effect_run in Hx as (Hf2 & Hv & Hm & _ & er' & Htr & Hdec) end.
    rewrite Hf2 in Hso. eexists _, _. split; [exists br, er; split_and!; eauto|]. right.
    match goal with Hx : _validate_new_claim_transition _ _ _ = Ok ?u |- _ => destruct u end.
    eexists _, _, _, _, _, _, _, _. split_and!; eauto.
  - inv_run. subst. pose proof (insert_claim_none _ _ _ Hr3 eq_refl) as Hdb.
    assert (s3 = s) as -> by (destruct s, s3; cbn in *; congruence).
    destruct (_READ_CLAIM_CONFLICT c (s_db s)) as [cr|] eqn:Hrd; [|inv_run; inv_ok].
    inv_run. case_bool_decide as Heq; [|inv_run; inv_ok]. inv_run. subst.
    match goal with Hx : _require_existing_claim_effect _ _ = Ok ?u |- _ => destruct u end.
    split_and!; [done|done|]. exists v, v0. split; [exists br, er; split_and!; eauto|].
    left. split; [|done]. exists None, cr. split_and!; eauto.
Qed.
End ClaimRuns.

Lemma watermark_conflict_sym a b : watermark_conflict a b = watermark_conflict b a.
Proof. apply bool_decide_ext; split; congruence. Qed.

Lemma advance_watermark_sql w db o db' :
  valid_watermark w -> Forall watermark_wf (db_watermarks db) ->
  unique_ok watermark_conflict (db_watermarks db) = true ->
  _ADVANCE_WATERMARK w db = Ok (Some o, db') ->
  exists t, db' = set_watermarks t db /\ Forall watermark_wf t
    /\ unique_ok watermark_conflict t = true
    /\ table_evolves watermark_evolves (db_watermarks db) t /\ watermark_values w ∈ t.
Proof.
  unfold _ADVANCE_WATERMARK, on. intros Hv Hwf Hu Hq. inv_ok. destruct v as [o' t]. inv_ok. simplify_eq.
  exists t. split; [done|]. set (same r := bool_decide (watermark_row_key r = watermark_row_key (watermark_values w))) in *.
  assert (watermark_wf (watermark_values w)) as Hw by (by exists w).
  destruct (rows_where same (db_watermarks db)) as [|old l] eqn:Hrows.
  - inv_ok. simplify_eq. rewrite rows_where_nil in Hrows. split_and!.
    + apply Forall_app. split; [done|by constructor].
    + apply unique_ok_snoc; [apply watermark_conflict_sym|]. split; [done|].
      apply exists_row_false. intros r Hr. rewrite watermark_conflict_sym. by apply Hrows.
    + apply table_evolves_snoc, _.
    + apply elem_of_app. right. by left.
  - case_match eqn:Hlt; inv_ok; simplify_eq. case_match eqn:Hg; inv_ok; simplify_eq.
    assert (old ∈ rows_where same (db_watermarks db)) as Hold by (rewrite Hrows; left).
    apply elem_of_rows_where in Hold as [Hin Hsame]. split_and!.
    + by apply Forall_update_where.
    + unfold update_where. rewrite unique_ok_fmap; [done|]. intros a b.
      unfold watermark_conflict. apply bool_decide_ext.
      destruct (same a) eqn:Ha, (same b) eqn:Hb; unfold same in *; split_bools; split; congruence.
    + apply table_evolves_update; [apply _|]. intros r Hr Hs. 
      assert (r = old) as ->.
      { apply (unique_ok_elem watermark_conflict (db_watermarks db)); auto using watermark_conflict_sym.
        unfold same in *. split_bools. apply bool_decide_eq_true. congruence. }
      split; [unfold same in *; split_bools; congruence|]. right. split_bools. split_and!; lia.
    + apply elem_of_update_where. exists old. by rewrite Hsame.
Qed.

(** A claim and the watermark that covers it. *)
Lemma claims_step db cs ws c w :
  authority_inv db -> Forall claim_wf cs -> unique_ok claim_conflict cs = true ->
  table_evolves eq (db_claims db) cs ->
  (forall r, r ∈ cs -> r ∈ db_claims db \/ (r = _claim_values c
     /\ binding_exists (c_owner_id c) (c_binding_id c) (db_bindings db) = true
     /\ effect_exists (c_owner_id c) (c_operation_id c) (db_effects db) = true)) ->
  Forall watermark_wf ws -> unique_ok watermark_conflict ws = true ->
  table_evolves watermark_evolves (db_watermarks db) ws ->
  watermark_values w ∈ ws -> watermark_represents c w = true ->
  authority_inv (set_watermarks ws (set_claims cs db))
  /\ db_evolves db (set_watermarks ws (set_claims cs db)).
Proof.
  intros Hi Hwf Hu (l & new & -> & Heq) Hel Hwf2 Hu2 Hev2 Hin Hrep. split.
  - destruct Hi. split; cbn; auto.
    + intros r [Hr|(-> & Hb & He)]%Hel; [by apply inv_claims_fk0|]. by cbn.
    + intros r [Hr|(-> & _)]%Hel; [by apply (watermark_covers_evolves (db_claims db) (db_watermarks db))|].
      exists (watermark_values w). split; [done|]. unfold watermark_represents in Hrep. split_bools.
      split; [by match goal with Hk : watermark_key w = _ |- _ => exact Hk end | cbn; lia].
  - split; cbn; try reflexivity; [done|]. exists new. f_equal.
    clear -Heq. by induction Heq; simplify_eq.
Qed.

(** The first two writes of a claim together. *)
Lemma claim_and_watermark_safe c w db cr db1 wr db2 :
  valid_claim c -> valid_watermark w -> watermark_represents c w = true ->
  _INSERT_CLAIM c db = Ok (Some cr, db1) -> _ADVANCE_WATERMARK w db1 = Ok (Some wr, db2) ->
  authority_inv db ->
  authority_inv db2 /\ db_evolves db db2
  /\ exists ws, db2 = set_watermarks ws db1 /\ watermark_values w ∈ ws.
Proof.
  intros Hc Hw Hrep Hins Hadv Hi.
  unfold _INSERT_CLAIM, on in Hins. inv_ok. destruct v as [o t]. inv_ok. simplify_eq.
  destruct (insert_rows claim_wf eq _ _ claim_conflict_sym _ _ _ _ _ Hs) as (Hwf & Hu & Hev & Hel);
    [by exists c|apply Hi|apply Hi|].
  apply advance_watermark_sql in Hadv as (t2 & -> & Hwf2 & Hu2 & Hev2 & Hin2);
    [|done|apply Hi|apply Hi].
  destruct (claims_step db t t2 c w) as [Hi2 He2]; auto; [|by eauto].
  intros r [Hr|[-> Hfk]]%Hel; [by left|right].
  inv_ok. split_and!; [done|by eapply foreign_key_Ok|by eapply foreign_key_Ok].
Qed.

Lemma claim_stored_safe c w e x db cur s' :
  valid_claim c -> valid_watermark w -> valid_effect e ->
  claim_stored c w e x db cur s' -> authority_safe db (s_db s').
Proof.
  intros Hc Hw He (cr & wr & er & db1 & db2 & db3 & so & res & Hins & _ & Hrep & Hadv & Hver & Hmove
    & Htr & _ & Hso & ->) Hi. cbn [s_db].
  destruct (claim_and_watermark_safe c w db cr db1 wr db2) as (Hi2 & He2 & _); auto.
  destruct (transition_effect_sql_safe e _ _ db2 _ db3 He Hver Hmove Htr Hi2) as [Hi3 He3].
  assert (store_evolves (db_outbox db3) (s_db so)) as Hev.
  { pose proof (enqueue_evolves x (Session (db_outbox db3) false)) as Hx. by rewrite Hso in Hx. }
  assert (db_evolves db3 (set_outbox (s_db so) db3)) as He4.
  { split; cbn; try reflexivity; [|done]. exists []. by rewrite app_nil_r. }
  split; [|by etransitivity; [exact He2|]; etransitivity; [exact He3|]].
  destruct Hi3. split; cbn; auto. by eapply store_inv_evolves.
Qed.

Lemma claim_receipt_safe c w e x :
  valid_claim c -> valid_watermark w -> valid_effect e ->
  respects authority_safe (claim_receipt c w e x).
Proof.
  intros Hc Hw He. unfold claim_receipt. apply respects_savepoint_Ok; [apply _|].
  intros s r s' (_ & _ & b & cur & _ & [[_ ->]|Hst])%claim_receipt_body_run; [reflexivity|].
  by eapply claim_stored_safe.
Qed.

(** *** Every method *)

Lemma create_binding_safe b : valid_binding b -> respects authority_safe (create_binding b).
Proof.
  intros Hv. unfold create_binding. respects_auto. apply respects_exec; [apply _|].
  intros db o db'. by apply insert_binding_safe.
Qed.

Lemma transition_binding_safe b st e :
  valid_binding b -> respects authority_safe (transition_binding b st e).
Proof.
  intros Hv. unfold transition_binding. respects_auto. apply respects_exec; [apply _|].
  intros db o db' Hq. run_facts. by eapply transition_binding_sql_safe.
Qed.

Lemma activate_binding_safe b e : valid_binding b -> respects authority_safe (activate_binding b e).
Proof.
  intros Hv. unfold activate_binding. respects_auto. apply respects_exec; [apply _|].
  intros db o db' Hq. run_facts. by eapply activate_binding_sql_safe.
Qed.

Lemma abandon_binding_safe b e :
  valid_binding b -> respects authority_safe (abandon_provisioning_binding b e).
Proof.
  intros Hv. unfold abandon_provisioning_binding. respects_auto. by apply transition_binding_safe.
Qed.

Lemma create_lifecycle_safe o :
  valid_lifecycle o -> respects authority_safe (create_lifecycle_operation o).
Proof.
  intros Hv. unfold create_lifecycle_operation. respects_auto. apply respects_exec; [apply _|].
  intros db x db'. by apply insert_lifecycle_safe.
Qed.

Lemma transition_lifecycle_safe o st e :
  valid_lifecycle o -> respects authority_safe (transition_lifecycle_operation o st e).
Proof.
  intros Hv. unfold transition_lifecycle_operation. respects_auto. apply respects_exec; [apply _|].
  intros db x db' Hq. run_facts. by eapply transition_lifecycle_sql_safe.
Qed.

Lemma create_effect_safe o :
  valid_effect o -> respects authority_safe (create_protected_effect o).
Proof.
  intros Hv. unfold create_protected_effect. respects_auto. apply respects_exec; [apply _|].
  intros db x db'. by apply insert_effect_safe.
Qed.

Lemma transition_effect_safe o st e :
  valid_effect o -> respects authority_safe (transition_protected_effect o st e).
Proof.
  intros Hv. unfold transition_protected_effect. respects_auto. apply respects_exec; [apply _|].
  intros db x db' Hq. run_facts. by eapply transition_effect_sql_safe.
Qed.
End Database.
