(* ===== verification/AuthoritySpec.v ===== *)
(** * What the authority repository promises

    The theorems of the authority component, on every database reachable by
    transactions of any of its methods, committed or rolled back, with errors
    propagated or caught, interleaved with the outbox workers, and whatever
    PostgreSQL leaves open. *)

From S2P Require Import Prelude Regex Errors Domain Sha256 Pg AuthorityModels AuthoritySchema.
From S2P Require Import AuthoritySamples AuthorityRows Outbox OutboxSafety OutboxStore.
From S2P Require Import AuthorityRepository AuthorityInvariant.

(** ** Reachable databases *)

(** One writing call of the repository. *)
Inductive authority_op : Type :=
  | CreateBinding (b : AgentAuthorityBinding)
  | TransitionBinding (b : AgentAuthorityBinding) (st : AuthorityBindingState) (version : Z)
  | ActivateBinding (b : AgentAuthorityBinding) (version : Z)
  | AbandonBinding (b : AgentAuthorityBinding) (version : Z)
  | CreateLifecycle (o : AuthorityLifecycleOperation)
  | TransitionLifecycle (o : AuthorityLifecycleOperation) (st : AuthorityLifecycleStatus) (version : Z)
  | CreateEffect (o : ProtectedEffectOperation)
  | TransitionEffect (o : ProtectedEffectOperation) (st : ProtectedEffectStatus) (version : Z)
  | ClaimReceipt (c : ReceiptClaim) (w : ReceiptSequenceWatermark) (e : ProtectedEffectOperation)
      (x : OutboxEntry).

(** Arguments are instances of the frozen dataclasses. *)
Definition valid_op (op : authority_op) : Prop :=
  match op with
  | CreateBinding b | TransitionBinding b _ _ | ActivateBinding b _ | AbandonBinding b _ =>
      valid_binding b
  | CreateLifecycle o | TransitionLifecycle o _ _ => valid_lifecycle o
  | CreateEffect o | TransitionEffect o _ _ => valid_effect o
  | ClaimReceipt c w e _ => valid_claim c /\ valid_watermark w /\ valid_effect e
  end.

Section Reachable.
Context {S : Type}.

Definition run_authority `{PgEnv} `{!OutboxStore S} (op : authority_op) : SM (authority_db S) unit :=
  match op with
  | CreateBinding b => create_binding b ;; mret ()
  | TransitionBinding b st v => transition_binding b st v ;; mret ()
  | ActivateBinding b v => activate_binding b v ;; mret ()
  | AbandonBinding b v => abandon_provisioning_binding b v ;; mret ()
  | CreateLifecycle o => create_lifecycle_operation o ;; mret ()
  | TransitionLifecycle o st v => transition_lifecycle_operation o st v ;; mret ()
  | CreateEffect o => create_protected_effect o ;; mret ()
  | TransitionEffect o st v => transition_protected_effect o st v ;; mret ()
  | ClaimReceipt c w e x => claim_receipt c w e x ;; mret ()
  end.

(** A transaction: calls in sequence, each with its error caught or not. *)
Fixpoint run_calls `{PgEnv} `{!OutboxStore S} (calls : list (bool * authority_op))
  : SM (authority_db S) unit :=
  match calls with
  | [] => mret ()
  | (caught, op) :: calls' =>
      (if caught : bool then attempt (run_authority op) else run_authority op) ;; run_calls calls'
  end.

Context `{!OutboxStore S}.

Inductive authority_step : authority_db S -> authority_db S -> Prop :=
  | step_calls (env : PgEnv) (calls : list (bool * authority_op)) db :
      Forall (fun call => valid_op (snd call)) calls ->
      authority_step db (snd (transaction (run_calls (H := env) calls) db))
  | step_workers o' db :
      store_evolves (db_outbox db) o' -> authority_step db (set_outbox o' db).

(** The empty tables, with any outbox of its invariant. *)
Definition empty_db (o : S) : authority_db S := AuthorityDb [] [] [] [] [] o.
Definition reachable (db : authority_db S) : Prop :=
  exists o, store_inv o /\ rtc authority_step (empty_db o) db.

Lemma run_authority_safe `{PgEnv} op : valid_op op -> respects authority_safe (run_authority op).
Proof.
  destruct op; cbn [valid_op run_authority]; intros Hv;
    (apply respects_bind; [apply _| |intros; apply respects_ret, _]);
    auto using create_binding_safe, transition_binding_safe, activate_binding_safe,
      abandon_binding_safe, create_lifecycle_safe, transition_lifecycle_safe, create_effect_safe,
      transition_effect_safe.
  destruct Hv as (? & ? & ?). by apply claim_receipt_safe.
Qed.

Lemma run_calls_safe `{PgEnv} calls :
  Forall (fun call => valid_op (snd call)) calls -> respects authority_safe (run_calls calls).
Proof.
  induction 1 as [|[caught op] calls Hop _ IH]; cbn [run_calls]; [apply respects_ret, _|].
  apply respects_bind; [apply _| |done]. cbn in Hop.
  destruct caught; [apply respects_attempt|]; by apply run_authority_safe.
Qed.

Lemma authority_steps_safe db db' : rtc authority_step db db' -> authority_safe db db'.
Proof.
  induction 1 as [db|d1 d2 d3 Hs _ IH]; [reflexivity|]. transitivity d2; [|done].
  destruct Hs as [env calls db Hv|o' db Ho].
  - apply respects_transaction; [apply _|]. by apply run_calls_safe.
  - intros Hi. split.
    + destruct Hi. split; cbn; auto. by eapply store_inv_evolves.
    + split; cbn; try reflexivity; [|done]. exists []. by rewrite app_nil_r.
Qed.

Lemma empty_inv o : store_inv o -> authority_inv (empty_db o).
Proof.
  intros Ho. split; cbn; auto; try (intros r Hr; by apply not_elem_of_nil in Hr).
Qed.

Lemma reachable_inv db : reachable db -> authority_inv db.
Proof.
  intros (o & Ho & Hs). by apply (authority_steps_safe _ _ Hs), empty_inv.
Qed.

Lemma reachable_steps db db' : reachable db -> rtc authority_step db db' -> reachable db'.
Proof. intros (o & Ho & Hs) Hs'. exists o. split; [done|]. by etransitivity. Qed.
End Reachable.

(** ** The invariant *)

Section Invariant.
Context {S : Type} `{!OutboxStore S}.
Implicit Types db : authority_db S.

(** C17: on every reachable database each stored row is the row of a value its
    constructor accepts, the unique indexes and foreign keys hold, and every
    claimed receipt sequence is at most the watermark of its lease and
    audience; so reading a row back never fails. *)
Theorem authority_invariant db (Hreach : reachable db) :
  authority_inv db
  /\ (forall `{PgEnv},
      (forall r, r ∈ db_bindings db -> is_ok (_binding_from_row r) = true)
      /\ (forall r, r ∈ db_lifecycle db -> is_ok (_lifecycle_from_row r) = true)
      /\ (forall r, r ∈ db_effects db -> is_ok (_effect_from_row r) = true)
      /\ (forall r, r ∈ db_claims db -> is_ok (_claim_from_row r) = true)).
Proof.
  pose proof (reachable_inv db Hreach) as Hi. split; [done|]. intros env.
  destruct Hi as [Hb Hl He _ Hc].
  rewrite Forall_forall in Hb. rewrite Forall_forall in Hl. rewrite Forall_forall in He.
  rewrite Forall_forall in Hc.
  split_and!; intros r Hr.
  - destruct (Hb r Hr) as (b & Hv & ->). by rewrite binding_roundtrip.
  - destruct (Hl r Hr) as (o & Hv & ->). by rewrite lifecycle_roundtrip.
  - destruct (He r Hr) as (o & Hv & ->). by rewrite effect_roundtrip.
  - destruct (Hc r Hr) as (c & Hv & ->). by rewrite claim_roundtrip.
Qed.

(** ** The effect state machine *)

(** How many moves are left in a status. *)
Definition effect_rank (s : ProtectedEffectStatus) : nat :=
  match s with
  | E_CREATED => 7 | E_ASTRAL_AUTHORIZED => 6 | E_LETS_PENDING => 5 | E_RECEIPT_RECEIVED => 4
  | E_RECEIPT_CLAIMED => 3 | E_EXECUTING => 2 | E_OUTCOME_UNCERTAIN => 1 | _ => 0
  end.

Lemma effect_move_rank s s' : effect_move s s' -> (effect_rank s' < effect_rank s)%nat.
Proof.
  unfold effect_move. intros Hm.
  assert (bool_decide (s' ∈ _EFFECT_TRANSITIONS s) = true) as Hb by (by apply bool_decide_eq_true).
  clear Hm. destruct s, s'; try discriminate Hb; cbn; lia.
Qed.

Lemma effect_moves_rank n s s' : nsteps effect_move n s s' -> (n + effect_rank s' <= effect_rank s)%nat.
Proof.
  induction 1 as [s|n s1 s2 s3 Hm _ IH]; [lia|]. apply effect_move_rank in Hm. lia.
Qed.

Lemma effect_terminal_stuck s n s' :
  effect_terminal s = true -> nsteps effect_move n s s' -> n = 0%nat.
Proof. intros Ht Hn%effect_moves_rank. destruct s; cbn in *; try done; lia. Qed.

(** C3: a protected effect only moves along the transition table.  Its intent
    never changes, each move advances its version by one, a terminal effect
    stays as it is for ever, and no effect moves more than seven times. *)
Theorem effect_state_machine db db' r s
    (Hreach : reachable db) (Hlater : rtc authority_step db db')
    (Hr : r ∈ db_effects db) (Hs : re_status r = enum_value s) :
  exists r' s' n, r' ∈ db_effects db' /\ re_status r' = enum_value s'
    /\ effect_identity r' = effect_identity r
    /\ nsteps effect_move n s s' /\ re_version r' = re_version r + Z.of_nat n
    /\ (n = 0%nat -> r' = r) /\ (effect_terminal s = true -> r' = r) /\ (n <= 7)%nat.
Proof.
  destruct (authority_steps_safe db db' Hlater (reachable_inv db Hreach)) as [_ He].
  destruct (table_evolves_elem _ _ _ r (ev_effects _ _ He) Hr) as (r' & Hr' & Hid & Hm).
  destruct Hm as [->|(s1 & s' & n & E1 & E2 & Hn & Hpos & Hv)].
  - exists r, s, 0%nat. split_and!; auto; try lia. constructor.
  - assert (s1 = s) as -> by (apply enum_value_inj; congruence).
    exists r', s', n. split_and!; auto; [lia| |].
    + intros Ht. rewrite (effect_terminal_stuck s n s' Ht Hn) in Hpos. lia.
    + apply effect_moves_rank in Hn. destruct s; cbn in Hn; lia.
Qed.

(** C19: a binding keeps its identity for ever, its remote identities once they
    are issued, and once closed, revoked or expired it never changes; every
    other change advances its version; and two different live bindings of one
    owner and agent are of different populations. *)
Theorem binding_state_machine db db' r
    (Hreach : reachable db) (Hlater : rtc authority_step db db') (Hr : r ∈ db_bindings db) :
  (exists r', r' ∈ db_bindings db' /\ binding_identity r' = binding_identity r
     /\ (starts_with PENDING_ID_PREFIX (rb_warden_id r) = false -> remote_ids r' = remote_ids r)
     /\ (r' = r \/ rb_version r < rb_version r')
     /\ (binding_row_terminal r = true -> r' = r))
  /\ (forall r1 r2, r1 ∈ db_bindings db' -> r2 ∈ db_bindings db' ->
       row_nonterminal r1 = true -> row_nonterminal r2 = true ->
       rb_owner_id r1 = rb_owner_id r2 -> rb_agent_id r1 = rb_agent_id r2 ->
       rb_population r1 = rb_population r2 -> r1 = r2).
Proof.
  destruct (authority_steps_safe db db' Hlater (reachable_inv db Hreach)) as [Hi He]. split.
  - destruct (table_evolves_elem _ _ _ r (ev_bindings _ _ He) Hr) as (r' & Hr' & Hid & Hrem & Hm).
    exists r'. split_and!; auto; [naive_solver|]. intros Ht. destruct Hm as [?|[_ ?]]; congruence.
  - intros r1 r2 H1 H2 N1 N2 Eo Ea Ep.
    apply (unique_ok_elem binding_conflict (db_bindings db')); auto using binding_conflict_sym.
    { apply Hi. }
    unfold binding_conflict. rewrite N1, N2, Eo, Ea, Ep.
    rewrite (bool_decide_eq_true_2 ((rb_owner_id r2, rb_agent_id r2, rb_population r2) = _)) by done.
    by rewrite !orb_true_r.
Qed.
End Invariant.
