(* ===== verification/AuthorityClaims.v ===== *)
(** * Receipt claims

    What a successful [claim_receipt] did and relied on, that a failed one
    left no trace, that repeating one changes nothing, and that the receipt
    sequences claimed on a lease strictly increase. *)

From S2P Require Import Prelude Regex Errors Domain Sha256 Pg AuthorityModels AuthoritySchema.
From S2P Require Import AuthoritySamples AuthorityRows Outbox OutboxSafety OutboxStore.
From S2P Require Import AuthorityRepository AuthorityInvariant AuthoritySpec.

(** ** Rows and the values they decode to *)

Section Decode.
Context `{PgEnv}.

Lemma decode_binding r b :
  binding_wf r -> _binding_from_row r = Ok b -> valid_binding b /\ r = _binding_values b.
Proof. intros (b' & Hv & ->) Hd. rewrite binding_roundtrip in Hd by done. by injection Hd as <-. Qed.

Lemma decode_effect r o :
  effect_wf r -> _effect_from_row r = Ok o -> valid_effect o /\ r = _effect_values o.
Proof. intros (o' & Hv & ->) Hd. rewrite effect_roundtrip in Hd by done. by injection Hd as <-. Qed.

Lemma decode_claim r c :
  claim_wf r -> _claim_from_row r = Ok c -> valid_claim c /\ r = _claim_values c.
Proof. intros (c' & Hv & ->) Hd. rewrite claim_roundtrip in Hd by done. by injection Hd as <-. Qed.
End Decode.

Section Claims.
Context `{PgEnv} {S : Type} `{!OutboxStore S}.
Implicit Types db : authority_db S.

Lemma effect_unique db r1 r2 :
  authority_inv db -> r1 ∈ db_effects db -> r2 ∈ db_effects db ->
  re_operation_id r1 = re_operation_id r2 -> r1 = r2.
Proof.
  intros Hi H1 H2 Heq. apply (unique_ok_elem effect_conflict (db_effects db));
    auto using effect_conflict_sym; [apply Hi|]. unfold effect_conflict.
  rewrite (bool_decide_eq_true_2 (re_operation_id r1 = _)) by done. done.
Qed.

Lemma binding_unique db r1 r2 :
  authority_inv db -> r1 ∈ db_bindings db -> r2 ∈ db_bindings db ->
  rb_binding_id r1 = rb_binding_id r2 -> r1 = r2.
Proof.
  intros Hi H1 H2 Heq. apply (unique_ok_elem binding_conflict (db_bindings db));
    auto using binding_conflict_sym; [apply Hi|]. unfold binding_conflict.
  rewrite (bool_decide_eq_true_2 (rb_binding_id r1 = _)) by done. done.
Qed.

(** The binding and effect of a claim's context are the stored ones. *)
Lemma claim_context_stored c db b cur :
  authority_inv db -> claim_context c db b cur ->
  valid_binding b /\ _binding_values b ∈ db_bindings db
  /\ valid_effect cur /\ _effect_values cur ∈ db_effects db
  /\ b_owner_id b = c_owner_id c /\ b_binding_id b = c_binding_id c
  /\ e_owner_id cur = c_owner_id c /\ e_operation_id cur = c_operation_id c.
Proof.
  intros Hi (br & er & Hb & He & Hdb & Hde & _).
  unfold _LOCK_BINDING, _GET_BINDING in Hb. apply select_one_Some in Hb as [Hb Pb].
  unfold _LOCK_EFFECT, _GET_EFFECT in He. apply select_one_Some in He as [He Pe]. split_bools.
  apply decode_binding in Hdb as [Hvb ->]; [|by eapply (proj1 (Forall_forall _ _)); [apply Hi|]].
  apply decode_effect in Hde as [Hve ->]; [|by eapply (proj1 (Forall_forall _ _)); [apply Hi|]].
  cbn in *. split_and!; auto.
Qed.

(** What the checks of a claim establish. *)
Record claim_authorised (c : ReceiptClaim) (b : AgentAuthorityBinding)
    (cur : ProtectedEffectOperation) : Prop := {
  auth_active : b_state b = ACTIVE;
  auth_lease : (b_owner_id b, b_binding_id b, b_tenant_id b, b_envelope_id b, b_warden_id b,
                b_lease_id b, b_subject_id b, b_lineage_id b, b_policy_digest b,
                b_machine_digest b, b_config_epoch b)
               = (c_owner_id c, c_binding_id c, c_tenant_id c, c_envelope_id c, c_warden_id c,
                  c_lease_id c, c_subject_id c, c_lineage_id c, c_policy_digest c,
                  c_machine_digest c, c_config_epoch c);
  auth_agent : e_agent_id cur = b_agent_id b;
  auth_capability : e_lets_capability cur ∈ b_capabilities b;
  auth_sequence : e_expected_sequence cur = b_lease_sequence b
                  /\ c_resulting_sequence c = b_lease_sequence b + 1;
  auth_expiry : c_expires_at_ns c <= b_lease_expires_at_ns b;
  auth_effect : (e_owner_id cur, e_operation_id cur, e_binding_id cur, e_executor_audience cur,
                 e_lets_transition cur, e_nonce cur)
                = (c_owner_id c, c_operation_id c, c_binding_id c, c_audience c, c_transition c,
                   c_nonce c);
  auth_evidence : evidence_matches c cur = true
}.

Lemma relationships_authorised c b cur :
  _validate_claim_relationships c b cur = Ok () <-> claim_authorised c b cur.
Proof.
  unfold _validate_claim_relationships. split.
  - intros Hv. inv_ok. split_bools.
    apply dec_stable in Hs, Hs0, Hs1, Hs6. split; auto; lia.
  - intros [H1 H2 H3 H4 [H5 H6] H7 H8 H9].
    assert (forall (P : Prop) `{Decision P}, P -> bool_decide (~ P) = false) as Hno.
    { intros P ? HP. apply bool_decide_eq_false_2. auto. }
    rewrite (Hno _ _ H2), (Hno _ _ H1), (Hno _ _ H3), (Hno _ _ H8), (bool_decide_eq_true_2 _ H4), H9.
    rewrite H5, Z.eqb_refl, H6, Z.eqb_refl, (proj2 (Z.ltb_ge _ _) H7). done.
Qed.

(** ** What the statements of a claim do *)

(** A transition that returned replaced one row by the replacement's. *)
Lemma transition_effect_outcome o st v db er db' :
  authority_inv db -> valid_effect o -> e_version o = v + 1 -> effect_move st (e_status o) ->
  _TRANSITION_EFFECT o st v db = Ok (Some er, db') -> _effect_from_row er = Ok o ->
  exists old, old ∈ db_effects db /\ transition_effect_fence (_effect_values o) st v old = true
    /\ db' = set_effects (update_where (fun r => bool_decide (r = old))
                            (fun _ => _effect_values o) (db_effects db)) db.
Proof.
  intros Hi Hv Hver Hmove Hq Hd.
  destruct (transition_effect_sql_safe _ _ _ _ _ _ Hv Hver Hmove Hq Hi) as [Hi' _].
  unfold _TRANSITION_EFFECT, on in Hq. inv_ok. destruct v0 as [o' t]. inv_ok.
  destruct v1 as [rs t']. inv_ok. simplify_eq.
  apply update_returning_Ok in Hs0 as (_ & -> & -> & _).
  destruct (rows_where _ (db_effects db)) as [|old l] eqn:Hrows; [done|].
  match goal with Hh : head (_ <$> _) = Some er |- _ => injection Hh as <- end.
  assert (old ∈ old :: l) as Hold by left. rewrite <- Hrows in Hold.
  apply elem_of_rows_where in Hold as [Hold Hf].
  exists old. split_and!; [done|done|]. f_equal.
  assert (forall r, r ∈ db_effects db -> transition_effect_fence (_effect_values o) st v r = true -> r = old) as Huniq.
  { intros r Hr Hfr. apply (effect_unique db); auto. unfold transition_effect_fence in *. split_bools.
    congruence. }
  apply update_where_ext.
  - intros r Hr. apply eq_true_iff_eq. rewrite bool_decide_eq_true. split; [by apply Huniq|by intros ->].
  - intros r Hr ->%bool_decide_eq_true. eapply decode_effect; [|done].
    eapply (proj1 (Forall_forall _ _)); [apply Hi'|]. cbn. apply elem_of_update_where.
    exists old. by rewrite Hf.
Qed.

(** An advance that returned was strict for the watermark it replaced. *)
Lemma advance_watermark_strict w db o db' :
  unique_ok watermark_conflict (db_watermarks db) = true ->
  _ADVANCE_WATERMARK w db = Ok (Some o, db') ->
  forall old, old ∈ db_watermarks db -> watermark_row_key old = watermark_key w ->
    rw_last_sequence old < w_last_sequence w.
Proof.
  unfold _ADVANCE_WATERMARK, on. intros Hu Hq old Hold Hkey. inv_ok. destruct v as [o' t]. inv_ok.
  simplify_eq. set (same r := bool_decide _) in *.
  assert (same old = true) as Hsame by (by apply bool_decide_eq_true).
  match goal with Hx : context [rows_where same _] |- _ =>
    rewrite (rows_where_unique watermark_conflict same _ old) in Hx; [|done| |done|done] end.
  - case_match eqn:Hlt; inv_ok; simplify_eq. split_bools. done.
  - intros a b Ha Hb. unfold same in *. split_bools. apply bool_decide_eq_true. congruence.
Qed.

(** ** A successful claim *)

(** The database a new claim leaves. *)
Record claim_effect (c : ReceiptClaim) (w : ReceiptSequenceWatermark)
    (e : ProtectedEffectOperation) (x : OutboxEntry) (cur : ProtectedEffectOperation)
    (db db' : authority_db S) : Prop := {
  ce_bindings : db_bindings db' = db_bindings db;
  ce_lifecycle : db_lifecycle db' = db_lifecycle db;
  ce_claims : db_claims db' = db_claims db ++ [_claim_values c];
  ce_received : e_status cur = E_RECEIPT_RECEIVED /\ e_status e = E_RECEIPT_CLAIMED
                /\ e_version e = e_version cur + 1 /\ _same_effect_intent cur e = true
                /\ e_receipt_id e = Some (c_receipt_id c)
                /\ e_receipt_digest e = Some (c_canonical_digest c);
  ce_effects : db_effects db' = update_where (fun r => bool_decide (r = _effect_values cur))
                                  (fun _ => _effect_values e) (db_effects db);
  ce_watermark : watermark_values w ∈ db_watermarks db'
                 /\ watermark_represents c w = true
                 /\ (forall old, old ∈ db_watermarks db ->
                      watermark_row_key old = sequence_watermark_key c ->
                      rw_last_sequence old < c_resulting_sequence c);
  ce_outbox : store_holds (db_outbox db') x
}.

Lemma insert_claim_outcome c db cr db1 :
  _INSERT_CLAIM c db = Ok (Some cr, db1) ->
  db1 = set_claims (db_claims db ++ [_claim_values c]) db
  /\ exists_row (claim_conflict (_claim_values c)) (db_claims db) = false.
Proof.
  unfold _INSERT_CLAIM, on. intros Hq. inv_ok. destruct v as [o t]. inv_ok. simplify_eq.
  apply insert_do_nothing_Ok in Hs as (_ & [(? & _)|(_ & -> & ? & _)]); [done|auto].
Qed.

Lemma new_claim_transition_Ok cur e c :
  _validate_new_claim_transition cur e c = Ok () ->
  e_status cur = E_RECEIPT_RECEIVED /\ e_status e = E_RECEIPT_CLAIMED
  /\ e_version e = e_version cur + 1 /\ _same_effect_intent cur e = true
  /\ e_receipt_id e = Some (c_receipt_id c) /\ e_receipt_digest e = Some (c_canonical_digest c).
Proof.
  unfold _validate_new_claim_transition. intros Hv. inv_ok. split_bools.
  repeat match goal with Hx : ~ _ |- _ => apply dec_stable in Hx end. split_and!; auto.
Qed.

Lemma claim_stored_effect c w e x db b cur s' :
  authority_inv db -> valid_claim c -> valid_watermark w -> valid_effect e ->
  claim_context c db b cur -> claim_stored c w e x db cur s' ->
  claim_effect c w e x cur db (s_db s').
Proof.
  intros Hi Hc Hw He Hctx Hst.
  destruct (claim_context_stored c db b cur Hi Hctx) as (_ & _ & _ & Hcur & _ & _ & _ & Hop).
  destruct Hst as (cr & wr & er & db1 & db2 & db3 & so & res & Hins & Hnew & Hrep & Hadv & Hver
    & Hmove & Htr & Hdec & Hso & ->).
  apply new_claim_transition_Ok in Hnew.
  destruct (claim_and_watermark_safe c w db cr db1 wr db2) as (Hi2 & _ & ws & -> & Hin); auto.
  apply insert_claim_outcome in Hins as [-> _].
  pose proof (advance_watermark_strict w (set_claims _ db) wr _ (inv_watermarks_unique _ Hi) Hadv) as Hstrict.
  destruct (transition_effect_outcome _ _ _ _ _ _ Hi2 He Hver Hmove Htr Hdec)
    as (old & Hold & Hf & ->).
  assert (old = _effect_values cur) as ->.
  { apply (effect_unique db); auto. unfold transition_effect_fence in Hf. split_bools.
    destruct Hnew as (_ & _ & _ & Hint & _). unfold _same_effect_intent, effect_intent in Hint.
    split_bools. cbn in *. congruence. }
  split; cbn; auto.
  - split_and!; auto. intros old Hin' Hk. unfold watermark_represents in Hrep. split_bools.
    rewrite <- (ltac:(done) : w_last_sequence w = c_resulting_sequence c). apply Hstrict; [done|congruence].
  - cbn in Hso. eapply (enqueue_holds x (Session (db_outbox db) false)); [apply Hi|exact Hso].
Qed.

(** A returned claim, on a database of the invariant. *)
Lemma claim_receipt_run c w e x db r db' :
  authority_inv db -> valid_claim c -> valid_watermark w -> valid_effect e ->
  transaction (claim_receipt c w e x) db = (Ok r, db') ->
  r = c /\ exists b cur,
    (valid_binding b /\ valid_effect cur /\ _binding_values b ∈ db_bindings db
     /\ _effect_values cur ∈ db_effects db /\ claim_authorised c b cur)
    /\ ((db' = db /\ _claim_values c ∈ db_claims db /\ _require_existing_claim_effect cur c = Ok ())
        \/ claim_effect c w e x cur db db').
Proof.
  intros Hi Hvc Hvw Hve Hrun.
  apply transaction_run in Hrun as (s' & Hc & _ & <-). unfold claim_receipt in Hc. apply savepoint_run_Ok in Hc as (_ & _ & Hc).
  apply claim_receipt_body_run in Hc as (-> & _ & b & cur & Hctx & Hcase). cbn [s_db] in *.
  split; [done|]. exists b, cur.
  destruct (claim_context_stored c db b cur Hi Hctx) as (? & ? & ? & ? & _). split; [split_and!; auto|].
  - destruct Hctx as (? & ? & _ & _ & _ & _ & Hrel). by apply relationships_authorised.
  - destruct Hcase as [[(o & cr & _ & Hrd & Hd & Hex) ->]|Hst].
    + left. split_and!; [done| |done]. unfold _READ_CLAIM_CONFLICT in Hrd.
      apply select_one_Some in Hrd as [Hrd _].
      apply decode_claim in Hd as [_ ->]; [done|].
      by eapply (proj1 (Forall_forall _ _)); [apply Hi|].
    + right. by eapply claim_stored_effect.
Qed.

(** C1: what a returned claim means.  The stored active binding and the stored
    effect authorise the receipt: the lease, agent, capability, audience,
    transition, nonce and evidence match, the sequence is the lease's next and
    the expiry is within the lease.  Either the same claim was already stored
    and nothing changed, or the claim was appended, its effect moved from
    received to claimed carrying the receipt, the watermark of the lease
    advanced strictly to the claimed sequence, and the outbox holds the entry;
    bindings and lifecycle operations are untouched. *)
Theorem claim_receipt_exact c w e x db r db'
    (Hreach : reachable db)
    (Hvc : valid_claim c) (Hvw : valid_watermark w) (Hve : valid_effect e)
    (Hrun : transaction (claim_receipt c w e x) db = (Ok r, db')) :
  r = c /\ exists b cur,
    _binding_values b ∈ db_bindings db /\ _effect_values cur ∈ db_effects db
    /\ claim_authorised c b cur
    /\ ((db' = db /\ _claim_values c ∈ db_claims db /\ _require_existing_claim_effect cur c = Ok ())
        \/ claim_effect c w e x cur db db').
Proof.
  destruct (claim_receipt_run c w e x db r db' (reachable_inv db Hreach) Hvc Hvw Hve Hrun)
    as (-> & b & cur & (_ & _ & ? & ? & ?) & Hcase).
  split; [done|]. exists b, cur. auto.
Qed.

(** ** A failed claim *)

(** A claim that raises leaves no trace, even for a caller that catches the
    error and goes on in the same transaction: the tables, the outbox and the
    usability of the transaction are what they were. *)
Theorem claim_receipt_atomic c w e x (s s' : session (authority_db S)) err
    (Hopen : s_failed s = false) (Hrun : claim_receipt c w e x s = (Err err, s')) :
  s' = s.
Proof.
  unfold claim_receipt, savepoint in Hrun. rewrite Hopen in Hrun.
  destruct (claim_receipt_body c w e x s) as [[r|] s1] eqn:Hb.
  - destruct (s_failed s1) eqn:Hf; [|done].
    apply claim_receipt_body_run in Hb as (_ & _ & b & cur & _ & [[_ ->]|Hst]); [congruence|].
    destruct Hst as (? & ? & ? & ? & ? & ? & so & ? & _ & _ & _ & _ & _ & _ & _ & _ & Hso & ->).
    apply enqueue_open in Hso. cbn in Hf. congruence.
  - injection Hrun as _ <-. destruct s. cbn in *. by subst.
Qed.

(** ** Repeating a claim *)

Lemma authorised_same_intent c b cur e :
  _same_effect_intent cur e = true -> claim_authorised c b cur -> claim_authorised c b e.
Proof.
  unfold _same_effect_intent, effect_intent. intros Hs []. split_bools. simplify_eq.
  split; try congruence.
  unfold evidence_matches in *. destruct (c_evidence_digest c); [|done].
  apply bool_decide_eq_true. split_bools. congruence.
Qed.

(** A stored claim is the only row that its keys find. *)
Lemma read_claim_stored c db :
  authority_inv db -> _claim_values c ∈ db_claims db ->
  _READ_CLAIM_CONFLICT c db = Some (_claim_values c).
Proof.
  intros Hi Hin. apply select_one_unique; [done| |].
  - apply andb_true_iff. split; [by apply bool_decide_eq_true|].
    by rewrite (bool_decide_eq_true_2 (rc_receipt_id _ = _)).
  - intros r Hr Hp. apply (unique_ok_elem claim_conflict (db_claims db)); auto using claim_conflict_sym.
    { apply Hi. }
    apply andb_true_iff in Hp as [_ Hp]. unfold claim_conflict.
    rewrite !orb_true_iff, !bool_decide_eq_true in *. cbn. tauto.
Qed.

Lemma insert_claim_stored c db :
  valid_claim c -> _claim_values c ∈ db_claims db ->
  _INSERT_CLAIM c db = Ok (None, db).
Proof.
  intros Hv Hin. unfold _INSERT_CLAIM, on, insert_do_nothing. rewrite claim_row_valid by done. cbn.
  rewrite (proj2 (exists_row_true _ _)); [by destruct db|].
  exists (_claim_values c). split; [done|]. unfold claim_conflict.
  by rewrite (bool_decide_eq_true_2 (rc_receipt_id _ = _)).
Qed.

Lemma lock_effect_stored e db :
  authority_inv db -> _effect_values e ∈ db_effects db ->
  _LOCK_EFFECT (e_owner_id e) (e_operation_id e) db = Some (_effect_values e).
Proof.
  intros Hi Hin. apply select_one_unique; [done| |].
  - cbn. by rewrite !bool_decide_eq_true_2.
  - intros r Hr Hp. split_bools. by apply (effect_unique db).
Qed.

Lemma lock_binding_stored b db :
  authority_inv db -> _binding_values b ∈ db_bindings db ->
  _LOCK_BINDING (b_owner_id b) (b_binding_id b) db = Some (_binding_values b).
Proof.
  intros Hi Hin. apply select_one_unique; [done| |].
  - cbn. by rewrite !bool_decide_eq_true_2.
  - intros r Hr Hp. split_bools. by apply (binding_unique db).
Qed.

(** A claim already stored, whose binding and effect still authorise it. *)
Lemma claim_receipt_stored c w e x b cur db :
  authority_inv db -> valid_claim c -> valid_binding b -> valid_effect cur ->
  _claim_values c ∈ db_claims db -> _binding_values b ∈ db_bindings db ->
  _effect_values cur ∈ db_effects db ->
  claim_authorised c b cur -> _require_existing_claim_effect cur c = Ok () ->
  transaction (claim_receipt c w e x) db = (Ok c, db).
Proof.
  intros Hi Hv Hvb Hve Hin Hb Hc Hauth Hex.
  pose proof (lock_binding_stored b db Hi Hb) as Hlb.
  pose proof (lock_effect_stored cur db Hi Hc) as Hle.
  destruct Hauth as [? Hlease ? ? ? ? Heff ?] eqn:Ha. clear Ha.
  injection Hlease as Eo Eb _ _ _ _ _ _ _ _ _. injection Heff as Eo' Ep' _ _ _ _.
  rewrite Eo, Eb in Hlb. rewrite Eo', Ep' in Hle.
  unfold transaction, claim_receipt, savepoint, claim_receipt_body, query, lift, exec, mbind, SM_mbind.
  cbn [s_failed s_db]. rewrite Hlb, Hle. cbn [s_failed s_db].
  rewrite binding_roundtrip, effect_roundtrip by done.
  rewrite (proj2 (relationships_authorised c b cur)) by done.
  cbn [s_failed s_db]. rewrite (insert_claim_stored c db Hv Hin). cbn [s_failed s_db].
  rewrite (read_claim_stored c db Hi Hin). rewrite claim_roundtrip by done.
  rewrite bool_decide_eq_true_2 by done. cbn [s_failed s_db]. rewrite Hex. cbn. done.
Qed.
End Claims.

Lemma claim_effect_existing {S : Type} `{!OutboxStore S} c w e x cur (db db' : authority_db S) :
  claim_effect c w e x cur db db' -> _require_existing_claim_effect e c = Ok ().
Proof.
  intros [_ _ _ (_ & Hst & _ & _ & Hr & Hd) _ _ _]. unfold _require_existing_claim_effect.
  rewrite Hst, Hr, Hd, (bool_decide_eq_true_2 (E_RECEIPT_CLAIMED ∈ _)) by (by left).
  by rewrite !bool_decide_eq_false_2 by (intros Hne; by apply Hne).
Qed.

(** Repeating a claim is harmless.  After a claim returned, the same claim
    submitted again, with whatever watermark, effect and outbox entry, returns
    the same claim and changes nothing. *)
Theorem claim_receipt_idempotent (env1 env2 : PgEnv) {S : Type} `{!OutboxStore S} c w e x w' e' x'
    (db : authority_db S) r db'
    (Hreach : reachable db)
    (Hvc : valid_claim c) (Hvw : valid_watermark w) (Hve : valid_effect e)
    (Hrun : transaction (claim_receipt (H := env1) c w e x) db = (Ok r, db')) :
  transaction (claim_receipt (H := env2) c w' e' x') db' = (Ok c, db').
Proof.
  pose proof (reachable_inv db Hreach) as Hi.
  assert (authority_inv db') as Hi'.
  { pose proof (respects_transaction authority_safe _ db
      (claim_receipt_safe (H := env1) c w e x Hvc Hvw Hve)) as Hs. rewrite Hrun in Hs. by apply Hs. }
  destruct (claim_receipt_run c w e x db r db' Hi Hvc Hvw Hve Hrun)
    as (_ & b & cur & (Hvb & Hvcur & Hb & Hcur & Hauth) & [(-> & Hin & Hex)|Heff]).
  - by apply (claim_receipt_stored c w' e' x' b cur).
  - apply (claim_receipt_stored c w' e' x' b e); auto.
    + rewrite (ce_claims _ _ _ _ _ _ _ Heff). apply elem_of_app. right. by left.
    + by rewrite (ce_bindings _ _ _ _ _ _ _ Heff).
    + rewrite (ce_effects _ _ _ _ _ _ _ Heff). apply elem_of_update_where.
      exists (_effect_values cur). by rewrite bool_decide_eq_true_2.
    + eapply authorised_same_intent; [|exact Hauth].
      by destruct (ce_received _ _ _ _ _ _ _ Heff) as (_ & _ & _ & ? & _).
    + by eapply claim_effect_existing.
Qed.

(** ** Sequences *)

(** C2: a receipt is claimed once and sequences only grow.  A stored claim stays
    stored for ever.  A later call that returns a claim either replays a claim
    that is already stored, and then writes nothing at all, or it stores a claim
    that was not stored before, at the end of the table, whose sequence is
    strictly larger than that of every claim stored for the same lease and
    audience.  No two stored claims share a receipt, an operation, a nonce, a
    sequence or a digest. *)
Theorem receipt_sequences_increase (env : PgEnv) {S : Type} `{!OutboxStore S} c w e x
    (db db1 db2 : authority_db S) r
    (Hreach : reachable db) (Hlater : rtc authority_step db db1)
    (Hvc : valid_claim c) (Hvw : valid_watermark w) (Hve : valid_effect e)
    (Hrun : transaction (claim_receipt (H := env) c w e x) db1 = (Ok r, db2)) :
  (forall old, old ∈ db_claims db -> old ∈ db_claims db1)
  /\ ((_claim_values c ∈ db_claims db1) /\ db2 = db1
      \/ (_claim_values c ∉ db_claims db1) /\ db_claims db2 = db_claims db1 ++ [_claim_values c]
         /\ forall old, old ∈ db_claims db1 ->
              (rc_warden_id old, rc_lease_id old, rc_audience old) = sequence_watermark_key c ->
              rc_resulting_sequence old < c_resulting_sequence c)
  /\ (forall a b, a ∈ db_claims db2 -> b ∈ db_claims db2 -> claim_conflict a b = true -> a = b).
Proof.
  destruct (authority_steps_safe db db1 Hlater (reachable_inv db Hreach)) as [Hi1 He1].
  destruct (claim_receipt_run c w e x db1 r db2 Hi1 Hvc Hvw Hve Hrun) as (_ & b & cur & _ & Hcase).
  split_and!.
  - intros old Hold. destruct (ev_claims _ _ He1) as [new ->]. apply elem_of_app. by left.
  - destruct Hcase as [(? & ? & _)|Heff]; [by left|right].
    destruct (ce_watermark _ _ _ _ _ _ _ Heff) as (_ & _ & Hstrict).
    assert (forall old, old ∈ db_claims db1 ->
              (rc_warden_id old, rc_lease_id old, rc_audience old) = sequence_watermark_key c ->
              rc_resulting_sequence old < c_resulting_sequence c) as Hlarger.
    { intros old Hold Hkey. destruct (inv_covers _ Hi1 old Hold) as (wm & Hwm & Hk & Hle).
      specialize (Hstrict wm Hwm). rewrite Hk in Hstrict. specialize (Hstrict Hkey). lia. }
    split_and!; [|by eapply ce_claims|exact Hlarger].
    intros Hin. specialize (Hlarger _ Hin eq_refl). cbn in Hlarger. lia.
  - intros a b' Ha Hb. apply (unique_ok_elem claim_conflict (db_claims db2)); auto using claim_conflict_sym.
    pose proof (respects_transaction authority_safe _ db1
      (claim_receipt_safe (H := env) c w e x Hvc Hvw Hve)) as Hs. rewrite Hrun in Hs. by apply Hs.
Qed.
