(* ===== verification/AuthorityWitnesses.v ===== *)
(** * A concrete authority database

    One owner's binding is provisioned and activated, its protected effect has
    received a receipt, and the receipt is claimed; the theorems of
    AuthoritySpec.v and AuthorityClaims.v are applied to it. *)

From S2P Require Import Prelude Regex Errors Domain Sha256 Pg AuthorityModels AuthoritySchema.
From S2P Require Import AuthoritySamples AuthorityRows Outbox OutboxSafety OutboxStore.
From S2P Require Import AuthorityRepository AuthorityInvariant AuthoritySpec AuthorityClaims.

Definition sample_calls : list (bool * authority_op) :=
  [(false, CreateBinding sample_provisioning); (false, ActivateBinding sample_active 0);
   (false, CreateEffect sample_received)].
Definition sample_db : authority_db outbox_table :=
  snd (transaction (run_calls sample_calls) (empty_db [])).

Definition sample_outbox_entry : OutboxEntry :=
  {| oe_entry_id := u "entry-1"; oe_topic := u "authority.effect"; oe_canonical_payload := u "op-1";
     oe_payload_sha256 := sha256_hex (u "op-1"); oe_idempotency_key := u "claim:receipt-1";
     oe_available_at := utc 2400 |}.

Definition sample_claim_call : authority_op :=
  ClaimReceipt sample_claim sample_watermark sample_claimed sample_outbox_entry.
Definition sample_claimed_db : authority_db outbox_table :=
  snd (transaction (run_calls [(false, sample_claim_call)]) sample_db).

Example sample_claim_run :
  transaction (claim_receipt sample_claim sample_watermark sample_claimed sample_outbox_entry) sample_db
  = (Ok sample_claim, sample_claimed_db).
Proof. vm_compute. reflexivity. Qed.

Lemma sample_valid :
  valid_claim sample_claim /\ valid_watermark sample_watermark /\ valid_effect sample_claimed.
Proof. split_and!; try split; vm_compute; reflexivity. Qed.

Lemma sample_db_reachable : reachable sample_db.
Proof.
  exists []. split; [apply outbox_inv_empty|]. apply rtc_once. constructor.
  repeat constructor; vm_compute; reflexivity.
Qed.

Lemma sample_claim_step : authority_step sample_db sample_claimed_db.
Proof. constructor. repeat constructor; cbn; apply sample_valid. Qed.

Lemma authority_invariant_witness : authority_inv sample_claimed_db.
Proof.
  apply (authority_invariant sample_claimed_db).
  apply (reachable_steps sample_db); [apply sample_db_reachable | apply rtc_once, sample_claim_step].
Defined.

Lemma effect_state_machine_witness :
  exists r' s' n, r' ∈ db_effects sample_claimed_db /\ re_status r' = enum_value s'
    /\ nsteps effect_move n E_RECEIPT_RECEIVED s' /\ re_version r' = 3 + Z.of_nat n.
Proof.
  destruct (effect_state_machine sample_db sample_claimed_db (_effect_values sample_received)
    E_RECEIPT_RECEIVED) as (r' & s' & n & H1 & H2 & _ & H3 & H4 & _).
  - apply sample_db_reachable.
  - apply rtc_once, sample_claim_step.
  - apply (bool_decide_eq_true_1 _). vm_compute. reflexivity.
  - reflexivity.
  - exists r', s', n. split; [exact H1|]. split; [exact H2|]. split; [exact H3|exact H4].
Defined.

Lemma binding_state_machine_witness :
  exists r', r' ∈ db_bindings sample_claimed_db
    /\ remote_ids r' = [u "warden-1"; u "lease-1"; u "lineage-1"; u "subject-1"].
Proof.
  destruct (binding_state_machine sample_db sample_claimed_db (_binding_values sample_active))
    as [(r' & H1 & _ & H2 & _) _].
  - apply sample_db_reachable.
  - apply rtc_once, sample_claim_step.
  - apply (bool_decide_eq_true_1 _). vm_compute. reflexivity.
  - exists r'. split; [exact H1|]. apply H2. vm_compute. reflexivity.
Defined.

Lemma claim_receipt_exact_witness :
  exists b cur, _binding_values b ∈ db_bindings sample_db /\ claim_authorised sample_claim b cur.
Proof.
  destruct (claim_receipt_exact sample_claim sample_watermark sample_claimed sample_outbox_entry
    sample_db sample_claim sample_claimed_db) as (_ & b & cur & Hb & _ & Ha & _);
    [apply sample_db_reachable | apply sample_valid | apply sample_valid | apply sample_valid
    | apply sample_claim_run | exists b, cur; split; [exact Hb | exact Ha]].
Defined.

(** A claim of an effect that is not stored. *)
Lemma claim_receipt_atomic_witness :
  exists err s', claim_receipt sample_claim sample_watermark sample_claimed sample_outbox_entry
                   (Session (empty_db ([] : outbox_table)) false) = (Err err, s')
                 /\ s' = Session (empty_db ([] : outbox_table)) false.
Proof.
  eexists _, _. split; [vm_compute; reflexivity|].
  eapply (claim_receipt_atomic sample_claim sample_watermark sample_claimed sample_outbox_entry
    (Session (empty_db ([] : outbox_table)) false)); [reflexivity | vm_compute; reflexivity].
Defined.

Lemma claim_receipt_idempotent_witness :
  transaction (claim_receipt sample_claim sample_watermark sample_received sample_outbox_entry)
    sample_claimed_db = (Ok sample_claim, sample_claimed_db).
Proof.
  apply (claim_receipt_idempotent pg_reference pg_reference sample_claim sample_watermark
    sample_claimed sample_outbox_entry sample_watermark sample_received sample_outbox_entry sample_db
    sample_claim sample_claimed_db); [apply sample_db_reachable | apply sample_valid
    | apply sample_valid | apply sample_valid | apply sample_claim_run].
Defined.

(** After the first claim the lease is renewed at sequence 8, and a second effect
    receives its receipt. *)
Definition sample_renewed (state : AuthorityBindingState) (sequence updated version : Z)
  : AgentAuthorityBinding :=
  {| b_binding_id := u "bind-1"; b_owner_id := u "owner-a"; b_agent_id := u "agent-1";
     b_runtime_id := u "runtime-1"; b_runtime_generation := 1; b_population := SERVER_DYNAMIC;
     b_tenant_id := u "tenant-1"; b_envelope_id := u "envelope-1";
     b_warden_id := u "warden-1"; b_lease_id := u "lease-1"; b_lineage_id := u "lineage-1";
     b_subject_id := u "subject-1";
     b_policy_digest := lets 97; b_machine_digest := lets 98; b_config_epoch := 3;
     b_capabilities := [u "files.read"; u "files.write"];
     b_lease_sequence := sequence; b_lease_expires_at_ns := 90000; b_state := state;
     b_created_at := utc 1000; b_updated_at := utc updated; b_version := version |}.

Definition sample_second_effect (status : ProtectedEffectStatus) (updated version : Z)
  : ProtectedEffectOperation :=
  {| e_operation_id := u "op-2"; e_owner_id := u "owner-a"; e_agent_id := u "agent-1";
     e_binding_id := u "bind-1"; e_tool_id := u "tool-1"; e_astral_scope := SCOPE_WRITE;
     e_lets_capability := u "files.write"; e_lets_transition := u "write-file";
     e_executor_audience := u "executor-1"; e_nonce := u "nonce-fedcba9876543210";
     e_effect_digest := hex64 99; e_expected_sequence := 8; e_audit_correlation_id := u "audit-2";
     e_status := status; e_receipt_id := Some (u "receipt-2"); e_receipt_digest := Some (hex64 101);
     e_effect_result_digest := None; e_error_code := None;
     e_created_at := utc 2420; e_updated_at := utc updated; e_version := version |}.

Definition sample_second_claim : ReceiptClaim :=
  {| c_receipt_id := u "receipt-2"; c_operation_id := u "op-2"; c_owner_id := u "owner-a";
     c_binding_id := u "bind-1"; c_tenant_id := u "tenant-1"; c_envelope_id := u "envelope-1";
     c_warden_id := u "warden-1"; c_lease_id := u "lease-1"; c_subject_id := u "subject-1";
     c_lineage_id := u "lineage-1"; c_policy_digest := lets 97; c_machine_digest := lets 98;
     c_config_epoch := 3; c_audience := u "executor-1"; c_transition := u "write-file";
     c_nonce := u "nonce-fedcba9876543210"; c_resulting_sequence := 9;
     c_evidence_digest := Some (lets 99); c_issued_at_ns := 60000; c_expires_at_ns := 80000;
     c_claimed_at := utc 2440; c_canonical_digest := hex64 101;
     c_authority_anchor := sample_anchor |}.
Definition sample_second_watermark : ReceiptSequenceWatermark :=
  {| w_warden_id := u "warden-1"; w_lease_id := u "lease-1"; w_audience := u "executor-1";
     w_last_sequence := 9; w_updated_at := utc 2440; w_expires_at_ns := 80000; w_version := 1 |}.
Definition sample_second_entry : OutboxEntry :=
  {| oe_entry_id := u "entry-2"; oe_topic := u "authority.effect"; oe_canonical_payload := u "op-2";
     oe_payload_sha256 := sha256_hex (u "op-2"); oe_idempotency_key := u "claim:receipt-2";
     oe_available_at := utc 2440 |}.

Definition renewal_calls : list (bool * authority_op) :=
  [(false, TransitionBinding (sample_renewed ACTIVE 8 2410 2) ACTIVE 1);
   (false, CreateEffect (sample_second_effect E_RECEIPT_RECEIVED 2430 3))].
Definition sample_renewed_db : authority_db outbox_table :=
  snd (transaction (run_calls renewal_calls) sample_claimed_db).

Definition sample_second_call : authority_op :=
  ClaimReceipt sample_second_claim sample_second_watermark
    (sample_second_effect E_RECEIPT_CLAIMED 2440 4) sample_second_entry.
Definition sample_second_db : authority_db outbox_table :=
  snd (transaction (run_calls [(false, sample_second_call)]) sample_renewed_db).

Example sample_second_run :
  transaction (claim_receipt sample_second_claim sample_second_watermark
    (sample_second_effect E_RECEIPT_CLAIMED 2440 4) sample_second_entry) sample_renewed_db
  = (Ok sample_second_claim, sample_second_db).
Proof. vm_compute. reflexivity. Qed.

Lemma sample_renewed_claims : db_claims sample_renewed_db = [_claim_values sample_claim].
Proof. vm_compute. reflexivity. Qed.

(** The second claim is new, stored last and above the first one. *)
Lemma receipt_sequences_increase_witness :
  db_claims sample_second_db = [_claim_values sample_claim; _claim_values sample_second_claim]
  /\ rc_resulting_sequence (_claim_values sample_claim) < c_resulting_sequence sample_second_claim.
Proof.
  destruct (receipt_sequences_increase pg_reference sample_second_claim sample_second_watermark
    (sample_second_effect E_RECEIPT_CLAIMED 2440 4) sample_second_entry
    sample_claimed_db sample_renewed_db sample_second_db sample_second_claim)
    as (_ & [[Hin _]|(_ & Hlast & Hlarger)] & _).
  - apply (reachable_steps sample_db); [apply sample_db_reachable | apply rtc_once, sample_claim_step].
  - apply rtc_once. constructor. repeat constructor; vm_compute; reflexivity.
  - split; vm_compute; reflexivity.
  - split; vm_compute; reflexivity.
  - split; vm_compute; reflexivity.
  - apply sample_second_run.
  - exfalso. rewrite sample_renewed_claims, list_elem_of_singleton in Hin.
    apply (f_equal rc_resulting_sequence) in Hin. discriminate.
  - rewrite Hlast, sample_renewed_claims. split; [reflexivity|].
    apply Hlarger; [rewrite sample_renewed_claims; left | reflexivity].
Defined.
