(* ===== verification/AuthorityAccess.v ===== *)
(** * Compare-and-set, idempotent creation and owner isolation

    What the fences of the repository exclude (a lost update, a second
    transition from the same version), what a repeated creation returns, and
    that no method touches or returns another owner's rows. *)

From S2P Require Import Prelude Regex Errors Domain Sha256 Pg AuthorityModels AuthoritySchema.
From S2P Require Import AuthoritySamples AuthorityRows Outbox OutboxSafety OutboxStore.
From S2P Require Import AuthorityRepository AuthorityInvariant AuthoritySpec AuthorityClaims.
From S2P Require Import AuthorityWitnesses.

(** ** One transition per version *)

Section CompareAndSet.
Context {S : Type} `{!OutboxStore S}.
Implicit Types (db : authority_db S) (s : session (authority_db S)).

(** An update that returned a row matched its fence and left its new row. *)
Lemma update_head {row} check conflict p (f : row -> row) t rs t' r :
  update_returning check conflict p f t = Ok (rs, t') -> head rs = Some r ->
  exists old, old ∈ t /\ p old = true /\ r = f old /\ r ∈ t'.
Proof.
  intros (_ & -> & -> & _)%update_returning_Ok Hh.
  destruct (rows_where p t) as [|old l] eqn:Hrows; [done|]. injection Hh as <-.
  assert (old ∈ old :: l) as Hin by left. rewrite <- Hrows in Hin.
  apply elem_of_rows_where in Hin as [Hin Hp]. exists old. split_and!; [done|done|done|].
  apply elem_of_update_where. exists old. by rewrite Hp.
Qed.

Lemma transition_binding_head `{PgEnv} b st v db r db' :
  _TRANSITION_BINDING b st v db = Ok (Some r, db') ->
  exists old, old ∈ db_bindings db /\ transition_binding_fence (_binding_values b) st v old = true
    /\ r = transition_binding_set (_binding_values b) old /\ r ∈ db_bindings db'.
Proof.
  unfold _TRANSITION_BINDING, on. intros Hq. inv_ok. destruct v0 as [o t], v1 as [rs t']. inv_ok.
  simplify_eq. cbn. by eapply update_head.
Qed.

Lemma transition_lifecycle_head `{PgEnv} o st v db r db' :
  _TRANSITION_LIFECYCLE o st v db = Ok (Some r, db') ->
  exists old, old ∈ db_lifecycle db /\ transition_lifecycle_fence (_lifecycle_values o) st v old = true
    /\ r = transition_lifecycle_set (_lifecycle_values o) old /\ r ∈ db_lifecycle db'.
Proof.
  unfold _TRANSITION_LIFECYCLE, on. intros Hq. inv_ok. destruct v0 as [x t], v1 as [rs t']. inv_ok.
  simplify_eq. cbn. by eapply update_head.
Qed.

Lemma transition_effect_head `{PgEnv} o st v db r db' :
  _TRANSITION_EFFECT o st v db = Ok (Some r, db') ->
  exists old, old ∈ db_effects db /\ transition_effect_fence (_effect_values o) st v old = true
    /\ r = transition_effect_set (_effect_values o) old /\ r ∈ db_effects db'.
Proof.
  unfold _TRANSITION_EFFECT, on. intros Hq. inv_ok. destruct v0 as [x t], v1 as [rs t']. inv_ok.
  simplify_eq. cbn. by eapply update_head.
Qed.

Lemma transition_binding_run `{PgEnv} b st v s r s' :
  transition_binding b st v s = (Ok r, s') ->
  r = b /\ b_version b = v + 1
  /\ exists br, _TRANSITION_BINDING b st v (s_db s) = Ok (Some br, s_db s').
Proof.
  unfold transition_binding. intros Hr. inv_run. subst.
  destruct v2 as [br|]; [|inv_run; inv_ok]. inv_run. subst. run_facts. eauto.
Qed.

Lemma transition_lifecycle_run `{PgEnv} o st v s r s' :
  transition_lifecycle_operation o st v s = (Ok r, s') ->
  r = o /\ l_version o = v + 1
  /\ exists br, _TRANSITION_LIFECYCLE o st v (s_db s) = Ok (Some br, s_db s').
Proof.
  unfold transition_lifecycle_operation. intros Hr. inv_run. subst.
  destruct v2 as [br|]; [|inv_run; inv_ok]. inv_run. subst. run_facts. eauto.
Qed.

Lemma lifecycle_unique db r1 r2 :
  authority_inv db -> r1 ∈ db_lifecycle db -> r2 ∈ db_lifecycle db ->
  rl_operation_id r1 = rl_operation_id r2 -> r1 = r2.
Proof.
  intros Hi H1 H2 Heq. apply (unique_ok_elem lifecycle_conflict (db_lifecycle db));
    auto using lifecycle_conflict_sym; [apply Hi|]. unfold lifecycle_conflict.
  by rewrite (bool_decide_eq_true_2 (rl_operation_id r1 = _)).
Qed.

(** A committed call left a database of the invariant. *)
Lemma committed_inv `{PgEnv} {A} (m : SM (authority_db S) A) db a db' :
  respects authority_safe m -> authority_inv db -> transaction m db = (Ok a, db') -> authority_inv db'.
Proof.
  intros Hm Hi Hr. pose proof (respects_transaction authority_safe m db Hm) as Hs.
  rewrite Hr in Hs. by apply Hs.
Qed.

Lemma failed_or_ok {A} (m : SM (authority_db S) A) db :
  (forall a db', transaction m db <> (Ok a, db')) -> exists e, transaction m db = (Err e, db).
Proof.
  intros Hno. destruct (transaction m db) as [[a|e] db'] eqn:Ht; [by destruct (Hno a db')|].
  exists e. f_equal. by eapply transaction_error_atomic.
Qed.

(** Compare-and-set loses no update.  After a transition of a binding from
    a version returned, every later transition of that binding from the same
    version raises and changes nothing, whatever its target state and whatever
    committed in between. *)
Theorem binding_transition_once (env1 env2 : PgEnv) b1 b2 st1 st2 v db db1 db2 r
    (Hreach : reachable db) (Hv1 : valid_binding b1)
    (Hfirst : transaction (transition_binding (H := env1) b1 st1 v) db = (Ok r, db1))
    (Hlater : rtc authority_step db1 db2) (Hsame : b_binding_id b2 = b_binding_id b1) :
  exists e, transaction (transition_binding (H := env2) b2 st2 v) db2 = (Err e, db2).
Proof.
  pose proof (committed_inv (H := env1) _ _ _ _ (transition_binding_safe b1 st1 v Hv1) (reachable_inv db Hreach) Hfirst) as Hi1.
  destruct (authority_steps_safe db1 db2 Hlater Hi1) as [Hi2 He2].
  apply transaction_run in Hfirst as (s' & Hrun & _ & <-).
  apply transition_binding_run in Hrun as (_ & Hver & br & Hq).
  apply transition_binding_head in Hq as (old & _ & Hf & -> & Hin).
  destruct (table_evolves_elem _ _ _ _ (ev_bindings _ _ He2) Hin) as (r2 & Hr2 & Hid & _ & Hm).
  apply failed_or_ok. intros a db' (s2 & Hrun & _ & _)%transaction_run.
  apply transition_binding_run in Hrun as (_ & _ & br & Hq).
  apply transition_binding_head in Hq as (old2 & Hold2 & Hf2 & _). cbn [s_db] in *.
  unfold transition_binding_fence, binding_scope in *. split_bools.
  unfold binding_identity in Hid. cbn in *. injection Hid as E _.
  assert (old2 = r2) as -> by (apply (binding_unique db2); auto; congruence).
  destruct Hm as [->|[Hlt _]]; cbn in *; lia.
Qed.

(** The same for lifecycle operations and protected effects: from one
    version at most one transition ever returns. *)
Theorem operation_transition_once (env1 env2 : PgEnv) db :
  (forall o1 o2 st1 st2 v db1 db2 r,
     reachable db -> valid_lifecycle o1 ->
     transaction (transition_lifecycle_operation (H := env1) o1 st1 v) db = (Ok r, db1) ->
     rtc authority_step db1 db2 -> l_operation_id o2 = l_operation_id o1 ->
     exists e, transaction (transition_lifecycle_operation (H := env2) o2 st2 v) db2 = (Err e, db2))
  /\ (forall o1 o2 st1 st2 v db1 db2 r,
     reachable db -> valid_effect o1 ->
     transaction (transition_protected_effect (H := env1) o1 st1 v) db = (Ok r, db1) ->
     rtc authority_step db1 db2 -> e_operation_id o2 = e_operation_id o1 ->
     exists e, transaction (transition_protected_effect (H := env2) o2 st2 v) db2 = (Err e, db2)).
Proof.
  split; intros o1 o2 st1 st2 v db1 db2 r Hreach Hv1 Hfirst Hlater Hsame.
  - pose proof (committed_inv (H := env1) _ _ _ _ (transition_lifecycle_safe o1 st1 v Hv1) (reachable_inv db Hreach) Hfirst) as Hi1.
    destruct (authority_steps_safe db1 db2 Hlater Hi1) as [Hi2 He2].
    apply transaction_run in Hfirst as (s' & Hrun & _ & <-).
    apply transition_lifecycle_run in Hrun as (_ & Hver & br & Hq).
    apply transition_lifecycle_head in Hq as (old & _ & Hf & -> & Hin).
    destruct (table_evolves_elem _ _ _ _ (ev_lifecycle _ _ He2) Hin) as (r2 & Hr2 & Hid & Hm).
    apply failed_or_ok. intros a db' (s2 & Hrun & _ & _)%transaction_run.
    apply transition_lifecycle_run in Hrun as (_ & _ & br & Hq).
    apply transition_lifecycle_head in Hq as (old2 & Hold2 & Hf2 & _). cbn [s_db] in *.
    unfold transition_lifecycle_fence in *. split_bools.
    unfold lifecycle_identity in Hid. cbn in *. injection Hid as E _.
    assert (old2 = r2) as -> by (apply (lifecycle_unique db2); auto; congruence).
    destruct Hm as [->|[Hlt _]]; cbn in *; lia.
  - pose proof (committed_inv (H := env1) _ _ _ _ (transition_effect_safe o1 st1 v Hv1) (reachable_inv db Hreach) Hfirst) as Hi1.
    destruct (authority_steps_safe db1 db2 Hlater Hi1) as [Hi2 He2].
    apply transaction_run in Hfirst as (s' & Hrun & _ & <-).
    apply transition_effect_run in Hrun as (_ & Hver & _ & _ & br & Hq & _).
    apply transition_effect_head in Hq as (old & _ & Hf & -> & Hin).
    destruct (table_evolves_elem _ _ _ _ (ev_effects _ _ He2) Hin) as (r2 & Hr2 & Hid & Hm).
    apply failed_or_ok. intros a db' (s2 & Hrun & _ & _)%transaction_run.
    apply transition_effect_run in Hrun as (_ & _ & _ & _ & br & Hq & _).
    apply transition_effect_head in Hq as (old2 & Hold2 & Hf2 & _). cbn [s_db] in *.
    unfold transition_effect_fence in *. split_bools.
    unfold effect_identity in Hid. cbn in *. injection Hid as E _.
    assert (old2 = r2) as -> by (apply (effect_unique db2); auto; congruence).
    destruct Hm as [->|(? & ? & n & _ & _ & _ & _ & Hlt)]; cbn in *; lia.
Qed.
End CompareAndSet.

(** ** Creation *)

Section Creation.
Context `{PgEnv} {S : Type} `{!OutboxStore S}.
Implicit Types (db : authority_db S).

Lemma insert_do_nothing_conflict {row} check conflict foreign (r : row) t :
  check r = Ok () -> exists_row (conflict r) t = true ->
  insert_do_nothing check conflict foreign r t = Ok (None, t).
Proof. intros Hc He. unfold insert_do_nothing. by rewrite Hc, He. Qed.

Lemma insert_do_nothing_fresh {row} check conflict foreign (r : row) t :
  check r = Ok () -> exists_row (conflict r) t = false -> foreign r = Ok () ->
  insert_do_nothing check conflict foreign r t = Ok (Some r, t ++ [r]).
Proof. intros Hc He Hf. unfold insert_do_nothing. by rewrite Hc, He, Hf. Qed.

Lemma create_effect_run o db :
  transaction (create_protected_effect o) db
  = match _INSERT_EFFECT o db with
    | Err e => (Err e, db)
    | Ok (Some r, db') =>
        match check_persisted _effect_from_row o "protected effect insert returned different data" r with
        | Ok x => (Ok x, db') | Err e => (Err e, db) end
    | Ok (None, db') =>
        match _READ_EFFECT_CONFLICT o db' with
        | None => (raise AuthorityIdempotencyConflictError "effect intent represents different work", db)
        | Some r =>
            match _effect_from_row r with
            | Err e => (Err e, db)
            | Ok found =>
                if _same_effect_intent found o then (Ok found, db')
                else (raise AuthorityIdempotencyConflictError "effect intent represents different work", db)
            end
        end
    end.
Proof.
  unfold transaction, create_protected_effect, query, lift, exec, mbind, SM_mbind. cbn [s_failed s_db].
  destruct (_INSERT_EFFECT o db) as [[[r|] db']|e]; [|cbn [s_failed s_db]|done].
  - by destruct (check_persisted _ _ _ r).
  - destruct (_READ_EFFECT_CONFLICT o db') as [r|]; [|done].
    destruct (_effect_from_row r) as [found|]; [|done]. by destruct (_same_effect_intent found o).
Qed.

(** A stored effect is the only row its identity and nonce find. *)
Lemma read_effect_stored cur o db :
  authority_inv db -> _effect_values cur ∈ db_effects db -> _same_effect_intent cur o = true ->
  _READ_EFFECT_CONFLICT o db = Some (_effect_values cur).
Proof.
  intros Hi Hin Hs. unfold _same_effect_intent, effect_intent in Hs. split_bools. simplify_eq.
  apply select_one_unique; [done| |].
  - cbn. by rewrite !bool_decide_eq_true_2.
  - intros r Hr Hp. apply andb_true_iff in Hp as [Ho Hp]. apply orb_true_iff in Hp as [Hp|Hp]; split_bools.
    + apply (effect_unique db); auto. cbn. congruence.
    + apply (unique_ok_elem effect_conflict (db_effects db)); auto using effect_conflict_sym; [apply Hi|].
      unfold effect_conflict. cbn. rewrite orb_true_iff. right. apply bool_decide_eq_true. congruence.
Qed.

(** Creating a protected effect, on every branch.  An intent already stored
    returns the stored effect with the progress it made and changes nothing; a
    fresh one on a stored binding of its owner is appended; one whose operation
    id or nonce is taken by other work is refused, as is one without a binding. *)
Theorem create_effect_exact o db
    (Hreach : reachable db) (Hv : valid_effect o)
    (Hfits : check_effect_row (_effect_values o) = Ok ()) :
  (forall cur, valid_effect cur -> _effect_values cur ∈ db_effects db ->
     _same_effect_intent cur o = true ->
     transaction (create_protected_effect o) db = (Ok cur, db))
  /\ (exists_row (effect_conflict (_effect_values o)) (db_effects db) = false ->
      binding_exists (e_owner_id o) (e_binding_id o) (db_bindings db) = true ->
      transaction (create_protected_effect o) db
      = (Ok o, set_effects (db_effects db ++ [_effect_values o]) db))
  /\ (exists_row (effect_conflict (_effect_values o)) (db_effects db) = true ->
      (forall cur, valid_effect cur -> _effect_values cur ∈ db_effects db ->
         _same_effect_intent cur o = false) ->
      transaction (create_protected_effect o) db
      = (raise AuthorityIdempotencyConflictError "effect intent represents different work", db))
  /\ (exists_row (effect_conflict (_effect_values o)) (db_effects db) = false ->
      binding_exists (e_owner_id o) (e_binding_id o) (db_bindings db) = false ->
      exists msg, transaction (create_protected_effect o) db = (raise PgForeignKeyViolation msg, db)).
Proof.
  pose proof (reachable_inv db Hreach) as Hi. split_and!.
  - intros cur Hvc Hin Hs. rewrite create_effect_run. unfold _INSERT_EFFECT, on.
    rewrite insert_do_nothing_conflict; [|done|].
    + cbn [mbind outcome_mbind outcome_bind]. replace (set_effects (db_effects db) db) with db by (by destruct db).
      rewrite (read_effect_stored cur o db Hi Hin Hs), effect_roundtrip, Hs by done. done.
    + apply exists_row_true. exists (_effect_values cur). split; [done|]. unfold effect_conflict.
      unfold _same_effect_intent, effect_intent in Hs. split_bools. simplify_eq. cbn.
      by rewrite (bool_decide_eq_true_2 (e_operation_id o = _)).
  - intros Hfresh Hb. rewrite create_effect_run. unfold _INSERT_EFFECT, on.
    rewrite insert_do_nothing_fresh; [|done|done|by cbn; rewrite Hb].
    cbn [mbind outcome_mbind outcome_bind]. unfold check_persisted. rewrite effect_roundtrip by done.
    cbn. by rewrite bool_decide_eq_false_2 by (intros Hne; by apply Hne).
  - intros Hc Hno. rewrite create_effect_run. unfold _INSERT_EFFECT, on.
    rewrite insert_do_nothing_conflict by done.
    cbn [mbind outcome_mbind outcome_bind]. replace (set_effects (db_effects db) db) with db by (by destruct db).
    destruct (_READ_EFFECT_CONFLICT o db) as [r|] eqn:Hr; [|done].
    unfold _READ_EFFECT_CONFLICT in Hr. apply select_one_Some in Hr as [Hr _].
    destruct (proj1 (Forall_forall _ _) (inv_effects _ Hi) r Hr) as (cur & Hvc & ->).
    rewrite effect_roundtrip by done. by rewrite (Hno cur Hvc Hr).
  - intros Hfresh Hb. rewrite create_effect_run. unfold _INSERT_EFFECT, on, insert_do_nothing.
    rewrite Hfits, Hfresh. cbn. rewrite Hb. cbn. eauto.
Qed.
End Creation.

(** ** Concrete instances *)

Definition sample_quiescent : AgentAuthorityBinding :=
  {| b_binding_id := u "bind-1"; b_owner_id := u "owner-a"; b_agent_id := u "agent-1";
     b_runtime_id := u "runtime-1"; b_runtime_generation := 1; b_population := SERVER_DYNAMIC;
     b_tenant_id := u "tenant-1"; b_envelope_id := u "envelope-1";
     b_warden_id := u "warden-1"; b_lease_id := u "lease-1"; b_lineage_id := u "lineage-1";
     b_subject_id := u "subject-1";
     b_policy_digest := lets 97; b_machine_digest := lets 98; b_config_epoch := 3;
     b_capabilities := [u "files.read"; u "files.write"];
     b_lease_sequence := 7; b_lease_expires_at_ns := 90000; b_state := QUIESCENT;
     b_created_at := utc 1000; b_updated_at := utc 1600; b_version := 2 |}.

(** The second of two racing quiesces of one version loses. *)
Lemma binding_transition_once_witness :
  exists db1 e, transaction (transition_binding sample_quiescent ACTIVE 1) sample_db
                = (Ok sample_quiescent, db1)
    /\ transaction (transition_binding sample_quiescent ACTIVE 1) db1 = (Err e, db1).
Proof.
  set (db1 := snd (transaction (transition_binding sample_quiescent ACTIVE 1) sample_db)).
  assert (transaction (transition_binding sample_quiescent ACTIVE 1) sample_db
    = (Ok sample_quiescent, db1)) as Hf by (vm_compute; reflexivity).
  destruct (binding_transition_once pg_reference pg_reference sample_quiescent sample_quiescent
    ACTIVE ACTIVE 1 sample_db db1 db1 sample_quiescent) as [e He].
  - apply sample_db_reachable.
  - vm_compute. reflexivity.
  - exact Hf.
  - apply rtc_refl.
  - reflexivity.
  - exists db1, e. split; [exact Hf | exact He].
Defined.

Definition sample_failed_closed : ProtectedEffectOperation :=
  sample_effect "op-1" "nonce-0123456789abcdef" E_FAILED_CLOSED sample_receipt None
    (Some (u "executor_gone")) 2500 4.

(** Once the effect failed closed, a transition of the version it had loses. *)
Lemma operation_transition_once_witness :
  exists db1 e,
    transaction (transition_protected_effect sample_failed_closed E_RECEIPT_RECEIVED 3) sample_db
    = (Ok sample_failed_closed, db1)
    /\ transaction (transition_protected_effect sample_claimed E_RECEIPT_RECEIVED 3) db1 = (Err e, db1).
Proof.
  set (db1 := snd (transaction (transition_protected_effect sample_failed_closed E_RECEIPT_RECEIVED 3) sample_db)).
  assert (transaction (transition_protected_effect sample_failed_closed E_RECEIPT_RECEIVED 3) sample_db
    = (Ok sample_failed_closed, db1)) as Hf by (vm_compute; reflexivity).
  destruct (operation_transition_once pg_reference pg_reference sample_db) as [_ H].
  destruct (H sample_failed_closed sample_claimed E_RECEIPT_RECEIVED E_RECEIPT_RECEIVED 3 db1 db1
    sample_failed_closed) as [e He].
  - apply sample_db_reachable.
  - vm_compute. reflexivity.
  - exact Hf.
  - apply rtc_refl.
  - reflexivity.
  - exists db1, e. split; [exact Hf | exact He].
Defined.

(** Creating the effect again after its receipt arrived returns it as it is. *)
Lemma create_effect_exact_witness :
  transaction (create_protected_effect sample_created) sample_db = (Ok sample_received, sample_db).
Proof.
  destruct (create_effect_exact sample_created sample_db) as [H _].
  - apply sample_db_reachable.
  - vm_compute. reflexivity.
  - vm_compute. reflexivity.
  - apply H; [vm_compute; reflexivity | apply (bool_decide_eq_true_1 _); vm_compute; reflexivity
             | vm_compute; reflexivity].
Defined.
