(* ===== verification/AuthorityIsolation.v ===== *)
(** * Owner isolation of the authority repository

    Every statement of [AuthorityRepository] is scoped by [owner_id].  Here:
    a transaction of one owner's writing calls leaves every row of every other
    owner as it was, and no reading call of another owner can tell whether the
    transaction ran, whatever rows, locks and scan orders the server has. *)

From S2P Require Import Prelude Regex Errors Domain Sha256 Pg AuthorityModels AuthoritySchema.
From S2P Require Import AuthoritySamples AuthorityRows Outbox OutboxSafety OutboxStore.
From S2P Require Import AuthorityRepository AuthorityInvariant AuthoritySpec AuthorityClaims.
From S2P Require Import AuthorityWitnesses AuthorityAccess.

(** ** Deterministic reads *)

Section DeterministicReads.
Context `{PgEnv} {row : Type}.
Implicit Types (p : row -> bool) (t : list row).

(** A read that pins a unique key sees only the selected rows. *)
Lemma select_one_same stmt p t t' :
  (forall r1 r2, r1 ∈ t -> r2 ∈ t -> p r1 = true -> p r2 = true -> r1 = r2) ->
  rows_where p t = rows_where p t' -> select_one stmt p t = select_one stmt p t'.
Proof.
  intros Hu Ht.
  assert (forall r, r ∈ t' /\ p r = true <-> r ∈ t /\ p r = true) as Hiff
    by (intros r; by rewrite <- !elem_of_rows_where, Ht).
  destruct (select_one stmt p t) as [r|] eqn:Hs; symmetry.
  - apply select_one_Some in Hs as [Hr Hp]. destruct (proj2 (Hiff r)) as [Hr' _]; [done|].
    apply select_one_unique; [done..|]. intros r2 H2 P2. destruct (proj1 (Hiff r2)); eauto.
  - rewrite select_one_None in Hs. apply select_one_None. intros r Hr.
    destruct (p r) eqn:Hp; [|done]. destruct (proj1 (Hiff r)) as [Hin _]; [done|].
    rewrite <- Hp. by apply Hs.
Qed.

(** An ordered read of rows the order tells apart does too. *)
Lemma select_ordered_same stmt le p t t' :
  (forall a b, le a b = true \/ le b a = true) ->
  (forall a b c, le a b = true -> le b c = true -> le a c = true) ->
  (forall r1 r2, r1 ∈ t -> r2 ∈ t -> p r1 = true -> p r2 = true ->
     le r1 r2 = true -> le r2 r1 = true -> r1 = r2) ->
  rows_where p t = rows_where p t' ->
  select_ordered stmt le p t = select_ordered stmt le p t'.
Proof.
  intros Htot Htr Hanti Ht.
  assert (select_ordered stmt le p t ≡ₚ select_ordered stmt le p t') as Hperm.
  { rewrite !select_ordered_perm, (rows_where_perm p _ _ (scan_perm stmt row t)), Ht.
    by rewrite (rows_where_perm p _ _ (scan_perm stmt row t')). }
  apply (StronglySorted_unique_strong (bool_rel le)); [|by apply sort_by_sorted..|done].
  intros r1 r2 H1 H2. rewrite <- Hperm in H2.
  apply elem_of_select_ordered in H1 as [? ?], H2 as [? ?]. unfold bool_rel. eauto.
Qed.
End DeterministicReads.

(** ** Writes *)

Definition op_owner (op : authority_op) : pystr :=
  match op with
  | CreateBinding b | TransitionBinding b _ _ | ActivateBinding b _ | AbandonBinding b _ => b_owner_id b
  | CreateLifecycle o | TransitionLifecycle o _ _ => l_owner_id o
  | CreateEffect o | TransitionEffect o _ _ => e_owner_id o
  | ClaimReceipt c _ _ _ => c_owner_id c
  end.

Section Writes.
Context {S : Type} `{!OutboxStore S}.
Implicit Types db : authority_db S.

Definition not_of (owner : pystr) {row} (owner_of : row -> pystr) (r : row) : bool :=
  negb (bool_decide (owner_of r = owner)).

(** The owned tables without one owner's rows. *)
Definition others (owner : pystr) db :=
  (rows_where (not_of owner rb_owner_id) (db_bindings db),
   rows_where (not_of owner rl_owner_id) (db_lifecycle db),
   rows_where (not_of owner re_owner_id) (db_effects db),
   rows_where (not_of owner rc_owner_id) (db_claims db)).

Definition others_kept (owner : pystr) db db' : Prop := others owner db' = others owner db.

#[global] Instance others_kept_preorder owner : PreOrder (others_kept owner).
Proof. split; [done|]. intros d1 d2 d3 H1 H2. unfold others_kept in *. congruence. Qed.

Lemma not_of_same owner {row} (owner_of : row -> pystr) r :
  owner_of r = owner -> not_of owner owner_of r = false.
Proof. intros E. unfold not_of. by rewrite bool_decide_eq_true_2. Qed.

Lemma insert_others {row} keep check conflict foreign (r : row) t o t' :
  keep r = false -> insert_do_nothing check conflict foreign r t = Ok (o, t') ->
  rows_where keep t' = rows_where keep t.
Proof.
  intros Hk (_ & [(_ & -> & _)|(_ & -> & _)])%insert_do_nothing_Ok; [done|].
  by apply rows_where_snoc.
Qed.

Lemma update_others {row} keep check conflict p (f : row -> row) t rs t' :
  (forall r, p r = true -> keep r = false /\ keep (f r) = false) ->
  update_returning check conflict p f t = Ok (rs, t') -> rows_where keep t' = rows_where keep t.
Proof. intros Hp (_ & _ & -> & _)%update_returning_Ok. by apply rows_where_update. Qed.

(** A statement on one table, and the rows it inserts or updates. *)
Ltac table_statement :=
  let Hq := fresh "Hq" in intros Hq; inv_ok;
  repeat match goal with v : (_ * _)%type |- _ => destruct v end; inv_ok; simplify_eq;
  unfold others_kept, others; cbn;
  repeat match goal with |- (_, _) = (_, _) => apply (f_equal2 pair) end; try reflexivity.
Ltac inserted := eapply insert_others; [|eassumption]; by apply not_of_same.
Ltac updated :=
  eapply update_others; [|eassumption]; let Hr := fresh "Hr" in intros ? Hr;
  unfold transition_binding_fence, activate_binding_fence, transition_lifecycle_fence,
    transition_effect_fence, binding_scope in Hr; split_bools; split; by apply not_of_same.

Lemma insert_binding_others `{PgEnv} b db o db' :
  _INSERT_BINDING b db = Ok (o, db') -> others_kept (b_owner_id b) db db'.
Proof. unfold _INSERT_BINDING, on. table_statement. inserted. Qed.

Lemma insert_lifecycle_others `{PgEnv} l db o db' :
  _INSERT_LIFECYCLE l db = Ok (o, db') -> others_kept (l_owner_id l) db db'.
Proof. unfold _INSERT_LIFECYCLE, on. table_statement. inserted. Qed.

Lemma insert_effect_others `{PgEnv} e db o db' :
  _INSERT_EFFECT e db = Ok (o, db') -> others_kept (e_owner_id e) db db'.
Proof. unfold _INSERT_EFFECT, on. table_statement. inserted. Qed.

Lemma insert_claim_others `{PgEnv} c db o db' :
  _INSERT_CLAIM c db = Ok (o, db') -> others_kept (c_owner_id c) db db'.
Proof. unfold _INSERT_CLAIM, on. table_statement. inserted. Qed.

Lemma transition_binding_others `{PgEnv} b st v db o db' :
  _TRANSITION_BINDING b st v db = Ok (o, db') -> others_kept (b_owner_id b) db db'.
Proof. unfold _TRANSITION_BINDING, on. table_statement. updated. Qed.

Lemma activate_binding_others `{PgEnv} b pending v db o db' :
  _ACTIVATE_BINDING b pending v db = Ok (o, db') -> others_kept (b_owner_id b) db db'.
Proof. unfold _ACTIVATE_BINDING, on. table_statement. updated. Qed.

Lemma transition_lifecycle_others `{PgEnv} l st v db o db' :
  _TRANSITION_LIFECYCLE l st v db = Ok (o, db') -> others_kept (l_owner_id l) db db'.
Proof. unfold _TRANSITION_LIFECYCLE, on. table_statement. updated. Qed.

Lemma transition_effect_others `{PgEnv} e st v db o db' :
  _TRANSITION_EFFECT e st v db = Ok (o, db') -> others_kept (e_owner_id e) db db'.
Proof. unfold _TRANSITION_EFFECT, on. table_statement. updated. Qed.

Lemma advance_watermark_others `{PgEnv} owner w db o db' :
  _ADVANCE_WATERMARK w db = Ok (o, db') -> others_kept owner db db'.
Proof. unfold _ADVANCE_WATERMARK, on. table_statement. Qed.

(** The effect a claim moves is the claim owner's: its intent is that of the
    stored effect the claim was checked against. *)
Lemma claim_stored_others `{PgEnv} c w e x db b cur s' :
  claim_context c db b cur -> claim_stored c w e x db cur s' -> others_kept (c_owner_id c) db (s_db s').
Proof.
  intros (br & er0 & _ & _ & _ & _ & Hrel).
  intros (cr & wr & er & db1 & db2 & db3 & so & res & Hins & Hnew & _ & Hadv & _ & _ & Htr & _ & _ & ->).
  cbn [s_db]. apply insert_claim_others in Hins. apply (advance_watermark_others (c_owner_id c)) in Hadv.
  apply transition_effect_others in Htr.
  assert (e_owner_id e = c_owner_id c) as Ho.
  { unfold _validate_claim_relationships in Hrel. unfold _validate_new_claim_transition in Hnew.
    inv_ok. split_bools. unfold _same_effect_intent, effect_intent in *. split_bools.
    repeat match goal with Hn : ~ (_ <> _) |- _ => apply dec_stable in Hn end. congruence. }
  rewrite Ho in Htr. unfold others_kept in *. rewrite <- Hins, <- Hadv, <- Htr. done.
Qed.

Lemma claim_receipt_others `{PgEnv} c w e x :
  respects (others_kept (c_owner_id c)) (claim_receipt c w e x).
Proof.
  unfold claim_receipt. apply respects_savepoint_Ok; [apply _|].
  intros s r s' (_ & _ & b & cur & Hctx & [[_ ->]|Hst])%claim_receipt_body_run; [done|].
  by eapply claim_stored_others.
Qed.

Ltac others_auto := respects_auto; try (apply respects_exec; [apply _|]; intros ? ? ?).

Lemma transition_binding_method_others `{PgEnv} b st v :
  respects (others_kept (b_owner_id b)) (transition_binding b st v).
Proof. unfold transition_binding. others_auto. apply transition_binding_others. Qed.

Lemma run_authority_others `{PgEnv} op :
  respects (others_kept (op_owner op)) (run_authority op).
Proof.
  destruct op; cbn [op_owner run_authority];
    (apply respects_bind; [apply _| |intros; apply respects_ret, _]).
  - unfold create_binding. others_auto. apply insert_binding_others.
  - apply transition_binding_method_others.
  - unfold activate_binding. others_auto. apply activate_binding_others.
  - unfold abandon_provisioning_binding. others_auto. apply transition_binding_method_others.
  - unfold create_lifecycle_operation. others_auto. apply insert_lifecycle_others.
  - unfold transition_lifecycle_operation. others_auto. apply transition_lifecycle_others.
  - unfold create_protected_effect. others_auto. apply insert_effect_others.
  - unfold transition_protected_effect. others_auto. apply transition_effect_others.
  - apply claim_receipt_others.
Qed.

Lemma run_calls_others `{PgEnv} owner calls :
  Forall (fun call => op_owner (snd call) = owner) calls -> respects (others_kept owner) (run_calls calls).
Proof.
  induction 1 as [|[caught op] calls Hop _ IH]; cbn [run_calls]; [apply respects_ret, _|].
  apply respects_bind; [apply _| |done]. cbn in Hop. subst owner.
  destruct caught; [apply respects_attempt|]; apply run_authority_others.
Qed.
End Writes.

(** ** Reads *)

(** The reading calls of one owner. *)
Inductive authority_read : Type -> Type :=
  | GetBinding (binding : pystr) : authority_read (option AgentAuthorityBinding)
  | GetActiveBinding (agent runtime : pystr) (generation : Z) : authority_read (option AgentAuthorityBinding)
  | GetLatestBinding (agent : pystr) (population : AuthorityPopulation)
      : authority_read (option AgentAuthorityBinding)
  | GetLifecycle (operation : pystr) : authority_read (option AuthorityLifecycleOperation)
  | ListLifecycle (due : datetime) (limit : Z) : authority_read (list AuthorityLifecycleOperation)
  | GetEffect (operation : pystr) : authority_read (option ProtectedEffectOperation)
  | ListEffects (cutoff : datetime) (limit : Z) : authority_read (list ProtectedEffectOperation).

Section Reads.
Context `{PgEnv} {S : Type} `{!OutboxStore S}.
Implicit Types db : authority_db S.

Definition run_read (owner : pystr) {A} (q : authority_read A) : SM (authority_db S) A :=
  match q with
  | GetBinding b => get_binding owner b
  | GetActiveBinding a r g => get_active_binding owner a r g
  | GetLatestBinding a p => get_latest_binding owner a p
  | GetLifecycle o => get_lifecycle_operation owner o
  | ListLifecycle d l => list_recoverable_lifecycle_operations owner d l
  | GetEffect o => get_protected_effect owner o
  | ListEffects c l => list_recoverable_protected_effects owner c l
  end.

(** A call that changes nothing and returns the same on two databases. *)
Definition agrees {A} db db' (m : SM (authority_db S) A) : Prop :=
  forall f, exists r f', m (Session db f) = (r, Session db f') /\ m (Session db' f) = (r, Session db' f').

Lemma agrees_lift {A} db db' (r : result A) : agrees db db' (lift r).
Proof. intros f. by exists r, f. Qed.

Lemma agrees_ret {A} db db' (a : A) : agrees db db' (mret a : SM _ A).
Proof. intros f. by exists (Ok a), f. Qed.

Lemma agrees_query {A} db db' (q : authority_db S -> A) : q db = q db' -> agrees db db' (query q).
Proof.
  intros Hq f. unfold query, exec. cbn. destruct f; [by eexists _, _|]. rewrite Hq. by eexists _, _.
Qed.

Lemma agrees_bind {A B} db db' (m : SM (authority_db S) A) (k : A -> SM (authority_db S) B) :
  agrees db db' m -> (forall a, agrees db db' (k a)) -> agrees db db' (m ≫= k).
Proof.
  intros Hm Hk f. unfold mbind, SM_mbind. destruct (Hm f) as (r & f' & -> & ->).
  destruct r as [a|e]; [apply Hk | by eexists _, _].
Qed.

(** Reads of [reader] on databases that differ in another owner's rows. *)
Section OtherReader.
Variables (writer reader : pystr) (db db' : authority_db S).
Hypotheses (Hneq : reader <> writer) (Hi : authority_inv db) (Hkept : others_kept writer db db').

Lemma not_of_reader {row} (owner_of : row -> pystr) r :
  owner_of r = reader -> not_of writer owner_of r = true.
Proof. intros E. unfold not_of. rewrite bool_decide_eq_false_2; [done|]. congruence. Qed.

(** What a selection of [reader]'s rows sees. *)
Lemma bindings_seen p :
  (forall r, p r = true -> rb_owner_id r = reader) ->
  rows_where p (db_bindings db) = rows_where p (db_bindings db').
Proof.
  intros Hp. apply (rows_where_narrow p (not_of writer rb_owner_id)); [auto using not_of_reader|].
  unfold others_kept, others in Hkept. congruence.
Qed.

Lemma lifecycle_seen p :
  (forall r, p r = true -> rl_owner_id r = reader) ->
  rows_where p (db_lifecycle db) = rows_where p (db_lifecycle db').
Proof.
  intros Hp. apply (rows_where_narrow p (not_of writer rl_owner_id)); [auto using not_of_reader|].
  unfold others_kept, others in Hkept. congruence.
Qed.

Lemma effects_seen p :
  (forall r, p r = true -> re_owner_id r = reader) ->
  rows_where p (db_effects db) = rows_where p (db_effects db').
Proof.
  intros Hp. apply (rows_where_narrow p (not_of writer re_owner_id)); [auto using not_of_reader|].
  unfold others_kept, others in Hkept. congruence.
Qed.

Lemma get_binding_seen b : _GET_BINDING reader b db = _GET_BINDING reader b db'.
Proof.
  apply select_one_same; [|apply bindings_seen; intros; by split_bools].
  intros. split_bools. apply (binding_unique db); auto. congruence.
Qed.

Lemma active_binding_seen a rt g : _GET_ACTIVE_BINDING reader a rt g db = _GET_ACTIVE_BINDING reader a rt g db'.
Proof.
  apply select_one_same; [|apply bindings_seen; intros; by split_bools].
  intros r1 r2 H1 H2 P1 P2. split_bools.
  apply (unique_ok_elem binding_conflict (db_bindings db)); auto using binding_conflict_sym; [apply Hi|].
  unfold binding_conflict. rewrite (bool_decide_eq_true_2 ((rb_owner_id r1, rb_agent_id r1, _, _) = _)).
  - by rewrite orb_true_r.
  - congruence.
Qed.

Lemma latest_binding_seen a p : _GET_LATEST_BINDING reader a p db = _GET_LATEST_BINDING reader a p db'.
Proof.
  unfold _GET_LATEST_BINDING. f_equal. apply select_ordered_same.
  - apply time_key_total. intros; apply collate_total.
  - apply time_key_trans. intros x y z Hxy Hyz. by apply (collate_trans _ (rb_binding_id y)).
  - intros r1 r2 H1 H2 _ _ L1 L2. destruct (time_key_antisym _ _ _ _ L1 L2) as [C1 C2].
    apply (binding_unique db); auto. by apply collate_antisym.
  - apply bindings_seen. intros. by split_bools.
Qed.

Lemma get_lifecycle_seen o : _GET_LIFECYCLE reader o db = _GET_LIFECYCLE reader o db'.
Proof.
  apply select_one_same; [|apply lifecycle_seen; intros; by split_bools].
  intros. split_bools. apply (lifecycle_unique db); auto. congruence.
Qed.

Lemma list_lifecycle_seen due limit :
  _LIST_RECOVERABLE_LIFECYCLE reader due limit db = _LIST_RECOVERABLE_LIFECYCLE reader due limit db'.
Proof.
  unfold _LIST_RECOVERABLE_LIFECYCLE, select_skip_locked. f_equal. apply select_ordered_same.
  - apply time_key_total. intros; apply collate_total.
  - apply time_key_trans. intros x y z. apply collate_trans.
  - intros r1 r2 H1 H2 _ _ L1 L2. destruct (time_key_antisym _ _ _ _ L1 L2) as [C1 C2].
    apply (lifecycle_unique db); auto. by apply collate_antisym.
  - apply lifecycle_seen. intros. by split_bools.
Qed.

Lemma get_effect_seen o : _GET_EFFECT reader o db = _GET_EFFECT reader o db'.
Proof.
  apply select_one_same; [|apply effects_seen; intros; by split_bools].
  intros. split_bools. apply (effect_unique db); auto. congruence.
Qed.

Lemma list_effects_seen cutoff limit :
  _LIST_RECOVERABLE_EFFECTS reader cutoff limit db = _LIST_RECOVERABLE_EFFECTS reader cutoff limit db'.
Proof.
  unfold _LIST_RECOVERABLE_EFFECTS, select_skip_locked. f_equal. apply select_ordered_same.
  - apply time_key_total. intros; apply collate_total.
  - apply time_key_trans. intros x y z. apply collate_trans.
  - intros r1 r2 H1 H2 _ _ L1 L2. destruct (time_key_antisym _ _ _ _ L1 L2) as [C1 C2].
    apply (effect_unique db); auto. by apply collate_antisym.
  - apply effects_seen. intros. by split_bools.
Qed.
End OtherReader.

Lemma agrees_lift_bind {A B} db db' (r : result A) (k : A -> SM (authority_db S) B) :
  (forall a, r = Ok a -> agrees db db' (k a)) -> agrees db db' (lift r ≫= k).
Proof.
  intros Hk f. unfold mbind, SM_mbind, lift. destruct r as [a|e]; [by apply Hk | by eexists _, _].
Qed.

Lemma query_identifier_Ok value field v : _require_query_identifier value field = Ok v -> v = value.
Proof.
  unfold _require_query_identifier. destruct (require_identifier value field) as [w|e] eqn:Hr.
  - intros [= <-]. by apply require_identifier_Ok in Hr as [_ ->].
  - by destruct (isinstance _ _).
Qed.

Lemma as_validation_Ok {A} msg (r : result A) a : as_validation msg r = Ok a -> r = Ok a.
Proof. unfold as_validation. destruct r as [x|e]; [done|]. by destruct (isinstance _ _). Qed.

Ltac agrees_step :=
  match goal with
  | |- agrees _ _ (lift _ ≫= _) => apply agrees_lift_bind; intros ? ?
  | |- agrees _ _ (_ ≫= _) => apply agrees_bind; [|intros ?]
  | |- agrees _ _ (mret _) => apply agrees_ret
  | |- agrees _ _ (lift _) => apply agrees_lift
  | |- agrees _ _ (query _) => apply agrees_query
  | |- agrees _ _ (match ?x with _ => _ end) => destruct x
  | Hx : _require_query_identifier _ _ = Ok _ |- _ => apply query_identifier_Ok in Hx as ->
  end.

Lemma run_read_agrees writer reader db db' {A} (q : authority_read A) :
  reader <> writer -> authority_inv db -> others_kept writer db db' ->
  agrees db db' (run_read reader q).
Proof.
  intros Hneq Hi Hk. destruct q; cbn [run_read].
  - unfold get_binding. repeat agrees_step. by eapply get_binding_seen.
  - unfold get_active_binding. repeat agrees_step. by eapply active_binding_seen.
  - unfold get_latest_binding. repeat agrees_step. by eapply latest_binding_seen.
  - unfold get_lifecycle_operation. repeat agrees_step. by eapply get_lifecycle_seen.
  - unfold list_recoverable_lifecycle_operations. repeat agrees_step.
    match goal with Hx : as_validation _ _ = Ok _ |- _ => apply as_validation_Ok in Hx end. inv_ok.
    autorewrite with plane in *. destruct_and!. simplify_eq. by eapply list_lifecycle_seen.
  - unfold get_protected_effect. repeat agrees_step. by eapply get_effect_seen.
  - unfold list_recoverable_protected_effects. repeat agrees_step. by eapply list_effects_seen.
Qed.

Lemma agrees_transaction {A} db db' (m : SM (authority_db S) A) :
  agrees db db' m -> fst (transaction m db) = fst (transaction m db').
Proof.
  intros Hm. unfold transaction. destruct (Hm false) as (r & f & -> & ->).
  destruct r; [|done]. by destruct f.
Qed.

(** The owners of what a reading call returned. *)
Definition owners_returned {A} (q : authority_read A) : A -> list pystr :=
  match q in authority_read A return A -> list pystr with
  | GetBinding _ | GetActiveBinding _ _ _ | GetLatestBinding _ _ =>
      from_option (fun b => [b_owner_id b]) []
  | GetLifecycle _ => from_option (fun o => [l_owner_id o]) []
  | ListLifecycle _ _ => fmap l_owner_id
  | GetEffect _ => from_option (fun o => [e_owner_id o]) []
  | ListEffects _ _ => fmap e_owner_id
  end.

Lemma binding_decoded_owner db r b :
  authority_inv db -> r ∈ db_bindings db -> _binding_from_row r = Ok b -> b_owner_id b = rb_owner_id r.
Proof.
  intros Hi Hr Hd. destruct (proj1 (Forall_forall _ _) (inv_bindings _ Hi) r Hr) as (b' & Hv & ->).
  rewrite binding_roundtrip in Hd by done. by simplify_eq.
Qed.

Lemma lifecycle_decoded_owner db r o :
  authority_inv db -> r ∈ db_lifecycle db -> _lifecycle_from_row r = Ok o -> l_owner_id o = rl_owner_id r.
Proof.
  intros Hi Hr Hd. destruct (proj1 (Forall_forall _ _) (inv_lifecycle _ Hi) r Hr) as (o' & Hv & ->).
  rewrite lifecycle_roundtrip in Hd by done. by simplify_eq.
Qed.

Lemma effect_decoded_owner db r o :
  authority_inv db -> r ∈ db_effects db -> _effect_from_row r = Ok o -> e_owner_id o = re_owner_id r.
Proof.
  intros Hi Hr Hd. destruct (proj1 (Forall_forall _ _) (inv_effects _ Hi) r Hr) as (o' & Hv & ->).
  rewrite effect_roundtrip in Hd by done. by simplify_eq.
Qed.

(** Rows of one owner decode to values of that owner. *)
Lemma decoded_owners {row A} (from_row : row -> result A) (owner_of : A -> pystr) (row_owner : row -> pystr)
    (t rows : list row) ys owner :
  (forall r a, r ∈ t -> from_row r = Ok a -> owner_of a = row_owner r) ->
  (forall r, r ∈ rows -> r ∈ t /\ row_owner r = owner) ->
  map_each from_row rows = Ok ys -> Forall (eq owner) (owner_of <$> ys).
Proof.
  intros Hdec Hrows Hm. apply map_each_Ok in Hm. apply Forall_fmap.
  induction Hm as [|r y rows ys Hf _ IH]; constructor; cbn.
  - destruct (Hrows r) as [Ht <-]; [left|]. symmetry. eauto.
  - apply IH. intros r' Hr'. apply Hrows. by right.
Qed.

Ltac read_row :=
  match goal with
  | Hx : select_one _ _ _ = Some _ |- _ => apply select_one_Some in Hx as [? Hx]
  | Hx : head (select_ordered _ _ _ _) = Some _ |- _ =>
      apply head_Some_elem_of, elem_of_select_ordered in Hx as [? Hx]
  end; split_bools.

Ltac reader_argument :=
  match goal with
  | Hx : _require_query_identifier _ "owner id" = Ok _ |- _ => apply query_identifier_Ok in Hx as ->
  end.

Lemma run_read_owned reader db {A} (q : authority_read A) a s :
  authority_inv db -> run_read reader q (Session db false) = (Ok a, s) ->
  Forall (eq reader) (owners_returned q a).
Proof.
  intros Hi Hr. destruct q; cbn [run_read owners_returned] in *.
  - unfold get_binding in Hr. inv_run. subst.
    destruct (_GET_BINDING _ _ _) as [r|] eqn:Hq; inv_run; subst; [|by constructor].
    unfold _GET_BINDING in Hq. read_row. repeat constructor. erewrite binding_decoded_owner; eauto.
  - unfold get_active_binding in Hr. inv_run. subst.
    destruct (_GET_ACTIVE_BINDING _ _ _ _ _) as [r|] eqn:Hq; inv_run; subst; [|by constructor].
    reader_argument.
    unfold _GET_ACTIVE_BINDING in Hq. read_row. repeat constructor. erewrite binding_decoded_owner; eauto.
  - unfold get_latest_binding in Hr. inv_run. subst.
    destruct (_GET_LATEST_BINDING _ _ _ _) as [r|] eqn:Hq; inv_run; subst; [|by constructor].
    reader_argument.
    unfold _GET_LATEST_BINDING in Hq. read_row. repeat constructor. erewrite binding_decoded_owner; eauto.
  - unfold get_lifecycle_operation in Hr. inv_run. subst.
    destruct (_GET_LIFECYCLE _ _ _) as [r|] eqn:Hq; inv_run; subst; [|by constructor].
    unfold _GET_LIFECYCLE in Hq. read_row. repeat constructor. erewrite lifecycle_decoded_owner; eauto.
  - unfold list_recoverable_lifecycle_operations in Hr. inv_run. destruct v as [owner at_]. inv_run. subst.
    match goal with Hx : as_validation _ _ = Ok _ |- _ => apply as_validation_Ok in Hx end. inv_ok.
    autorewrite with plane in *. destruct_and!. simplify_eq.
    eapply (decoded_owners _lifecycle_from_row l_owner_id rl_owner_id (db_lifecycle db)); [| |done].
    + intros. by eapply lifecycle_decoded_owner.
    + intros r [Hin Hp]%elem_of_select_skip_locked. by split_bools.
  - unfold get_protected_effect in Hr. inv_run. subst.
    destruct (_GET_EFFECT _ _ _) as [r|] eqn:Hq; inv_run; subst; [|by constructor].
    unfold _GET_EFFECT in Hq. read_row. repeat constructor. erewrite effect_decoded_owner; eauto.
  - unfold list_recoverable_protected_effects in Hr. inv_run. subst.
    reader_argument.
    eapply (decoded_owners _effect_from_row e_owner_id re_owner_id (db_effects db)); [| |done].
    + intros. by eapply effect_decoded_owner.
    + intros r [Hin Hp]%elem_of_select_skip_locked. by split_bools.
Qed.

(** C18: owners are isolated.  A transaction of any writing calls of one owner,
    whatever they return or raise, keeps every other owner's bindings,
    operations, effects and claims exactly; every reading call of another owner
    returns or raises the same before and after it; and what a reading call
    returns is the reading owner's. *)
Theorem owner_isolation writer reader calls db
    (Hreach : reachable db) (Hneq : reader <> writer)
    (Hvalid : Forall (fun call => valid_op (snd call)) calls)
    (Howner : Forall (fun call => op_owner (snd call) = writer) calls) :
  let db' := snd (transaction (run_calls calls) db) in
  others_kept writer db db'
  /\ forall A (q : authority_read A),
       fst (transaction (run_read reader q) db') = fst (transaction (run_read reader q) db)
       /\ (forall a, fst (transaction (run_read reader q) db') = Ok a ->
             Forall (eq reader) (owners_returned q a)).
Proof.
  set (db' := snd (transaction (run_calls calls) db)). cbn zeta.
  pose proof (reachable_inv db Hreach) as Hi.
  assert (others_kept writer db db') as Hk
    by (apply respects_transaction; [apply _ | by apply run_calls_others]).
  assert (authority_inv db') as Hi'
    by (apply (reachable_inv db'), (reachable_steps db); [done | by apply rtc_once; constructor]).
  split; [done|]. intros A q. split.
  - symmetry. by eapply agrees_transaction, run_read_agrees.
  - intros a Ha. destruct (transaction (run_read reader q) db') as [r d] eqn:Ht. cbn in Ha. subst r.
    apply transaction_run in Ht as (s & Hrun & _). by eapply run_read_owned.
Qed.
End Reads.

(** Another owner's reads across the claim of [sample_claim]. *)
Lemma owner_isolation_witness :
  fst (transaction (run_read (u "owner-b") (GetEffect (u "op-1"))) sample_claimed_db) = Ok None
  /\ fst (transaction (run_read (u "owner-b") (GetEffect (u "op-1"))) sample_claimed_db)
     = fst (transaction (run_read (u "owner-b") (GetEffect (u "op-1"))) sample_db).
Proof.
  split; [vm_compute; reflexivity|].
  apply (owner_isolation (u "owner-a") (u "owner-b") [(false, sample_claim_call)] sample_db).
  - apply sample_db_reachable.
  - intros Heq. vm_compute in Heq. discriminate Heq.
  - repeat constructor; cbn; apply sample_valid.
  - repeat constructor.
Defined.
