(* ===== verification/AuthorityRecovery.v ===== *)
(** * Recovery listings of the authority repository

    [list_recoverable_protected_effects] and [list_recovery_owners] order rows
    in SQL and check the order again in Python.  On a database whose text
    collation is the code-point order of Python's strings they return exactly
    the stale work; on another collation the check refuses a correct answer. *)

From S2P Require Import Prelude Regex Errors Domain Sha256 Pg AuthorityModels AuthoritySchema.
From S2P Require Import AuthoritySamples AuthorityRows Outbox OutboxSafety OutboxStore.
From S2P Require Import AuthorityRepository AuthorityInvariant AuthoritySpec AuthorityClaims.
From S2P Require Import AuthorityWitnesses AuthorityAccess AuthorityIsolation.

Section Recovery.
Context `{PgEnv} {S : Type} `{!OutboxStore S}.
Implicit Types db : authority_db S.

(** Stored effects decode. *)
Lemma effects_decode rows :
  Forall effect_wf rows ->
  exists os, map_each _effect_from_row rows = Ok os /\ rows = _effect_values <$> os /\ Forall valid_effect os.
Proof.
  induction 1 as [|r rows (o & Hv & ->) _ (os & Hm & -> & Hos)]; [by exists []|].
  exists (o :: os). split_and!; [|done|by constructor]. cbn. rewrite effect_roundtrip by done. cbn.
  by rewrite Hm.
Qed.

Lemma key_leb_total a b : key_leb a b = true \/ key_leb b a = true.
Proof. apply time_key_total. intros; apply str_leb_total. Qed.

Lemma key_leb_trans a b c : key_leb a b = true -> key_leb b c = true -> key_leb a c = true.
Proof. apply time_key_trans. intros x y z. apply str_leb_trans. Qed.

Lemma key_leb_antisym a b : key_leb a b = true -> key_leb b a = true -> a = b.
Proof.
  intros H1 H2. destruct (time_key_antisym _ _ _ _ H1 H2) as [T1 T2].
  pose proof (str_leb_antisym _ _ T1 T2). unfold key_leb, time_key_leb in *.
  destruct a as [ta sa], b as [tb sb]. cbn in *. split_bools. f_equal; lia || done.
Qed.

Lemma keys_sorted_true keys : StronglySorted (bool_rel key_leb) keys -> keys_sorted keys = true.
Proof.
  intros Hs. apply bool_decide_eq_true.
  apply sort_by_id; eauto using key_leb_total, key_leb_trans, key_leb_antisym.
Qed.

Lemma effect_stale_status cutoff o :
  effect_stale cutoff (_effect_values o) = true ->
  bool_decide (e_status o ∈ _RECOVERABLE_EFFECT_STATUSES) = true /\ instant (e_updated_at o) < cutoff.
Proof.
  unfold effect_stale. intros [Ht Hc%Z.ltb_lt]%andb_true_iff. cbn in *. split; [|done].
  by destruct (e_status o).
Qed.

Lemma effects_NoDup db : authority_inv db -> NoDup (db_effects db).
Proof.
  intros Hi. apply (unique_ok_NoDup effect_conflict); [|apply Hi]. intros r.
  unfold effect_conflict. by rewrite bool_decide_eq_true_2.
Qed.

Definition effect_key (o : ProtectedEffectOperation) : Z * pystr :=
  (instant (e_updated_at o), e_operation_id o).

Definition effect_row_le : effect_row -> effect_row -> bool :=
  time_key_leb re_updated_at (fun a b => collate (re_operation_id a) (re_operation_id b)).

(** The method on a query whose rows decode, are in scope and are in order. *)
Lemma list_effects_run owner cutoff limit db os :
  is_identifier owner = true -> 1 <= limit <= 200 ->
  _LIST_RECOVERABLE_EFFECTS owner (instant cutoff) limit db = _effect_values <$> os ->
  Forall valid_effect os -> Z.of_nat (length os) <= limit ->
  Forall (fun o => e_owner_id o = owner /\ effect_stale (instant cutoff) (_effect_values o) = true) os ->
  forall wall off, cutoff = Aware wall off ->
  transaction (list_recoverable_protected_effects owner cutoff limit) db
  = (if keys_sorted (effect_key <$> os) then Ok os
     else raise RepositoryDataError "effect recovery query returned nondeterministically ordered rows", db).
Proof.
  intros Hid [Hl1 Hl2] Hq Hv Hlen Hscope wall off ->.
  assert (map_each _effect_from_row (_effect_values <$> os) = Ok os) as Hdec.
  { apply map_each_Ok. clear -Hv. induction Hv; constructor; [by apply effect_roundtrip|done]. }
  unfold transaction, list_recoverable_protected_effects, mbind, SM_mbind, lift, _require_query_identifier.
  rewrite (proj2 (require_identifier_Ok owner _ owner)) by done. cbn [require_utc as_validation].
  rewrite instant_utc. change (wall - off) with (instant (Aware wall off)).
  rewrite (proj2 (Z.leb_le _ _) Hl1), (proj2 (Z.leb_le _ _) Hl2). cbn [andb raise_unless].
  unfold query, exec. cbn [s_failed s_db]. rewrite Hq, Hdec.
  rewrite (proj2 (Z.ltb_ge _ _) Hlen). cbn [raise_if].
  rewrite (proj2 (check_each_Ok _ _ ())).
  - unfold effect_key. by destruct (keys_sorted _).
  - eapply Forall_impl; [exact Hscope|]. intros o [-> [Hst Hup]%effect_stale_status].
    rewrite bool_decide_eq_false_2, Hst, (proj2 (Z.leb_gt _ _)); [done| |by intros []].
    cbn in *. lia.
Qed.

(** What the query returns, decoded. *)
Lemma list_effects_rows owner cutoff limit db :
  authority_inv db -> 0 <= limit ->
  exists os, _LIST_RECOVERABLE_EFFECTS owner cutoff limit db = _effect_values <$> os
    /\ Forall valid_effect os /\ Z.of_nat (length os) <= limit
    /\ Forall (fun o => e_owner_id o = owner /\ effect_stale cutoff (_effect_values o) = true) os
    /\ Forall (fun o => _effect_values o ∈ db_effects db) os
    /\ StronglySorted (bool_rel effect_row_le) (_effect_values <$> os) /\ NoDup os.
Proof.
  intros Hi Hl. set (rows := _LIST_RECOVERABLE_EFFECTS owner cutoff limit db).
  assert (forall r, r ∈ rows -> r ∈ db_effects db /\ re_owner_id r = owner /\ effect_stale cutoff r = true) as Hin.
  { intros r [Hr Hp]%elem_of_select_skip_locked. by split_bools. }
  destruct (effects_decode rows) as (os & _ & Hos & Hv).
  { apply Forall_forall. intros r [Hr _]%Hin. apply (proj1 (Forall_forall _ _) (inv_effects _ Hi) r Hr). }
  assert (Forall (fun o => _effect_values o ∈ rows) os) as Hrows
    by (rewrite Hos; apply Forall_forall; intros o Ho; by apply list_elem_of_fmap_2).
  exists os. split_and!; [done|done| | | | |].
  - rewrite <- (length_fmap _effect_values os), <- Hos.
    assert (length rows <= Z.to_nat limit)%nat by apply length_select_skip_locked. lia.
  - eapply Forall_impl; [exact Hrows|]. intros o (_ & Ho & Hst)%Hin. done.
  - eapply Forall_impl; [exact Hrows|]. intros o (Ho & _)%Hin. done.
  - rewrite <- Hos. apply StronglySorted_take, sort_by_sorted.
    + apply time_key_total. intros; apply collate_total.
    + apply time_key_trans. intros x y z. apply collate_trans.
  - apply (NoDup_fmap_1 _effect_values). rewrite <- Hos. unfold rows, _LIST_RECOVERABLE_EFFECTS, select_skip_locked.
    eapply sublist_NoDup; [|apply sublist_take]. rewrite select_ordered_perm. apply NoDup_rows_where.
    rewrite scan_perm. by apply effects_NoDup.
Qed.

(** A stale, unlocked row is listed, or the list is full of earlier rows. *)
Lemma skip_locked_complete {row} stmt (le : row -> row -> bool) p limit t r :
  (forall a b, le a b = true \/ le b a = true) ->
  (forall a b c, le a b = true -> le b c = true -> le a c = true) ->
  0 <= limit -> r ∈ t -> p r = true -> row_locked stmt row r = false ->
  let rows := select_skip_locked stmt le p limit t in
  r ∈ rows \/ (Z.of_nat (length rows) = limit /\ Forall (fun r' => le r' r = true) rows).
Proof.
  intros Htot Htr Hl Hr Hp Hlock rows. unfold rows, select_skip_locked.
  set (l := select_ordered _ _ _ t).
  assert (r ∈ l) as Hin by (apply elem_of_select_ordered; by rewrite Hp, Hlock).
  rewrite <- (take_drop (Z.to_nat limit) l) in Hin.
  apply elem_of_app in Hin as [Hin|Hd]; [by left|right]. split.
  - rewrite length_take. apply list_elem_of_lookup in Hd as [i Hi]. rewrite lookup_drop in Hi.
    apply lookup_lt_Some in Hi. lia.
  - apply Forall_forall. intros r' Hr'. eapply take_before_drop; eauto. by apply sort_by_sorted.
Qed.

Lemma effect_row_le_key (Hcoll : forall a b, collate a b = str_leb a b) a b :
  effect_row_le (_effect_values a) (_effect_values b) = key_leb (effect_key a) (effect_key b).
Proof. unfold effect_row_le, time_key_leb, key_leb. cbn. by rewrite Hcoll. Qed.

Lemma row_keys_sorted (Hcoll : forall a b, collate a b = str_leb a b) os :
  StronglySorted (bool_rel effect_row_le) (_effect_values <$> os) ->
  StronglySorted (bool_rel key_leb) (effect_key <$> os).
Proof.
  induction os as [|o os IH]; [constructor|]. rewrite !fmap_cons.
  intros [Hs HF]%StronglySorted_inv. constructor; [auto|]. apply Forall_fmap.
  rewrite Forall_fmap in HF. eapply Forall_impl; [exact HF|]. intros b. unfold bool_rel. cbn.
  by rewrite effect_row_le_key.
Qed.

(** A row in scope. *)
Lemma effect_in_scope cutoff o :
  effect_terminal (e_status o) = false -> instant (e_updated_at o) < cutoff ->
  effect_stale cutoff (_effect_values o) = true.
Proof.
  intros Ht Hu. unfold effect_stale. cbn. rewrite (proj2 (Z.ltb_lt _ _)) by done.
  clear -Ht. by destruct (e_status o).
Qed.

(** Where text collates by code point, listing an owner's recoverable
    effects always returns, changes nothing and returns distinct stored effects
    of that owner that are not terminal and were last updated before the
    cutoff, oldest first, at most [limit] of them; and it misses none: an
    unlocked effect of that kind is listed, or the list is full of effects that
    come before it. *)
Theorem recovery_effects_exact owner cutoff limit db
    (Hreach : reachable db) (Hcoll : forall a b, collate a b = str_leb a b)
    (Hid : is_identifier owner = true) (Hutc : is_ok (require_utc cutoff "updated before") = true)
    (Hl : 1 <= limit <= 200) :
  exists os, transaction (list_recoverable_protected_effects owner cutoff limit) db = (Ok os, db)
    /\ Z.of_nat (length os) <= limit /\ NoDup os
    /\ StronglySorted (bool_rel key_leb) (effect_key <$> os)
    /\ (forall o, o ∈ os -> valid_effect o /\ _effect_values o ∈ db_effects db /\ e_owner_id o = owner
         /\ effect_terminal (e_status o) = false /\ instant (e_updated_at o) < instant cutoff)
    /\ (forall o, valid_effect o -> _effect_values o ∈ db_effects db -> e_owner_id o = owner ->
         effect_terminal (e_status o) = false -> instant (e_updated_at o) < instant cutoff ->
         row_locked "effect_recoverable" effect_row (_effect_values o) = false ->
         o ∈ os \/ (Z.of_nat (length os) = limit
                    /\ forall o', o' ∈ os -> key_leb (effect_key o') (effect_key o) = true)).
Proof.
  pose proof (reachable_inv db Hreach) as Hi. destruct cutoff as [w|w off]; [done|].
  set (cutoff := Aware w off).
  destruct (list_effects_rows owner (instant cutoff) limit db Hi) as (os & Hq & Hv & Hlen & Hsc & Hin & Hsort & Hnd);
    [lia|].
  pose proof (effect_row_le_key Hcoll) as Hkey.
  pose proof (row_keys_sorted Hcoll os Hsort) as Hks.
  exists os. split_and!; try done.
  - rewrite (list_effects_run owner cutoff limit db os) with (wall := w) (off := off) by done.
    by rewrite keys_sorted_true.
  - intros o Ho. rewrite Forall_forall in Hv. rewrite Forall_forall in Hin. rewrite Forall_forall in Hsc.
    destruct (Hsc o Ho) as [Hown [Hst Hup]%effect_stale_status]. split_and!; auto.
    apply bool_decide_eq_true in Hst. clear -Hst. destruct (e_status o); try done; set_solver.
  - intros o Hvo Hino Hown Hterm Hup Hlock.
    destruct (skip_locked_complete "effect_recoverable" effect_row_le
      (fun r => bool_decide (re_owner_id r = owner) && effect_stale (instant cutoff) r) limit (db_effects db)
      (_effect_values o)) as [Hl1|[Hl1 Hl2]]; try done; try lia.
    + apply time_key_total. intros; apply collate_total.
    + apply time_key_trans. intros x y z. apply collate_trans.
    + cbn [re_owner_id _effect_values]. rewrite bool_decide_eq_true_2 by done. by apply effect_in_scope.
    + left. change (_effect_values o ∈ _LIST_RECOVERABLE_EFFECTS owner (instant cutoff) limit db) in Hl1.
      rewrite Hq in Hl1. apply list_elem_of_fmap in Hl1 as (o' & Heq & Ho').
      rewrite Forall_forall in Hv. pose proof (effect_roundtrip o' (Hv o' Ho')) as Hrt.
      rewrite <- Heq, effect_roundtrip in Hrt by done. by simplify_eq.
    + right. change (select_skip_locked _ _ _ _ _) with (_LIST_RECOVERABLE_EFFECTS owner (instant cutoff) limit db) in Hl1, Hl2.
      rewrite Hq in Hl1, Hl2. rewrite length_fmap in Hl1. split; [done|].
      rewrite Forall_fmap, Forall_forall in Hl2. intros o' Ho'. rewrite <- Hkey. by apply Hl2.
Qed.
End Recovery.

(** ** A collation that ignores case first *)

Section CaseInsensitive.

Definition ci_leb (a b : pystr) : bool :=
  if bool_decide (py_lower a = py_lower b) then str_leb a b else str_leb (py_lower a) (py_lower b).

Lemma ci_leb_total a b : ci_leb a b = true \/ ci_leb b a = true.
Proof.
  unfold ci_leb. case_bool_decide as E1; case_bool_decide as E2; try congruence; apply str_leb_total.
Qed.

Lemma ci_leb_antisym a b : ci_leb a b = true -> ci_leb b a = true -> a = b.
Proof.
  unfold ci_leb. case_bool_decide as E1; case_bool_decide as E2; try congruence.
  - apply str_leb_antisym.
  - intros H1 H2. by destruct E1; apply str_leb_antisym.
Qed.

Lemma ci_leb_trans a b c : ci_leb a b = true -> ci_leb b c = true -> ci_leb a c = true.
Proof.
  unfold ci_leb. case_bool_decide as E1; case_bool_decide as E2; case_bool_decide as E3;
    try congruence; try apply str_leb_trans.
  intros H1 H2. rewrite <- E3 in H2. destruct E1. by apply str_leb_antisym.
Qed.
End CaseInsensitive.

(** The linguistic order of a natural-language locale on ASCII letters. *)
Definition pg_linguistic : PgEnv := {|
  scan := fun _ _ l => l; scan_perm := fun _ _ l => Permutation_refl l;
  collate := ci_leb; collate_total := ci_leb_total; collate_trans := ci_leb_trans;
  collate_antisym := ci_leb_antisym; session_offset := 0; row_locked := fun _ _ _ => false;
  clock_timestamp := fun n => Z.of_nat n; pg_cntrl := is_ascii_control;
  pg_cntrl_ascii := fun _ _ => eq_refl
|}.

Definition effect_op (op nonce : string) : ProtectedEffectOperation :=
  sample_effect op nonce E_CREATED None None None 2000 0.
Definition two_effects : list (bool * authority_op) :=
  [(false, CreateBinding sample_provisioning);
   (false, CreateEffect (effect_op "op-B" "nonce-0123456789abcdeB"));
   (false, CreateEffect (effect_op "op-a" "nonce-0123456789abcdea"))].
Definition two_effects_db : authority_db outbox_table :=
  snd (transaction (run_calls (H := pg_linguistic) two_effects) (empty_db [])).

(** Where text collates otherwise, the check of the order refuses a correct
    answer: with a locale that orders letters before case, two stale effects of
    one owner and one instant make the listing raise [RepositoryDataError] for
    every limit of two or more, and the owner's recovery never proceeds. *)
Theorem recovery_listing_collation limit (Hl : 2 <= limit <= 200) :
  reachable two_effects_db
  /\ transaction (list_recoverable_protected_effects (H := pg_linguistic) (u "owner-a") (utc 9000) limit)
       two_effects_db
     = (raise RepositoryDataError "effect recovery query returned nondeterministically ordered rows",
        two_effects_db).
Proof.
  split.
  - exists []. split; [apply outbox_inv_empty|]. apply rtc_once. constructor.
    repeat constructor; vm_compute; reflexivity.
  - erewrite (list_effects_run (H := pg_linguistic) (u "owner-a") (utc 9000) limit two_effects_db
      [effect_op "op-a" "nonce-0123456789abcdea"; effect_op "op-B" "nonce-0123456789abcdeB"]);
      [| | | | | | |reflexivity].
    + vm_compute. reflexivity.
    + vm_compute. reflexivity.
    + lia.
    + unfold _LIST_RECOVERABLE_EFFECTS, select_skip_locked. rewrite take_ge.
      * vm_compute. reflexivity.
      * transitivity 2%nat; [vm_compute; lia | lia].
    + repeat constructor; vm_compute; reflexivity.
    + cbn. lia.
    + repeat constructor; vm_compute; reflexivity.
Qed.

Lemma recovery_listing_collation_witness :
  transaction (list_recoverable_protected_effects (H := pg_linguistic) (u "owner-a") (utc 9000) 2)
    two_effects_db
  = (raise RepositoryDataError "effect recovery query returned nondeterministically ordered rows",
     two_effects_db).
Proof. apply (recovery_listing_collation 2). lia. Defined.

Lemma recovery_effects_exact_witness :
  exists os, transaction (list_recoverable_protected_effects (u "owner-a") (utc 9000) 10) sample_db
             = (Ok os, sample_db) /\ sample_received ∈ os.
Proof.
  destruct (recovery_effects_exact (u "owner-a") (utc 9000) 10 sample_db) as (os & Hos & _ & _ & _ & _ & Hall).
  - apply sample_db_reachable.
  - intros a b. reflexivity.
  - vm_compute. reflexivity.
  - reflexivity.
  - lia.
  - exists os. split; [exact Hos|]. destruct (Hall sample_received) as [Hin|[Hfull _]];
      [vm_compute; reflexivity | apply (bool_decide_eq_true_1 _); vm_compute; reflexivity
      | reflexivity | reflexivity | vm_compute; reflexivity | reflexivity | exact Hin |].
    assert (fst (transaction (list_recoverable_protected_effects (u "owner-a") (utc 9000) 10) sample_db)
      = Ok [sample_received]) as Hone by (vm_compute; reflexivity).
    rewrite Hos in Hone. injection Hone as ->. vm_compute in Hfull. discriminate Hfull.
Defined.
