(* ===== verification/Pool.v ===== *)
(** * Connection custody (src/src/astralplane/database/pool.py)

    [ConnectionPool] is modelled at the grain of its critical sections: each
    [with self._state_lock] block is one function on the pool's fields, and the
    calls of the driver ([getconn], [rollback], [putconn], [closeall]) happen
    between them.  Any number of threads run [connection()] and [close()]
    interleaved; [pool_step] is one critical section or driver call of one
    thread.

    The driver is outside the program.  What is assumed of it: [getconn]
    returns a connection that is neither checked out nor closed, or raises;
    [putconn] takes the connection back, closing it when asked to, or raises
    and does not keep it for reuse.  Everything else it does is arbitrary. *)

From stdpp Require Import gmap.
From S2P Require Import Prelude Regex Errors.
#[local] Open Scope Z_scope.

(** Connection objects, by identity. *)
Abbreviation conn := nat.

Record ConnectionPool : Type := {
  _borrowed : Z;
  _closed : bool;
  _cleanup_complete : bool;
  _cleanup_failed : bool;
  _cleanup_attempts : Z;
  _discarded : gset conn
}.

Record PoolSnapshot : Type := {
  snap_borrowed : Z;
  snap_closed : bool;
  snap_cleanup_complete : bool;
  snap_cleanup_failed : bool;
  snap_cleanup_attempts : Z
}.

Definition pool_init : ConnectionPool :=
  {| _borrowed := 0; _closed := false; _cleanup_complete := false; _cleanup_failed := false;
     _cleanup_attempts := 0; _discarded := ∅ |}.

Definition snapshot (p : ConnectionPool) : PoolSnapshot :=
  {| snap_borrowed := _borrowed p; snap_closed := _closed p;
     snap_cleanup_complete := _cleanup_complete p; snap_cleanup_failed := _cleanup_failed p;
     snap_cleanup_attempts := _cleanup_attempts p |}.

(** ** The critical sections *)

Definition set_borrowed (n : Z) (p : ConnectionPool) : ConnectionPool :=
  {| _borrowed := n; _closed := _closed p; _cleanup_complete := _cleanup_complete p;
     _cleanup_failed := _cleanup_failed p; _cleanup_attempts := _cleanup_attempts p;
     _discarded := _discarded p |}.
Definition set_discarded (d : gset conn) (p : ConnectionPool) : ConnectionPool :=
  {| _borrowed := _borrowed p; _closed := _closed p; _cleanup_complete := _cleanup_complete p;
     _cleanup_failed := _cleanup_failed p; _cleanup_attempts := _cleanup_attempts p;
     _discarded := d |}.
Definition set_cleanup (closed complete failed : bool) (attempts : Z) (p : ConnectionPool)
  : ConnectionPool :=
  {| _borrowed := _borrowed p; _closed := closed; _cleanup_complete := complete;
     _cleanup_failed := failed; _cleanup_attempts := attempts; _discarded := _discarded p |}.

(** [_borrow]: admission, and undoing it when [getconn] raises. *)
Definition borrow_admit (p : ConnectionPool) : result ConnectionPool :=
  raise_if (_closed p) (Exn PoolClosedError "connection pool is closed") ;;
  Ok (set_borrowed (_borrowed p + 1) p).
Definition borrow_undo (p : ConnectionPool) : ConnectionPool := set_borrowed (_borrowed p - 1) p.
Definition borrow_error (exc : exn) : exn :=
  if negb (is_exception exc) || is_plane_error exc then exc
  else Exn PoolCheckoutError "connection checkout failed".

Definition _discard_on_return (c : conn) (p : ConnectionPool) : ConnectionPool :=
  set_discarded ({[c]} ∪ _discarded p) p.
Definition _take_discard (c : conn) (p : ConnectionPool) : bool * ConnectionPool :=
  (bool_decide (c ∈ _discarded p), set_discarded (_discarded p ∖ {[c]}) p).

(** [_release]: the [finally] block. *)
Definition release_done (p : ConnectionPool) : ConnectionPool := set_borrowed (_borrowed p - 1) p.

(** [connection()]: what the [finally] block decides and raises. *)
Definition has_discard (e : option exn) : bool :=
  match e with Some x => discard_connection (exn_cls x) | None => false end.
Definition discard_decision (body_error reset_error : option exn) (marked : bool) : bool :=
  is_some reset_error || has_discard body_error || marked.
Definition exit_error (body_error reset_error : option exn) (release_failed : bool) : option exn :=
  match body_error with
  | Some e => Some e
  | None =>
      match reset_error with
      | Some _ => Some (Exn ConnectionResetError "connection rollback failed before pool return")
      | None =>
          if release_failed
          then Some (Exn PoolReleaseError "driver pool rejected a returned connection") else None
      end
  end.

(** [close]: whether to go on, and the sections around [closeall]. *)
Definition close_admit (p : ConnectionPool) : result (option ConnectionPool) :=
  if _cleanup_complete p then Ok None
  else
    raise_unless (_borrowed p =? 0)
      (Exn PoolInUseError "cannot close a pool with borrowed connections") ;;
    Ok (Some (set_cleanup true (_cleanup_complete p) (_cleanup_failed p) (_cleanup_attempts p) p)).
Definition close_attempt (p : ConnectionPool) : option ConnectionPool :=
  if _cleanup_complete p then None
  else Some (set_cleanup (_closed p) (_cleanup_complete p) (_cleanup_failed p)
               (_cleanup_attempts p + 1) p).
Definition close_failed (p : ConnectionPool) : ConnectionPool :=
  set_cleanup (_closed p) (_cleanup_complete p) true (_cleanup_attempts p) p.
Definition close_done (p : ConnectionPool) : ConnectionPool :=
  set_cleanup (_closed p) true false (_cleanup_attempts p) p.
Definition close_error (exc : exn) : exn :=
  if negb (is_exception exc) then exc
  else Exn PoolShutdownError
    "driver pool cleanup failed; admission stays closed and a later close call retries cleanup once per call".

(** ** Threads *)

(** Where a thread stands between two critical sections. *)
Inductive pc : Type :=
  | Idle
  | Getting                                             (* in [getconn] *)
  | Body (c : conn)                                     (* in the [with] body *)
  | Rolling (c : conn) (body : option exn)              (* in [connection.rollback] *)
  | Marking (c : conn) (body reset : option exn)        (* before [_take_discard] *)
  | Putting (c : conn) (body reset : option exn) (discard : bool)  (* in [putconn] *)
  | Returned (body reset : option exn) (failed : bool)  (* before [_borrowed -= 1] *)
  | Admission                                            (* [close], past its first section *)
  | Locked                                              (* holds [_cleanup_lock] *)
  | Cleaning                                            (* in [closeall] *)
  | Cleaned (error : option exn)                        (* after [closeall] *)
  | Finished (error : option exn).                      (* returned, or raised *)

Record world : Type := {
  w_pool : ConnectionPool;
  w_lock : bool;                 (* [_cleanup_lock] is held *)
  w_out : gset conn;             (* checked out of the driver *)
  w_shut : gset conn;            (* closed by the driver *)
  w_unsafe : gset conn;          (* seen unsafe during some use *)
  w_lost : gset conn;            (* the driver refused their return *)
  w_threads : list pc
}.

Definition world_init (n : nat) : world :=
  {| w_pool := pool_init; w_lock := false; w_out := ∅; w_shut := ∅; w_unsafe := ∅;
     w_lost := ∅; w_threads := replicate n Idle |}.

(** One thread moves to [t]; the pool, the lock, the driver and the set of
    connections seen unsafe become the given ones. *)
Definition move (w : world) (i : nat) (t : pc) (p : ConnectionPool) (lock : bool)
    (out shut unsafe : gset conn) : world :=
  {| w_pool := p; w_lock := lock; w_out := out; w_shut := shut; w_unsafe := unsafe;
     w_lost := w_lost w; w_threads := <[i := t]> (w_threads w) |}.

(** [putconn] raised: the driver did not take the connection back. *)
Definition lose (c : conn) (w : world) : world :=
  {| w_pool := w_pool w; w_lock := w_lock w; w_out := w_out w; w_shut := w_shut w;
     w_unsafe := w_unsafe w; w_lost := {[c]} ∪ w_lost w; w_threads := w_threads w |}.

(** A move that touches the pool only. *)
Abbreviation move_pool w i t p := (move w i t p (w_lock w) (w_out w) (w_shut w) (w_unsafe w)).

Definition taint (b : bool) (c : conn) (s : gset conn) : gset conn := if b then {[c]} ∪ s else s.

Inductive pool_step (w : world) : world -> Prop :=
  (* _borrow *)
  | step_admit i p :
      w_threads w !! i = Some Idle -> borrow_admit (w_pool w) = Ok p ->
      pool_step w (move_pool w i Getting p)
  | step_refuse i e :
      w_threads w !! i = Some Idle -> borrow_admit (w_pool w) = Err e ->
      pool_step w (move_pool w i (Finished (Some e)) (w_pool w))
  | step_getconn i c :
      w_threads w !! i = Some Getting -> c ∉ w_out w -> c ∉ w_shut w ->
      pool_step w (move w i (Body c) (w_pool w) (w_lock w) ({[c]} ∪ w_out w) (w_shut w) (w_unsafe w))
  | step_getconn_fails i e :
      w_threads w !! i = Some Getting ->
      pool_step w (move_pool w i (Finished (Some (borrow_error e))) (borrow_undo (w_pool w)))
  (* the body: it may mark its connection, and ends with or without an error *)
  | step_mark i c :
      w_threads w !! i = Some (Body c) ->
      pool_step w (move w i (Body c) (_discard_on_return c (w_pool w)) (w_lock w) (w_out w) (w_shut w)
                     (taint true c (w_unsafe w)))
  | step_exit i c body :
      w_threads w !! i = Some (Body c) ->
      pool_step w (move w i (Rolling c body) (w_pool w) (w_lock w) (w_out w) (w_shut w)
                     (taint (has_discard body) c (w_unsafe w)))
  (* the finally block *)
  | step_rollback i c body reset :
      w_threads w !! i = Some (Rolling c body) ->
      pool_step w (move w i (Marking c body reset) (w_pool w) (w_lock w) (w_out w) (w_shut w)
                     (taint (is_some reset) c (w_unsafe w)))
  | step_take_discard i c body reset marked p :
      w_threads w !! i = Some (Marking c body reset) -> _take_discard c (w_pool w) = (marked, p) ->
      pool_step w (move_pool w i (Putting c body reset (discard_decision body reset marked)) p)
  | step_putconn i c body reset discard :
      w_threads w !! i = Some (Putting c body reset discard) ->
      pool_step w (move w i (Returned body reset false) (w_pool w) (w_lock w) (w_out w ∖ {[c]})
                     (taint discard c (w_shut w)) (w_unsafe w))
  | step_putconn_fails i c body reset discard :
      w_threads w !! i = Some (Putting c body reset discard) ->
      pool_step w (lose c (move_pool w i (Returned body reset true) (w_pool w)))
  | step_released i body reset failed :
      w_threads w !! i = Some (Returned body reset failed) ->
      pool_step w (move_pool w i (Finished (exit_error body reset failed)) (release_done (w_pool w)))
  (* close *)
  | step_close_refused i e :
      w_threads w !! i = Some Idle -> close_admit (w_pool w) = Err e ->
      pool_step w (move_pool w i (Finished (Some e)) (w_pool w))
  | step_close_complete i :
      w_threads w !! i = Some Idle -> close_admit (w_pool w) = Ok None ->
      pool_step w (move_pool w i (Finished None) (w_pool w))
  | step_close_admit i p :
      w_threads w !! i = Some Idle -> close_admit (w_pool w) = Ok (Some p) ->
      pool_step w (move_pool w i Admission p)
  | step_lock i :
      w_threads w !! i = Some Admission -> w_lock w = false ->
      pool_step w (move w i Locked (w_pool w) true (w_out w) (w_shut w) (w_unsafe w))
  | step_close_late i :
      w_threads w !! i = Some Locked -> close_attempt (w_pool w) = None ->
      pool_step w (move w i (Finished None) (w_pool w) false (w_out w) (w_shut w) (w_unsafe w))
  | step_close_attempt i p :
      w_threads w !! i = Some Locked -> close_attempt (w_pool w) = Some p ->
      pool_step w (move_pool w i Cleaning p)
  | step_closeall i error shut :
      w_threads w !! i = Some Cleaning -> w_shut w ⊆ shut ->
      pool_step w (move w i (Cleaned error) (w_pool w) (w_lock w) (w_out w) shut (w_unsafe w))
  | step_close_done i :
      w_threads w !! i = Some (Cleaned None) ->
      pool_step w (move w i (Finished None) (close_done (w_pool w)) false (w_out w) (w_shut w) (w_unsafe w))
  | step_close_failed i e :
      w_threads w !! i = Some (Cleaned (Some e)) ->
      pool_step w (move w i (Finished (Some (close_error e))) (close_failed (w_pool w)) false
                     (w_out w) (w_shut w) (w_unsafe w))
  (* a thread that finished one call starts another *)
  | step_again i error :
      w_threads w !! i = Some (Finished error) -> pool_step w (move_pool w i Idle (w_pool w)).

Definition pool_reachable (w : world) : Prop := exists n, rtc pool_step (world_init n) w.

(** ** The invariant *)

(** Threads that hold one unit of [_borrowed]. *)
Definition custody (t : pc) : bool :=
  match t with
  | Getting | Body _ | Rolling _ _ | Marking _ _ _ | Putting _ _ _ _ | Returned _ _ _ => true
  | _ => false
  end.
(** Threads that hold [_cleanup_lock]. *)
Definition locked (t : pc) : bool :=
  match t with Locked | Cleaning | Cleaned _ => true | _ => false end.
Definition cleaning (t : pc) : bool := match t with Cleaning | Cleaned _ => true | _ => false end.
Definition closing (t : pc) : bool := match t with Admission => true | _ => locked t end.

(** The connection a thread has, until the driver took it back. *)
Definition pc_conn (t : pc) : option conn :=
  match t with
  | Body c | Rolling c _ | Marking c _ _ | Putting c _ _ _ => Some c
  | _ => None
  end.
(** A thread that will look at the discard mark of its connection. *)
Definition will_take (t : pc) : option conn :=
  match t with Body c | Rolling c _ | Marking c _ _ => Some c | _ => None end.
(** A thread that is going to have its connection closed. *)
Definition condemned (marks : gset conn) (t : pc) : bool :=
  match t with
  | Body c => bool_decide (c ∈ marks)
  | Rolling c body => has_discard body || bool_decide (c ∈ marks)
  | Marking c body reset => is_some reset || has_discard body || bool_decide (c ∈ marks)
  | Putting _ _ _ discard => discard
  | _ => false
  end.

Definition count (f : pc -> bool) (l : list pc) : Z := Z.of_nat (length (rows_where f l)).

(** What the pool's fields say of the threads. *)
Record accounting (p : ConnectionPool) (lock : bool) (l : list pc) : Prop := {
  acc_borrowed : _borrowed p = count custody l;
  acc_lock : count locked l = Z.b2z lock;
  acc_closed : _closed p = true -> count custody l = 0;
  acc_closing : _closed p = false -> count closing l = 0;
  acc_complete : _cleanup_complete p = true -> _closed p = true /\ count cleaning l = 0
}.

(** Connections are held by one thread each, and those out of the driver are the
    held ones and the ones it refused. *)
Record exclusive (out lost : gset conn) (l : list pc) : Prop := {
  exc_once : NoDup (omap pc_conn l);
  exc_held : forall c, c ∈ omap pc_conn l -> (c ∈ out) /\ (c ∉ lost);
  exc_out : forall c, c ∈ out -> (c ∈ omap pc_conn l) \/ (c ∈ lost);
  exc_lost : lost ⊆ out
}.

(** A connection seen unsafe is closed, or out and going to be closed, and no
    discard mark outlives the use that set it. *)
Record quarantine (marks out shut unsafe : gset conn) (l : list pc) : Prop := {
  qua_marks : forall c, c ∈ marks -> c ∈ omap will_take l;
  qua_unsafe : forall c, c ∈ unsafe -> c ∈ shut \/ (c ∈ out
    /\ forall t, t ∈ l -> pc_conn t = Some c -> condemned marks t = true)
}.

Definition pool_inv (w : world) : Prop :=
  accounting (w_pool w) (w_lock w) (w_threads w)
  /\ exclusive (w_out w) (w_lost w) (w_threads w)
  /\ quarantine (_discarded (w_pool w)) (w_out w) (w_shut w) (w_unsafe w) (w_threads w).

Lemma count_perm f l l' : l ≡ₚ l' -> count f l = count f l'.
Proof. intros Hp. unfold count. by rewrite (rows_where_perm f l l' Hp). Qed.

Lemma count_cons f t l : count f (t :: l) = Z.b2z (f t) + count f l.
Proof. unfold count, rows_where. cbn. destruct (f t); cbn [length Z.b2z]; lia. Qed.

Lemma count_nonneg f l : 0 <= count f l.
Proof. unfold count. lia. Qed.

Lemma count_mono f g l : (forall t, f t = true -> g t = true) -> count f l <= count g l.
Proof.
  intros Hfg. induction l as [|t l IH]; [done|]. rewrite !count_cons.
  specialize (Hfg t). destruct (f t), (g t); cbn [Z.b2z]; lia || by discriminate Hfg.
Qed.

(** The order of the threads does not matter. *)
#[global] Instance accounting_perm p lock : Proper ((≡ₚ) ==> iff) (accounting p lock).
Proof.
  assert (forall l l', l ≡ₚ l' -> accounting p lock l -> accounting p lock l') as Hone.
  { intros l l' Hp []. split; rewrite <- ?(count_perm _ l l' Hp); auto. }
  intros l l' Hp. split; apply Hone; done.
Qed.

#[global] Instance exclusive_perm out lost : Proper ((≡ₚ) ==> iff) (exclusive out lost).
Proof.
  assert (forall l l', l ≡ₚ l' -> exclusive out lost l -> exclusive out lost l') as Hone.
  { intros l l' Hp [H1 H2 H3 H4]. split; [| | |done]; setoid_rewrite <- Hp; auto. }
  intros l l' Hp. split; apply Hone; done.
Qed.

#[global] Instance quarantine_perm marks out shut unsafe :
  Proper ((≡ₚ) ==> iff) (quarantine marks out shut unsafe).
Proof.
  assert (forall l l', l ≡ₚ l' -> quarantine marks out shut unsafe l -> quarantine marks out shut unsafe l') as Hone.
  { intros l l' Hp []. split; setoid_rewrite <- Hp; auto. }
  intros l l' Hp. split; apply Hone; done.
Qed.

Lemma thread_moves (l : list pc) i t :
  l !! i = Some t -> exists rest, l ≡ₚ t :: rest /\ forall t', <[i := t']> l ≡ₚ t' :: rest.
Proof.
  intros Hi. exists (delete i l). split; [by apply delete_Permutation|]. intros t'.
  rewrite insert_take_drop by (by eapply lookup_lt_Some).
  rewrite delete_take_drop. by rewrite Permutation_middle.
Qed.

(** One thread of a step, beside the others. *)
Ltac one_thread Hs Hi :=
  destruct Hs;
  match goal with
  | Ht : w_threads _ !! _ = Some _ |- _ =>
      let rest := fresh "rest" in let Hp := fresh "Hp" in let Hp' := fresh "Hp'" in
      destruct (thread_moves _ _ _ Ht) as (rest & Hp & Hp'); rewrite Hp in Hi; clear Ht Hp;
      cbn [lose move w_pool w_lock w_out w_shut w_unsafe w_lost w_threads]; rewrite Hp'; clear Hp'
  end.

Lemma step_accounting w w' :
  accounting (w_pool w) (w_lock w) (w_threads w) -> pool_step w w' ->
  accounting (w_pool w') (w_lock w') (w_threads w').
Proof.
  intros Hi Hs. one_thread Hs Hi;
    unfold borrow_admit, close_admit, close_attempt, _take_discard in *;
    destruct (w_pool w) as [b cl cc cf ca d]; cbn in *;
    destruct Hi as [Hb Hlk Hcl Hcg Hcm]; rewrite !count_cons in *; cbn in *;
    pose proof (count_nonneg custody rest); pose proof (count_nonneg locked rest);
    pose proof (count_nonneg closing rest); pose proof (count_nonneg cleaning rest);
    pose proof (count_mono locked closing rest ltac:(by intros []));
    pose proof (count_mono cleaning locked rest ltac:(by intros [])).
  all: destruct (w_lock w), cl, cc; cbn in *; inv_ok; simplify_eq; cbn in *;
    (split; rewrite ?count_cons; cbn; naive_solver lia).
Qed.

Lemma step_exclusive w w' :
  exclusive (w_out w) (w_lost w) (w_threads w) -> pool_step w w' -> exclusive (w_out w') (w_lost w') (w_threads w').
Proof.
  intros Hi Hs. one_thread Hs Hi; destruct Hi as [Hone Hheld Hout Hlost]; cbn in *;
    try (apply NoDup_cons in Hone as [Hc Hone]); split; cbn; try apply NoDup_cons; set_solver.
Qed.

(** A move that keeps the connection, the mark and the verdict of a thread. *)
Lemma quarantine_same marks out shut unsafe rest t t' :
  pc_conn t' = pc_conn t -> will_take t' = will_take t ->
  (forall c, pc_conn t = Some c -> condemned marks t = true -> condemned marks t' = true) ->
  quarantine marks out shut unsafe (t :: rest) -> quarantine marks out shut unsafe (t' :: rest).
Proof.
  intros Ep Ew Hcond [Hm Hu]. split; [cbn in *; by rewrite Ew|].
  intros c Hc. destruct (Hu c Hc) as [?|[Ho Hall]]; [by left|right]. split; [done|].
  intros x [->|Hx]%elem_of_cons Hpc; [|apply Hall; [by right|done]].
  rewrite Ep in Hpc. eapply Hcond; [done|]. apply Hall; [left|done].
Qed.

(** The connection of a thread becomes unsafe, and the thread condemned. *)
Lemma quarantine_taint marks out shut unsafe rest t c b :
  pc_conn t = Some c -> c ∈ out -> c ∉ omap pc_conn rest -> (b = true -> condemned marks t = true) ->
  quarantine marks out shut unsafe (t :: rest) -> quarantine marks out shut (taint b c unsafe) (t :: rest).
Proof.
  intros Hc Ho Hnot Hb [Hm Hu]. split; [done|]. intros c' Hc'. destruct b; [|by apply Hu].
  unfold taint in Hc'. apply elem_of_union in Hc' as [->%elem_of_singleton|Hc']; [|by apply Hu]. right. split; [done|].
  intros x [->|Hx]%elem_of_cons Hpc; [by apply Hb|]. destruct Hnot. apply list_elem_of_omap. eauto.
Qed.

(** Marks of other connections do not change a verdict. *)
Lemma condemned_marks marks marks' t :
  (forall c, pc_conn t = Some c -> (c ∈ marks <-> c ∈ marks')) -> condemned marks t = condemned marks' t.
Proof.
  intros Hm. destruct t; cbn; try done; rewrite (bool_decide_ext _ _ (Hm c eq_refl)); done.
Qed.

Lemma condemned_mono marks marks' t :
  marks ⊆ marks' -> condemned marks t = true -> condemned marks' t = true.
Proof.
  intros Hsub. destruct t; cbn; try done; rewrite ?orb_true_iff, !bool_decide_eq_true; set_solver.
Qed.

Section Moves.
Variables (marks out shut unsafe : gset conn) (rest : list pc).

Lemma quarantine_getconn c :
  c ∉ out -> c ∉ shut -> quarantine marks out shut unsafe (Getting :: rest) ->
  quarantine marks ({[c]} ∪ out) shut unsafe (Body c :: rest).
Proof.
  intros Ho Hs [Hm Hu]. split; [cbn in *; set_solver|]. intros c' Hc'.
  destruct (Hu c' Hc') as [?|[Hout Hall]]; [by left|right]. split; [set_solver|].
  intros x [->|Hx]%elem_of_cons Hpc; [cbn in Hpc; congruence|]. apply Hall; [by right|done].
Qed.

Lemma quarantine_mark c :
  c ∈ out -> c ∉ omap pc_conn rest -> quarantine marks out shut unsafe (Body c :: rest) ->
  quarantine ({[c]} ∪ marks) out shut (taint true c unsafe) (Body c :: rest).
Proof.
  intros Ho Hnot [Hm Hu]. apply quarantine_taint; try done; [by cbn; rewrite bool_decide_eq_true_2 by set_solver|].
  split; [cbn in *; set_solver|]. intros c' Hc'. destruct (Hu c' Hc') as [?|[Hout Hall]]; [by left|right].
  split; [done|]. intros x Hx Hpc. apply (condemned_mono marks); [set_solver|by apply Hall].
Qed.

Lemma quarantine_take c body reset :
  c ∉ omap pc_conn rest -> quarantine marks out shut unsafe (Marking c body reset :: rest) ->
  quarantine (marks ∖ {[c]}) out shut unsafe
    (Putting c body reset (discard_decision body reset (bool_decide (c ∈ marks))) :: rest).
Proof.
  intros Hnot [Hm Hu]. split; [cbn in *; set_solver|]. intros c' Hc'.
  destruct (Hu c' Hc') as [?|[Hout Hall]]; [by left|right]. split; [done|].
  intros x [->|Hx]%elem_of_cons Hpc; [by apply (Hall (Marking c body reset)); [left|]|].
  rewrite <- (condemned_marks marks); [apply Hall; [by right|done]|].
  intros d Hd. assert (d <> c) by (intros ->; destruct Hnot; apply list_elem_of_omap; eauto). set_solver.
Qed.

Lemma quarantine_putconn c body reset discard r :
  c ∉ omap pc_conn rest ->
  quarantine marks out shut unsafe (Putting c body reset discard :: rest) ->
  quarantine marks (out ∖ {[c]}) (taint discard c shut) unsafe (Returned body reset r :: rest).
Proof.
  intros Hnot [Hm Hu]. split; [done|]. intros c' Hc'. destruct (Hu c' Hc') as [?|[Hout Hall]].
  { left. unfold taint. destruct discard; set_solver. }
  destruct (decide (c' = c)) as [->|Hne].
  - left. pose proof (Hall (Putting c body reset discard) ltac:(left) eq_refl) as Hd. cbn in Hd.
    subst discard. unfold taint. set_solver.
  - right. split; [set_solver|]. intros x [->|Hx]%elem_of_cons Hpc; [done|]. apply Hall; [by right|done].
Qed.

(** A thread lets go of its connection, which stays out. *)
Lemma quarantine_drop t t' :
  pc_conn t' = None -> will_take t = None ->
  quarantine marks out shut unsafe (t :: rest) -> quarantine marks out shut unsafe (t' :: rest).
Proof.
  intros Hn Hw [Hm Hu]. split.
  - intros c Hc. specialize (Hm c Hc). cbn in *. rewrite Hw in Hm. destruct (will_take t'); set_solver.
  - intros c Hc. destruct (Hu c Hc) as [?|[Hout Hall]]; [by left|right]. split; [done|].
    intros x [->|Hx]%elem_of_cons Hpc; [congruence|]. apply Hall; [by right|done].
Qed.

Lemma quarantine_shut shut' l :
  shut ⊆ shut' -> quarantine marks out shut unsafe l -> quarantine marks out shut' unsafe l.
Proof. intros Hs [Hm Hu]. split; [done|]. intros c [?|?]%Hu; [left; set_solver|by right]. Qed.
End Moves.

Lemma step_quarantine w w' :
  exclusive (w_out w) (w_lost w) (w_threads w) /\
  quarantine (_discarded (w_pool w)) (w_out w) (w_shut w) (w_unsafe w) (w_threads w) ->
  pool_step w w' ->
  quarantine (_discarded (w_pool w')) (w_out w') (w_shut w') (w_unsafe w') (w_threads w').
Proof.
  intros Hi Hs. one_thread Hs Hi; destruct Hi as [[Hone Hheld _ _] Hi]; cbn in Hone, Hheld;
    try (apply NoDup_cons in Hone as [Hc Hone]);
    unfold borrow_admit, close_admit, close_attempt, _take_discard in *; inv_ok; simplify_eq;
    cbn [_discarded set_borrowed set_cleanup set_discarded borrow_undo release_done close_done close_failed];
    try (eapply quarantine_drop; [..|exact Hi]; done).
  - by apply quarantine_getconn.
  - apply quarantine_mark; [set_solver|done|done].
  - apply quarantine_taint; [done|set_solver|done|by cbn; intros ->|].
    eapply quarantine_same; [..|exact Hi]; try done. cbn. intros _ _ ->. by rewrite orb_true_r.
  - apply quarantine_taint; [done|set_solver|done|by cbn; intros ->|].
    eapply quarantine_same; [..|exact Hi]; try done. cbn. intros _ _ E. by rewrite <- orb_assoc, E, orb_true_r.
  - by apply quarantine_take.
  - by apply quarantine_putconn.
  - destruct (_cleanup_complete (w_pool w)); inv_ok; simplify_eq; try subst p; eapply quarantine_drop; [..|exact Hi]; done.
  - destruct (_cleanup_complete (w_pool w)); inv_ok; simplify_eq; try subst p; eapply quarantine_drop; [..|exact Hi]; done.
  - eapply quarantine_shut; [done|]. eapply quarantine_drop; [..|exact Hi]; done.
Qed.

Lemma pool_step_inv w w' : pool_inv w -> pool_step w w' -> pool_inv w'.
Proof.
  intros (Ha & He & Hq) Hs.
  split_and!; eauto using step_accounting, step_exclusive, step_quarantine.
Qed.

Lemma count_replicate f n : f Idle = false -> count f (replicate n Idle) = 0.
Proof. intros Hf. induction n as [|n IH]; [done|]. cbn [replicate]. by rewrite count_cons, Hf, IH. Qed.

Lemma world_init_inv n : pool_inv (world_init n).
Proof.
  assert (omap pc_conn (replicate n Idle) = []) as E by (induction n; [done|exact IHn]).
  split_and!; split; cbn [world_init w_pool w_threads w_lock w_out w_shut w_unsafe w_lost];
    rewrite ?E, ?count_replicate by done; try done; try (constructor); set_solver.
Qed.

Lemma pool_reachable_inv w : pool_reachable w -> pool_inv w.
Proof.
  intros [n Hs]. assert (pool_inv (world_init n)) as Hi by apply world_init_inv.
  induction Hs; eauto using pool_step_inv.
Qed.

Lemma count_elem f t l : t ∈ l -> f t = true -> 1 <= count f l.
Proof.
  induction 1 as [t l|t t' l _ IH]; intros Hf; rewrite count_cons.
  - rewrite Hf. pose proof (count_nonneg f l). cbn. lia.
  - specialize (IH Hf). destruct (f t'); cbn; lia.
Qed.

Lemma step_closed w w' : pool_step w w' -> _closed (w_pool w) = true -> _closed (w_pool w') = true.
Proof.
  intros Hs Hc. destruct Hs; cbn; try done;
    unfold borrow_admit, close_admit, close_attempt, _take_discard in *; rewrite ?Hc in *; cbn in *;
    repeat case_match; inv_ok; simplify_eq; try subst p; done.
Qed.

Lemma unsafe_mono w w' : rtc pool_step w w' -> w_unsafe w ⊆ w_unsafe w'.
Proof.
  induction 1 as [w|w1 w2 w3 Hs _ IH]; [done|]. transitivity (w_unsafe w2); [|done].
  clear IH. destruct Hs; cbn; unfold taint; repeat case_match; set_solver.
Qed.

(** The only step into a body is a checkout. *)
Lemma getconn_step w w' i c :
  pool_step w w' -> w_threads w !! i = Some Getting -> w_threads w' !! i = Some (Body c) ->
  (c ∉ w_out w) /\ (c ∉ w_shut w) /\ _discarded (w_pool w') = _discarded (w_pool w).
Proof.
  intros Hs Hg Hb.
  destruct Hs; cbn [lose move w_threads] in Hb;
    (destruct (decide (i0 = i)) as [->|Hne];
     [|rewrite list_lookup_insert_ne in Hb by done; congruence]);
    rewrite list_lookup_insert_eq in Hb by (by eapply lookup_lt_Some); try congruence.
  by simplify_eq.
Qed.

(** A completed cleanup stays complete, and nothing is attempted again. *)
Lemma step_complete w w' :
  pool_inv w -> pool_step w w' -> _cleanup_complete (w_pool w) = true ->
  _cleanup_complete (w_pool w') = true
  /\ _cleanup_attempts (w_pool w') = _cleanup_attempts (w_pool w) /\ w_lost w' = w_lost w.
Proof.
  intros ([_ _ Hcl _ Hcm] & _) Hs Hc. destruct (Hcm Hc) as [Hclosed Hn]. specialize (Hcl Hclosed).
  destruct Hs; cbn; try done;
    unfold borrow_admit, close_admit, close_attempt, _take_discard in *; rewrite ?Hc, ?Hclosed in *; cbn in *;
    repeat case_match; inv_ok; simplify_eq; try subst p; try done.
  all: exfalso; match goal with Ht : w_threads _ !! _ = Some ?t |- _ =>
    apply list_elem_of_lookup_2 in Ht;
    first [pose proof (count_elem custody t _ Ht eq_refl)
          |pose proof (count_elem cleaning t _ Ht eq_refl)]; lia end.
Qed.

Lemma steps_complete w w' :
  rtc pool_step w w' -> pool_inv w -> _cleanup_complete (w_pool w) = true ->
  _cleanup_complete (w_pool w') = true
  /\ _cleanup_attempts (w_pool w') = _cleanup_attempts (w_pool w) /\ w_lost w' = w_lost w.
Proof.
  induction 1 as [w|w1 w2 w3 Hs _ IH]; [done|]. intros Hi Hc.
  destruct (step_complete w1 w2 Hi Hs Hc) as (Hc2 & Ha & Hl).
  destruct (IH (pool_step_inv _ _ Hi Hs) Hc2) as (? & ? & ?). split_and!; congruence.
Qed.

(** With no thread in custody, no connection is held. *)
Lemma custody_none_held l : count custody l = 0 -> omap pc_conn l = [].
Proof.
  induction l as [|t l IH]; [done|]. rewrite count_cons. pose proof (count_nonneg custody l).
  intros Hz. cbn. destruct t; cbn in *; try lia; apply IH; lia.
Qed.

Lemma cleaning_none l : count cleaning l = 0 -> Forall (fun t => cleaning t = false) l.
Proof.
  intros Hz. apply Forall_forall. intros t Ht. destruct (cleaning t) eqn:E; [|done].
  pose proof (count_elem cleaning t l Ht E). lia.
Qed.

(** What a completed cleanup leaves: no thread has a connection or is in
    [closeall], and only what the driver refused to take back is out. *)
Record cleaned_up (w : world) : Prop := {
  cu_closed : _closed (w_pool w) = true;
  cu_complete : _cleanup_complete (w_pool w) = true;
  cu_borrowed : _borrowed (w_pool w) = 0;
  cu_held : omap pc_conn (w_threads w) = [];
  cu_quiet : Forall (fun t => cleaning t = false) (w_threads w);
  cu_out : w_out w = w_lost w
}.

Lemma complete_cleaned_up w : pool_inv w -> _cleanup_complete (w_pool w) = true -> cleaned_up w.
Proof.
  intros ([Hb _ Hcl _ Hcm] & [_ _ Hout Hlost] & _) Hc. destruct (Hcm Hc) as [Hclosed Hn].
  specialize (Hcl Hclosed). pose proof (custody_none_held _ Hcl) as Hheld.
  split; auto; [lia|by apply cleaning_none|]. rewrite Hheld in Hout.
  apply set_eq. intros c. split; [|auto]. intros [Hc'|?]%Hout; [by apply not_elem_of_nil in Hc'|done].
Qed.

(** C7: custody of connections under any interleaving of threads, over a driver
    whose [getconn] returns a connection that is neither checked out nor closed.
    [_borrowed] counts exactly the threads between admission and release.  A
    connection is out of the driver exactly when one thread holds it, and then no
    other does, or when the driver refused its return.  A closed pool has no
    borrowed connection and admits none again.  At most one thread is past the
    cleanup lock, and it cleans up only a closed pool whose cleanup is not
    complete.  Once a cleanup completed, then and ever after no thread holds a
    connection or runs [closeall], no further attempt is counted, and what is out
    of the driver is exactly what it had refused before. *)
Theorem pool_custody w (Hreach : pool_reachable w) :
  _borrowed (w_pool w) = count custody (w_threads w)
  /\ NoDup (omap pc_conn (w_threads w))
  /\ (forall c, c ∈ w_out w <-> (c ∈ omap pc_conn (w_threads w)) \/ (c ∈ w_lost w))
  /\ (forall c, c ∈ omap pc_conn (w_threads w) -> c ∉ w_lost w)
  /\ (_closed (w_pool w) = true -> count custody (w_threads w) = 0)
  /\ count locked (w_threads w) <= 1
  /\ (Cleaning ∈ w_threads w ->
        _closed (w_pool w) = true /\ _borrowed (w_pool w) = 0 /\ _cleanup_complete (w_pool w) = false)
  /\ (forall w', rtc pool_step w w' -> _closed (w_pool w) = true ->
        _closed (w_pool w') = true /\ count custody (w_threads w') = 0)
  /\ (forall w', rtc pool_step w w' -> _cleanup_complete (w_pool w) = true ->
        cleaned_up w' /\ w_out w' = w_lost w
        /\ _cleanup_attempts (w_pool w') = _cleanup_attempts (w_pool w)).
Proof.
  pose proof (pool_reachable_inv w Hreach) as Hi. pose proof Hi as ([Hb Hlk Hcl Hcg Hcm] & [Hone Hheld Hout Hlost] & _).
  assert (forall w', rtc pool_step w w' -> pool_inv w') as Hlater.
  { intros w' Hs. apply pool_reachable_inv. destruct Hreach as [n Hn]. exists n. by etransitivity. }
  split_and!; try done.
  - intros c. split; [apply Hout|]. intros [?%Hheld|?]; [naive_solver|auto].
  - intros c ?%Hheld. naive_solver.
  - rewrite Hlk. destruct (w_lock w); cbn; lia.
  - intros Hc. assert (1 <= count cleaning (w_threads w)) as Hpos by (by apply (count_elem cleaning Cleaning)).
    pose proof (count_mono cleaning locked (w_threads w) ltac:(by intros [])).
    pose proof (count_mono locked closing (w_threads w) ltac:(by intros [])).
    destruct (_closed (w_pool w)) eqn:Ec; [|specialize (Hcg eq_refl); lia].
    split_and!; [done|rewrite Hb; auto|]. destruct (_cleanup_complete (w_pool w)); [|done].
    destruct (Hcm eq_refl). lia.
  - intros w' Hs Hc. assert (_closed (w_pool w') = true) as Hc'
      by (clear -Hs Hc; induction Hs; eauto using step_closed).
    split; [done|]. by apply (Hlater w').
  - intros w' Hs Hc. destruct (steps_complete w w' Hs Hi Hc) as (Hc' & Ha & Hl).
    pose proof (complete_cleaned_up w' (Hlater w' Hs) Hc') as Hu.
    split_and!; [done| |done]. by rewrite (cu_out _ Hu).
Qed.

(** C35: an unsafe connection is never reused.  Once any use of a connection
    marked it for discard, raised an error that discards connections or failed
    to roll back, no later checkout hands that connection out; and a checkout
    never starts with a discard mark of an earlier use. *)
Theorem unsafe_never_reused w0 w w' i c
    (Hreach : pool_reachable w0) (Hlater : rtc pool_step w0 w) (Hstep : pool_step w w')
    (Hget : w_threads w !! i = Some Getting) (Hbody : w_threads w' !! i = Some (Body c)) :
  (c ∉ w_unsafe w0) /\ (c ∉ _discarded (w_pool w')).
Proof.
  assert (pool_inv w) as (_ & [_ Hheld _ _] & [Hm Hu]).
  { apply pool_reachable_inv. destruct Hreach as [n Hn]. exists n. by etransitivity. }
  destruct (getconn_step w w' i c Hstep Hget Hbody) as (Ho & Hs & Hd). split.
  - intros Hc. apply (unsafe_mono w0 w Hlater) in Hc. destruct (Hu c Hc) as [?|[? _]]; done.
  - rewrite Hd. intros Hc%Hm. apply Ho, Hheld. apply list_elem_of_omap in Hc as (t & Ht & Hw).
    apply list_elem_of_omap. exists t. split; [done|]. by destruct t.
Qed.

(** ** [close], run by one thread alone *)

(** [closeall] is the driver's answer. *)
Definition close (closeall : option exn) (p : ConnectionPool) : result unit * ConnectionPool :=
  match close_admit p with
  | Err e => (Err e, p)
  | Ok None => (Ok (), p)
  | Ok (Some p1) =>
      match close_attempt p1 with
      | None => (Ok (), p1)
      | Some p2 =>
          match closeall with
          | None => (Ok (), close_done p2)
          | Some exc => (Err (close_error exc), close_failed p2)
          end
      end
  end.

(** Shutdown.  [close] refuses a pool with borrowed connections and changes
    nothing; otherwise it closes admission for good and asks the driver to
    clean up once per call: a success completes the cleanup, after which [close]
    returns at once; a failure is recorded, raised as [PoolShutdownError] (or
    as it is, when it is not an [Exception]) and leaves admission closed and
    the next call free to try again. *)
Theorem close_exact closeall p :
  (_cleanup_complete p = true -> close closeall p = (Ok (), p))
  /\ (_cleanup_complete p = false -> _borrowed p <> 0 ->
      close closeall p = (raise PoolInUseError "cannot close a pool with borrowed connections", p))
  /\ (_cleanup_complete p = false -> _borrowed p = 0 ->
      let p' := snd (close closeall p) in
      fst (close closeall p) = match closeall with None => Ok () | Some exc => Err (close_error exc) end
      /\ _closed p' = true /\ _borrowed p' = 0 /\ _cleanup_attempts p' = _cleanup_attempts p + 1
      /\ _cleanup_complete p' = negb (is_some closeall) /\ _cleanup_failed p' = is_some closeall
      /\ borrow_admit p' = raise PoolClosedError "connection pool is closed"
      /\ (is_some closeall = true -> fst (close None p') = Ok ())
      /\ (closeall = None -> forall again, close again p' = (Ok (), p'))).
Proof.
  unfold close, close_admit, close_attempt. split_and!.
  - by intros ->.
  - intros -> Hb. by rewrite (proj2 (Z.eqb_neq _ _) Hb).
  - intros Hc Hb. rewrite Hc, Hb. destruct closeall; cbn; rewrite ?Hc, ?Hb; cbn; done.
Qed.

(** ** Executable runs *)

(** What the program does not decide at a step: which call a thread makes, what
    the body does, what the driver answers. *)
Inductive choice : Type :=
  | Go | Close | Mark | Take (c : conn) | Fail_ (e : exn) | Answer (error : option exn).

Definition do_step (w : world) (a : nat * choice) : option world :=
  let '(i, ch) := a in
  match w_threads w !! i, ch with
  | Some Idle, Go =>
      match borrow_admit (w_pool w) with
      | Ok p => Some (move_pool w i Getting p)
      | Err e => Some (move_pool w i (Finished (Some e)) (w_pool w))
      end
  | Some Idle, Close =>
      match close_admit (w_pool w) with
      | Err e => Some (move_pool w i (Finished (Some e)) (w_pool w))
      | Ok None => Some (move_pool w i (Finished None) (w_pool w))
      | Ok (Some p) => Some (move_pool w i Admission p)
      end
  | Some Getting, Take c =>
      if bool_decide (c ∈ w_out w) || bool_decide (c ∈ w_shut w) then None
      else Some (move w i (Body c) (w_pool w) (w_lock w) ({[c]} ∪ w_out w) (w_shut w) (w_unsafe w))
  | Some Getting, Fail_ e =>
      Some (move_pool w i (Finished (Some (borrow_error e))) (borrow_undo (w_pool w)))
  | Some (Body c), Mark =>
      Some (move w i (Body c) (_discard_on_return c (w_pool w)) (w_lock w) (w_out w) (w_shut w)
              (taint true c (w_unsafe w)))
  | Some (Body c), Answer body =>
      Some (move w i (Rolling c body) (w_pool w) (w_lock w) (w_out w) (w_shut w)
              (taint (has_discard body) c (w_unsafe w)))
  | Some (Rolling c body), Answer reset =>
      Some (move w i (Marking c body reset) (w_pool w) (w_lock w) (w_out w) (w_shut w)
              (taint (is_some reset) c (w_unsafe w)))
  | Some (Marking c body reset), Go =>
      let '(marked, p) := _take_discard c (w_pool w) in
      Some (move_pool w i (Putting c body reset (discard_decision body reset marked)) p)
  | Some (Putting c body reset discard), Go =>
      Some (move w i (Returned body reset false) (w_pool w) (w_lock w) (w_out w ∖ {[c]})
              (taint discard c (w_shut w)) (w_unsafe w))
  | Some (Putting c body reset discard), Fail_ _ =>
      Some (lose c (move_pool w i (Returned body reset true) (w_pool w)))
  | Some (Returned body reset failed), Go =>
      Some (move_pool w i (Finished (exit_error body reset failed)) (release_done (w_pool w)))
  | Some Admission, Go =>
      if w_lock w then None
      else Some (move w i Locked (w_pool w) true (w_out w) (w_shut w) (w_unsafe w))
  | Some Locked, Go =>
      match close_attempt (w_pool w) with
      | None => Some (move w i (Finished None) (w_pool w) false (w_out w) (w_shut w) (w_unsafe w))
      | Some p => Some (move_pool w i Cleaning p)
      end
  | Some Cleaning, Answer error =>
      Some (move w i (Cleaned error) (w_pool w) (w_lock w) (w_out w) (w_shut w) (w_unsafe w))
  | Some (Cleaned None), Go =>
      Some (move w i (Finished None) (close_done (w_pool w)) false (w_out w) (w_shut w) (w_unsafe w))
  | Some (Cleaned (Some e)), Go =>
      Some (move w i (Finished (Some (close_error e))) (close_failed (w_pool w)) false
              (w_out w) (w_shut w) (w_unsafe w))
  | Some (Finished _), Go => Some (move_pool w i Idle (w_pool w))
  | _, _ => None
  end.

Lemma do_step_sound w a w' : do_step w a = Some w' -> pool_step w w'.
Proof.
  destruct a as [i ch]. unfold do_step. intros Hd.
  repeat (case_match; try discriminate Hd); simplify_eq;
    try (by econstructor; eauto). split_bools. by apply step_getconn.
Qed.

Fixpoint do_steps (w : world) (l : list (nat * choice)) : option world :=
  match l with
  | [] => Some w
  | a :: l' => match do_step w a with Some w' => do_steps w' l' | None => None end
  end.

Lemma do_steps_sound w l w' : do_steps w l = Some w' -> rtc pool_step w w'.
Proof.
  revert w. induction l as [|a l IH]; cbn; intros w Hd; [by simplify_eq|].
  destruct (do_step w a) as [w1|] eqn:Ha; [|done]. eapply rtc_l; [by eapply do_step_sound | auto].
Qed.

(** A thread marks its connection [7]; later it is at a checkout again. *)
Definition marked_world : world :=
  default (world_init 1) (do_steps (world_init 1) [(0%nat, Go); (0%nat, Take 7%nat); (0%nat, Mark)]).
Definition checkout_world : world :=
  default (world_init 1) (do_steps marked_world
    [(0%nat, Answer None); (0%nat, Answer None); (0%nat, Go); (0%nat, Go); (0%nat, Go); (0%nat, Go);
     (0%nat, Go)]).
Definition second_world : world :=
  default (world_init 1) (do_step checkout_world (0%nat, Take 8%nat)).

Lemma marked_reachable : pool_reachable marked_world.
Proof.
  exists 1%nat. eapply (do_steps_sound _ [(0%nat, Go); (0%nat, Take 7%nat); (0%nat, Mark)]).
  vm_compute. reflexivity.
Qed.

Lemma unsafe_never_reused_witness :
  7%nat ∈ w_unsafe marked_world /\ ~ (8%nat ∈ w_unsafe marked_world).
Proof.
  split; [apply (bool_decide_eq_true_1 _); vm_compute; reflexivity|].
  apply (unsafe_never_reused marked_world checkout_world second_world 0%nat 8%nat).
  - apply marked_reachable.
  - eapply (do_steps_sound _ [(0%nat, Answer None); (0%nat, Answer None); (0%nat, Go); (0%nat, Go);
      (0%nat, Go); (0%nat, Go); (0%nat, Go)]). vm_compute. reflexivity.
  - apply (do_step_sound _ (0%nat, Take 8%nat)). vm_compute. reflexivity.
  - vm_compute. reflexivity.
  - vm_compute. reflexivity.
Defined.

(** Two threads borrow; the driver refuses one connection and takes the other
    back; a third thread closes the pool. *)
Definition closing_run : list (nat * choice) :=
  [(0%nat, Go); (1%nat, Go); (0%nat, Take 7%nat); (1%nat, Take 8%nat);
   (0%nat, Answer None); (1%nat, Answer None); (0%nat, Answer None); (1%nat, Answer None);
   (0%nat, Go); (1%nat, Go); (0%nat, Fail_ (Exn PgOperationalError "putconn")); (1%nat, Go);
   (0%nat, Go); (1%nat, Go);
   (2%nat, Close); (2%nat, Go); (2%nat, Go); (2%nat, Answer None); (2%nat, Go)].
Definition closed_world : world :=
  default (world_init 3) (do_steps (world_init 3) closing_run).
Definition shared_world : world :=
  default (world_init 3) (do_steps (world_init 3) (take 4 closing_run)).

Lemma closed_reachable : pool_reachable closed_world.
Proof. exists 3%nat. eapply (do_steps_sound _ closing_run). vm_compute. reflexivity. Qed.
Lemma shared_reachable : pool_reachable shared_world.
Proof. exists 3%nat. eapply (do_steps_sound _ (take 4 closing_run)). vm_compute. reflexivity. Qed.

(** Two connections held at once, and the end of the run: one refused. *)
Lemma pool_custody_witness :
  (_borrowed (w_pool shared_world) = 2 /\ omap pc_conn (w_threads shared_world) = [7%nat; 8%nat]
   /\ NoDup (omap pc_conn (w_threads shared_world)))
  /\ cleaned_up closed_world /\ w_lost closed_world = {[7%nat]} /\ w_out closed_world = {[7%nat]}.
Proof.
  split.
  - split; [reflexivity|]. split; [reflexivity|].
    apply (pool_custody shared_world). apply shared_reachable.
  - assert (w_lost closed_world = {[7%nat]}) as E by (vm_compute; reflexivity).
    destruct (pool_custody closed_world closed_reachable) as (_ & _ & _ & _ & _ & _ & _ & _ & Hend).
    destruct (Hend closed_world (rtc_refl _ _)) as (Hc & Hout & _); [vm_compute; reflexivity|].
    split; [exact Hc|]. split; [exact E|]. rewrite Hout. exact E.
Defined.

Lemma close_exact_witness :
  close None (close_failed pool_init) = (Ok (), snd (close None (close_failed pool_init))).
Proof.
  destruct (close_exact None (close_failed pool_init)) as (_ & _ & H).
  destruct (H eq_refl eq_refl) as (E & _).
  destruct (close None (close_failed pool_init)) as [r p']. cbn in E. rewrite E. reflexivity.
Defined.
