(* ===== verification/Transaction.v ===== *)
(** * Transactions (src/src/astralplane/database/transaction.py)

    [Transaction] is a state machine over one driver connection; its methods
    are translated with their [try], [except] and [finally] clauses written
    out, over a driver whose every call may raise any exception.
    [PlaneDatabase.transaction] borrows a connection from the pool of Pool.v,
    runs a body and commits or rolls back.

    The second half instantiates the driver with a PostgreSQL session and shows
    that the session monad of Pg.v, in which the repositories are written, is
    what these classes implement. *)

From S2P Require Import Prelude Regex Errors Pool Pg.

(** ** The driver *)

Inductive IsolationLevel : Type := READ_COMMITTED | REPEATABLE_READ | SERIALIZABLE.
Definition IsolationLevel_value (l : IsolationLevel) : string :=
  match l with
  | READ_COMMITTED => "READ COMMITTED"
  | REPEATABLE_READ => "REPEATABLE READ"
  | SERIALIZABLE => "SERIALIZABLE"
  end.

(** Statements [Transaction] issues on its own account. *)
Inductive control : Type :=
  | BEGIN_ (l : IsolationLevel) | SAVEPOINT (name : pystr)
  | ROLLBACK_TO_SAVEPOINT (name : pystr) | RELEASE_SAVEPOINT (name : pystr).

(** A connection of the driver in state [C]: what each call answers, and the
    state it leaves.  [None] for an attribute is a read that raises. *)
Class Driver (C : Type) : Type := {
  has_autocommit : bool;
  get_autocommit : C -> result bool;
  set_autocommit : bool -> C -> result unit * C;
  attr_closed : C -> option bool;
  attr_transaction_status : C -> option Z;
  conn_cursor : C -> result unit * C;
  cursor_control : control -> C -> result unit * C;
  cursor_close : C -> result unit * C;
  conn_commit : C -> result unit * C;
  conn_rollback : C -> result unit * C
}.

Definition _SAVEPOINT_NAME : regex :=
  RSeq (RChar (fun c => is_upper c || is_lower c || one_of "_" c)) (RRep 0 62 (fun c => is_alnum c || one_of "_" c)).
Definition _TRANSACTION_STATUS_UNKNOWN : Z := 4.

(** ** Transaction *)

Record Transaction (C : Type) : Type := Tx {
  _connection : C;
  _isolation : option IsolationLevel;
  _active : bool;
  _failed : bool;
  _prior_autocommit : option bool;
  _discard_required : bool
}.
Arguments Tx {C}.
Arguments _connection {C}.
Arguments _isolation {C}.
Arguments _active {C}.
Arguments _failed {C}.
Arguments _prior_autocommit {C}.
Arguments _discard_required {C}.

Section Transaction.
Context {C : Type} `{!Driver C}.
Implicit Types t : Transaction C.

Definition tx_init (connection : C) (isolation : option IsolationLevel) : Transaction C :=
  Tx connection isolation false false None false.

Definition set_connection (c : C) t :=
  Tx c (_isolation t) (_active t) (_failed t) (_prior_autocommit t) (_discard_required t).
Definition set_active (b : bool) t :=
  Tx (_connection t) (_isolation t) b (_failed t) (_prior_autocommit t) (_discard_required t).
Definition set_failed (b : bool) t :=
  Tx (_connection t) (_isolation t) (_active t) b (_prior_autocommit t) (_discard_required t).
Definition set_prior (o : option bool) t :=
  Tx (_connection t) (_isolation t) (_active t) (_failed t) o (_discard_required t).
Definition set_discard t :=
  Tx (_connection t) (_isolation t) (_active t) (_failed t) (_prior_autocommit t) true.

(** A method of the transaction: it returns or raises, and leaves a state. *)
Definition TX (A : Type) : Type := Transaction C -> result A * Transaction C.

(** A call of the connection. *)
Definition call {A} (f : C -> result A * C) : TX A := fun t =>
  let '(r, c) := f (_connection t) in (r, set_connection c t).

Definition _connection_interrupted t : bool :=
  match attr_closed (_connection t) with
  | None | Some true => true
  | Some false =>
      match attr_transaction_status (_connection t) with
      | None => true
      | Some status => status =? _TRANSACTION_STATUS_UNKNOWN
      end
  end.

(** [self._raise_if_interrupted(exc, ...)] followed by [raise]: the exception
    that leaves, and the state. *)
Definition _raise_if_interrupted (exc : exn) t : exn * Transaction C :=
  if negb (is_exception exc) || is_plane_error exc then (exc, t)
  else if _connection_interrupted t
  then (Exn TransactionStatementError "transaction statement connection was interrupted", set_discard t)
  else (exc, t).

Definition _ensure_usable t : result unit :=
  raise_unless (_active t) (Exn TransactionStateError "transaction is not active") ;;
  raise_if (_failed t) (Exn TransactionStateError "transaction is aborted and must roll back").

Definition _control (statement : control) : TX unit := fun t =>
  match call conn_cursor t with
  | (Err exc, t1) => (Err exc, t1)
  | (Ok _, t1) =>
      let '(r, t3) :=
        match call (cursor_control statement) t1 with
        | (Ok _, t2) => (Ok (), t2)
        | (Err exc, t2) => let '(exc', t3) := _raise_if_interrupted exc t2 in (Err exc', t3)
        end in
      match call cursor_close t3 with
      | (Err exc, t4) => (Err exc, t4)
      | (Ok _, t4) => (r, t4)
      end
  end.

Definition _cursor : TX unit := fun t =>
  match _ensure_usable t with
  | Err exc => (Err exc, t)
  | Ok _ =>
      match call conn_cursor t with
      | (Ok _, t1) => (Ok (), t1)
      | (Err exc, t1) =>
          let '(exc', t2) := _raise_if_interrupted exc (set_failed true t1) in (Err exc', t2)
      end
  end.

Definition _close_cursor (preserve_active_error : bool) : TX unit := fun t =>
  match call cursor_close t with
  | (Ok _, t1) => (Ok (), t1)
  | (Err exc, t1) =>
      let t2 := set_failed true t1 in
      if preserve_active_error then (Ok (), t2)
      else let '(exc', t3) := _raise_if_interrupted exc t2 in (Err exc', t3)
  end.

(** [execute], [fetch_one] and [fetch_all]: they differ in what they do with
    the cursor ([run]: execute the statement, fetch and detach the rows). *)
Definition execute {A} (run : C -> result A * C) : TX A := fun t =>
  match _cursor t with
  | (Err exc, t1) => (Err exc, t1)
  | (Ok _, t1) =>
      let '(r, t3) :=
        match call run t1 with
        | (Ok a, t2) => (Ok a, t2)
        | (Err exc, t2) =>
            let '(exc', t3) := _raise_if_interrupted exc (set_failed true t2) in (Err exc', t3)
        end in
      match _close_cursor (negb (is_ok r)) t3 with
      | (Err exc, t4) => (Err exc, t4)
      | (Ok _, t4) => (r, t4)
      end
  end.

(** [with transaction.savepoint(name):] around a body. *)
Definition tx_savepoint {A} (name : pystr) (body : TX A) : TX A := fun t =>
  match _ensure_usable t with
  | Err exc => (Err exc, t)
  | Ok _ =>
      if negb (fullmatch _SAVEPOINT_NAME name)
      then (raise TransactionStateError "savepoint name is not a safe PostgreSQL identifier", t)
      else
        match _control (SAVEPOINT name) t with
        | (Err exc, t1) => (Err exc, set_failed true t1)
        | (Ok _, t1) =>
            let failed_before := _failed t1 in
            match body t1 with
            | (Err exc, t2) =>
                match _control (ROLLBACK_TO_SAVEPOINT name) (set_failed false t2) with
                | (Err _, t3) => (Err exc, set_failed true t3)
                | (Ok _, t3) =>
                    match _control (RELEASE_SAVEPOINT name) t3 with
                    | (Err _, t4) => (Err exc, set_failed true t4)
                    | (Ok _, t4) => (Err exc, set_failed failed_before t4)
                    end
                end
            | (Ok a, t2) =>
                match _control (RELEASE_SAVEPOINT name) t2 with
                | (Err exc, t3) => (Err exc, set_failed true t3)
                | (Ok _, t3) => (Ok a, t3)
                end
            end
        end
  end.

Definition _restore_autocommit : TX unit := fun t =>
  match _prior_autocommit t with
  | None => (Ok (), t)
  | Some prior => call (set_autocommit prior) (set_prior None t)
  end.

(** The [autocommit] part of [_begin]. *)
Definition begin_autocommit : TX unit := fun t =>
  if negb has_autocommit then (Ok (), t)
  else
    let failed exc t' :=
      (Err (if negb (is_exception exc) then exc
            else Exn TransactionCleanupError "transaction connection setup failed"),
       set_discard (set_prior None t')) in
    match get_autocommit (_connection t) with
    | Err exc => failed exc t
    | Ok prior =>
        let t1 := set_prior (Some prior) t in
        if prior then
          match call (set_autocommit false) t1 with
          | (Err exc, t2) => failed exc t2
          | (Ok _, t2) => (Ok (), t2)
          end
        else (Ok (), t1)
    end.

Definition _begin : TX unit := fun t =>
  if _active t then (raise TransactionStateError "transaction is already active", t)
  else
    match begin_autocommit t with
    | (Err exc, t1) => (Err exc, t1)
    | (Ok _, t1) =>
        let t2 := set_active true t1 in
        match _isolation t2 with
        | None => (Ok (), t2)
        | Some level =>
            match _control (BEGIN_ level) t2 with
            | (Ok _, t3) => (Ok (), t3)
            | (Err exc, t3) =>
                let '(r, t4) := _restore_autocommit (set_active false t3) in
                let t5 := if is_ok r then t4 else set_discard t4 in
                let '(exc', t6) := _raise_if_interrupted exc t5 in (Err exc', t6)
            end
        end
    end.

(** The [try] block of [_finish]: what the connection did, and whether it
    raised. *)
Definition finish_connection (should_rollback : bool) t : option exn * Transaction C :=
  if should_rollback then
    match call conn_rollback t with
    | (Ok _, t1) => (None, t1)
    | (Err exc, t1) => (Some exc, set_discard t1)
    end
  else
    match call conn_commit t with
    | (Ok _, t1) => (None, t1)
    | (Err exc, t1) => let '(_, t2) := call conn_rollback (set_discard t1) in (Some exc, t2)
    end.

Definition _finish (failed : bool) : TX unit := fun t =>
  if negb (_active t) then (raise TransactionStateError "transaction is not active", t)
  else
    let should_rollback := failed || _failed t in
    let '(primary_error, t1) := finish_connection should_rollback t in
    let '(restored, t2) := _restore_autocommit (set_active false t1) in
    let t3 := if is_ok restored then t2 else set_discard t2 in
    match primary_error, restored with
    | Some exc, _ =>
        (Err (if negb (is_exception exc) then exc
              else if should_rollback
              then Exn TransactionRollbackError "transaction rollback failed"
              else Exn TransactionCommitOutcomeUnknownError "transaction commit outcome is unknown"), t3)
    | None, Err exc =>
        (Err (if negb (is_exception exc) then exc
              else Exn TransactionCleanupError "transaction connection cleanup failed"), t3)
    | None, Ok _ =>
        if _failed t3 && negb failed
        then (raise TransactionStateError "transaction rolled back after a handled command failure", t3)
        else (Ok (), t3)
    end.

(** The body of [PlaneDatabase.transaction] inside [pool.connection()]. *)
Definition transaction_body {A} (isolation : option IsolationLevel) (body : TX A) (c : C)
  : result A * Transaction C :=
  let t := tx_init c isolation in
  match _begin t with
  | (Err exc, t1) => (Err exc, t1)
  | (Ok _, t1) =>
      match body t1 with
      | (Err exc, t2) => (Err exc, snd (_finish true t2))
      | (Ok a, t2) =>
          match _finish false t2 with
          | (Err exc, t3) => (Err exc, t3)
          | (Ok _, t3) => (Ok a, t3)
          end
      end
  end.

(** ** PlaneDatabase *)

(** One use of a connection: what the block returned or raised, the pool after
    it, and the connection as it went back to the driver, with the [close]
    argument of [putconn]. *)
Record usage (A : Type) : Type := Usage {
  u_result : result A;
  u_pool : ConnectionPool;
  u_returned : option (C * bool)
}.
#[global] Arguments Usage {A}.
#[global] Arguments u_result {A}.
#[global] Arguments u_pool {A}.
#[global] Arguments u_returned {A}.

Definition error_of {A} (r : result A) : option exn :=
  match r with Err e => Some e | Ok _ => None end.

(** [with pool.connection():] around a body, by one thread: [got] is the answer
    of [getconn], a connection object in some state, and [put] that of
    [putconn]. *)
Definition with_connection {A} (got : result (conn * C)) (put : C -> bool -> option exn)
    (body : conn -> C -> ConnectionPool -> result A * C * ConnectionPool) (p : ConnectionPool) : usage A :=
  match borrow_admit p with
  | Err exc => Usage (Err exc) p None
  | Ok p1 =>
      match got with
      | Err exc => Usage (Err (borrow_error exc)) (borrow_undo p1) None
      | Ok (id, c) =>
          let '(r, c1, p2) := body id c p1 in
          let '(reset, c2) := conn_rollback c1 in
          let '(marked, p3) := _take_discard id p2 in
          let discard := discard_decision (error_of r) (error_of reset) marked in
          let failed := is_some (put c2 discard) in
          Usage (match exit_error (error_of r) (error_of reset) failed with Some exc => Err exc | None => r end)
            (release_done p3) (Some (c2, discard))
      end
  end.

Definition plane_transaction {A} (got : result (conn * C)) (put : C -> bool -> option exn)
    (isolation : option IsolationLevel) (body : TX A) (p : ConnectionPool) : usage A :=
  with_connection got put (fun id c p' =>
    let '(r, t) := transaction_body isolation body c in
    (r, _connection t,
     if negb (is_ok r) && _discard_required t then _discard_on_return id p' else p')) p.
End Transaction.
Arguments TX : clear implicits.

(** ** Outcomes *)

Section Outcomes.
Context {C : Type} `{!Driver C}.
Implicit Types t : Transaction C.

Lemma restore_discard t : _discard_required t = true -> _discard_required (snd (_restore_autocommit t)) = true.
Proof.
  unfold _restore_autocommit, call. intros Hd. destruct (_prior_autocommit t); [|done].
  by destruct (set_autocommit _ _).
Qed.

(** A commit that raised leaves the connection to be discarded. *)
Lemma finish_commit_raised t exc c :
  _active t = true -> _failed t = false -> conn_commit (_connection t) = (Err exc, c) ->
  exists t', _finish false t
    = (Err (if negb (is_exception exc) then exc
            else Exn TransactionCommitOutcomeUnknownError "transaction commit outcome is unknown"), t')
    /\ _discard_required t' = true.
Proof.
  intros Ha Hf Hc. unfold _finish. rewrite Ha, Hf. cbn [negb orb].
  unfold finish_connection, call at 1. rewrite Hc.
  destruct (call conn_rollback _) as [r1 t1] eqn:Hr.
  assert (_discard_required t1 = true) as Hd
    by (unfold call in Hr; destruct (conn_rollback _); by simplify_eq).
  destruct (_restore_autocommit (set_active false t1)) as [r2 t2] eqn:Hre.
  pose proof (restore_discard (set_active false t1) Hd) as Hd2. rewrite Hre in Hd2.
  eexists. split; [reflexivity|]. by destruct (is_ok r2).
Qed.

(** A transaction that finished without an error committed. *)
Lemma finish_ok t t' :
  _finish false t = (Ok (), t') ->
  _active t = true /\ _failed t = false /\ exists c, conn_commit (_connection t) = (Ok (), c).
Proof.
  unfold _finish. destruct (_active t) eqn:Ha; [|done]. cbn [negb orb].
  unfold finish_connection. destruct (_failed t) eqn:Hf.
  - unfold call at 1. destruct (conn_rollback _) as [[[]|e] c].
    + destruct (_restore_autocommit _) as [[[]|e] t2] eqn:Hr; [|done]. cbn.
      assert (_failed t2 = true) as ->; [|done]. unfold _restore_autocommit, call in Hr. cbn in Hr.
      destruct (_prior_autocommit t); [destruct (set_autocommit _ _)|]; by simplify_eq.
    + by destruct (_restore_autocommit _).
  - unfold call at 1. destruct (conn_commit _) as [[[]|e] c]; [by eauto|].
    destruct (call conn_rollback _) as [r t1]. by destruct (_restore_autocommit _).
Qed.

(** A mark set during a use is found at its end. *)
Lemma take_marked id p : exists p', _take_discard id (_discard_on_return id p) = (true, p').
Proof.
  unfold _take_discard. rewrite bool_decide_eq_true_2; [by eexists|]. cbn. set_solver.
Qed.

(** A driver with another [commit]. *)
Definition with_commit (commit : C -> result unit * C) (d : Driver C) : Driver C := {|
  has_autocommit := has_autocommit; get_autocommit := get_autocommit;
  set_autocommit := set_autocommit; attr_closed := attr_closed;
  attr_transaction_status := attr_transaction_status; conn_cursor := conn_cursor;
  cursor_control := cursor_control; cursor_close := cursor_close; conn_commit := commit;
  conn_rollback := conn_rollback |}.

Context {A : Type} (got : result (conn * C)) (put : C -> bool -> option exn)
  (isolation : option IsolationLevel) (body : TX C A) (p : ConnectionPool).

(** C22: a commit is reported exactly.  The block returns only if the body
    returned, nothing in it failed and the driver acknowledged the commit; and
    when the commit raised, the block never returns: it raises
    [TransactionCommitOutcomeUnknownError] (or the interrupt itself) and the
    connection goes back to the driver to be closed. *)
Theorem commit_reported_exactly :
  (forall a, u_result (plane_transaction got put isolation body p) = Ok a ->
     exists id c t1 t2 c', got = Ok (id, c) /\ _begin (tx_init c isolation) = (Ok (), t1)
       /\ body t1 = (Ok a, t2) /\ _failed t2 = false
       /\ conn_commit (_connection t2) = (Ok (), c'))
  /\ (forall id c t1 a t2 exc c', _closed p = false -> got = Ok (id, c) ->
      _begin (tx_init c isolation) = (Ok (), t1) -> body t1 = (Ok a, t2) ->
      _active t2 = true -> _failed t2 = false -> conn_commit (_connection t2) = (Err exc, c') ->
      u_result (plane_transaction got put isolation body p)
      = Err (if negb (is_exception exc) then exc
             else Exn TransactionCommitOutcomeUnknownError "transaction commit outcome is unknown")
      /\ exists c'', u_returned (plane_transaction got put isolation body p) = Some (c'', true)).
Proof.
  unfold plane_transaction, with_connection, transaction_body, borrow_admit. split.
  - intros a. destruct (_closed p); [done|]. cbn [raise_if mbind outcome_mbind outcome_bind].
    destruct got as [[id c]|e]; [|done].
    destruct (_begin _) as [[[]|e] t1] eqn:Hb.
    2: { cbn. by destruct (conn_rollback _). }
    destruct (body t1) as [[a'|e] t2] eqn:Hbody.
    2: { cbn. by destruct (conn_rollback _). }
    destruct (_finish false t2) as [[[]|e] t3] eqn:Hfin.
    2: { cbn. by destruct (conn_rollback _). }
    destruct (finish_ok t2 t3 Hfin) as (_ & Hf & c' & Hc). intros Hres.
    exists id, c, t1, t2, c'. split_and!; try done.
    cbn in Hres. destruct (conn_rollback _) as [r c2]. cbn in Hres.
    repeat case_match; congruence.
  - intros id c t1 a t2 exc c' -> -> Hb Hbody Ha Hf Hc. cbn [raise_if mbind outcome_mbind outcome_bind].
    rewrite Hb, Hbody. destruct (finish_commit_raised t2 exc c' Ha Hf Hc) as (t3 & -> & Hd).
    cbn [is_ok negb andb]. rewrite Hd. destruct (conn_rollback _) as [r c2].
    destruct (take_marked id (set_borrowed (_borrowed p + 1) p)) as [p3 ->].
    unfold discard_decision. rewrite orb_true_r. split; [done|]. by eexists.
Qed.

(** An error of the body leaves the block as it was raised, whatever the
    driver does while cleaning up; nothing is committed (any other commit of the
    driver gives the same run); and the pool has as many connections borrowed
    as before the block, with no discard mark left for this one. *)
Theorem body_error_preserved id c t1 exc t2 commit
    (Hopen : _closed p = false) (Hgot : got = Ok (id, c))
    (Hbegin : _begin (tx_init c isolation) = (Ok (), t1)) (Hbody : body t1 = (Err exc, t2)) :
  let run := plane_transaction got put isolation body p in
  u_result run = Err exc
  /\ plane_transaction (Driver0 := with_commit commit Driver0) got put isolation body p = run
  /\ _borrowed (u_pool run) = _borrowed p /\ _discarded (u_pool run) = _discarded p ∖ {[id]}.
Proof.
  assert (forall d : Driver C, _begin (Driver0 := with_commit commit d) = _begin) as Hb by done.
  assert (forall d : Driver C, _finish (Driver0 := with_commit commit d) true = _finish true) as Hf by done.
  unfold plane_transaction, with_connection, transaction_body, borrow_admit. rewrite Hopen, Hgot.
  cbn [raise_if mbind outcome_mbind outcome_bind]. rewrite Hb, Hbegin, Hbody, Hf.
  destruct (_finish true t2) as [r t3]. cbn. destruct (conn_rollback (_connection t3)) as [reset c2]. cbn.
  split_and!; [done|done|..]; destruct (_discard_required t3); cbn; lia || set_solver.
Qed.
End Outcomes.

(** ** A PostgreSQL session behind the driver *)

Section Postgres.
Context {DB : Type}.

(** What the server and the driver keep for one connection: the committed
    database, what this session sees, whether its transaction is aborted, its
    savepoints, innermost first, and the driver's [autocommit]. *)
Record pg_conn : Type := PgConn {
  pg_committed : DB;
  pg_current : DB;
  pg_aborted : bool;
  pg_savepoints : list (pystr * DB);
  pg_autocommit : bool
}.

Definition in_failed : exn := Exn PgInFailedTransaction "current transaction is aborted".

(** The savepoints from the innermost one of a name outwards. *)
Fixpoint find_savepoint (name : pystr) (l : list (pystr * DB)) : option (DB * list (pystr * DB)) :=
  match l with
  | [] => None
  | (n, db) :: l' => if bool_decide (n = name) then Some (db, l') else find_savepoint name l'
  end.

Definition pg_control (st : control) (c : pg_conn) : result unit * pg_conn :=
  let missing := (raise PgOperationalError "savepoint does not exist",
                  PgConn (pg_committed c) (pg_current c) true (pg_savepoints c) (pg_autocommit c)) in
  match st with
  | BEGIN_ _ => (Ok (), c)
  | SAVEPOINT name =>
      if pg_aborted c then (Err in_failed, c)
      else (Ok (), PgConn (pg_committed c) (pg_current c) false
                     ((name, pg_current c) :: pg_savepoints c) (pg_autocommit c))
  | ROLLBACK_TO_SAVEPOINT name =>
      match find_savepoint name (pg_savepoints c) with
      | None => missing
      | Some (db, l) =>
          (Ok (), PgConn (pg_committed c) db false ((name, db) :: l) (pg_autocommit c))
      end
  | RELEASE_SAVEPOINT name =>
      if pg_aborted c then (Err in_failed, c)
      else match find_savepoint name (pg_savepoints c) with
           | None => missing
           | Some (_, l) =>
               (Ok (), PgConn (pg_committed c) (pg_current c) false l (pg_autocommit c))
           end
  end.

(** Committing an aborted transaction rolls it back. *)
Definition pg_commit (c : pg_conn) : result unit * pg_conn :=
  let db := if pg_aborted c then pg_committed c else pg_current c in
  (Ok (), PgConn db db false [] (pg_autocommit c)).
Definition pg_rollback (c : pg_conn) : result unit * pg_conn :=
  (Ok (), PgConn (pg_committed c) (pg_committed c) false [] (pg_autocommit c)).

#[global] Instance pg_driver : Driver pg_conn := {|
  has_autocommit := true;
  get_autocommit := fun c => Ok (pg_autocommit c);
  set_autocommit := fun b c =>
    (Ok (), PgConn (pg_committed c) (pg_current c) (pg_aborted c) (pg_savepoints c) b);
  attr_closed := fun _ => Some false;
  attr_transaction_status := fun c => Some (if pg_aborted c then 3 else 2);
  conn_cursor := fun c => (Ok (), c);
  cursor_control := pg_control;
  cursor_close := fun c => (Ok (), c);
  conn_commit := pg_commit;
  conn_rollback := pg_rollback
|}.

(** A statement of the program, with the rows it returns detached. *)
Definition pg_run {A} (st : DB -> result (A * DB)) (c : pg_conn) : result A * pg_conn :=
  if pg_aborted c then (Err in_failed, c)
  else match st (pg_current c) with
       | Ok (a, db) => (Ok a, PgConn (pg_committed c) db false (pg_savepoints c) (pg_autocommit c))
       | Err e => (Err e, PgConn (pg_committed c) (pg_current c) true (pg_savepoints c) (pg_autocommit c))
       end.

(** ** Refinement *)

Definition tx_bind {A B} (f : A -> TX pg_conn B) (m : TX pg_conn A) : TX pg_conn B := fun t =>
  match m t with
  | (Ok a, t') => f a t'
  | (Err e, t') => (Err e, t')
  end.

(** What a transaction keeps while its body runs. *)
Record frame : Type := Frame {
  fr_committed : DB;
  fr_savepoints : list (pystr * DB);
  fr_autocommit : bool;
  fr_isolation : option IsolationLevel;
  fr_prior : option bool
}.

(** The transaction object for a session of Pg.v. *)
Definition tx_of (fr : frame) (extra : list (pystr * DB)) (s : session DB) : Transaction pg_conn :=
  Tx (PgConn (fr_committed fr) (s_db s) (s_failed s) (extra ++ fr_savepoints fr) (fr_autocommit fr))
     (fr_isolation fr) true (s_failed s) (fr_prior fr) false.

Definition names (l : list (pystr * DB)) : list pystr := fst <$> l.

(** An aborted session may keep savepoints that could not be released; their
    names are not those of an enclosing block. *)
Definition represents (fr : frame) (s : session DB) (t : Transaction pg_conn) : Prop :=
  exists extra, t = tx_of fr extra s /\ (s_failed s = false -> extra = [])
    /\ (forall n, n ∈ names extra -> n ∉ names (fr_savepoints fr)).

(** [implements N m b]: the body [b] on a transaction object does what [m] does
    in the session monad, wherever no enclosing savepoint has a name of [N]. *)
Definition implements {A} (N : list pystr) (m : SM DB A) (b : TX pg_conn A) : Prop :=
  forall fr s t, (forall n, n ∈ N -> n ∉ names (fr_savepoints fr)) -> represents fr s t ->
    fst (b t) = fst (m s) /\ represents fr (snd (m s)) (snd (b t)).
End Postgres.
Arguments pg_conn : clear implicits.
Arguments frame : clear implicits.

Section Refinement.
Context {DB : Type}.
#[local] Arguments _control : simpl never.
Implicit Types (fr : frame DB) (s : session DB).

Lemma represents_self fr s : represents fr s (tx_of fr [] s).
Proof. exists []. split_and!; [done|done|]. intros n Hn. by apply not_elem_of_nil in Hn. Qed.

Lemma implements_lift {A} N (r : result A) : implements N (lift r : SM DB A) (fun t => (r, t)).
Proof. by intros fr s t _ Hr. Qed.

Lemma implements_ret {A} N (a : A) : implements N (mret a : SM DB A) (fun t => (Ok a, t)).
Proof. by intros fr s t _ Hr. Qed.

Lemma implements_bind {A B} N (m : SM DB A) (f : A -> SM DB B) b g :
  implements N m b -> (forall a, implements N (f a) (g a)) -> implements N (m ≫= f) (tx_bind g b).
Proof.
  intros Hm Hf fr s t HN Hr. destruct (Hm fr s t HN Hr) as [E Hr'].
  unfold mbind, SM_mbind, tx_bind. destruct (m s) as [r s'], (b t) as [r' t']. cbn in *. subst r'.
  destruct r; [by apply Hf | done].
Qed.

(** [try: ... except Exception: pass] *)
Definition tx_attempt {A} (b : TX (pg_conn DB) A) : TX (pg_conn DB) unit := fun t => (Ok (), snd (b t)).

Lemma implements_attempt {A} N (m : SM DB A) b : implements N m b -> implements N (attempt m) (tx_attempt b).
Proof. intros Hm fr s t HN Hr. by destruct (Hm fr s t HN Hr) as [_ ?]. Qed.

Lemma implements_mono {A} N N' (m : SM DB A) b : N ⊆ N' -> implements N m b -> implements N' m b.
Proof. intros Hsub Hm fr s t HN Hr. apply Hm; [|done]. intros n Hn. apply HN. by apply Hsub. Qed.

(** No error of a live PostgreSQL session looks like an interruption. *)
Lemma not_interrupted (t : Transaction (pg_conn DB)) e : _raise_if_interrupted e t = (e, t).
Proof.
  unfold _raise_if_interrupted, _connection_interrupted. cbn.
  destruct (negb _ || _); [done|]. by destruct (pg_aborted (_connection t)).
Qed.

Lemma execute_run {A} (st : DB -> result (A * DB)) (t : Transaction (pg_conn DB)) :
  _active t = true -> _failed t = false ->
  execute (pg_run st) t
  = match pg_run st (_connection t) with
    | (Ok a, c) => (Ok a, set_connection c t)
    | (Err e, c) => (Err e, set_failed true (set_connection c t))
    end.
Proof.
  intros Ha Hf. unfold execute, _cursor, _ensure_usable, _close_cursor. rewrite Ha, Hf. unfold call. cbn.
  destruct (pg_run st (_connection t)) as [[a|e] c]; cbn; [done|]. rewrite not_interrupted. done.
Qed.

Lemma implements_exec {A} N (st : DB -> result (A * DB)) : implements N (exec st) (execute (pg_run st)).
Proof.
  intros fr s t _ (extra & -> & Hx & Hn). destruct (s_failed s) eqn:Hf.
  { unfold execute, _cursor, _ensure_usable, exec. cbn. rewrite Hf. cbn. split; [done|]. exists extra. by rewrite Hf. }
  rewrite execute_run by done. rewrite (Hx eq_refl). unfold exec, pg_run. cbn. rewrite Hf.
  destruct (st (s_db s)) as [[a db]|e]; (split; [done|]; exists []; split_and!;
    [unfold tx_of, set_connection, set_failed; cbn; by rewrite ?Hf|done|]);
    intros n Hc; by apply not_elem_of_nil in Hc.
Qed.

Lemma control_run st (t : Transaction (pg_conn DB)) :
  _control st t = let '(r, c) := pg_control st (_connection t) in (r, set_connection c t).
Proof.
  unfold _control, call. cbn. destruct (pg_control st (_connection t)) as [[[]|e] c]; cbn; [done|].
  by rewrite not_interrupted.
Qed.

Lemma find_savepoint_skip name (extra l : list (pystr * DB)) db :
  (name ∉ names extra) -> find_savepoint name (extra ++ (name, db) :: l) = Some (db, l).
Proof.
  induction extra as [|[n d] extra IH]; cbn; intros Hn.
  - by rewrite bool_decide_eq_true_2.
  - apply not_elem_of_cons in Hn as [Hne Hn]. rewrite bool_decide_eq_false_2 by congruence. auto.
Qed.

Lemma implements_savepoint {A} N name (m : SM DB A) b :
  fullmatch _SAVEPOINT_NAME name = true -> (name ∉ N) -> implements N m b ->
  implements (name :: N) (savepoint m) (tx_savepoint name b).
Proof.
  intros Hname Hnot Hm fr s t HN (extra & -> & Hx & Hn).
  unfold tx_savepoint, savepoint, _ensure_usable. cbn [_active _failed tx_of].
  destruct (s_failed s) eqn:Hf; [cbn; split; [done|]; exists extra; by rewrite Hf|].
  rewrite (Hx eq_refl), Hname. cbn [raise_unless raise_if mbind outcome_mbind outcome_bind negb].
  rewrite control_run. cbn. rewrite Hf.
  set (fr' := Frame (fr_committed fr) ((name, s_db s) :: fr_savepoints fr) (fr_autocommit fr)
                    (fr_isolation fr) (fr_prior fr)).
  match goal with |- context [b ?t1] => replace t1 with (tx_of fr' [] s) by (unfold tx_of; by rewrite Hf) end.
  destruct (Hm fr' s (tx_of fr' [] s)) as [E Hr]; [|apply represents_self|].
  { intros n Hin. cbn. apply not_elem_of_cons. split; [by intros ->|]. apply HN. by right. }
  destruct (m s) as [r s'], (b (tx_of fr' [] s)) as [r' t']. cbn [fst snd] in *. subst r'.
  destruct Hr as (ex & -> & Hex & Hnames). cbn in Hnames. destruct r as [a|e].
  - rewrite control_run. cbn. destruct (s_failed s') eqn:Hf'; cbn.
    + split; [done|]. exists (ex ++ [(name, s_db s)]). split_and!; [|by rewrite Hf'|].
      * unfold tx_of. cbn. by rewrite Hf', <- app_assoc.
      * intros n. unfold names. rewrite fmap_app. intros [Hin|Hin]%elem_of_app.
        -- specialize (Hnames n Hin). by apply not_elem_of_cons in Hnames as [_ ?].
        -- apply list_elem_of_singleton in Hin as ->. apply HN. left.
    + rewrite (Hex eq_refl). cbn. rewrite bool_decide_eq_true_2 by done. cbn. split; [done|].
      exists []. split_and!; [unfold tx_of; by rewrite Hf'|done|].
      intros n Hc. by apply not_elem_of_nil in Hc.
  - rewrite control_run. cbn. rewrite find_savepoint_skip by (intros Hin; apply (Hnames _ Hin); left).
    rewrite control_run. cbn. rewrite bool_decide_eq_true_2 by done. cbn. split; [done|].
    exists []. split_and!; [unfold tx_of, set_failed; cbn; by rewrite ?Hf|done|].
    intros n Hc. by apply not_elem_of_nil in Hc.
Qed.

(** A fresh connection, and the frame of a transaction on it. *)
Definition idle_conn (db : DB) (autocommit : bool) : pg_conn DB := PgConn db db false [] autocommit.
Definition first_frame (db : DB) (autocommit : bool) (isolation : option IsolationLevel) : frame DB :=
  Frame db [] false isolation (Some autocommit).

Lemma begin_run db autocommit isolation :
  _begin (tx_init (idle_conn db autocommit) isolation)
  = (Ok (), tx_of (first_frame db autocommit isolation) [] (Session db false)).
Proof. destruct autocommit, isolation; unfold _begin; cbn; rewrite ?control_run; done. Qed.

(** Finishing commits what a session that did not fail has, and nothing else. *)
Lemma finish_run db autocommit isolation extra s failed :
  exists t', _finish failed (tx_of (first_frame db autocommit isolation) extra s)
    = (if failed then Ok ()
       else if s_failed s
       then raise TransactionStateError "transaction rolled back after a handled command failure"
       else Ok (), t')
    /\ _connection t' = idle_conn (if failed || s_failed s then db else s_db s) autocommit
    /\ _discard_required t' = false.
Proof.
  unfold _finish, finish_connection. cbn. destruct failed, (s_failed s) eqn:Hf; cbn; rewrite ?Hf; cbn;
    eexists; split_and!; done.
Qed.

(** C6: transactions refine the session monad.  For a body that implements a
    method [m] of Pg.v, a transaction on a live PostgreSQL connection returns or
    raises what [transaction m] does, the database it leaves committed is the
    one [transaction m] leaves, and the connection goes back idle, with its
    autocommit mode restored, to be kept unless the error asks to discard it.
    Statements, sequences and, under names not in use, savepoints implement
    their counterparts of Pg.v. *)
Theorem transaction_refines {A} N (m : SM DB A) b db id autocommit isolation p
    (Himpl : implements N m b) (Hopen : _closed p = false) (Hmark : ~ (id ∈ _discarded p)) :
  plane_transaction (Ok (id, idle_conn db autocommit)) (fun _ _ => None) isolation b p
  = Usage (fst (transaction m db)) (set_discarded (_discarded p ∖ {[id]}) p)
      (Some (idle_conn (snd (transaction m db)) autocommit, has_discard (error_of (fst (transaction m db)))))
  /\ (forall (B : Type) (st : DB -> result (B * DB)), implements N (exec st) (execute (pg_run st)))
  /\ (forall (B : Type) (f : A -> SM DB B) g, (forall a, implements N (f a) (g a)) ->
        implements N (m ≫= f) (tx_bind g b))
  /\ (forall name, fullmatch _SAVEPOINT_NAME name = true -> ~ (name ∈ N) ->
        implements (name :: N) (savepoint m) (tx_savepoint name b)).
Proof.
  split; [|split_and!; intros; [apply implements_exec | by apply implements_bind | by apply implements_savepoint]].
  unfold plane_transaction, with_connection, borrow_admit, transaction_body, transaction. rewrite Hopen.
  cbn [raise_if mbind outcome_mbind outcome_bind]. rewrite begin_run.
  destruct (Himpl (first_frame db autocommit isolation) (Session db false)
    (tx_of (first_frame db autocommit isolation) [] (Session db false))) as [E Hr];
    [intros n _ Hn; by apply not_elem_of_nil in Hn | apply represents_self|].
  destruct (m (Session db false)) as [r s'], (b _) as [r' t2]. cbn [fst snd] in *. subst r'.
  destruct Hr as (extra & -> & _). destruct r as [a|e].
  - destruct (finish_run db autocommit isolation extra s' false) as (t3 & -> & Hc & Hd). cbn [orb] in Hc.
    destruct (s_failed s'); cbn [is_ok negb andb]; rewrite ?Hd, Hc; cbn; rewrite bool_decide_eq_false_2 by done;
      cbn; f_equal; unfold release_done, set_borrowed, set_discarded; cbn; f_equal; lia.
  - destruct (finish_run db autocommit isolation extra s' true) as (t3 & -> & Hc & Hd). cbn [orb] in Hc.
    cbn [is_ok negb andb snd]. rewrite Hd, Hc. cbn. rewrite bool_decide_eq_false_2 by done.
    unfold discard_decision. cbn. rewrite orb_false_r.
    f_equal; unfold release_done, set_borrowed, set_discarded; cbn; f_equal; lia.
Qed.
End Refinement.

(** ** Reusing the name of an enclosing savepoint *)

Section NameReuse.
Variable name : pystr.
Hypothesis safe : fullmatch _SAVEPOINT_NAME name = true.

Definition store (v : Z) (db : Z) : result (unit * Z) := Ok ((), v).
Definition refused (db : Z) : result (unit * Z) := raise PgCheckViolation "new row violates check constraint".

(** A block that writes, then runs an inner block of the same name whose only
    statement fails and is caught. *)
Definition inner_block : TX (pg_conn Z) unit := tx_savepoint name (tx_attempt (execute (pg_run refused))).
Definition outer_block : TX (pg_conn Z) unit :=
  tx_savepoint name (tx_bind (fun _ => inner_block) (execute (pg_run (store 1)))).

(** The same blocks in the session monad, where a block that raises leaves the
    database as it found it. *)
Definition outer_session : SM Z unit :=
  savepoint (exec (store 1) ;; savepoint (attempt (exec refused))).

#[local] Arguments _control : simpl never.
#[local] Arguments execute : simpl never.
#[local] Arguments inner_block : simpl never.

Lemma inner_run fr db :
  inner_block (tx_of fr [] (Session db false)) = (Err in_failed, tx_of fr [(name, db)] (Session db true)).
Proof.
  unfold inner_block, tx_savepoint, _ensure_usable. cbn. rewrite safe, control_run. cbn.
  unfold tx_attempt. rewrite execute_run by done. cbn. rewrite control_run. done.
Qed.

Lemma outer_run fr db :
  outer_block (tx_of fr [] (Session db false)) = (Err in_failed, tx_of fr [(name, db)] (Session 1 false)).
Proof.
  unfold outer_block, tx_savepoint, _ensure_usable. cbn. rewrite safe, control_run. cbn.
  unfold tx_bind. rewrite execute_run by done. cbn.
  set (fr' := Frame (fr_committed fr) ((name, db) :: fr_savepoints fr) (fr_autocommit fr)
                    (fr_isolation fr) (fr_prior fr)).
  match goal with |- context [inner_block ?t] => change t with (tx_of fr' [] (Session 1 false)) end.
  rewrite inner_run. rewrite control_run. cbn. rewrite bool_decide_eq_true_2 by done. cbn.
  rewrite control_run. cbn. by rewrite bool_decide_eq_true_2 by done.
Qed.

(** A savepoint block nested in one of the same name breaks the outer
    block's atomicity.  After a statement that failed and was caught in the
    inner block, both blocks raise, yet the outer block's write stays and is
    committed; under the session monad, where names do not matter, it is rolled
    back. *)
Theorem savepoint_name_reuse id autocommit isolation p
    (Hopen : _closed p = false) (Hmark : ~ (id ∈ _discarded p)) :
  (exists t, outer_block (tx_of (first_frame 0 autocommit isolation) [] (Session 0 false)) = (Err in_failed, t))
  /\ plane_transaction (Ok (id, idle_conn 0 autocommit)) (fun _ _ => None) isolation (tx_attempt outer_block) p
     = Usage (Ok ()) (set_discarded (_discarded p ∖ {[id]}) p) (Some (idle_conn 1 autocommit, false))
  /\ transaction (attempt outer_session) 0 = (Ok (), 0).
Proof.
  split_and!; [eexists; apply outer_run| |done].
  unfold plane_transaction, with_connection, borrow_admit, transaction_body. rewrite Hopen.
  cbn [raise_if mbind outcome_mbind outcome_bind]. rewrite begin_run. unfold tx_attempt. rewrite outer_run.
  destruct (finish_run 0 autocommit isolation [(name, 0)] (Session 1 false) false) as (t3 & E & Hc & Hd).
  cbn [snd]. rewrite E. cbn in Hc |- *. rewrite Hc. cbn. rewrite bool_decide_eq_false_2 by done. cbn.
  f_equal. unfold release_done, set_borrowed, set_discarded. cbn. f_equal. lia.
Qed.
End NameReuse.

(** ** Concrete instances *)

Lemma savepoint_name_reuse_witness :
  u_returned (plane_transaction (Ok (3%nat, idle_conn 0 true)) (fun _ _ => None) None
                (tx_attempt (outer_block (u "step"))) pool_init) = Some (idle_conn 1 true, false).
Proof.
  destruct (savepoint_name_reuse (u "step") eq_refl 3%nat true None pool_init) as (_ & E & _);
    [reflexivity | apply not_elem_of_empty |]. rewrite E. reflexivity.
Defined.

(** A connection whose commit is lost. *)
Definition lost_commit : Driver (pg_conn Z) :=
  with_commit (fun c => (raise PgOperationalError "server closed the connection unexpectedly", c)) pg_driver.

Lemma commit_reported_exactly_witness :
  u_result (plane_transaction (Driver0 := lost_commit) (Ok (3%nat, idle_conn 0 false)) (fun _ _ => None) None
              (execute (Driver0 := lost_commit) (pg_run (store 1))) pool_init)
  = raise TransactionCommitOutcomeUnknownError "transaction commit outcome is unknown".
Proof.
  destruct (commit_reported_exactly (Driver0 := lost_commit) (Ok (3%nat, idle_conn 0 false)) (fun _ _ => None) None
    (execute (Driver0 := lost_commit) (pg_run (store 1))) pool_init) as [_ H].
  edestruct (H 3%nat (idle_conn 0 false)) as [E _]; [reflexivity | reflexivity | reflexivity | reflexivity
    | reflexivity | reflexivity | reflexivity | exact E].
Defined.

Lemma body_error_preserved_witness :
  u_result (plane_transaction (Ok (3%nat, idle_conn 0 false)) (fun _ _ => None) (Some SERIALIZABLE)
              (execute (pg_run refused)) pool_init)
  = raise PgCheckViolation "new row violates check constraint".
Proof.
  eapply (body_error_preserved (Ok (3%nat, idle_conn 0 false)) (fun _ _ => None) (Some SERIALIZABLE)
    (execute (pg_run refused)) pool_init 3%nat (idle_conn 0 false) _ _ _ pg_rollback);
    reflexivity.
Defined.

Lemma transaction_refines_witness :
  u_result (plane_transaction (Ok (3%nat, idle_conn 0 false)) (fun _ _ => None) None
              (execute (pg_run (store 1))) pool_init) = Ok ().
Proof.
  destruct (transaction_refines [] (exec (store 1)) (execute (pg_run (store 1))) 0 3%nat false None pool_init) as [E _].
  - apply implements_exec.
  - reflexivity.
  - apply not_elem_of_empty.
  - rewrite E. reflexivity.
Defined.
