(* ===== verification/FaultyDriver.v ===== *)
(** * A PostgreSQL session behind a driver that fails

    The driver of Transaction.v over a live session, in which any call may
    raise, before or after it had its effect on the server: a statement that is
    lost, a commit whose acknowledgement is lost, a rollback, an [autocommit]
    switch or a cursor that breaks.  The lemmas follow the committed database
    through [Transaction] and [PlaneDatabase.transaction] under every such
    plan of failures. *)

From S2P Require Import Prelude Regex Errors Pool Pg Transaction.

(** What happens to a call. *)
Inductive fault : Type := NoFault | Before (e : exn) | After (e : exn).

(** A plan of failures: for each call of a connection, by its number, and for
    the attributes that are read. *)
Record fault_plan : Type := {
  fp_call : nat -> fault;
  fp_get_autocommit : option exn;
  fp_closed : nat -> option bool;
  fp_status : nat -> option Z
}.

(** No call fails. *)
Definition calm_plan : fault_plan :=
  {| fp_call := fun _ => NoFault; fp_get_autocommit := None; fp_closed := fun _ => Some false; fp_status := fun _ => Some 2 |}.

(** A session and the number of calls so far. *)
Record fconn (DB : Type) : Type := Fconn { fc_session : pg_conn DB; fc_calls : nat }.
Arguments Fconn {DB}.
Arguments fc_session {DB}.
Arguments fc_calls {DB}.

(** Methods of a transaction in sequence. *)
#[global] Instance TX_mret {C : Type} : MRet (TX C) := fun A a t => (Ok a, t).
#[global] Instance TX_mbind {C : Type} : MBind (TX C) := fun A B f m t =>
  match m t with
  | (Ok a, t') => f a t'
  | (Err e, t') => (Err e, t')
  end.
Definition tx_lift {C A : Type} (r : result A) : TX C A := fun t => (r, t).

Lemma tx_bind_Ok {C A B : Type} (m : TX C A) (f : A -> TX C B) t b t' :
  (m ≫= f) t = (Ok b, t') <-> exists a t1, m t = (Ok a, t1) /\ f a t1 = (Ok b, t').
Proof.
  unfold mbind, TX_mbind. destruct (m t) as [[a|e] t1]; split; [eauto| |done|]; intros (a' & t2 & [=] & ?); by subst.
Qed.
Lemma tx_lift_Ok {C A : Type} (r : result A) (t : Transaction C) a t' : tx_lift r t = (Ok a, t') <-> r = Ok a /\ t' = t.
Proof. unfold tx_lift. split; [by intros [= -> ->]|by intros [-> ->]]. Qed.

Section Driver.
Context {DB : Type} (plan : fault_plan).

Definition faulty {A} (f : pg_conn DB -> result A * pg_conn DB) (c : fconn DB) : result A * fconn DB :=
  let '(r, s) := f (fc_session c) in
  match fp_call plan (fc_calls c) with
  | NoFault => (r, Fconn s (S (fc_calls c)))
  | Before e => (Err e, Fconn (fc_session c) (S (fc_calls c)))
  | After e => (Err e, Fconn s (S (fc_calls c)))
  end.

(** Cursors and the mode of the driver have no effect on the server. *)
Definition no_effect (c : pg_conn DB) : result unit * pg_conn DB := (Ok (), c).

Definition switch_autocommit (b : bool) (c : pg_conn DB) : result unit * pg_conn DB :=
  (Ok (), PgConn (pg_committed c) (pg_current c) (pg_aborted c) (pg_savepoints c) b).

Definition faulty_driver : Driver (fconn DB) := {|
  has_autocommit := true;
  get_autocommit := fun c =>
    match fp_get_autocommit plan with Some e => Err e | None => Ok (pg_autocommit (fc_session c)) end;
  set_autocommit := fun b => faulty (switch_autocommit b);
  attr_closed := fun c => fp_closed plan (fc_calls c);
  attr_transaction_status := fun c => fp_status plan (fc_calls c);
  conn_cursor := faulty no_effect;
  cursor_control := fun st => faulty (pg_control st);
  cursor_close := faulty no_effect;
  conn_commit := faulty pg_commit;
  conn_rollback := faulty pg_rollback
|}.
#[local] Existing Instance faulty_driver | 0.

(** A statement of the program. *)
Definition statement {A} (st : DB -> result (A * DB)) : TX (fconn DB) A := execute (faulty (pg_run st)).

(** ** The committed database *)

Definition committed (t : Transaction (fconn DB)) : DB := pg_committed (fc_session (_connection t)).
Definition visible (t : Transaction (fconn DB)) : DB := pg_current (fc_session (_connection t)).
Definition aborted (t : Transaction (fconn DB)) : bool := pg_aborted (fc_session (_connection t)).

(** Calls that commit nothing. *)
Definition quiet_call {A} (f : pg_conn DB -> result A * pg_conn DB) : Prop :=
  forall c, pg_committed (snd (f c)) = pg_committed c.

Lemma faulty_committed {A} (f : pg_conn DB -> result A * pg_conn DB) c :
  quiet_call f -> pg_committed (fc_session (snd (faulty f c))) = pg_committed (fc_session c).
Proof. intros Hq. unfold faulty. specialize (Hq (fc_session c)). destruct (f _), (fp_call _ _); done. Qed.

Lemma faulty_Ok {A} (f : pg_conn DB -> result A * pg_conn DB) c a c' :
  faulty f c = (Ok a, c') -> f (fc_session c) = (Ok a, fc_session c').
Proof. unfold faulty. destruct (f _) as [r s], (fp_call _ _); intros [= <- <-]; done. Qed.

Lemma quiet_run {A} (st : DB -> result (A * DB)) : quiet_call (pg_run st).
Proof. intros c. unfold pg_run. destruct (pg_aborted c); [done|]. by destruct (st _) as [[]|]. Qed.
Lemma quiet_rollback : quiet_call pg_rollback.
Proof. done. Qed.
Lemma quiet_none : quiet_call no_effect.
Proof. by intros c. Qed.
Lemma quiet_autocommit b : quiet_call (switch_autocommit b).
Proof. by intros c. Qed.
Lemma quiet_control st : quiet_call (pg_control st).
Proof. intros c. destruct st; cbn; repeat case_match; done. Qed.

(** What a method keeps whether it returns or raises. *)
Definition kept (t t' : Transaction (fconn DB)) : Prop :=
  committed t' = committed t /\ _active t' = _active t /\ _prior_autocommit t' = _prior_autocommit t.
#[global] Instance kept_preorder : PreOrder kept.
Proof. split; [done|]. intros a b c (? & ? & ?) (? & ? & ?). split_and!; congruence. Qed.

Lemma call_kept {A} (f : pg_conn DB -> result A * pg_conn DB) t :
  quiet_call f -> kept t (snd (call (faulty f) t)).
Proof.
  intros Hq. pose proof (faulty_committed f (_connection t) Hq) as Hc. unfold call.
  destruct (faulty f _) as [r c]. by split_and!.
Qed.

Lemma interrupted_kept e t : kept t (snd (_raise_if_interrupted e t)).
Proof. unfold _raise_if_interrupted. repeat case_match; done. Qed.

Lemma cursor_kept t : kept t (snd (_cursor t)).
Proof.
  unfold _cursor. destruct (_ensure_usable t); [|done].
  pose proof (call_kept no_effect t quiet_none) as Hk. cbn [conn_cursor faulty_driver].
  destruct (call (faulty no_effect) t) as [[[]|e] t1]; [exact Hk|]. cbn in Hk.
  pose proof (interrupted_kept e (set_failed true t1)) as Hi.
  destruct (_raise_if_interrupted e (set_failed true t1)) as [e' t2]. cbn in *. etransitivity; [exact Hk|exact Hi].
Qed.

Lemma close_cursor_kept b t : kept t (snd (_close_cursor b t)).
Proof.
  unfold _close_cursor. pose proof (call_kept no_effect t quiet_none) as Hk. cbn [cursor_close faulty_driver].
  destruct (call (faulty no_effect) t) as [[[]|e] t1]; [exact Hk|]. destruct b; [exact Hk|]. cbn in Hk.
  pose proof (interrupted_kept e (set_failed true t1)) as Hi.
  destruct (_raise_if_interrupted e (set_failed true t1)) as [e' t2]. cbn in *. etransitivity; [exact Hk|exact Hi].
Qed.

Lemma statement_kept {A} (st : DB -> result (A * DB)) t : kept t (snd (statement st t)).
Proof.
  unfold statement, execute. pose proof (cursor_kept t) as H1. destruct (_cursor t) as [[[]|e] t1]; [|done]. cbn in H1.
  pose proof (call_kept (pg_run st) t1 (quiet_run st)) as H2. destruct (call _ t1) as [[a|e] t2]; cbn in H2.
  - pose proof (close_cursor_kept (negb (is_ok (Ok a : result A))) t2) as H3.
    destruct (_close_cursor _ t2) as [[[]|e] t4]; cbn in *; (etransitivity; [exact H1|]; by etransitivity).
  - pose proof (interrupted_kept e (set_failed true t2)) as H3. destruct (_raise_if_interrupted e _) as [e' t3]. cbn in H3.
    pose proof (close_cursor_kept (negb (is_ok (Err e' : result A))) t3) as H4.
    destruct (_close_cursor _ t3) as [[[]|e''] t4]; cbn in *; (etransitivity; [exact H1|]; etransitivity; [exact H2|]; by etransitivity).
Qed.

(** A statement that returned was run on a usable session, and is its effect. *)
Lemma statement_Ok {A} (st : DB -> result (A * DB)) t a t' :
  statement st t = (Ok a, t') ->
  _failed t = false /\ _failed t' = false /\ aborted t' = false /\ st (visible t) = Ok (a, visible t').
Proof.
  unfold statement, execute, _cursor, _ensure_usable. destruct (_active t); [|done]. destruct (_failed t) eqn:Hf; [done|].
  cbn -[_raise_if_interrupted call faulty _close_cursor]. unfold call at 1. destruct (faulty no_effect (_connection t)) as [[[]|e] c1] eqn:H1.
  2: { by destruct (_raise_if_interrupted e (set_failed true (set_connection c1 t))). }
  apply faulty_Ok in H1. cbn in H1. injection H1 as H1.
  unfold call at 1. cbn [_connection set_connection].
  destruct (faulty (pg_run st) c1) as [[b|e] c2] eqn:H2.
  2: { destruct (_raise_if_interrupted e (set_failed true (set_connection c2 (set_connection c1 t)))) as [e' t2].
       by destruct (_close_cursor (negb (is_ok (Err e' : result A))) t2) as [[[]|] ]. }
  apply faulty_Ok in H2. unfold pg_run in H2. destruct (pg_aborted (fc_session c1)) eqn:Ha; [done|].
  destruct (st (pg_current (fc_session c1))) as [[b' db]|] eqn:Hst; [|done]. injection H2 as -> H2.
  cbn [is_ok negb]. unfold _close_cursor, call. cbn [cursor_close faulty_driver _connection set_connection].
  destruct (faulty no_effect c2) as [[[]|e] c3] eqn:H3; [|by destruct (_raise_if_interrupted e _)].
  apply faulty_Ok in H3. cbn in H3. injection H3 as H3. intros [= <- <-].
  unfold aborted, visible. cbn. rewrite <- H3, <- H2, H1. by split_and!.
Qed.

Lemma bind_kept {A B} (m : TX (fconn DB) A) (f : A -> TX (fconn DB) B) t :
  (forall t, kept t (snd (m t))) -> (forall a t, kept t (snd (f a t))) -> kept t (snd ((m ≫= f) t)).
Proof.
  intros Hm Hf. specialize (Hm t). unfold mbind, TX_mbind. destruct (m t) as [[a|e] t1]; [|done]. cbn in Hm.
  etransitivity; [exact Hm|apply Hf].
Qed.
Lemma lift_kept {A} (r : result A) (t : Transaction (fconn DB)) : kept t (snd (tx_lift r t)).
Proof. done. Qed.

(** ** Beginning and finishing *)

Lemma begin_spec c r t1 :
  _begin (tx_init c None) = (r, t1) ->
  committed t1 = pg_committed (fc_session c)
  /\ (r = Ok () -> _active t1 = true /\ _failed t1 = false
       /\ visible t1 = pg_current (fc_session c) /\ aborted t1 = pg_aborted (fc_session c)).
Proof.
  unfold _begin, begin_autocommit. cbn -[faulty call is_exception]. destruct (fp_get_autocommit plan); [by intros [= <- <-]|].
  destruct (pg_autocommit (fc_session c)); [|intros [= <- <-]; by split].
  pose proof (faulty_committed (switch_autocommit false) c (quiet_autocommit _)) as Hc. unfold call. cbn [_connection set_prior tx_init].
  destruct (faulty (switch_autocommit false) c) as [[[]|e] c'] eqn:Hf; intros [= <- <-]; (split; [exact Hc|]); [|done].
  intros _. apply faulty_Ok in Hf. injection Hf as Hf. unfold visible, aborted. cbn. by rewrite <- Hf.
Qed.

Lemma restore_committed t : committed (snd (_restore_autocommit t)) = committed t.
Proof.
  unfold _restore_autocommit. destruct (_prior_autocommit t) as [prior|]; [|done].
  apply (call_kept (switch_autocommit prior) (set_prior None t) (quiet_autocommit prior)).
Qed.

(** Errors that come after a commit that the server acknowledged: restoring
    [autocommit], the rollback before the connection goes back, its return; or
    an interrupt of the process. *)
Definition late_error (e : exn) : Prop :=
  exn_cls e ∈ [TransactionCleanupError; ConnectionResetError; PoolReleaseError] \/ is_exception e = false.

Lemma finish_rolls_back failed t r t' :
  _active t = true -> failed || _failed t = true -> _finish failed t = (r, t') -> committed t' = committed t.
Proof.
  unfold _finish, finish_connection. intros -> ->. cbn [negb]. cbn [conn_rollback faulty_driver].
  pose proof (call_kept pg_rollback t quiet_rollback) as (Hc & _). destruct (call _ t) as [[[]|e] t1]; cbn in Hc.
  - pose proof (restore_committed (set_active false t1)) as Hr. destruct (_restore_autocommit _) as [restored t2]. cbn in Hr.
    destruct restored as [[]|]; cbn; repeat case_match; intros [= <- <-]; (etransitivity; [exact Hr|exact Hc]).
  - pose proof (restore_committed (set_active false (set_discard t1))) as Hr. destruct (_restore_autocommit _) as [restored t2]. cbn in Hr.
    destruct restored as [[]|]; cbn; intros [= <- <-]; (etransitivity; [exact Hr|exact Hc]).
Qed.

Lemma finish_commits t r t' :
  _active t = true -> _failed t = false -> _finish false t = (r, t') ->
  exists answer c, conn_commit (_connection t) = (answer, c) /\ committed t' = pg_committed (fc_session c)
    /\ (r = Ok () -> answer = Ok ()) /\ (forall e, answer = Ok () -> r = Err e -> late_error e).
Proof.
  unfold _finish, finish_connection. intros -> Hf. rewrite Hf. cbn [negb orb]. unfold call at 1.
  destruct (conn_commit (_connection t)) as [[[]|e] c].
  - intros Hx. exists (Ok ()), c. pose proof (restore_committed (set_active false (set_connection c t))) as Hr.
    assert (_failed (snd (_restore_autocommit (set_active false (set_connection c t)))) = false) as Hf'.
    { unfold _restore_autocommit, call. cbn [_prior_autocommit set_active set_connection]. destruct (_prior_autocommit t) as [b|]; [|done].
      cbn [_connection set_prior]. by destruct (set_autocommit b _). }
    destruct (_restore_autocommit _) as [restored t2]. cbn in Hr, Hf'. split; [done|].
    destruct restored as [[]|x]; cbn [is_ok negb andb] in Hx; [rewrite Hf' in Hx|]; injection Hx as <- <-; (split_and!; [exact Hr|done|]); [done|].
    intros e _ [= <-]. unfold late_error. destruct (is_exception x) eqn:He; [left; apply elem_of_cons; by left|by right].
  - intros Hx. exists (Err e), c. split; [done|].
    pose proof (call_kept pg_rollback (set_discard (set_connection c t)) quiet_rollback) as (Hc & _).
    cbn [conn_rollback faulty_driver] in Hx. destruct (call (faulty pg_rollback) _) as [r1 t1]. cbn in Hc.
    pose proof (restore_committed (set_active false t1)) as Hr. destruct (_restore_autocommit _) as [restored t2]. cbn in Hr.
    injection Hx as <- <-. split_and!; [|by destruct (negb _)|done].
    destruct restored as [[]|]; (etransitivity; [exact Hr|exact Hc]).
Qed.

(** What a commit leaves committed. *)
Lemma commit_outcomes c answer c' :
  conn_commit c = (answer, c') ->
  let after := if pg_aborted (fc_session c) then pg_committed (fc_session c) else pg_current (fc_session c) in
  (answer = Ok () -> pg_committed (fc_session c') = after)
  /\ (pg_committed (fc_session c') = pg_committed (fc_session c) \/ pg_committed (fc_session c') = after).
Proof.
  cbn. unfold faulty, pg_commit. destruct (fp_call plan _); intros [= <- <-]; cbn; (split; [done|]); [by right|by left|by right].
Qed.

(** ** A whole transaction *)

Context {A : Type} (body : TX (fconn DB) A).
Hypothesis Hbody : forall t, kept t (snd (body t)).

(** The body ran to its end on a fresh transaction. *)
Definition body_completed (c : fconn DB) (a : A) (t : Transaction (fconn DB)) : Prop :=
  exists t1, _begin (tx_init c None) = (Ok (), t1) /\ body t1 = (Ok a, t) /\ _failed t = false.

(** A transaction block leaves the database as it was, or as its body left it.
    It returns only in the second case.  It raises in the second case only after
    the commit took effect: the commit itself raised, or a later step did. *)
Lemma transaction_outcomes c r t' :
  transaction_body None body c = (r, t') ->
  (forall a, r = Ok a -> exists t, body_completed c a t
     /\ committed t' = if aborted t then pg_committed (fc_session c) else visible t)
  /\ (forall e, r = Err e -> committed t' = pg_committed (fc_session c)
      \/ exists a t, body_completed c a t /\ aborted t = false /\ committed t' = visible t
          /\ (is_ok (fst (conn_commit (_connection t))) = false \/ late_error e)).
Proof.
  unfold transaction_body. destruct (_begin _) as [[[]|e] t1] eqn:Hb; apply begin_spec in Hb as Hs; destruct Hs as [Hc Hs].
  2: { intros [= <- <-]. split; [done|]. by left. }
  destruct (Hs eq_refl) as (Ha & Hf & _). pose proof (Hbody t1) as Hk. destruct (body t1) as [[a|e] t2] eqn:Hrun; cbn in Hk;
    destruct Hk as (Hk & Hka & _).
  2: { destruct (_finish true t2) as [r' t3] eqn:Hfin. intros [= <- <-]. split; [done|]. intros ? [= <-]. left. cbn.
       rewrite (finish_rolls_back true t2 r' t3) by (congruence || done). congruence. }
  destruct (_failed t2) eqn:Hf2.
  { destruct (_finish false t2) as [r' t3] eqn:Hfin.
    assert (committed t3 = pg_committed (fc_session c)) as Hc3
      by (rewrite (finish_rolls_back false t2 r' t3) by (congruence || done); congruence).
    destruct r' as [[]|e']; intros [= <- <-]; (split; [|by left]); [|done].
    apply finish_ok in Hfin as (_ & Hx & _). congruence. }
  destruct (_finish false t2) as [r' t3] eqn:Hfin.
  destruct (finish_commits t2 r' t3) as (answer & c' & Hcom & Hc3 & Hok & Hlate); [congruence|done|done|].
  destruct (commit_outcomes _ _ _ Hcom) as [Hall Hany]. change (pg_committed (fc_session (_connection t2))) with (committed t2) in *.
  assert (body_completed c a t2) as Hdone by (by exists t1).
  destruct r' as [[]|e']; intros [= <- <-].
  - split; [|done]. intros ? [= <-]. exists t2. split; [done|]. rewrite Hc3, (Hall (Hok eq_refl)), Hk, Hc. done.
  - split; [done|]. intros ? [= <-]. destruct Hany as [Hn|Hy]; [left; congruence|].
    change (pg_aborted (fc_session (_connection t2))) with (aborted t2) in Hy. destruct (aborted t2) eqn:Hab; [left; congruence|].
    right. exists a, t2. split_and!; [done|done|by rewrite Hc3|]. rewrite Hcom. destruct answer as [[]|]; [right|by left]. by apply Hlate.
Qed.

(** The committed database after a use of a connection in state [c]. *)
Definition committed_after (c : fconn DB) (use : usage A) : DB :=
  match u_returned use with Some (c', _) => pg_committed (fc_session c') | None => pg_committed (fc_session c) end.

Lemma use_outcomes id c put p :
  let use := plane_transaction (Ok (id, c)) put None body p in
  (forall a, u_result use = Ok a -> exists t, body_completed c a t
     /\ committed_after c use = if aborted t then pg_committed (fc_session c) else visible t)
  /\ (forall e, u_result use = Err e -> committed_after c use = pg_committed (fc_session c)
      \/ exists a t, body_completed c a t /\ aborted t = false /\ committed_after c use = visible t
          /\ (is_ok (fst (conn_commit (_connection t))) = false \/ late_error e)).
Proof.
  unfold plane_transaction, with_connection, borrow_admit. destruct (_closed p); [by split; [|left]|].
  cbn [raise_if mbind outcome_mbind outcome_bind].
  destruct (transaction_body None body c) as [r t] eqn:Ht. apply transaction_outcomes in Ht as [Hok Herr].
  pose proof (faulty_committed pg_rollback (_connection t) quiet_rollback) as Hroll. cbn [conn_rollback faulty_driver].
  destruct (faulty pg_rollback (_connection t)) as [reset c2]. cbn in Hroll.
  destruct (_take_discard _ _) as [marked p3]. unfold committed_after. cbn [u_result u_returned]. rewrite Hroll.
  change (pg_committed (fc_session (_connection t))) with (committed t). destruct r as [a|e]; cbn [error_of exit_error].
  - destruct (Hok a eq_refl) as (t0 & Hd & Hc). destruct (error_of reset) as [x|]; cbn [is_some].
    2: destruct (is_some (put _ _)).
    all: split; [try done|].
    all: try (intros ? [= <-]; destruct (aborted t0) eqn:Hab; [by left|]; right; exists a, t0; split_and!; try done; right; left; rewrite !elem_of_cons; auto).
    done.
  - split; [done|]. intros ? [= <-]. by apply Herr.
Qed.
End Driver.

(** ** The pool around a use *)

Lemma use_pool {C A : Type} `{!Driver C} got put isolation (body : TX C A) p :
  let p' := u_pool (plane_transaction got put isolation body p) in
  _borrowed p' = _borrowed p /\ _cleanup_complete p' = _cleanup_complete p.
Proof.
  unfold plane_transaction, with_connection, borrow_admit. destruct (_closed p); [done|]. cbn [raise_if mbind outcome_mbind outcome_bind].
  destruct got as [[id c]|e]; [|cbn; split; [lia|done]].
  destruct (transaction_body isolation body c) as [r t]. destruct (conn_rollback _) as [reset c2].
  cbn. destruct (negb (is_ok r) && _discard_required t); cbn; split; lia || done.
Qed.

(** Closing an idle pool raises only what [closeall] raised. *)
Lemma idle_close p : _borrowed p = 0 -> fst (close None p) = Ok ().
Proof.
  destruct p as [b cl cc cf ca d]. cbn. intros ->. unfold close, close_admit, close_attempt. by destruct cc.
Qed.

(** ** Runs without a failure *)

Section Calm.
Context {DB : Type}.
#[local] Existing Instance faulty_driver | 0.
Implicit Types t : Transaction (fconn DB).

(** The transaction can run a statement. *)
Definition usable t : Prop := _active t = true /\ _failed t = false /\ aborted t = false.

Lemma calm_statement {A} (st : DB -> result (A * DB)) t a db :
  usable t -> st (visible t) = Ok (a, db) ->
  exists t', statement calm_plan st t = (Ok a, t') /\ kept t t' /\ usable t' /\ visible t' = db.
Proof.
  intros (Ha & Hf & Hab) Hst. unfold aborted, visible in *.
  destruct t as [[[com cur ab saves auto] calls] iso act fl prior disc]. cbn in Ha, Hf, Hab, Hst. subst act fl ab.
  set (t := Tx (Fconn (PgConn com cur false saves auto) calls) iso true false prior disc).
  assert (exists t', statement calm_plan st t = (Ok a, t') /\ usable t' /\ visible t' = db) as (t' & Hrun & Hu & Hv).
  { unfold statement, execute, t. cbn. unfold call, faulty. cbn. rewrite Hst. cbn. eexists. split; [reflexivity|]. split; [by split_and!|done]. }
  exists t'. split_and!; try done; try apply Hu. all: pose proof (statement_kept calm_plan st t) as Hk; rewrite Hrun in Hk; apply Hk.
Qed.

(** A body that returns without a failure is committed, and the block returns. *)
Lemma calm_use {A} (body : TX (fconn DB) A) id db autocommit put a :
  (forall c discard, put c discard = None) ->
  (forall t, usable t -> visible t = db -> exists t', body t = (Ok a, t') /\ kept t t' /\ usable t') ->
  u_result (plane_transaction (Driver0 := faulty_driver calm_plan) (Ok (id, Fconn (idle_conn db autocommit) 0))
              put None body pool_init) = Ok a
  /\ fst (close None (u_pool (plane_transaction (Driver0 := faulty_driver calm_plan) (Ok (id, Fconn (idle_conn db autocommit) 0))
              put None body pool_init))) = Ok ().
Proof.
  intros Hput Hbody. unfold plane_transaction, with_connection, transaction_body. cbn [borrow_admit raise_if _closed pool_init mbind outcome_mbind outcome_bind].
  destruct (_begin (Driver0 := faulty_driver calm_plan) (tx_init (Fconn (idle_conn db autocommit) 0) None)) as [r t1] eqn:Hb.
  assert (r = Ok () /\ _prior_autocommit t1 = Some autocommit) as [-> Hprior].
  { unfold _begin, begin_autocommit in Hb. cbn in Hb. destruct autocommit; by injection Hb as <- <-. }
  apply begin_spec in Hb as (_ & Hs). destruct (Hs eq_refl) as (Ha & Hf & Hv & Hab).
  destruct (Hbody t1) as (t2 & Hrun & (_ & _ & Hk) & (Ha2 & Hf2 & Hab2)); [by split_and!|done|]. rewrite Hrun.
  rewrite Hprior in Hk. destruct t2 as [[[com cur ab saves auto] calls] iso act fl prior disc].
  unfold aborted in Hab2. cbn in Ha2, Hf2, Hab2, Hk. subst act fl ab prior.
  unfold _finish, finish_connection, _restore_autocommit, call. cbn. unfold faulty. cbn. by rewrite !Hput.
Qed.
End Calm.
