(* ===== verification/StopEpochs.v ===== *)
(** * Owner stop epochs (src/src/astralplane/repositories/stop_epochs.py, database/stop_schema.py)

    The three tables of the stop schema with their constraints, and the methods
    of [StopEpochRepository] statement by statement.  Every writing method
    first provisions and locks the owner's anchor row, so calls for one owner
    are serialised by PostgreSQL; a transaction is a sequence of calls. *)

From S2P Require Import Prelude Regex Errors Domain Pg.

(** ** Tables *)

(** [owner_stop_epoch] *)
Record stop_row : Type := {
  sr_owner_id : pystr;
  sr_epoch : Z;
  sr_revision : Z;
  sr_engaged : bool;
  sr_engaged_at : option Z;
  sr_engaged_by : option pystr;
  sr_reason : option pystr;
  sr_updated_at : option Z
}.
#[global] Instance stop_row_eq_dec : EqDecision stop_row.
Proof. solve_decision. Defined.

(** [peer_stop_acknowledgment] *)
Record ack_row : Type := {
  ra_owner_id : pystr;
  ra_epoch : Z;
  ra_mesh_id : pystr;
  ra_peer_id : pystr;
  ra_receipt_digest : pystr;
  ra_acknowledged_at : Z
}.
#[global] Instance ack_row_eq_dec : EqDecision ack_row.
Proof. solve_decision. Defined.

(** UUIDs, by their 128-bit value. *)
Abbreviation uuid := N.

(** [owner_stop_operation_epoch] *)
Record operation_row : Type := { ro_owner : pystr; ro_operation_id : uuid; ro_epoch : Z }.
#[global] Instance operation_row_eq_dec : EqDecision operation_row.
Proof. solve_decision. Defined.

Record stop_db : Type := StopDb {
  db_stops : list stop_row;
  db_acks : list ack_row;
  db_operations : list operation_row
}.
Definition set_stops t db := StopDb t (db_acks db) (db_operations db).
Definition set_acks t db := StopDb (db_stops db) t (db_operations db).
Definition set_operations t db := StopDb (db_stops db) (db_acks db) t.

Definition char_between (lo hi : nat) (s : pystr) : bool := (lo <=? length s)%nat && (length s <=? hi)%nat.
Definition null_ok {A} (p : A -> bool) (o : option A) : bool := match o with None => true | Some a => p a end.

(** [owner_stop_epoch_state] *)
Definition stop_state_check (r : stop_row) : bool :=
  ((sr_epoch r =? 0) && (sr_revision r =? 0) && negb (sr_engaged r) && negb (is_some (sr_engaged_at r))
   && negb (is_some (sr_engaged_by r)) && negb (is_some (sr_reason r)) && negb (is_some (sr_updated_at r)))
  || ((1 <=? sr_epoch r) && (sr_epoch r <=? sr_revision r)
      && match sr_engaged_at r, sr_updated_at r with Some e, Some w => e <=? w | _, _ => false end
      && is_some (sr_engaged_by r) && is_some (sr_reason r)).

Definition stop_checks (r : stop_row) : bool :=
  char_between 1 512 (sr_owner_id r) && (0 <=? sr_epoch r) && (0 <=? sr_revision r)
  && null_ok (char_between 1 512) (sr_engaged_by r) && null_ok (char_between 0 280) (sr_reason r)
  && stop_state_check r.

Definition check_stop_row (r : stop_row) : result unit :=
  raise_unless (is_int8 (sr_epoch r) && is_int8 (sr_revision r)) (Exn PgNumericOutOfRange "bigint out of range") ;;
  raise_unless (stop_checks r) (Exn PgCheckViolation "new row violates check constraint").
Definition stop_conflict (r r' : stop_row) : bool := bool_decide (sr_owner_id r = sr_owner_id r').

Definition ack_checks (r : ack_row) : bool :=
  (1 <=? ra_epoch r) && char_between 1 64 (ra_mesh_id r) && char_between 1 64 (ra_peer_id r)
  && is_sha256 (ra_receipt_digest r).
Definition check_ack_row (r : ack_row) : result unit :=
  raise_unless (is_int8 (ra_epoch r)) (Exn PgNumericOutOfRange "bigint out of range") ;;
  raise_unless (ack_checks r) (Exn PgCheckViolation "new row violates check constraint").
Definition ack_key (r : ack_row) := (ra_owner_id r, ra_epoch r, ra_mesh_id r, ra_peer_id r).
Definition ack_conflict (r r' : ack_row) : bool := bool_decide (ack_key r = ack_key r').

Definition check_operation_row (r : operation_row) : result unit :=
  raise_unless (is_int8 (ro_epoch r)) (Exn PgNumericOutOfRange "bigint out of range") ;;
  raise_unless (0 <=? ro_epoch r) (Exn PgCheckViolation "new row violates check constraint").
Definition operation_conflict (r r' : operation_row) : bool :=
  bool_decide ((ro_owner r, ro_operation_id r) = (ro_owner r', ro_operation_id r')).

(** [REFERENCES owner_stop_epoch(owner_id)] *)
Definition owner_exists (owner : pystr) (t : list stop_row) : bool :=
  exists_row (fun r => bool_decide (sr_owner_id r = owner)) t.

(** ** Values *)

Record OwnerStopRecord : Type := {
  os_owner_id : pystr;
  os_epoch : Z;
  os_revision : Z;
  os_engaged : bool;
  os_engaged_at : option datetime;
  os_engaged_by : option pystr;
  os_reason : option pystr
}.
Record PeerStopAcknowledgment : Type := {
  pa_owner_id : pystr;
  pa_epoch : Z;
  pa_mesh_id : pystr;
  pa_peer_id : pystr;
  pa_receipt_digest : pystr;
  pa_acknowledged_at : datetime
}.

Definition _record (r : stop_row) : OwnerStopRecord :=
  {| os_owner_id := sr_owner_id r; os_epoch := sr_epoch r; os_revision := sr_revision r;
     os_engaged := sr_engaged r; os_engaged_at := utc <$> sr_engaged_at r;
     os_engaged_by := sr_engaged_by r; os_reason := sr_reason r |}.
Definition _ack (r : ack_row) : PeerStopAcknowledgment :=
  {| pa_owner_id := ra_owner_id r; pa_epoch := ra_epoch r; pa_mesh_id := ra_mesh_id r;
     pa_peer_id := ra_peer_id r; pa_receipt_digest := ra_receipt_digest r;
     pa_acknowledged_at := utc (ra_acknowledged_at r) |}.

(** ** Arguments *)

Definition _MAX_INT : Z := int8_max.

(** [_required_id] of repositories/__init__.py *)
Definition _required_id (value : pystr) (field : string) (maximum : nat) : result pystr :=
  raise_if (bool_decide (py_strip value = []))
    (Exn RepositoryValidationError (field ++ " must be a non-empty string")) ;;
  raise_if (maximum <? length value)%nat
    (Exn RepositoryValidationError (field ++ " exceeds its maximum length")) ;;
  Ok value.

(** [_bounded_text] of repositories/__init__.py *)
Definition _bounded_text (value : pystr) (field : string) (maximum : nat) (allow_empty : bool) : result pystr :=
  raise_if (negb allow_empty && bool_decide (py_strip value = []))
    (Exn RepositoryValidationError (field ++ " must not be empty")) ;;
  raise_if (maximum <? length value)%nat
    (Exn RepositoryValidationError (field ++ " exceeds its maximum length")) ;;
  Ok value.

Definition _integer (value : Z) (field : string) : result Z :=
  raise_unless ((0 <=? value) && (value <=? _MAX_INT))
    (Exn RepositoryValidationError (field ++ " must be a bounded non-negative integer")) ;;
  Ok value.

Definition _time (value : datetime) : result datetime :=
  match value with
  | Aware wall 0 => Ok (utc wall)
  | _ => raise RepositoryValidationError "at must be a timezone-aware UTC datetime"
  end.

Definition _fence (row : stop_row) (revision : Z) : result unit :=
  raise_unless (sr_revision row =? revision) (Exn StopEpochConflictError "owner stop revision changed").

Definition _transition_time (row : stop_row) (at_ : datetime) : result unit :=
  raise_if (match sr_updated_at row with Some w => instant at_ <? w | None => false end)
    (Exn StopEpochConflictError "owner stop transition time regressed").

(** ** Statements *)

Section Statements.
Context `{PgEnv}.
Implicit Types db : stop_db.

Definition anchor (owner : pystr) : stop_row :=
  {| sr_owner_id := owner; sr_epoch := 0; sr_revision := 0; sr_engaged := false; sr_engaged_at := None;
     sr_engaged_by := None; sr_reason := None; sr_updated_at := None |}.

Definition insert_anchor (owner : pystr) (db : stop_db) : result (unit * stop_db) :=
  text_params [owner] ;;
  '(_, t) ← insert_do_nothing check_stop_row stop_conflict (fun _ => Ok ()) (anchor owner) (db_stops db);
  Ok ((), set_stops t db).

Definition select_stop (owner : pystr) (db : stop_db) : result (option stop_row * stop_db) :=
  text_params [owner] ;;
  Ok (select_one "stop_row" (fun r => bool_decide (sr_owner_id r = owner)) (db_stops db), db).

Definition update_stop (p : stop_row -> bool) (f : stop_row -> stop_row) (db : stop_db)
  : result (option stop_row * stop_db) :=
  '(rows, t) ← update_returning check_stop_row stop_conflict p f (db_stops db);
  Ok (head rows, set_stops t db).

Definition engage_set (at_ : Z) (actor reason : pystr) (r : stop_row) : stop_row :=
  {| sr_owner_id := sr_owner_id r; sr_epoch := sr_epoch r + 1; sr_revision := sr_revision r + 1;
     sr_engaged := true; sr_engaged_at := Some at_; sr_engaged_by := Some actor;
     sr_reason := Some reason; sr_updated_at := Some at_ |}.
Definition engage_fence (owner : pystr) (revision : Z) (r : stop_row) : bool :=
  bool_decide (sr_owner_id r = owner) && (sr_revision r =? revision) && negb (sr_engaged r).

Definition resume_set (at_ : Z) (r : stop_row) : stop_row :=
  {| sr_owner_id := sr_owner_id r; sr_epoch := sr_epoch r; sr_revision := sr_revision r + 1;
     sr_engaged := false; sr_engaged_at := sr_engaged_at r; sr_engaged_by := sr_engaged_by r;
     sr_reason := sr_reason r; sr_updated_at := Some at_ |}.
(** The fence of both updates of an engaged row. *)
Definition engaged_fence (owner : pystr) (revision epoch : Z) (r : stop_row) : bool :=
  bool_decide (sr_owner_id r = owner) && (sr_revision r =? revision) && (sr_epoch r =? epoch)
  && sr_engaged r.
Definition touch_set (at_ : Z) (r : stop_row) : stop_row :=
  {| sr_owner_id := sr_owner_id r; sr_epoch := sr_epoch r; sr_revision := sr_revision r + 1;
     sr_engaged := sr_engaged r; sr_engaged_at := sr_engaged_at r; sr_engaged_by := sr_engaged_by r;
     sr_reason := sr_reason r; sr_updated_at := Some at_ |}.

Definition select_ack (owner : pystr) (epoch : Z) (mesh peer : pystr) (db : stop_db)
  : result (option ack_row * stop_db) :=
  text_params [owner; mesh; peer] ;;
  Ok (select_one "stop_ack" (fun r => bool_decide (ack_key r = (owner, epoch, mesh, peer))) (db_acks db), db).

(** [ORDER BY mesh_id, peer_id] *)
Definition ack_le (a b : ack_row) : bool :=
  if bool_decide (ra_mesh_id a = ra_mesh_id b) then collate (ra_peer_id a) (ra_peer_id b)
  else collate (ra_mesh_id a) (ra_mesh_id b).
Definition select_acks (owner : pystr) (epoch : Z) (db : stop_db) : result (list ack_row * stop_db) :=
  text_params [owner] ;;
  Ok (take 65 (select_ordered "stop_acks" ack_le
    (fun r => bool_decide (ra_owner_id r = owner) && (ra_epoch r =? epoch)) (db_acks db)), db).

(** [INSERT ... SELECT ... WHERE EXISTS (...) RETURNING ...] *)
Definition insert_ack (revision : Z) (r : ack_row) (db : stop_db) : result (option ack_row * stop_db) :=
  text_params [ra_owner_id r; ra_mesh_id r; ra_peer_id r; ra_receipt_digest r] ;;
  if exists_row (engaged_fence (ra_owner_id r) revision (ra_epoch r)) (db_stops db) then
    t ← insert_row check_ack_row ack_conflict (fun r => raise_unless (owner_exists (ra_owner_id r) (db_stops db))
          (Exn PgForeignKeyViolation "insert violates foreign key constraint")) r (db_acks db);
    Ok (Some r, set_acks t db)
  else Ok (None, db).

Definition select_operation (owner : pystr) (operation : uuid) (db : stop_db)
  : result (option operation_row * stop_db) :=
  text_params [owner] ;;
  Ok (select_one "stop_operation" (fun r => bool_decide ((ro_owner r, ro_operation_id r) = (owner, operation)))
        (db_operations db), db).

Definition insert_operation (r : operation_row) (db : stop_db) : result (option operation_row * stop_db) :=
  text_params [ro_owner r] ;;
  if exists_row (fun s => bool_decide (sr_owner_id s = ro_owner r) && (sr_epoch s =? ro_epoch r)
                          && negb (sr_engaged s)) (db_stops db) then
    t ← insert_row check_operation_row operation_conflict
          (fun r => raise_unless (owner_exists (ro_owner r) (db_stops db))
            (Exn PgForeignKeyViolation "insert violates foreign key constraint")) r (db_operations db);
    Ok (Some r, set_operations t db)
  else Ok (None, db).

(** ** StopEpochRepository *)

(** Indexing [None] as a row is a [TypeError]; after the insert of the anchor
    there is a row. *)
Definition _locked (owner : pystr) : SM stop_db stop_row :=
  exec (insert_anchor owner) ;;
  row ← exec (select_stop owner);
  match row with
  | Some r => mret r
  | None => lift (raise TypeError_ "'NoneType' object is not subscriptable")
  end.

Definition get (owner_id : pystr) (for_update : bool) : SM stop_db (option OwnerStopRecord) :=
  owner ← lift (_required_id owner_id "owner_id" 512);
  row ← (if for_update then (r ← _locked owner; mret (Some r)) else exec (select_stop owner));
  mret (match row with
        | None => None
        | Some r => if sr_revision r =? 0 then None else Some (_record r)
        end).

Definition engage (owner_id : pystr) (expected_revision : Z) (reason actor_id : pystr) (at_ : datetime)
  : SM stop_db OwnerStopRecord :=
  owner ← lift (_required_id owner_id "owner_id" 512);
  revision ← lift (_integer expected_revision "expected_revision");
  actor ← lift (_required_id actor_id "actor_id" 512);
  reason ← lift (_bounded_text reason "reason" 280 true);
  at_ ← lift (_time at_);
  row ← _locked owner;
  lift (_fence row revision) ;;
  if sr_engaged row then
    lift (raise_if (bool_decide ((sr_reason row, sr_engaged_by row, sr_engaged_at row)
                                 <> (Some reason, Some actor, Some (instant at_))))
      (Exn StopEpochConflictError "engaged stop replay changed immutable semantics")) ;;
    mret (_record row)
  else
    lift (_transition_time row at_) ;;
    lift (raise_if ((sr_epoch row =? _MAX_INT) || (revision =? _MAX_INT))
      (Exn StopEpochConflictError "owner stop counters exhausted")) ;;
    changed ← exec (fun db => text_params [actor; reason; owner] ;;
      update_stop (engage_fence owner revision) (engage_set (instant at_) actor reason) db);
    match changed with
    | None => lift (raise StopEpochConflictError "owner stop engage fence rejected")
    | Some r => mret (_record r)
    end.

Definition resume (owner_id : pystr) (expected_revision expected_epoch : Z) (at_ : datetime)
  : SM stop_db OwnerStopRecord :=
  owner ← lift (_required_id owner_id "owner_id" 512);
  revision ← lift (_integer expected_revision "expected_revision");
  epoch ← lift (_integer expected_epoch "expected_epoch");
  at_ ← lift (_time at_);
  row ← _locked owner;
  lift (_fence row revision) ;;
  lift (raise_if (negb (sr_engaged row) || negb (sr_epoch row =? epoch))
    (Exn StopEpochConflictError "owner stop epoch or state changed")) ;;
  lift (_transition_time row at_) ;;
  lift (raise_if (revision =? _MAX_INT) (Exn StopEpochConflictError "owner stop counters exhausted")) ;;
  changed ← exec (fun db => text_params [owner] ;;
    update_stop (engaged_fence owner revision epoch) (resume_set (instant at_)) db);
  match changed with
  | None => lift (raise StopEpochConflictError "owner stop resume fence rejected")
  | Some r => mret (_record r)
  end.

Definition list_acknowledgments (owner_id : pystr) (epoch : Z) : SM stop_db (list PeerStopAcknowledgment) :=
  owner ← lift (_required_id owner_id "owner_id" 512);
  epoch ← lift (_integer epoch "epoch");
  rows ← exec (select_acks owner epoch);
  lift (raise_if (64 <? length rows)%nat
    (Exn StopEpochConflictError "stop acknowledgment inventory exceeds its bound")) ;;
  mret (_ack <$> rows).

(** The body of the savepoint [stop_acknowledgment]. *)
Definition acknowledge_body (owner mesh peer : pystr) (epoch revision : Z) (digest : pystr) (at_ : datetime)
  : SM stop_db PeerStopAcknowledgment :=
  existing ← exec (select_ack owner epoch mesh peer);
  match existing with
  | Some e =>
      lift (raise_if (bool_decide (ra_receipt_digest e <> digest))
        (Exn StopEpochConflictError "acknowledgment replay changed immutable receipt")) ;;
      mret (_ack e)
  | None =>
      lift (raise_if (revision =? _MAX_INT) (Exn StopEpochConflictError "owner stop counters exhausted")) ;;
      acks ← list_acknowledgments owner epoch;
      lift (raise_if (64 <=? length acks)%nat
        (Exn StopEpochConflictError "stop acknowledgment inventory is full")) ;;
      inserted ← exec (insert_ack revision
        {| ra_owner_id := owner; ra_epoch := epoch; ra_mesh_id := mesh; ra_peer_id := peer;
           ra_receipt_digest := digest; ra_acknowledged_at := instant at_ |});
      changed ← exec (fun db => text_params [owner] ;;
        update_stop (engaged_fence owner revision epoch) (touch_set (instant at_)) db);
      match inserted, changed with
      | Some r, Some _ => mret (_ack r)
      | _, _ => lift (raise StopEpochConflictError "stop acknowledgment fence rejected")
      end
  end.

Definition acknowledge (owner_id mesh_id peer_id : pystr) (epoch expected_revision : Z)
    (receipt_digest : pystr) (at_ : datetime) : SM stop_db PeerStopAcknowledgment :=
  owner ← lift (_required_id owner_id "owner_id" 512);
  mesh ← lift (_required_id mesh_id "mesh_id" 64);
  peer ← lift (_required_id peer_id "peer_id" 64);
  epoch ← lift (_integer epoch "epoch");
  revision ← lift (_integer expected_revision "expected_revision");
  digest ← lift (_required_id receipt_digest "receipt_digest" 64);
  lift (raise_unless (is_sha256 digest)
    (Exn RepositoryValidationError "receipt_digest must be a lowercase SHA-256 digest")) ;;
  at_ ← lift (_time at_);
  row ← _locked owner;
  lift (_fence row revision) ;;
  lift (raise_if (negb (sr_engaged row) || negb (sr_epoch row =? epoch))
    (Exn StopEpochConflictError "acknowledgment belongs to an inactive stop epoch")) ;;
  lift (_transition_time row at_) ;;
  savepoint (acknowledge_body owner mesh peer epoch revision digest at_).

Definition assert_running (owner_id : pystr) (expected_epoch : option Z)
  : SM stop_db (option OwnerStopRecord) :=
  owner ← lift (_required_id owner_id "owner_id" 512);
  epoch ← lift (match expected_epoch with
                | None => Ok None
                | Some e => v ← _integer e "expected_epoch"; Ok (Some v)
                end);
  row ← _locked owner;
  lift (raise_if (sr_engaged row) (Exn OwnerStoppedError "owner stop is engaged")) ;;
  lift (raise_if (match epoch with Some e => negb (sr_epoch row =? e) | None => false end)
    (Exn StopEpochConflictError "owner stop epoch changed before admission")) ;;
  mret (if sr_revision row =? 0 then None else Some (_record row)).

Definition bind_operation (owner_id : pystr) (operation_id : uuid) : SM stop_db Z :=
  owner ← lift (_required_id owner_id "owner_id" 512);
  row ← _locked owner;
  lift (raise_if (sr_engaged row) (Exn OwnerStoppedError "owner stop is engaged")) ;;
  existing ← exec (select_operation owner operation_id);
  match existing with
  | Some e =>
      lift (raise_unless (ro_epoch e =? sr_epoch row)
        (Exn StopEpochConflictError "operation stop binding belongs to an earlier epoch")) ;;
      mret (ro_epoch e)
  | None =>
      inserted ← exec (insert_operation
        {| ro_owner := owner; ro_operation_id := operation_id; ro_epoch := sr_epoch row |});
      match inserted with
      | None => lift (raise StopEpochConflictError "operation stop binding fence rejected")
      | Some r => mret (ro_epoch r)
      end
  end.

Definition assert_operation (owner_id : pystr) (operation_id : uuid) : SM stop_db unit :=
  owner ← lift (_required_id owner_id "owner_id" 512);
  row ← _locked owner;
  lift (raise_if (sr_engaged row) (Exn OwnerStoppedError "owner stop is engaged")) ;;
  binding ← exec (select_operation owner operation_id);
  lift (raise_if (match binding with
                  | None => negb (sr_epoch row =? 0)
                  | Some b => negb (ro_epoch b =? sr_epoch row)
                  end)
    (Exn StopEpochConflictError "operation stop epoch changed before execution")).
End Statements.
