(* ===== verification/StopSpec.v ===== *)
(** * What the stop epochs promise

    The invariant of the stop tables on every reachable database, the exact
    behaviour of each transition of an owner's stop state, the bound on
    acknowledgments, and the property the repository exists for: once a stop
    was engaged, no operation admitted before it is ever let through again. *)

From S2P Require Import Prelude Regex Errors Domain Pg StopEpochs.

(** ** The stop state of an owner *)

(** The stored row, or the anchor every locking call provisions. *)
Definition stop_of (owner : pystr) (db : stop_db) : stop_row :=
  default (anchor owner) (head (rows_where (fun r => bool_decide (sr_owner_id r = owner)) (db_stops db))).

Definition with_anchor (owner : pystr) (db : stop_db) : stop_db :=
  if owner_exists owner (db_stops db) then db else set_stops (db_stops db ++ [anchor owner]) db.

(** ** The invariant *)

Definition acks_of (owner : pystr) (epoch : Z) (db : stop_db) : list ack_row :=
  rows_where (fun r => bool_decide (ra_owner_id r = owner) && (ra_epoch r =? epoch)) (db_acks db).

Record stop_inv (db : stop_db) : Prop := {
  si_rows : Forall (fun r => check_stop_row r = Ok ()) (db_stops db);
  si_unique : unique_ok stop_conflict (db_stops db) = true;
  si_acks : forall a, a ∈ db_acks db -> check_ack_row a = Ok ()
    /\ exists r, r ∈ db_stops db /\ sr_owner_id r = ra_owner_id a /\ ra_epoch a <= sr_epoch r;
  si_acks_unique : unique_ok ack_conflict (db_acks db) = true;
  si_acks_bound : forall owner epoch, (length (acks_of owner epoch db) <= 64)%nat;
  (** an operation is bound to an epoch that has begun, and while the owner is
      stopped to an earlier one *)
  si_operations : forall o, o ∈ db_operations db ->
    exists r, r ∈ db_stops db /\ sr_owner_id r = ro_owner o /\ ro_epoch o <= sr_epoch r
      /\ (sr_engaged r = true -> ro_epoch o < sr_epoch r);
  si_operations_unique : unique_ok operation_conflict (db_operations db) = true
}.

Definition opt_le (a b : option Z) : Prop :=
  match a, b with Some x, Some y => x <= y | None, _ => True | Some _, None => False end.

(** A stop row keeps its owner; every change advances the revision; within an
    epoch the engagement is immutable and a resumed owner stays resumed. *)
Definition stop_evolves (r r' : stop_row) : Prop :=
  sr_owner_id r' = sr_owner_id r /\ (r' = r \/
    (sr_revision r < sr_revision r' /\ sr_epoch r <= sr_epoch r' /\ opt_le (sr_updated_at r) (sr_updated_at r')
     /\ (sr_epoch r' = sr_epoch r ->
           sr_engaged_at r' = sr_engaged_at r /\ sr_engaged_by r' = sr_engaged_by r
           /\ sr_reason r' = sr_reason r /\ (sr_engaged r = false -> sr_engaged r' = false)))).

Record stop_db_evolves (db db' : stop_db) : Prop := {
  se_stops : table_evolves stop_evolves (db_stops db) (db_stops db');
  se_acks : exists new, db_acks db' = db_acks db ++ new;
  se_operations : exists new, db_operations db' = db_operations db ++ new
}.

Lemma opt_le_trans a b c : opt_le a b -> opt_le b c -> opt_le a c.
Proof. destruct a, b, c; cbn; try done; lia. Qed.

#[global] Instance stop_evolves_preorder : PreOrder stop_evolves.
Proof.
  split; [intros r; split; auto|].
  intros r1 r2 r3 (O1 & H1) (O2 & H2). split; [congruence|].
  destruct H1 as [->|(R1 & E1 & U1 & S1)]; [done|]. destruct H2 as [->|(R2 & E2 & U2 & S2)]; [by right|].
  right. split_and!; [lia|lia|by eapply opt_le_trans|]. intros E.
  destruct S1 as (? & ? & ? & ?); [lia|]. destruct S2 as (? & ? & ? & ?); [lia|].
  split_and!; [congruence..|]. auto.
Qed.

#[global] Instance stop_db_evolves_preorder : PreOrder stop_db_evolves.
Proof.
  split.
  - intros db. split; [reflexivity| |]; exists []; by rewrite app_nil_r.
  - intros d1 d2 d3 [S1 [a1 A1] [o1 O1]] [S2 [a2 A2] [o2 O2]].
    split; [by etransitivity|exists (a1 ++ a2)|exists (o1 ++ o2)]; by rewrite ?A2, ?A1, ?O2, ?O1, app_assoc.
Qed.

Definition stop_safe (db db' : stop_db) : Prop := stop_inv db -> stop_inv db' /\ stop_db_evolves db db'.

#[global] Instance stop_safe_preorder : PreOrder stop_safe.
Proof.
  split.
  - intros db Hi. split; [done|reflexivity].
  - intros d1 d2 d3 H1 H2 Hi. destruct (H1 Hi) as [Hi2 E1]. destruct (H2 Hi2) as [Hi3 E2].
    split; [done|]. by transitivity d2.
Qed.

Lemma stop_conflict_sym a b : stop_conflict a b = stop_conflict b a.
Proof. apply bool_decide_ext. split; congruence. Qed.

Lemma stop_unique db r1 r2 :
  stop_inv db -> r1 ∈ db_stops db -> r2 ∈ db_stops db -> sr_owner_id r1 = sr_owner_id r2 -> r1 = r2.
Proof.
  intros Hi H1 H2 E. apply (unique_ok_elem stop_conflict (db_stops db)); auto using stop_conflict_sym; [apply Hi|].
  by apply bool_decide_eq_true.
Qed.

Lemma stop_of_stored db r : stop_inv db -> r ∈ db_stops db -> stop_of (sr_owner_id r) db = r.
Proof.
  intros Hi Hr. unfold stop_of. erewrite (rows_where_unique stop_conflict); [done|apply Hi| |done|].
  - intros a b Ha Hb. split_bools. apply bool_decide_eq_true. congruence.
  - by apply bool_decide_eq_true.
Qed.

Lemma stop_of_absent db owner : owner_exists owner (db_stops db) = false -> stop_of owner db = anchor owner.
Proof.
  intros He. unfold stop_of, owner_exists in *. rewrite exists_row_false in He.
  by rewrite (proj2 (rows_where_nil _ _) He).
Qed.

Lemma stop_of_owner db owner : sr_owner_id (stop_of owner db) = owner.
Proof.
  unfold stop_of. destruct (rows_where _ _) as [|r l] eqn:E; [done|]. cbn.
  assert (r ∈ r :: l) as Hr by left. rewrite <- E in Hr. apply elem_of_rows_where in Hr as [_ Hr].
  by apply bool_decide_eq_true in Hr.
Qed.

(** ** Statements keep the invariant *)

Section Safety.
Context `{PgEnv}.
Implicit Types (db : stop_db) (s : session stop_db).

Lemma owner_exists_elem owner t :
  owner_exists owner t = true <-> exists r, r ∈ t /\ sr_owner_id r = owner.
Proof.
  unfold owner_exists. rewrite exists_row_true. split; intros (r & Hr & Hp); exists r; split; try done.
  - by apply bool_decide_eq_true in Hp.
  - by apply bool_decide_eq_true.
Qed.

Lemma owner_exists_conflict owner t : owner_exists owner t = exists_row (stop_conflict (anchor owner)) t.
Proof.
  apply eq_true_iff_eq. rewrite owner_exists_elem, exists_row_true. unfold stop_conflict. cbn.
  split; intros (r & Hr & Hp); exists r; (split; [done|]); [by apply bool_decide_eq_true|].
  by apply bool_decide_eq_true in Hp.
Qed.

(** The anchor of an absent owner joins the table. *)
Lemma with_anchor_safe owner db :
  check_stop_row (anchor owner) = Ok () -> stop_safe db (with_anchor owner db).
Proof.
  intros Hc Hi. unfold with_anchor. destruct (owner_exists owner (db_stops db)) eqn:He; [split; [done|reflexivity]|].
  destruct Hi as [H1 H2 H3 H4 H5 H6 H7]. split; [split; cbn; try done|split; cbn].
  - apply Forall_app. split; [done|by constructor].
  - apply unique_ok_snoc; [apply stop_conflict_sym|]. split; [done|].
    apply exists_row_false. intros r Hr. unfold owner_exists in He. rewrite exists_row_false in He.
    rewrite stop_conflict_sym. by apply He.
  - intros a Ha. destruct (H3 a Ha) as (? & r & Hr & ?). split; [done|]. exists r. split; [|done].
    apply elem_of_app. by left.
  - intros o Ho. destruct (H6 o Ho) as (r & Hr & ?). exists r. split; [|done]. apply elem_of_app. by left.
  - apply table_evolves_snoc, _.
  - exists []. by rewrite app_nil_r.
  - exists []. by rewrite app_nil_r.
Qed.

(** The lock: the anchor is provisioned and the owner's row returned. *)
Lemma insert_anchor_Ok owner db x db' :
  insert_anchor owner db = Ok (x, db') ->
  check_stop_row (anchor owner) = Ok () /\ db' = with_anchor owner db.
Proof.
  unfold insert_anchor. intros Hx. inv_ok. destruct v0 as [o t]. simplify_eq.
  apply insert_do_nothing_Ok in Hs0 as (Hc & Hcase). split; [done|].
  pose proof (owner_exists_conflict owner (db_stops db)) as E. unfold with_anchor. destruct Hcase as [(_ & -> & He)|(_ & -> & He & _)]; rewrite E, He; [by destruct db|done].
Qed.

Lemma locked_run owner s r s' :
  _locked owner s = (Ok r, s') ->
  s_failed s' = false /\ s_db s' = with_anchor owner (s_db s)
  /\ check_stop_row (anchor owner) = Ok () /\ r ∈ db_stops (s_db s') /\ sr_owner_id r = owner.
Proof.
  unfold _locked. intros Hr. inv_run. apply exec_run_Ok in Hr0 as (Hf & Hf' & Hins).
  apply insert_anchor_Ok in Hins as [Hc Hdb]. apply exec_run_Ok in Hr1 as (_ & Hf2 & Hsel).
  unfold select_stop in Hsel. inv_ok. destruct v0 as [x|]; [|inv_run; inv_ok].
  inv_run. simplify_eq. apply select_one_Some in Hsel as [Hin Ho%bool_decide_eq_true].
  split_and!; congruence || done.
Qed.

Lemma respects_select {A} (q : stop_db -> result (A * stop_db)) :
  (forall db a db', q db = Ok (a, db') -> db' = db) -> respects stop_safe (exec q).
Proof. intros Hq. apply respects_exec; [apply _|]. intros db a db' ->%Hq. reflexivity. Qed.

Lemma select_stop_same owner db x db' : select_stop owner db = Ok (x, db') -> db' = db.
Proof. unfold select_stop. intros Hx. inv_ok. by simplify_eq. Qed.
Lemma select_operation_same owner op db x db' : select_operation owner op db = Ok (x, db') -> db' = db.
Proof. unfold select_operation. intros Hx. inv_ok. by simplify_eq. Qed.
Lemma select_acks_same owner epoch db x db' : select_acks owner epoch db = Ok (x, db') -> db' = db.
Proof. unfold select_acks. intros Hx. inv_ok. by simplify_eq. Qed.
Lemma select_ack_same owner epoch mesh peer db x db' :
  select_ack owner epoch mesh peer db = Ok (x, db') -> db' = db.
Proof. unfold select_ack. intros Hx. inv_ok. by simplify_eq. Qed.

Lemma locked_safe owner : respects stop_safe (_locked owner).
Proof.
  unfold _locked. respects_auto.
  - apply respects_exec; [apply _|]. intros db x db' [Hc ->]%insert_anchor_Ok. by apply with_anchor_safe.
  - apply respects_select. apply select_stop_same.
Qed.

(** What follows the lock starts where the owner's row is stored. *)
Lemma respects_locked {B} owner (k : stop_row -> SM stop_db B) :
  (forall r s, r ∈ db_stops (s_db s) -> sr_owner_id r = owner ->
     stop_safe (s_db s) (s_db (snd (k r s)))) ->
  respects stop_safe (_locked owner ≫= k).
Proof.
  intros Hk s. pose proof (locked_safe owner s) as Hl. unfold mbind, SM_mbind.
  destruct (_locked owner s) as [[r|e] s'] eqn:Hr; [|done]. cbn in Hl.
  apply locked_run in Hr as (_ & _ & _ & Hin & Ho). etransitivity; [exact Hl|]. by apply Hk.
Qed.

(** One owner's row advances. *)
Lemma update_stop_safe p f db x db' r :
  r ∈ db_stops db -> (forall r0, p r0 = true -> sr_owner_id r0 = sr_owner_id r) ->
  (p r = true -> stop_evolves r (f r)
     /\ (sr_engaged (f r) = true -> sr_engaged r = true \/ sr_epoch r < sr_epoch (f r))) ->
  update_stop p f db = Ok (x, db') -> stop_safe db db'.
Proof.
  intros Hr Hp Hf Hu Hi. unfold update_stop in Hu. inv_ok. destruct v as [rs t]. simplify_eq.
  assert (forall r0, r0 ∈ db_stops db -> p r0 = true -> r0 = r) as Hone
    by (intros r0 H0 P0; apply (stop_unique db); auto).
  assert (forall r0, r0 ∈ db_stops db -> exists r1, r1 ∈ t /\ sr_owner_id r1 = sr_owner_id r0
    /\ sr_epoch r0 <= sr_epoch r1
    /\ (sr_engaged r1 = true -> sr_engaged r0 = true \/ sr_epoch r0 < sr_epoch r1)) as Hstep.
  { intros r0 H0. apply update_returning_Ok in Hs as (_ & _ & -> & _).
    exists (if p r0 then f r0 else r0). split; [apply elem_of_update_where; eauto|].
    destruct (p r0) eqn:P0; [|split_and!; auto; lia]. pose proof (Hone r0 H0 P0) as ->.
    destruct (Hf P0) as [[Ho Hev] He]. split_and!; try done. destruct Hev as [->|(_ & ? & _)]; lia. }
  destruct (update_rows (fun r => check_stop_row r = Ok ()) stop_evolves _ _ _ _ _ _ _ Hs)
    as (Hwf & Hu & Hev); [apply Hi|by intros|intros r0 H0 P0; pose proof (Hone r0 H0 P0) as ->; by apply Hf|].
  destruct Hi as [H1 H2 H3 H4 H5 H6 H7]. split; [split; cbn; try done|].
  - intros a Ha. destruct (H3 a Ha) as (? & r0 & Hr0 & <- & He). split; [done|].
    destruct (Hstep r0 Hr0) as (r1 & ? & ? & ? & _). exists r1. split_and!; [done|done|lia].
  - intros o Ho. destruct (H6 o Ho) as (r0 & Hr0 & <- & He & Hg).
    destruct (Hstep r0 Hr0) as (r1 & ? & ? & ? & Hg1). exists r1. split_and!; [done|done|lia|].
    intros [G|G]%Hg1; [specialize (Hg G); lia|lia].
  - split; cbn; [done| |]; exists []; by rewrite app_nil_r.
Qed.

(** Steps of a method from one session. *)
Lemma safe_lift_bind {A B} s (r : result A) (f : A -> SM stop_db B) :
  (forall a, r = Ok a -> stop_safe (s_db s) (s_db (snd (f a s)))) ->
  stop_safe (s_db s) (s_db (snd ((lift r ≫= f) s))).
Proof.
  intros Hf. unfold mbind, SM_mbind, lift. destruct r as [a|e]; [by apply Hf|]. cbn. reflexivity.
Qed.

Lemma safe_exec_bind {A B} s (st : stop_db -> result (A * stop_db)) (f : A -> SM stop_db B) :
  (forall a db', st (s_db s) = Ok (a, db') -> stop_safe (s_db s) db') ->
  (forall a, respects stop_safe (f a)) ->
  stop_safe (s_db s) (s_db (snd ((exec st ≫= f) s))).
Proof.
  intros Hst Hf. unfold mbind, SM_mbind, exec. destruct (s_failed s); [cbn; reflexivity|].
  destruct (st (s_db s)) as [[a db']|e] eqn:E; [|cbn; reflexivity].
  etransitivity; [by eapply Hst|]. apply (Hf a (Session db' false)).
Qed.

Lemma transition_time_Ok r at_ x :
  _transition_time r at_ = Ok x -> opt_le (sr_updated_at r) (Some (instant at_)).
Proof. unfold _transition_time. intros Ht. inv_ok. destruct (sr_updated_at r); cbn; [|done]. split_bools. lia. Qed.

Lemma engage_safe owner rev reason actor at_ : respects stop_safe (engage owner rev reason actor at_).
Proof.
  unfold engage. do 5 respects_step. apply respects_locked. intros r s Hin Ho.
  apply safe_lift_bind. intros [] Hfence. destruct (sr_engaged r) eqn:Hg.
  - apply safe_lift_bind. intros. cbn. reflexivity.
  - apply safe_lift_bind. intros t0 Ht%transition_time_Ok. apply safe_lift_bind. intros [] _.
    apply safe_exec_bind; [|intros [?|]; respects_auto].
    intros x db' Hu. inv_ok. eapply (update_stop_safe _ _ _ _ _ r); [done| |
      |match goal with Hq : update_stop _ _ _ = _ |- _ => exact Hq end].
    + intros r0 Hp. unfold engage_fence in Hp. split_bools. congruence.
    + intros _. cbn. split; [|lia]. split; [done|]. right. cbn. split_and!; [lia|lia|done|lia].
Qed.

Lemma resume_safe owner rev epoch at_ : respects stop_safe (resume owner rev epoch at_).
Proof.
  unfold resume. do 4 respects_step. apply respects_locked. intros r s Hin Ho.
  apply safe_lift_bind. intros [] Hfence. apply safe_lift_bind. intros [] Hst.
  apply safe_lift_bind. intros t0 Ht%transition_time_Ok. apply safe_lift_bind. intros [] _.
  apply safe_exec_bind; [|intros [?|]; respects_auto].
  intros x db' Hu. inv_ok. eapply (update_stop_safe _ _ _ _ _ r); [done| |
    |match goal with Hq : update_stop _ _ _ = _ |- _ => exact Hq end].
  - intros r0 Hp. unfold engaged_fence in Hp. split_bools. congruence.
  - intros _. cbn. split; [|done]. split; [done|]. right. cbn. split_and!; [lia|lia|done|done].
Qed.

Lemma get_safe owner for_update : respects stop_safe (get owner for_update).
Proof.
  unfold get. respects_auto; [apply locked_safe|]. apply respects_select, select_stop_same.
Qed.

Lemma assert_running_safe owner epoch : respects stop_safe (assert_running owner epoch).
Proof. unfold assert_running. respects_auto. apply locked_safe. Qed.

Lemma assert_operation_safe owner op : respects stop_safe (assert_operation owner op).
Proof.
  unfold assert_operation. respects_auto; [apply locked_safe|]. apply respects_select, select_operation_same.
Qed.

Lemma list_acknowledgments_safe owner epoch : respects stop_safe (list_acknowledgments owner epoch).
Proof. unfold list_acknowledgments. respects_auto. apply respects_select, select_acks_same. Qed.

Lemma operation_conflict_sym a b : operation_conflict a b = operation_conflict b a.
Proof. apply bool_decide_ext. split; congruence. Qed.
Lemma ack_conflict_sym a b : ack_conflict a b = ack_conflict b a.
Proof. apply bool_decide_ext. split; congruence. Qed.

Lemma insert_operation_safe o db x db' : insert_operation o db = Ok (x, db') -> stop_safe db db'.
Proof.
  unfold insert_operation. intros Hx Hi. inv_ok.
  destruct (exists_row _ (db_stops db)) eqn:He; inv_ok; simplify_eq; [|split; [done|reflexivity]].
  apply insert_row_Ok in Hs0 as (_ & Hc & ->). apply exists_row_true in He as (r & Hr & Hp). split_bools.
  destruct Hi as [K1 K2 K3 K4 K5 K6 K7]. split; [split; cbn; try done|split; cbn].
  - intros o' [Ho|Ho]%elem_of_app; [by apply K6|]. apply list_elem_of_singleton in Ho as ->.
    exists r. split_and!; [done|done|lia|congruence].
  - apply unique_ok_snoc; [apply operation_conflict_sym|done].
  - reflexivity.
  - exists []. by rewrite app_nil_r.
  - by eexists.
Qed.

Lemma bind_operation_safe owner op : respects stop_safe (bind_operation owner op).
Proof.
  unfold bind_operation. respects_auto.
  - apply locked_safe.
  - apply respects_select, select_operation_same.
  - apply respects_exec; [apply _|]. intros db x db'. apply insert_operation_safe.
Qed.

(** An acknowledgment of the current epoch joins fewer than 64. *)
Lemma insert_ack_safe rev a db x db' :
  (length (acks_of (ra_owner_id a) (ra_epoch a) db) < 64)%nat ->
  insert_ack rev a db = Ok (x, db') -> stop_safe db db'.
Proof.
  unfold insert_ack. intros Hlen Hx Hi. inv_ok.
  destruct (exists_row _ (db_stops db)) eqn:He; inv_ok; simplify_eq; [|split; [done|reflexivity]].
  apply insert_row_Ok in Hs0 as (Hck & Hc & ->). apply exists_row_true in He as (r & Hr & Hp).
  unfold engaged_fence in Hp. split_bools.
  destruct Hi as [K1 K2 K3 K4 K5 K6 K7]. split; [split; cbn; try done|split; cbn].
  - intros a' [Ha|Ha]%elem_of_app; [by apply K3|]. apply list_elem_of_singleton in Ha as ->.
    split; [done|]. exists r. split_and!; [done|done|lia].
  - apply unique_ok_snoc; [apply ack_conflict_sym|done].
  - intros owner epoch. specialize (K5 owner epoch). unfold acks_of, rows_where in *. cbn.
    rewrite List.filter_app, length_app. cbn.
    destruct (bool_decide (ra_owner_id a = owner) && (ra_epoch a =? epoch)) eqn:E; cbn; [|lia].
    split_bools. subst. lia.
  - reflexivity.
  - by eexists.
  - exists []. by rewrite app_nil_r.
Qed.

Lemma ordered_acks_length owner epoch db :
  length (select_ordered "stop_acks" ack_le
    (fun r => bool_decide (ra_owner_id r = owner) && (ra_epoch r =? epoch)) (db_acks db))
  = length (acks_of owner epoch db).
Proof. rewrite select_ordered_perm. apply Permutation_length. apply rows_where_perm, scan_perm. Qed.

Lemma insert_ack_stops rev a db x db' : insert_ack rev a db = Ok (x, db') -> db_stops db' = db_stops db.
Proof.
  unfold insert_ack. intros Hx. inv_ok. destruct (exists_row _ (db_stops db)); inv_ok; by simplify_eq.
Qed.

(** The listing counts the acknowledgments, up to 65. *)
Lemma list_acknowledgments_run owner epoch s l s' :
  list_acknowledgments owner epoch s = (Ok l, s') ->
  s' = Session (s_db s) false /\ length l = length (acks_of owner epoch (s_db s)) /\ (length l <= 64)%nat.
Proof.
  unfold list_acknowledgments. intros Hr. inv_run. subst.
  match goal with Hx : exec _ _ = _ |- _ => apply exec_run_Ok in Hx as (_ & Hf & Hq) end.
  unfold _required_id, _integer in *. inv_ok. subst. unfold select_acks in Hq. inv_ok. simplify_eq.
  rewrite length_fmap. rewrite length_take, ordered_acks_length in *. apply Nat.ltb_ge in Hl.
  split_and!; [destruct s'; cbn in *; congruence|lia..].
Qed.

Lemma acknowledge_body_safe owner mesh peer epoch rev digest at_ r s :
  r ∈ db_stops (s_db s) -> sr_owner_id r = owner -> opt_le (sr_updated_at r) (Some (instant at_)) ->
  stop_safe (s_db s) (s_db (snd (savepoint (acknowledge_body owner mesh peer epoch rev digest at_) s))).
Proof.
  intros Hin Ho Ht. unfold savepoint. destruct (s_failed s); [cbn; reflexivity|].
  destruct (acknowledge_body owner mesh peer epoch rev digest at_ s) as [[a|e] s'] eqn:Hb; [|cbn; reflexivity].
  assert (stop_safe (s_db s) (s_db s')) as Hsafe; [|by destruct (s_failed s')].
  unfold acknowledge_body in Hb. inv_run. apply exec_run_Ok in Hr as (_ & Hf & Hsel%select_ack_same).
  destruct v as [e|]; inv_run; [subst; rewrite Hsel; reflexivity|].
  apply list_acknowledgments_run in Hr0 as (-> & Hlen & _). subst.
  apply exec_run_Ok in Hr2 as (_ & _ & Hins). apply exec_run_Ok in Hr3 as (_ & _ & Hupd). cbn [s_db] in *.
  assert (s' = s5) as -> by (destruct v2, v3; inv_run; congruence || by inv_ok).
  apply raise_if_Ok, Nat.leb_gt in Hl. rewrite <- Hsel in *.
  transitivity (s_db s4); [eapply insert_ack_safe; [|exact Hins]; cbn; lia|].
  inv_ok. eapply (update_stop_safe _ _ _ _ _ r); [| | |exact Hupd].
  - apply insert_ack_stops in Hins. congruence.
  - intros r0 Hp. unfold engaged_fence in Hp. split_bools. congruence.
  - intros Hp. unfold engaged_fence in Hp. split_bools. cbn. split; [|by left]. split; [done|]. right. cbn.
    split_and!; [lia|lia|done|done].
Qed.

Lemma acknowledge_safe owner mesh peer epoch rev digest at_ :
  respects stop_safe (acknowledge owner mesh peer epoch rev digest at_).
Proof.
  unfold acknowledge. do 8 respects_step. apply respects_locked. intros r s Hin Ho.
  apply safe_lift_bind. intros [] _. apply safe_lift_bind. intros [] _.
  apply safe_lift_bind. intros t0 Ht%transition_time_Ok. by apply (acknowledge_body_safe _ _ _ _ _ _ _ r).
Qed.
End Safety.

(** ** Reachable databases *)

Inductive stop_op : Type :=
  | Engage (owner : pystr) (revision : Z) (reason actor : pystr) (at_ : datetime)
  | Resume (owner : pystr) (revision epoch : Z) (at_ : datetime)
  | Acknowledge (owner mesh peer : pystr) (epoch revision : Z) (digest : pystr) (at_ : datetime)
  | BindOperation (owner : pystr) (operation : uuid)
  | AssertOperation (owner : pystr) (operation : uuid)
  | AssertRunning (owner : pystr) (epoch : option Z)
  | Get (owner : pystr) (for_update : bool)
  | ListAcknowledgments (owner : pystr) (epoch : Z).

Section Reachable.

Definition run_stop `{PgEnv} (op : stop_op) : SM stop_db unit :=
  match op with
  | Engage o v r a t => engage o v r a t ;; mret ()
  | Resume o v e t => resume o v e t ;; mret ()
  | Acknowledge o m p e v d t => acknowledge o m p e v d t ;; mret ()
  | BindOperation o i => bind_operation o i ;; mret ()
  | AssertOperation o i => assert_operation o i
  | AssertRunning o e => assert_running o e ;; mret ()
  | Get o f => get o f ;; mret ()
  | ListAcknowledgments o e => list_acknowledgments o e ;; mret ()
  end.

(** A transaction: calls in sequence, each with its error caught or not. *)
Fixpoint run_stops `{PgEnv} (calls : list (bool * stop_op)) : SM stop_db unit :=
  match calls with
  | [] => mret ()
  | (caught, op) :: calls' =>
      (if caught : bool then attempt (run_stop op) else run_stop op) ;; run_stops calls'
  end.

Inductive stop_step : stop_db -> stop_db -> Prop :=
  | step_stops (env : PgEnv) calls db : stop_step db (snd (transaction (run_stops (H := env) calls) db)).

Definition stop_reachable (db : stop_db) : Prop := rtc stop_step (StopDb [] [] []) db.

Lemma run_stop_safe `{PgEnv} op : respects stop_safe (run_stop op).
Proof.
  destruct op; cbn [run_stop]; [| | | |apply assert_operation_safe| | |];
    (apply respects_bind; [apply _| |intros; apply respects_ret, _]);
    auto using engage_safe, resume_safe, acknowledge_safe, bind_operation_safe, assert_running_safe,
      get_safe, list_acknowledgments_safe.
Qed.

Lemma run_stops_safe `{PgEnv} calls : respects stop_safe (run_stops calls).
Proof.
  induction calls as [|[caught op] calls IH]; cbn [run_stops]; [apply respects_ret, _|].
  apply respects_bind; [apply _| |done].
  destruct caught; [apply respects_attempt|]; apply run_stop_safe.
Qed.

Lemma stop_steps_safe db db' : rtc stop_step db db' -> stop_safe db db'.
Proof.
  induction 1 as [db|d1 d2 d3 Hs _ IH]; [reflexivity|]. transitivity d2; [|done].
  destruct Hs. apply respects_transaction; [apply _|]. apply run_stops_safe.
Qed.

Lemma stop_reachable_inv db : stop_reachable db -> stop_inv db.
Proof.
  intros Hr. apply (stop_steps_safe _ _ Hr). split; cbn; try done; try (by constructor);
    try (intros; by match goal with Hx : _ ∈ [] |- _ => apply not_elem_of_nil in Hx end).
  intros owner epoch. unfold acks_of. cbn. lia.
Qed.
End Reachable.
