(* ===== verification/StopClaims.v ===== *)
(** * Theorems about owner stops

    The stop fence, the exact transitions of an owner's stop state and the
    stored acknowledgments, with concrete instances. *)

From S2P Require Import Prelude Regex Errors Domain Pg StopEpochs StopSpec.

Section Claims.
Context `{PgEnv}.
Implicit Types (db : stop_db) (s : session stop_db).

(** An owner identity the repository accepts and PostgreSQL stores. *)
Definition valid_owner (owner : pystr) : Prop :=
  _required_id owner "owner_id" 512 = Ok owner /\ storable owner = true.

Lemma required_id_Ok value field maximum v :
  _required_id value field maximum = Ok v ->
  v = value /\ (1 <= length value <= maximum)%nat.
Proof.
  unfold _required_id. intros Hr. inv_ok. subst. split_bools. apply Nat.ltb_ge in Hs0.
  split; [done|]. destruct v; cbn in *; [|lia]. by destruct Hs.
Qed.

Lemma char_between_true lo hi v : (lo <= length v <= hi)%nat -> char_between lo hi v = true.
Proof. intros Hl. unfold char_between. rewrite (proj2 (Nat.leb_le _ _)), (proj2 (Nat.leb_le _ _)); [done|lia..]. Qed.

Lemma anchor_checks owner : valid_owner owner -> check_stop_row (anchor owner) = Ok ().
Proof.
  intros [[_ Hl]%required_id_Ok _]. unfold check_stop_row, stop_checks. cbn.
  by rewrite char_between_true by done.
Qed.

Lemma with_anchor_stop_of owner db : stop_of owner (with_anchor owner db) = stop_of owner db.
Proof.
  unfold with_anchor. destruct (owner_exists owner (db_stops db)) eqn:He; [done|].
  rewrite (stop_of_absent db owner He). unfold stop_of, owner_exists in *. cbn. rewrite exists_row_false in He.
  unfold rows_where. rewrite List.filter_app. fold (rows_where (fun r => bool_decide (sr_owner_id r = owner)) (db_stops db)).
  rewrite (proj2 (rows_where_nil _ _) He). cbn. by rewrite bool_decide_eq_true_2.
Qed.

Lemma with_anchor_elem owner db : stop_inv db -> valid_owner owner ->
  stop_inv (with_anchor owner db) /\ stop_of owner db ∈ db_stops (with_anchor owner db).
Proof.
  intros Hi Hv. destruct (with_anchor_safe owner db (anchor_checks owner Hv) Hi) as [Hi' _]. split; [done|].
  assert (exists r, r ∈ db_stops (with_anchor owner db) /\ sr_owner_id r = owner) as (r & Hr & <-).
  { unfold with_anchor. destruct (owner_exists owner (db_stops db)) eqn:He; [by apply owner_exists_elem|].
    exists (anchor owner). split; [|done]. cbn. apply elem_of_app. right. by left. }
  by rewrite <- with_anchor_stop_of, (stop_of_stored _ r).
Qed.

Lemma select_stop_stored owner db :
  stop_inv db -> storable owner = true -> stop_of owner db ∈ db_stops db ->
  select_stop owner db = Ok (Some (stop_of owner db), db).
Proof.
  intros Hi Hst Hin. unfold select_stop, text_params. cbn. rewrite Hst. cbn. f_equal. f_equal.
  apply select_one_unique; [done|by apply bool_decide_eq_true, stop_of_owner|].
  intros r Hr Ho%bool_decide_eq_true. apply (stop_unique db); auto. by rewrite stop_of_owner.
Qed.

(** The lock returns the owner's stop state. *)
Lemma locked_exact owner db :
  stop_inv db -> valid_owner owner ->
  _locked owner (Session db false) = (Ok (stop_of owner db), Session (with_anchor owner db) false).
Proof.
  intros Hi Hv. destruct (with_anchor_elem owner db Hi Hv) as [Hi' Hin].
  unfold _locked, exec, mbind, SM_mbind. cbn [s_failed s_db].
  assert (insert_anchor owner db = Ok ((), with_anchor owner db)) as ->.
  { unfold insert_anchor, insert_do_nothing, text_params. cbn. rewrite (proj2 Hv). cbn.
    rewrite (anchor_checks owner Hv). cbn. unfold with_anchor.
    rewrite owner_exists_conflict. destruct (exists_row _ _); [by destruct db|done]. }
  cbn [s_failed s_db].
  rewrite <- with_anchor_stop_of in Hin |- *. by rewrite (select_stop_stored owner (with_anchor owner db) Hi' (proj2 Hv) Hin).
Qed.

(** ** The fence *)

Lemma update_stop_head p f db r db' :
  update_stop p f db = Ok (Some r, db') ->
  exists old, old ∈ db_stops db /\ p old = true /\ r = f old /\ r ∈ db_stops db'.
Proof.
  unfold update_stop. intros Hu. inv_ok. destruct v as [rs t]. injection Hu as Hh <-. cbn.
  apply update_returning_Ok in Hs as (_ & -> & -> & _).
  destruct (rows_where p (db_stops db)) as [|old l] eqn:Hrows; [done|]. cbn in Hh. simplify_eq.
  assert (old ∈ old :: l) as Hin by left. rewrite <- Hrows in Hin. apply elem_of_rows_where in Hin as [Hin Hp].
  exists old. split_and!; [done|done|done|]. apply elem_of_update_where. exists old. by rewrite Hp.
Qed.

Lemma engage_run owner rev reason actor at_ s rec s' :
  engage owner rev reason actor at_ s = (Ok rec, s') ->
  exists r, r ∈ db_stops (s_db s') /\ sr_owner_id r = owner /\ sr_engaged r = true /\ rec = _record r.
Proof.
  unfold engage. intros Hr. inv_run. subst.
  match goal with Hx : _required_id owner _ _ = Ok _ |- _ => apply required_id_Ok in Hx as [-> _] end.
  match goal with Hx : _locked _ _ = _ |- _ => apply locked_run in Hx as (_ & _ & _ & Hin & Ho) end.
  destruct (sr_engaged _) eqn:Hg; inv_run; subst; [by eauto|].
  match goal with Hx : exec _ _ = (Ok ?c, _) |- _ => apply exec_run_Ok in Hx as (_ & _ & Hx); destruct c as [r|];
    [|inv_run; inv_ok] end.
  inv_run. simplify_eq. inv_ok.
  match goal with Hx : update_stop _ _ _ = _ |- _ => apply update_stop_head in Hx as (old & Hold & Hp & -> & Hin') end.
  unfold engage_fence in Hp. split_bools. eauto.
Qed.

Lemma engaged_epoch db r : stop_inv db -> r ∈ db_stops db -> sr_engaged r = true -> 1 <= sr_epoch r.
Proof.
  intros Hi Hr Hg. pose proof (proj1 (Forall_forall _ _) (si_rows _ Hi) r Hr) as Hc.
  unfold check_stop_row, stop_checks, stop_state_check in Hc. inv_ok. split_bools.
  rewrite Hg in *. cbn in *.
  match goal with Hx : _ || _ = true |- _ => apply orb_true_iff in Hx as [Hx|Hx] end; split_bools; done || lia.
Qed.

(** What an operation has to show to run. *)
Lemma assert_operation_run owner op s u s' :
  assert_operation owner op s = (Ok u, s') -> stop_inv (s_db s) ->
  exists r, r ∈ db_stops (with_anchor owner (s_db s)) /\ sr_owner_id r = owner /\ sr_engaged r = false
    /\ ((sr_epoch r = 0 /\ forall o, o ∈ db_operations (s_db s) -> (ro_owner o, ro_operation_id o) <> (owner, op))
        \/ exists o, o ∈ db_operations (s_db s) /\ ro_owner o = owner /\ ro_operation_id o = op
                       /\ ro_epoch o = sr_epoch r).
Proof.
  unfold assert_operation. intros Hr Hi. inv_run. subst.
  match goal with Hx : _required_id owner _ _ = Ok _ |- _ => apply required_id_Ok in Hx as [-> _] end.
  match goal with Hx : _locked _ _ = (Ok ?r0, _) |- _ =>
    apply locked_run in Hx as (_ & Hdb & _ & Hin & Ho); exists r0 end.
  match goal with Hx : exec _ _ = _ |- _ => apply exec_run_Ok in Hx as (_ & _ & Hx) end.
  unfold select_operation in *. inv_ok. simplify_eq. rewrite Hdb in *.
  assert (forall x, db_operations (with_anchor x (s_db s)) = db_operations (s_db s)) as Eops
    by (intros x; unfold with_anchor; by destruct (owner_exists _ _)).
  split_bools. split_and!; [done|done|done|].
  destruct (select_one _ _ _) as [b|] eqn:Hsel; split_bools.
  - right. apply select_one_Some in Hsel as [Hb Hk%bool_decide_eq_true]. simplify_eq. rewrite Eops in Hb.
    exists b. split_and!; done || lia.
  - left. split; [lia|]. rewrite select_one_None, Eops in Hsel. intros o Ho' Hk. specialize (Hsel o Ho').
    by rewrite bool_decide_eq_true_2 in Hsel.
Qed.
End Claims.

(** ** The transitions as functions of the stop state *)

Section Transitions.
Context `{PgEnv}.
Implicit Types db : stop_db.

(** The stop state of an owner: its row, or a state that never was engaged. *)
Definition never_stopped (owner : pystr) : stop_row :=
  {| sr_owner_id := owner; sr_epoch := 0; sr_revision := 0; sr_engaged := false; sr_engaged_at := None;
     sr_engaged_by := None; sr_reason := None; sr_updated_at := None |}.
Definition state_of (owner : pystr) db : stop_row :=
  default (never_stopped owner) (head (rows_where (fun r => bool_decide (sr_owner_id r = owner)) (db_stops db))).

(** The record a caller sees of a state. *)
Definition reported_state (r : stop_row) : OwnerStopRecord :=
  {| os_owner_id := sr_owner_id r; os_epoch := sr_epoch r; os_revision := sr_revision r;
     os_engaged := sr_engaged r; os_engaged_at := utc <$> sr_engaged_at r;
     os_engaged_by := sr_engaged_by r; os_reason := sr_reason r |}.

Definition changed_after (now : Z) (r : stop_row) : Prop :=
  match sr_updated_at r with Some t => now < t | None => False end.
#[global] Instance changed_after_dec now r : Decision (changed_after now r).
Proof. unfold changed_after. destruct (sr_updated_at r); apply _. Defined.
Abbreviation conflict text := (raise StopEpochConflictError text).

(** What an engagement at [now] makes of a state: a stale revision, a changed
    replay, a time before the last change and full counters are conflicts; an
    identical replay keeps the state; otherwise epoch and revision count up and
    the stop is engaged with its time, actor and reason. *)
Definition engage_spec (rev : Z) (reason actor : pystr) (now : Z) (r : stop_row) : result stop_row :=
  if decide (sr_revision r <> rev) then conflict "owner stop revision changed"
  else if sr_engaged r then
    if decide (sr_reason r = Some reason /\ sr_engaged_by r = Some actor /\ sr_engaged_at r = Some now)
    then Ok r else conflict "engaged stop replay changed immutable semantics"
  else if decide (changed_after now r) then conflict "owner stop transition time regressed"
  else if decide (sr_epoch r = 2 ^ 63 - 1 \/ rev = 2 ^ 63 - 1) then conflict "owner stop counters exhausted"
  else Ok {| sr_owner_id := sr_owner_id r; sr_epoch := sr_epoch r + 1; sr_revision := rev + 1;
             sr_engaged := true; sr_engaged_at := Some now; sr_engaged_by := Some actor;
             sr_reason := Some reason; sr_updated_at := Some now |}.

(** What a resumption at [now] makes of it: only the engaged epoch that was named
    is resumed; the epoch and the history of the stop stay, the revision counts
    up and the stop is no longer engaged. *)
Definition resume_spec (rev epoch : Z) (now : Z) (r : stop_row) : result stop_row :=
  if decide (sr_revision r <> rev) then conflict "owner stop revision changed"
  else if decide (sr_engaged r = false \/ sr_epoch r <> epoch) then conflict "owner stop epoch or state changed"
  else if decide (changed_after now r) then conflict "owner stop transition time regressed"
  else if decide (rev = 2 ^ 63 - 1) then conflict "owner stop counters exhausted"
  else Ok {| sr_owner_id := sr_owner_id r; sr_epoch := epoch; sr_revision := rev + 1;
             sr_engaged := false; sr_engaged_at := sr_engaged_at r; sr_engaged_by := sr_engaged_by r;
             sr_reason := sr_reason r; sr_updated_at := Some now |}.

(** A run that does to one owner's stop state what a function says, and to
    nothing else anything. *)
Definition transition_of (owner : pystr) (f : stop_row -> result stop_row) db
    (run : result OwnerStopRecord * stop_db) : Prop :=
  fst run = match f (state_of owner db) with Ok r => Ok (reported_state r) | Err e => Err e end
  /\ state_of owner (snd run) = match f (state_of owner db) with Ok r => r | Err _ => state_of owner db end
  /\ (forall other, other <> owner -> state_of other (snd run) = state_of other db)
  /\ db_acks (snd run) = db_acks db /\ db_operations (snd run) = db_operations db.

(** The code's checks in the same order. *)
Lemma transition_time_decide r now :
  _transition_time r (utc now) = if decide (changed_after now r) then conflict "owner stop transition time regressed" else Ok ().
Proof.
  unfold _transition_time. rewrite instant_utc. case_decide as Hc; unfold changed_after in Hc; destruct (sr_updated_at r) as [t|]; try done.
  - by rewrite (proj2 (Z.ltb_lt _ _) Hc).
  - rewrite (proj2 (Z.ltb_ge _ _)) by lia. done.
Qed.

Lemma engage_spec_code rev reason actor now r :
  engage_spec rev reason actor now r
  = (_fence r rev ;;
     if sr_engaged r then
       if bool_decide ((sr_reason r, sr_engaged_by r, sr_engaged_at r) = (Some reason, Some actor, Some (instant (utc now))))
       then Ok r else conflict "engaged stop replay changed immutable semantics"
     else
       _transition_time r (utc now) ;;
       if (sr_epoch r =? _MAX_INT) || (sr_revision r =? _MAX_INT) then conflict "owner stop counters exhausted"
       else Ok (engage_set (instant (utc now)) actor reason r)).
Proof.
  unfold engage_spec, _fence. rewrite transition_time_decide, instant_utc.
  destruct (Z.eqb_spec (sr_revision r) rev) as [<-|]; case_decide as Hne; cbn; try (done || congruence); [].
  destruct (sr_engaged r).
  - case_decide as H1; case_bool_decide as H2; try done.
    + destruct H2. by destruct H1 as (-> & -> & ->).
    + destruct H1. by injection H2.
  - case_decide; cbn; [done|]. change _MAX_INT with (2 ^ 63 - 1).
    destruct (Z.eqb_spec (sr_epoch r) (2 ^ 63 - 1)), (Z.eqb_spec (sr_revision r) (2 ^ 63 - 1)); case_decide; cbn; (done || lia).
Qed.

Lemma resume_spec_code rev epoch now r :
  resume_spec rev epoch now r
  = (_fence r rev ;;
     if negb (sr_engaged r) || negb (sr_epoch r =? epoch) then conflict "owner stop epoch or state changed"
     else
       _transition_time r (utc now) ;;
       if sr_revision r =? _MAX_INT then conflict "owner stop counters exhausted"
       else Ok (resume_set (instant (utc now)) r)).
Proof.
  unfold resume_spec, _fence. rewrite transition_time_decide, instant_utc.
  destruct (Z.eqb_spec (sr_revision r) rev) as [<-|]; case_decide as Hne; cbn; try (done || congruence); [].
  destruct (sr_engaged r), (Z.eqb_spec (sr_epoch r) epoch) as [<-|]; case_decide as H1; cbn; try (done || tauto); try by destruct H1; auto.
  case_decide; cbn; [done|]. change _MAX_INT with (2 ^ 63 - 1). destruct (Z.eqb_spec (sr_revision r) (2 ^ 63 - 1)); case_decide; done.
Qed.

Lemma transition_of_code owner f db run :
  transition_of owner f db run <->
  (fst run = match f (stop_of owner db) with Ok r => Ok (_record r) | Err e => Err e end
   /\ stop_of owner (snd run) = match f (stop_of owner db) with Ok r => r | Err _ => stop_of owner db end
   /\ (forall other, other <> owner -> stop_of other (snd run) = stop_of other db)
   /\ db_acks (snd run) = db_acks db /\ db_operations (snd run) = db_operations db).
Proof. reflexivity. Qed.

Lemma with_anchor_other owner other db : other <> owner -> stop_of other (with_anchor owner db) = stop_of other db.
Proof.
  intros Hne. unfold with_anchor. destruct (owner_exists owner (db_stops db)); [done|].
  unfold stop_of. cbn. rewrite rows_where_snoc; [done|]. by apply bool_decide_eq_false_2.
Qed.

(** A refused transition leaves the database as it was. *)
Lemma transition_refused owner f db e :
  f (stop_of owner db) = Err e -> transition_of owner f db (Err e, db).
Proof. intros Hf. rewrite transition_of_code. cbn. by rewrite Hf. Qed.

(** A replay provisions the anchor at most. *)
Lemma transition_replayed owner f db :
  f (stop_of owner db) = Ok (stop_of owner db) ->
  transition_of owner f db (Ok (_record (stop_of owner db)), with_anchor owner db).
Proof.
  intros Hf. rewrite transition_of_code. cbn. rewrite Hf. split_and!; [done|apply with_anchor_stop_of| | |].
  - intros other Hne. by apply with_anchor_other.
  - unfold with_anchor. by destruct (owner_exists _ _).
  - unfold with_anchor. by destruct (owner_exists _ _).
Qed.

(** An update of the locked row. *)
Lemma update_stop_exact owner p f db :
  stop_inv db -> valid_owner owner ->
  p (stop_of owner db) = true -> (forall r, p r = true -> sr_owner_id r = owner) ->
  (forall r, sr_owner_id (f r) = sr_owner_id r) -> check_stop_row (f (stop_of owner db)) = Ok () ->
  let t := update_where p f (db_stops (with_anchor owner db)) in
  update_stop p f (with_anchor owner db) = Ok (Some (f (stop_of owner db)), set_stops t (with_anchor owner db))
  /\ stop_of owner (set_stops t (with_anchor owner db)) = f (stop_of owner db)
  /\ (forall other, other <> owner -> stop_of other (set_stops t (with_anchor owner db)) = stop_of other db).
Proof.
  intros Hi Hv Hp Hown Hf Hc t. destruct (with_anchor_elem owner db Hi Hv) as [Hi' Hin].
  set (r := stop_of owner db) in *.
  assert (rows_where p (db_stops (with_anchor owner db)) = [r]) as Hrows.
  { apply (rows_where_unique stop_conflict); [apply Hi'| |done|done].
    intros a b Ha%Hown Hb%Hown. apply bool_decide_eq_true. congruence. }
  assert (unique_ok stop_conflict t = true) as Hu.
  { unfold t, update_where. rewrite unique_ok_fmap; [apply Hi'|]. intros a b. unfold stop_conflict.
    apply bool_decide_ext. destruct (p a), (p b); rewrite ?Hf; done. }
  assert (rows_where (fun x => bool_decide (sr_owner_id x = owner)) t = [f r]) as Hsel.
  { apply (rows_where_unique stop_conflict); [done| | |].
    - intros a b Ha%bool_decide_eq_true Hb%bool_decide_eq_true. apply bool_decide_eq_true. congruence.
    - apply elem_of_update_where. exists r. by rewrite Hp.
    - apply bool_decide_eq_true. rewrite Hf. apply stop_of_owner. }
  split_and!.
  - unfold update_stop, update_returning. fold t. rewrite Hrows. cbn. rewrite Hc. cbn. by rewrite Hu.
  - unfold stop_of at 1. cbn [db_stops set_stops]. by rewrite Hsel.
  - intros other Hne. rewrite <- (with_anchor_other owner other db Hne). unfold stop_of. cbn [db_stops set_stops]. unfold t.
    rewrite rows_where_update; [done|]. intros r0 P0%Hown. rewrite Hf.
    split; apply bool_decide_eq_false_2; congruence.
Qed.

Lemma stop_of_checks owner db : stop_inv db -> valid_owner owner -> check_stop_row (stop_of owner db) = Ok ().
Proof.
  intros Hi Hv. destruct (with_anchor_elem owner db Hi Hv) as [Hi' Hin].
  apply (proj1 (Forall_forall _ _) (si_rows _ Hi') _ Hin).
Qed.

Lemma check_stop_row_iff r :
  check_stop_row r = Ok () <-> is_int8 (sr_epoch r) = true /\ is_int8 (sr_revision r) = true /\ stop_checks r = true.
Proof.
  unfold check_stop_row. destruct (is_int8 (sr_epoch r)), (is_int8 (sr_revision r)), (stop_checks r); cbn; naive_solver.
Qed.

(** Rows the transitions write satisfy the schema. *)
Lemma engage_set_checks actor reason at_ r :
  check_stop_row r = Ok () -> sr_epoch r <> _MAX_INT -> sr_revision r <> _MAX_INT ->
  char_between 1 512 actor = true -> char_between 0 280 reason = true ->
  check_stop_row (engage_set at_ actor reason r) = Ok ().
Proof.
  rewrite !check_stop_row_iff. unfold stop_checks, stop_state_check, is_int8, _MAX_INT.
  cbn [engage_set sr_epoch sr_revision sr_owner_id sr_engaged sr_engaged_at sr_engaged_by sr_reason sr_updated_at
       null_ok is_some negb].
  intros (He & Hr & Hc) Ne Nr Ha Hre. rewrite Ha, Hre, Z.leb_refl. split_bools.
  assert (sr_epoch r <= sr_revision r) as Hle
    by (match goal with Hx : _ || _ = true |- _ => apply orb_true_iff in Hx as [Hx|Hx] end; split_bools; lia).
  rewrite ?andb_true_r. split_and!; [apply andb_true_iff; split; apply Z.leb_le; lia..|].
  match goal with Hx : char_between 1 512 (sr_owner_id r) = true |- _ => rewrite Hx end. cbn.
  rewrite !(proj2 (Z.leb_le _ _)) by lia. cbn. by rewrite orb_true_r.
Qed.

Lemma resume_set_checks at_ r :
  check_stop_row r = Ok () -> sr_engaged r = true -> sr_revision r <> _MAX_INT ->
  opt_le (sr_updated_at r) (Some at_) -> check_stop_row (resume_set at_ r) = Ok ().
Proof.
  rewrite !check_stop_row_iff. unfold stop_checks, stop_state_check, is_int8, _MAX_INT.
  cbn [resume_set sr_epoch sr_revision sr_owner_id sr_engaged sr_engaged_at sr_engaged_by sr_reason sr_updated_at].
  intros (He & Hr & Hc) Hg Nr Ht. rewrite Hg in Hc. cbn [negb] in Hc. rewrite ?andb_false_r in Hc. cbn in Hc.
  split_bools. split_and!; [apply andb_true_iff; split; apply Z.leb_le; lia..|].
  destruct (sr_engaged_at r), (sr_updated_at r), (sr_engaged_by r), (sr_reason r); try done. cbn in *. split_bools.
  repeat match goal with
  | Hx : char_between _ _ _ = true |- _ => rewrite Hx; clear Hx
  | Hx : (_ <=? _)%nat = true |- _ => rewrite Hx; clear Hx
  end. cbn. rewrite !(proj2 (Z.leb_le _ _)) by lia. cbn. by rewrite ?andb_true_r, ?andb_false_r, ?orb_true_r.
Qed.

(** A text argument as the schema wants it. *)
Lemma stop_text_Ok value field maximum empty v :
  _bounded_text value field maximum empty = Ok v -> v = value /\ (length value <= maximum)%nat.
Proof. unfold _bounded_text. intros Hb. inv_ok. subst. apply Nat.ltb_ge in Hs0. done. Qed.

Lemma transition_committed owner f g p db :
  stop_inv db -> valid_owner owner -> f (stop_of owner db) = Ok (g (stop_of owner db)) ->
  p (stop_of owner db) = true -> (forall r, p r = true -> sr_owner_id r = owner) ->
  (forall r, sr_owner_id (g r) = sr_owner_id r) -> check_stop_row (g (stop_of owner db)) = Ok () ->
  exists db', update_stop p g (with_anchor owner db) = Ok (Some (g (stop_of owner db)), db')
    /\ transition_of owner f db (Ok (_record (g (stop_of owner db))), db').
Proof.
  intros Hi Hv Hf Hp Hown Hg Hc.
  destruct (update_stop_exact owner p g db Hi Hv Hp Hown Hg Hc) as (Hu & H1 & H2).
  eexists. split; [exact Hu|]. rewrite transition_of_code. cbn [fst snd]. rewrite Hf. split_and!; try done.
  - cbn. unfold with_anchor. by destruct (owner_exists _ _).
  - cbn. unfold with_anchor. by destruct (owner_exists _ _).
Qed.

Lemma engage_exact_run owner rev reason actor at_ db :
  stop_inv db -> valid_owner owner -> 0 <= rev <= _MAX_INT -> _required_id actor "actor_id" 512 = Ok actor ->
  (length reason <= 280)%nat -> storable actor = true -> storable reason = true ->
  transition_of owner (engage_spec rev reason actor at_) db
    (transaction (engage owner rev reason actor (utc at_)) db).
Proof.
  intros Hi Hv Hrev Hactor Hreason Sa Sr. unfold transaction, engage, mbind, SM_mbind, lift.
  rewrite (proj1 Hv). unfold _integer. rewrite !(proj2 (Z.leb_le _ _)) by lia. cbn [andb raise_unless].
  rewrite Hactor. unfold _bounded_text. rewrite (proj2 (Nat.ltb_ge _ _)) by done. cbn [negb andb raise_if].
  rewrite !bind_Ok. cbn [_time utc]. rewrite (locked_exact owner db Hi Hv). set (r := stop_of owner db).
  unfold _fence. destruct (sr_revision r =? rev) eqn:Erev; cbn [raise_unless];
    [|apply transition_refused; rewrite engage_spec_code; unfold _fence; fold r; by rewrite Erev].
  apply Z.eqb_eq in Erev.
  assert (engage_spec rev reason actor at_ r
    = if sr_engaged r then
        if bool_decide ((sr_reason r, sr_engaged_by r, sr_engaged_at r) = (Some reason, Some actor, Some (instant (utc at_))))
        then Ok r else raise StopEpochConflictError "engaged stop replay changed immutable semantics"
      else _transition_time r (utc at_) ;;
        if (sr_epoch r =? _MAX_INT) || (sr_revision r =? _MAX_INT)
        then raise StopEpochConflictError "owner stop counters exhausted"
        else Ok (engage_set (instant (utc at_)) actor reason r)) as Hspec
    by (rewrite engage_spec_code; unfold _fence; by rewrite (proj2 (Z.eqb_eq _ _) Erev)).
  destruct (sr_engaged r) eqn:Eg.
  - case_bool_decide as E1; case_bool_decide as E2; try tauto; cbn [raise_if].
    + apply transition_replayed. by fold r.
    + by apply transition_refused.
  - destruct (_transition_time r (utc at_)) as [[]|e] eqn:Et; [|by apply transition_refused].
    rewrite Erev in Hspec. destruct ((sr_epoch r =? _MAX_INT) || (rev =? _MAX_INT)) eqn:Ex; cbn [raise_if];
      [by apply transition_refused|].
    cbn in Hspec. apply orb_false_iff in Ex as [Ex1%Z.eqb_neq Ex2%Z.eqb_neq].
    destruct (transition_committed owner (engage_spec rev reason actor at_) (engage_set (instant (utc at_)) actor reason)
      (engage_fence owner rev) db) as (db' & Hu & Ht); try done.
    + unfold engage_fence. fold r. rewrite Eg, (proj2 (Z.eqb_eq _ _) Erev).
      rewrite bool_decide_eq_true_2; [done|]. apply stop_of_owner.
    + intros x Hx. unfold engage_fence in Hx. by split_bools.
    + apply engage_set_checks; try (fold r; congruence); [by apply stop_of_checks| |apply char_between_true; lia].
      apply required_id_Ok in Hactor as [_ Ha]. by apply char_between_true.
    + unfold exec, text_params. cbn [s_failed s_db forallb]. rewrite Sa, Sr, (proj2 Hv). cbn [andb raise_unless mbind outcome_mbind outcome_bind].
      by rewrite Hu.
Qed.

Lemma resume_exact_run owner rev epoch at_ db :
  stop_inv db -> valid_owner owner -> 0 <= rev <= _MAX_INT -> 0 <= epoch <= _MAX_INT ->
  transition_of owner (resume_spec rev epoch at_) db
    (transaction (resume owner rev epoch (utc at_)) db).
Proof.
  intros Hi Hv Hrev Hep. unfold transaction, resume, mbind, SM_mbind, lift.
  rewrite (proj1 Hv). unfold _integer. rewrite !(proj2 (Z.leb_le _ _)) by lia. cbn [andb raise_unless].
  rewrite !bind_Ok. cbn [_time utc]. rewrite (locked_exact owner db Hi Hv). set (r := stop_of owner db).
  unfold _fence. destruct (sr_revision r =? rev) eqn:Erev; cbn [raise_unless];
    [|apply transition_refused; rewrite resume_spec_code; unfold _fence; fold r; by rewrite Erev].
  assert (resume_spec rev epoch at_ r
    = if negb (sr_engaged r) || negb (sr_epoch r =? epoch)
      then raise StopEpochConflictError "owner stop epoch or state changed"
      else _transition_time r (utc at_) ;;
        if sr_revision r =? _MAX_INT then raise StopEpochConflictError "owner stop counters exhausted"
        else Ok (resume_set (instant (utc at_)) r)) as Hspec
    by (rewrite resume_spec_code; unfold _fence; by rewrite Erev).
  apply Z.eqb_eq in Erev. rewrite Erev in Hspec.
  destruct (negb (sr_engaged r) || negb (sr_epoch r =? epoch)) eqn:Eg; cbn [raise_if]; [by apply transition_refused|].
  apply orb_false_iff in Eg as [Eg%negb_false_iff Ee%negb_false_iff].
  destruct (_transition_time r (utc at_)) as [[]|e] eqn:Et; [|by apply transition_refused].
  destruct (rev =? _MAX_INT) eqn:Ex; cbn [raise_if]; [by apply transition_refused|].
  cbn in Hspec. apply Z.eqb_neq in Ex.
  destruct (transition_committed owner (resume_spec rev epoch at_) (resume_set (instant (utc at_)))
    (engaged_fence owner rev epoch) db) as (db' & Hu & Ht); try done.
  - unfold engaged_fence. fold r. rewrite Eg, Ee, (proj2 (Z.eqb_eq _ _) Erev).
    rewrite bool_decide_eq_true_2; [done|]. apply stop_of_owner.
  - intros x Hx. unfold engaged_fence in Hx. by split_bools.
  - apply resume_set_checks; [by apply stop_of_checks|done|fold r; congruence|].
    by apply transition_time_Ok in Et.
  - unfold exec, text_params. cbn [s_failed s_db forallb]. rewrite (proj2 Hv). cbn [andb raise_unless mbind outcome_mbind outcome_bind].
    by rewrite Hu.
Qed.
End Transitions.



Section Theorems.
Implicit Types db : stop_db.

(** C4: a stop is final for the work it found.  After an engagement returned, an
    operation passes [assert_operation], at any later time and whatever
    committed in between, only if it was bound after the engagement, under an
    epoch that began with it or later, and the owner has been resumed. *)
Theorem stop_fence (env1 env2 : PgEnv) owner rev reason actor at_ op db rec db1 db2 db3
    (Hreach : stop_reachable db)
    (Hstop : transaction (engage (H := env1) owner rev reason actor at_) db = (Ok rec, db1))
    (Hlater : rtc stop_step db1 db2)
    (Hpass : transaction (assert_operation (H := env2) owner op) db2 = (Ok (), db3)) :
  exists o, o ∈ db_operations db2 /\ ~ (o ∈ db_operations db1)
    /\ ro_owner o = owner /\ ro_operation_id o = op
    /\ os_epoch rec <= ro_epoch o /\ sr_epoch (stop_of owner db2) = ro_epoch o
    /\ sr_engaged (stop_of owner db2) = false.
Proof.
  pose proof (stop_reachable_inv db Hreach) as Hi.
  pose proof (respects_transaction stop_safe _ db (engage_safe (H := env1) owner rev reason actor at_) Hi) as [Hi1 _].
  rewrite Hstop in Hi1. cbn in Hi1. destruct (stop_steps_safe db1 db2 Hlater Hi1) as [Hi2 He2].
  apply transaction_run in Hstop as (s1 & Hrun1 & _ & <-).
  apply engage_run in Hrun1 as (r1 & Hr1 & Ho1 & Hg1 & ->).
  pose proof (engaged_epoch _ _ Hi1 Hr1 Hg1) as Hpos.
  destruct (table_evolves_elem _ _ _ r1 (se_stops _ _ He2) Hr1) as (r2 & Hr2 & Ho2 & Hev).
  assert (sr_epoch r1 <= sr_epoch r2) as Hmono by (destruct Hev as [->|(_ & ? & _)]; lia).
  apply transaction_run in Hpass as (s3 & Hrun2 & _ & _).
  apply assert_operation_run in Hrun2 as (r & Hr & Ho & Hg & Hcase); [|done]. cbn [s_db] in *.
  assert (with_anchor owner db2 = db2) as Ea.
  { unfold with_anchor. assert (owner_exists owner (db_stops db2) = true) as ->; [|done].
    apply owner_exists_elem. exists r2. split; [done|congruence]. }
  rewrite Ea in Hr. assert (r = r2) as -> by (apply (stop_unique db2); auto; congruence).
  assert (stop_of owner db2 = r2) as Es by (rewrite <- Ho; by apply stop_of_stored).
  destruct Hcase as [[? _]|(o & Hin & Ho' & Hop & Hep)]; [lia|].
  exists o. rewrite Es. cbn. split_and!; [done| |done|done|lia|done|done].
  intros Hold. destruct (si_operations _ Hi1 o Hold) as (r0 & Hr0 & Hown & _ & Hlt).
  assert (r0 = r1) as -> by (apply (stop_unique (s_db s1)); auto; congruence). specialize (Hlt Hg1). lia.
Qed.

(** The stop state of an owner on every reachable database.  Every stored
    row satisfies the constraints of the schema; epochs, revisions and
    transition times never go back and every change advances the revision;
    within an epoch the engagement's time, actor and reason stay and a resumed
    owner stays resumed; acknowledgments and operation bindings are never
    changed or removed; and an epoch has at most 64 acknowledgments. *)
Theorem stop_state_machine db db' r owner epoch
    (Hreach : stop_reachable db) (Hlater : rtc stop_step db db') (Hr : r ∈ db_stops db) :
  stop_inv db'
  /\ (exists r', r' ∈ db_stops db' /\ stop_evolves r r' /\ stop_of (sr_owner_id r) db' = r')
  /\ (forall a, a ∈ db_acks db -> a ∈ db_acks db')
  /\ (forall o, o ∈ db_operations db -> o ∈ db_operations db')
  /\ (length (acks_of owner epoch db') <= 64)%nat.
Proof.
  destruct (stop_steps_safe db db' Hlater (stop_reachable_inv db Hreach)) as [Hi' [Hs [na Ha] [no Ho]]].
  destruct (table_evolves_elem _ _ _ r Hs Hr) as (r' & Hr' & Hev).
  split_and!; [done| | | |apply Hi'].
  - exists r'. split_and!; [done|done|]. rewrite <- (proj1 Hev). by apply stop_of_stored.
  - rewrite Ha. intros a Hin. apply elem_of_app. by left.
  - rewrite Ho. intros o Hin. apply elem_of_app. by left.
Qed.

(** C23: engaging and resuming refine two functions of the owner's stop state.
    For arguments the validators accept, each call returns or raises what the
    function says of the stop state (absent rows counting as the anchor), stores
    the state the function gives, and touches no other owner's state, no
    acknowledgment and no binding: revision fence first, then replay or state,
    then time order, then counter exhaustion. *)
Theorem stop_transitions_exact (env : PgEnv) owner rev db
    (Hreach : stop_reachable db) (Hv : valid_owner owner) (Hrev : 0 <= rev <= _MAX_INT) :
  (forall reason actor at_, _required_id actor "actor_id" 512 = Ok actor -> (length reason <= 280)%nat ->
     storable actor = true -> storable reason = true ->
     transition_of owner (engage_spec rev reason actor at_) db
       (transaction (engage owner rev reason actor (utc at_)) db))
  /\ (forall epoch at_, 0 <= epoch <= _MAX_INT ->
     transition_of owner (resume_spec rev epoch at_) db
       (transaction (resume owner rev epoch (utc at_)) db)).
Proof.
  pose proof (stop_reachable_inv db Hreach) as Hi.
  split; intros; [by apply engage_exact_run | by apply resume_exact_run].
Qed.
End Theorems.

(** ** Concrete instances *)

Definition alice : pystr := u "alice".
Definition an_operation : uuid := 7%N.
Definition later_operation : uuid := 8%N.

Definition bound_db : stop_db :=
  snd (transaction (run_stops [(false, BindOperation alice an_operation)]) (StopDb [] [] [])).
Definition stopped_db : stop_db :=
  snd (transaction (engage alice 0 (u "incident") (u "operator") (utc 100)) bound_db).
Definition resumed_db : stop_db :=
  snd (transaction (run_stops [(false, Resume alice 1 1 (utc 200)); (false, BindOperation alice later_operation)])
         stopped_db).

Lemma bound_reachable : stop_reachable bound_db.
Proof. apply rtc_once. constructor. Qed.

Lemma stop_fence_witness :
  exists o, o ∈ db_operations resumed_db /\ ~ (o ∈ db_operations stopped_db)
    /\ ro_operation_id o = later_operation.
Proof.
  destruct (stop_fence pg_reference pg_reference alice 0 (u "incident") (u "operator") (utc 100) later_operation
    bound_db (_record (stop_of alice stopped_db)) stopped_db resumed_db resumed_db)
    as (o & H1 & H2 & _ & H3 & _).
  - apply bound_reachable.
  - vm_compute. reflexivity.
  - apply rtc_once. constructor.
  - vm_compute. reflexivity.
  - exists o. split; [exact H1|]. split; [exact H2|exact H3].
Defined.

(** The operation bound before the stop is refused after the resume. *)
Example stopped_operation_refused :
  transaction (assert_operation alice an_operation) resumed_db
  = (raise StopEpochConflictError "operation stop epoch changed before execution", resumed_db).
Proof. vm_compute. reflexivity. Qed.

Lemma stop_state_machine_witness :
  exists r', r' ∈ db_stops resumed_db /\ stop_evolves (stop_of alice bound_db) r'.
Proof.
  destruct (stop_state_machine bound_db resumed_db (stop_of alice bound_db) alice 1)
    as (_ & (r' & H1 & H2 & _) & _).
  - apply bound_reachable.
  - eapply rtc_l; [|apply rtc_once; constructor].
    apply (step_stops pg_reference [(false, Engage alice 0 (u "incident") (u "operator") (utc 100))]).
  - apply (bool_decide_eq_true_1 _). vm_compute. reflexivity.
  - exists r'. split; [exact H1|exact H2].
Defined.

(** The stop is engaged, and resumed after it. *)
Lemma stop_transitions_exact_witness :
  transition_of alice (engage_spec 0 (u "incident") (u "operator") 100) bound_db
    (transaction (engage alice 0 (u "incident") (u "operator") (utc 100)) bound_db)
  /\ transition_of alice (resume_spec 1 1 200) stopped_db (transaction (resume alice 1 1 (utc 200)) stopped_db)
  /\ match resume_spec 1 1 200 (state_of alice stopped_db) with
     | Ok r => sr_engaged r = false /\ sr_epoch r = 1 /\ sr_revision r = 2
     | Err _ => False
     end.
Proof.
  assert (valid_owner alice) as Hv by (split; vm_compute; reflexivity).
  destruct (stop_transitions_exact pg_reference alice 0 bound_db bound_reachable Hv) as [Hengage _];
    [vm_compute; split; discriminate|].
  destruct (stop_transitions_exact pg_reference alice 1 stopped_db) as [_ Hresume].
  - eapply rtc_r; [apply bound_reachable|].
    apply (step_stops pg_reference [(false, Engage alice 0 (u "incident") (u "operator") (utc 100))]).
  - exact Hv.
  - vm_compute. split; discriminate.
  - split; [|split].
    + apply (Hengage (u "incident") (u "operator") 100);
        [vm_compute; reflexivity | apply Nat.leb_le; vm_compute; reflexivity | vm_compute; reflexivity..].
    + apply (Hresume 1 200). vm_compute. split; discriminate.
    + vm_compute. split; [reflexivity|]. split; reflexivity.
Defined.
