(* ===== verification/Revision.v ===== *)
(** * Schema revisions (src/src/astralplane/database/revision.py)

    A [DataPlaneRevision] names the schema a release runs on, the revisions it
    can read or migrate from, and the migration-set digest each predecessor
    must carry. *)

From S2P Require Import Prelude Regex Errors Domain.

(** [^[0-9]{3}\.[0-9]{3}$] *)
Definition revision_re : regex :=
  RSeq (RRep 3 3 is_digit) (RSeq (RLit (u ".")) (RRep 3 3 is_digit)).

Definition validate_revision (value : pystr) (field : string) : result pystr :=
  raise_unless (fullmatch revision_re value)
    (Exn SchemaRevisionError (field ++ " must be a canonical numeric revision")) ;;
  Ok value.

Definition ADVISORY_LOCK_IDS : list (Z * Z) := [(1095980114, 60001); (1095980114, 60002)].

Record DataPlaneRevision : Type := {
  dp_schema_revision : pystr;
  dp_read_compatible_from : list pystr;
  dp_migration_digest : pystr;
  dp_advisory_lock_ids : list (Z * Z);
  dp_accepted_predecessor_digests : list (pystr * pystr)
}.

(** The loop over the accepted predecessor digests. *)
Fixpoint check_predecessors (sources seen : list pystr) (l : list (pystr * pystr)) : result unit :=
  match l with
  | [] => Ok ()
  | (revision, digest) :: l' =>
      source_revision ← validate_revision revision "accepted predecessor revision";
      raise_unless (bool_decide (source_revision ∈ sources))
        (Exn SchemaRevisionError "accepted predecessor digest revision must be read-compatible") ;;
      raise_if (bool_decide (source_revision ∈ seen))
        (Exn SchemaRevisionError "accepted predecessor digest revisions must be unique") ;;
      raise_unless (is_sha256 digest)
        (Exn SchemaRevisionError "accepted predecessor digest must be lowercase SHA-256") ;;
      check_predecessors sources (source_revision :: seen) l'
  end.

Definition revision_init (r : DataPlaneRevision) : result DataPlaneRevision :=
  validate_revision (dp_schema_revision r) "schema revision" ;;
  raise_if (bool_decide (dp_read_compatible_from r = []))
    (Exn SchemaRevisionError "read-compatible revision set must not be empty") ;;
  normalized_sources ← map_each (fun v => validate_revision v "read-compatible revision")
                         (dp_read_compatible_from r);
  raise_unless (bool_decide (NoDup normalized_sources))
    (Exn SchemaRevisionError "read-compatible revisions must be unique") ;;
  raise_unless (is_sha256 (dp_migration_digest r))
    (Exn SchemaRevisionError "migration digest must be lowercase SHA-256") ;;
  raise_if (bool_decide (dp_advisory_lock_ids r = []))
    (Exn SchemaRevisionError "at least one advisory lock identity is required") ;;
  check_predecessors normalized_sources [] (dp_accepted_predecessor_digests r) ;;
  Ok r.

Definition migration_lock (r : DataPlaneRevision) : option (Z * Z) := head (dp_advisory_lock_ids r).

Definition accepts_reader_at (r : DataPlaneRevision) (revision : pystr) : result bool :=
  observed ← validate_revision revision "observed revision";
  Ok (bool_decide (observed = dp_schema_revision r)
      || bool_decide (observed ∈ dp_read_compatible_from r)).

(** [next((digest for predecessor, digest in ... if predecessor == observed), None)] *)
Definition predecessor_digest_for (r : DataPlaneRevision) (revision : option pystr)
  : result (option pystr) :=
  match revision with
  | None => Ok None
  | Some v =>
      observed ← validate_revision v "predecessor revision";
      Ok (snd <$> find (fun p => bool_decide (fst p = observed)) (dp_accepted_predecessor_digests r))
  end.
