(* ===== verification/Migrations.v ===== *)
(** * The migration engine (src/src/astralplane/database/migrations.py)

    [Migration], [MigrationRegistry] and [MigrationRunner]: which migrations a
    registry accepts, its digest, and the run that carries a database from its
    stored revision to the declared one in one transaction.  What a migration
    does to the schema is its [operation], a parameter; the rows of
    [schema_meta] are kept apart from the rest of the database. *)

From stdpp Require Import gmap.
From S2P Require Import Prelude Regex Errors Domain Sha256 Json Pg Revision.

(** The rows of [schema_meta], when the table exists, and everything else. *)
Record plane_db (S : Type) : Type := PlaneDb { db_meta : option (list (pystr * pystr)); db_rest : S }.
Arguments PlaneDb {S}.
Arguments db_meta {S}.
Arguments db_rest {S}.

Definition SCHEMA_META_REVISION : pystr := u "revision".
Definition SCHEMA_META_DIGEST : pystr := u "astralplane_migration_digest".

Record Migration (DB : Type) : Type := {
  m_name : pystr;
  m_source_revisions : list (option pystr);
  m_target_revision : pystr;
  m_checksum : pystr;
  m_operation : SM DB unit
}.
Arguments m_name {DB}.
Arguments m_source_revisions {DB}.
Arguments m_target_revision {DB}.
Arguments m_checksum {DB}.
Arguments m_operation {DB}.

Definition is_ascii (s : pystr) : bool := forallb (fun c => c <? 128)%N s.

(** [Migration.__post_init__] *)
Definition migration_init {DB} (m : Migration DB) : result (Migration DB) :=
  raise_if (bool_decide (m_name m = []) || negb (is_ascii (m_name m)))
    (Exn MigrationDefinitionError "migration name must be non-empty ASCII") ;;
  raise_if (bool_decide (m_source_revisions m = []))
    (Exn MigrationDefinitionError "migration must declare at least one source revision") ;;
  normalized_sources ← map_each (fun s => match s with
      | None => Ok None
      | Some v => x ← validate_revision v "migration source"; Ok (Some x)
      end) (m_source_revisions m);
  raise_unless (bool_decide (NoDup normalized_sources))
    (Exn MigrationDefinitionError "migration source revisions must be unique") ;;
  target ← validate_revision (m_target_revision m) "migration target";
  raise_if (bool_decide (Some target ∈ normalized_sources))
    (Exn MigrationDefinitionError "migration target must differ from every source") ;;
  raise_unless (is_sha256 (m_checksum m))
    (Exn MigrationDefinitionError "migration checksum must be lowercase SHA-256") ;;
  Ok m.

Record MigrationRegistry (DB : Type) : Type := {
  reg_migrations : list (Migration DB);
  reg_by_source : gmap (option pystr) (Migration DB);
  reg_current_verifier : option (SM DB unit);
  reg_current_checksum : option pystr;
  reg_predecessor_verifier : option (option pystr -> SM DB unit);
  reg_predecessor_checksum : option pystr;
  reg_digest : pystr
}.
Arguments reg_migrations {DB}.
Arguments reg_by_source {DB}.
Arguments reg_current_verifier {DB}.
Arguments reg_current_checksum {DB}.
Arguments reg_predecessor_verifier {DB}.
Arguments reg_predecessor_checksum {DB}.
Arguments reg_digest {DB}.

Record MigrationReport : Type := {
  mr_source_revision : option pystr;
  mr_target_revision : pystr;
  mr_applied_steps : list pystr;
  mr_already_current : bool;
  mr_migration_digest : pystr
}.

Section Registry.
Context {DB : Type}.
Implicit Types (m : Migration DB) (by_source : gmap (option pystr) (Migration DB)).

(** The inner loop: [by_source[source] = migration] for each source. *)
Fixpoint claim_sources m (sources : list (option pystr)) by_source
  : result (gmap (option pystr) (Migration DB)) :=
  match sources with
  | [] => Ok by_source
  | source :: sources' =>
      raise_if (is_some (by_source !! source))
        (Exn MigrationDefinitionError "multiple migrations claim source revision") ;;
      claim_sources m sources' (<[source := m]> by_source)
  end.

Fixpoint index_migrations (names : list pystr) (ms : list (Migration DB)) by_source
  : result (gmap (option pystr) (Migration DB)) :=
  match ms with
  | [] => Ok by_source
  | m :: ms' =>
      raise_if (bool_decide (m_name m ∈ names))
        (Exn MigrationDefinitionError "migration names must be unique") ;;
      by_source' ← claim_sources m (m_source_revisions m) by_source;
      index_migrations (m_name m :: names) ms' by_source'
  end.

Definition manifest_entry (checksum name : pystr) (sources : list pystr) (target : pystr) : json :=
  JObj [(u "checksum", JStr checksum); (u "name", JStr name);
        (u "source_revisions", JArr (JStr <$> sources)); (u "target_revision", JStr target)].

Definition manifest (ms : list (Migration DB)) (current predecessor : option pystr) : json :=
  JArr (((fun m => manifest_entry (m_checksum m) (m_name m)
                     (default (u "<empty>") <$> m_source_revisions m) (m_target_revision m)) <$>
         sort_by (fun a b => str_leb (m_name a) (m_name b)) ms)
        ++ match current with
           | Some c => [manifest_entry c (u "@current-schema-verifier") [] (u "@current")]
           | None => []
           end
        ++ match predecessor with
           | Some c => [manifest_entry c (u "@predecessor-schema-verifier") [] (u "@predecessor")]
           | None => []
           end).

Definition check_verifier {A} (which : string) (verifier : option A) (checksum : option pystr) : result unit :=
  raise_unless (Bool.eqb (is_some verifier) (is_some checksum))
    (Exn MigrationDefinitionError (which ++ " schema verifier and checksum must be declared together")) ;;
  raise_unless (match checksum with Some c => is_sha256 c | None => true end)
    (Exn MigrationDefinitionError (which ++ " schema verifier checksum must be lowercase SHA-256")).

(** [MigrationRegistry.__init__] *)
Definition registry_init (ms : list (Migration DB)) (current : option (SM DB unit)) (current_checksum : option pystr)
    (predecessor : option (option pystr -> SM DB unit)) (predecessor_checksum : option pystr)
  : result (MigrationRegistry DB) :=
  raise_if (match ms with [] => true | _ => false end)
    (Exn MigrationDefinitionError "migration registry must not be empty") ;;
  by_source ← index_migrations [] ms ∅;
  check_verifier "current" current current_checksum ;;
  check_verifier "predecessor" predecessor predecessor_checksum ;;
  canonical ← dumps true (manifest ms current_checksum predecessor_checksum);
  Ok {| reg_migrations := ms; reg_by_source := by_source; reg_current_verifier := current;
        reg_current_checksum := current_checksum; reg_predecessor_verifier := predecessor;
        reg_predecessor_checksum := predecessor_checksum; reg_digest := sha256_hex canonical |}.

Definition next_after (reg : MigrationRegistry DB) (revision : option pystr) : option (Migration DB) :=
  reg_by_source reg !! revision.

Definition verify_current (reg : MigrationRegistry DB) : SM DB unit :=
  match reg_current_verifier reg with
  | None => lift (raise MigrationDefinitionError "migration registry has no current schema structural verifier")
  | Some verifier => verifier
  end.

Definition verify_predecessor (reg : MigrationRegistry DB) (revision : option pystr) : SM DB unit :=
  match reg_predecessor_verifier reg with
  | None => mret ()
  | Some verifier => verifier revision
  end.
End Registry.

(** ** The runner *)

Section Runner.
Context `{PgEnv} {S : Type}.
Abbreviation DB := (plane_db S).
Implicit Types (reg : MigrationRegistry DB) (db : DB).

(** [MigrationRunner.__init__] *)
Definition runner_init (revision : DataPlaneRevision) reg : result unit :=
  raise_unless (bool_decide (reg_digest reg = dp_migration_digest revision))
    (Exn MigrationDefinitionError "migration registry digest does not match the declared data-plane revision") ;;
  raise_unless (is_some (reg_current_verifier reg))
    (Exn MigrationDefinitionError "migration registry has no current schema structural verifier").

Definition _CREATE_SCHEMA_META_SQL db : result (unit * DB) :=
  Ok ((), PlaneDb (Some (default [] (db_meta db))) (db_rest db)).

Definition _READ_SCHEMA_META_SQL (keys : list pystr) db : result (list (pystr * pystr) * DB) :=
  Ok (rows_where (fun r => bool_decide (fst r ∈ keys)) (scan "schema_meta" _ (default [] (db_meta db))), db).

(** [INSERT ... ON CONFLICT (key) DO UPDATE SET value = EXCLUDED.value] *)
Definition upsert (key value : pystr) (t : list (pystr * pystr)) : list (pystr * pystr) :=
  let same r := bool_decide (fst r = key) in
  if exists_row same t then update_where same (fun r => (fst r, value)) t else t ++ [(key, value)].
Definition _WRITE_SCHEMA_META_SQL (key value : pystr) db : result (unit * DB) :=
  Ok ((), PlaneDb (Some (upsert key value (default [] (db_meta db)))) (db_rest db)).

Fixpoint collect_metadata (records : list (pystr * pystr)) (metadata : gmap pystr pystr)
  : result (gmap pystr pystr) :=
  match records with
  | [] => Ok metadata
  | (key, value) :: records' =>
      raise_if (is_some (metadata !! key)) (Exn SchemaRevisionError "schema metadata contains duplicate keys") ;;
      collect_metadata records' (<[key := value]> metadata)
  end.

Definition _read_metadata : SM DB (gmap pystr pystr) :=
  records ← exec (_READ_SCHEMA_META_SQL [SCHEMA_META_REVISION; SCHEMA_META_DIGEST]);
  lift (collect_metadata records ∅).

Definition _write_metadata (key value : pystr) : SM DB unit := exec (_WRITE_SCHEMA_META_SQL key value).

(** The [while observed != expected] loop.  Each turn adds a source of the
    registry to [visited] or ends, so the number of sources plus one is enough
    fuel. *)
Fixpoint migrate (fuel : nat) reg (expected : pystr) (visited : list (option pystr))
    (observed : option pystr) (applied : list pystr) : SM DB (list pystr) :=
  if bool_decide (observed = Some expected) then mret applied
  else
    match fuel with
    | O => lift (raise RuntimeError_ "out of fuel")
    | Datatypes.S fuel' =>
        lift (raise_if (bool_decide (observed ∈ visited))
          (Exn MigrationDefinitionError "migration registry contains a cycle")) ;;
        match next_after reg observed with
        | None => lift (raise SchemaRevisionError "no declared migration path from the observed schema")
        | Some m =>
            m_operation m ;;
            _write_metadata SCHEMA_META_REVISION (m_target_revision m) ;;
            migrate fuel' reg expected (observed :: visited) (Some (m_target_revision m))
              (applied ++ [m_name m])
        end
    end.
Definition migrate_fuel reg : nat := Datatypes.S (size (reg_by_source reg)).

(** The evidence a predecessor must carry. *)
Definition check_evidence (accepted stored : option pystr) : result unit :=
  match accepted with
  | Some digest =>
      match stored with
      | None => raise SchemaRevisionError "predecessor schema is missing required migration-set evidence"
      | Some d =>
          raise_unless (bool_decide (d = digest))
            (Exn SchemaRevisionError "predecessor schema carries an unrecognized migration-set digest")
      end
  | None =>
      raise_if (is_some stored)
        (Exn SchemaRevisionError "predecessor schema carries an unrecognized migration-set digest")
  end.

(** The body of the transaction of [MigrationRunner.run]; acquiring the
    advisory lock is a statement without effect on the tables. *)
Definition run_body (revision : DataPlaneRevision) reg (expected : pystr) : SM DB MigrationReport :=
  exec (fun db => Ok ((), db)) ;;
  exec _CREATE_SCHEMA_META_SQL ;;
  metadata ← _read_metadata;
  let source_revision := metadata !! SCHEMA_META_REVISION in
  lift (match source_revision with
        | Some v => validate_revision v "stored schema revision" ;; Ok ()
        | None => Ok ()
        end) ;;
  let stored_digest := metadata !! SCHEMA_META_DIGEST in
  if bool_decide (source_revision = Some expected) then
    lift (match stored_digest with
          | None => raise SchemaRevisionError "current schema is missing migration-set evidence"
          | Some d => raise_unless (bool_decide (d = reg_digest reg))
              (Exn SchemaRevisionError "current schema carries a different migration-set digest")
          end) ;;
    verify_current reg ;;
    mret {| mr_source_revision := source_revision; mr_target_revision := expected; mr_applied_steps := [];
            mr_already_current := true; mr_migration_digest := reg_digest reg |}
  else
    accepted ← lift (predecessor_digest_for revision source_revision);
    lift (check_evidence accepted stored_digest) ;;
    verify_predecessor reg source_revision ;;
    applied ← migrate (migrate_fuel reg) reg expected [] source_revision [];
    verify_current reg ;;
    _write_metadata SCHEMA_META_DIGEST (reg_digest reg) ;;
    mret {| mr_source_revision := source_revision; mr_target_revision := expected; mr_applied_steps := applied;
            mr_already_current := false; mr_migration_digest := reg_digest reg |}.

(** [MigrationRunner.run] *)
Definition run (revision : DataPlaneRevision) reg (expected_revision : pystr) (db : DB)
  : result MigrationReport * DB :=
  match (expected ← validate_revision expected_revision "expected revision";
         raise_unless (bool_decide (expected = dp_schema_revision revision))
           (Exn SchemaRevisionError "composition expected a different data-plane revision") ;;
         Ok expected) with
  | Err e => (Err e, db)
  | Ok expected => transaction (run_body revision reg expected) db
  end.
End Runner.
