(* ===== verification/MigrationSpec.v ===== *)
(** * What a migration run does

    The declared path from a stored revision to the expected one is the list
    of migrations [arrives] gives; it is unique.  A run applies exactly that
    path, in order, between the verification of the predecessor and that of
    the result, or raises and changes nothing. *)

From stdpp Require Import gmap.
From S2P Require Import Prelude Regex Errors Domain Sha256 Json Pg Revision Migrations.

Section Path.
Context `{PgEnv} {S : Type}.
Abbreviation DB := (plane_db S).
Implicit Types (reg : MigrationRegistry DB) (db : DB) (ms : list (Migration DB)).

(** [arrives reg expected r ms]: following the registry from [r] reaches
    [expected], for the first time, by the migrations [ms]. *)
Inductive arrives reg (expected : pystr) : option pystr -> list (Migration DB) -> Prop :=
  | arrives_here : arrives reg expected (Some expected) []
  | arrives_by r m ms :
      r <> Some expected -> next_after reg r = Some m ->
      arrives reg expected (Some (m_target_revision m)) ms -> arrives reg expected r (m :: ms).

(** Each migration with the revision it writes. *)
Fixpoint apply_path ms : SM DB unit :=
  match ms with
  | [] => mret ()
  | m :: ms' =>
      m_operation m ;; _write_metadata SCHEMA_META_REVISION (m_target_revision m) ;; apply_path ms'
  end.

Lemma arrives_fun reg expected r ms ms' :
  arrives reg expected r ms -> arrives reg expected r ms' -> ms = ms'.
Proof.
  intros Ha. revert ms'. induction Ha as [|r m ms Hr Hn Ha IH]; intros ms'; inversion 1; subst; try done.
  replace m0 with m in * by congruence. f_equal. auto.
Qed.

(** The sources along a path are distinct sources of the registry. *)
Lemma arrives_sources reg expected r ms :
  arrives reg expected r ms ->
  exists l, length l = length ms /\ NoDup l
    /\ forall x, x ∈ l -> is_Some (reg_by_source reg !! x)
         /\ exists ms', arrives reg expected x ms' /\ (length ms' <= length ms)%nat.
Proof.
  induction 1 as [|r m ms Hr Hn Ha (l & Hl & Hnd & IH)].
  - exists []. split_and!; [done|constructor|]. by intros x ?%not_elem_of_nil.
  - exists (r :: l). split_and!; [by cbn; rewrite Hl| |].
    + constructor; [|done]. intros (_ & ms' & Ha' & Hlen)%IH.
      assert (ms' = m :: ms) as -> by (eapply arrives_fun; [exact Ha'|by constructor]). cbn in Hlen. lia.
    + intros x [->|(Hx & ms' & ? & ?)%IH]%elem_of_cons.
      * split; [by exists m|]. exists (m :: ms). split; [by constructor|done].
      * split; [done|]. exists ms'. split; [done|cbn; lia].
Qed.

Lemma arrives_length reg expected r ms :
  arrives reg expected r ms -> (length ms <= size (reg_by_source reg))%nat.
Proof.
  intros (l & <- & Hnd & Hl)%arrives_sources. rewrite <- size_dom.
  rewrite <- (size_list_to_set (C := gset (option pystr)) l Hnd). apply subseteq_size.
  intros x [Hx _]%elem_of_list_to_set%Hl. by apply elem_of_dom.
Qed.

Lemma migrate_arrives reg expected r ms :
  arrives reg expected r ms ->
  forall fuel visited applied s,
  (length ms <= fuel)%nat ->
  (forall v, v ∈ visited -> exists ms', arrives reg expected v ms' /\ (length ms < length ms')%nat) ->
  migrate fuel reg expected visited r applied s
  = (apply_path ms ;; mret (applied ++ (m_name <$> ms))) s.
Proof.
  induction 1 as [|r m ms Hr Hn Ha IH]; intros fuel visited applied s Hf Hv.
  - destruct fuel; cbn [migrate]; rewrite bool_decide_eq_true_2 by done; cbn; by rewrite app_nil_r.
  - destruct fuel as [|fuel]; [cbn in Hf; lia|]. cbn [migrate apply_path].
    rewrite bool_decide_eq_false_2 by done.
    assert (~ (r ∈ visited)) as Hnv.
    { intros (ms' & Ha' & Hlen)%Hv.
      assert (ms' = m :: ms) as -> by (eapply arrives_fun; [exact Ha'|by constructor]). lia. }
    rewrite (bool_decide_eq_false_2 _ Hnv), Hn. cbn. unfold mbind, SM_mbind, lift. cbn.
    destruct (m_operation m s) as [[[]|e] s1]; [|done].
    destruct (_write_metadata _ _ s1) as [[[]|e] s2]; [|done].
    rewrite IH; [|cbn in Hf; lia|].
    + rewrite <- app_assoc. done.
    + intros v [->|(ms' & ? & ?)%Hv]%elem_of_cons; [|exists ms'; split; [done|cbn in *; lia]].
      exists (m :: ms). split; [by constructor|cbn; lia].
Qed.

Lemma migrate_returns reg expected fuel visited r applied s a s' :
  migrate fuel reg expected visited r applied s = (Ok a, s') -> exists ms, arrives reg expected r ms.
Proof.
  revert visited r applied s. induction fuel as [|fuel IH]; intros visited r applied s; cbn [migrate];
    (case_bool_decide as Hr; [subst r; intros _; exists []; constructor|]); [done|].
  unfold mbind, SM_mbind, lift. cbn.
  destruct (raise_if _ _); [|done]. destruct (next_after reg r) as [m|] eqn:Hn; [|done].
  destruct (m_operation m s) as [[[]|e] s1]; [|done].
  destruct (_write_metadata _ _ s1) as [[[]|e] s2]; [|done].
  intros (ms & Ha)%IH. exists (m :: ms). by constructor.
Qed.

(** The loop ends: more fuel than [migrate_fuel] changes nothing. *)
Lemma migrate_enough reg expected f1 :
  forall f2 visited r applied s,
  NoDup visited -> (forall v, v ∈ visited -> is_Some (reg_by_source reg !! v)) ->
  (size (reg_by_source reg) < f1 + length visited)%nat -> (f1 <= f2)%nat ->
  migrate f1 reg expected visited r applied s = migrate f2 reg expected visited r applied s.
Proof.
  assert (forall visited, NoDup visited -> (forall v, v ∈ visited -> is_Some (reg_by_source reg !! v)) ->
            (length visited <= size (reg_by_source reg))%nat) as Hsize.
  { intros visited Hnd Hv. rewrite <- size_dom, <- (size_list_to_set (C := gset (option pystr)) visited Hnd).
    apply subseteq_size. intros x Hx%elem_of_list_to_set. by apply elem_of_dom, Hv. }
  induction f1 as [|f1 IH]; intros f2 visited r applied s Hnd Hv Hf Hle.
  - specialize (Hsize visited Hnd Hv). lia.
  - destruct f2 as [|f2]; [lia|]. cbn [migrate]. case_bool_decide as Hr; [done|].
    unfold mbind, SM_mbind, lift. cbn. case_bool_decide as Hvis; [done|]. cbn.
    destruct (next_after reg r) as [m|] eqn:Hn; [|done].
    destruct (m_operation m s) as [[[]|e] s1]; [|done].
    destruct (_write_metadata _ _ s1) as [[[]|e] s2]; [|done].
    apply IH; [by constructor| |cbn; lia|lia].
    intros v [->|Hin]%elem_of_cons; [by exists m|auto].
Qed.
End Path.

(** ** Reading the metadata *)

Section Metadata.
Context `{PgEnv} {S : Type}.
Abbreviation DB := (plane_db S).
Implicit Types (reg : MigrationRegistry DB) (db : DB) (t : list (pystr * pystr)).

Definition meta_rows db : list (pystr * pystr) := default [] (db_meta db).
(** The stored value of a key. *)
Definition stored db (key : pystr) : option pystr := (list_to_map (meta_rows db) : gmap pystr pystr) !! key.
Definition meta_keys_unique db : Prop := NoDup (fst <$> meta_rows db).

Lemma collect_metadata_ok t (m : gmap pystr pystr) :
  NoDup (fst <$> t) -> (forall k, k ∈ fst <$> t -> m !! k = None) ->
  exists m', collect_metadata t m = Ok m'
    /\ forall k v, m' !! k = Some v <-> (k, v) ∈ t \/ m !! k = Some v.
Proof.
  revert m. induction t as [|[k v] t IH]; intros m Hnd Hm.
  - exists m. split; [done|]. intros. split; [by right|]. intros [?%not_elem_of_nil|?]; done.
  - cbn in Hnd. apply NoDup_cons in Hnd as [Hk Hnd]. cbn [collect_metadata].
    assert (m !! k = None) as Hkm by (apply Hm; cbn; by left). rewrite Hkm. cbn.
    destruct (IH (<[k := v]> m) Hnd) as (m' & Hc & Hm').
    { intros k' Hk'. rewrite lookup_insert_ne by (intros ->; done). apply Hm. cbn. by right. }
    exists m'. split; [done|]. intros k' v'. rewrite Hm', elem_of_cons, lookup_insert_Some. split.
    + intros [?|[[<- <-]|[? ?]]]; auto.
    + intros [[[= -> ->]|?]|Hs]; auto. right. destruct (decide (k = k')) as [->|]; [congruence|auto].
Qed.

Lemma stored_elem db k v : meta_keys_unique db -> stored db k = Some v <-> (k, v) ∈ meta_rows db.
Proof. intros Hu. unfold stored. symmetry. by apply elem_of_list_to_map. Qed.

Lemma read_metadata_run db :
  meta_keys_unique db ->
  exists m, _read_metadata (Session db false) = (Ok m, Session db false)
    /\ m !! SCHEMA_META_REVISION = stored db SCHEMA_META_REVISION
    /\ m !! SCHEMA_META_DIGEST = stored db SCHEMA_META_DIGEST.
Proof.
  intros Hu. unfold _read_metadata, mbind, SM_mbind, lift. cbn -[scan].
  set (keys := [SCHEMA_META_REVISION; SCHEMA_META_DIGEST]).
  set (rows := rows_where _ _).
  assert (forall k v, (k, v) ∈ rows <-> (k, v) ∈ meta_rows db /\ k ∈ keys) as Hrows.
  { intros k v. unfold rows. rewrite elem_of_rows_where, elem_of_scan, bool_decide_eq_true. done. }
  destruct (collect_metadata_ok rows ∅) as (m & Hc & Hm).
  { unfold rows. assert (NoDup (fst <$> scan "schema_meta" _ (meta_rows db))) as Hs
      by (by rewrite (scan_perm "schema_meta" _ (meta_rows db))).
    clear -Hs. unfold rows_where, meta_rows in *. induction (scan _ _ _) as [|r t IH]; [constructor|].
    cbn in *. apply NoDup_cons in Hs as [Hr Hs]. case_bool_decide; [|auto]. cbn. constructor; [|auto].
    intros (x & Hx & Hin)%list_elem_of_fmap. apply Hr. rewrite Hx. apply list_elem_of_fmap_2.
    apply list_elem_of_In. apply list_elem_of_In, filter_In in Hin as [Hin _]. done. }
  { intros k _. apply lookup_empty. }
  exists m. rewrite Hc. split; [done|].
  assert (forall k, k ∈ keys -> m !! k = stored db k) as Hk; [|split; apply Hk; set_solver].
  intros k Hk. apply option_eq. intros v. rewrite (stored_elem db k v Hu), Hm, Hrows, lookup_empty. naive_solver.
Qed.

Definition with_meta_table db : DB := PlaneDb (Some (meta_rows db)) (db_rest db).

Lemma with_meta_table_stored db key v : stored db key = Some v -> with_meta_table db = db.
Proof. destruct db as [[t|] rest]; [done|]. unfold stored, meta_rows. cbn. by rewrite lookup_empty. Qed.

Lemma body_read (revision : DataPlaneRevision) reg expected db :
  meta_keys_unique db ->
  (forall v, stored db SCHEMA_META_REVISION = Some v -> fullmatch revision_re v = true) ->
  let db' := with_meta_table db in
  run_body revision reg expected (Session db false)
  = if bool_decide (stored db SCHEMA_META_REVISION = Some expected) then
      (lift (match stored db SCHEMA_META_DIGEST with
             | None => raise SchemaRevisionError "current schema is missing migration-set evidence"
             | Some d => raise_unless (bool_decide (d = reg_digest reg))
                 (Exn SchemaRevisionError "current schema carries a different migration-set digest")
             end) ;;
       verify_current reg ;;
       mret {| mr_source_revision := stored db SCHEMA_META_REVISION; mr_target_revision := expected;
               mr_applied_steps := []; mr_already_current := true; mr_migration_digest := reg_digest reg |})
        (Session db' false)
    else
      (accepted ← lift (predecessor_digest_for revision (stored db SCHEMA_META_REVISION));
       lift (check_evidence accepted (stored db SCHEMA_META_DIGEST)) ;;
       verify_predecessor reg (stored db SCHEMA_META_REVISION) ;;
       applied ← migrate (migrate_fuel reg) reg expected [] (stored db SCHEMA_META_REVISION) [];
       verify_current reg ;;
       _write_metadata SCHEMA_META_DIGEST (reg_digest reg) ;;
       mret {| mr_source_revision := stored db SCHEMA_META_REVISION; mr_target_revision := expected;
               mr_applied_steps := applied; mr_already_current := false;
               mr_migration_digest := reg_digest reg |})
        (Session db' false).
Proof.
  intros Hu Hv db'. destruct (read_metadata_run db' Hu) as (m & Hr & Hrev & Hdig).
  change (stored db') with (stored db) in *. rewrite <- Hrev, <- Hdig.
  unfold run_body. cbn -[_read_metadata migrate]. unfold mbind at 1 2 3, SM_mbind at 1 2 3. cbn -[_read_metadata migrate].
  change (PlaneDb _ (db_rest db)) with db'. rewrite Hr. unfold mbind at 1, SM_mbind at 1, lift at 1.
  rewrite Hrev. destruct (stored db SCHEMA_META_REVISION) as [v|] eqn:Hs.
  - unfold validate_revision. rewrite (Hv v) by done. cbn -[_read_metadata migrate]. by case_bool_decide.
  - cbn -[_read_metadata migrate]. by case_bool_decide.
Qed.
End Metadata.

(** ** The run *)

Section Run.
Context `{PgEnv} {S : Type} (revision : DataPlaneRevision) (reg : MigrationRegistry (plane_db S)).
Abbreviation DB := (plane_db S).
Abbreviation expected := (dp_schema_revision revision).
Implicit Types (db : DB) (ms : list (Migration DB)).

(** A database the runner can read: one value per metadata key and a stored
    revision in the canonical form. *)
Definition readable db : Prop :=
  meta_keys_unique db
  /\ forall v, stored db SCHEMA_META_REVISION = Some v -> fullmatch revision_re v = true.

Definition report (source : option pystr) (applied : list pystr) (current : bool) : MigrationReport :=
  {| mr_source_revision := source; mr_target_revision := expected; mr_applied_steps := applied;
     mr_already_current := current; mr_migration_digest := reg_digest reg |}.

(** The work of a run along a path. *)
Definition upgrade (source : option pystr) ms : SM DB MigrationReport :=
  exec _CREATE_SCHEMA_META_SQL ;;
  verify_predecessor reg source ;;
  apply_path ms ;;
  verify_current reg ;;
  _write_metadata SCHEMA_META_DIGEST (reg_digest reg) ;;
  mret (report source (m_name <$> ms) false).

Lemma run_transaction db :
  fullmatch revision_re expected = true ->
  run revision reg expected db = transaction (run_body revision reg expected) db.
Proof.
  intros He. unfold run, validate_revision. rewrite He. cbn. by rewrite bool_decide_eq_true_2.
Qed.

Lemma check_evidence_Ok accepted d : check_evidence accepted d = Ok () <-> accepted = d.
Proof.
  destruct accepted as [a|], d as [d|]; cbn; try (split; congruence).
  rewrite raise_unless_Ok, bool_decide_eq_true. split; congruence.
Qed.

Lemma check_evidence_Err accepted d e : check_evidence accepted d = Err e -> exn_cls e = SchemaRevisionError.
Proof. destruct accepted as [a|], d as [d|]; cbn; try case_bool_decide; cbn; intros; by simplify_eq. Qed.

Lemma run_current db :
  fullmatch revision_re expected = true -> readable db ->
  stored db SCHEMA_META_REVISION = Some expected -> stored db SCHEMA_META_DIGEST = Some (reg_digest reg) ->
  run revision reg expected db
  = transaction (verify_current reg ;; mret (report (Some expected) [] true)) db.
Proof.
  intros He [Hu Hv] Hs Hd. rewrite (run_transaction db He). unfold transaction.
  rewrite (body_read revision reg expected db Hu Hv), bool_decide_eq_true_2 by done.
  rewrite (with_meta_table_stored db _ _ Hs), Hd, Hs. cbn. by rewrite bool_decide_eq_true_2.
Qed.

Lemma run_unproven db :
  fullmatch revision_re expected = true -> readable db ->
  stored db SCHEMA_META_REVISION = Some expected -> stored db SCHEMA_META_DIGEST <> Some (reg_digest reg) ->
  exists msg, run revision reg expected db = (raise SchemaRevisionError msg, db).
Proof.
  intros He [Hu Hv] Hs Hd. rewrite (run_transaction db He). unfold transaction.
  rewrite (body_read revision reg expected db Hu Hv), bool_decide_eq_true_2 by done.
  destruct (stored db SCHEMA_META_DIGEST) as [d|]; cbn; [|by eexists].
  rewrite bool_decide_eq_false_2 by congruence. cbn. by eexists.
Qed.

Lemma predecessor_valid db :
  readable db -> exists d, predecessor_digest_for revision (stored db SCHEMA_META_REVISION) = Ok d.
Proof.
  intros [_ Hv]. destruct (stored db SCHEMA_META_REVISION) as [v|] eqn:Hs; cbn; [|by eexists].
  unfold validate_revision. rewrite (Hv v) by done. cbn. by eexists.
Qed.

Lemma run_upgrade db ms :
  fullmatch revision_re expected = true -> readable db ->
  stored db SCHEMA_META_REVISION <> Some expected ->
  predecessor_digest_for revision (stored db SCHEMA_META_REVISION) = Ok (stored db SCHEMA_META_DIGEST) ->
  arrives reg expected (stored db SCHEMA_META_REVISION) ms ->
  run revision reg expected db = transaction (upgrade (stored db SCHEMA_META_REVISION) ms) db.
Proof.
  intros He [Hu Hv] Hs Hd Ha. rewrite (run_transaction db He). unfold transaction.
  rewrite (body_read revision reg expected db Hu Hv), bool_decide_eq_false_2 by done.
  rewrite Hd. unfold upgrade, mbind, SM_mbind, lift. cbn -[migrate _write_metadata].
  rewrite (proj2 (check_evidence_Ok _ _) eq_refl). change (PlaneDb _ (db_rest db)) with (with_meta_table db).
  destruct (verify_predecessor reg _ _) as [[[]|e] s1]; [|done].
  rewrite (migrate_arrives reg expected _ ms Ha);
    [|unfold migrate_fuel; pose proof (arrives_length _ _ _ _ Ha); lia|by intros v ?%not_elem_of_nil].
  unfold mbind, SM_mbind. destruct (apply_path ms s1) as [[[]|e] s2]; done.
Qed.

Lemma run_refused db :
  fullmatch revision_re expected = true -> readable db ->
  stored db SCHEMA_META_REVISION <> Some expected ->
  predecessor_digest_for revision (stored db SCHEMA_META_REVISION) <> Ok (stored db SCHEMA_META_DIGEST) ->
  exists msg, run revision reg expected db = (raise SchemaRevisionError msg, db).
Proof.
  intros He Hread Hs Hd. destruct (predecessor_valid db Hread) as [d Hp]. destruct Hread as [Hu Hv].
  rewrite (run_transaction db He). unfold transaction.
  rewrite (body_read revision reg expected db Hu Hv), bool_decide_eq_false_2 by done.
  rewrite Hp in *. cbn -[migrate check_evidence]. unfold mbind, SM_mbind, lift.
  destruct (check_evidence d _) as [[]|e] eqn:Hc; [apply check_evidence_Ok in Hc; congruence|].
  pose proof (check_evidence_Err _ _ _ Hc) as Hcls. destruct e as [cls msg]. cbn in Hcls. subst cls. by exists msg.
Qed.

Lemma run_without_path db :
  fullmatch revision_re expected = true -> readable db ->
  stored db SCHEMA_META_REVISION <> Some expected ->
  (forall ms, ~ arrives reg expected (stored db SCHEMA_META_REVISION) ms) ->
  exists e, run revision reg expected db = (Err e, db).
Proof.
  intros He Hread Hs Hn. destruct (predecessor_valid db Hread) as [d Hp]. destruct Hread as [Hu Hv].
  rewrite (run_transaction db He). unfold transaction.
  rewrite (body_read revision reg expected db Hu Hv), bool_decide_eq_false_2 by done.
  rewrite Hp. unfold mbind, SM_mbind, lift. cbn -[migrate].
  destruct (check_evidence d _) as [[]|e]; [|by eexists].
  destruct (verify_predecessor reg _ _) as [[[]|e] s1]; [|by eexists].
  destruct (migrate _ _ _ _ _ _ s1) as [[a|e] s2] eqn:Hm; [|by eexists].
  destruct (migrate_returns _ _ _ _ _ _ _ _ _ Hm) as [ms Ha]. by destruct (Hn ms).
Qed.

(** C13: what a migration run does, on every branch.  On a database at the
    declared revision it verifies the schema and changes nothing, if the stored
    migration-set digest is the registry's, and is refused otherwise.  On any
    other database whose evidence is the one its revision must carry, it
    applies the one path the registry declares, in order, between the two
    verifications and stores the new revision and digest; all of it or none.
    Wrong evidence is refused, and without a path the run raises; the loop
    over the registry ends, so more turns would change nothing. *)
Theorem migration_run_exact db
    (Hrev : fullmatch revision_re expected = true) (Hread : readable db) :
  let source := stored db SCHEMA_META_REVISION in
  let evidence := stored db SCHEMA_META_DIGEST in
  (source = Some expected -> evidence = Some (reg_digest reg) ->
     run revision reg expected db = transaction (verify_current reg ;; mret (report source [] true)) db)
  /\ (source = Some expected -> evidence <> Some (reg_digest reg) ->
     exists msg, run revision reg expected db = (raise SchemaRevisionError msg, db))
  /\ (source <> Some expected -> predecessor_digest_for revision source = Ok evidence ->
     forall ms, arrives reg expected source ms ->
       run revision reg expected db = transaction (upgrade source ms) db)
  /\ (source <> Some expected -> predecessor_digest_for revision source <> Ok evidence ->
     exists msg, run revision reg expected db = (raise SchemaRevisionError msg, db))
  /\ (source <> Some expected -> (forall ms, ~ arrives reg expected source ms) ->
     exists e, run revision reg expected db = (Err e, db))
  /\ (forall more s, migrate (migrate_fuel reg + more) reg expected [] source [] s
                     = migrate (migrate_fuel reg) reg expected [] source [] s).
Proof.
  cbn zeta. split_and!.
  - intros Hs Hd. rewrite Hs. by apply run_current.
  - intros. by apply run_unproven.
  - intros. by apply run_upgrade.
  - intros. by apply run_refused.
  - intros. by apply run_without_path.
  - intros more s. symmetry. apply migrate_enough; [constructor| |unfold migrate_fuel; cbn; lia|lia].
    by intros v ?%not_elem_of_nil.
Qed.
End Run.

(** ** Running again *)

Section Again.
Context `{PgEnv} {S : Type} (revision : DataPlaneRevision) (reg : MigrationRegistry (plane_db S)).
Abbreviation DB := (plane_db S).
Abbreviation expected := (dp_schema_revision revision).
Implicit Types (db : DB) (ms : list (Migration DB)) (t : list (pystr * pystr)).

Lemma upsert_keys k v t : NoDup (fst <$> t) -> NoDup (fst <$> upsert k v t).
Proof.
  intros Hnd. unfold upsert. destruct (exists_row _ t) eqn:He.
  - unfold update_where. rewrite <- list_fmap_compose.
    erewrite (list_fmap_ext _ fst); [exact Hnd|]. intros i r _. cbn. by case_bool_decide.
  - rewrite fmap_app. apply NoDup_app. split_and!; [done| |cbn; repeat constructor; by intros ?%not_elem_of_nil].
    intros x (r & -> & Hr)%list_elem_of_fmap Hx. cbn in Hx. apply list_elem_of_singleton in Hx.
    rewrite exists_row_false in He. specialize (He r Hr). by apply bool_decide_eq_false in He.
Qed.

Lemma upsert_elem k v t k' v' :
  NoDup (fst <$> t) -> (k', v') ∈ upsert k v t <-> if decide (k' = k) then v' = v else (k', v') ∈ t.
Proof.
  intros Hnd. unfold upsert. destruct (exists_row _ t) eqn:He.
  - apply exists_row_true in He as ([k0 v0] & Hin & Hk0%bool_decide_eq_true). cbn in Hk0. subst k0.
    rewrite elem_of_update_where. split.
    + intros ([k1 v1] & Hy & Heq). cbn in Heq. case_bool_decide; simplify_eq; by case_decide.
    + case_decide as Hk; [intros ->; subst k'|intros Hin'].
      * exists (k, v0). split; [done|]. cbn. by rewrite bool_decide_eq_true_2.
      * exists (k', v'). split; [done|]. cbn. by rewrite bool_decide_eq_false_2.
  - rewrite exists_row_false in He. rewrite elem_of_app, list_elem_of_singleton. case_decide as Hk.
    + subst k'. split; [|naive_solver]. intros [Hin|[= ->]]; [|done].
      specialize (He _ Hin). by apply bool_decide_eq_false in He.
    + split; [intros [?|[= ? ?]]; done|auto].
Qed.

(** Writing a key stores it and nothing else. *)
Lemma stored_write k v db k' :
  meta_keys_unique db ->
  let db' := PlaneDb (Some (upsert k v (meta_rows db))) (db_rest db) in
  meta_keys_unique db' /\ stored db' k' = if decide (k' = k) then Some v else stored db k'.
Proof.
  intros Hu db'. assert (meta_keys_unique db') as Hu' by (by apply upsert_keys). split; [done|].
  apply option_eq. intros v'. rewrite (stored_elem db' k' v' Hu').
  change (meta_rows db') with (upsert k v (meta_rows db)). rewrite upsert_elem by done.
  case_decide; [naive_solver|]. by rewrite (stored_elem db k' v' Hu).
Qed.

(** A step that leaves the rows of [schema_meta] alone. *)
Definition keeps_meta {A} (m : SM DB A) : Prop := respects (fun a b : DB => db_meta a = db_meta b) m.
(** A check of the schema: it changes nothing, and what it answers depends on
    the schema alone. *)
Definition reads_schema (m : SM DB unit) : Prop :=
  exists g : S -> result unit * bool,
    forall db, m (Session db false) = (fst (g (db_rest db)), Session db (snd (g (db_rest db)))).

Lemma stored_keeps db db' k : db_meta db = db_meta db' -> stored db' k = stored db k.
Proof. unfold stored, meta_rows. by intros ->. Qed.

(** Only the revision and the digest are written, each key once. *)
Definition meta_written db db' : Prop :=
  meta_keys_unique db' /\ forall k, k <> SCHEMA_META_REVISION -> k <> SCHEMA_META_DIGEST -> stored db' k = stored db k.

Lemma write_metadata_run k v (s s' : session DB) :
  _write_metadata k v s = (Ok (), s') ->
  s_failed s' = false /\ s_failed s = false
  /\ s_db s' = PlaneDb (Some (upsert k v (meta_rows (s_db s)))) (db_rest (s_db s)).
Proof. unfold _write_metadata, exec. destruct (s_failed s); [done|]. cbn. by intros [= <-]. Qed.

Context (Hops : forall r m, next_after reg r = Some m -> keeps_meta (m_operation m)).

Lemma apply_path_run r ms (s s' : session DB) :
  arrives reg expected r ms -> r <> Some expected -> meta_keys_unique (s_db s) ->
  apply_path ms s = (Ok (), s') ->
  s_failed s' = false /\ meta_written (s_db s) (s_db s')
  /\ stored (s_db s') SCHEMA_META_REVISION = Some expected.
Proof.
  intros Ha. revert s. induction Ha as [|r m ms Hr Hn Ha IH]; [done|]. intros s _ Hu Hrun.
  cbn [apply_path] in Hrun. unfold mbind, SM_mbind in Hrun.
  destruct (m_operation m s) as [[[]|e] s1] eqn:Hop; [|done].
  destruct (_write_metadata _ _ s1) as [[[]|e] s2] eqn:Hw; [|done].
  pose proof (Hops r m Hn s) as Hkeep. rewrite Hop in Hkeep. cbn in Hkeep.
  assert (meta_keys_unique (s_db s1)) as Hu1 by (unfold meta_keys_unique, meta_rows in *; by rewrite <- Hkeep).
  apply write_metadata_run in Hw as (Hf2 & _ & Hdb2).
  assert (meta_written (s_db s) (s_db s2) /\ stored (s_db s2) SCHEMA_META_REVISION = Some (m_target_revision m))
    as [[Hu2 Hk2] Hrev2].
  { rewrite Hdb2. split; [split|].
    - exact (proj1 (stored_write _ _ (s_db s1) [] Hu1)).
    - intros k Hk _. rewrite (proj2 (stored_write _ _ (s_db s1) k Hu1)). rewrite decide_False by done.
      by apply stored_keeps.
    - rewrite (proj2 (stored_write _ _ (s_db s1) _ Hu1)). by rewrite decide_True. }
  destruct (decide (Some (m_target_revision m) = Some expected)) as [He|Hne].
  - rewrite He in Ha. inversion Ha; subst; [|done]. cbn in Hrun. injection Hrun as <-.
    split_and!; [done|done|]. congruence.
  - destruct (IH s2 Hne Hu2 Hrun) as (Hf & [Hu' Hk'] & Hrev). split_and!; [done| |done].
    split; [done|]. intros k Hk Hkd. rewrite Hk' by done. by apply Hk2.
Qed.

Context (Hcheck : reads_schema (verify_current reg)) (Hbefore : forall r, reads_schema (verify_predecessor reg r)).

Lemma upgrade_run source ms db rep db' :
  arrives reg expected source ms -> source <> Some expected -> meta_keys_unique db ->
  transaction (upgrade revision reg source ms) db = (Ok rep, db') ->
  rep = report revision reg source (m_name <$> ms) false /\ meta_written db db'
  /\ stored db' SCHEMA_META_REVISION = Some expected /\ stored db' SCHEMA_META_DIGEST = Some (reg_digest reg)
  /\ verify_current reg (Session db' false) = (Ok (), Session db' false).
Proof.
  intros Ha Hne Hu (s' & Hrun & Hf & <-)%transaction_run. unfold upgrade, mbind, SM_mbind in Hrun.
  cbn -[_write_metadata] in Hrun. change (PlaneDb _ (db_rest db)) with (with_meta_table db) in Hrun.
  destruct (Hbefore source) as [g0 Hg0]. rewrite Hg0 in Hrun.
  destruct (g0 _) as [[[]|e0] f0]; [|done]. cbn [fst snd] in Hrun.
  destruct (apply_path ms _) as [[[]|e] s2] eqn:Hpath; [|done].
  apply (apply_path_run _ _ (Session (with_meta_table db) f0) _ Ha Hne Hu) in Hpath as (Hf2 & [Hu2 Hk2] & Hrev2).
  destruct s2 as [db2 f2]. cbn [s_failed s_db] in *. subst f2.
  destruct Hcheck as [g Hg]. rewrite Hg in Hrun.
  destruct (g (db_rest db2)) as [[[]|e] f3] eqn:Hg2; [|done]. cbn [fst snd] in Hrun.
  destruct (_write_metadata _ _ _) as [[[]|e] s4] eqn:Hw; [|done].
  apply write_metadata_run in Hw as (Hf4 & Hf3 & Hdb4). cbn in Hf3. subst f3. injection Hrun as <- <-.
  cbn [s_db] in Hdb4. rewrite Hdb4.
  destruct (stored_write SCHEMA_META_DIGEST (reg_digest reg) db2 SCHEMA_META_REVISION Hu2) as [Hu4 Hr4].
  split; [done|]. split.
  { split; [done|]. intros k Hk Hkd. rewrite (proj2 (stored_write _ _ db2 k Hu2)), decide_False by done.
    rewrite Hk2 by done. done. }
  rewrite Hr4, decide_False by done.
  rewrite (proj2 (stored_write _ _ db2 SCHEMA_META_DIGEST Hu2)), decide_True by done.
  split_and!; [done|done|]. rewrite Hg. cbn [db_rest]. by rewrite Hg2.
Qed.

(** Migrating is idempotent.  After a run returned, the stored revision and
    digest are the declared ones and every other metadata key is as it was; and
    the next run verifies the schema, reports it as already current, applies
    no step and changes nothing.  The operations of the registry leave
    [schema_meta] alone and its checks only read the schema. *)
Theorem migration_idempotent db rep db'
    (Hrev : fullmatch revision_re expected = true) (Hread : readable db)
    (Hrun : run revision reg expected db = (Ok rep, db')) :
  stored db' SCHEMA_META_REVISION = Some expected /\ stored db' SCHEMA_META_DIGEST = Some (reg_digest reg)
  /\ (forall k, k <> SCHEMA_META_REVISION -> k <> SCHEMA_META_DIGEST -> stored db' k = stored db k)
  /\ (mr_already_current rep = true -> db' = db)
  /\ (exists ms, arrives reg expected (mr_source_revision rep) ms /\ mr_applied_steps rep = m_name <$> ms)
  /\ run revision reg expected db' = (Ok (report revision reg (Some expected) [] true), db').
Proof.
  assert (forall db, readable db -> stored db SCHEMA_META_REVISION = Some expected ->
      stored db SCHEMA_META_DIGEST = Some (reg_digest reg) ->
      verify_current reg (Session db false) = (Ok (), Session db false) ->
      run revision reg expected db = (Ok (report revision reg (Some expected) [] true), db)) as Hagain.
  { intros d Hd Hr Hg Hv. rewrite run_current by done. unfold transaction, mbind, SM_mbind. by rewrite Hv. }
  destruct (decide (stored db SCHEMA_META_REVISION = Some expected)) as [Hs|Hs].
  - destruct (decide (stored db SCHEMA_META_DIGEST = Some (reg_digest reg))) as [Hd|Hd].
    2: { destruct (run_unproven revision reg db) as [msg Hm]; [done..|]. congruence. }
    rewrite run_current in Hrun by done. apply transaction_run in Hrun as (s' & Hr & Hf & <-).
    unfold mbind, SM_mbind in Hr. destruct Hcheck as [g Hg]. rewrite Hg in Hr.
    destruct (g (db_rest db)) as [[[]|e] f] eqn:Hgd; [|done]. injection Hr as <- <-. cbn in Hf. subst f.
    split_and!; try done.
    + exists []. split; [constructor|done].
    + apply Hagain; try done. cbn. by rewrite Hg, Hgd.
  - destruct (decide (predecessor_digest_for revision (stored db SCHEMA_META_REVISION)
                      = Ok (stored db SCHEMA_META_DIGEST))) as [Hd|Hd].
    2: { destruct (run_refused revision reg db) as [msg Hm]; [done..|]. congruence. }
    assert (exists ms, arrives reg expected (stored db SCHEMA_META_REVISION) ms) as [ms Ha].
    { rewrite (run_transaction revision reg db Hrev) in Hrun.
      apply transaction_run in Hrun as (s' & Hr & _). destruct Hread as [Hu Hv].
      rewrite (body_read revision reg expected db Hu Hv), bool_decide_eq_false_2 in Hr by done.
      rewrite Hd in Hr. unfold mbind, SM_mbind, lift in Hr. cbn -[migrate] in Hr.
      destruct (check_evidence _ _) as [[]|]; [|done].
      destruct (verify_predecessor _ _ _) as [[[]|] ?]; [|done].
      destruct (migrate _ _ _ _ _ _ _) as [[?|] ?] eqn:Hm; [|done]. by eapply migrate_returns. }
    rewrite (run_upgrade revision reg db ms) in Hrun by done.
    apply upgrade_run in Hrun as (-> & [Hu' Hk] & Hr' & Hd' & Hv'); [|done|done|apply Hread].
    split_and!; try done; [by exists ms|]. apply Hagain; try done.
    split; [done|]. intros v Hv. congruence.
Qed.
End Again.

(** ** A small registry *)

Section Sample.
Abbreviation DB := (plane_db (list pystr)).

(** The rest of the database is the log of what was applied. *)
Definition sample_operation (name : pystr) : SM DB unit :=
  exec (fun db => Ok ((), PlaneDb (db_meta db) (db_rest db ++ [name]))).
Definition sample_migration (name source target : string) : Migration DB :=
  {| m_name := u name; m_source_revisions := [Some (u source)]; m_target_revision := u target;
     m_checksum := sha256_hex (u name); m_operation := sample_operation (u name) |}.
Definition sample_migrations : list (Migration DB) :=
  [sample_migration "first" "001.001" "001.002"; sample_migration "second" "001.002" "001.003"].
(** The schema is current when two steps were applied. *)
Definition sample_verifier : SM DB unit :=
  exec (fun db => raise_unless (length (db_rest db) =? 2)%nat (Exn SchemaRevisionError "schema differs") ;; Ok ((), db)).

Definition sample_registry_text : result (MigrationRegistry DB) :=
  registry_init sample_migrations (Some sample_verifier) (Some (sha256_hex (u "verifier"))) None None.
Definition sample_digest : pystr :=
  Eval vm_compute in match sample_registry_text with Ok reg => reg_digest reg | Err _ => [] end.
Definition sample_registry : MigrationRegistry DB :=
  {| reg_migrations := sample_migrations;
     reg_by_source := <[Some (u "001.002") := sample_migration "second" "001.002" "001.003"]>
                        (<[Some (u "001.001") := sample_migration "first" "001.001" "001.002"]> ∅);
     reg_current_verifier := Some sample_verifier; reg_current_checksum := Some (sha256_hex (u "verifier"));
     reg_predecessor_verifier := None; reg_predecessor_checksum := None; reg_digest := sample_digest |}.

Example sample_registry_built : sample_registry_text = Ok sample_registry.
Proof.
  unfold sample_registry_text, registry_init. cbn [sample_migrations raise_if].
  set (c := dumps true _). vm_compute in c. subst c. cbn [mbind outcome_mbind outcome_bind].
  unfold sample_registry. by repeat f_equal.
Qed.

Definition sample_revision : DataPlaneRevision :=
  {| dp_schema_revision := u "001.003"; dp_read_compatible_from := [u "001.001"; u "001.002"];
     dp_migration_digest := sample_digest; dp_advisory_lock_ids := ADVISORY_LOCK_IDS;
     dp_accepted_predecessor_digests := [] |}.

Definition old_db : DB := PlaneDb (Some [(u "note", u "kept"); (SCHEMA_META_REVISION, u "001.001")]) [].

Lemma old_db_readable : readable old_db.
Proof.
  split; [apply (bool_decide_eq_true_1 (NoDup _)); vm_compute; reflexivity|].
  intros v Hv. vm_compute in Hv. injection Hv as <-. vm_compute. reflexivity.
Qed.

Lemma old_db_path : arrives sample_registry (u "001.003") (Some (u "001.001")) sample_migrations.
Proof. repeat (apply arrives_by; [done|vm_compute; reflexivity|]). apply arrives_here. Qed.

(** The old database is upgraded by both steps, and then is current. *)
Definition upgraded_db : DB :=
  PlaneDb (Some [(u "note", u "kept"); (SCHEMA_META_REVISION, u "001.003"); (SCHEMA_META_DIGEST, sample_digest)])
    [u "first"; u "second"].

Lemma migration_run_exact_witness :
  run sample_revision sample_registry (u "001.003") old_db
  = (Ok (report sample_revision sample_registry (Some (u "001.001")) [u "first"; u "second"] false), upgraded_db).
Proof.
  destruct (migration_run_exact sample_revision sample_registry old_db) as (_ & _ & Hup & _);
    [vm_compute; reflexivity|exact old_db_readable|].
  etransitivity; [exact (Hup ltac:(by vm_compute) ltac:(vm_compute; reflexivity) sample_migrations old_db_path)|].
  vm_compute. reflexivity.
Defined.

Lemma sample_operation_keeps r m : next_after sample_registry r = Some m -> keeps_meta (m_operation m).
Proof.
  unfold next_after. cbn [reg_by_source sample_registry]. intros Hm s.
  apply lookup_insert_Some in Hm as [[_ <-]|[_ [[_ <-]|[_ Hm]]%lookup_insert_Some]];
    [| |by rewrite lookup_empty in Hm].
  all: cbn [m_operation sample_migration]; unfold sample_operation, exec; by destruct (s_failed s).
Qed.

Lemma sample_verifier_reads : reads_schema (verify_current sample_registry).
Proof.
  exists (fun rest => if (length rest =? 2)%nat then (Ok (), false)
                      else (raise SchemaRevisionError "schema differs", true)).
  intros db. cbn [verify_current sample_registry reg_current_verifier]. unfold sample_verifier, exec. cbn.
  by destruct (length (db_rest db) =? 2)%nat.
Qed.

Lemma migration_idempotent_witness :
  run sample_revision sample_registry (u "001.003") upgraded_db
  = (Ok (report sample_revision sample_registry (Some (u "001.003")) [] true), upgraded_db).
Proof.
  destruct (migration_idempotent sample_revision sample_registry sample_operation_keeps sample_verifier_reads)
    with (db := old_db) (rep := report sample_revision sample_registry (Some (u "001.001")) [u "first"; u "second"] false)
         (db' := upgraded_db) as (_ & _ & _ & _ & _ & Hagain);
    [|vm_compute; reflexivity|exact old_db_readable|vm_compute; reflexivity|exact Hagain].
  intros r. by exists (fun _ => (Ok (), false)).
Defined.
End Sample.
