(* ===== verification/MigrationLineage.v ===== *)
(** * The declared lineage (MIGRATION_REGISTRY and CURRENT_DATA_PLANE_REVISION)

    The 29 migrations of src/src/astralplane/database/migrations.py with their
    names, sources and targets, the registry built of them, and the declared
    revision with the revisions it migrates from and the digest each of them
    must carry.  What a migration does and the checksum of its statements are
    parameters. *)

From stdpp Require Import gmap.
From S2P Require Import Prelude Regex Errors Domain Sha256 Json Pg Revision Migrations MigrationSpec.

Section Lineage.
Context {DB : Type} (statements_checksum : pystr -> pystr) (operation : pystr -> SM DB unit).

Definition plane_migration (name source target : string) : Migration DB :=
  {| m_name := u name; m_source_revisions := [Some (u source)]; m_target_revision := u target;
     m_checksum := statements_checksum (u name); m_operation := operation (u name) |}.

Definition PLANE_SCHEMA_067_MIGRATION : Migration DB :=
  plane_migration "astralplane-067-transactional-recovery" "066.001" "067.001".
Definition PLANE_SCHEMA_074_MIGRATION : Migration DB :=
  plane_migration "astralplane-074-lets-authority" "067.001" "074.001".
Definition PLANE_SCHEMA_074_002_MIGRATION : Migration DB :=
  plane_migration "astralplane-074-quality-audit-ownership" "074.001" "074.002".
Definition PLANE_SCHEMA_074_003_MIGRATION : Migration DB :=
  plane_migration "astralplane-074-current-runtime-contract" "074.002" "074.003".
Definition PLANE_SCHEMA_074_004_MIGRATION : Migration DB :=
  plane_migration "astralplane-074-pending-attachment-materialization" "074.003" "074.004".
Definition PLANE_SCHEMA_075_MIGRATION : Migration DB :=
  plane_migration "astralplane-075-client-local-speech" "074.004" "075.001".
Definition PLANE_SCHEMA_079_MIGRATION : Migration DB :=
  plane_migration "astralplane-079-persistent-assignments" "075.001" "079.001".
Definition PLANE_SCHEMA_088_MIGRATION : Migration DB :=
  plane_migration "astralplane-088-one-shot-operations" "079.001" "088.001".
Definition PLANE_SCHEMA_088_002_MIGRATION : Migration DB :=
  plane_migration "astralplane-088-session-incarnation" "088.001" "088.002".
Definition PLANE_SCHEMA_088_003_MIGRATION : Migration DB :=
  plane_migration "astralplane-088-session-issuer" "088.002" "088.003".
Definition PLANE_SCHEMA_088_004_MIGRATION : Migration DB :=
  plane_migration "astralplane-088-declarative-agents" "088.003" "088.004".
Definition PLANE_SCHEMA_088_005_MIGRATION : Migration DB :=
  plane_migration "astralplane-088-owner-guidance" "088.004" "088.005".
Definition PLANE_SCHEMA_088_006_MIGRATION : Migration DB :=
  plane_migration "astralplane-088-selected-input" "088.005" "088.006".
Definition PLANE_SCHEMA_088_007_MIGRATION : Migration DB :=
  plane_migration "astralplane-088-scheduler-policy" "088.006" "088.007".
Definition PLANE_SCHEMA_088_008_MIGRATION : Migration DB :=
  plane_migration "astralplane-088-framework-credentials" "088.007" "088.008".
Definition PLANE_SCHEMA_089_001_MIGRATION : Migration DB :=
  plane_migration "astralplane-089-typesafe-credentials" "088.008" "089.001".
Definition PLANE_SCHEMA_089_002_MIGRATION : Migration DB :=
  plane_migration "astralplane-089-mesh-enrollment-records" "089.001" "089.002".
Definition PLANE_SCHEMA_089_003_MIGRATION : Migration DB :=
  plane_migration "astralplane-owner-stop-epochs" "089.002" "089.003".
Definition PLANE_SCHEMA_089_004_MIGRATION : Migration DB :=
  plane_migration "astralplane-089-completion-wake" "089.003" "089.004".
Definition PLANE_SCHEMA_089_005_MIGRATION : Migration DB :=
  plane_migration "astralplane-089-notification-records" "089.004" "089.005".
Definition PLANE_SCHEMA_089_006_MIGRATION : Migration DB :=
  plane_migration "astralplane-089-atlas-pages" "089.005" "089.006".
Definition PLANE_SCHEMA_089_007_MIGRATION : Migration DB :=
  plane_migration "astralplane-089-atlas-revisions" "089.006" "089.007".
Definition PLANE_SCHEMA_089_008_MIGRATION : Migration DB :=
  plane_migration "astralplane-089-atlas-links" "089.007" "089.008".
Definition PLANE_SCHEMA_089_009_MIGRATION : Migration DB :=
  plane_migration "astralplane-089-capability-publications" "089.008" "089.009".
Definition PLANE_SCHEMA_089_010_MIGRATION : Migration DB :=
  plane_migration "astralplane-089-operation-harness-bindings" "089.009" "089.010".
Definition PLANE_SCHEMA_089_011_MIGRATION : Migration DB :=
  plane_migration "astralplane-089-push-deliveries" "089.010" "089.011".
Definition PLANE_SCHEMA_089_012_MIGRATION : Migration DB :=
  plane_migration "astralplane-089-observation-records" "089.011" "089.012".
Definition PLANE_SCHEMA_089_013_MIGRATION : Migration DB :=
  plane_migration "astralplane-089-projects" "089.012" "089.013".
Definition PLANE_SCHEMA_089_014_MIGRATION : Migration DB :=
  plane_migration "astralplane-089-harness-captures" "089.013" "089.014".

Definition plane_migrations : list (Migration DB) :=
  [PLANE_SCHEMA_067_MIGRATION;
   PLANE_SCHEMA_074_MIGRATION;
   PLANE_SCHEMA_074_002_MIGRATION;
   PLANE_SCHEMA_074_003_MIGRATION;
   PLANE_SCHEMA_074_004_MIGRATION;
   PLANE_SCHEMA_075_MIGRATION;
   PLANE_SCHEMA_079_MIGRATION;
   PLANE_SCHEMA_088_MIGRATION;
   PLANE_SCHEMA_088_002_MIGRATION;
   PLANE_SCHEMA_088_003_MIGRATION;
   PLANE_SCHEMA_088_004_MIGRATION;
   PLANE_SCHEMA_088_005_MIGRATION;
   PLANE_SCHEMA_088_006_MIGRATION;
   PLANE_SCHEMA_088_007_MIGRATION;
   PLANE_SCHEMA_088_008_MIGRATION;
   PLANE_SCHEMA_089_001_MIGRATION;
   PLANE_SCHEMA_089_002_MIGRATION;
   PLANE_SCHEMA_089_003_MIGRATION;
   PLANE_SCHEMA_089_004_MIGRATION;
   PLANE_SCHEMA_089_005_MIGRATION;
   PLANE_SCHEMA_089_006_MIGRATION;
   PLANE_SCHEMA_089_007_MIGRATION;
   PLANE_SCHEMA_089_008_MIGRATION;
   PLANE_SCHEMA_089_009_MIGRATION;
   PLANE_SCHEMA_089_010_MIGRATION;
   PLANE_SCHEMA_089_011_MIGRATION;
   PLANE_SCHEMA_089_012_MIGRATION;
   PLANE_SCHEMA_089_013_MIGRATION;
   PLANE_SCHEMA_089_014_MIGRATION].

(** [MIGRATION_REGISTRY] *)
Definition MIGRATION_REGISTRY (current : SM DB unit) (current_checksum : pystr)
    (predecessor : option pystr -> SM DB unit) (predecessor_checksum : pystr) : result (MigrationRegistry DB) :=
  registry_init plane_migrations (Some current) (Some current_checksum)
    (Some predecessor) (Some predecessor_checksum).
End Lineage.

(** [CURRENT_DATA_PLANE_REVISION], with the digest of the registry. *)
Definition CURRENT_DATA_PLANE_REVISION (migration_digest : pystr) : DataPlaneRevision :=
  {| dp_schema_revision := u "089.014";
     dp_read_compatible_from := u <$>
       ["066.001"; "067.001"; "074.001"; "074.002"; "074.003"; "074.004";
        "075.001"; "079.001"; "088.001"; "088.002"; "088.003"; "088.004";
        "088.005"; "088.006"; "088.007"; "088.008"; "089.001"; "089.002";
        "089.003"; "089.004"; "089.005"; "089.006"; "089.007"; "089.008";
        "089.009"; "089.010"; "089.011"; "089.012"; "089.013"];
     dp_migration_digest := migration_digest;
     dp_advisory_lock_ids := ADVISORY_LOCK_IDS;
     dp_accepted_predecessor_digests := (fun '(r, d) => (u r, u d)) <$>
       [("067.001", "ae2285e6764cf084eeaf6099443d85fb9b27ae930fcb0684e4e0f458d17bb4f9");
        ("074.001", "02ee01830e51c97edbeb384eb05f25b5101efa6c0f564383bab5b7b90a7e80cf");
        ("074.002", "1bb948074ec378d2a74e2b74eff29e72a6f9a6be03d3ae24ec6439fcf70f1e02");
        ("074.003", "ae0a3152c11ce711cbc8fbf8c3447d38abfe32db9d9d0fd5149e7e2c1c623296");
        ("074.004", "31495e9b916301e5d9d5011f256224e62e0a0822e25fdf3b9c339beb695eff50");
        ("075.001", "755faecd45a7d8ca9956f25a239bed476802b885efdce29a36dc3b66981f94df");
        ("079.001", "2353261227ed72d030ab2426b1a7229c8a1302c669a241dc6b84e3e77e003cad");
        ("088.001", "b6eaa819e9bd471350e48e431686c1ed6922e206608f1b673e0544c14014552d");
        ("088.002", "22d086ef60c5e73f124f3569268c4b48138871b1614ac538ab7f685a1b313afc");
        ("088.003", "a3d3ac43bee48b0ca6832cca1e4a347db0a3f838af908b8545edb11e7e94272a");
        ("088.004", "99e50e8f0aa6d4086bfe3e56701b951ebbb5bed9628631253f8dce2d935464e3");
        ("088.005", "8b1bd520cf0ecc249ef39d35930d71a591f49d5d04f254eabe1e3aefac729ed2");
        ("088.006", "4f5783e676a12a4009959da2056c2c769418f8c101d67f533223a608158ed73a");
        ("088.007", "844d9f6629bc422013f84488b10ba6d2862f4805475c63b217639184146fca4d");
        ("088.008", "4cddbddbc3eed66232f35bc24452451f92aa2b3e90968eb6fd6754f9a64358d8");
        ("089.001", "35741bd0de148f836cd8b75b160531013836a61bd46b9e17e7790641412979d8");
        ("089.002", "8570c65182f5c90f12319435f9b2614d6ebfff0d1404e4650df6f2bd34962565");
        ("089.003", "773f574efc9657de7692d6ae27352edbb07ef93ed967f4d5ca121ab5c0e1ac7e");
        ("089.004", "08b7d824a62284351d1ce178708bb185d7c81f77c96ab14e890f7e5675a008fc");
        ("089.005", "98a9082bb3317192cd6e48df3b63c76dbb9404814cb4a0180eb997f8737e37b0");
        ("089.006", "1176ee5a65f74e0447abe2e63bb90808acc40289acd1a6a09ec6a10ae1a967b1");
        ("089.007", "fe60420679846e7ea06ca5da3cef250cde5ad75a4ca47b6eb15739893a8ebd09");
        ("089.008", "3845856d7280e5ebd5e516135344b660cde8e3cff2a86f2ab50b0d4e0cf7999d");
        ("089.009", "c3e2b3d2d2a2f88a7b995eb6525f6f01df463bad5129a989f7ed70be5e95ed4b");
        ("089.010", "facf476fbde30deb1952b352e2f80d56742956c368b9f97e3e04478934cc2d9b");
        ("089.011", "8677b4e37ea98a7471ca97a82bc0182aed0f68002cace976ecfaacf8487d04fc");
        ("089.012", "58ba65b80bf3c1019c6c110d59cc618813668f7916f1621d851e58199738dc9e");
        ("089.013", "4a346c04dfb71e87afcf0444e196f9771977005e0f925c1336d43b1ed1bd3869")] |}.

(** ** The registry is well formed *)

Lemma map_each_total {A B} (f : A -> result B) l :
  (forall x, x ∈ l -> exists y, f x = Ok y) -> exists ys, map_each f l = Ok ys.
Proof.
  induction l as [|x l IH]; intros Hf; [by eexists|]. destruct (Hf x) as [y Hy]; [by left|].
  destruct IH as [ys Hys]; [intros; apply Hf; by right|]. exists (y :: ys). cbn. by rewrite Hy, Hys.
Qed.

Section Facts.
Context {DB : Type}.
Implicit Types (m : Migration DB) (ms : list (Migration DB)).

Lemma dumps_entry ensure checksum name sources target :
  exists t, dumps ensure (manifest_entry checksum name sources target) = Ok t.
Proof.
  destruct (map_each_total (dumps ensure) (JStr <$> sources)) as [ts Hts].
  { intros x (s & -> & _)%list_elem_of_fmap. by eexists. }
  cbn. rewrite Hts. cbn. by eexists.
Qed.

Lemma dumps_arr ensure l :
  dumps ensure (JArr l) = (texts ← map_each (dumps ensure) l; Ok (u "[" ++ join (u ",") texts ++ u "]")).
Proof. done. Qed.

Lemma dumps_manifest ms current predecessor : exists t, dumps true (manifest ms current predecessor) = Ok t.
Proof.
  unfold manifest. match goal with |- context [JArr ?l] => destruct (map_each_total (dumps true) l) as [ts Hts] end.
  { intros x Hx. rewrite !elem_of_app in Hx. destruct Hx as [Hx|[Hx|Hx]].
    - apply list_elem_of_fmap in Hx as (m & -> & _). apply dumps_entry.
    - destruct current; [apply list_elem_of_singleton in Hx as ->; apply dumps_entry|by apply not_elem_of_nil in Hx].
    - destruct predecessor; [apply list_elem_of_singleton in Hx as ->; apply dumps_entry|by apply not_elem_of_nil in Hx]. }
  rewrite dumps_arr, Hts. by eexists.
Qed.

(** A source leads to the migration that declares it. *)
Lemma claim_sources_lookup m (sources : list (option pystr)) (m0 m1 : gmap (option pystr) (Migration DB)) r x :
  claim_sources m sources m0 = Ok m1 -> m0 !! r = Some x \/ (r ∈ sources /\ x = m) -> m1 !! r = Some x.
Proof.
  revert m0. induction sources as [|s sources IH]; intros m0 Hc Hr; cbn in Hc.
  - injection Hc as <-. destruct Hr as [?|[?%not_elem_of_nil _]]; done.
  - inv_ok. apply (IH _ Hc). destruct Hr as [Hr|[[->|Hr]%elem_of_cons ->]].
    + left. rewrite lookup_insert_ne; [done|]. intros ->. by rewrite Hr in Hs.
    + left. by rewrite lookup_insert_eq.
    + by right.
Qed.

Lemma index_lookup (names : list pystr) ms (m0 m1 : gmap (option pystr) (Migration DB)) r x :
  index_migrations names ms m0 = Ok m1 ->
  m0 !! r = Some x \/ (x ∈ ms /\ r ∈ m_source_revisions x) -> m1 !! r = Some x.
Proof.
  revert names m0. induction ms as [|m ms IH]; intros names m0 Hi Hr; cbn in Hi.
  - injection Hi as <-. destruct Hr as [?|[?%not_elem_of_nil _]]; done.
  - inv_ok. apply (IH _ _ Hi). destruct Hr as [Hr|[[->|Hx]%elem_of_cons Hr]].
    + left. eapply claim_sources_lookup; [exact Hs0|by left].
    + left. eapply claim_sources_lookup; [exact Hs0|by right].
    + by right.
Qed.
End Facts.

Section Declared.
Context `{PgEnv} {S : Type}.
Abbreviation DB := (plane_db S).
Variables (statements_checksum : pystr -> pystr) (operation : pystr -> SM DB unit)
  (current : SM DB unit) (current_checksum : pystr)
  (predecessor : option pystr -> SM DB unit) (predecessor_checksum : pystr).
Hypotheses (Hsum : forall name, is_sha256 (statements_checksum name) = true)
  (Hcur : is_sha256 current_checksum = true) (Hpre : is_sha256 predecessor_checksum = true).
Abbreviation migrations := (plane_migrations statements_checksum operation).
Abbreviation current_revision := (u "089.014").

(** The revisions of the lineage, the declared one last. *)
Definition revisions : list pystr :=
  dp_read_compatible_from (CURRENT_DATA_PLANE_REVISION []) ++ [current_revision].

Lemma registry_builds :
  exists reg, MIGRATION_REGISTRY statements_checksum operation current current_checksum predecessor
                predecessor_checksum = Ok reg
    /\ is_sha256 (reg_digest reg) = true /\ is_some (reg_current_verifier reg) = true
    /\ forall i m, migrations !! i = Some m -> forall r, r ∈ m_source_revisions m -> next_after reg r = Some m.
Proof.
  assert (is_ok (index_migrations [] migrations ∅) = true) as Hok by (vm_compute; reflexivity).
  destruct (index_migrations [] migrations ∅) as [by_source|] eqn:Hi; [clear Hok|done].
  destruct (dumps_manifest migrations (Some current_checksum) (Some predecessor_checksum)) as [text Htext].
  unfold MIGRATION_REGISTRY, registry_init. rewrite Hi. cbn -[manifest plane_migrations].
  unfold check_verifier. rewrite Hcur, Hpre. cbn -[manifest plane_migrations]. rewrite Htext.
  eexists. split; [reflexivity|]. split_and!; [apply sha256_hex_format|done|].
  intros i m Hm r Hr. apply (index_lookup _ _ _ _ _ _ Hi). right. split; [|done].
  by eapply list_elem_of_lookup_2.
Qed.

Lemma migration_of_revision i m :
  migrations !! i = Some m ->
  exists r r', revisions !! i = Some r /\ revisions !! Datatypes.S i = Some r'
    /\ m_source_revisions m = [Some r] /\ m_target_revision m = r' /\ r <> current_revision
    /\ is_ok (migration_init m) = true.
Proof.
  assert (forall name source target,
      (negb (bool_decide (u name = [])) && is_ascii (u name)) = true ->
      fullmatch revision_re (u source) = true -> fullmatch revision_re (u target) = true ->
      u target <> u source ->
      is_ok (migration_init (plane_migration statements_checksum operation name source target)) = true) as Hinit.
  { intros name source target [Hn Ha]%andb_true_iff Hs Ht Hne. unfold migration_init, plane_migration.
    cbn [m_name m_source_revisions m_target_revision m_checksum]. apply negb_true_iff in Hn.
    rewrite Hn, Ha. cbn. unfold validate_revision. rewrite Hs. cbn. rewrite bool_decide_eq_true_2 by
      (apply NoDup_singleton). cbn. rewrite Ht. cbn. rewrite bool_decide_eq_false_2 by set_solver. cbn. by rewrite Hsum. }
  intros Hm. do 29 (destruct i as [|i];
    [injection Hm as <-; eexists _, _;
     split_and!; [reflexivity|reflexivity|reflexivity|reflexivity|by vm_compute|apply Hinit; by vm_compute]|]).
  done.
Qed.

Lemma lineage_arrives reg n :
  (forall i m, migrations !! i = Some m -> forall r, r ∈ m_source_revisions m -> next_after reg r = Some m) ->
  forall i r, (29 - i = n)%nat -> revisions !! i = Some r ->
  arrives reg current_revision (Some r) (drop i migrations).
Proof.
  intros Hreg. induction n as [|n IH]; intros i r Hn Hr.
  - assert (i = 29%nat) as ->.
    { apply lookup_lt_Some in Hr. cbn in Hr. lia. }
    injection Hr as <-. constructor.
  - destruct (migrations !! i) as [m|] eqn:Hm.
    2: { apply lookup_ge_None in Hm. cbn in Hm. lia. }
    destruct (migration_of_revision i m Hm) as (r0 & r1 & Hr0 & Hr1 & Hsrc & Htgt & Hne & _).
    replace r0 with r in * by congruence. rewrite (drop_S _ m i Hm). constructor; [congruence| |].
    + apply (Hreg i m Hm). rewrite Hsrc. by left.
    + rewrite Htgt. apply IH; [lia|done].
Qed.

(** The declared lineage is complete.  Whatever the migrations do, the 29
    declared ones are valid and form a registry, the declared revision is
    valid and the runner accepts the two together; and from each revision the
    release says it can read, carrying the digest that revision must carry, a
    run applies exactly the declared migrations after it, in order, up to
    revision 089.014. *)
Theorem declared_lineage_complete :
  exists reg, MIGRATION_REGISTRY statements_checksum operation current current_checksum predecessor
                predecessor_checksum = Ok reg
    /\ Forall (fun m => is_ok (migration_init m) = true) migrations
    /\ let declared := CURRENT_DATA_PLANE_REVISION (reg_digest reg) in
       is_ok (revision_init declared) = true /\ runner_init declared reg = Ok ()
       /\ forall i r, dp_read_compatible_from declared !! i = Some r ->
          is_ok (predecessor_digest_for declared (Some r)) = true
          /\ forall db, readable db -> stored db SCHEMA_META_REVISION = Some r ->
             predecessor_digest_for declared (Some r) = Ok (stored db SCHEMA_META_DIGEST) ->
             run declared reg current_revision db
             = transaction (upgrade declared reg (Some r) (drop i migrations)) db.
Proof.
  destruct registry_builds as (reg & Hreg & Hdig & Hver & Hnext). exists reg. split; [exact Hreg|]. split.
  { apply Forall_lookup. intros i m Hm.
    destruct (migration_of_revision i m Hm) as (? & ? & _ & _ & _ & _ & _ & Hok). exact Hok. }
  intros declared. split; [|split].
  - unfold declared, revision_init. cbn [dp_migration_digest CURRENT_DATA_PLANE_REVISION]. rewrite Hdig.
    vm_compute. reflexivity.
  - unfold runner_init, declared. rewrite bool_decide_eq_true_2 by done. cbn. by rewrite Hver.
  - intros i r Hr. assert (revisions !! i = Some r) as Hrev by (by apply lookup_app_l_Some).
    assert (fullmatch revision_re r = true) as Hvalid.
    { assert (forallb (fullmatch revision_re) (dp_read_compatible_from (CURRENT_DATA_PLANE_REVISION [])) = true)
        as Hall by (vm_compute; reflexivity).
      rewrite forallb_forall in Hall. apply Hall. apply list_elem_of_In. by eapply list_elem_of_lookup_2. }
    split.
    + cbn. unfold validate_revision. rewrite Hvalid. done.
    + intros db Hread Hs Hd. rewrite <- Hs at 1. change current_revision with (dp_schema_revision declared).
      apply run_upgrade; [by vm_compute|done| | |].
      * rewrite Hs. intros [= ->]. revert Hr. clear. intros Hr%list_elem_of_lookup_2.
        apply (bool_decide_eq_true_2 (u "089.014" ∈ dp_read_compatible_from (CURRENT_DATA_PLANE_REVISION []))) in Hr.
        by vm_compute in Hr.
      * by rewrite Hs.
      * rewrite Hs. by eapply lineage_arrives.
Qed.
End Declared.

(** A database one revision behind, with the digest it must carry, takes the
    last declared migration. *)
Lemma declared_lineage_complete_witness :
  let zeros := replicate 64 48%N in
  let db := PlaneDb (Some [(SCHEMA_META_REVISION, u "089.013");
                           (SCHEMA_META_DIGEST, u "4a346c04dfb71e87afcf0444e196f9771977005e0f925c1336d43b1ed1bd3869")]) [] in
  exists reg, run (CURRENT_DATA_PLANE_REVISION (reg_digest reg)) reg (u "089.014") db
    = transaction (upgrade (CURRENT_DATA_PLANE_REVISION (reg_digest reg)) reg (Some (u "089.013"))
        [PLANE_SCHEMA_089_014_MIGRATION (fun _ => zeros) sample_operation]) db.
Proof.
  cbn zeta. set (zeros := replicate 64 48%N). assert (is_sha256 zeros = true) as Hz by (vm_compute; reflexivity).
  destruct (declared_lineage_complete (fun _ => zeros) sample_operation sample_verifier zeros
              (fun _ => mret ()) zeros (fun _ => Hz) Hz Hz) as (reg & _ & _ & _ & _ & Hall).
  exists reg. destruct (Hall 28%nat (u "089.013") eq_refl) as [_ Hrun]. apply Hrun.
  - split; [apply (bool_decide_eq_true_1 (NoDup _)); vm_compute; reflexivity|].
    intros v Hv. vm_compute in Hv. injection Hv as <-. vm_compute. reflexivity.
  - vm_compute. reflexivity.
  - vm_compute. reflexivity.
Defined.
