(* ===== verification/Reconciliation.v ===== *)
(** * The reconciliation runner (src/src/astralplane/reconciliation.py)

    After a migration the product's hooks run to completion under a durable
    plan: the runner asks a session for the marker of each hook, runs the hooks
    that are not completed, and records start, completion and failure.  The
    session is an interface (the protocol of contracts/__init__.py); the hooks
    act on a world outside the library. *)

From S2P Require Import Prelude Regex Errors Domain Sha256 Json Revision AuthorityModels.

(** ** State and exceptions *)

Definition ST (X A : Type) : Type := X -> result A * X.
#[global] Instance ST_mret {X} : MRet (ST X) := fun _ a x => (Ok a, x).
#[global] Instance ST_mbind {X} : MBind (ST X) := fun _ _ f m x =>
  match m x with
  | (Ok a, x') => f a x'
  | (Err e, x') => (Err e, x')
  end.
Definition pure {X A} (r : result A) : ST X A := fun x => (r, x).
(** [try: m except BaseException as e: handler(e)] *)
Definition catch {X A} (m : ST X A) (handler : exn -> ST X A) : ST X A := fun x =>
  match m x with
  | (Ok a, x') => (Ok a, x')
  | (Err e, x') => handler e x'
  end.

(** ** Markers *)

Inductive ReconciliationMarkerState : Type := MK_STARTED | MK_COMPLETED | MK_FAILED.
#[global] Instance ReconciliationMarkerState_eq_dec : EqDecision ReconciliationMarkerState.
Proof. solve_decision. Defined.
Definition ReconciliationMarkerState_value (s : ReconciliationMarkerState) : string :=
  match s with MK_STARTED => "started" | MK_COMPLETED => "completed" | MK_FAILED => "failed" end.

Record ReconciliationHookIdentity : Type := HookId { hi_name : pystr; hi_version : pystr }.
#[global] Instance ReconciliationHookIdentity_eq_dec : EqDecision ReconciliationHookIdentity.
Proof. solve_decision. Defined.

Record ReconciliationMarker : Type := {
  mk_schema_revision : pystr;
  mk_plan_digest : pystr;
  mk_hook : ReconciliationHookIdentity;
  mk_state : ReconciliationMarkerState;
  mk_attempt : Z;
  mk_result_digest : option pystr;
  mk_error_type : option pystr
}.
#[global] Instance ReconciliationMarker_eq_dec : EqDecision ReconciliationMarker.
Proof. solve_decision. Defined.

(** The protocol [ReconciliationSession], on a session of type [C]. *)
Class ReconciliationSession (C : Type) : Type := {
  get_marker : ReconciliationHookIdentity -> ST C (option ReconciliationMarker);
  mark_started : ReconciliationHookIdentity -> ST C ReconciliationMarker;
  mark_completed : ReconciliationHookIdentity -> pystr -> ST C ReconciliationMarker;
  mark_failed : ReconciliationHookIdentity -> pystr -> ST C ReconciliationMarker
}.

(** ** Plans and results *)

Definition RECONCILIATION_ADVISORY_LOCK : Z * Z := (1095980114, 60002).

(** [^[A-Za-z0-9][A-Za-z0-9._-]{0,127}$] *)
Definition safe_identity_re : regex :=
  RSeq (RChar is_alnum) (RRep 0 127 (fun c => is_alnum c || one_of "._-" c)).
Definition is_safe_identity (s : pystr) : bool := fullmatch safe_identity_re s.

Record ReconciliationPlan : Type := {
  rp_schema_revision : pystr;
  rp_plan_digest : pystr;
  rp_hooks : list ReconciliationHookIdentity
}.
Record ReconciliationHookReport : Type := {
  hr_hook : ReconciliationHookIdentity;
  hr_attempt : Z;
  hr_already_complete : bool;
  hr_result_digest : pystr
}.
Record ReconciliationReport : Type := {
  rr_schema_revision : pystr;
  rr_plan_digest : pystr;
  rr_advisory_lock : Z * Z;
  rr_hooks : list ReconciliationHookReport;
  rr_durably_complete : bool
}.

(** The document has strings only and its text is ASCII. *)
Definition plan_document (schema_revision : pystr) (hooks : list ReconciliationHookIdentity) : json :=
  JObj [(u "hooks", JArr ((fun h => JObj [(u "name", JStr (hi_name h)); (u "version", JStr (hi_version h))]) <$> hooks));
        (u "schemaRevision", JStr schema_revision)].
Definition _canonical_plan_digest (schema_revision : pystr) (hooks : list ReconciliationHookIdentity)
  : result pystr :=
  canonical ← dumps true (plan_document schema_revision hooks);
  Ok (sha256_hex canonical).

(** What a hook returns: [None], a mapping by its items, or something else. *)
Inductive hook_result : Type :=
  | HR_none
  | HR_mapping (items : list (option pystr * json))
  | HR_other.

(** A key that is not a string is [None]. *)
Definition string_items (items : list (option pystr * json)) : option (list (pystr * json)) :=
  mapM (fun '(k, v) => match k with Some (c :: s) => Some (c :: s, v) | _ => None end) items.

Definition _result_digest (r : hook_result) : result pystr :=
  match r with
  | HR_other => raise ReconciliationError "reconciliation hook result must be a mapping"
  | HR_none | HR_mapping _ =>
      let items := match r with HR_mapping l => l | _ => [] end in
      match string_items items with
      | None => raise ReconciliationError "reconciliation hook result keys must be non-empty strings"
      | Some members =>
          canonical ← map_err (fun e => Exn ReconciliationError
                        "reconciliation hook result must be canonical JSON metadata")
            (text ← dumps false (JObj members); utf8_encode text);
          Ok (sha256_hex canonical)
      end
  end.

(** A state a marker may be in: what [_validate_marker] requires of its fields. *)
Definition check_marker_shape (m : ReconciliationMarker) : result unit :=
  match mk_state m with
  | MK_COMPLETED =>
      raise_unless (match mk_result_digest m with Some d => is_sha256 d | None => false end)
        (Exn ReconciliationError "completed reconciliation marker lacks a canonical result digest") ;;
      raise_if (is_some (mk_error_type m))
        (Exn ReconciliationError "completed reconciliation marker must not carry a failure")
  | MK_FAILED =>
      raise_unless (match mk_error_type m with Some e => is_safe_identity e | None => false end
                    && negb (is_some (mk_result_digest m)))
        (Exn ReconciliationError "failed reconciliation marker is malformed")
  | MK_STARTED =>
      raise_if (is_some (mk_error_type m) || is_some (mk_result_digest m))
        (Exn ReconciliationError "started reconciliation marker is malformed")
  end.

Definition _validate_marker (plan : ReconciliationPlan) (hook : ReconciliationHookIdentity)
    (expected_state : option ReconciliationMarkerState) (m : ReconciliationMarker)
  : result ReconciliationMarker :=
  raise_if (bool_decide (mk_schema_revision m <> rp_schema_revision plan)
            || bool_decide (mk_plan_digest m <> rp_plan_digest plan) || bool_decide (mk_hook m <> hook))
    (Exn ReconciliationError "reconciliation marker does not match the required plan") ;;
  raise_if (mk_attempt m <? 1) (Exn ReconciliationError "reconciliation marker attempt must be positive") ;;
  raise_if (match expected_state with Some s => bool_decide (mk_state m <> s) | None => false end)
    (Exn ReconciliationError "reconciliation marker has an unexpected state") ;;
  check_marker_shape m ;;
  Ok m.

(** ** The runner *)

(** A hook: its identity, and what [reconcile] does to the world outside. *)
Record ProductReconciler (W : Type) : Type := Hook {
  hk_name : pystr;
  hk_version : pystr;
  hk_reconcile : ST W hook_result
}.
Arguments Hook {W}.
Arguments hk_name {W}.
Arguments hk_version {W}.
Arguments hk_reconcile {W}.

(** [ReconciliationRunner.__init__]: the identities of the hooks. *)
Fixpoint hook_identities {W} (names : list pystr) (hooks : list (ProductReconciler W))
  : result (list ReconciliationHookIdentity) :=
  match hooks with
  | [] => Ok []
  | h :: hooks' =>
      raise_unless (is_safe_identity (hk_name h) && is_safe_identity (hk_version h))
        (Exn ReconciliationError "reconciliation hook name and version must be bounded identifiers") ;;
      raise_if (bool_decide (hk_name h ∈ names))
        (Exn ReconciliationError "reconciliation hook names must be unique") ;;
      identities ← hook_identities (hk_name h :: names) hooks';
      Ok (HookId (hk_name h) (hk_version h) :: identities)
  end.
Definition runner_identities {W} (hooks : list (ProductReconciler W)) : result (list ReconciliationHookIdentity) :=
  raise_if (match hooks with [] => true | _ => false end)
    (Exn ReconciliationError "at least one required reconciliation hook is needed") ;;
  hook_identities [] hooks.

Definition plan (identities : list ReconciliationHookIdentity) (schema_revision : pystr) : result ReconciliationPlan :=
  revision ← validate_revision schema_revision "reconciliation schema revision";
  digest ← _canonical_plan_digest revision identities;
  Ok {| rp_schema_revision := revision; rp_plan_digest := digest; rp_hooks := identities |}.

Section Runner.
Context {C W : Type} `{!ReconciliationSession C}.
Implicit Types (plan : ReconciliationPlan) (identity : ReconciliationHookIdentity).

(** A call of the session, and a call of a hook. *)
Definition on_session {A} (m : ST C A) : ST (C * W) A := fun '(c, w) => let '(r, c') := m c in (r, (c', w)).
Definition on_world {A} (m : ST W A) : ST (C * W) A := fun '(c, w) => let '(r, w') := m w in (r, (c, w')).

Definition _durable_failure plan identity (error_type : pystr) : ST (C * W) ReconciliationMarker :=
  marker ← on_session (mark_failed identity error_type);
  pure (_validate_marker plan identity (Some MK_FAILED) marker).

(** The body of the [try] statement: the completed marker. *)
Definition attempt_hook plan identity (hook : ProductReconciler W) (started : ReconciliationMarker)
    (expected_attempt : Z) : ST (C * W) ReconciliationMarker :=
  pure (raise_unless (mk_attempt started =? expected_attempt)
    (Exn ReconciliationError "reconciliation marker attempt is not monotonic")) ;;
  result ← on_world (hk_reconcile hook);
  digest ← pure (_result_digest result);
  marker ← on_session (mark_completed identity digest);
  completed ← pure (_validate_marker plan identity (Some MK_COMPLETED) marker);
  pure (raise_unless (mk_attempt completed =? mk_attempt started)
    (Exn ReconciliationError "reconciliation completion changed the attempt identity")) ;;
  pure (raise_unless (bool_decide (mk_result_digest completed = Some digest))
    (Exn ReconciliationError "reconciliation completion changed the result digest")) ;;
  mret completed.

(** [except Exception as exc] *)
Definition fail_hook plan identity (started : ReconciliationMarker) (exc : exn) : ST (C * W) ReconciliationMarker :=
  catch
    (failed ← _durable_failure plan identity (type_name (exn_cls exc));
     pure (raise_unless (mk_attempt failed =? mk_attempt started)
       (Exn ReconciliationError "reconciliation failure changed the attempt identity")))
    (fun marker_exc =>
       pure (Err (if is_exception marker_exc
                  then Exn ReconciliationError "reconciliation failure marker could not be persisted"
                  else marker_exc))) ;;
  pure (raise ReconciliationError "required reconciliation hook failed").

(** [finally] after an exception that is not an [Exception]. *)
Definition interrupt_hook plan identity (exc : exn) : ST (C * W) ReconciliationMarker :=
  catch (_durable_failure plan identity (u "Interrupted") ;; mret ())
    (fun e => if is_exception e then mret () else pure (Err e)) ;;
  pure (Err exc).

(** One turn of the loop over the hooks. *)
Definition run_hook plan identity (hook : ProductReconciler W) : ST (C * W) ReconciliationHookReport :=
  found ← on_session (get_marker identity);
  existing ← pure (match found with
                   | None => Ok None
                   | Some m => v ← _validate_marker plan identity None m; Ok (Some v)
                   end);
  match existing with
  | Some ({| mk_state := MK_COMPLETED |} as m) =>
      pure (match mk_result_digest m with
            | None => raise AssertionError_ "assertion failed"
            | Some d => Ok {| hr_hook := identity; hr_attempt := mk_attempt m; hr_already_complete := true;
                              hr_result_digest := d |}
            end)
  | _ =>
      marker ← on_session (mark_started identity);
      started ← pure (_validate_marker plan identity (Some MK_STARTED) marker);
      let expected_attempt := match existing with None => 1 | Some m => mk_attempt m + 1 end in
      completed ← catch (attempt_hook plan identity hook started expected_attempt)
        (fun exc => if is_exception exc then fail_hook plan identity started exc
                    else interrupt_hook plan identity exc);
      pure (match mk_result_digest completed with
            | None => raise AssertionError_ "assertion failed"
            | Some d => Ok {| hr_hook := identity; hr_attempt := mk_attempt started; hr_already_complete := false;
                              hr_result_digest := d |}
            end)
  end.

Fixpoint run_hooks plan (hooks : list (ProductReconciler W * ReconciliationHookIdentity))
  : ST (C * W) (list ReconciliationHookReport) :=
  match hooks with
  | [] => mret []
  | (hook, identity) :: hooks' =>
      report ← run_hook plan identity hook;
      reports ← run_hooks plan hooks';
      mret (report :: reports)
  end.

(** The final check of one completion marker. *)
Definition confirm_hook plan identity : ST (C * W) unit :=
  marker ← on_session (get_marker identity);
  catch
    (pure (match marker with
           | None => raise ReconciliationError "required reconciliation completion marker is missing"
           | Some m => _validate_marker plan identity (Some MK_COMPLETED) m ;; Ok ()
           end))
    (fun _ =>
       catch (_durable_failure plan identity (u "CompletionNotDurable") ;; mret ())
         (fun e => pure (Err (if is_exception e
            then Exn ReconciliationError "reconciliation completion and failure markers are not durable" else e))) ;;
       pure (raise ReconciliationError "required reconciliation completion is not durable")).

Fixpoint confirm_hooks plan (identities : list ReconciliationHookIdentity) : ST (C * W) unit :=
  match identities with
  | [] => mret ()
  | identity :: identities' => confirm_hook plan identity ;; confirm_hooks plan identities'
  end.

(** The body of [with self._coordinator.coordinate(...)] *)
Definition run_plan plan (hooks : list (ProductReconciler W)) : ST (C * W) (list ReconciliationHookReport) :=
  reports ← run_hooks plan (zip hooks (rp_hooks plan));
  confirm_hooks plan (rp_hooks plan) ;;
  mret reports.
End Runner.
