(* ===== verification/ReconciliationStore.v ===== *)
(** * Durable markers (src/src/astralplane/reconciliation_store.py)

    [PostgresReconciliationSession] keeps the markers in
    [astralplane_reconciliation_marker], each transition committed on its own
    on one dedicated connection that holds the advisory lock.  The connection
    is modelled with its committed and its current table; the next calls of the
    driver fail as [mc_faults] says, each with or without having taken effect.
    The lock keeps every other coordinator out, so nobody else writes the
    table meanwhile. *)

From S2P Require Import Prelude Regex Errors Domain Json Pg Revision Reconciliation.

(** ** The table *)

(** A row has the fields of a marker; its primary key is the plan and the hook. *)
Abbreviation marker_table := (list ReconciliationMarker).

Definition marker_key (m : ReconciliationMarker) : pystr * pystr * ReconciliationHookIdentity :=
  (mk_schema_revision m, mk_plan_digest m, mk_hook m).
Definition marker_conflict (a b : ReconciliationMarker) : bool := bool_decide (marker_key a = marker_key b).

(** [astralplane_reconciliation_state_shape_check] *)
Definition marker_shape (m : ReconciliationMarker) : bool :=
  match mk_state m with
  | MK_STARTED => negb (is_some (mk_result_digest m)) && negb (is_some (mk_error_type m))
  | MK_COMPLETED => is_some (mk_result_digest m) && negb (is_some (mk_error_type m))
  | MK_FAILED => negb (is_some (mk_result_digest m)) && is_some (mk_error_type m)
  end.
Definition check_marker_row (m : ReconciliationMarker) : result unit :=
  raise_unless (is_int4 (mk_attempt m)) (Exn PgNumericOutOfRange "integer out of range") ;;
  raise_unless (is_sha256 (mk_plan_digest m) && (0 <? mk_attempt m)
                && match mk_result_digest m with Some d => is_sha256 d | None => true end && marker_shape m)
    (Exn PgCheckViolation "new row violates check constraint").

Definition set_marker (state : ReconciliationMarkerState) (attempt : Z) (digest error : option pystr)
    (m : ReconciliationMarker) : ReconciliationMarker :=
  {| mk_schema_revision := mk_schema_revision m; mk_plan_digest := mk_plan_digest m; mk_hook := mk_hook m;
     mk_state := state; mk_attempt := attempt; mk_result_digest := digest; mk_error_type := error |}.

(** ** Statements *)

Section Statements.
Context `{PgEnv}.
Implicit Types (t : marker_table) (key : pystr * pystr * ReconciliationHookIdentity).

Definition has_key key (m : ReconciliationMarker) : bool := bool_decide (marker_key m = key).

Definition _GET_MARKER_SQL key t : result (option ReconciliationMarker * marker_table) :=
  Ok (select_one "marker_get" (has_key key) t, t).

(** A marker that may start again. *)
Definition restartable (m : ReconciliationMarker) : bool :=
  negb (is_some (mk_result_digest m))
  && (bool_decide (mk_state m = MK_STARTED) && negb (is_some (mk_error_type m))
      || bool_decide (mk_state m = MK_FAILED)
         && match mk_error_type m with Some e => is_safe_identity e | None => false end).

Definition fresh_marker key : ReconciliationMarker :=
  let '(revision, digest, hook) := key in
  {| mk_schema_revision := revision; mk_plan_digest := digest; mk_hook := hook; mk_state := MK_STARTED;
     mk_attempt := 1; mk_result_digest := None; mk_error_type := None |}.

(** [INSERT ... ON CONFLICT ... DO UPDATE SET ... WHERE ... RETURNING ...] *)
Definition _MARK_STARTED_SQL key t : result (option ReconciliationMarker * marker_table) :=
  check_marker_row (fresh_marker key) ;;
  if exists_row (has_key key) t then
    '(rows, t') ← update_returning check_marker_row marker_conflict
                    (fun m => has_key key m && restartable m)
                    (fun m => set_marker MK_STARTED (mk_attempt m + 1) None None m) t;
    Ok (head rows, t')
  else Ok (Some (fresh_marker key), t ++ [fresh_marker key]).

(** The fence of the two final transitions. *)
Definition in_progress key (m : ReconciliationMarker) : bool :=
  has_key key m && bool_decide (mk_state m = MK_STARTED)
  && negb (is_some (mk_result_digest m)) && negb (is_some (mk_error_type m)).

Definition _MARK_COMPLETED_SQL (digest : pystr) key t : result (option ReconciliationMarker * marker_table) :=
  '(rows, t') ← update_returning check_marker_row marker_conflict (in_progress key)
                  (fun m => set_marker MK_COMPLETED (mk_attempt m) (Some digest) None m) t;
  Ok (head rows, t').
Definition _MARK_FAILED_SQL (error_type : pystr) key t : result (option ReconciliationMarker * marker_table) :=
  '(rows, t') ← update_returning check_marker_row marker_conflict (in_progress key)
                  (fun m => set_marker MK_FAILED (mk_attempt m) None (Some error_type) m) t;
  Ok (head rows, t').
End Statements.

(** ** The connection *)

(** The next call of the driver raises; [f_done]: after it took effect. *)
Record fault : Type := Fault { f_exn : exn; f_done : bool }.

Record marker_conn : Type := MarkerConn {
  mc_committed : marker_table;
  mc_current : marker_table;
  mc_aborted : bool;
  mc_closed : bool;
  mc_faults : list (option fault)
}.

Definition driver {A} (f : marker_conn -> result A * marker_conn) : ST marker_conn A := fun c =>
  if mc_closed c then (raise PgOperationalError "connection already closed", c)
  else
    match mc_faults c with
    | [] => f c
    | fault :: faults =>
        let c' := MarkerConn (mc_committed c) (mc_current c) (mc_aborted c) (mc_closed c) faults in
        match fault with
        | None => f c'
        | Some (Fault e done) => (Err e, if done then snd (f c') else c')
        end
    end.

(** A call without effect on the tables: [cursor()], [fetchone()], [close()]. *)
Definition driver_idle : ST marker_conn unit := driver (fun c => (Ok (), c)).
Definition driver_execute {A} (st : marker_table -> result (A * marker_table)) : ST marker_conn A :=
  driver (fun c =>
    if mc_aborted c then (raise PgInFailedTransaction "current transaction is aborted", c)
    else match st (mc_current c) with
         | Ok (a, t) => (Ok a, MarkerConn (mc_committed c) t false (mc_closed c) (mc_faults c))
         | Err e => (Err e, MarkerConn (mc_committed c) (mc_current c) true (mc_closed c) (mc_faults c))
         end).
Definition driver_commit : ST marker_conn unit :=
  driver (fun c =>
    let t := if mc_aborted c then mc_committed c else mc_current c in
    (Ok (), MarkerConn t t false (mc_closed c) (mc_faults c))).
Definition driver_rollback : ST marker_conn unit :=
  driver (fun c => (Ok (), MarkerConn (mc_committed c) (mc_committed c) false (mc_closed c) (mc_faults c))).
Definition driver_close : ST marker_conn unit :=
  driver (fun c => (Ok (), MarkerConn (mc_committed c) (mc_committed c) false true (mc_faults c))).

(** ** PostgresReconciliationSession *)

Record session_state : Type := PgSession {
  ps_conn : marker_conn;
  ps_schema_revision : pystr;
  ps_plan_digest : pystr;
  ps_active : bool
}.

Definition on_conn {A} (m : ST marker_conn A) : ST session_state A := fun s =>
  let '(r, c) := m (ps_conn s) in (r, PgSession c (ps_schema_revision s) (ps_plan_digest s) (ps_active s)).
(** [with suppress(BaseException): m] *)
Definition suppress {X A} (m : ST X A) : ST X unit := fun x => (Ok (), snd (m x)).

Definition _validate_digest (value : pystr) (field : string) : result pystr :=
  raise_unless (is_sha256 value) (Exn ReconciliationError (field ++ " must be a lowercase SHA-256 digest")) ;;
  Ok value.
Definition _validate_hook (hook : ReconciliationHookIdentity) : result ReconciliationHookIdentity :=
  raise_unless (is_safe_identity (hi_name hook) && is_safe_identity (hi_version hook))
    (Exn ReconciliationError "reconciliation hook name and version must be bounded identifiers") ;;
  Ok hook.

Definition _marker_from_row (row : ReconciliationMarker) : result ReconciliationMarker :=
  validate_revision (mk_schema_revision row) "reconciliation marker schema revision" ;;
  _validate_digest (mk_plan_digest row) "reconciliation marker plan digest" ;;
  _validate_hook (mk_hook row) ;;
  raise_if (mk_attempt row <? 1) (Exn ReconciliationError "reconciliation marker attempt must be positive") ;;
  match mk_state row with
  | MK_STARTED =>
      raise_if (is_some (mk_result_digest row) || is_some (mk_error_type row))
        (Exn ReconciliationError "started reconciliation marker is malformed")
  | MK_COMPLETED =>
      raise_unless (match mk_result_digest row with Some d => is_sha256 d | None => false end)
        (Exn ReconciliationError "completed reconciliation marker is malformed") ;;
      raise_if (is_some (mk_error_type row))
        (Exn ReconciliationError "completed reconciliation marker carries a failure")
  | MK_FAILED =>
      raise_if (is_some (mk_result_digest row)
                || match mk_error_type row with Some e => negb (is_safe_identity e) | None => true end)
        (Exn ReconciliationError "failed reconciliation marker is malformed")
  end ;;
  Ok row.

Definition _require_active : ST session_state unit := fun s =>
  (raise_unless (ps_active s) (Exn ReconciliationError "reconciliation session is no longer active"), s).
Definition _deactivate : ST session_state unit := fun s =>
  (Ok (), PgSession (ps_conn s) (ps_schema_revision s) (ps_plan_digest s) false).
Definition _discard : ST session_state unit := _deactivate ;; suppress (on_conn driver_close).

Definition _parameters (hook : ReconciliationHookIdentity)
  : ST session_state (pystr * pystr * ReconciliationHookIdentity) := fun s =>
  (exact ← _validate_hook hook; Ok (ps_schema_revision s, ps_plan_digest s, exact), s).

Definition _rollback_after_failure : ST session_state unit :=
  catch (on_conn driver_rollback) (fun _ => _discard).

(** [isinstance(exc, (KeyboardInterrupt, SystemExit, ReconciliationError))] *)
Definition passes (exc : exn) : bool :=
  isinstance (exn_cls exc) KeyboardInterrupt_ || isinstance (exn_cls exc) SystemExit_
  || isinstance (exn_cls exc) ReconciliationError.
Definition interrupts (exc : exn) : bool :=
  isinstance (exn_cls exc) KeyboardInterrupt_ || isinstance (exn_cls exc) SystemExit_.

Definition _read_row (st : marker_table -> result (option ReconciliationMarker * marker_table)) (action : string)
  : ST session_state (option ReconciliationMarker) :=
  let failed exc :=
    _rollback_after_failure ;;
    pure (Err (if passes exc then exc
               else Exn ReconciliationError ("reconciliation marker " ++ action ++ " failed"))) in
  _require_active ;;
  catch (on_conn driver_idle) (fun exc => failed exc ;; mret ()) ;;
  catch
    (row ← on_conn (driver_execute st);
     on_conn driver_idle ;;                      (* fetchone *)
     on_conn driver_idle ;;                      (* close *)
     mret row)
    (fun exc => suppress (on_conn driver_idle) ;; failed exc).

(** The marker of this session's plan and of the hook. *)
Definition same_identity (hook : ReconciliationHookIdentity) (m : ReconciliationMarker) (s : session_state) : bool :=
  bool_decide (mk_schema_revision m = ps_schema_revision s) && bool_decide (mk_plan_digest m = ps_plan_digest s)
  && bool_decide (mk_hook m = hook).

Definition _commit_marker (st : marker_table -> result (option ReconciliationMarker * marker_table))
    (hook : ReconciliationHookIdentity) (expected_state : ReconciliationMarkerState) (action : string)
  : ST session_state ReconciliationMarker :=
  row ← _read_row st action;
  match row with
  | None =>
      _rollback_after_failure ;;
      pure (raise ReconciliationError
        ("reconciliation marker cannot transition to " ++ ReconciliationMarkerState_value expected_state))
  | Some r =>
      marker ← catch
        (fun s => (marker ← _marker_from_row r;
                   raise_unless (same_identity hook marker s && bool_decide (mk_state marker = expected_state))
                     (Exn ReconciliationError "reconciliation marker transition did not preserve its exact identity") ;;
                   Ok marker, s))
        (fun exc => _rollback_after_failure ;;
                    pure (Err (if passes exc then exc
                               else Exn ReconciliationError ("reconciliation marker " ++ action ++ " returned invalid data"))));
      catch (on_conn driver_commit)
        (fun exc => _rollback_after_failure ;; _discard ;;
                    pure (Err (if interrupts exc then exc
                               else Exn ReconciliationError
                                 ("reconciliation marker " ++ action ++ " could not be committed durably")))) ;;
      mret marker
  end.

Section Session.
Context `{PgEnv}.
Implicit Types hook : ReconciliationHookIdentity.

Definition pg_get_marker hook : ST session_state (option ReconciliationMarker) :=
  key ← _parameters hook;
  row ← _read_row (_GET_MARKER_SQL key) "read";
  marker ← catch
    (fun s => (match row with
               | None => Ok None
               | Some r =>
                   m ← _marker_from_row r;
                   raise_unless (same_identity hook m s)
                     (Exn ReconciliationError "reconciliation marker read did not preserve its exact identity") ;;
                   Ok (Some m)
               end, s))
    (fun exc => _rollback_after_failure ;; pure (Err exc));
  catch (on_conn driver_rollback)
    (fun exc => _discard ;;
                pure (Err (if interrupts exc then exc
                           else Exn ReconciliationError "reconciliation marker read could not be closed"))) ;;
  mret marker.

Definition pg_mark_started hook : ST session_state ReconciliationMarker :=
  key ← _parameters hook;
  _commit_marker (_MARK_STARTED_SQL key) hook MK_STARTED "start".

Definition pg_mark_completed hook (result_digest : pystr) : ST session_state ReconciliationMarker :=
  exact_digest ← pure (_validate_digest result_digest "reconciliation result digest");
  key ← _parameters hook;
  _commit_marker (_MARK_COMPLETED_SQL exact_digest key) hook MK_COMPLETED "completion".

Definition pg_mark_failed hook (error_type : pystr) : ST session_state ReconciliationMarker :=
  pure (raise_unless (is_safe_identity error_type)
    (Exn ReconciliationError "reconciliation error type must be a bounded identifier")) ;;
  key ← _parameters hook;
  _commit_marker (_MARK_FAILED_SQL error_type key) hook MK_FAILED "failure".

(** The store implements the session of the runner. *)
#[export] Instance PostgresReconciliationSession : ReconciliationSession session_state := {|
  get_marker := pg_get_marker;
  mark_started := pg_mark_started;
  mark_completed := pg_mark_completed;
  mark_failed := pg_mark_failed
|}.
End Session.

(** ** PostgresReconciliationCoordinator *)

(** [_acquire] and [_release]: one statement on the lock, committed; a failure
    closes the connection, which gives the lock up. *)
Definition lock_call (message : string) : ST marker_conn unit :=
  let failed exc :=
    suppress driver_rollback ;; suppress driver_close ;;
    pure (Err (if passes exc then exc else Exn ReconciliationError message)) in
  catch driver_idle failed ;;
  catch (driver_idle ;; driver_idle ;; driver_idle)
    (fun exc => suppress driver_idle ;; failed exc) ;;
  catch driver_commit failed.
Definition _acquire : ST marker_conn unit := lock_call "reconciliation advisory lock acquisition failed".
Definition _release : ST marker_conn unit := lock_call "reconciliation advisory lock release failed".

(** [with coordinator.coordinate(...) as session: body] on a connection that was
    borrowed, with the world the body acts on.  The borrow and the return are
    [with_connection] of Transaction.v: they write no marker, the return rolls
    back what was not committed, and an error of theirs is raised in place of
    the result. *)
Definition coordinate {W A} (advisory_lock : Z * Z) (schema_revision plan_digest : pystr)
    (body : ST (session_state * W) A) : ST (marker_conn * W) A := fun '(c, w) =>
  match (raise_unless (bool_decide (advisory_lock = RECONCILIATION_ADVISORY_LOCK))
           (Exn ReconciliationError "reconciliation coordinator requires the canonical advisory lock") ;;
         revision ← validate_revision schema_revision "reconciliation schema revision";
         digest ← _validate_digest plan_digest "reconciliation plan digest";
         Ok (revision, digest)) with
  | Err e => (Err e, (c, w))
  | Ok (revision, digest) =>
      match _acquire c with
      | (Err e, c1) => (Err e, (c1, w))
      | (Ok _, c1) =>
          match body (PgSession c1 revision digest true, w) with
          | (Err e, (s, w1)) => (Err e, (snd (_release (ps_conn s)), w1))
          | (Ok a, (s, w1)) =>
              match _release (ps_conn s) with
              | (Err e, c2) => (Err e, (c2, w1))
              | (Ok _, c2) => (Ok a, (c2, w1))
              end
          end
      end
  end.

(** [ReconciliationRunner.run] over the store. *)
Definition reconcile `{PgEnv} {W} (hooks : list (ProductReconciler W)) (schema_revision : pystr)
  : ST (marker_conn * W) ReconciliationReport := fun x =>
  match (identities ← runner_identities hooks; p ← plan identities schema_revision; Ok p) with
  | Err e => (Err e, x)
  | Ok p =>
      (reports ← coordinate RECONCILIATION_ADVISORY_LOCK (rp_schema_revision p) (rp_plan_digest p) (run_plan p hooks);
       mret {| rr_schema_revision := rp_schema_revision p; rr_plan_digest := rp_plan_digest p;
               rr_advisory_lock := RECONCILIATION_ADVISORY_LOCK; rr_hooks := reports;
               rr_durably_complete := true |}) x
  end.
