(* ===== verification/ReconciliationSafety.v ===== *)
(** * Markers under failure

    Whatever the driver does, a marker table stays valid, a completed marker
    never changes and attempts never go back; and a run that returns leaves a
    durable completed marker for every hook of the plan.  The proofs use
    triples over the state-and-exception monad of Reconciliation.v. *)

From S2P Require Import Prelude Regex Errors Domain Sha256 Json Pg Revision Reconciliation ReconciliationStore.

(** ** Triples *)

Section Triples.
Context {X : Type}.
Implicit Types (P E : X -> Prop).

(** From a state of [P], the computation returns with [Q] or raises with [E]. *)
Definition triple {A} P (m : ST X A) (Q : A -> X -> Prop) E : Prop :=
  forall x, P x -> match m x with (Ok a, x') => Q a x' | (Err _, x') => E x' end.

Lemma triple_ret {A} (a : A) P E : triple P (mret a) (fun b x => b = a /\ P x) E.
Proof. intros x Hx. done. Qed.

Lemma triple_pure {A} (r : result A) P : triple P (pure r) (fun a x => r = Ok a /\ P x) P.
Proof. intros x Hx. unfold pure. by destruct r. Qed.

Lemma triple_pure_weak {A} (r : result A) P E :
  (forall x, P x -> E x) -> triple P (pure r) (fun a x => r = Ok a /\ P x) E.
Proof. intros HE x Hx. unfold pure. destruct r; [done|by apply HE]. Qed.

Lemma triple_bind {A B} (m : ST X A) (f : A -> ST X B) P Q R E :
  triple P m Q E -> (forall a, triple (Q a) (f a) R E) -> triple P (m ≫= f) R E.
Proof.
  intros Hm Hf x Hx. specialize (Hm x Hx). unfold mbind, ST_mbind.
  destruct (m x) as [[a|e] x']; [by apply Hf|done].
Qed.

Lemma triple_catch {A} (m : ST X A) h P Q E F :
  triple P m Q E -> (forall e, triple E (h e) Q F) -> triple P (catch m h) Q F.
Proof.
  intros Hm Hh x Hx. specialize (Hm x Hx). unfold catch. destruct (m x) as [[a|e] x']; [done|by apply Hh].
Qed.

Lemma triple_conseq {A} (m : ST X A) P P' (Q Q' : A -> X -> Prop) E E' :
  triple P' m Q' E' -> (forall x, P x -> P' x) -> (forall a x, Q' a x -> Q a x) -> (forall x, E' x -> E x) ->
  triple P m Q E.
Proof.
  intros Hm HP HQ HE x Hx. specialize (Hm x (HP x Hx)). destruct (m x) as [[a|e] x']; auto.
Qed.

Lemma triple_suppress {A} (m : ST X A) P Q E :
  triple P m (fun _ => Q) Q -> triple P (suppress m) (fun _ => Q) E.
Proof. intros Hm x Hx. specialize (Hm x Hx). unfold suppress. by destruct (m x) as [[a|e] x']. Qed.

Lemma triple_assume {A} (phi : Prop) P (m : ST X A) Q E :
  (phi -> triple P m Q E) -> triple (fun x => phi /\ P x) m Q E.
Proof. intros Hm x [Hphi Hx]. by apply Hm. Qed.

(** An exception raised after [P]. *)
Lemma triple_raise {A} e P Q : triple P (pure (Err e) : ST X A) Q P.
Proof. intros x Hx. done. Qed.
End Triples.

(** ** Valid tables *)

(** A marker the session can read. *)
Record marker_wf (m : ReconciliationMarker) : Prop := {
  wf_revision : fullmatch revision_re (mk_schema_revision m) = true;
  wf_digest : is_sha256 (mk_plan_digest m) = true;
  wf_hook : is_safe_identity (hi_name (mk_hook m)) && is_safe_identity (hi_version (mk_hook m)) = true;
  wf_attempt : 1 <= mk_attempt m <= int4_max;
  wf_shape : match mk_state m with
             | MK_STARTED => mk_result_digest m = None /\ mk_error_type m = None
             | MK_COMPLETED => (exists d, mk_result_digest m = Some d /\ is_sha256 d = true) /\ mk_error_type m = None
             | MK_FAILED => mk_result_digest m = None
                            /\ exists e, mk_error_type m = Some e /\ is_safe_identity e = true
             end
}.

Lemma marker_wf_row m : marker_wf m -> _marker_from_row m = Ok m.
Proof.
  intros [Hr Hd Hh Ha Hs]. unfold _marker_from_row, validate_revision, _validate_digest, _validate_hook.
  rewrite Hr, Hd, Hh. cbn. rewrite (proj2 (Z.ltb_ge _ _)) by lia. cbn.
  destruct (mk_state m); cbn.
  - destruct Hs as [-> ->]. done.
  - destruct Hs as [(d & -> & Hd') ->]. cbn. by rewrite Hd'.
  - destruct Hs as [-> (e & -> & He)]. cbn. by rewrite He.
Qed.

Lemma marker_wf_shape m : marker_wf m -> check_marker_shape m = Ok ().
Proof.
  intros [_ _ _ _ Hs]. unfold check_marker_shape. destruct (mk_state m).
  - destruct Hs as [-> ->]. done.
  - destruct Hs as [(d & -> & Hd') ->]. cbn. by rewrite Hd'.
  - destruct Hs as [-> (e & -> & He)]. cbn. by rewrite He.
Qed.

Lemma marker_wf_check m : marker_wf m -> check_marker_row m = Ok ().
Proof.
  intros [_ Hd _ Ha Hs]. unfold check_marker_row, is_int4, marker_shape.
  rewrite (proj2 (Z.leb_le (- int4_max - 1) (mk_attempt m))) by (unfold int4_max in *; lia).
  rewrite (proj2 (Z.leb_le (mk_attempt m) int4_max)) by lia. cbn. rewrite Hd, (proj2 (Z.ltb_lt _ _)) by lia. cbn.
  destruct (mk_state m).
  - destruct Hs as [-> ->]. done.
  - destruct Hs as [(d & -> & Hd') ->]. cbn. by rewrite Hd'.
  - destruct Hs as [-> (e & -> & He)]. done.
Qed.

(** How a marker may change: it keeps its key, attempts grow, and a completed
    one stays. *)
Definition marker_evolves (a b : ReconciliationMarker) : Prop :=
  marker_key b = marker_key a /\ mk_attempt a <= mk_attempt b /\ (mk_state a = MK_COMPLETED -> b = a).
#[global] Instance marker_evolves_preorder : PreOrder marker_evolves.
Proof.
  split; [intros a; by split_and!|]. intros a b c (Hk & Ha & Hs) (Hk' & Ha' & Hs'). split_and!; [congruence|lia|].
  intros Hc. specialize (Hs Hc). subst b. auto.
Qed.

Abbreviation evolves := (table_evolves marker_evolves).

Record table_inv (t : marker_table) : Prop := {
  ti_wf : Forall marker_wf t;
  ti_unique : unique_ok marker_conflict t = true
}.

Lemma marker_conflict_sym a b : marker_conflict a b = marker_conflict b a.
Proof. unfold marker_conflict. apply bool_decide_ext. split; congruence. Qed.

Lemma has_key_conflict key a b : has_key key a = true -> has_key key b = true -> marker_conflict a b = true.
Proof. unfold has_key, marker_conflict. rewrite !bool_decide_eq_true. congruence. Qed.

(** A completed marker stays. *)
Lemma completed_stays t t' m : evolves t t' -> m ∈ t -> mk_state m = MK_COMPLETED -> m ∈ t'.
Proof.
  intros He Hm Hs. destruct (table_evolves_elem _ _ _ _ He Hm) as (m' & Hm' & _ & _ & Hsame).
  by rewrite <- (Hsame Hs).
Qed.

(** ** Statements *)

Section StatementSafety.
Context `{PgEnv}.
Implicit Types (t : marker_table) (key : pystr * pystr * ReconciliationHookIdentity).

Definition key_ok key : Prop :=
  let '(revision, digest, hook) := key in
  fullmatch revision_re revision = true /\ is_sha256 digest = true
  /\ is_safe_identity (hi_name hook) && is_safe_identity (hi_version hook) = true.

(** A statement on the marker of a key: the table stays valid and evolves, and
    a returned row is stored, with the key. *)
Definition statement_safe key (st : marker_table -> result (option ReconciliationMarker * marker_table)) : Prop :=
  forall t a t', table_inv t -> st t = Ok (a, t') ->
    table_inv t' /\ evolves t t' /\ (forall m, a = Some m -> m ∈ t' /\ marker_key m = key).

Lemma update_statement_safe key p f :
  (forall m, p m = true -> has_key key m = true /\ mk_state m <> MK_COMPLETED) ->
  (forall m, marker_key (f m) = marker_key m /\ mk_attempt m <= mk_attempt (f m)) ->
  (forall m, marker_wf m -> p m = true -> check_marker_row (f m) = Ok () -> marker_wf (f m)) ->
  statement_safe key (fun t => '(rows, t') ← update_returning check_marker_row marker_conflict p f t;
                               Ok (head rows, t')).
Proof.
  intros Hp Hf Hwf t a t' [Ht Hu] Hst. inv_ok. destruct v as [rows t1]. injection Hst as <- <-.
  pose proof (update_returning_Ok _ _ _ _ _ _ _ Hs) as (_ & -> & Ht1 & _).
  destruct (update_rows marker_wf marker_evolves check_marker_row marker_conflict p f t _ _ Hs Ht)
    as (Ht' & Hu' & He).
  - intros m Hm Hpm. apply Hwf; [by eapply Forall_forall in Ht|done].
  - intros m _ Hpm. destruct (Hf m), (Hp m Hpm). split_and!; [done|done|]. done.
  - split_and!; [done|done|]. intros m Hm.
    assert (m ∈ f <$> rows_where p t) as Hin.
    { destruct (f <$> rows_where p t); [done|]. injection Hm as ->. by left. }
    apply list_elem_of_fmap in Hin as (m0 & -> & [Hm0 Hp0]%elem_of_rows_where).
    split; [|rewrite (proj1 (Hf m0)); apply (bool_decide_eq_true_1 _); by apply Hp].
    rewrite Ht1. apply elem_of_update_where. exists m0. by rewrite Hp0.
Qed.

Lemma get_safe_statement key : statement_safe key (_GET_MARKER_SQL key).
Proof.
  intros t a t' Hi [= <- <-]. split_and!; [done|reflexivity|].
  intros m [Hm Hk]%select_one_Some. split; [done|]. by apply (bool_decide_eq_true_1 _).
Qed.

Lemma check_attempt m : check_marker_row m = Ok () -> mk_attempt m <= int4_max.
Proof.
  unfold check_marker_row, is_int4. intros Hc. inv_ok. apply andb_true_iff in Hs as [_ Hs]. lia.
Qed.

Lemma started_safe key : key_ok key -> statement_safe key (_MARK_STARTED_SQL key).
Proof.
  destruct key as [[revision digest] hook]. intros (Hr & Hd & Hh) t a t' Hi Hst.
  unfold _MARK_STARTED_SQL in Hst. inv_ok. destruct (exists_row _ t) eqn:He.
  - eapply (update_statement_safe (revision, digest, hook)); [| | |exact Hi|exact Hst].
    + intros m [Hk Hre]%andb_true_iff. split; [done|]. intros Hc. unfold restartable in Hre. rewrite Hc in Hre.
      by destruct (mk_result_digest m).
    + intros m. split; [done|]. cbn. lia.
    + intros m [? ? ? ? ?] _ Hc%check_attempt. split; cbn in *; try done. lia.
  - injection Hst as <- <-. destruct Hi as [Ht Hu].
    assert (marker_wf (fresh_marker (revision, digest, hook))) as Hfresh by (split; cbn; try done; unfold int4_max; lia).
    split_and!.
    + split; [apply Forall_app; by repeat constructor|]. apply unique_ok_snoc; [apply marker_conflict_sym|].
      split; [done|]. rewrite exists_row_false in *. intros m Hm. specialize (He m Hm).
      unfold has_key in He. unfold marker_conflict. apply bool_decide_eq_false in He.
      apply bool_decide_eq_false. intros Hc. by apply He.
    + apply table_evolves_snoc, _.
    + intros m [= <-]. split; [|done]. apply elem_of_app. right. by left.
Qed.

Lemma in_progress_spec key m : in_progress key m = true -> has_key key m = true /\ mk_state m <> MK_COMPLETED.
Proof.
  unfold in_progress. intros Hp. split_bools. split; [done|]. congruence.
Qed.

Lemma completed_safe key digest : is_sha256 digest = true -> statement_safe key (_MARK_COMPLETED_SQL digest key).
Proof.
  intros Hd. apply update_statement_safe; [apply in_progress_spec|intros m; split; [done|cbn; lia]|].
  intros m [? ? ? ? ?] _ _. split; cbn; try done. split; [by exists digest|done].
Qed.

Lemma failed_safe key error : is_safe_identity error = true -> statement_safe key (_MARK_FAILED_SQL error key).
Proof.
  intros He. apply update_statement_safe; [apply in_progress_spec|intros m; split; [done|cbn; lia]|].
  intros m [? ? ? ? ?] _ _. split; cbn; try done. split; [done|by exists error].
Qed.
End StatementSafety.

(** ** The session *)

Section SessionSafety.
Context `{PgEnv} (revision digest : pystr) (Hrev : fullmatch revision_re revision = true)
  (Hdig : is_sha256 digest = true).
Implicit Types (old : marker_table) (s : session_state) (hook : ReconciliationHookIdentity).

Abbreviation committed s := (mc_committed (ps_conn s)).
Abbreviation current s := (mc_current (ps_conn s)).

(** The committed table is valid and evolved from [old]; what is written and not
    yet committed is a valid evolution of it. *)
Definition Mid old s : Prop :=
  table_inv (committed s) /\ evolves old (committed s)
  /\ table_inv (current s) /\ evolves (committed s) (current s)
  /\ ps_schema_revision s = revision /\ ps_plan_digest s = digest.
(** Nothing is pending. *)
Definition Clean old s : Prop :=
  Mid old s /\ (mc_closed (ps_conn s) = true \/ (current s = committed s /\ mc_aborted (ps_conn s) = false)).
(** Nothing is pending while the session is active. *)
Definition Idle old s : Prop := Mid old s /\ (ps_active s = true -> Clean old s).

Lemma clean_idle old s : Clean old s -> Idle old s.
Proof. intros Hc. split; [apply Hc|done]. Qed.

(** A call of the driver, by what it does to the tables. *)
Lemma driver_triple {A} (f : marker_conn -> result A * marker_conn) P Q (E : session_state -> Prop) :
  (forall s, P s -> E s) ->
  (forall s faults, P s -> P (PgSession (MarkerConn (committed s) (current s) (mc_aborted (ps_conn s))
                                           (mc_closed (ps_conn s)) faults)
                                (ps_schema_revision s) (ps_plan_digest s) (ps_active s))) ->
  (forall s, P s -> mc_closed (ps_conn s) = false ->
     let '(r, c) := f (ps_conn s) in
     let s' := PgSession c (ps_schema_revision s) (ps_plan_digest s) (ps_active s) in
     E s' /\ match r with Ok a => Q a s' | Err _ => True end) ->
  triple P (on_conn (driver f)) Q E.
Proof.
  intros HE Hfaults Hf s Hs. unfold on_conn, driver.
  destruct s as [[comm cur ab cl faults] rev dig act]. cbn [ps_conn ps_schema_revision ps_plan_digest ps_active mc_closed mc_faults mc_committed mc_current mc_aborted].
  destruct cl; [by apply HE|]. destruct faults as [|fl faults].
  - specialize (Hf _ Hs eq_refl). cbn in Hf. destruct (f _) as [[a|e] c]; apply Hf.
  - pose proof (Hfaults _ faults Hs) as Hs'. cbn in Hs'. destruct fl as [[e done]|].
    + destruct done; [|by apply HE]. specialize (Hf _ Hs' eq_refl). cbn in Hf.
      destruct (f _) as [r c]. apply Hf.
    + specialize (Hf _ Hs' eq_refl). cbn in Hf. destruct (f _) as [[a|e] c]; apply Hf.
Qed.

Lemma mid_faults old s faults : Mid old s ->
  Mid old (PgSession (MarkerConn (committed s) (current s) (mc_aborted (ps_conn s)) (mc_closed (ps_conn s)) faults)
            (ps_schema_revision s) (ps_plan_digest s) (ps_active s)).
Proof. done. Qed.

(** A call without effect keeps any condition that does not look at the faults. *)
Lemma idle_call P (E : session_state -> Prop) :
  (forall s, P s -> E s) ->
  (forall s faults, P s -> P (PgSession (MarkerConn (committed s) (current s) (mc_aborted (ps_conn s))
                                           (mc_closed (ps_conn s)) faults)
                                (ps_schema_revision s) (ps_plan_digest s) (ps_active s))) ->
  triple P (on_conn driver_idle) (fun _ => P) E.
Proof.
  intros HE Hf. apply driver_triple; [done|done|]. intros s Hs Hc. cbn.
  destruct s as [[]]. cbn in *. split; [by apply HE|done].
Qed.

Lemma rollback_call old (F : marker_table -> Prop) :
  triple (fun s => Mid old s /\ F (committed s)) (on_conn driver_rollback)
    (fun _ s => Clean old s /\ F (committed s)) (Mid old).
Proof.
  apply driver_triple; [by intros s [? _]|done|]. intros s [(Hi & He & _ & _ & Hr & Hd) HF] Hc. cbn.
  assert (Mid old (PgSession (MarkerConn (committed s) (committed s) false (mc_closed (ps_conn s)) (mc_faults (ps_conn s)))
             (ps_schema_revision s) (ps_plan_digest s) (ps_active s))) as Hm by (split_and!; cbn; try done; reflexivity).
  split; [done|]. split; [|done]. split; [done|]. cbn. by right.
Qed.

Lemma commit_call old P :
  (forall s, P s -> Mid old s /\ mc_aborted (ps_conn s) = false) ->
  (forall s faults, P s -> P (PgSession (MarkerConn (committed s) (current s) (mc_aborted (ps_conn s))
                                           (mc_closed (ps_conn s)) faults)
                                (ps_schema_revision s) (ps_plan_digest s) (ps_active s))) ->
  triple P (on_conn driver_commit)
    (fun _ s' => Clean old s' /\ exists s, P s /\ committed s' = current s) (Mid old).
Proof.
  intros HP Hfaults. apply driver_triple; [intros s Hs; by apply HP|done|].
  intros s Hs Hc. destruct (HP s Hs) as [(Hi & He & Hi' & He' & Hr & Hd) Hab]. cbn. rewrite Hab.
  assert (Mid old (PgSession (MarkerConn (current s) (current s) false (mc_closed (ps_conn s)) (mc_faults (ps_conn s)))
             (ps_schema_revision s) (ps_plan_digest s) (ps_active s))) as Hm.
  { split_and!; cbn; try done. by etransitivity. }
  split; [done|]. split; [|by exists s]. split; [done|]. cbn. by right.
Qed.

Lemma discard_triple old (E : session_state -> Prop) : triple (Mid old) _discard (fun _ => Idle old) E.
Proof.
  unfold _discard. eapply (triple_bind _ _ _ (fun _ s => Mid old s /\ ps_active s = false)).
  - intros s Hs. done.
  - intros ?. apply triple_suppress. eapply triple_conseq;
      [apply (driver_triple _ (fun s => Mid old s /\ ps_active s = false)
                (fun _ s => Mid old s /\ ps_active s = false) (fun s => Mid old s /\ ps_active s = false))
      |done|intros _ s [Hm Ha]; split; [done|congruence]|intros s [Hm Ha]; split; [done|congruence]].
    + done.
    + done.
    + intros s [(Hi & He & _ & _ & Hr & Hd) Ha] Hc. cbn.
      split; (split; [split_and!; cbn; try done; reflexivity|done]).
Qed.

Lemma rollback_after_failure_triple old (E : session_state -> Prop) :
  triple (Mid old) _rollback_after_failure (fun _ => Idle old) E.
Proof.
  eapply triple_catch; [|intros; apply discard_triple].
  eapply triple_conseq; [apply (rollback_call old (fun _ => True))|done|intros ? ? [? _]; by apply clean_idle|done].
Qed.

(** The rows a statement read or wrote, before anything else happened. *)
Definition Ran old (st : marker_table -> result (option ReconciliationMarker * marker_table)) a s : Prop :=
  Mid old s /\ mc_aborted (ps_conn s) = false /\ st (committed s) = Ok (a, current s).

Lemma execute_call old key st :
  statement_safe key st ->
  triple (fun s => Clean old s) (on_conn (driver_execute st)) (Ran old st) (Mid old).
Proof.
  intros Hst. apply driver_triple; [intros s Hs; apply Hs|done|].
  intros s [(Hi & He & Hi' & He' & Hr & Hd) [Hc|[Hcur Hab]]] Hopen; [congruence|]. rewrite Hab.
  destruct (st (current s)) as [[a t]|e] eqn:Hrun.
  - rewrite Hcur in Hrun. destruct (Hst _ _ _ Hi Hrun) as (Ht & Het & _).
    assert (Mid old (PgSession (MarkerConn (committed s) t false (mc_closed (ps_conn s)) (mc_faults (ps_conn s)))
               (ps_schema_revision s) (ps_plan_digest s) (ps_active s))) as Hm by (split_and!; cbn; done).
    split; [done|]. split_and!; done.
  - split; [|done]. by split_and!.
Qed.

Lemma read_row_triple old key st action :
  statement_safe key st ->
  triple (Idle old) (_read_row st action) (Ran old st) (Idle old).
Proof.
  intros Hst. unfold _read_row.
  assert (forall A exc (Q : A -> session_state -> Prop),
    triple (Mid old) (_rollback_after_failure ;;
      pure (Err (if passes exc then exc
                 else Exn ReconciliationError ("reconciliation marker " ++ action ++ " failed")))) Q (Idle old)) as Hfail.
  { intros A exc Q. eapply triple_bind; [apply rollback_after_failure_triple|]. intros ?. apply triple_raise. }
  eapply (triple_bind _ _ _ (fun _ => Clean old)).
  { intros s Hs. unfold _require_active. destruct (ps_active s) eqn:Ha; [|done]. by apply Hs. }
  intros ?. eapply (triple_bind _ _ _ (fun _ => Clean old)).
  - eapply (triple_catch _ _ _ _ (Mid old)).
    + apply idle_call; [intros s Hs; apply Hs|done].
    + intros exc. eapply triple_bind; [apply (Hfail _ exc (fun _ _ => False))|]. intros ? ? [].
  - intros ?. eapply (triple_catch _ _ _ _ (Mid old)).
    + eapply triple_bind; [by eapply execute_call|]. intros row.
      eapply triple_bind; [apply (idle_call (Ran old st row)); [intros s Hs; apply Hs|done]|]. intros ?.
      eapply triple_bind; [apply (idle_call (Ran old st row)); [intros s Hs; apply Hs|done]|]. intros ?.
      intros s Hs. done.
    + intros exc. eapply triple_bind; [|intros ?; apply Hfail].
      apply triple_suppress. eapply triple_conseq; [apply (idle_call (Mid old) (Mid old)); [done|apply mid_faults]|done..].
Qed.

(** *** The methods *)

Lemma parameters_triple old hook :
  triple (Idle old) (_parameters hook)
    (fun key s => key = (revision, digest, hook) /\ key_ok key /\ Idle old s) (Idle old).
Proof.
  intros s Hs. unfold _parameters, _validate_hook. destruct (is_safe_identity _ && _) eqn:Hh; [|done]. cbn.
  pose proof Hs as [(_ & _ & _ & _ & -> & ->) _]. split_and!; done.
Qed.

Lemma returned_row old key st r s :
  statement_safe key st -> Ran old st (Some r) s ->
  r ∈ current s /\ marker_key r = key /\ marker_wf r.
Proof.
  intros Hst [(Hi & _) [_ Hrun]]. destruct (Hst _ _ _ Hi Hrun) as ([Hwf _] & _ & Hr).
  destruct (Hr r eq_refl) as [Hin Hk]. split_and!; [done|done|]. by eapply Forall_forall in Hwf.
Qed.

Lemma commit_marker_triple old key st hook state action :
  statement_safe key st ->
  triple (Idle old) (_commit_marker st hook state action)
    (fun m s => Idle old s /\ m ∈ committed s /\ marker_key m = key /\ mk_state m = state) (Idle old).
Proof.
  intros Hst. unfold _commit_marker. eapply triple_bind; [by eapply read_row_triple|]. intros [r|].
  - eapply (triple_bind _ _ _ (fun m s => m = r /\ mk_state r = state /\ Ran old st (Some r) s)).
    + eapply (triple_catch _ _ _ _ (Mid old)).
      * intros s Hs. destruct (returned_row _ _ _ _ _ Hst Hs) as (_ & _ & Hwf).
        rewrite (marker_wf_row r Hwf). cbn. destruct (same_identity hook r s); [|apply Hs]. cbn.
        case_bool_decide; [|apply Hs]. done.
      * intros exc. eapply triple_bind; [apply rollback_after_failure_triple|]. intros ?. apply triple_raise.
    + intros m. eapply (triple_bind _ _ _ (fun _ s => Idle old s /\ m ∈ committed s /\ marker_key m = key /\ mk_state m = state)).
      * eapply (triple_catch _ _ _ _ (Mid old)).
        -- eapply triple_conseq;
             [apply (commit_call old (fun s => m = r /\ mk_state r = state /\ Ran old st (Some r) s))|done| |done].
           ++ intros s (_ & _ & Hm & Hab & _). done.
           ++ done.
           ++ intros ? s' (Hc & s & (-> & Hstate & Hran) & Hcomm).
              destruct (returned_row _ _ _ _ _ Hst Hran) as (Hin & Hk & _).
              split; [by apply clean_idle|]. rewrite Hcomm. done.
        -- intros exc. eapply triple_bind; [apply rollback_after_failure_triple|]. intros ?.
           eapply triple_bind; [eapply triple_conseq; [apply (discard_triple old (Idle old))|by intros s [? _]|done|done]|].
           intros ?. apply triple_raise.
      * intros ? s Hs. done.
  - eapply triple_bind; [|intros ?; apply triple_raise].
    eapply triple_conseq; [apply (rollback_after_failure_triple old (Idle old))|intros s Hs; apply Hs|done|done].
Qed.

Lemma get_marker_triple old hook :
  triple (Idle old) (pg_get_marker hook)
    (fun r s => Idle old s /\ forall m, r = Some m -> m ∈ committed s /\ marker_key m = (revision, digest, hook))
    (Idle old).
Proof.
  unfold pg_get_marker. eapply triple_bind; [apply parameters_triple|]. intros key.
  apply triple_assume. intros ->. apply triple_assume. intros Hk.
  set (key := (revision, digest, hook)). pose proof (get_safe_statement key) as Hst.
  eapply triple_bind; [by eapply read_row_triple|]. intros row.
  eapply (triple_bind _ _ _ (fun m s => m = row /\ Ran old (_GET_MARKER_SQL key) row s)).
  - eapply (triple_catch _ _ _ _ (Mid old)).
    + intros s Hs. destruct row as [r|]; [|done].
      destruct (returned_row _ _ _ _ _ Hst Hs) as (_ & _ & Hwf). rewrite (marker_wf_row r Hwf). cbn.
      destruct (same_identity hook r s); [|apply Hs]. done.
    + intros exc. eapply triple_bind; [apply rollback_after_failure_triple|]. intros ?. apply triple_raise.
  - intros m. eapply (triple_bind _ _ _ (fun _ s => Idle old s /\
        forall r, m = Some r -> r ∈ committed s /\ marker_key r = key)).
    + eapply (triple_catch _ _ _ _ (Mid old)).
      * eapply triple_conseq;
          [apply (rollback_call old (fun t => forall r, m = Some r -> r ∈ t /\ marker_key r = key))| | |done].
        -- intros s (-> & Hs). split; [apply Hs|]. intros r ->.
           destruct (returned_row _ _ _ _ _ Hst Hs) as (Hin & Hkey & _). split; [|done].
           destruct Hs as (_ & _ & Hrun). injection Hrun as _ Hcur. by rewrite Hcur.
        -- intros ? s [Hc Hr]. split; [by apply clean_idle|done].
      * intros exc. eapply triple_bind; [apply (discard_triple old (Idle old))|]. intros ?. apply triple_raise.
    + intros ? s Hs. done.
Qed.

Lemma mark_started_triple old hook :
  triple (Idle old) (pg_mark_started hook) (fun _ => Idle old) (Idle old).
Proof.
  unfold pg_mark_started. eapply triple_bind; [apply parameters_triple|]. intros key s (-> & Hk & Hs).
  pose proof (commit_marker_triple old _ _ hook MK_STARTED "start" (started_safe _ Hk) s Hs) as Hm.
  destruct (_commit_marker _ _ _ _ s) as [[m|e] s']; [apply Hm|done].
Qed.

Lemma mark_completed_triple old hook d :
  triple (Idle old) (pg_mark_completed hook d)
    (fun m s => Idle old s /\ m ∈ committed s /\ marker_key m = (revision, digest, hook) /\ mk_state m = MK_COMPLETED)
    (Idle old).
Proof.
  unfold pg_mark_completed. eapply triple_bind; [apply triple_pure|]. intros d'. apply triple_assume. intros Hd.
  unfold _validate_digest in Hd. inv_ok. subst d'.
  eapply triple_bind; [apply parameters_triple|]. intros key s (-> & Hk & Hs0).
  by apply (commit_marker_triple old _ _ hook MK_COMPLETED "completion" (completed_safe _ _ Hs)).
Qed.

Lemma mark_failed_triple old hook error :
  triple (Idle old) (pg_mark_failed hook error) (fun _ => Idle old) (Idle old).
Proof.
  unfold pg_mark_failed. eapply triple_bind; [apply triple_pure|]. intros []. apply triple_assume. intros He.
  inv_ok. eapply triple_bind; [apply parameters_triple|]. intros key s (-> & Hk & Hs0).
  pose proof (commit_marker_triple old _ _ hook MK_FAILED "failure" (failed_safe (revision, digest, hook) error He) s Hs0) as Hm.
  destruct (_commit_marker _ _ _ _ s) as [[m|e] s']; [apply Hm|done].
Qed.
End SessionSafety.

(** ** The run *)

Section RunSafety.
Context `{PgEnv} {W : Type} (p : ReconciliationPlan)
  (Hrev : fullmatch revision_re (rp_schema_revision p) = true) (Hdig : is_sha256 (rp_plan_digest p) = true).
Implicit Types (x : session_state * W) (identity : ReconciliationHookIdentity) (rep : ReconciliationHookReport).

Abbreviation IdleS := (Idle (rp_schema_revision p) (rp_plan_digest p)).
Definition IdleW (old : marker_table) x : Prop := IdleS old (fst x).
Definition table x : marker_table := mc_committed (ps_conn (fst x)).

(** The table holds the completed marker a report tells of. *)
Definition durable identity rep (t : marker_table) : Prop :=
  hr_hook rep = identity
  /\ exists m, m ∈ t /\ marker_key m = (rp_schema_revision p, rp_plan_digest p, identity)
       /\ mk_state m = MK_COMPLETED /\ mk_attempt m = hr_attempt rep
       /\ mk_result_digest m = Some (hr_result_digest rep).

Lemma durable_stays identity rep t t' : evolves t t' -> durable identity rep t -> durable identity rep t'.
Proof.
  intros He (Hh & m & Hm & Hk & Hs & Hrest). split; [done|]. exists m.
  split_and!; [by eapply completed_stays|done|done|apply Hrest|apply Hrest].
Qed.

Lemma on_session_triple {A} (m : ST session_state A) old Q :
  triple (IdleS old) m Q (IdleS old) ->
  triple (IdleW old) (on_session m) (fun a x => Q a (fst x)) (IdleW old).
Proof.
  intros Hm [s w] Hx. specialize (Hm s Hx). unfold on_session. by destruct (m s) as [[a|e] s'].
Qed.

Lemma on_world_triple {A} (m : ST W A) (P : session_state * W -> Prop) :
  (forall s w w', P (s, w) -> P (s, w')) -> triple P (on_world m) (fun _ => P) P.
Proof.
  intros HP [s w] Hx. unfold on_world. destruct (m w) as [[a|e] w']; eauto.
Qed.

Lemma pure_triple {A} (r : result A) old : triple (IdleW old) (pure r) (fun a x => r = Ok a /\ IdleW old x) (IdleW old).
Proof. apply triple_pure. Qed.

Lemma validate_marker_Ok identity state m m' : _validate_marker p identity state m = Ok m' -> m' = m.
Proof. unfold _validate_marker. intros Hv. by inv_ok. Qed.

Lemma durable_failure_triple old identity error :
  triple (IdleW old) (_durable_failure p identity error) (fun _ => IdleW old) (IdleW old).
Proof.
  unfold _durable_failure. eapply triple_bind; [apply on_session_triple, mark_failed_triple; done|]. intros m.
  eapply triple_conseq; [apply (triple_pure _ (IdleW old))|done|by intros ? ? [_ ?]|done].
Qed.

Lemma fail_hook_triple old identity started exc Q :
  triple (IdleW old) (fail_hook p identity started exc) Q (IdleW old).
Proof.
  unfold fail_hook. eapply (triple_bind _ _ _ (fun _ => IdleW old)); [|intros ?; apply triple_raise].
  eapply (triple_catch _ _ _ _ (IdleW old)); [|intros ?; apply triple_raise].
  eapply triple_bind; [apply durable_failure_triple|]. intros m.
  eapply triple_conseq; [apply (triple_pure _ (IdleW old))|done|by intros ? ? [_ ?]|done].
Qed.

Lemma interrupt_hook_triple old identity exc Q :
  triple (IdleW old) (interrupt_hook p identity exc) Q (IdleW old).
Proof.
  unfold interrupt_hook. eapply (triple_bind _ _ _ (fun _ => IdleW old)); [|intros ?; apply triple_raise].
  eapply (triple_catch _ _ _ _ (IdleW old)).
  - eapply triple_bind; [apply durable_failure_triple|]. intros ? x Hx. done.
  - intros e. destruct (is_exception e); [by intros x Hx|apply triple_raise].
Qed.

Lemma attempt_hook_triple old identity (hook : ProductReconciler W) started expected :
  triple (IdleW old) (attempt_hook p identity hook started expected)
    (fun m x => IdleW old x /\ m ∈ table x
       /\ marker_key m = (rp_schema_revision p, rp_plan_digest p, identity) /\ mk_state m = MK_COMPLETED
       /\ mk_attempt m = mk_attempt started) (IdleW old).
Proof.
  unfold attempt_hook. eapply triple_bind; [apply triple_pure|]. intros ?. apply triple_assume. intros _.
  eapply triple_bind; [by apply (on_world_triple _ (IdleW old))|]. intros result.
  eapply triple_bind; [apply triple_pure|]. intros d. apply triple_assume. intros _.
  eapply triple_bind; [apply on_session_triple, mark_completed_triple; done|]. intros m.
  eapply triple_bind; [apply triple_pure_weak; by intros x [? _]|].
  intros m'. apply triple_assume. intros ->%validate_marker_Ok.
  eapply triple_bind; [apply triple_pure_weak; by intros x [? _]|].
  intros ?. apply triple_assume. intros Hatt%raise_unless_Ok%Z.eqb_eq.
  eapply triple_bind; [apply triple_pure_weak; by intros x [? _]|].
  intros ?. apply triple_assume. intros _ x (Hx & Hin & Hk & Hs). by split_and!.
Qed.

Lemma run_hook_triple old identity (hook : ProductReconciler W) :
  triple (IdleW old) (run_hook p identity hook)
    (fun rep x => IdleW old x /\ durable identity rep (table x)) (IdleW old).
Proof.
  unfold run_hook. eapply triple_bind; [apply on_session_triple, get_marker_triple; done|]. intros found.
  set (Found := fun x : session_state * W => IdleS old (fst x)
    /\ forall m, found = Some m -> m ∈ mc_committed (ps_conn (fst x))
         /\ marker_key m = (rp_schema_revision p, rp_plan_digest p, identity)).
  eapply (triple_bind _ _ _ (fun e x => e = found /\ Found x)).
  { eapply triple_conseq; [apply (triple_pure _ Found)|done| |by intros x [? _]].
    intros e x [He Hx]. split; [|done]. destruct found as [m|]; [|congruence]. inv_ok.
    apply validate_marker_Ok in Hs. congruence. }
  intros existing. apply triple_assume. intros ->.
  assert (triple Found
    (marker ← on_session (mark_started identity);
     started ← pure (_validate_marker p identity (Some MK_STARTED) marker);
     completed ← catch (attempt_hook p identity hook started
                          (match found with None => 1 | Some m => mk_attempt m + 1 end))
       (fun exc => if is_exception exc then fail_hook p identity started exc else interrupt_hook p identity exc);
     pure (match mk_result_digest completed with
           | None => raise AssertionError_ "assertion failed"
           | Some d => Ok {| hr_hook := identity; hr_attempt := mk_attempt started; hr_already_complete := false;
                             hr_result_digest := d |}
           end)) (fun rep x => IdleW old x /\ durable identity rep (table x)) (IdleW old)) as Hrun.
  { eapply triple_bind; [eapply triple_conseq;
      [apply on_session_triple, (mark_started_triple _ _ Hrev Hdig old identity)|by intros x [? _]|done|done]|].
    intros marker. eapply triple_bind; [apply triple_pure|]. intros started. apply triple_assume. intros _.
    eapply triple_bind; [eapply triple_catch; [apply attempt_hook_triple|]|].
    - intros e. destruct (is_exception e); [apply fail_hook_triple|apply interrupt_hook_triple].
    - intros m x (Hx & Hin & Hk & Hs & Ha). unfold pure.
      destruct (mk_result_digest m) as [d|] eqn:Hd; [|done]. split; [done|]. split; [done|].
      exists m. by split_and!. }
  destruct found as [[? ? ? [] att d e]|]; try exact Hrun.
  intros x [Hx Hm]. destruct (Hm _ eq_refl) as [Hin Hk]. cbn [mk_result_digest]. unfold pure.
  destruct d as [d|]; [|done]. split; [done|]. split; [done|]. eexists. by split_and!.
Qed.

Lemma idle_trans old x x' : IdleW old x -> IdleW (table x) x' -> IdleW old x' /\ evolves (table x) (table x').
Proof.
  intros Hx Hx'. destruct Hx as [(_ & He & _) _]. unfold table in *.
  assert (forall s, Mid (rp_schema_revision p) (rp_plan_digest p) (mc_committed (ps_conn x.1)) s ->
    Mid (rp_schema_revision p) (rp_plan_digest p) old s) as Hmid.
  { intros s (Hi & He' & Hrest). split_and!; try apply Hrest; [done|]. by etransitivity. }
  destruct Hx' as [Hm Hc]. split; [|apply Hm]. split; [by apply Hmid|].
  intros Ha. destruct (Hc Ha) as [Hm' Hcl]. split; [by apply Hmid|done].
Qed.

Lemma idle_self old x : IdleW old x -> IdleW (table x) x.
Proof.
  intros [(Hi & He & Hrest) Hc]. unfold table.
  assert (Mid (rp_schema_revision p) (rp_plan_digest p) (mc_committed (ps_conn x.1)) x.1) as Hm
    by (split_and!; try apply Hrest; [done|reflexivity]).
  split; [done|]. intros Ha. split; [done|]. apply Hc. done.
Qed.

Lemma run_hooks_triple hooks : forall old,
  triple (IdleW old) (run_hooks p hooks)
    (fun reps x => IdleW old x /\ Forall2 (fun h rep => durable (snd h) rep (table x)) hooks reps) (IdleW old).
Proof.
  induction hooks as [|[hook identity] hooks IH]; intros old x Hx; [by split|].
  cbn [run_hooks]. unfold mbind, ST_mbind. pose proof (run_hook_triple old identity hook x Hx) as H1.
  destruct (run_hook p identity hook x) as [[rep|e] x1]; [|done]. destruct H1 as [Hx1 Hd1].
  pose proof (IH (table x1) x1 (idle_self _ _ Hx1)) as H2.
  destruct (run_hooks p hooks x1) as [[reps|e] x2]; cbn.
  - destruct H2 as [Hx2 Hd2]. destruct (idle_trans _ _ _ Hx1 Hx2) as [Hx2' He]. split; [done|].
    constructor; [by eapply durable_stays|done].
  - by destruct (idle_trans _ _ _ Hx1 H2).
Qed.

Lemma confirm_hooks_triple old identities :
  triple (IdleW old) (confirm_hooks p identities) (fun _ => IdleW old) (IdleW old).
Proof.
  induction identities as [|identity identities IH]; [by intros x Hx|].
  cbn [confirm_hooks]. eapply triple_bind; [|intros ?; exact IH].
  unfold confirm_hook. eapply triple_bind; [apply on_session_triple, get_marker_triple; done|]. intros m.
  eapply (triple_catch _ _ _ _ (IdleW old)).
  - eapply triple_conseq; [apply (triple_pure _ (IdleW old))|by intros x [? _]|by intros ? ? [_ ?]|done].
  - intros ?. eapply (triple_bind _ _ _ (fun _ => IdleW old)); [|intros ?; apply triple_raise].
    eapply (triple_catch _ _ _ _ (IdleW old)); [|intros ?; apply triple_raise].
    eapply triple_bind; [apply durable_failure_triple|]. by intros ? x Hx.
Qed.

Lemma run_plan_triple old hooks :
  triple (IdleW old) (run_plan p hooks)
    (fun reps x => IdleW old x
       /\ Forall2 (fun h rep => durable (snd h) rep (table x)) (zip hooks (rp_hooks p)) reps) (IdleW old).
Proof.
  intros x Hx. unfold run_plan, mbind, ST_mbind. pose proof (run_hooks_triple (zip hooks (rp_hooks p)) old x Hx) as H1.
  destruct (run_hooks p _ x) as [[reps|e] x1]; [|done]. destruct H1 as [Hx1 Hd].
  pose proof (confirm_hooks_triple (table x1) (rp_hooks p) x1 (idle_self _ _ Hx1)) as H2.
  destruct (confirm_hooks p _ x1) as [[[]|e] x2]; destruct (idle_trans _ _ _ Hx1 H2) as [Hx2 He]; [|done].
  split; [done|]. eapply Forall2_impl; [exact Hd|]. intros h rep. by apply durable_stays.
Qed.
End RunSafety.

(** ** The coordinator *)

Section CoordinatorSafety.
Context `{PgEnv}.

Definition MidC (old : marker_table) (c : marker_conn) : Prop :=
  table_inv (mc_committed c) /\ evolves old (mc_committed c)
  /\ table_inv (mc_current c) /\ evolves (mc_committed c) (mc_current c).

Lemma driver_mid {A} (f : marker_conn -> result A * marker_conn) old (Q : marker_conn -> Prop) :
  (forall c, MidC old c -> MidC old (snd (f c)) /\ Q (snd (f c))) ->
  triple (MidC old) (driver f) (fun _ c => MidC old c /\ Q c) (MidC old).
Proof.
  intros Hf c Hc. unfold driver. destruct (mc_closed c); [done|].
  destruct (mc_faults c) as [|fl faults].
  - specialize (Hf c Hc). destruct (f c) as [[a|e] c']; apply Hf.
  - set (c' := MarkerConn _ _ _ _ faults). assert (MidC old c') as Hc' by done. specialize (Hf c' Hc').
    destruct fl as [[e []]|]; [apply Hf|done|]. destruct (f c') as [[a|e] c'']; apply Hf.
Qed.

Lemma lock_call_triple old message :
  triple (MidC old) (lock_call message)
    (fun _ c => MidC old c /\ mc_current c = mc_committed c /\ mc_aborted c = false) (MidC old).
Proof.
  assert (forall old, triple (MidC old) driver_idle (fun _ => MidC old) (MidC old)) as Hidle.
  { intros o. eapply triple_conseq; [apply (driver_mid _ o (fun _ => True)); by intros c Hc|done|by intros ? ? [? _]|done]. }
  assert (forall A exc (Q : A -> marker_conn -> Prop),
    triple (MidC old) (suppress driver_rollback ;; suppress driver_close ;;
      pure (Err (if passes exc then exc else Exn ReconciliationError message))) Q (MidC old)) as Hfail.
  { intros A exc Q. eapply (triple_bind _ _ _ (fun _ => MidC old)).
    - apply triple_suppress. eapply triple_conseq; [apply (driver_mid _ old (fun _ => True))|done|by intros ? ? [? _]|done].
      intros c (Hi & He & _ & _). split; [|done]. split_and!; cbn; try done; reflexivity.
    - intros ?. eapply (triple_bind _ _ _ (fun _ => MidC old)); [|intros ?; apply triple_raise].
      apply triple_suppress. eapply triple_conseq; [apply (driver_mid _ old (fun _ => True))|done|by intros ? ? [? _]|done].
      intros c (Hi & He & _ & _). split; [|done]. split_and!; cbn; try done; reflexivity. }
  unfold lock_call. eapply (triple_bind _ _ _ (fun _ => MidC old)).
  { eapply triple_catch; [apply Hidle|intros e; apply Hfail]. }
  intros ?. eapply (triple_bind _ _ _ (fun _ => MidC old)).
  { eapply triple_catch.
    - eapply triple_bind; [apply Hidle|]. intros ?. eapply triple_bind; [apply Hidle|]. intros ?. apply Hidle.
    - intros e. eapply (triple_bind _ _ _ (fun _ => MidC old)); [|intros ?; apply Hfail].
      apply triple_suppress, Hidle. }
  intros ?. eapply triple_catch; [|intros e; apply Hfail].
  apply (driver_mid _ old (fun c => mc_current c = mc_committed c /\ mc_aborted c = false)).
  intros c (Hi & He & Hi' & He'). cbn. destruct (mc_aborted c).
  all: split; [split_and!; cbn; try done; by etransitivity|done].
Qed.

Lemma identities_length {W} names (hooks : list (ProductReconciler W)) ids :
  hook_identities names hooks = Ok ids -> length ids = length hooks.
Proof.
  revert names ids. induction hooks as [|h hooks IH]; intros names ids Hi; cbn in Hi; inv_ok; [by subst|].
  subst. cbn. f_equal. by eapply IH.
Qed.

Lemma plan_valid ids schema_revision p :
  plan ids schema_revision = Ok p ->
  fullmatch revision_re (rp_schema_revision p) = true /\ is_sha256 (rp_plan_digest p) = true /\ rp_hooks p = ids.
Proof.
  unfold plan, validate_revision, _canonical_plan_digest. intros Hp. inv_ok. subst. cbn.
  split_and!; [done|apply sha256_hex_format|done].
Qed.

(** C12: reconciliation is durable under any failure of the driver.  Whatever
    calls fail, with or without having taken effect, and whatever the hooks do,
    the committed markers stay valid, a completed marker never changes and
    attempts never go back; and if the run returns, every hook of the plan has
    a committed completed marker with the attempt and the digest of its
    report. *)
Theorem reconciliation_durable {W : Type} (hooks : list (ProductReconciler W)) schema_revision c w
    (Hinv : table_inv (mc_committed c)) (Hidle : mc_current c = mc_committed c) :
  let '(r, (c', _)) := reconcile hooks schema_revision (c, w) in
  table_inv (mc_committed c') /\ evolves (mc_committed c) (mc_committed c')
  /\ forall report, r = Ok report -> exists ids p,
       runner_identities hooks = Ok ids /\ plan ids schema_revision = Ok p
       /\ rr_schema_revision report = rp_schema_revision p /\ rr_plan_digest report = rp_plan_digest p
       /\ rr_durably_complete report = true
       /\ Forall2 (fun identity hook_report => durable p identity hook_report (mc_committed c')) ids (rr_hooks report).
Proof.
  unfold reconcile. destruct (runner_identities hooks) as [ids|e] eqn:Hids; cbn; [|by split_and!].
  destruct (plan ids schema_revision) as [p|e] eqn:Hp; cbn; [|by split_and!].
  destruct (plan_valid _ _ _ Hp) as (Hrev & Hdig & Hhooks).
  unfold mbind, ST_mbind, coordinate. rewrite bool_decide_eq_true_2 by done. cbn.
  unfold validate_revision, _validate_digest. rewrite Hrev, Hdig. cbn.
  assert (MidC (mc_committed c) c) as Hc by (unfold MidC; rewrite Hidle; by split_and!).
  pose proof (lock_call_triple (mc_committed c) "reconciliation advisory lock acquisition failed" c Hc) as Hacq.
  fold _acquire in Hacq. destruct (_acquire c) as [[[]|e] c1]; [|destruct Hacq as (? & ? & _); by split_and!].
  destruct Hacq as [(Hi1 & He1 & _ & _) [Hcur1 Hab1]].
  set (s1 := PgSession c1 _ _ true).
  assert (IdleW p (mc_committed c) (s1, w)) as Hs1.
  { assert (Mid (rp_schema_revision p) (rp_plan_digest p) (mc_committed c) s1) as Hm
      by (unfold Mid; cbn; rewrite Hcur1; by split_and!).
    split; [done|]. intros _. split; [done|]. cbn. by right. }
  pose proof (run_plan_triple p Hrev Hdig (mc_committed c) hooks (s1, w) Hs1) as Hrun.
  destruct (run_plan p hooks (s1, w)) as [[reps|e] [s2 w2]].
  - destruct Hrun as [Hs2 Hd]. destruct (idle_self p _ _ Hs2) as [(Hi2 & _ & Hi2' & He2' & _) _].
    destruct Hs2 as [(_ & He2 & _) _]. cbn in *.
    pose proof (lock_call_triple (mc_committed (ps_conn s2)) "reconciliation advisory lock release failed" (ps_conn s2)) as Hrel.
    fold _release in Hrel. specialize (Hrel ltac:(by split_and!)).
    destruct (_release (ps_conn s2)) as [[[]|e] c3]; [destruct Hrel as [Hrel _]|];
      destruct Hrel as (Hi3 & He3 & _ & _); (split; [done|]; split; [by etransitivity|]).
    + intros report [= <-]. exists ids, p. cbn. split_and!; try done.
      rewrite Hhooks in Hd.
      assert (ids = snd <$> zip hooks ids) as Heq.
      { rewrite snd_zip; [done|]. unfold runner_identities in Hids. inv_ok.
        rewrite (identities_length _ _ _ Hids). done. }
      rewrite Heq at 1. apply Forall2_fmap_l. eapply Forall2_impl; [exact Hd|].
      intros h rep Hdur. by eapply durable_stays.
    + done.
  - destruct (idle_self p _ _ Hrun) as [(Hi2 & _ & Hi2' & He2' & _) _]. destruct Hrun as [(_ & He2 & _) _]. cbn in *.
    pose proof (lock_call_triple (mc_committed (ps_conn s2)) "reconciliation advisory lock release failed" (ps_conn s2)) as Hrel.
    fold _release in Hrel. specialize (Hrel ltac:(by split_and!)).
    destruct (_release (ps_conn s2)) as [[[]|e'] c3]; [destruct Hrel as [Hrel _]|];
      destruct Hrel as (Hi3 & He3 & _ & _); (split; [done|]; split; [by etransitivity|done]).
Qed.
End CoordinatorSafety.
