(* ===== verification/ReconciliationSpec.v ===== *)
(** * What a reconciliation run does

    On a live connection the run is the function [spec_hooks] of the marker
    table and the world: completed hooks are skipped, each other hook runs once
    and its outcome is recorded, and the first failure ends the run. *)

From S2P Require Import Prelude Regex Errors Domain Sha256 Json Pg Revision Reconciliation ReconciliationStore ReconciliationSafety.

(** ** Markers by hook *)

Section Spec.
Context {W : Type} (p : ReconciliationPlan).
Implicit Types (t : marker_table) (identity : ReconciliationHookIdentity).

Definition key_of identity : pystr * pystr * ReconciliationHookIdentity :=
  (rp_schema_revision p, rp_plan_digest p, identity).
Definition marker_of t identity : option ReconciliationMarker := head (rows_where (has_key (key_of identity)) t).

(** The table with the marker of a hook replaced or added. *)
Definition put (m : ReconciliationMarker) t : marker_table :=
  if exists_row (has_key (marker_key m)) t then update_where (has_key (marker_key m)) (fun _ => m) t
  else t ++ [m].

Definition marker identity (state : ReconciliationMarkerState) (attempt : Z) (digest error : option pystr)
  : ReconciliationMarker :=
  {| mk_schema_revision := rp_schema_revision p; mk_plan_digest := rp_plan_digest p; mk_hook := identity;
     mk_state := state; mk_attempt := attempt; mk_result_digest := digest; mk_error_type := error |}.

(** A hook raised [exc] in its attempt [n]: what the run raises, and the table. *)
Definition spec_failure identity (n : Z) (exc : exn) t : exn * marker_table :=
  if is_exception exc then
    if is_safe_identity (type_name (exn_cls exc)) then
      (Exn ReconciliationError "required reconciliation hook failed",
       put (marker identity MK_FAILED n None (Some (type_name (exn_cls exc)))) t)
    else
      (Exn ReconciliationError "reconciliation failure marker could not be persisted",
       put (marker identity MK_STARTED n None None) t)
  else (exc, put (marker identity MK_FAILED n None (Some (u "Interrupted"))) t).

Definition spec_hook identity (hook : ProductReconciler W) t (w : W)
  : result ReconciliationHookReport * (marker_table * W) :=
  let report n already d := {| hr_hook := identity; hr_attempt := n; hr_already_complete := already;
                               hr_result_digest := d |} in
  match marker_of t identity with
  | Some {| mk_state := MK_COMPLETED; mk_attempt := n; mk_result_digest := d |} =>
      (Ok (report n true (default [] d)), (t, w))
  | existing =>
      let n := match existing with None => 1 | Some m => mk_attempt m + 1 end in
      if int4_max <? n then (raise ReconciliationError "reconciliation marker start failed", (t, w))
      else
        let '(r, w') := hk_reconcile hook w in
        match (result ← r; _result_digest result) with
        | Ok d => (Ok (report n false d), (put (marker identity MK_COMPLETED n (Some d) None) t, w'))
        | Err exc => let '(e, t') := spec_failure identity n exc t in (Err e, (t', w'))
        end
  end.

Fixpoint spec_hooks (hooks : list (ProductReconciler W * ReconciliationHookIdentity)) t (w : W)
  : result (list ReconciliationHookReport) * (marker_table * W) :=
  match hooks with
  | [] => (Ok [], (t, w))
  | (hook, identity) :: hooks' =>
      match spec_hook identity hook t w with
      | (Err e, x) => (Err e, x)
      | (Ok report, (t1, w1)) =>
          match spec_hooks hooks' t1 w1 with
          | (Err e, x) => (Err e, x)
          | (Ok reports, x) => (Ok (report :: reports), x)
          end
      end
  end.

(** *** Reading and writing one marker *)

Lemma marker_of_elem t identity m :
  table_inv t -> marker_of t identity = Some m <-> m ∈ t /\ marker_key m = key_of identity.
Proof.
  intros [_ Hu]. unfold marker_of. split.
  - intros Hh. assert (m ∈ rows_where (has_key (key_of identity)) t) as Hin.
    { destruct (rows_where _ t); [done|]. injection Hh as ->. by left. }
    apply elem_of_rows_where in Hin as [? Hk]. split; [done|]. by apply (bool_decide_eq_true_1 _).
  - intros [Hm Hk]. assert (has_key (key_of identity) m = true) as Hk' by (by apply bool_decide_eq_true).
    rewrite (rows_where_unique marker_conflict _ t m Hu); [done| |done|done].
    intros a b. apply has_key_conflict.
Qed.

Lemma marker_of_None t identity :
  marker_of t identity = None <-> exists_row (has_key (key_of identity)) t = false.
Proof. unfold marker_of. rewrite head_None, rows_where_nil, exists_row_false. done. Qed.

Lemma exists_marker t identity m :
  marker_of t identity = Some m -> exists_row (has_key (key_of identity)) t = true.
Proof.
  intros Hm. destruct (exists_row _ t) eqn:He; [done|]. apply marker_of_None in He. congruence.
Qed.

(** Replacing the one row of a key, however the statement selects it. *)
Lemma put_update t identity m (q : ReconciliationMarker -> bool) f :
  table_inv t -> marker_of t identity = Some m -> (forall x, q x = true -> has_key (key_of identity) x = true) ->
  q m = true -> marker_key (f m) = marker_key m ->
  update_where q f t = put (f m) t /\ rows_where q t = [m].
Proof.
  intros Hi Hm Hq Hqm Hf. pose proof (proj1 (marker_of_elem t identity m Hi) Hm) as [Hin Hk].
  assert (forall x, x ∈ t -> has_key (key_of identity) x = true -> x = m) as Hone.
  { intros x Hx Hkx. apply (unique_ok_elem marker_conflict t); [apply marker_conflict_sym|apply Hi|done|done|].
    apply (has_key_conflict (key_of identity)); [done|by apply bool_decide_eq_true]. }
  split.
  - unfold put. rewrite Hf, Hk. rewrite (exists_marker t identity m Hm).
    apply update_where_ext.
    + intros x Hx. destruct (has_key (key_of identity) x) eqn:Hkx.
      * by rewrite (Hone x Hx Hkx).
      * destruct (q x) eqn:Hqx; [|done]. apply Hq in Hqx. congruence.
    + intros x Hx Hkx. by rewrite (Hone x Hx Hkx).
  - apply (rows_where_unique marker_conflict); [apply Hi| |done|done].
    intros a b Ha Hb. apply (has_key_conflict (key_of identity)); by apply Hq.
Qed.

Lemma put_inv m t : marker_wf m -> table_inv t -> table_inv (put m t).
Proof.
  intros Hm [Ht Hu]. unfold put. destruct (exists_row _ t) eqn:He.
  - split; [by apply Forall_update_where|]. unfold update_where. rewrite unique_ok_fmap; [done|].
    intros a b. unfold marker_conflict. apply bool_decide_ext.
    unfold has_key. repeat case_bool_decide; split; congruence.
  - split; [apply Forall_app; split; [done|by constructor]|]. apply unique_ok_snoc; [apply marker_conflict_sym|].
    split; [done|]. rewrite exists_row_false in *. intros x Hx. rewrite marker_conflict_sym. by apply He.
Qed.

Lemma put_elem m t x : x ∈ put m t <-> x = m \/ (x ∈ t /\ marker_key x <> marker_key m).
Proof.
  unfold put. destruct (exists_row _ t) eqn:He.
  - rewrite elem_of_update_where. apply exists_row_true in He as (y & Hy & Hk). split.
    + intros (z & Hz & ->). destruct (has_key _ z) eqn:Hkz; [by left|]. right. split; [done|].
      by apply bool_decide_eq_false in Hkz.
    + intros [->|[Hx Hne]].
      * exists y. by rewrite Hk.
      * exists x. split; [done|]. unfold has_key. by rewrite bool_decide_eq_false_2.
  - rewrite elem_of_app, list_elem_of_singleton. rewrite exists_row_false in He. split.
    + intros [Hx| ->]; [right|by left]. split; [done|]. specialize (He x Hx). by apply bool_decide_eq_false in He.
    + intros [->|[Hx _]]; auto.
Qed.

Lemma marker_of_put m t identity :
  marker_wf m -> table_inv t ->
  marker_of (put m t) identity = if decide (marker_key m = key_of identity) then Some m else marker_of t identity.
Proof.
  intros Hm Hi. pose proof (put_inv m t Hm Hi) as Hi'. apply option_eq. intros x.
  rewrite (marker_of_elem _ _ _ Hi'), put_elem. case_decide as Hk.
  - split; [|intros [= <-]; auto]. intros [[->|[? ?]] ?]; congruence.
  - rewrite (marker_of_elem _ _ _ Hi). split; [intros [[->|[? ?]] ?]; [congruence|done]|].
    intros [Hx Hkx]. split; [|done]. right. split; [done|congruence].
Qed.

Lemma put_put m m' t : marker_key m = marker_key m' -> put m (put m' t) = put m t.
Proof.
  intros Hk. unfold put at 1. rewrite (proj2 (exists_row_true _ _)).
  2: { exists m'. split; [apply put_elem; by left|]. apply bool_decide_eq_true. done. }
  unfold put. rewrite Hk. destruct (exists_row (has_key (marker_key m')) t) eqn:He.
  - unfold update_where. rewrite <- list_fmap_compose. apply list_fmap_ext. intros i x _. cbn.
    destruct (has_key (marker_key m') x) eqn:Hx; [|by rewrite Hx].
    unfold has_key. by rewrite bool_decide_eq_true_2.
  - unfold update_where. rewrite fmap_app. cbn. unfold has_key at 2. rewrite bool_decide_eq_true_2 by done. f_equal.
    fold (update_where (has_key (marker_key m')) (fun _ => m) t). apply update_where_none. by apply exists_row_false.
Qed.
End Spec.

(** ** The session on a live connection *)

Section Live.
Context `{PgEnv} (p : ReconciliationPlan)
  (Hrev : fullmatch revision_re (rp_schema_revision p) = true) (Hdig : is_sha256 (rp_plan_digest p) = true).
Implicit Types (t : marker_table) (identity : ReconciliationHookIdentity).

Definition live (t : marker_table) : marker_conn := MarkerConn t t false false [].
Definition sess t : session_state := PgSession (live t) (rp_schema_revision p) (rp_plan_digest p) true.
Definition safe_hook identity : Prop :=
  is_safe_identity (hi_name identity) && is_safe_identity (hi_version identity) = true.

Lemma marker_wf_intro identity state n digest error :
  safe_hook identity -> 1 <= n <= int4_max ->
  match state with
  | MK_STARTED => digest = None /\ error = None
  | MK_COMPLETED => (exists d, digest = Some d /\ is_sha256 d = true) /\ error = None
  | MK_FAILED => digest = None /\ exists e, error = Some e /\ is_safe_identity e = true
  end -> marker_wf (marker p identity state n digest error).
Proof. intros Hh Hn Hs. by split. Qed.

Lemma commit_marker_live st t t' identity state action m :
  st t = Ok (Some m, t') -> marker_wf m -> marker_key m = key_of p identity -> mk_state m = state ->
  _commit_marker st identity state action (sess t) = (Ok m, sess t').
Proof.
  intros Hst Hwf Hk Hs. unfold _commit_marker, _read_row, mbind, ST_mbind, catch, _require_active, on_conn,
    driver_idle, driver_execute, driver. cbn. rewrite Hst. cbn. rewrite (marker_wf_row m Hwf). cbn.
  unfold key_of, marker_key in Hk. injection Hk as Hk1 Hk2 Hk3.
  unfold same_identity. cbn. rewrite !bool_decide_eq_true_2 by congruence. cbn. done.
Qed.

Lemma commit_marker_refused st t identity state action e :
  st t = Err e -> passes e = false ->
  exists msg, _commit_marker st identity state action (sess t) = (raise ReconciliationError msg, sess t)
    /\ msg = ("reconciliation marker " ++ action ++ " failed")%string.
Proof.
  intros Hst Hp. eexists. split; [|reflexivity].
  unfold _commit_marker, _read_row, mbind, ST_mbind, catch, _require_active, on_conn, driver_idle,
    driver_execute, driver, suppress, _rollback_after_failure. cbn. rewrite Hst. cbn.
  unfold catch, on_conn, driver_rollback, driver. cbn. by rewrite Hp.
Qed.

Lemma parameters_live identity t :
  safe_hook identity -> _parameters identity (sess t) = (Ok (key_of p identity), sess t).
Proof. intros Hh. unfold _parameters, _validate_hook. by rewrite Hh. Qed.

Lemma get_live identity t :
  safe_hook identity -> table_inv t -> pg_get_marker identity (sess t) = (Ok (marker_of p t identity), sess t).
Proof.
  intros Hh Hi. unfold pg_get_marker, mbind, ST_mbind. rewrite (parameters_live identity t Hh).
  assert (select_one "marker_get" (has_key (key_of p identity)) t = marker_of p t identity) as Hsel.
  { destruct (marker_of p t identity) as [m|] eqn:Hm.
    - apply (marker_of_elem p t identity m Hi) in Hm as [Hin Hk].
      apply select_one_unique; [done|by apply bool_decide_eq_true|].
      intros r Hr Hkr. apply (unique_ok_elem marker_conflict t); [apply marker_conflict_sym|apply Hi|done|done|].
      apply (has_key_conflict (key_of p identity)); [done|by apply bool_decide_eq_true].
    - apply marker_of_None in Hm. apply select_one_None. by apply exists_row_false. }
  unfold _read_row, mbind, ST_mbind, catch, _require_active, on_conn, driver_idle, driver_execute, driver. cbn -[select_one].
  rewrite Hsel. destruct (marker_of p t identity) as [m|] eqn:Hm; cbn; [|done].
  apply (marker_of_elem p t identity m Hi) in Hm as [Hin Hk].
  assert (marker_wf m) as Hwf by (destruct Hi as [Hwf _]; by eapply Forall_forall in Hwf).
  rewrite (marker_wf_row m Hwf). cbn. unfold key_of, marker_key in Hk. injection Hk as Hk1 Hk2 Hk3.
  unfold same_identity. cbn. by rewrite !bool_decide_eq_true_2 by congruence.
Qed.

(** A statement that rewrites the marker of the hook. *)
Lemma update_live t identity m (q : ReconciliationMarker -> bool) f :
  table_inv t -> marker_of p t identity = Some m -> (forall x, q x = true -> has_key (key_of p identity) x = true) ->
  q m = true -> marker_key (f m) = marker_key m -> marker_wf (f m) ->
  ('(rows, t') ← update_returning check_marker_row marker_conflict q f t; Ok (head rows, t'))
  = Ok (Some (f m), put (f m) t).
Proof.
  intros Hi Hm Hq Hqm Hf Hwf. destruct (put_update p t identity m q f Hi Hm Hq Hqm Hf) as [Hput Hrows].
  unfold update_returning. rewrite Hput, Hrows. cbn. rewrite (marker_wf_check _ Hwf). cbn.
  by rewrite (ti_unique _ (put_inv _ t Hwf Hi)).
Qed.

Lemma started_live identity t n :
  safe_hook identity -> table_inv t ->
  match marker_of p t identity with
  | None => n = 1
  | Some m => mk_state m <> MK_COMPLETED /\ n = mk_attempt m + 1
  end -> n <= int4_max ->
  let m := marker p identity MK_STARTED n None None in
  pg_mark_started identity (sess t) = (Ok m, sess (put m t)).
Proof.
  intros Hh Hi Hn Hmax m. unfold pg_mark_started, mbind, ST_mbind. rewrite (parameters_live identity t Hh).
  assert (marker_wf (fresh_marker (key_of p identity))) as Hfresh
    by (apply (marker_wf_intro identity MK_STARTED 1 None None); [done|unfold int4_max; lia|done]).
  apply commit_marker_live.
  - unfold _MARK_STARTED_SQL. rewrite (marker_wf_check _ Hfresh). cbn [outcome_mbind mbind outcome_bind].
    destruct (marker_of p t identity) as [m0|] eqn:Hm0.
    + destruct Hn as [Hs ->]. rewrite (exists_marker p t identity m0 Hm0).
      pose proof (proj1 (marker_of_elem p t identity m0 Hi) Hm0) as [Hin Hk].
      assert (marker_wf m0) as Hwf by (destruct Hi as [Hwf _]; by eapply Forall_forall in Hwf).
      assert (set_marker MK_STARTED (mk_attempt m0 + 1) None None m0 = m) as Hset.
      { unfold key_of, marker_key in Hk. injection Hk as Hk1 Hk2 Hk3. unfold set_marker, m, marker. by rewrite Hk1, Hk2, Hk3. }
      rewrite <- Hset. apply (update_live t identity m0 _ (fun m => set_marker MK_STARTED (mk_attempt m + 1) None None m)); [done|done|by intros x [? _]%andb_true_iff| |done|].
      * apply andb_true_iff. split; [by apply bool_decide_eq_true|]. unfold restartable.
        pose proof (wf_shape _ Hwf) as Hshape. destruct (mk_state m0) eqn:Hst; [|done|].
        -- destruct Hshape as [-> ->]. done.
        -- destruct Hshape as [-> (e & -> & He)]. cbn. by rewrite He.
      * rewrite Hset. apply marker_wf_intro; [done| |done]. pose proof (wf_attempt _ Hwf). lia.
    + subst n. apply marker_of_None in Hm0. rewrite Hm0. unfold put.
      change (marker_key m) with (key_of p identity). by rewrite Hm0.
  - apply marker_wf_intro; [done| |done]. destruct (marker_of p t identity) as [m0|] eqn:Hm0; [|lia].
    pose proof (proj1 (marker_of_elem p t identity m0 Hi) Hm0) as [Hin _].
    assert (marker_wf m0) as Hwf by (destruct Hi as [Hwf _]; by eapply Forall_forall in Hwf).
    pose proof (wf_attempt _ Hwf). lia.
  - done.
  - done.
Qed.

(** The attempts of a hook are used up. *)
Lemma started_exhausted identity t m :
  safe_hook identity -> table_inv t -> marker_of p t identity = Some m -> mk_state m <> MK_COMPLETED ->
  int4_max < mk_attempt m + 1 ->
  pg_mark_started identity (sess t) = (raise ReconciliationError "reconciliation marker start failed", sess t).
Proof.
  intros Hh Hi Hm Hs Hmax. unfold pg_mark_started, mbind, ST_mbind. rewrite (parameters_live identity t Hh).
  assert (marker_wf (fresh_marker (key_of p identity))) as Hfresh
    by (apply (marker_wf_intro identity MK_STARTED 1 None None); [done|unfold int4_max; lia|done]).
  destruct (commit_marker_refused (_MARK_STARTED_SQL (key_of p identity)) t identity MK_STARTED "start"
              (Exn PgNumericOutOfRange "integer out of range")) as (msg & Hc & ->); [|done|exact Hc].
  unfold _MARK_STARTED_SQL. rewrite (marker_wf_check _ Hfresh). cbn [outcome_mbind mbind outcome_bind].
  rewrite (exists_marker p t identity m Hm).
  pose proof (proj1 (marker_of_elem p t identity m Hi) Hm) as [Hin Hk].
  assert (marker_wf m) as Hwf by (destruct Hi as [Hwf _]; by eapply Forall_forall in Hwf).
  destruct (put_update p t identity m (fun m => has_key (key_of p identity) m && restartable m)
              (fun m => set_marker MK_STARTED (mk_attempt m + 1) None None m)) as [_ Hrows];
    [done|done|by intros x [? _]%andb_true_iff| |done|].
  { apply andb_true_iff. split; [by apply bool_decide_eq_true|]. unfold restartable.
    pose proof (wf_shape _ Hwf) as Hshape. destruct (mk_state m) eqn:Hst; [|done|].
    - destruct Hshape as [-> ->]. done.
    - destruct Hshape as [-> (e & -> & He)]. cbn. by rewrite He. }
  unfold update_returning. rewrite Hrows. cbn. unfold check_marker_row, is_int4. cbn.
  rewrite (proj2 (Z.leb_gt (mk_attempt m + 1) int4_max)) by lia. by rewrite andb_false_r.
Qed.

Lemma in_progress_live t identity n :
  marker_of p t identity = Some (marker p identity MK_STARTED n None None) ->
  in_progress (key_of p identity) (marker p identity MK_STARTED n None None) = true.
Proof. intros _. unfold in_progress, has_key. rewrite bool_decide_eq_true_2 by done. done. Qed.

Lemma in_progress_key identity x : in_progress (key_of p identity) x = true -> has_key (key_of p identity) x = true.
Proof. intros Hp. by apply in_progress_spec in Hp as [? _]. Qed.

Lemma completed_live identity t n d :
  safe_hook identity -> table_inv t -> is_sha256 d = true -> 1 <= n <= int4_max ->
  marker_of p t identity = Some (marker p identity MK_STARTED n None None) ->
  let m := marker p identity MK_COMPLETED n (Some d) None in
  pg_mark_completed identity d (sess t) = (Ok m, sess (put m t)).
Proof.
  intros Hh Hi Hd Hn Hm m. assert (_validate_digest d "reconciliation result digest" = Ok d) as Hv
    by (unfold _validate_digest; by rewrite Hd).
  unfold pg_mark_completed, mbind, ST_mbind, pure. rewrite Hv, (parameters_live identity t Hh).
  assert (marker_wf m) as Hwf by (apply marker_wf_intro; [done|done|by split; [exists d|]]).
  apply commit_marker_live; [|done|done|done].
  by apply (update_live t identity (marker p identity MK_STARTED n None None) _
              (fun m => set_marker MK_COMPLETED (mk_attempt m) (Some d) None m));
    [|done|apply in_progress_key|eapply in_progress_live|done|].
Qed.

Lemma failed_live identity t n error :
  safe_hook identity -> table_inv t -> is_safe_identity error = true -> 1 <= n <= int4_max ->
  marker_of p t identity = Some (marker p identity MK_STARTED n None None) ->
  let m := marker p identity MK_FAILED n None (Some error) in
  pg_mark_failed identity error (sess t) = (Ok m, sess (put m t)).
Proof.
  intros Hh Hi He Hn Hm m. unfold pg_mark_failed, mbind, ST_mbind, pure. rewrite He. cbn [raise_unless].
  rewrite (parameters_live identity t Hh).
  assert (marker_wf m) as Hwf by (apply marker_wf_intro; [done|done|by split; [|exists error]]).
  apply commit_marker_live; [|done|done|done].
  by apply (update_live t identity (marker p identity MK_STARTED n None None) _
              (fun m => set_marker MK_FAILED (mk_attempt m) None (Some error) m));
    [|done|apply in_progress_key|eapply in_progress_live|done|].
Qed.

Lemma failed_unsafe identity t error :
  is_safe_identity error = false ->
  pg_mark_failed identity error (sess t)
  = (raise ReconciliationError "reconciliation error type must be a bounded identifier", sess t).
Proof. intros He. unfold pg_mark_failed, mbind, ST_mbind, pure. by rewrite He. Qed.
End Live.

(** ** The run on a live connection *)

Section LiveRun.
Context `{PgEnv} {W : Type} (p : ReconciliationPlan)
  (Hrev : fullmatch revision_re (rp_schema_revision p) = true) (Hdig : is_sha256 (rp_plan_digest p) = true).
Implicit Types (t : marker_table) (identity : ReconciliationHookIdentity) (w : W).
Abbreviation sess := (sess p).

Lemma validate_live identity state m :
  marker_wf m -> marker_key m = key_of p identity ->
  match state with Some s => mk_state m = s | None => True end ->
  _validate_marker p identity state m = Ok m.
Proof.
  intros Hwf Hk Hs. unfold _validate_marker. unfold key_of, marker_key in Hk. injection Hk as Hk1 Hk2 Hk3.
  rewrite !bool_decide_eq_false_2 by auto. cbn.
  rewrite (proj2 (Z.ltb_ge _ _)) by (pose proof (wf_attempt _ Hwf); lia). cbn.
  assert ((match state with Some s => bool_decide (mk_state m <> s) | None => false end) = false) as ->.
  { destruct state; [|done]. apply bool_decide_eq_false_2. auto. }
  cbn. by rewrite (marker_wf_shape m Hwf).
Qed.

Lemma result_digest_sha r d : _result_digest r = Ok d -> is_sha256 d = true.
Proof.
  unfold _result_digest. intros Hd.
  destruct r as [|items|]; [change (string_items []) with (Some (@nil (pystr * json))) in Hd| |discriminate Hd].
  2: destruct (string_items items) as [l|]; [|discriminate Hd].
  all: apply bind_Ok_inv in Hd as (v & _ & Hd); injection Hd as <-; apply sha256_hex_format.
Qed.

(** The handlers, from the started marker. *)
Lemma fail_live identity t n exc w :
  safe_hook identity -> table_inv t -> 1 <= n <= int4_max ->
  let started := marker p identity MK_STARTED n None None in
  (if is_exception exc then fail_hook p identity started exc else interrupt_hook p identity exc)
    (sess (put started t), w)
  = let '(e, t') := spec_failure p identity n exc t in (Err e, (sess t', w)).
Proof.
  intros Hh Hi Hn started.
  assert (marker_wf started) as Hwf by (by apply (marker_wf_intro p Hrev Hdig)).
  pose proof (put_inv started t Hwf Hi) as Hi1.
  assert (marker_of p (put started t) identity = Some started) as Hm1
    by (rewrite marker_of_put by done; by rewrite decide_True).
  assert (forall error, is_safe_identity error = true ->
    _durable_failure p identity error (sess (put started t), w)
    = (Ok (marker p identity MK_FAILED n None (Some error)), (sess (put (marker p identity MK_FAILED n None (Some error)) t), w)))
    as Hfailed.
  { intros error He. unfold _durable_failure, on_session, mbind, ST_mbind. cbn [mark_failed PostgresReconciliationSession].
    rewrite (failed_live p Hrev Hdig identity (put started t) n error) by done. unfold pure.
    rewrite validate_live; [|apply (marker_wf_intro p Hrev Hdig); [done|done|split; [done|by exists error]]|done|done].
    by rewrite put_put. }
  unfold spec_failure. destruct (is_exception exc) eqn:Hexc.
  - unfold fail_hook, catch, mbind, ST_mbind. destruct (is_safe_identity _) eqn:Hs.
    + rewrite (Hfailed _ Hs). unfold pure. cbn. by rewrite Z.eqb_refl.
    + unfold _durable_failure, on_session, mbind, ST_mbind. cbn [mark_failed PostgresReconciliationSession].
      rewrite (failed_unsafe p identity (put started t) _ Hs). done.
  - unfold interrupt_hook, catch, mbind, ST_mbind. rewrite (Hfailed (u "Interrupted")) by (vm_compute; reflexivity). done.
Qed.

Lemma attempt_live identity (hook : ProductReconciler W) t n w :
  safe_hook identity -> table_inv t -> 1 <= n <= int4_max ->
  let started := marker p identity MK_STARTED n None None in
  let '(r, w') := hk_reconcile hook w in
  attempt_hook p identity hook started n (sess (put started t), w)
  = match (result ← r; _result_digest result) with
    | Ok d => (Ok (marker p identity MK_COMPLETED n (Some d) None),
               (sess (put (marker p identity MK_COMPLETED n (Some d) None) t), w'))
    | Err exc => (Err exc, (sess (put started t), w'))
    end.
Proof.
  intros Hh Hi Hn started. destruct (hk_reconcile hook w) as [r w'] eqn:Hr.
  assert (marker_wf started) as Hwf by (by apply (marker_wf_intro p Hrev Hdig)).
  pose proof (put_inv started t Hwf Hi) as Hi1.
  assert (marker_of p (put started t) identity = Some started) as Hm1
    by (rewrite marker_of_put by done; by rewrite decide_True).
  unfold attempt_hook, mbind, ST_mbind, pure, on_world, on_session. cbn [mk_attempt started marker].
  rewrite Z.eqb_refl. cbn [raise_unless]. rewrite Hr. destruct r as [res|exc]; cbn [outcome_mbind outcome_bind]; [|done].
  destruct (_result_digest res) as [d|exc] eqn:Hd; [|done].
  pose proof (result_digest_sha res d Hd) as Hsha.
  cbn [mark_completed PostgresReconciliationSession].
  rewrite (completed_live p Hrev Hdig identity (put started t) n d) by done.
  rewrite validate_live; [|apply (marker_wf_intro p Hrev Hdig); [done|done|split; [by exists d|done]]|done|done].
  cbn [mk_attempt mk_result_digest marker]. rewrite Z.eqb_refl, bool_decide_eq_true_2 by done. cbn.
  by rewrite put_put.
Qed.

Lemma run_hook_live identity (hook : ProductReconciler W) t w :
  safe_hook identity -> table_inv t ->
  run_hook p identity hook (sess t, w)
  = let '(r, (t', w')) := spec_hook p identity hook t w in (r, (sess t', w')).
Proof.
  intros Hh Hi. unfold run_hook. unfold mbind at 1, ST_mbind at 1, on_session at 1.
  cbn [get_marker PostgresReconciliationSession]. rewrite (get_live p identity t Hh Hi).
  assert (forall m, marker_of p t identity = Some m ->
    marker_wf m /\ marker_key m = key_of p identity) as Hm.
  { intros m [Hin Hk]%marker_of_elem; [|done]. split; [|done]. destruct Hi as [Hwf _]. by eapply Forall_forall in Hwf. }
  set (n := match marker_of p t identity with None => 1 | Some m => mk_attempt m + 1 end).
  assert (forall existing, existing = marker_of p t identity ->
    match existing with Some m => mk_state m <> MK_COMPLETED | None => True end ->
    (marker ← on_session (mark_started identity);
     started ← pure (_validate_marker p identity (Some MK_STARTED) marker);
     completed ← catch (attempt_hook p identity hook started n)
       (fun exc => if is_exception exc then fail_hook p identity started exc else interrupt_hook p identity exc);
     pure (match mk_result_digest completed with
           | None => raise AssertionError_ "assertion failed"
           | Some d => Ok {| hr_hook := identity; hr_attempt := mk_attempt started; hr_already_complete := false;
                             hr_result_digest := d |}
           end)) (sess t, w)
    = if int4_max <? n then (raise ReconciliationError "reconciliation marker start failed", (sess t, w))
      else
        let '(r, w') := hk_reconcile hook w in
        match (result ← r; _result_digest result) with
        | Ok d => (Ok {| hr_hook := identity; hr_attempt := n; hr_already_complete := false; hr_result_digest := d |},
                   (sess (put (marker p identity MK_COMPLETED n (Some d) None) t), w'))
        | Err exc => let '(e, t') := spec_failure p identity n exc t in (Err e, (sess t', w'))
        end) as Hgo.
  { intros existing -> Hs. unfold mbind at 1, ST_mbind at 1, on_session at 1. cbn [mark_started PostgresReconciliationSession].
    destruct (Z.ltb_spec int4_max n) as [Hbig|Hn].
    - destruct (marker_of p t identity) as [m|] eqn:Hmk; [|unfold int4_max in *; lia].
      by rewrite (started_exhausted p Hrev Hdig identity t m).
    - assert (1 <= n) as Hn1.
      { subst n. destruct (marker_of p t identity) as [m|] eqn:Hmk; [|lia]. pose proof (wf_attempt _ (proj1 (Hm m eq_refl))). lia. }
      rewrite (started_live p Hrev Hdig identity t n) by (subst n; destruct (marker_of p t identity); done).
      unfold mbind at 1, ST_mbind at 1, pure at 1.
      rewrite validate_live; [|by apply (marker_wf_intro p Hrev Hdig)|done|done].
      unfold mbind at 1, ST_mbind at 1, catch.
      pose proof (attempt_live identity hook t n w Hh Hi (conj Hn1 Hn)) as Ha. cbn zeta in Ha.
      destruct (hk_reconcile hook w) as [r w'] eqn:Hr. rewrite Ha.
      destruct (result ← r; _result_digest result) as [d|exc]; [done|].
      rewrite (fail_live identity t n exc w' Hh Hi (conj Hn1 Hn)).
      by destruct (spec_failure p identity n exc t). }
  unfold spec_hook. fold n. destruct (marker_of p t identity) as [m|] eqn:Hmk.
  - destruct (Hm m eq_refl) as [Hwf Hk]. unfold mbind at 1, ST_mbind at 1, pure at 1.
    rewrite validate_live by done. cbn [mbind outcome_mbind outcome_bind].
    destruct m as [a1 a2 a3 [] att d e]; cbn [mk_state mk_attempt mk_result_digest] in *.
    + etrans; [exact (Hgo _ eq_refl ltac:(done))|]. subst n. cbn [mk_attempt]. destruct (int4_max <? _); [done|]. destruct (hk_reconcile hook w) as [r w'].
      destruct (result ← r; _result_digest result); [done|]. by destruct (spec_failure _ _ _ _ _).
    + destruct (wf_shape _ Hwf) as [(d' & Hd & _) _]. cbn in Hd. by rewrite Hd.
    + etrans; [exact (Hgo _ eq_refl ltac:(done))|]. subst n. cbn [mk_attempt]. destruct (int4_max <? _); [done|]. destruct (hk_reconcile hook w) as [r w'].
      destruct (result ← r; _result_digest result); [done|]. by destruct (spec_failure _ _ _ _ _).
  - unfold mbind at 1, ST_mbind at 1, pure at 1. etrans; [exact (Hgo _ eq_refl ltac:(done))|]. subst n. change (int4_max <? 1) with false. cbv iota.
    destruct (hk_reconcile hook w) as [r w'].
    destruct (result ← r; _result_digest result); [done|]. by destruct (spec_failure _ _ _ _ _).
Qed.
End LiveRun.

(** ** The whole run *)

Section Reconcile.
Context `{PgEnv} {W : Type} (p : ReconciliationPlan)
  (Hrev : fullmatch revision_re (rp_schema_revision p) = true) (Hdig : is_sha256 (rp_plan_digest p) = true).
Implicit Types (t : marker_table) (identity : ReconciliationHookIdentity) (w : W).

(** The marker that completes [identity], as [report] gives it. *)
Definition completes t identity (report : ReconciliationHookReport) : Prop :=
  hr_hook report = identity /\
  marker_of p t identity
  = Some (marker p identity MK_COMPLETED (hr_attempt report) (Some (hr_result_digest report)) None).

(** [t'] keeps the completed markers of [t]. *)
Definition keeps_completed t t' : Prop :=
  forall identity m, marker_of p t identity = Some m -> mk_state m = MK_COMPLETED -> marker_of p t' identity = Some m.

Lemma completes_keeps t t' identity report :
  keeps_completed t t' -> completes t identity report -> completes t' identity report.
Proof. intros Hk [? Hm]. split; [done|]. by apply (Hk _ _ Hm). Qed.

Lemma completed_marker t identity m :
  table_inv t -> marker_of p t identity = Some m -> mk_state m = MK_COMPLETED ->
  exists n d, m = marker p identity MK_COMPLETED n (Some d) None.
Proof.
  intros Hi [Hin Hk]%marker_of_elem Hs; [|done].
  assert (marker_wf m) as Hwf by (destruct Hi as [Hwf _]; by eapply Forall_forall in Hwf).
  pose proof (wf_shape _ Hwf) as Hshape. unfold key_of, marker_key in Hk. injection Hk as Hk1 Hk2 Hk3.
  destruct m as [a b c s n dg er]; cbn in *. subst. destruct Hshape as [(d & -> & _) ->]. by exists n, d.
Qed.

(** Writing the marker of a hook that is not completed. *)
Lemma put_step t identity state n digest error :
  table_inv t -> marker_wf (marker p identity state n digest error) ->
  match marker_of p t identity with Some m => mk_state m <> MK_COMPLETED | None => True end ->
  let t' := put (marker p identity state n digest error) t in table_inv t' /\ keeps_completed t t'.
Proof.
  intros Hi Hwf Hm t'. split; [by apply put_inv|]. intros id m Hid Hs. unfold t'.
  rewrite marker_of_put by done. case_decide as Hk; [|done].
  change (key_of p identity = key_of p id) in Hk. injection Hk as <-. rewrite Hid in Hm. by destruct Hm.
Qed.

Lemma spec_failure_step t identity n exc e t' :
  safe_hook identity -> table_inv t -> 1 <= n <= int4_max ->
  match marker_of p t identity with Some m => mk_state m <> MK_COMPLETED | None => True end ->
  spec_failure p identity n exc t = (e, t') -> table_inv t' /\ keeps_completed t t'.
Proof.
  intros Hh Hi Hn Hm. unfold spec_failure.
  destruct (is_exception exc); [destruct (is_safe_identity _) eqn:Hs|]; intros [= <- <-]; apply put_step; try done;
    apply (marker_wf_intro p Hrev Hdig); try done.
  - split; [done|by eexists].
  - split; [done|]. exists (u "Interrupted"). split; [done|]. by vm_compute.
Qed.

Lemma spec_hook_step t w identity hook r t' w' :
  safe_hook identity -> table_inv t -> spec_hook p identity hook t w = (r, (t', w')) ->
  table_inv t' /\ keeps_completed t t' /\ (forall report, r = Ok report -> completes t' identity report).
Proof.
  intros Hh Hi. unfold spec_hook.
  set (n := match marker_of p t identity with None => 1 | Some m => mk_attempt m + 1 end).
  assert (match marker_of p t identity with Some m => mk_state m <> MK_COMPLETED | None => True end ->
    (if int4_max <? n then (raise ReconciliationError "reconciliation marker start failed", (t, w))
     else
       let '(r, w') := hk_reconcile hook w in
       match (result ← r; _result_digest result) with
       | Ok d => (Ok {| hr_hook := identity; hr_attempt := n; hr_already_complete := false; hr_result_digest := d |},
                  (put (marker p identity MK_COMPLETED n (Some d) None) t, w'))
       | Err exc => let '(e, t') := spec_failure p identity n exc t in (Err e, (t', w'))
       end) = (r, (t', w')) ->
    table_inv t' /\ keeps_completed t t' /\ (forall report, r = Ok report -> completes t' identity report)) as Hgo.
  { intros Hm. destruct (Z.ltb_spec int4_max n) as [Hbig|Hmax]; [intros [= <- <- <-]; split_and!; [done|by intros ???|by intros ? [=]]|].
    assert (1 <= n) as Hn.
    { subst n. destruct (marker_of p t identity) as [m|] eqn:Hmk; [|lia].
      apply marker_of_elem in Hmk as [Hin _]; [|done]. destruct Hi as [Hwf _]. eapply Forall_forall in Hwf; [|done].
      pose proof (wf_attempt _ Hwf). lia. }
    destruct (hk_reconcile hook w) as [res w1]. destruct (result ← res; _result_digest result) as [d|exc] eqn:Hd.
    - intros [= <- <- <-]. apply bind_Ok_inv in Hd as (v & _ & Hd). apply result_digest_sha in Hd.
      assert (marker_wf (marker p identity MK_COMPLETED n (Some d) None)) as Hwf
        by (apply (marker_wf_intro p Hrev Hdig); [done|done|split; [by exists d|done]]).
      destruct (put_step t identity MK_COMPLETED n (Some d) None Hi Hwf Hm) as [Hi' Hk]. split; [done|]. split; [done|].
      intros report [= <-]. split; [done|]. cbn. rewrite marker_of_put by done. by rewrite decide_True.
    - destruct (spec_failure p identity n exc t) as [e t1] eqn:Hf. intros [= <- <- <-].
      destruct (spec_failure_step t identity n exc e t1) as [? ?]; [done..|]. split_and!; [done|done|by intros ? [=]]. }
  destruct (marker_of p t identity) as [m|] eqn:Hmk; [|exact (Hgo I)].
  destruct (decide (mk_state m = MK_COMPLETED)) as [Hs|Hs].
  - destruct (completed_marker t identity m Hi Hmk Hs) as (n' & d & ->). cbn. intros [= <- <- <-].
    split; [done|]. split; [by intros ???|]. intros report [= <-]. by split.
  - intros He. apply Hgo; [done|]. destruct m as [a b c [] att dg er]; done.
Qed.

Lemma spec_hooks_step hooks t w r t' w' :
  Forall (fun x => safe_hook x.2) hooks -> table_inv t -> spec_hooks p hooks t w = (r, (t', w')) ->
  table_inv t' /\ keeps_completed t t' /\ (forall reports, r = Ok reports -> Forall2 (completes t') hooks.*2 reports).
Proof.
  revert t w r. induction hooks as [|[hook identity] hooks IH]; intros t w r Hh Hi; cbn.
  - intros [= <- <- <-]. split; [done|]. split; [by intros ???|]. intros reports [= <-]. constructor.
  - apply Forall_cons_1 in Hh as [Hsafe Hh]. cbn in Hsafe.
    destruct (spec_hook p identity hook t w) as [[report|e] [t1 w1]] eqn:H1.
    + destruct (spec_hook_step _ _ _ _ _ _ _ Hsafe Hi H1) as (Hi1 & Hk1 & Hc1).
      destruct (spec_hooks p hooks t1 w1) as [r2 [t2 w2]] eqn:H2. intros Heq.
      assert (t2 = t' /\ w2 = w') as [-> ->] by (destruct r2; cbn in Heq; injection Heq as Heq1 Heq2 Heq3; by split).
      destruct (IH t1 w1 r2 Hh Hi1 H2) as (Hi2 & Hk2 & Hc2). split; [done|].
      split; [intros id m Hid Hs; by apply Hk2; [apply Hk1|]|].
      intros reports ->. destruct r2 as [reports2|]; [|done]. injection Heq as <-. constructor; [|by apply Hc2].
      by apply (completes_keeps t1), Hc1.
    + intros [= <- <- <-]. destruct (spec_hook_step _ _ _ _ _ _ _ Hsafe Hi H1) as (Hi1 & Hk1 & _).
      split_and!; [done|done|by intros ? [=]].
Qed.

(** The run of the loop and of the final check. *)
Lemma run_hooks_live hooks t w :
  Forall (fun x => safe_hook x.2) hooks -> table_inv t ->
  run_hooks p hooks (sess p t, w) = let '(r, (t', w')) := spec_hooks p hooks t w in (r, (sess p t', w')).
Proof.
  revert t w. induction hooks as [|[hook identity] hooks IH]; intros t w Hh Hi; [done|].
  apply Forall_cons_1 in Hh as [Hsafe Hh]. cbn in Hsafe. cbn [run_hooks spec_hooks].
  unfold mbind at 1, ST_mbind at 1. rewrite (run_hook_live p Hrev Hdig) by done.
  destruct (spec_hook p identity hook t w) as [[report|e] [t1 w1]] eqn:H1; [|done].
  destruct (spec_hook_step _ _ _ _ _ _ _ Hsafe Hi H1) as (Hi1 & _).
  unfold mbind at 1, ST_mbind at 1. rewrite IH by done. by destruct (spec_hooks p hooks t1 w1) as [[?|?] [??]].
Qed.

Lemma confirm_hooks_live identities reports t w :
  Forall safe_hook identities -> table_inv t -> Forall2 (completes t) identities reports ->
  confirm_hooks p identities (sess p t, w) = (Ok (), (sess p t, w)).
Proof.
  intros Hh Hi Hc. revert Hh. induction Hc as [|identity report identities reports [Hr Hm] Hc IH]; intros Hh; [done|].
  apply Forall_cons_1 in Hh as [Hsafe Hh]. cbn [confirm_hooks]. unfold confirm_hook, mbind, ST_mbind, on_session.
  cbn [get_marker PostgresReconciliationSession]. rewrite (get_live p identity t Hsafe Hi), Hm.
  unfold catch, pure. rewrite (validate_live p); [by apply IH| |done|done].
  apply marker_of_elem in Hm as [Hin _]; [|done]. destruct Hi as [Hwf _]. by eapply Forall_forall in Hwf.
Qed.

Lemma run_plan_live hooks t w :
  Forall safe_hook (rp_hooks p) -> length hooks = length (rp_hooks p) -> table_inv t ->
  run_plan p hooks (sess p t, w)
  = let '(r, (t', w')) := spec_hooks p (zip hooks (rp_hooks p)) t w in (r, (sess p t', w')).
Proof.
  intros Hh Hl Hi. unfold run_plan, mbind at 1, ST_mbind at 1.
  assert ((zip hooks (rp_hooks p)).*2 = rp_hooks p) as Hz by (apply snd_zip; lia).
  assert (Forall (fun x : ProductReconciler W * _ => safe_hook x.2) (zip hooks (rp_hooks p))) as Hzh.
  { apply (proj1 (Forall_fmap snd safe_hook _)). by rewrite Hz. }
  rewrite run_hooks_live by done.
  destruct (spec_hooks p _ t w) as [[reports|e] [t' w']] eqn:Hs; [|done].
  destruct (spec_hooks_step _ _ _ _ _ _ Hzh Hi Hs) as (Hi' & _ & Hc). specialize (Hc _ eq_refl). rewrite Hz in Hc.
  unfold mbind, ST_mbind. by rewrite (confirm_hooks_live _ reports t' w' Hh Hi' Hc).
Qed.

(** A run over completed hooks. *)
Definition repeated (report : ReconciliationHookReport) : ReconciliationHookReport :=
  {| hr_hook := hr_hook report; hr_attempt := hr_attempt report; hr_already_complete := true;
     hr_result_digest := hr_result_digest report |}.

Lemma spec_hooks_again hooks reports t w :
  Forall2 (completes t) hooks.*2 reports -> spec_hooks p hooks t w = (Ok (repeated <$> reports), (t, w)).
Proof.
  revert reports. induction hooks as [|[hook identity] hooks IH]; cbn; intros reports Hc.
  - by apply Forall2_nil_inv_l in Hc as ->.
  - apply Forall2_cons_inv_l in Hc as (report & reports' & [Hr Hm] & Hc & ->).
    unfold spec_hook. rewrite Hm. cbn. rewrite (IH _ Hc). cbn. unfold repeated at 2. by rewrite Hr.
Qed.
End Reconcile.

Lemma hook_identities_ok {W} names (hooks : list (ProductReconciler W)) ids :
  hook_identities names hooks = Ok ids -> length hooks = length ids /\ Forall safe_hook ids.
Proof.
  revert names ids. induction hooks as [|h hooks IH]; intros names ids; cbn.
  - intros [= <-]. by split.
  - intros He. inv_ok. subst. destruct (IH _ _ ltac:(eassumption)) as [? ?]. split; [cbn; lia|].
    constructor; [|done]. unfold safe_hook. done.
Qed.

Definition report_of (p : ReconciliationPlan) (reports : list ReconciliationHookReport) : ReconciliationReport :=
  {| rr_schema_revision := rp_schema_revision p; rr_plan_digest := rp_plan_digest p;
     rr_advisory_lock := RECONCILIATION_ADVISORY_LOCK; rr_hooks := reports; rr_durably_complete := true |}.

Lemma reconcile_live `{PgEnv} {W} (hooks : list (ProductReconciler W)) rev ids p t w :
  runner_identities hooks = Ok ids -> plan ids rev = Ok p -> table_inv t ->
  reconcile hooks rev (live t, w)
  = let '(r, (t', w')) := spec_hooks p (zip hooks ids) t w in
    (reports ← r; Ok (report_of p reports), (live t', w')).
Proof.
  intros Hids Hp Hi. unfold reconcile. rewrite Hids. cbn [mbind outcome_mbind outcome_bind]. rewrite Hp. cbn [mbind outcome_mbind outcome_bind].
  destruct (plan_valid _ _ _ Hp) as (Hrev & Hdig & Hhooks).
  unfold runner_identities in Hids. apply bind_Ok_inv in Hids as (v & _ & Hids).
  destruct (hook_identities_ok _ _ _ Hids) as [Hl Hsafe]. rewrite <- Hhooks in *.
  unfold mbind at 1, ST_mbind at 1, coordinate, validate_revision, _validate_digest. rewrite Hrev, Hdig.
  rewrite bool_decide_eq_true_2 by done. cbn [raise_unless mbind outcome_mbind outcome_bind].
  change (_acquire (live t)) with (@Ok exn unit (), live t).
  cbv beta iota. change (PgSession (live t) (rp_schema_revision p) (rp_plan_digest p) true) with (sess p t). rewrite (run_plan_live p Hrev Hdig) by done.
  destruct (spec_hooks p (zip hooks (rp_hooks p)) t w) as [[reports|e] [t' w']]; done.
Qed.

(** C11: on a live connection, over any marker table that satisfies its
    invariant, a run of the reconciliation is exactly [spec_hooks]: every hook
    of the plan in order, completed hooks skipped, the first failure recorded
    and raised; it keeps the invariant.  When it succeeds, running it again
    reports every hook as already complete, with the same attempts and result
    digests, and changes neither the markers nor the world of the hooks. *)
Theorem reconciliation_exact `{PgEnv} {W} (hooks : list (ProductReconciler W)) rev ids p t (w : W) r t' w' :
  runner_identities hooks = Ok ids -> plan ids rev = Ok p -> table_inv t ->
  spec_hooks p (zip hooks ids) t w = (r, (t', w')) ->
  reconcile hooks rev (live t, w) = (reports ← r; Ok (report_of p reports), (live t', w')) /\ table_inv t' /\
  (forall reports, r = Ok reports -> forall w2,
     reconcile hooks rev (live t', w2) = (Ok (report_of p (repeated <$> reports)), (live t', w2))).
Proof.
  intros Hids Hp Hi Hs. rewrite (reconcile_live hooks rev ids p t w) by done. rewrite Hs.
  destruct (plan_valid _ _ _ Hp) as (Hrev & Hdig & Hhooks).
  pose proof Hids as Hids'. unfold runner_identities in Hids'. apply bind_Ok_inv in Hids' as (v & _ & Hids').
  destruct (hook_identities_ok _ _ _ Hids') as [Hl Hsafe].
  assert ((zip hooks ids).*2 = ids) as Hz by (apply snd_zip; lia).
  destruct (spec_hooks_step p Hrev Hdig (zip hooks ids) t w r t' w') as (Hi' & _ & Hc); [|done|done|].
  { apply (proj1 (Forall_fmap snd safe_hook _)). by rewrite Hz. }
  split; [done|]. split; [done|]. intros reports -> w2.
  rewrite (reconcile_live hooks rev ids p t' w2) by done.
  by rewrite (spec_hooks_again p _ reports) by (by apply Hc).
Qed.

(** ** Samples *)

(** Two hooks that count their runs; the second fails once. *)
Definition sample_hooks : list (ProductReconciler nat) :=
  [Hook (u "profiles") (u "v1") (fun n => (Ok HR_none, S n));
   Hook (u "index") (u "v2") (fun n =>
     ((if (n <? 2)%nat then raise ValueError_ "not yet"
       else Ok (HR_mapping [(Some (u "rows"), JInt 3)])), S n))].
Definition sample_ids : list ReconciliationHookIdentity := [HookId (u "profiles") (u "v1"); HookId (u "index") (u "v2")].
Definition sample_plan : ReconciliationPlan :=
  {| rp_schema_revision := u "089.014"; rp_hooks := sample_ids;
     rp_plan_digest := match _canonical_plan_digest (u "089.014") sample_ids with Ok d => d | Err _ => [] end |}.

Lemma sample_plan_ok : plan sample_ids (u "089.014") = Ok sample_plan.
Proof. vm_compute. reflexivity. Qed.

(** The first run completes one hook and fails the other; the second run takes
    up the second hook in its attempt 2; a third run has nothing to do. *)
Definition sample_first : marker_table := fst (snd (spec_hooks sample_plan (zip sample_hooks sample_ids) [] 0%nat)).
Definition sample_second : marker_table :=
  fst (snd (spec_hooks sample_plan (zip sample_hooks sample_ids) sample_first 2%nat)).
Definition sample_reports : list ReconciliationHookReport :=
  match fst (spec_hooks sample_plan (zip sample_hooks sample_ids) sample_first 2%nat) with Ok l => l | Err _ => [] end.

Lemma reconciliation_exact_witness :
  (reconcile sample_hooks (u "089.014") (live [], 0%nat)
   = (raise ReconciliationError "required reconciliation hook failed", (live sample_first, 2%nat)))
  /\ (mk_state <$> sample_first = [MK_COMPLETED; MK_FAILED])
  /\ (reconcile sample_hooks (u "089.014") (live sample_first, 2%nat)
      = (Ok (report_of sample_plan sample_reports), (live sample_second, 3%nat)))
  /\ (hr_attempt <$> sample_reports = [1; 2])
  /\ (forall w, reconcile sample_hooks (u "089.014") (live sample_second, w)
      = (Ok (report_of sample_plan (repeated <$> sample_reports)), (live sample_second, w))).
Proof.
  assert (runner_identities sample_hooks = Ok sample_ids) as Hids by (vm_compute; reflexivity).
  destruct (reconciliation_exact sample_hooks (u "089.014") sample_ids sample_plan [] 0%nat
    (raise ReconciliationError "required reconciliation hook failed") sample_first 2%nat Hids sample_plan_ok)
    as (H1 & Hi & _); [by split|vm_compute; reflexivity|].
  destruct (reconciliation_exact sample_hooks (u "089.014") sample_ids sample_plan sample_first 2%nat
    (Ok sample_reports) sample_second 3%nat Hids sample_plan_ok Hi) as (H2 & _ & H3); [vm_compute; reflexivity|].
  split; [exact H1|]. split; [vm_compute; reflexivity|]. split; [exact H2|]. split; [vm_compute; reflexivity|].
  by apply H3.
Defined.

(** The commit of the first completion fails after it took effect: the run is
    refused, the completed marker stays. *)
Definition sample_faulty : marker_conn :=
  MarkerConn [] [] false false
    (replicate 19 None ++ [Some (Fault (Exn PgOperationalError "connection lost") true)]).

Lemma reconciliation_durable_witness :
  let '(r, (c', _)) := reconcile sample_hooks (u "089.014") (sample_faulty, 0%nat) in
  r = raise ReconciliationError "reconciliation failure marker could not be persisted"
  /\ mk_state <$> mc_committed c' = [MK_COMPLETED] /\ table_inv (mc_committed c').
Proof.
  pose proof (reconciliation_durable sample_hooks (u "089.014") sample_faulty 0%nat) as Hd.
  destruct (reconcile sample_hooks (u "089.014") (sample_faulty, 0%nat)) as [r [c' w']] eqn:He.
  destruct Hd as (Hi & _ & _); [by split|done|]. split_and!; [| |exact Hi]; vm_compute in He; by injection He as <- <- <-.
Defined.
