(* ===== verification/Boot.v ===== *)
(** * The boot lifecycle (src/src/astralplane/database/bootstrap.py)

    Threads of a process call [BootInitializer.initialize]; the calls for one
    identity share a [_SharedBootState] under its condition.  A call is a
    thread with a program counter, the sections that hold the condition are
    single steps, and what the migration and reconciliation runners return is
    an input of the step. *)

From stdpp Require Import gmap.
From S2P Require Import Prelude Regex Errors Domain Revision Migrations Reconciliation.

(** ** The shared state *)

Inductive BootStatus : Type := BOOT_NEW | BOOT_RUNNING | BOOT_READY | BOOT_FAILED.
#[global] Instance BootStatus_eq_dec : EqDecision BootStatus.
Proof. solve_decision. Defined.

Record InitializationFailure : Type := { if_error_type : pystr; if_message : string }.

Record InitializationReport : Type := {
  ir_identity : pystr;
  ir_expected_revision : pystr;
  ir_migration : MigrationReport;
  ir_reconciliation : ReconciliationReport
}.

Record SharedBootState : Type := Shared {
  bs_status : BootStatus;
  bs_expected_revision : option pystr;
  bs_plan_digest : option pystr;
  bs_report : option InitializationReport;
  bs_failure : option InitializationFailure
}.
Definition new_state : SharedBootState := Shared BOOT_NEW None None None None.

(** [_REGISTRY] *)
Abbreviation registry := (gmap pystr SharedBootState).
Definition _state_for (identity : pystr) (r : registry) : SharedBootState * registry :=
  match r !! identity with
  | Some st => (st, r)
  | None => (new_state, <[identity := new_state]> r)
  end.

(** ** One call of initialize *)

(** Where a call is: before the condition, waiting on it, in the migration, in
    the reconciliation, before publishing the report, before publishing the
    failure, in [finally] without a complete attempt, or back. *)
Inductive boot_pc : Type :=
  | AtEntry
  | Waiting
  | Migrating
  | Reconciling (m : MigrationReport)
  | Publishing (report : InitializationReport)
  | Failing (exc : exn)
  | Unwinding (exc : exn)
  | Returned (r : result InitializationReport).

Record boot_call : Type := Call {
  bc_identity : pystr;
  bc_expected : pystr;
  bc_plan_digest : pystr;
  bc_pc : boot_pc
}.
Definition at_pc (pc : boot_pc) (c : boot_call) : boot_call :=
  Call (bc_identity c) (bc_expected c) (bc_plan_digest c) pc.

(** [BootInitializer.__init__]: the identity and its state. *)
Definition init_boot (identity : pystr) (r : registry) : result registry :=
  raise_unless (fullmatch safe_identity_re identity)
    (Exn InitializationError "boot identity must be a bounded non-sensitive identifier") ;;
  Ok (snd (_state_for identity r)).

(** [initialize] before the condition; [plan_digest] is what the reconciliation
    runner returns. *)
Definition begin_call (identity expected_revision : pystr) (plan_digest : result pystr) : result boot_call :=
  expected ← validate_revision expected_revision "expected revision";
  digest ← plan_digest;
  raise_unless (is_sha256 digest)
    (Exn InitializationError "reconciliation runner returned an invalid plan digest") ;;
  Ok (Call identity expected digest AtEntry).

Definition other_plan (c : boot_call) (st : SharedBootState) : bool :=
  bool_decide (bs_expected_revision st <> Some (bc_expected c))
  || bool_decide (bs_plan_digest st <> Some (bc_plan_digest c)).

(** The section under the condition; a call that waits comes back to it. *)
Definition enter (c : boot_call) (st : SharedBootState) : boot_pc * SharedBootState :=
  match bs_status st with
  | BOOT_RUNNING =>
      if other_plan c st
      then (Returned (raise SchemaRevisionError "concurrent initializer requested a different boot plan"), st)
      else (Waiting, st)
  | BOOT_READY =>
      if other_plan c st
      then (Returned (raise SchemaRevisionError "initialized data plane does not match the requested boot plan"), st)
      else (Returned (match bs_report st with
                      | Some report => Ok report
                      | None => raise AssertionError_ "assertion failed"
                      end), st)
  | BOOT_FAILED => (Returned (raise InitializationError "a prior explicit boot initialization failed"), st)
  | BOOT_NEW =>
      (Migrating, Shared BOOT_RUNNING (Some (bc_expected c)) (Some (bc_plan_digest c)) (bs_report st) None)
  end.

(** An exception of the [try] body. *)
Definition raised (exc : exn) : boot_pc := if is_exception exc then Failing exc else Unwinding exc.

Definition migrated (c : boot_call) (r : result MigrationReport) : boot_pc :=
  match r with
  | Err exc => raised exc
  | Ok m =>
      if bool_decide (mr_target_revision m <> bc_expected c)
      then raised (Exn InitializationError "migration runner returned the wrong target revision")
      else Reconciling m
  end.

(** What the reconciliation report must show. *)
Definition proves (expected plan_digest : pystr) (r : ReconciliationReport) : bool :=
  bool_decide (rr_schema_revision r = expected) && bool_decide (rr_plan_digest r = plan_digest)
  && bool_decide (rr_advisory_lock r = RECONCILIATION_ADVISORY_LOCK)
  && rr_durably_complete r && match rr_hooks r with [] => false | _ => true end.

Definition reconciled (c : boot_call) (m : MigrationReport) (r : result ReconciliationReport) : boot_pc :=
  match r with
  | Err exc => raised exc
  | Ok rec =>
      if proves (bc_expected c) (bc_plan_digest c) rec
      then Publishing {| ir_identity := bc_identity c; ir_expected_revision := bc_expected c;
                         ir_migration := m; ir_reconciliation := rec |}
      else raised (Exn InitializationError "reconciliation runner did not prove the required durable plan complete")
  end.

Definition publish (report : InitializationReport) (st : SharedBootState) : SharedBootState :=
  Shared BOOT_READY (bs_expected_revision st) (bs_plan_digest st) (Some report) None.

Definition failed_with (error_type : pystr) (st : SharedBootState) : SharedBootState :=
  Shared BOOT_FAILED (bs_expected_revision st) (bs_plan_digest st) None
    (Some {| if_error_type := error_type; if_message := "initialization attempt failed" |}).
Definition _publish_failure (exc : exn) (st : SharedBootState) : SharedBootState :=
  failed_with (type_name (exn_cls exc)) st.

(** The [finally] block of an attempt that is not complete. *)
Definition unwind (st : SharedBootState) : SharedBootState :=
  match bs_status st with
  | BOOT_RUNNING => failed_with (u "InterruptedInitialization") st
  | _ => st
  end.

Definition reset_failed (st : SharedBootState) : result bool * SharedBootState :=
  match bs_status st with
  | BOOT_RUNNING => (raise InitializationError "cannot reset an initializer while it is running", st)
  | BOOT_FAILED => (Ok true, new_state)
  | _ => (Ok false, st)
  end.

(** ** The process *)

Record boot_world : Type := BootWorld { bw_states : registry; bw_calls : list boot_call }.
Definition boot_init : boot_world := BootWorld ∅ [].

(** [notify_all]: the waiting calls of the identity go back to the entry. *)
Definition wake (identity : pystr) (c : boot_call) : boot_call :=
  match bc_pc c with
  | Waiting => if bool_decide (bc_identity c = identity) then at_pc AtEntry c else c
  | _ => c
  end.
Definition notify_all (identity : pystr) (calls : list boot_call) : list boot_call := wake identity <$> calls.

(** A step of the process: a call begins, a call takes its next step with what
    the runner it called returned, or somebody resets an identity. *)
Inductive boot_action : Type :=
  | Begin (identity expected_revision : pystr) (plan_digest : result pystr)
  | Enter (i : nat)
  | Migrated (i : nat) (r : result MigrationReport)
  | Reconciled (i : nat) (r : result ReconciliationReport)
  | Publish (i : nat)
  | PublishFailure (i : nat)
  | Finally (i : nat)
  | Reset (identity : pystr).

(** The call, its next program counter and its state after the step; whether
    the step notifies. *)
Definition move (a : boot_action) (c : boot_call) (st : SharedBootState)
  : option (boot_pc * SharedBootState * bool) :=
  match a, bc_pc c with
  | Enter _, AtEntry => let '(pc, st') := enter c st in Some (pc, st', false)
  | Migrated _ r, Migrating => Some (migrated c r, st, false)
  | Reconciled _ r, Reconciling m => Some (reconciled c m r, st, false)
  | Publish _, Publishing report => Some (Returned (Ok report), publish report st, true)
  | PublishFailure _, Failing exc => Some (Unwinding exc, _publish_failure exc st, true)
  | Finally _, Unwinding exc =>
      Some (Returned (Err exc), unwind st, bool_decide (bs_status st = BOOT_RUNNING))
  | _, _ => None
  end.

Definition mover (a : boot_action) : option nat :=
  match a with
  | Enter i | Migrated i _ | Reconciled i _ | Publish i | PublishFailure i | Finally i => Some i
  | Begin _ _ _ | Reset _ => None
  end.

Definition move_call (a : boot_action) (i : nat) (w : boot_world) : option boot_world :=
  c ← bw_calls w !! i;
  st ← bw_states w !! bc_identity c;
  match move a c st with
  | None => None
  | Some (pc, st', notifies) =>
      let calls := <[i := at_pc pc c]> (bw_calls w) in
      Some (BootWorld (<[bc_identity c := st']> (bw_states w))
                      (if notifies : bool then notify_all (bc_identity c) calls else calls))
  end.

Definition do_action (a : boot_action) (w : boot_world) : option boot_world :=
  match a with
  | Begin identity expected_revision plan_digest =>
      match init_boot identity (bw_states w) with
      | Err _ => Some w
      | Ok states =>
          match begin_call identity expected_revision plan_digest with
          | Err _ => Some (BootWorld states (bw_calls w))
          | Ok c => Some (BootWorld states (bw_calls w ++ [c]))
          end
      end
  | Reset identity =>
      match init_boot identity (bw_states w) with
      | Err _ => Some w
      | Ok states => Some (BootWorld (alter (fun st => snd (reset_failed st)) identity states) (bw_calls w))
      end
  | _ => i ← mover a; move_call a i w
  end.

Fixpoint do_actions (l : list boot_action) (w : boot_world) : option boot_world :=
  match l with
  | [] => Some w
  | a :: l' => w' ← do_action a w; do_actions l' w'
  end.
