(* ===== verification/BootSpec.v ===== *)
(** * What a boot guarantees

    With resets only while no attempt is unwinding, one attempt of an identity
    runs at a time, every caller that returns has the one report the state
    publishes for its plan, and [READY] is final.  Without that restriction
    calls still end, but a late [finally] can break the exclusion. *)

From stdpp Require Import gmap.
From S2P Require Import Prelude Regex Errors Domain Revision Migrations Reconciliation Boot.

Definition boot_step (w w' : boot_world) : Prop := exists a, do_action a w = Some w'.

(** Nobody resets an identity while one of its calls is in [finally]. *)
Definition unwinding (c : boot_call) : bool := match bc_pc c with Unwinding _ => true | _ => false end.
Definition orderly (a : boot_action) (w : boot_world) : bool :=
  match a with
  | Reset identity => forallb (fun c => negb (bool_decide (bc_identity c = identity) && unwinding c)) (bw_calls w)
  | _ => true
  end.
Definition orderly_step (w w' : boot_world) : Prop := exists a, orderly a w = true /\ do_action a w = Some w'.

(** A call that owns the attempt. *)
Definition running (c : boot_call) : bool :=
  match bc_pc c with
  | Migrating | Reconciling _ | Publishing _ | Failing _ => true
  | Unwinding exc => negb (is_exception exc)
  | AtEntry | Waiting | Returned _ => false
  end.

(** A report that answers the call. *)
Record answers (c : boot_call) (report : InitializationReport) : Prop := {
  an_identity : ir_identity report = bc_identity c;
  an_expected : ir_expected_revision report = bc_expected c;
  an_target : mr_target_revision (ir_migration report) = bc_expected c;
  an_proves : proves (bc_expected c) (bc_plan_digest c) (ir_reconciliation report) = true
}.

Definition runs (c : boot_call) (st : SharedBootState) : Prop :=
  bs_status st = BOOT_RUNNING /\ other_plan c st = false.

Definition call_ok (c : boot_call) (st : SharedBootState) : Prop :=
  match bc_pc c with
  | AtEntry => True
  | Waiting | Migrating => runs c st
  | Reconciling m => runs c st /\ mr_target_revision m = bc_expected c
  | Publishing report => runs c st /\ answers c report
  | Failing exc => runs c st /\ is_exception exc = true
  | Unwinding exc => if is_exception exc then bs_status st = BOOT_FAILED else runs c st
  | Returned (Ok report) =>
      bs_status st = BOOT_READY /\ bs_report st = Some report /\ other_plan c st = false /\ answers c report
  | Returned (Err _) => True
  end.

Lemma other_plan_false c st :
  other_plan c st = false <->
  bs_expected_revision st = Some (bc_expected c) /\ bs_plan_digest st = Some (bc_plan_digest c).
Proof.
  unfold other_plan. rewrite orb_false_iff. split.
  - intros [H1 H2]. split; apply dec_stable; by eapply bool_decide_eq_false_1.
  - intros [-> ->]. by rewrite !bool_decide_eq_false_2 by auto.
Qed.

(** ** Steps *)

Lemma wake_identity identity c : bc_identity (wake identity c) = bc_identity c.
Proof. destruct c as [a b d []]; cbn; try done. by case_bool_decide. Qed.

Lemma wake_running identity c : running (wake identity c) = running c.
Proof. destruct c as [a b d []]; cbn; try done. by case_bool_decide. Qed.

Lemma move_awake a c st pc st' : move a c st = Some (pc, st', true) -> wake (bc_identity c) (at_pc pc c) = at_pc pc c.
Proof.
  unfold move. destruct a, (bc_pc c); try done; try destruct (enter c st); intros H; try done;
    injection H; intros; subst; done.
Qed.

(** The step of call [i]: [c] goes to [pc] and its state from [st] to [st'],
    notifying or not. *)
Record moved (w w' : boot_world) (a : boot_action) (i : nat) (c : boot_call) (st : SharedBootState)
    (pc : boot_pc) (st' : SharedBootState) (n : bool) : Prop := {
  mv_call : bw_calls w !! i = Some c;
  mv_state : bw_states w !! bc_identity c = Some st;
  mv_move : move a c st = Some (pc, st', n);
  mv_states : bw_states w' = <[bc_identity c := st']> (bw_states w);
  mv_length : length (bw_calls w') = length (bw_calls w);
  mv_here : bw_calls w' !! i = Some (at_pc pc c);
  mv_there : forall j, j <> i ->
    bw_calls w' !! j = (if n then wake (bc_identity c) else id) <$> bw_calls w !! j
}.

Lemma move_call_moved a i w w' :
  move_call a i w = Some w' -> exists c st pc st' n, moved w w' a i c st pc st' n.
Proof.
  unfold move_call. destruct (bw_calls w !! i) as [c|] eqn:Hc; [|done]. cbn.
  destruct (bw_states w !! bc_identity c) as [st|] eqn:Hst; [|done]. cbn.
  destruct (move a c st) as [[[pc st'] n]|] eqn:Hm; [|done]. intros [= <-].
  exists c, st, pc, st', n. pose proof (lookup_lt_Some _ _ _ Hc) as Hlt. split; cbn; try done.
  - destruct n; unfold notify_all; by rewrite ?length_fmap, length_insert.
  - destruct n; [unfold notify_all; rewrite list_lookup_fmap|]; rewrite list_lookup_insert_eq by done; [|done].
    cbn. f_equal. by apply (move_awake a c st pc st').
  - intros j Hj. destruct n; [unfold notify_all; rewrite list_lookup_fmap|]; rewrite list_lookup_insert_ne by done; [done|].
    by destruct (bw_calls w !! j).
Qed.

(** The three kinds of step. *)
Inductive stepped (w : boot_world) (a : boot_action) : boot_world -> Prop :=
  | Stepped i c st pc st' n w' : mover a = Some i -> moved w w' a i c st pc st' n -> stepped w a w'
  | Began identity states calls :
      (exists r d, a = Begin identity r d) -> states = snd (_state_for identity (bw_states w)) ->
      (calls = [] \/ exists c, calls = [c] /\ bc_identity c = identity /\ bc_pc c = AtEntry) ->
      stepped w a (BootWorld states (bw_calls w ++ calls))
  | Resetted identity :
      a = Reset identity ->
      stepped w a (BootWorld (alter (fun st => snd (reset_failed st)) identity (snd (_state_for identity (bw_states w))))
                     (bw_calls w))
  | Refused : mover a = None -> stepped w a w.

Lemma do_action_stepped a w w' : do_action a w = Some w' -> stepped w a w'.
Proof.
  assert (forall i, mover a = Some i -> move_call a i w = Some w' -> stepped w a w') as Hmove.
  { intros i Hi Hm. destruct (move_call_moved a i w w' Hm) as (c & st & pc & st' & n & H).
    by apply (Stepped _ _ i c st pc st' n). }
  destruct a as [identity rev d| | | | | | |identity]; cbn; try by (intros Hm; eapply Hmove).
  - unfold init_boot. destruct (fullmatch safe_identity_re identity); cbn; [|intros [= <-]; by constructor].
    destruct (begin_call identity rev d) as [c|e] eqn:Hb; intros [= <-].
    + apply (Began _ _ identity); [by eauto|done|]. right. exists c. split; [done|].
      unfold begin_call in Hb. inv_ok. by subst c.
    + rewrite <- (app_nil_r (bw_calls w)). apply (Began w _ identity); [by eauto|done|by left].
  - unfold init_boot. destruct (fullmatch safe_identity_re identity); cbn; intros [= <-]; by constructor.
Qed.

Lemma state_for_lookup (identity k : pystr) (r : registry) :
  snd (_state_for identity r) !! k
  = match r !! k with Some st => Some st | None => if decide (identity = k) then Some new_state else None end.
Proof.
  unfold _state_for. destruct (r !! identity) as [st|] eqn:Hr; cbn.
  - destruct (r !! k) eqn:Hk; [done|]. rewrite decide_False by congruence. done.
  - rewrite lookup_insert. case_decide; [subst; by rewrite Hr|]. by destruct (r !! k).
Qed.

(** ** One call against its state *)

Definition state_ok (identity : pystr) (st : SharedBootState) : Prop :=
  bs_status st = BOOT_READY ->
  exists report, bs_report st = Some report
    /\ forall c, bc_identity c = identity -> other_plan c st = false -> answers c report.

Lemma enter_cases c st pc st' :
  enter c st = (pc, st') ->
  (bs_status st = BOOT_NEW /\ pc = Migrating
   /\ st' = Shared BOOT_RUNNING (Some (bc_expected c)) (Some (bc_plan_digest c)) (bs_report st) None)
  \/ (st' = st /\ ((pc = Waiting /\ runs c st) \/ (exists e, pc = Returned (Err e))
       \/ (bs_status st = BOOT_READY /\ other_plan c st = false /\ exists report, bs_report st = Some report /\ pc = Returned (Ok report)))).
Proof.
  unfold enter. destruct (bs_status st) eqn:Hs; [by intros [= <- <-]; left| | |by intros [= <- <-]; right; eauto].
  - destruct (other_plan c st) eqn:Ho; intros [= <- <-]; right; (split; [done|]); [by eauto|]. left. by repeat split.
  - destruct (other_plan c st) eqn:Ho; intros [= <- <-]; right; (split; [done|]); [by eauto|].
    destruct (bs_report st) as [report|]; [|by eauto]. right. right. eauto.
Qed.

Lemma raised_cases exc : raised exc = Failing exc /\ is_exception exc = true \/ raised exc = Unwinding exc /\ is_exception exc = false.
Proof. unfold raised. destruct (is_exception exc); auto. Qed.

(** What the steps that leave the state alone lead to. *)
Lemma migrated_cases c r :
  (exists m, migrated c r = Reconciling m /\ mr_target_revision m = bc_expected c) \/ exists exc, migrated c r = raised exc.
Proof.
  unfold migrated. destruct r as [m|e]; [|by eauto]. case_bool_decide as Hm; [by eauto|]. left. exists m. split; [done|].
  destruct (decide (mr_target_revision m = bc_expected c)); [done|]. by destruct Hm.
Qed.

Lemma reconciled_cases c m r :
  mr_target_revision m = bc_expected c ->
  (exists report, reconciled c m r = Publishing report /\ answers c report) \/ exists exc, reconciled c m r = raised exc.
Proof.
  intros Hm. unfold reconciled. destruct r as [rec|e]; [|by eauto].
  destruct (proves _ _ rec) eqn:Hp; [|by eauto]. left. eexists. by split.
Qed.

(** The cases of a step: the state is left alone, the attempt begins, or the
    attempt ends and the waiting calls are notified. *)
Lemma move_cases a c st pc st' n :
  call_ok c st -> state_ok (bc_identity c) st -> move a c st = Some (pc, st', n) ->
  (st' = st /\ n = false /\ call_ok (at_pc pc c) st /\ (running (at_pc pc c) = true -> running c = true))
  \/ (bs_status st = BOOT_NEW /\ n = false /\ bs_status st' = BOOT_RUNNING /\ call_ok (at_pc pc c) st'
      /\ running (at_pc pc c) = true)
  \/ (running c = true /\ runs c st /\ n = true /\ bs_status st' <> BOOT_RUNNING
      /\ bs_expected_revision st' = bs_expected_revision st /\ bs_plan_digest st' = bs_plan_digest st
      /\ call_ok (at_pc pc c) st' /\ running (at_pc pc c) = false
      /\ (bs_status st' = BOOT_READY -> exists report, bs_report st' = Some report /\ answers c report)).
Proof.
  destruct c as [cid ce cp cpc]. unfold move, call_ok, state_ok. cbn [bc_pc]. intros Hc Hst.
  destruct a, cpc; intros Hm; try discriminate Hm; cbn [bc_pc] in Hc.
  - (* Enter *)
    destruct (enter _ st) as [pc' st1] eqn:He. injection Hm as <- <- <-.
    destruct (enter_cases _ _ _ _ He) as [(Hs & -> & ->)|(-> & Hcs)].
    + right. left. split_and!; try done. split; [done|]. by apply other_plan_false.
    + left. destruct Hcs as [[-> Hr]|[[e ->]|(Hs & Ho & report & Hr & ->)]]; split_and!; try done.
      cbn. destruct (Hst Hs) as (report' & Hr' & Han). split_and!; try done.
      rewrite Hr in Hr'. injection Hr' as <-. by apply Han.
  - (* Migrated *)
    injection Hm as <- <- <-. left.
    destruct (migrated_cases (Call cid ce cp Migrating) r) as [(m & -> & Ht)|[exc ->]]; [by split_and!|].
    destruct (raised_cases exc) as [[-> He]|[-> He]]; split_and!; try done; unfold running; cbn [bc_pc at_pc]; by rewrite ?He.
  - (* Reconciled *)
    injection Hm as <- <- <-. left. destruct Hc as [Hr Ht].
    destruct (reconciled_cases (Call cid ce cp (Reconciling m)) m r Ht) as [(report & -> & Ha)|[exc ->]];
      [by split_and!; try done; split; [done|destruct Ha; by split]|].
    destruct (raised_cases exc) as [[-> He]|[-> He]]; split_and!; try done; unfold running; cbn [bc_pc at_pc]; by rewrite ?He.
  - (* Publish *)
    injection Hm as <- <- <-. right. right. destruct Hc as [[Hs Ho] Ha]. split_and!; try done.
    + cbn. split_and!; try done. by destruct Ha.
    + intros _. exists report. split; [done|]. by destruct Ha.
  - (* PublishFailure *)
    injection Hm as <- <- <-. right. right. destruct Hc as [[Hs Ho] He].
    split_and!; try done; unfold running; cbn [bc_pc at_pc _publish_failure failed_with bs_status]; by rewrite ?He.
  - (* Finally *)
    injection Hm as <- <- <-. unfold unwind. destruct (is_exception exc) eqn:He.
    + left. rewrite Hc. by split_and!.
    + right. right. destruct Hc as [Hs Ho]. rewrite Hs. split_and!; try done.
      unfold running. cbn [bc_pc at_pc]. by rewrite He.
Qed.

(** ** Whatever the resets: nobody waits for ever *)

Lemma move_quiet a c st pc st' : move a c st = Some (pc, st', false) -> st' = st \/ bs_status st = BOOT_NEW.
Proof.
  unfold move. destruct a, (bc_pc c); intros Hm; try discriminate Hm.
  - destruct (enter c st) as [pc' st1] eqn:He. injection Hm as _ <-.
    destruct (enter_cases _ _ _ _ He) as [(? & _)|(-> & _)]; auto.
  - injection Hm as _ <-. auto.
  - injection Hm as _ <-. auto.
  - injection Hm as _ <- Hs. left. unfold unwind. apply bool_decide_eq_false in Hs. by destruct (bs_status st).
Qed.

Lemma raised_running exc c : running (at_pc (raised exc) c) = true.
Proof.
  destruct (raised_cases exc) as [[-> _]|[-> He]]; [done|]. unfold running. cbn [bc_pc at_pc]. by rewrite He.
Qed.

Lemma move_running a c st pc st' n :
  move a c st = Some (pc, st', n) -> bs_status st' = BOOT_RUNNING ->
  running (at_pc pc c) = true \/ (bs_status st = BOOT_RUNNING /\ running c = false).
Proof.
  unfold move. destruct (bc_pc c) eqn:Hpc; destruct a; intros Hm; try discriminate Hm; intros Hs.
  - destruct (enter c st) as [pc' st1] eqn:He. injection Hm as <- <- _.
    destruct (enter_cases _ _ _ _ He) as [(_ & -> & _)|(-> & _)]; [by left|right]. split; [done|].
    unfold running. by rewrite Hpc.
  - injection Hm as <- <- _. left. destruct (migrated_cases c r) as [(m & -> & _)|[exc ->]]; [done|apply raised_running].
  - injection Hm as <- <- _. left. unfold reconciled.
    destruct r; [destruct (proves _ _ _); [done|]|]; apply raised_running.
  - injection Hm as _ <- _. done.
  - injection Hm as _ <- _. done.
  - injection Hm as _ <- _. unfold unwind in Hs. destruct (bs_status st) eqn:Hst; cbn in Hs; congruence.
Qed.

(** Every call has a state; a waiting call waits for a running attempt of its
    own plan, and a running state has a call that runs. *)
Record served (w : boot_world) : Prop := {
  sv_state : forall i c, bw_calls w !! i = Some c -> is_Some (bw_states w !! bc_identity c);
  sv_wait : forall i c st, bw_calls w !! i = Some c -> bw_states w !! bc_identity c = Some st ->
    bc_pc c = Waiting -> runs c st;
  sv_run : forall identity st, bw_states w !! identity = Some st -> bs_status st = BOOT_RUNNING ->
    exists i c, bw_calls w !! i = Some c /\ bc_identity c = identity /\ running c = true
}.

Lemma moved_call w w' a i c st pc st' n j d' :
  moved w w' a i c st pc st' n -> bw_calls w' !! j = Some d' ->
  (j = i /\ d' = at_pc pc c)
  \/ (j <> i /\ exists d, bw_calls w !! j = Some d /\ d' = (if n then wake (bc_identity c) else id) d).
Proof.
  intros Hm Hj. destruct (decide (j = i)) as [->|Hne].
  - left. rewrite (mv_here _ _ _ _ _ _ _ _ _ Hm) in Hj. by injection Hj as <-.
  - right. split; [done|]. rewrite (mv_there _ _ _ _ _ _ _ _ _ Hm j Hne) in Hj.
    destruct (bw_calls w !! j) as [d|]; [|done]. injection Hj as <-. by exists d.
Qed.

Lemma after_identity (n : bool) identity d : bc_identity ((if n then wake identity else id) d) = bc_identity d.
Proof. destruct n; [apply wake_identity|done]. Qed.

Lemma after_running (n : bool) identity d : running ((if n then wake identity else id) d) = running d.
Proof. destruct n; [apply wake_running|done]. Qed.

(** A call that still waits after the step: it waited before and, if the step
    notified, it is of another identity. *)
Lemma after_waiting (n : bool) identity d :
  bc_pc ((if n then wake identity else id) d) = Waiting ->
  (if n then wake identity else id) d = d /\ (n = true -> bc_identity d <> identity).
Proof.
  destruct n; [|done]. unfold wake. destruct (bc_pc d) eqn:Hd; rewrite ?Hd; try done. case_bool_decide; done.
Qed.

Lemma served_moved w w' a i c st pc st' n : served w -> moved w w' a i c st pc st' n -> served w'.
Proof.
  intros [Hst Hwt Hrun] Hm. pose proof (mv_states _ _ _ _ _ _ _ _ _ Hm) as Hs'.
  pose proof (mv_call _ _ _ _ _ _ _ _ _ Hm) as Hc. pose proof (mv_state _ _ _ _ _ _ _ _ _ Hm) as Hs.
  pose proof (mv_move _ _ _ _ _ _ _ _ _ Hm) as Hmv. split.
  - intros j d' Hj. rewrite Hs'. apply lookup_insert_is_Some'. right.
    destruct (moved_call _ _ _ _ _ _ _ _ _ _ _ Hm Hj) as [[-> ->]|(_ & d & Hd & ->)].
    + by exists st.
    + rewrite after_identity. by eapply Hst.
  - intros j d' st1 Hj. rewrite Hs'. destruct (moved_call _ _ _ _ _ _ _ _ _ _ _ Hm Hj) as [[-> ->]|(Hne & d & Hd & ->)].
    + cbn [bc_identity at_pc bc_pc]. rewrite lookup_insert_eq. intros [= <-] ->. 
      unfold move in Hmv. destruct a, (bc_pc c) eqn:Hpc; try discriminate Hmv.
      * destruct (enter c st) as [pc1 st1] eqn:He. injection Hmv as -> -> _.
        destruct (enter_cases _ _ _ _ He) as [(_ & ? & _)|(-> & [[_ Hr]|[[e ?]|(_ & _ & r & _ & ?)]])]; done.
      * injection Hmv as Hmg _. destruct (migrated_cases c r) as [(m & Hc' & _)|[exc Hc']]; rewrite Hc' in Hmg; [done|].
        unfold raised in Hmg. by destruct (is_exception exc).
      * injection Hmv as Hmg _. unfold reconciled, raised in Hmg. destruct r; [destruct (proves _ _ _)|]; try done; by destruct (is_exception _).
    + intros Hst1 Hw. destruct (after_waiting _ _ _ Hw) as [Heq Hother]. rewrite Heq in *.
      rewrite lookup_insert_Some in Hst1. destruct Hst1 as [[Hid <-]|[_ Hst1]]; [|by eapply Hwt].
      rewrite Hid in Hs. pose proof (Hwt j d st Hd Hs Hw) as Hr. destruct n; [by destruct (Hother eq_refl)|].
      destruct (move_quiet _ _ _ _ _ Hmv) as [->|Hnew]; [done|]. destruct Hr as [Hr _]. congruence.
  - intros identity st1. rewrite Hs', lookup_insert_Some. intros [[<- <-]|[Hne Hst1]] Hr.
    + destruct (move_running _ _ _ _ _ _ Hmv Hr) as [Hhere|[Hr0 Hnr]].
      * exists i, (at_pc pc c). split; [apply Hm|done].
      * destruct (Hrun _ _ Hs Hr0) as (j & d & Hd & Hid & Hrd).
        assert (j <> i) as Hji by (intros ->; congruence).
        exists j, ((if n then wake (bc_identity c) else id) d). rewrite after_identity, after_running.
        rewrite (mv_there _ _ _ _ _ _ _ _ _ Hm j Hji), Hd. done.
    + destruct (Hrun _ _ Hst1 Hr) as (j & d & Hd & Hid & Hrd).
      assert (j <> i) as Hji by (intros ->; congruence).
      exists j, ((if n then wake (bc_identity c) else id) d). rewrite after_identity, after_running.
      rewrite (mv_there _ _ _ _ _ _ _ _ _ Hm j Hji), Hd. done.
Qed.

Lemma lookup_snoc_call (calls extra : list boot_call) i c :
  (calls ++ extra) !! i = Some c -> calls !! i = Some c \/ c ∈ extra.
Proof.
  intros Hi. apply lookup_app_Some in Hi as [?|[_ Hi]]; [by left|right]. by apply list_elem_of_lookup_2 in Hi.
Qed.

Lemma reset_cases st : snd (reset_failed st) = st \/ (bs_status st = BOOT_FAILED /\ snd (reset_failed st) = new_state).
Proof. unfold reset_failed. destruct (bs_status st); auto. Qed.

Lemma served_step w w' : served w -> boot_step w w' -> served w'.
Proof.
  intros Hw [a Ha]. destruct (do_action_stepped _ _ _ Ha) as [i c st pc st' n w' _ Hm|identity states calls _ -> Hcalls|identity _|];
    [by eapply served_moved| | |done].
  - destruct Hw as [Hst Hwt Hrun].
    assert (forall c, c ∈ calls -> bc_identity c = identity /\ bc_pc c = AtEntry) as Hnew.
    { intros c Hc. destruct Hcalls as [->|(c' & -> & ? & ?)]; [by apply elem_of_nil in Hc|].
      by apply list_elem_of_singleton in Hc as ->. }
    split; cbn.
    + intros i c [Hi|Hc]%lookup_snoc_call; rewrite state_for_lookup.
      * destruct (Hst i c Hi) as [st ->]. by eexists.
      * destruct (Hnew c Hc) as [-> _]. destruct (bw_states w !! identity); [by eexists|]. rewrite decide_True by done. by eexists.
    + intros i c st [Hi|Hc]%lookup_snoc_call; rewrite state_for_lookup; intros Hs Hpc.
      * destruct (Hst i c Hi) as [st1 Hst1]. rewrite Hst1 in Hs. injection Hs as <-. by eapply Hwt.
      * destruct (Hnew c Hc) as [_ ?]. congruence.
    + intros id st. rewrite state_for_lookup. destruct (bw_states w !! id) as [st1|] eqn:Hid.
      * intros [= <-] Hr. destruct (Hrun _ _ Hid Hr) as (i & c & Hi & Hrest). exists i, c. split; [|done].
        by apply lookup_app_l_Some.
      * case_decide; [|done]. by intros [= <-].
  - destruct Hw as [Hst Hwt Hrun]. split; cbn.
    + intros i c Hi. destruct (Hst i c Hi) as [st Hs]. destruct (decide (bc_identity c = identity)) as [<-|Hne].
      * rewrite lookup_alter_eq, state_for_lookup, Hs. by eexists.
      * rewrite lookup_alter_ne by done. rewrite state_for_lookup, Hs. by eexists.
    + intros i c st Hi Hs Hpc. destruct (Hst i c Hi) as [st1 Hst1]. pose proof (Hwt i c st1 Hi Hst1 Hpc) as Hr.
      assert (st = st1) as ->; [|done]. destruct (decide (bc_identity c = identity)) as [<-|Hne].
      * rewrite lookup_alter_eq, state_for_lookup, Hst1 in Hs. injection Hs as <-. unfold reset_failed. destruct Hr as [-> _]. done.
      * rewrite lookup_alter_ne in Hs by done. rewrite state_for_lookup, Hst1 in Hs. by injection Hs as <-.
    + intros id st Hs Hr. apply (Hrun id st); [|done]. destruct (decide (id = identity)) as [->|Hne].
      * rewrite lookup_alter_eq, state_for_lookup in Hs. destruct (bw_states w !! identity) as [st1|].
        -- injection Hs as <-. destruct (reset_cases st1) as [->|[_ Hn]]; [done|]. by rewrite Hn in Hr.
        -- rewrite decide_True in Hs by done. injection Hs as <-. done.
      * rewrite lookup_alter_ne in Hs by done. rewrite state_for_lookup in Hs.
        destruct (bw_states w !! id); [done|]. by rewrite decide_False in Hs by done.
Qed.

Lemma served_init : served boot_init.
Proof. by split. Qed.

Lemma reachable_served w : rtc boot_step boot_init w -> served w.
Proof.
  intros Hr. assert (forall x, served x -> rtc boot_step x w -> served w) as H; [|by apply (H _ served_init)].
  clear Hr. intros x Hx Hr. induction Hr as [|x y z Hxy Hyz IH]; [done|]. apply IH. by eapply served_step.
Qed.

(** *** Termination *)

(** A step of a call: neither a new call nor a reset. *)
Definition call_step (w w' : boot_world) : Prop := exists a i, mover a = Some i /\ do_action a w = Some w'.

Definition rank (pc : boot_pc) : nat :=
  match pc with
  | AtEntry | Waiting => 6
  | Migrating => 5
  | Reconciling _ => 4
  | Publishing _ => 3
  | Failing _ => 2
  | Unwinding _ => 1
  | Returned _ => 0
  end.
Definition entering (pc : boot_pc) : nat := match pc with AtEntry => 1 | _ => 0 end.
Definition ranks (calls : list boot_call) : nat := sum_list_with (fun c => rank (bc_pc c)) calls.
Definition entries (calls : list boot_call) : nat := sum_list_with (fun c => entering (bc_pc c)) calls.
(** A notification brings waiting calls back to the entry, at most all. *)
Definition measure (w : boot_world) : nat :=
  (S (length (bw_calls w)) * ranks (bw_calls w) + entries (bw_calls w))%nat.

Lemma sum_insert (f : boot_call -> nat) calls i c d :
  calls !! i = Some c -> (sum_list_with f (<[i := d]> calls) + f c = sum_list_with f calls + f d)%nat.
Proof.
  revert i. induction calls as [|x calls IH]; intros [|i] Hi; cbn in *; try done.
  - injection Hi as ->. lia.
  - rewrite <- !Nat.add_assoc. f_equal. exact (IH i Hi).
Qed.

Lemma entries_le calls : (entries calls <= length calls)%nat.
Proof. induction calls as [|c calls IH]; cbn; [lia|]. unfold entries in IH. destruct (bc_pc c); cbn; lia. Qed.

Lemma ranks_wake identity calls : ranks (notify_all identity calls) = ranks calls.
Proof.
  unfold ranks, notify_all. induction calls as [|c calls IH]; cbn; [done|]. rewrite IH. f_equal.
  unfold wake. destruct (bc_pc c) eqn:Hc; rewrite ?Hc; try done. case_bool_decide; cbn; rewrite ?Hc; done.
Qed.

Lemma raised_rank exc : (rank (raised exc) <= 2)%nat.
Proof. unfold raised. destruct (is_exception exc); cbn; lia. Qed.

Lemma move_rank a c st pc st' n :
  move a c st = Some (pc, st', n) ->
  (rank pc < rank (bc_pc c))%nat \/ (bc_pc c = AtEntry /\ pc = Waiting /\ n = false).
Proof.
  unfold move. destruct (bc_pc c) eqn:Hpc; destruct a; intros Hm; try discriminate Hm.
  - destruct (enter c st) as [pc' st1] eqn:He. injection Hm as <- _ <-.
    destruct (enter_cases _ _ _ _ He) as [(_ & -> & _)|(_ & [[-> _]|[[e ->]|(_ & _ & r & _ & ->)]])]; cbn; auto; left; lia.
  - injection Hm as <- _ _. left. destruct (migrated_cases c r) as [(m & -> & _)|[exc ->]]; cbn; [lia|].
    pose proof (raised_rank exc). lia.
  - injection Hm as <- _ _. left. unfold reconciled.
    destruct r as [rec|e]; [destruct (proves _ _ _); [cbn; lia|]|]; (eapply Nat.le_lt_trans; [apply raised_rank|cbn; lia]).
  - injection Hm as <- _ _. left. cbn. lia.
  - injection Hm as <- _ _. left. cbn. lia.
  - injection Hm as <- _ _. left. cbn. lia.
Qed.

Lemma call_step_move w w' a i :
  mover a = Some i -> do_action a w = Some w' -> move_call a i w = Some w'.
Proof. destruct a; cbn; intros [= <-]; done. Qed.

Lemma call_step_measure w w' : call_step w w' -> (measure w' < measure w)%nat.
Proof.
  intros (a & i & Hi & Ha). apply (call_step_move _ _ _ _ Hi) in Ha. unfold move_call in Ha.
  destruct (bw_calls w !! i) as [c|] eqn:Hc; [|done]. cbn in Ha.
  destruct (bw_states w !! bc_identity c) as [st|]; [|done]. cbn in Ha.
  destruct (move a c st) as [[[pc st'] n]|] eqn:Hm; [|done]. injection Ha as <-.
  pose proof (sum_insert (fun c => rank (bc_pc c)) _ i c (at_pc pc c) Hc) as Hr.
  pose proof (sum_insert (fun c => entering (bc_pc c)) _ i c (at_pc pc c) Hc) as He.
  fold (ranks (bw_calls w)) in Hr. fold (ranks (<[i:=at_pc pc c]> (bw_calls w))) in Hr.
  fold (entries (bw_calls w)) in He. fold (entries (<[i:=at_pc pc c]> (bw_calls w))) in He. cbn [bc_pc at_pc] in Hr, He.
  unfold measure. cbn [bw_calls].
  assert (length (if n then notify_all (bc_identity c) (<[i:=at_pc pc c]> (bw_calls w)) else <[i:=at_pc pc c]> (bw_calls w))
          = length (bw_calls w)) as Hl by (destruct n; unfold notify_all; by rewrite ?length_fmap, length_insert).
  assert (ranks (if n then notify_all (bc_identity c) (<[i:=at_pc pc c]> (bw_calls w)) else <[i:=at_pc pc c]> (bw_calls w))
          = ranks (<[i:=at_pc pc c]> (bw_calls w))) as Hrk by (destruct n; [apply ranks_wake|done]).
  rewrite Hl, Hrk. destruct (move_rank _ _ _ _ _ _ Hm) as [Hlt|(Hp & -> & ->)].
  - pose proof (entries_le (if n then notify_all (bc_identity c) (<[i:=at_pc pc c]> (bw_calls w)) else <[i:=at_pc pc c]> (bw_calls w))) as Hle.
    rewrite Hl in Hle. nia.
  - rewrite Hp in *. cbn in *. nia.
Qed.

Lemma call_step_boot w w' : call_step w w' -> boot_step w w'.
Proof. intros (a & i & _ & Ha). by exists a. Qed.

(** A call that has not returned can step, or waits. *)
Lemma call_enabled w i c :
  served w -> bw_calls w !! i = Some c -> bc_pc c <> Waiting -> (forall r, bc_pc c <> Returned r) -> exists w', call_step w w'.
Proof.
  intros Hw Hi Hnw Hnr. destruct (sv_state w Hw i c Hi) as [st Hst].
  set (a := match bc_pc c with
            | Migrating => Migrated i (raise ValueError_ "x")
            | Reconciling _ => Reconciled i (raise ValueError_ "x")
            | Publishing _ => Publish i
            | Failing _ => PublishFailure i
            | Unwinding _ => Finally i
            | _ => Enter i
            end).
  assert (mover a = Some i) as Ha by (subst a; by destruct (bc_pc c)).
  assert (is_Some (move a c st)) as [[[pc st'] n] Hm].
  { subst a. unfold move. destruct (bc_pc c) as [| | |m|rep|e|e|r] eqn:Hpc.
    1: destruct (enter c st) as [pc1 st1]; by exists (pc1, st1, false).
    all: first [by destruct Hnw|by destruct (Hnr r)|apply (mk_is_Some _ _ eq_refl)]. }
  assert (exists w', move_call a i w = Some w') as [w' Hw'].
  { unfold move_call. rewrite Hi. cbn. rewrite Hst. cbn. rewrite Hm. by eexists. }
  exists w', a, i. split; [done|]. subst a. by destruct (bc_pc c); cbn in *.
Qed.

(** C40: no call of [initialize] waits for ever, in any interleaving of calls and
    resets.  From every reachable state the calls under way cannot step for
    ever, whatever the runners return; and when none of them can step any more,
    every call has returned or raised. *)
Theorem boot_calls_end w :
  rtc boot_step boot_init w ->
  Acc (flip call_step) w
  /\ forall w', rtc call_step w w' -> (forall w'', ~ call_step w' w'') ->
     Forall (fun c => exists r, bc_pc c = Returned r) (bw_calls w').
Proof.
  intros Hw. split.
  - remember (measure w) as n eqn:Hn. assert (measure w <= n)%nat as Hle by lia. clear Hn Hw.
    revert w Hle. induction n as [|n IH]; intros w Hle; constructor; intros w' Hs%call_step_measure; [lia|].
    apply IH. lia.
  - intros w' Hr Hstuck. assert (served w') as Hs.
    { apply reachable_served. transitivity w; [done|]. eapply rtc_subrel; [|done]. apply call_step_boot. }
    apply Forall_lookup. intros i c Hi.
    assert (forall j d, bw_calls w' !! j = Some d -> bc_pc d = Waiting \/ exists r, bc_pc d = Returned r) as Hall.
    { intros j d Hj. destruct (bc_pc d) eqn:Hpc; eauto.
      all: destruct (call_enabled w' j d) as [w'' H]; [done|done|congruence|congruence|by destruct (Hstuck w'')]. }
    destruct (Hall i c Hi) as [Hpc|]; [|done]. destruct (sv_state w' Hs i c Hi) as [st Hst].
    destruct (sv_wait w' Hs i c st Hi Hst Hpc) as [Hrun _].
    destruct (sv_run w' Hs _ st Hst Hrun) as (j & d & Hj & _ & Hd). unfold running in Hd.
    destruct (Hall j d Hj) as [E|[r E]]; by rewrite E in Hd.
Qed.

(** ** With orderly resets *)

Record orderly_inv (w : boot_world) : Prop := {
  oi_served : served w;
  oi_call : forall i c st, bw_calls w !! i = Some c -> bw_states w !! bc_identity c = Some st -> call_ok c st;
  oi_state : forall identity st, bw_states w !! identity = Some st -> state_ok identity st;
  oi_one : forall i j c d, bw_calls w !! i = Some c -> bw_calls w !! j = Some d ->
    bc_identity c = bc_identity d -> running c = true -> running d = true -> i = j
}.

Lemma call_ok_running c st : call_ok c st -> running c = true -> runs c st.
Proof.
  unfold call_ok, running. destruct (bc_pc c) as [| | |m|rep|e|e|[]] eqn:Hpc; try done; try (by intros [? _] _).
  by destruct (is_exception e).
Qed.

(** Another call of the identity, when the attempt begins or ends. *)
Lemma call_ok_new c st st' : bs_status st = BOOT_NEW -> call_ok c st -> call_ok c st'.
Proof.
  unfold call_ok, runs. intros Hs. destruct (bc_pc c) as [| | |m|rep|e|e|[]]; rewrite ?Hs; try done;
    try (by intros [[? _] _]); try (by intros [? _]). destruct (is_exception e); [done|by intros [? _]].
Qed.

Lemma call_ok_end c st st' :
  bs_status st = BOOT_RUNNING -> running c = false -> call_ok c st -> call_ok (wake (bc_identity c) c) st'.
Proof.
  unfold call_ok, running, runs, wake. intros Hs. destruct (bc_pc c) as [| | |m|rep|e|e|[]] eqn:Hpc; rewrite ?Hpc, ?Hs; try done.
  - by rewrite bool_decide_eq_true_2.
  - destruct (is_exception e); done.
  - by intros _ [? _].
Qed.

Lemma state_ok_running identity st : bs_status st = BOOT_RUNNING -> state_ok identity st.
Proof. intros Hs Hr. congruence. Qed.

Lemma answers_same c d report :
  bc_identity d = bc_identity c -> bc_expected d = bc_expected c -> bc_plan_digest d = bc_plan_digest c ->
  answers c report -> answers d report.
Proof. intros H1 H2 H3 [???]. split; congruence. Qed.

Lemma same_plan c d st : other_plan c st = false -> other_plan d st = false ->
  bc_expected d = bc_expected c /\ bc_plan_digest d = bc_plan_digest c.
Proof. rewrite !other_plan_false. intros [? ?] [? ?]. split; congruence. Qed.

Lemma after_other (n : bool) identity d : bc_identity d <> identity -> (if n then wake identity else id) d = d.
Proof. intros Hne. destruct n; [|done]. unfold wake. destruct (bc_pc d); try done. by rewrite bool_decide_eq_false_2. Qed.

Lemma orderly_moved w w' a i c st pc st' n : orderly_inv w -> moved w w' a i c st pc st' n -> orderly_inv w'.
Proof.
  intros Hinv Hm. pose proof (served_moved _ _ _ _ _ _ _ _ _ (oi_served _ Hinv) Hm) as Hserved.
  destruct Hinv as [Hsv Hcall Hstate Hone]. pose proof (mv_states _ _ _ _ _ _ _ _ _ Hm) as Hs'.
  pose proof (mv_call _ _ _ _ _ _ _ _ _ Hm) as Hc. pose proof (mv_state _ _ _ _ _ _ _ _ _ Hm) as Hs.
  pose proof (move_cases _ _ _ _ _ _ (Hcall i c st Hc Hs) (Hstate _ _ Hs) (mv_move _ _ _ _ _ _ _ _ _ Hm)) as Hcases.
  split; [done| | |].
  - intros j d' st1 Hj. rewrite Hs'. destruct (moved_call _ _ _ _ _ _ _ _ _ _ _ Hm Hj) as [[-> ->]|(Hne & d & Hd & ->)].
    + cbn [bc_identity at_pc]. rewrite lookup_insert_eq. intros [= <-].
      destruct Hcases as [(-> & _ & ? & _)|[(_ & _ & _ & ? & _)|(_ & _ & _ & _ & _ & _ & ? & _)]]; done.
    + rewrite after_identity, lookup_insert_Some. intros [[Hid <-]|[Hid Hst1]];
        [|rewrite after_other by done; by eapply Hcall].
      rewrite Hid in Hs. pose proof (Hcall j d st Hd Hs) as Hok.
      destruct Hcases as [(-> & -> & _)|[(Hnew & -> & _)|(Hrun & [Hr _] & -> & _)]]; [done|by eapply call_ok_new|].
      rewrite Hid. eapply call_ok_end; [done| |done]. destruct (running d) eqn:Hrd; [|done].
      by destruct (Hne (Hone j i d c Hd Hc (eq_sym Hid) Hrd Hrun)).
  - intros identity st1. rewrite Hs', lookup_insert_Some. intros [[<- <-]|[_ Hst1]]; [|by eapply Hstate].
    destruct Hcases as [(-> & _)|[(_ & _ & Hr & _)|(_ & [_ Ho] & _ & _ & He & Hp & _ & _ & Hready)]];
      [by eapply Hstate|by apply state_ok_running|].
    intros Hrd. destruct (Hready Hrd) as (report & Hrep & Han). exists report. split; [done|].
    intros d Hid Hod. assert (other_plan c st' = false) as Hoc.
    { apply other_plan_false. rewrite He, Hp. by apply other_plan_false. }
    destruct (same_plan c d st' Hoc Hod). by eapply answers_same.
  - assert (forall j d, j <> i -> bw_calls w !! j = Some d -> bc_identity d = bc_identity c -> running d = true ->
      running (at_pc pc c) = true -> False) as Hex.
    { intros j d Hne Hd Hid Hrd Hrc.
      destruct Hcases as [(_ & _ & _ & Hrun)|[(Hnew & _)|(_ & _ & _ & _ & _ & _ & _ & Hnr & _)]]; [| |congruence].
      - by destruct (Hne (Hone j i d c Hd Hc Hid Hrd (Hrun Hrc))).
      - rewrite <- Hid in Hs. destruct (call_ok_running d st (Hcall j d st Hd Hs) Hrd) as [? _]. congruence. }
    intros j k d1' d2' Hj Hk.
    destruct (moved_call _ _ _ _ _ _ _ _ _ _ _ Hm Hj) as [[-> ->]|(Hne1 & d1 & Hd1 & ->)];
      destruct (moved_call _ _ _ _ _ _ _ _ _ _ _ Hm Hk) as [[-> ->]|(Hne2 & d2 & Hd2 & ->)];
      rewrite ?after_identity, ?after_running; intros Hid Hr1 Hr2.
    + done.
    + by destruct (Hex k d2).
    + by destruct (Hex j d1).
    + by eapply Hone.
Qed.

Lemma orderly_step_inv w w' : orderly_inv w -> orderly_step w w' -> orderly_inv w'.
Proof.
  intros Hinv (a & Ho & Ha). assert (served w') as Hsv by (eapply served_step; [apply Hinv|by exists a]).
  destruct (do_action_stepped _ _ _ Ha) as [i c st pc st' n w' _ Hm|identity states calls _ -> Hcalls|identity Hreset|];
    [by eapply orderly_moved| | |done]; destruct Hinv as [Hserved Hcall Hstate Hone].
  - assert (forall c, c ∈ calls -> bc_pc c = AtEntry) as Hnew.
    { intros c Hc. destruct Hcalls as [->|(c' & -> & ? & ?)]; [by apply elem_of_nil in Hc|].
      by apply list_elem_of_singleton in Hc as ->. }
    split; [done| | |]; cbn.
    + intros i c st [Hi|Hc]%lookup_snoc_call; [|unfold call_ok; by rewrite (Hnew c Hc)].
      rewrite state_for_lookup. destruct (sv_state w Hserved i c Hi) as [st1 Hst1]. rewrite Hst1. intros [= <-].
      by eapply Hcall.
    + intros id st. rewrite state_for_lookup. destruct (bw_states w !! id) as [st1|] eqn:Hid.
      * intros [= <-]. by eapply Hstate.
      * case_decide; [|done]. by intros [= <-].
    + intros i j c d [Hi|Hi]%lookup_snoc_call [Hj|Hj]%lookup_snoc_call; [by apply Hone| | |]; unfold running;
        by rewrite ?(Hnew _ Hi), ?(Hnew _ Hj).
  - subst a. cbn in Ho.
    assert (forall i c st, bw_calls w !! i = Some c -> bw_states w !! bc_identity c = Some st ->
      bc_identity c = identity -> bs_status st = BOOT_FAILED -> call_ok c new_state) as Hfailed.
    { intros i c st Hi Hst Hid Hf. pose proof (Hcall i c st Hi Hst) as Hok.
      assert (unwinding c = false) as Hu.
      { rewrite forallb_forall in Ho. specialize (Ho c). rewrite bool_decide_eq_true_2 in Ho by done.
        apply negb_true_iff, Ho. apply list_elem_of_In. by eapply list_elem_of_lookup_2. }
      unfold call_ok, unwinding, runs in *. destruct (bc_pc c) as [| | |m|rep|e|e|[]]; rewrite ?Hf in Hok; try done;
        try (by destruct Hok); by destruct Hok as [[? _] _]. }
    split; [done| | |done]; cbn.
    + intros i c st Hi. destruct (sv_state w Hserved i c Hi) as [st1 Hst1].
      destruct (decide (bc_identity c = identity)) as [Hid|Hne].
      * rewrite Hid, lookup_alter_eq, state_for_lookup, <- Hid, Hst1. intros [= <-].
        destruct (reset_cases st1) as [->|[Hf ->]]; [by eapply Hcall|by eapply Hfailed].
      * rewrite lookup_alter_ne by done. rewrite state_for_lookup, Hst1. intros [= <-]. by eapply Hcall.
    + intros id st Hs. destruct (decide (id = identity)) as [->|Hne].
      * rewrite lookup_alter_eq, state_for_lookup in Hs. destruct (bw_states w !! identity) as [st1|] eqn:Hst1.
        -- injection Hs as <-. destruct (reset_cases st1) as [->|[_ ->]]; [by eapply Hstate|done].
        -- rewrite decide_True in Hs by done. by injection Hs as <-.
      * rewrite lookup_alter_ne in Hs by done. rewrite state_for_lookup in Hs.
        destruct (bw_states w !! id) eqn:Hst1; [injection Hs as <-; by eapply Hstate|]. by rewrite decide_False in Hs by done.
Qed.

Lemma orderly_reachable w : rtc orderly_step boot_init w -> orderly_inv w.
Proof.
  intros Hr. assert (forall x, orderly_inv x -> rtc orderly_step x w -> orderly_inv w) as H.
  { clear Hr. intros x Hx Hr. induction Hr as [|x y z Hxy Hyz IH]; [done|]. apply IH. by eapply orderly_step_inv. }
  apply (H boot_init); [|done]. split; [apply served_init|done..].
Qed.

(** A published report stays. *)
Lemma ready_final w w' identity st :
  orderly_inv w -> boot_step w w' -> bw_states w !! identity = Some st -> bs_status st = BOOT_READY ->
  bw_states w' !! identity = Some st.
Proof.
  intros Hinv [a Ha] Hst Hr.
  destruct (do_action_stepped _ _ _ Ha) as [i c st0 pc st' n w' _ Hm|id states calls _ -> _|id _|]; cbn; [| | |done].
  - rewrite (mv_states _ _ _ _ _ _ _ _ _ Hm), lookup_insert. case_decide as Hid; [|done].
    pose proof (mv_state _ _ _ _ _ _ _ _ _ Hm) as Hs. rewrite Hid, Hst in Hs. injection Hs as <-.
    pose proof (oi_call _ Hinv _ _ st (mv_call _ _ _ _ _ _ _ _ _ Hm) ltac:(by rewrite Hid)) as Hok.
    pose proof (oi_state _ Hinv _ _ Hst) as Hstate. rewrite <- Hid in Hstate.
    destruct (move_cases _ _ _ _ _ _ Hok Hstate (mv_move _ _ _ _ _ _ _ _ _ Hm)) as [(-> & _)|[(? & _)|(_ & [? _] & _)]];
      [done|congruence|congruence].
  - by rewrite state_for_lookup, Hst.
  - destruct (decide (identity = id)) as [->|Hne].
    + rewrite lookup_alter_eq, state_for_lookup, Hst. cbn. unfold reset_failed. by rewrite Hr.
    + rewrite lookup_alter_ne by done. by rewrite state_for_lookup, Hst.
Qed.

(** C10: with orderly resets the boot of an identity is exclusive and final.  At
    most one call runs its attempt; a call that returns has the report its
    state publishes, for the revision and the plan the call asked for, with a
    migration to that revision and a durably complete reconciliation of that
    plan; and a published report is never replaced or withdrawn. *)
Theorem boot_exclusive w :
  rtc orderly_step boot_init w ->
  (forall i j c d, bw_calls w !! i = Some c -> bw_calls w !! j = Some d -> bc_identity c = bc_identity d ->
     running c = true -> running d = true -> i = j)
  /\ (forall i c report, bw_calls w !! i = Some c -> bc_pc c = Returned (Ok report) ->
        answers c report /\ exists st, bw_states w !! bc_identity c = Some st
                              /\ bs_status st = BOOT_READY /\ bs_report st = Some report)
  /\ (forall identity st w', bw_states w !! identity = Some st -> bs_status st = BOOT_READY ->
        orderly_step w w' -> bw_states w' !! identity = Some st).
Proof.
  intros Hr%orderly_reachable. split_and!.
  - apply Hr.
  - intros i c report Hi Hpc. destruct (sv_state w (oi_served _ Hr) i c Hi) as [st Hst].
    pose proof (oi_call _ Hr i c st Hi Hst) as Hok. unfold call_ok in Hok. rewrite Hpc in Hok.
    destruct Hok as (? & ? & _ & ?). split; [done|]. by exists st.
  - intros identity st w' Hst Hs (a & _ & Ha). eapply ready_final; [done|by exists a|done|done].
Qed.

(** ** Runs *)

Lemma do_actions_steps l w w' : do_actions l w = Some w' -> rtc boot_step w w'.
Proof.
  revert w. induction l as [|a l IH]; intros w; cbn; [intros [= <-]; done|].
  destruct (do_action a w) as [w1|] eqn:Ha; [|done]. cbn. intros Hl. eapply rtc_l; [by exists a|by apply IH].
Qed.

Fixpoint do_orderly (l : list boot_action) (w : boot_world) : option boot_world :=
  match l with
  | [] => Some w
  | a :: l' => if orderly a w then w' ← do_action a w; do_orderly l' w' else None
  end.
Lemma do_orderly_steps l w w' : do_orderly l w = Some w' -> rtc orderly_step w w'.
Proof.
  revert w. induction l as [|a l IH]; intros w; cbn; [intros [= <-]; done|].
  destruct (orderly a w) eqn:Ho; [|done]. destruct (do_action a w) as [w1|] eqn:Ha; [|done]. cbn.
  intros Hl. eapply rtc_l; [by exists a|by apply IH].
Qed.

Definition boot_digest (c : N) : pystr := replicate 64 c.
Definition boot_migration (revision : string) : MigrationReport :=
  {| mr_source_revision := None; mr_target_revision := u revision; mr_applied_steps := [u "base"];
     mr_already_current := false; mr_migration_digest := boot_digest 97 |}.
Definition boot_reconciliation (revision : string) (digest : pystr) : ReconciliationReport :=
  {| rr_schema_revision := u revision; rr_plan_digest := digest; rr_advisory_lock := RECONCILIATION_ADVISORY_LOCK;
     rr_hooks := [{| hr_hook := HookId (u "profiles") (u "v1"); hr_attempt := 1; hr_already_complete := false;
                     hr_result_digest := boot_digest 98 |}];
     rr_durably_complete := true |}.
Definition boot_begin (digest : N) : boot_action := Begin (u "plane") (u "089.014") (Ok (boot_digest digest)).
Definition boot_attempt (i : nat) (digest : N) : list boot_action :=
  [Migrated i (Ok (boot_migration "089.014"));
   Reconciled i (Ok (boot_reconciliation "089.014" (boot_digest digest))); Publish i].

(** A second call waits for the first and shares its report. *)
Definition boot_waiting : list boot_action := [boot_begin 99; boot_begin 99; Enter 0; Enter 1].
Definition boot_shared : list boot_action := boot_waiting ++ boot_attempt 0 99 ++ [Enter 1].
Definition boot_after (l : list boot_action) : boot_world :=
  match do_actions l boot_init with Some w => w | None => boot_init end.

Lemma boot_exclusive_witness :
  exists report, bc_pc <$> bw_calls (boot_after boot_shared) = [Returned (Ok report); Returned (Ok report)]
    /\ answers (Call (u "plane") (u "089.014") (boot_digest 99) (Returned (Ok report))) report.
Proof.
  assert (rtc orderly_step boot_init (boot_after boot_shared)) as Hr
    by (apply (do_orderly_steps boot_shared); vm_compute; reflexivity).
  destruct (boot_exclusive _ Hr) as (_ & Hret & _).
  eexists. split; [vm_compute; reflexivity|].
  destruct (Hret 0%nat _ _ ltac:(vm_compute; reflexivity) eq_refl) as [Ha _]. exact Ha.
Defined.

Lemma boot_calls_end_witness :
  bc_pc <$> bw_calls (boot_after boot_waiting) = [Migrating; Waiting]
  /\ Acc (flip call_step) (boot_after boot_waiting).
Proof.
  split; [vm_compute; reflexivity|].
  apply (boot_calls_end (boot_after boot_waiting)). apply (do_actions_steps boot_waiting). vm_compute. reflexivity.
Defined.

(** ** A late finally *)

(** The first call has published its failure and not yet run its [finally]
    block; the identity is reset and a second call begins.  The late block sees
    [RUNNING] and fails the second attempt, which goes on; after another reset
    a third call runs beside it. *)
Definition race_two : list boot_action :=
  [boot_begin 97; Enter 0; Migrated 0 (raise ValueError_ "migration failed"); PublishFailure 0; Reset (u "plane");
   boot_begin 98; Enter 1; Finally 0; Reset (u "plane"); boot_begin 99; Enter 2].
(** The second call publishes, and a fourth call for the plan of the third gets
    the report of the second. *)
Definition race_report : list boot_action := race_two ++ boot_attempt 1 98 ++ [boot_begin 99; Enter 3].

(** Without that restriction exclusion fails: a reset between the publication
    of a failure and the [finally] block of the failed call leads to two
    attempts of one identity at once, and to a caller whose report is for
    another plan. *)
Theorem boot_reset_race :
  (exists w, rtc boot_step boot_init w
     /\ (running <$> bw_calls w = [false; true; true]) /\ (bc_identity <$> bw_calls w = replicate 3 (u "plane")))
  /\ (exists w c report, rtc boot_step boot_init w /\ bw_calls w !! 3%nat = Some c
        /\ bc_pc c = Returned (Ok report) /\ ~ answers c report).
Proof.
  split.
  - exists (boot_after race_two). split; [apply (do_actions_steps race_two)|split]; vm_compute; reflexivity.
  - eexists (boot_after race_report), _, _.
    split; [apply (do_actions_steps race_report); vm_compute; reflexivity|].
    split; [vm_compute; reflexivity|]. split; [reflexivity|]. intros [_ _ _ Hp]. vm_compute in Hp. discriminate Hp.
Qed.
