(* ===== verification/AuditChain.v ===== *)
(** * The audit chain (src/src/astralplane/repositories/audit.py)

    Append-only audit events, each authenticated together with the digest of
    the event before it.  The canonical bytes of an event, the table it is
    stored in with the conversions PostgreSQL makes (UUID, JSONB), and every
    method of [AuditRepository].  The authenticator is a parameter.  Reading a
    [datetime] outside the years 1 to 9999 in the session's time zone is not
    modelled. *)

From stdpp Require Import pretty.
From S2P Require Import Prelude Regex Errors Domain Sha256 Json IsoTime JsonDecode Pg.

Definition GENESIS_DIGEST : list N := replicate 32 0%N.

(** The result of [authenticate(key_id, payload)], or what it raises. *)
Definition AuditAuthenticator : Type := pystr -> list N -> result (list N).

(** ** Validators *)

Definition _required (name : string) (value : pystr) (maximum : nat) : result unit :=
  raise_if (bool_decide (py_strip value = []) || (maximum <? length value)%nat)
    (Exn ValueError_ (name ++ " must be a non-empty string of at most " ++ pretty maximum ++ " characters")).

Definition _aware (name : string) (value : datetime) : result unit :=
  match value with
  | Naive _ => raise ValueError_ (name ++ " must be timezone-aware")
  | Aware _ _ => Ok ()
  end.

Definition _digest_bytes (name : string) (value : list N) : result unit :=
  raise_unless (length value =? 32)%nat (Exn ValueError_ (name ++ " must contain 32 bytes")).

Definition _bounded_filters (name : string) (values : option (list pystr)) : result (list pystr) :=
  match values with
  | None => Ok []
  | Some values =>
      raise_if (32 <? length values)%nat (Exn ValueError_ (name ++ " must contain at most 32 values")) ;;
      check_each (fun value => _required name value 128) values ;;
      Ok values
  end.

Definition _required_keyword (value : pystr) : result pystr :=
  _required "keyword" value 256 ;; Ok (py_strip value).

(** [value.astimezone(UTC)] of an aware datetime, as an instant. *)
Definition astimezone_utc (value : datetime) : result Z :=
  raise_unless (in_datetime_range (instant value)) (Exn OverflowError_ "date value out of range") ;;
  Ok (instant value).

(** [value.astimezone(UTC).isoformat().replace("+00:00", "Z")] *)
Definition _utc_iso (value : datetime) : result pystr :=
  t ← astimezone_utc value; Ok (iso_text t ++ u "Z").
(** [value.astimezone(UTC).isoformat()] *)
Definition utc_isoformat (value : datetime) : result pystr :=
  t ← astimezone_utc value; Ok (iso_text t ++ u "+00:00").

Definition _authenticate (authenticate : AuditAuthenticator) (key_id : pystr) (payload : list N) : result (list N) :=
  digest ← authenticate key_id payload;
  _digest_bytes "audit authenticator result" digest ;;
  Ok digest.

(** ** Canonical JSON *)

Inductive json_kind : Type := KDict | KList.
Definition kind_name (k : json_kind) : string := match k with KDict => "dict" | KList => "list" end.
Definition has_kind (k : json_kind) (v : json) : bool :=
  match k, v with KDict, JObj _ | KList, JArr _ => true | _, _ => false end.

Fixpoint _normalize_json_value (value : json) : result json :=
  match value with
  | JObj items =>
      items ← map_each (fun '(k, x) => y ← _normalize_json_value x; Ok (k, y)) items; Ok (JObj items)
  | JArr l => l ← map_each _normalize_json_value l; Ok (JArr l)
  | JNull | JStr _ | JBool _ | JInt _ | JFloat _ => Ok value
  | JNonFinite => raise ValueError_ "JSON numbers must be finite"
  | JOther => raise TypeError_ "value is not JSON-compatible"
  end.

(** [except (TypeError, ValueError, OverflowError)] *)
Definition is_json_error (e : exn) : bool :=
  isinstance (exn_cls e) TypeError_ || isinstance (exn_cls e) ValueError_ || isinstance (exn_cls e) OverflowError_.

Section Canonical.
Context `{PyFloat}.

(** A [str] argument is JSON text, anything else the value itself. *)
Definition canonical_json_body (value : json) (expected_type : json_kind) : result pystr :=
  parsed ← match value with JStr text => loads text | _ => Ok value end;
  raise_unless (has_kind expected_type parsed) (Exn TypeError_ "") ;;
  normalized ← _normalize_json_value parsed;
  dumps false normalized.

Definition canonical_json (value : json) (expected_type : json_kind) : result pystr :=
  match canonical_json_body value expected_type with
  | Ok text => Ok text
  | Err e =>
      if is_json_error e then raise ValueError_ ("audit JSON must contain a " ++ kind_name expected_type)
      else Err e
  end.

(** ** Events and records *)

Record AuditEvent : Type := {
  ev_event_id : pystr;
  ev_chain_id : pystr;
  ev_auth_principal : pystr;
  ev_agent_id : option pystr;
  ev_event_class : pystr;
  ev_action_type : pystr;
  ev_description : pystr;
  ev_conversation_id : option pystr;
  ev_correlation_id : pystr;
  ev_outcome : pystr;
  ev_outcome_detail : option pystr;
  ev_inputs_json : pystr;
  ev_outputs_json : pystr;
  ev_artifact_pointers_json : pystr;
  ev_started_at : datetime;
  ev_completed_at : option datetime;
  ev_key_id : pystr;
  ev_schema_version : Z
}.

Definition OUTCOMES : list pystr := [u "in_progress"; u "success"; u "failure"; u "interrupted"].

Definition with_json (e : AuditEvent) (inputs outputs pointers : pystr) : AuditEvent :=
  {| ev_event_id := ev_event_id e; ev_chain_id := ev_chain_id e; ev_auth_principal := ev_auth_principal e;
     ev_agent_id := ev_agent_id e; ev_event_class := ev_event_class e; ev_action_type := ev_action_type e;
     ev_description := ev_description e; ev_conversation_id := ev_conversation_id e;
     ev_correlation_id := ev_correlation_id e; ev_outcome := ev_outcome e;
     ev_outcome_detail := ev_outcome_detail e; ev_inputs_json := inputs; ev_outputs_json := outputs;
     ev_artifact_pointers_json := pointers; ev_started_at := ev_started_at e;
     ev_completed_at := ev_completed_at e; ev_key_id := ev_key_id e; ev_schema_version := ev_schema_version e |}.

Definition event_post_init (e : AuditEvent) : result AuditEvent :=
  check_each (fun '(name, value, maximum) => _required name value maximum)
    [("event_id"%string, ev_event_id e, 128%nat); ("chain_id"%string, ev_chain_id e, 512%nat);
     ("auth_principal"%string, ev_auth_principal e, 512%nat); ("event_class"%string, ev_event_class e, 128%nat);
     ("action_type"%string, ev_action_type e, 128%nat); ("description"%string, ev_description e, 1024%nat);
     ("correlation_id"%string, ev_correlation_id e, 128%nat); ("key_id"%string, ev_key_id e, 128%nat)] ;;
  raise_unless (bool_decide (ev_outcome e ∈ OUTCOMES)) (Exn ValueError_ "audit outcome is not supported") ;;
  raise_unless ((ev_schema_version e =? 1) || (ev_schema_version e =? 2))
    (Exn ValueError_ "schema_version must be 1 or 2") ;;
  _aware "started_at" (ev_started_at e) ;;
  match ev_completed_at e with
  | None => Ok ()
  | Some completed =>
      _aware "completed_at" completed ;;
      raise_if (instant completed <? instant (ev_started_at e))
        (Exn ValueError_ "completed_at cannot precede started_at")
  end ;;
  inputs ← canonical_json (JStr (ev_inputs_json e)) KDict;
  outputs ← canonical_json (JStr (ev_outputs_json e)) KDict;
  pointers ← canonical_json (JStr (ev_artifact_pointers_json e)) KList;
  Ok (with_json e inputs outputs pointers).

(** Dataclass equality: aware datetimes are equal when their instants are. *)
Definition event_key (e : AuditEvent) :=
  ([ev_event_id e; ev_chain_id e; ev_auth_principal e; ev_event_class e; ev_action_type e; ev_description e;
    ev_correlation_id e; ev_outcome e; ev_inputs_json e; ev_outputs_json e; ev_artifact_pointers_json e; ev_key_id e],
   [ev_agent_id e; ev_conversation_id e; ev_outcome_detail e],
   instant (ev_started_at e), instant <$> ev_completed_at e, ev_schema_version e).
Definition event_eqb (e1 e2 : AuditEvent) : bool := bool_decide (event_key e1 = event_key e2).

Record AuditRecord : Type := {
  ar_event : AuditEvent;
  ar_sequence : Z;
  ar_recorded_at : datetime;
  ar_previous_digest : list N;
  ar_entry_digest : list N
}.

Definition record_post_init (r : AuditRecord) : result AuditRecord :=
  raise_if (ar_sequence r <=? 0) (Exn ValueError_ "audit sequence must be positive") ;;
  _aware "recorded_at" (ar_recorded_at r) ;;
  _digest_bytes "previous_digest" (ar_previous_digest r) ;;
  _digest_bytes "entry_digest" (ar_entry_digest r) ;;
  Ok r.

(** ** Canonical bytes *)

Definition opt_str (o : option pystr) : json := match o with None => JNull | Some s => JStr s end.

(** The members both schema versions share. *)
Definition event_members (e : AuditEvent) (version : Z) (inputs outputs pointers : json) (started : pystr)
    (completed : option pystr) : list (pystr * json) :=
  [(u "schema_version", JInt version);
   (u "event_id", JStr (ev_event_id e));
   (u "actor_user_id", JStr (ev_chain_id e));
   (u "auth_principal", JStr (ev_auth_principal e));
   (u "agent_id", opt_str (ev_agent_id e));
   (u "event_class", JStr (ev_event_class e));
   (u "action_type", JStr (ev_action_type e));
   (u "description", JStr (ev_description e));
   (u "conversation_id", opt_str (ev_conversation_id e));
   (u "correlation_id", JStr (ev_correlation_id e));
   (u "outcome", JStr (ev_outcome e));
   (u "outcome_detail", opt_str (ev_outcome_detail e));
   (u "inputs_meta", inputs);
   (u "outputs_meta", outputs);
   (u "artifact_pointers", pointers);
   (u "started_at", JStr started);
   (u "completed_at", opt_str completed)].

(** [None if value is None else f(value)] *)
Definition opt_map {A B} (f : A -> result B) (o : option A) : result (option B) :=
  match o with None => Ok None | Some a => b ← f a; Ok (Some b) end.

Definition _canonical_event_v1 (e : AuditEvent) : result (list N) :=
  inputs ← loads (ev_inputs_json e);
  outputs ← loads (ev_outputs_json e);
  pointers ← loads (ev_artifact_pointers_json e);
  started ← utc_isoformat (ev_started_at e);
  completed ← opt_map utc_isoformat (ev_completed_at e);
  text ← dumps true (JObj (event_members e 1 inputs outputs pointers started completed));
  utf8_encode text.

(** The texts are canonical, so the floats among the values are finite and
    [allow_nan] makes no difference. *)
Definition _canonical_event_v2 (e : AuditEvent) (sequence : Z) : result (list N) :=
  inputs ← loads (ev_inputs_json e);
  outputs ← loads (ev_outputs_json e);
  pointers ← loads (ev_artifact_pointers_json e);
  started ← _utc_iso (ev_started_at e);
  completed ← opt_map _utc_iso (ev_completed_at e);
  text ← dumps false (JObj ((u "chain_sequence", JInt sequence)
                            :: event_members e (ev_schema_version e) inputs outputs pointers started completed));
  utf8_encode text.

Definition canonical_event_bytes (e : AuditEvent) (sequence : Z) : result (list N) :=
  raise_if (sequence <=? 0) (Exn ValueError_ "audit sequence must be positive") ;;
  if ev_schema_version e =? 1 then _canonical_event_v1 e
  else
    raise_unless (ev_schema_version e =? 2) (Exn ValueError_ "schema_version must be 1 or 2") ;;
    _canonical_event_v2 e sequence.

(** ** Verification *)

Record ChainVerification : Type := {
  cv_valid : bool;
  cv_first_invalid_event_id : option pystr;
  cv_reason : option string;
  cv_last_sequence : Z;
  cv_last_digest : list N
}.

(** The digest an event has at its place in the chain. *)
Definition entry_digest (authenticate : AuditAuthenticator) (key_id : pystr) (previous : list N) (e : AuditEvent)
    (sequence : Z) : result (list N) :=
  bytes ← canonical_event_bytes e sequence;
  _authenticate authenticate key_id (previous ++ bytes).

(** What the loop body finds wrong with a record. *)
Definition record_fault (authenticate : AuditAuthenticator) (chain_id : pystr) (expected_sequence : Z)
    (previous_digest : list N) (r : AuditRecord) : result (option string) :=
  if bool_decide (ev_chain_id (ar_event r) <> chain_id) then Ok (Some "wrong_chain"%string)
  else if negb (ar_sequence r =? expected_sequence) then Ok (Some "non_contiguous_sequence"%string)
  else if bool_decide (ar_previous_digest r <> previous_digest) then Ok (Some "previous_digest_mismatch"%string)
  else
    expected_entry ← entry_digest authenticate (ev_key_id (ar_event r)) previous_digest (ar_event r) (ar_sequence r);
    Ok (if bool_decide (ar_entry_digest r <> expected_entry) then Some "entry_digest_mismatch"%string else None).

Fixpoint verify_loop (authenticate : AuditAuthenticator) (chain_id : pystr) (expected_sequence : Z)
    (previous_digest : list N) (records : list AuditRecord) : result ChainVerification :=
  match records with
  | [] =>
      Ok {| cv_valid := true; cv_first_invalid_event_id := None; cv_reason := None;
            cv_last_sequence := expected_sequence - 1; cv_last_digest := previous_digest |}
  | r :: records' =>
      reason ← record_fault authenticate chain_id expected_sequence previous_digest r;
      match reason with
      | Some reason =>
          Ok {| cv_valid := false; cv_first_invalid_event_id := Some (ev_event_id (ar_event r));
                cv_reason := Some reason; cv_last_sequence := expected_sequence - 1;
                cv_last_digest := previous_digest |}
      | None => verify_loop authenticate chain_id (expected_sequence + 1) (ar_entry_digest r) records'
      end
  end.

Definition verify_records (records : list AuditRecord) (chain_id : pystr) (authenticate : AuditAuthenticator)
    (start_sequence : Z) (expected_previous_digest : list N) : result ChainVerification :=
  _digest_bytes "expected_previous_digest" expected_previous_digest ;;
  verify_loop authenticate chain_id start_sequence expected_previous_digest records.
End Canonical.

(** ** Storage *)

(** The order in which JSONB returns the keys of an object is its own. *)
Class PgJsonb : Type := {
  key_order : list (pystr * json) -> list (pystr * json);
  key_order_perm : forall items, key_order items ≡ₚ items
}.

(** The documented input of [UUID]: 32 hexadecimal digits of either case, a
    hyphen allowed after each group of four, braces allowed around them. *)
Definition lower_hex (c : N) : N := if (65 <=? c)%N && (c <=? 70)%N then (c + 32)%N else c.
Fixpoint uuid_digits (n : nat) (s : pystr) : option (pystr * pystr) :=
  match n with
  | O => Some ([], s)
  | S n' =>
      match s with
      | a :: b :: r =>
          if is_some (hex_value a) && is_some (hex_value b) then
            let r := if Nat.odd n && (1 <? n)%nat && is_char 45 r then drop 1 r else r in
            '(ds, r') ← uuid_digits n' r;
            Some (lower_hex a :: lower_hex b :: ds, r')
          else None
      | _ => None
      end
  end.
(** Its output is the standard form. *)
Definition uuid_form (ds : pystr) : pystr :=
  take 8 ds ++ u "-" ++ take 4 (drop 8 ds) ++ u "-" ++ take 4 (drop 12 ds) ++ u "-" ++ take 4 (drop 16 ds)
  ++ u "-" ++ drop 20 ds.
Definition uuid_in (s : pystr) : option pystr :=
  if is_char 123 s then
    match uuid_digits 16 (drop 1 s) with Some (ds, [125%N]) => Some (uuid_form ds) | _ => None end
  else match uuid_digits 16 s with Some (ds, []) => Some (uuid_form ds) | _ => None end.

Definition uuid_param (s : pystr) : result pystr :=
  match uuid_in s with
  | Some id => Ok id
  | None => raise PgInvalidTextRepresentation "invalid input syntax for type uuid"
  end.

(** A JSONB number is a [numeric]: one written with a positive exponent comes
    back as its integer digits, and there is no negative zero. *)
Definition numeric (t : pystr) : json :=
  let '(sign, s1) := scan_sign t in
  match scan_int s1 with
  | None => JFloat t
  | Some (int, s2) =>
      let '(frac, s3) := scan_frac s2 in
      let fraction := drop 1 frac in
      if is_char 101 s3 && is_char 43 (drop 1 s3) then
        let magnitude := Z.of_N (digits_value (int ++ fraction))
                         * 10 ^ (Z.of_N (digits_value (drop 2 s3)) - Z.of_nat (length fraction)) in
        JInt (match sign with [] => magnitude | _ => - magnitude end)
      else if bool_decide (t = u "-0.0") then JFloat (u "0.0")
      else JFloat t
  end.

Definition jsonb_string (s : pystr) : result unit :=
  raise_unless (storable s) (Exn PgInvalidTextRepresentation "unsupported Unicode escape sequence").

Fixpoint jsonb `{PgJsonb} (v : json) : result json :=
  match v with
  | JFloat t => Ok (numeric t)
  | JStr s => jsonb_string s ;; Ok v
  | JArr l => l ← map_each jsonb l; Ok (JArr l)
  | JObj items =>
      items ← map_each (fun '(k, x) => jsonb_string k ;; y ← jsonb x; Ok (k, y)) items;
      Ok (JObj (key_order items))
  | JNull | JBool _ | JInt _ => Ok v
  | JNonFinite | JOther => raise PgInvalidTextRepresentation "invalid input syntax for type json"
  end.

Definition jsonb_param `{PyFloat} `{PgJsonb} (text : pystr) : result json :=
  match loads text with
  | Ok v => jsonb v
  | Err _ => raise PgInvalidTextRepresentation "invalid input syntax for type json"
  end.

(** [audit_events] *)
Record audit_row : Type := {
  au_event_id : pystr;
  au_actor_user_id : pystr;
  au_auth_principal : pystr;
  au_agent_id : option pystr;
  au_event_class : pystr;
  au_action_type : pystr;
  au_description : pystr;
  au_conversation_id : option pystr;
  au_correlation_id : pystr;
  au_outcome : pystr;
  au_outcome_detail : option pystr;
  au_inputs_meta : json;
  au_outputs_meta : json;
  au_artifact_pointers : json;
  au_started_at : Z;
  au_completed_at : option Z;
  au_recorded_at : Z;
  au_chain_sequence : Z;
  au_prev_hash : list N;
  au_entry_hash : list N;
  au_key_id : pystr;
  au_schema_version : Z
}.

(** [audit_retention_anchor] *)
Record anchor_row : Type := {
  an_anchor_id : pystr;
  an_owner_or_chain : pystr;
  an_first_retained_sequence : Z;
  an_previous_entry_digest : list N;
  an_retention_policy_digest : list N;
  an_created_at : Z;
  an_key_id : pystr;
  an_signature_or_mac : list N
}.

(** The audit tables, and [audit.allow_purge] as the transaction sees it. *)
Record audit_db : Type := AuditDb {
  ad_events : list audit_row;
  ad_anchors : list anchor_row;
  ad_allow_purge : bool
}.
Definition set_events t db := AuditDb t (ad_anchors db) (ad_allow_purge db).
Definition set_anchors t db := AuditDb (ad_events db) t (ad_allow_purge db).
Definition set_allow_purge b db := AuditDb (ad_events db) (ad_anchors db) b.

Definition audit_checks (r : audit_row) : bool :=
  bool_decide (au_outcome r ∈ OUTCOMES) && (0 <? au_chain_sequence r)
  && ((length (au_prev_hash r) =? 32)%nat && (length (au_entry_hash r) =? 32)%nat)
  && ((au_schema_version r =? 1) || (au_schema_version r =? 2)).
Definition check_audit_row (r : audit_row) : result unit :=
  raise_unless (is_int8 (au_chain_sequence r)) (Exn PgNumericOutOfRange "bigint out of range") ;;
  raise_unless (audit_checks r) (Exn PgCheckViolation "new row violates check constraint").

(** The primary key, and [uq_audit_events_actor_sequence]. *)
Definition audit_conflict (r r' : audit_row) : bool :=
  bool_decide (au_event_id r = au_event_id r')
  || bool_decide ((au_actor_user_id r, au_chain_sequence r) = (au_actor_user_id r', au_chain_sequence r')).

(** The trigger [audit_events_protect] fires for each row of a [DELETE]. *)
Definition delete_events (p : audit_row -> bool) (db : audit_db) : result (list audit_row * audit_db) :=
  raise_if (exists_row p (ad_events db) && negb (ad_allow_purge db))
    (Exn PgInsufficientPrivilege "audit_events is append-only") ;;
  Ok (rows_where p (ad_events db), set_events (rows_where (fun r => negb (p r)) (ad_events db)) db).

(** [SET LOCAL audit.allow_purge] ends with the transaction. *)
Definition audit_transaction {A} (body : SM audit_db A) (db : audit_db) : result A * audit_db :=
  let '(r, db') := transaction body (set_allow_purge false db) in (r, set_allow_purge false db').

(** [value or default] on a column: false values are replaced. *)
Definition falsy (v : json) : bool :=
  match v with
  | JNull | JBool false | JStr [] | JArr [] | JObj [] => true
  | JInt z => z =? 0
  | JFloat t => bool_decide (t = u "0.0" \/ t = u "-0.0")
  | _ => false
  end.
Definition json_or (v default : json) : json := if falsy v then default else v.

Section Repository.
Context `{PyFloat} `{PgEnv} `{PgJsonb}.

Definition row_event (r : audit_row) : result AuditEvent :=
  inputs ← canonical_json (json_or (au_inputs_meta r) (JObj [])) KDict;
  outputs ← canonical_json (json_or (au_outputs_meta r) (JObj [])) KDict;
  pointers ← canonical_json (json_or (au_artifact_pointers r) (JArr [])) KList;
  event_post_init
    {| ev_event_id := au_event_id r; ev_chain_id := au_actor_user_id r; ev_auth_principal := au_auth_principal r;
       ev_agent_id := au_agent_id r; ev_event_class := au_event_class r; ev_action_type := au_action_type r;
       ev_description := au_description r; ev_conversation_id := au_conversation_id r;
       ev_correlation_id := au_correlation_id r; ev_outcome := au_outcome r;
       ev_outcome_detail := au_outcome_detail r; ev_inputs_json := inputs; ev_outputs_json := outputs;
       ev_artifact_pointers_json := pointers; ev_started_at := from_timestamptz (au_started_at r);
       ev_completed_at := from_timestamptz <$> au_completed_at r; ev_key_id := au_key_id r;
       ev_schema_version := au_schema_version r |}.

Definition _record (r : audit_row) : result AuditRecord :=
  event ← row_event r;
  record_post_init
    {| ar_event := event; ar_sequence := au_chain_sequence r; ar_recorded_at := from_timestamptz (au_recorded_at r);
       ar_previous_digest := au_prev_hash r; ar_entry_digest := au_entry_hash r |}.

(** ** Statements *)

Definition of_chain (chain_id : pystr) (r : audit_row) : bool := bool_decide (au_actor_user_id r = chain_id).

(** [pg_advisory_xact_lock(hashtext('audit_events:...'))] *)
Definition lock_chain (chain_id : pystr) (db : audit_db) : result (unit * audit_db) :=
  text_params [chain_id] ;; Ok ((), db).

Definition select_event (chain_id event_id : pystr) (db : audit_db) : result (option audit_row * audit_db) :=
  text_params [chain_id; event_id] ;;
  id ← uuid_param event_id;
  Ok (select_one "audit_event" (fun r => of_chain chain_id r && bool_decide (au_event_id r = id)) (ad_events db), db).

(** [ORDER BY chain_sequence DESC LIMIT 1] *)
Definition select_last (chain_id : pystr) (db : audit_db) : result (option audit_row * audit_db) :=
  text_params [chain_id] ;;
  Ok (head (select_ordered "audit_last" (fun a b => au_chain_sequence b <=? au_chain_sequence a)
              (of_chain chain_id) (ad_events db)), db).

(** [ORDER BY chain_sequence, event_id] *)
Definition sequence_le : audit_row -> audit_row -> bool :=
  time_key_leb au_chain_sequence (fun a b => str_leb (au_event_id a) (au_event_id b)).
Definition select_chain (stmt : string) (chain_id : pystr) (p : audit_row -> bool) (db : audit_db)
  : result (list audit_row * audit_db) :=
  text_params [chain_id] ;;
  Ok (select_ordered stmt sequence_le (fun r => of_chain chain_id r && p r) (ad_events db), db).

(** The stored row of an event; the columns are converted on the way. *)
Definition event_row (e : AuditEvent) (inputs outputs pointers : pystr) (sequence : Z) (previous entry : list N)
    (recorded_at : Z) : result audit_row :=
  event_id ← uuid_param (ev_event_id e);
  correlation_id ← uuid_param (ev_correlation_id e);
  inputs ← jsonb_param inputs;
  outputs ← jsonb_param outputs;
  pointers ← jsonb_param pointers;
  Ok {| au_event_id := event_id; au_actor_user_id := ev_chain_id e; au_auth_principal := ev_auth_principal e;
        au_agent_id := ev_agent_id e; au_event_class := ev_event_class e; au_action_type := ev_action_type e;
        au_description := ev_description e; au_conversation_id := ev_conversation_id e;
        au_correlation_id := correlation_id; au_outcome := ev_outcome e; au_outcome_detail := ev_outcome_detail e;
        au_inputs_meta := inputs; au_outputs_meta := outputs; au_artifact_pointers := pointers;
        au_started_at := instant (ev_started_at e); au_completed_at := instant <$> ev_completed_at e;
        au_recorded_at := recorded_at; au_chain_sequence := sequence; au_prev_hash := previous;
        au_entry_hash := entry; au_key_id := ev_key_id e; au_schema_version := ev_schema_version e |}.

Definition event_texts (e : AuditEvent) : list pystr :=
  [ev_event_id e; ev_chain_id e; ev_auth_principal e; ev_event_class e; ev_action_type e; ev_description e;
   ev_correlation_id e; ev_outcome e; ev_key_id e]
  ++ omap id [ev_agent_id e; ev_conversation_id e; ev_outcome_detail e].

(** [INSERT INTO audit_events ... RETURNING *] *)
Definition insert_event (e : AuditEvent) (inputs outputs pointers : pystr) (sequence : Z) (previous entry : list N)
    (db : audit_db) : result (option audit_row * audit_db) :=
  text_params (event_texts e ++ [inputs; outputs; pointers]) ;;
  r ← event_row e inputs outputs pointers sequence previous entry (clock_timestamp (length (ad_events db)));
  t ← insert_row check_audit_row audit_conflict (fun _ => Ok ()) r (ad_events db);
  Ok (Some r, set_events t db).

(** ** AuditRepository *)

Definition append (event : AuditEvent) (authenticate : AuditAuthenticator) : SM audit_db AuditRecord :=
  exec (lock_chain (ev_chain_id event)) ;;
  existing ← exec (select_event (ev_chain_id event) (ev_event_id event));
  match existing with
  | Some row =>
      record ← lift (_record row);
      expected ← lift (entry_digest authenticate (ev_key_id (ar_event record)) (ar_previous_digest record) event
                         (ar_sequence record));
      lift (raise_if (negb (event_eqb (ar_event record) event) || bool_decide (ar_entry_digest record <> expected))
        (Exn PlaneError "audit event identity has conflicting semantics")) ;;
      mret record
  | None =>
      previous ← exec (select_last (ev_chain_id event));
      let sequence := match previous with None => 1 | Some p => au_chain_sequence p + 1 end in
      let previous_digest := match previous with None => GENESIS_DIGEST | Some p => au_entry_hash p end in
      entry ← lift (entry_digest authenticate (ev_key_id event) previous_digest event sequence);
      inputs ← lift (canonical_json (JStr (ev_inputs_json event)) KDict);
      outputs ← lift (canonical_json (JStr (ev_outputs_json event)) KDict);
      pointers ← lift (canonical_json (JStr (ev_artifact_pointers_json event)) KList);
      inserted ← exec (insert_event event inputs outputs pointers sequence previous_digest entry);
      row ← lift (match inserted with
                  | None => raise PlaneError "audit append did not return its durable row"
                  | Some row => Ok row
                  end);
      record ← lift (_record row);
      lift (raise_if (negb (ar_sequence record =? sequence)
                      || bool_decide (ar_previous_digest record <> previous_digest)
                      || bool_decide (ar_entry_digest record <> entry))
        (Exn PlaneError "audit append returned inconsistent chain evidence")) ;;
      mret record
  end.

Definition get (chain_id event_id : pystr) : SM audit_db (option AuditRecord) :=
  row ← exec (select_event chain_id event_id);
  match row with
  | None => mret None
  | Some r => record ← lift (_record r); mret (Some record)
  end.

Definition list_for_chain (chain_id : pystr) (after_sequence limit : Z) : SM audit_db (list AuditRecord) :=
  lift (raise_if (after_sequence <? 0) (Exn ValueError_ "after_sequence cannot be negative")) ;;
  lift (raise_unless ((1 <=? limit) && (limit <=? 1000)) (Exn ValueError_ "limit must be between 1 and 1000")) ;;
  rows ← exec (select_chain "audit_list" chain_id (fun r => after_sequence <? au_chain_sequence r));
  lift (map_each _record (take (Z.to_nat limit) rows)).

Definition load_chain (chain_id : pystr) (start_sequence : Z) : SM audit_db (list AuditRecord) :=
  lift (raise_if (start_sequence <=? 0) (Exn ValueError_ "start_sequence must be positive")) ;;
  rows ← exec (select_chain "audit_chain" chain_id (fun r => start_sequence <=? au_chain_sequence r));
  lift (map_each _record rows).

Definition verify_chain (chain_id : pystr) (authenticate : AuditAuthenticator) (start_sequence : Z)
    (expected_previous_digest : list N) : SM audit_db ChainVerification :=
  lift (_digest_bytes "expected_previous_digest" expected_previous_digest) ;;
  records ← load_chain chain_id start_sequence;
  lift (verify_records records chain_id authenticate start_sequence expected_previous_digest).
End Repository.
