(* ===== verification/AuditSpec.v ===== *)
(** * What the audit chain promises

    Canonical JSON is a fixed point; what is stored is read back with the same
    canonical bytes, for the events whose identifiers and numbers PostgreSQL
    keeps as they are; verification accepts exactly the linked chains, and a
    verified chain determines its events; appends keep every chain linked. *)

From Stdlib Require Import ZifyBool.
From S2P Require Import Prelude Regex Errors Domain Sha256 Json IsoTime JsonDecode Pg AuditChain.

(** ** Canonical JSON *)

Section Json.
Context `{PyFloat}.

Lemma normalize_id v w : _normalize_json_value v = Ok w -> w = v.
Proof.
  revert w. induction v as [|flag|z|text| |s|l IH|items IH|] using json_nested_ind; cbn; intros w Hw; try congruence.
  - apply bind_Ok_inv in Hw as (l' & Hl & <-%Ok_inj). f_equal. apply map_each_Ok in Hl.
    induction Hl as [|x y l l' Hx Hl IHl]; [done|]. apply Forall_cons_1 in IH as [Hy IH]. f_equal; [by apply Hy|by apply IHl].
  - apply bind_Ok_inv in Hw as (l' & Hl & <-%Ok_inj). f_equal. apply map_each_Ok in Hl.
    induction Hl as [|[k x] y l l' Hx Hl IHl]; [done|]. apply Forall_cons_1 in IH as [Hy IH].
    apply bind_Ok_inv in Hx as (x' & Hx & <-%Ok_inj). cbn in Hy. rewrite (Hy x' Hx). f_equal. by apply IHl.
Qed.

Lemma normalize_dumps b v t : dumps b v = Ok t -> _normalize_json_value v = Ok v.
Proof.
  revert t. induction v as [|flag|z|text| |s|l IH|items IH|] using json_nested_ind; cbn; intros t Hd; try done.
  - apply bind_Ok_inv in Hd as (ts & Hts & _). assert (map_each _normalize_json_value l = Ok l) as ->; [|done].
    apply map_each_Ok in Hts. apply map_each_Ok.
    induction Hts as [|x y l ts Hx Hl IHl]; constructor; apply Forall_cons_1 in IH as [Hy IH]; [by eapply Hy|by apply IHl].
  - apply bind_Ok_inv in Hd as (ts & Hts & _).
    assert (map_each (fun '(k, x) => y ← _normalize_json_value x; Ok (k, y)) items = Ok items) as ->; [|done].
    apply map_each_Ok in Hts. apply map_each_Ok.
    induction Hts as [|[k x] y l ts Hx Hl IHl]; constructor; apply Forall_cons_1 in IH as [Hy IH]; [|by apply IHl].
    apply bind_Ok_inv in Hx as (t' & Hx & _). cbn in Hy. by rewrite (Hy t' Hx).
Qed.

(** A successful call: the value has the type asked for, and its text is returned. *)
Lemma canonical_json_Ok v k t :
  canonical_json v k = Ok t <->
  exists w, match v with JStr text => loads text | _ => Ok v end = Ok w /\ has_kind k w = true /\ dumps false w = Ok t.
Proof.
  unfold canonical_json. split.
  - destruct (canonical_json_body v k) as [t'|e] eqn:Hb; [|by destruct (is_json_error e)]. intros [= ->].
    unfold canonical_json_body in Hb. inv_ok. apply normalize_id in Hs1 as ->. eauto.
  - intros (w & Hw & Hk & Hd). unfold canonical_json_body. rewrite Hw. cbn. rewrite Hk. cbn.
    rewrite (normalize_dumps _ _ _ Hd). cbn. by rewrite Hd.
Qed.

(** Text that is the canonical form of a value the table keeps. *)
Fixpoint plain_json (v : json) : bool :=
  match v with
  | JFloat t => match numeric t with JFloat t' => bool_decide (t = t') | _ => false end
  | JStr s => storable s
  | JArr l => forallb plain_json l
  | JObj items => forallb (fun '(k, x) => storable k && plain_json x) items
  | _ => true
  end.
Definition stored_text (k : json_kind) (t : pystr) : bool :=
  match loads t with
  | Ok v => json_wf v && plain_json v && has_kind k v && bool_decide (dumps false v = Ok t)
  | Err _ => false
  end.

Lemma stored_text_canonical k t : stored_text k t = true -> canonical_json (JStr t) k = Ok t.
Proof.
  unfold stored_text. destruct (loads t) as [v|] eqn:Hl; [|done]. intros Hs. split_bools.
  apply canonical_json_Ok. eauto.
Qed.

Context `{PgJsonb}.

(** JSONB keeps plain values, up to the order of keys. *)
Lemma jsonb_plain b v t :
  json_wf v = true -> plain_json v = true -> dumps b v = Ok t ->
  exists w, jsonb v = Ok w /\ same_text b v w.
Proof.
  revert t. induction v as [|flag|z|text| |s|l IH|items IH|] using json_nested_ind; cbn [json_wf plain_json jsonb]; intros t Hwf Hp Hd;
    try (by eexists; split; [reflexivity|intros ?]); try discriminate Hd.
  - destruct (numeric text) eqn:Hn; try done. apply bool_decide_eq_true in Hp as <-. by eexists; split; [reflexivity|intros ?].
  - unfold jsonb_string. rewrite Hp. by eexists; split; [reflexivity|intros ?].
  - cbn [dumps] in Hd. apply bind_Ok_inv in Hd as (ts & Hts & _). apply map_each_Ok in Hts.
    assert (exists l', map_each jsonb l = Ok l' /\ Forall2 (same_text b) l l') as (l' & -> & Hl'); [|eexists; split; [reflexivity|by apply dumps_array]].
    induction Hts as [|x y l ts Hx Hl IHl]; [by exists []|]. cbn in Hwf, Hp. split_bools. apply Forall_cons_1 in IH as [Hy IH].
    destruct (Hy y) as (w & Hw & Hsw); [done..|]. destruct IHl as (l' & Hl' & HF); [done..|].
    exists (w :: l'). cbn. rewrite Hw, Hl'. split; [done|by constructor].
  - cbn [dumps] in Hd. apply bind_Ok_inv in Hd as (ts & Hts & _). apply map_each_Ok in Hts.
    apply andb_true_iff in Hwf as [Hnd%bool_decide_eq_true Hwf].
    assert (exists l', Forall2 (fun m y => (let '(k, x) := m in jsonb_string k ;; y ← jsonb x; Ok (k, y)) = Ok y) items l'
                       /\ Forall2 (same_member b) items l') as (l' & Hj & Hl').
    2: { apply (map_each_Ok (fun '(k, x) => jsonb_string k ;; y ← jsonb x; Ok (k, y))) in Hj. rewrite Hj.
         eexists. split; [reflexivity|]. eapply dumps_object; [exact Hl'|apply key_order_perm|exact Hnd]. }
    clear Hnd. induction Hts as [|[k x] y l ts Hx Hl IHl]; [by exists []|]. cbn in Hwf, Hp. split_bools. apply Forall_cons_1 in IH as [Hy IH].
    apply bind_Ok_inv in Hx as (t' & Hx & _). cbn in Hy.
    destruct (Hy t') as (w & Hw & Hsw); [done..|]. destruct IHl as (l' & Hl' & HF); [done..|].
    exists ((k, w) :: l'). split; constructor; try done. unfold jsonb_string.
    match goal with Hk : storable k = true |- _ => rewrite Hk end. cbn. by rewrite Hw.
Qed.

Lemma jsonb_kind k v w : has_kind k v = true -> jsonb v = Ok w -> has_kind k w = true.
Proof. destruct k, v; cbn; try done; intros _ (? & _ & <-%Ok_inj)%bind_Ok_inv; done. Qed.

Definition empty_of (k : json_kind) : json := match k with KDict => JObj [] | KList => JArr [] end.
Lemma json_or_kind k v : has_kind k v = true -> json_or v (empty_of k) = v.
Proof. destruct k, v as [| | | | | |[]|[]|]; done. Qed.

(** Canonical text is read back as it was written. *)
Lemma stored_text_roundtrip k t :
  stored_text k t = true ->
  exists w, jsonb_param t = Ok w /\ canonical_json (json_or w (empty_of k)) k = Ok t.
Proof.
  unfold stored_text, jsonb_param. destruct (loads t) as [v|] eqn:Hl; [|done]. intros Hs. split_bools.
  destruct (jsonb_plain false v t) as (w & Hw & Hsame); [done..|]. exists w. split; [done|].
  assert (has_kind k w = true) as Hk by (by eapply jsonb_kind). rewrite json_or_kind by done.
  apply canonical_json_Ok. exists w. split; [by destruct k, w|]. auto.
Qed.
End Json.

(** ** Linked chains *)

Section Linked.
Context `{PyFloat}.
Context (authenticate : AuditAuthenticator) (chain_id : pystr).

(** One record in its place. *)
Definition record_ok (sequence : Z) (previous : list N) (r : AuditRecord) : Prop :=
  ev_chain_id (ar_event r) = chain_id /\ ar_sequence r = sequence /\ ar_previous_digest r = previous
  /\ entry_digest authenticate (ev_key_id (ar_event r)) previous (ar_event r) sequence = Ok (ar_entry_digest r).

(** Records that continue a chain: their sequence numbers count up, each
    carries the digest of the one before it and authenticates under it. *)
Inductive linked : Z -> list N -> list AuditRecord -> Z -> list N -> Prop :=
  | linked_nil sequence previous : linked sequence previous [] (sequence - 1) previous
  | linked_cons sequence previous r rs last digest :
      record_ok sequence previous r -> linked (sequence + 1) (ar_entry_digest r) rs last digest ->
      linked sequence previous (r :: rs) last digest.

(** What is wrong with a record, the first of the four conditions it fails. *)
Inductive record_wrong (sequence : Z) (previous : list N) (r : AuditRecord) : string -> Prop :=
  | wrong_chain :
      ev_chain_id (ar_event r) <> chain_id -> record_wrong sequence previous r "wrong_chain"
  | wrong_sequence :
      ev_chain_id (ar_event r) = chain_id -> ar_sequence r <> sequence ->
      record_wrong sequence previous r "non_contiguous_sequence"
  | wrong_previous :
      ev_chain_id (ar_event r) = chain_id -> ar_sequence r = sequence -> ar_previous_digest r <> previous ->
      record_wrong sequence previous r "previous_digest_mismatch"
  | wrong_entry digest :
      ev_chain_id (ar_event r) = chain_id -> ar_sequence r = sequence -> ar_previous_digest r = previous ->
      entry_digest authenticate (ev_key_id (ar_event r)) previous (ar_event r) sequence = Ok digest ->
      ar_entry_digest r <> digest -> record_wrong sequence previous r "entry_digest_mismatch".

(** A record in its place whose digest cannot be computed. *)
Definition record_raises (sequence : Z) (previous : list N) (r : AuditRecord) (e : exn) : Prop :=
  ev_chain_id (ar_event r) = chain_id /\ ar_sequence r = sequence /\ ar_previous_digest r = previous
  /\ entry_digest authenticate (ev_key_id (ar_event r)) previous (ar_event r) sequence = Err e.

Lemma record_fault_Some sequence previous r reason :
  record_fault authenticate chain_id sequence previous r = Ok (Some reason) <-> record_wrong sequence previous r reason.
Proof.
  unfold record_fault. split.
  - case_bool_decide as Hc; [intros [= <-]; by constructor|].
    destruct (Z.eqb_spec (ar_sequence r) sequence) as [Hs|Hs]; [|intros [= <-]; by constructor]. cbn.
    case_bool_decide as Hp; [intros [= <-]; by constructor|].
    intros (d & Hd & Hn)%bind_Ok_inv. case_bool_decide as He; [|done]. injection Hn as <-. rewrite Hs in Hd.
    by eapply wrong_entry.
  - destruct 1 as [Hc|Hc Hs|Hc Hs Hp|d Hc Hs Hp Hd He].
    + by rewrite bool_decide_eq_true_2.
    + rewrite bool_decide_eq_false_2 by tauto. by rewrite (proj2 (Z.eqb_neq _ _) Hs).
    + rewrite bool_decide_eq_false_2, Hs, Z.eqb_refl by tauto. cbn. by rewrite bool_decide_eq_true_2.
    + rewrite bool_decide_eq_false_2, Hs, Z.eqb_refl by tauto. cbn. rewrite bool_decide_eq_false_2 by tauto.
      rewrite Hd. cbn. by rewrite bool_decide_eq_true_2.
Qed.

Lemma record_fault_Err sequence previous r e :
  record_fault authenticate chain_id sequence previous r = Err e <-> record_raises sequence previous r e.
Proof.
  unfold record_fault, record_raises. split.
  - case_bool_decide as Hc; [done|].
    destruct (Z.eqb_spec (ar_sequence r) sequence) as [Hs|Hs]; [|done]. cbn.
    case_bool_decide as Hp; [done|]. rewrite Hs.
    destruct (entry_digest _ _ _ _ _) eqn:Hd; [done|]. intros [= <-]. done.
  - intros (Hc & Hs & Hp & Hd). rewrite bool_decide_eq_false_2, Hs, Z.eqb_refl by tauto. cbn.
    rewrite bool_decide_eq_false_2 by tauto. by rewrite Hd.
Qed.

Lemma record_fault_None sequence previous r :
  record_fault authenticate chain_id sequence previous r = Ok None <-> record_ok sequence previous r.
Proof.
  unfold record_fault, record_ok. split.
  - case_bool_decide as Hc; [done|]. destruct (Z.eqb_spec (ar_sequence r) sequence) as [Hs|]; [|done]. cbn.
    case_bool_decide as Hp; [done|]. intros (d & Hd & Hn)%bind_Ok_inv.
    case_bool_decide as He; [done|]. subst. auto.
  - intros (Hc & Hs & Hp & He). rewrite bool_decide_eq_false_2 by tauto. rewrite Hs, Z.eqb_refl. cbn.
    rewrite bool_decide_eq_false_2 by tauto. rewrite He. cbn. by rewrite bool_decide_eq_false_2 by tauto.
Qed.

Lemma verify_loop_spec sequence previous rs v :
  verify_loop authenticate chain_id sequence previous rs = Ok v ->
  if cv_valid v then linked sequence previous rs (cv_last_sequence v) (cv_last_digest v)
                     /\ cv_first_invalid_event_id v = None /\ cv_reason v = None
  else exists good bad rest reason,
    rs = good ++ bad :: rest /\ linked sequence previous good (cv_last_sequence v) (cv_last_digest v)
    /\ record_fault authenticate chain_id (cv_last_sequence v + 1) (cv_last_digest v) bad = Ok (Some reason)
    /\ cv_first_invalid_event_id v = Some (ev_event_id (ar_event bad)) /\ cv_reason v = Some reason.
Proof.
  revert sequence previous. induction rs as [|r rs IH]; intros sequence previous; cbn.
  - intros [= <-]. cbn. split; [constructor|done].
  - intros ([reason|] & Hf & Hv)%bind_Ok_inv.
    + injection Hv as <-. cbn. exists [], r, rs, reason. split_and!; try done; [constructor|].
      by replace (sequence - 1 + 1) with sequence by lia.
    + apply record_fault_None in Hf. specialize (IH _ _ Hv). destruct (cv_valid v).
      * destruct IH as (Hl & Hi). split; [by constructor|done].
      * destruct IH as (good & bad & rest & reason & -> & Hl & Hrest). exists (r :: good), bad, rest, reason.
        split; [done|]. split; [by constructor|done].
Qed.

Lemma verify_loop_linked sequence previous rs last digest :
  linked sequence previous rs last digest ->
  verify_loop authenticate chain_id sequence previous rs
  = Ok {| cv_valid := true; cv_first_invalid_event_id := None; cv_reason := None;
          cv_last_sequence := last; cv_last_digest := digest |}.
Proof.
  induction 1 as [|sequence previous r rs last digest Hr Hl IH]; [done|]. cbn.
  rewrite (proj2 (record_fault_None _ _ _) Hr). cbn. done.
Qed.

(** The loop over a linked prefix, up to the record that stops it. *)
Lemma verify_loop_app sequence previous good last digest rest :
  linked sequence previous good last digest ->
  verify_loop authenticate chain_id sequence previous (good ++ rest)
  = verify_loop authenticate chain_id (last + 1) digest rest.
Proof.
  induction 1 as [sequence previous|sequence previous r rs last digest Hr Hl IH]; cbn.
  - by replace (sequence - 1 + 1) with sequence by lia.
  - rewrite (proj2 (record_fault_None _ _ _) Hr). cbn. done.
Qed.

Lemma verify_loop_Err sequence previous rs e :
  verify_loop authenticate chain_id sequence previous rs = Err e ->
  exists good bad rest last digest, rs = good ++ bad :: rest /\ linked sequence previous good last digest
    /\ record_raises (last + 1) digest bad e.
Proof.
  revert sequence previous. induction rs as [|r rs IH]; intros sequence previous; cbn; [done|].
  destruct (record_fault _ _ _ _ _) as [[reason|]|e'] eqn:Hf; cbn; [done| |].
  - intros (good & bad & rest & last & digest & -> & Hl & Hr)%IH. apply record_fault_None in Hf.
    exists (r :: good), bad, rest, last, digest. split_and!; [done|by constructor|done].
  - intros [= ->]. exists [], r, rs, (sequence - 1), previous. split_and!; [done|constructor|].
    replace (sequence - 1 + 1) with sequence by lia. by apply record_fault_Err.
Qed.

Lemma linked_snoc sequence previous rs last digest r :
  linked sequence previous rs last digest -> record_ok (last + 1) digest r ->
  linked sequence previous (rs ++ [r]) (last + 1) (ar_entry_digest r).
Proof.
  induction 1 as [sequence previous|sequence previous r' rs last digest Hr Hl IH]; intros Hok; cbn.
  - replace (sequence - 1 + 1) with sequence in * by lia. constructor; [done|].
    replace sequence with (sequence + 1 - 1) at 2 by lia. constructor.
  - constructor; auto.
Qed.

(** The end of a chain. *)
Lemma linked_last sequence previous rs r last digest :
  linked sequence previous (rs ++ [r]) last digest -> last = ar_sequence r /\ digest = ar_entry_digest r.
Proof.
  revert sequence previous. induction rs as [|r' rs IH]; intros sequence previous Hl; inversion Hl; subst.
  - match goal with Hn : linked _ _ [] _ _ |- _ => inversion Hn; subst end.
    match goal with Hr : record_ok _ _ _ |- _ => destruct Hr as (_ & Hs & _) end. split; [lia|done].
  - eauto.
Qed.

(** Cutting a chain. *)
Lemma linked_app sequence previous rs1 rs2 last digest :
  linked sequence previous (rs1 ++ rs2) last digest <->
  exists mid d, linked sequence previous rs1 mid d /\ linked (mid + 1) d rs2 last digest.
Proof.
  revert sequence previous. induction rs1 as [|r rs1 IH]; intros sequence previous; cbn.
  - split.
    + intros Hl. exists (sequence - 1), previous. split; [constructor|]. by replace (sequence - 1 + 1) with sequence by lia.
    + intros (mid & d & H1 & H2). inversion H1; subst. by replace (sequence - 1 + 1) with sequence in H2 by lia.
  - split.
    + inversion 1; subst. match goal with Hr : linked _ _ (rs1 ++ _) _ _ |- _ => apply IH in Hr as (mid & d & H1 & H2) end.
      exists mid, d. split; [by constructor|done].
    + intros (mid & d & H1 & H2). inversion H1; subst. constructor; [done|]. apply IH. eauto.
Qed.

Lemma linked_sequence sequence previous rs last digest i r :
  linked sequence previous rs last digest -> rs !! i = Some r -> ar_sequence r = sequence + Z.of_nat i.
Proof.
  intros Hl. revert i. induction Hl as [|sequence previous r' rs last digest (_ & Hs & _) Hl IH]; intros i; [done|].
  destruct i as [|i]; cbn; [intros [= <-]; lia|]. intros Hi. rewrite (IH i Hi). lia.
Qed.

Lemma linked_length sequence previous rs last digest :
  linked sequence previous rs last digest -> last = sequence - 1 + Z.of_nat (length rs).
Proof. induction 1; cbn; lia. Qed.
End Linked.

(** ** Storing and reading an event *)

Section Storage.
Context `{PyFloat} `{PgEnv} `{PgJsonb}.

(** An event PostgreSQL returns as it was given: UUIDs in standard form, JSON
    text canonical and without numbers or characters JSONB changes. *)
Definition stable (e : AuditEvent) : bool :=
  bool_decide (uuid_in (ev_event_id e) = Some (ev_event_id e))
  && bool_decide (uuid_in (ev_correlation_id e) = Some (ev_correlation_id e))
  && stored_text KDict (ev_inputs_json e) && stored_text KDict (ev_outputs_json e)
  && stored_text KList (ev_artifact_pointers_json e).

(** The event with its times in the session's time zone. *)
Definition read_event (e : AuditEvent) : AuditEvent :=
  {| ev_event_id := ev_event_id e; ev_chain_id := ev_chain_id e; ev_auth_principal := ev_auth_principal e;
     ev_agent_id := ev_agent_id e; ev_event_class := ev_event_class e; ev_action_type := ev_action_type e;
     ev_description := ev_description e; ev_conversation_id := ev_conversation_id e;
     ev_correlation_id := ev_correlation_id e; ev_outcome := ev_outcome e;
     ev_outcome_detail := ev_outcome_detail e; ev_inputs_json := ev_inputs_json e;
     ev_outputs_json := ev_outputs_json e; ev_artifact_pointers_json := ev_artifact_pointers_json e;
     ev_started_at := from_timestamptz (instant (ev_started_at e));
     ev_completed_at := (fun t => from_timestamptz (instant t)) <$> ev_completed_at e;
     ev_key_id := ev_key_id e; ev_schema_version := ev_schema_version e |}.

Lemma read_event_iso t : _utc_iso (from_timestamptz t) = _utc_iso (utc t)
  /\ utc_isoformat (from_timestamptz t) = utc_isoformat (utc t).
Proof. unfold _utc_iso, utc_isoformat, astimezone_utc. by rewrite instant_from_timestamptz, instant_utc. Qed.

Lemma iso_instant d : _utc_iso (utc (instant d)) = _utc_iso d /\ utc_isoformat (utc (instant d)) = utc_isoformat d.
Proof. unfold _utc_iso, utc_isoformat, astimezone_utc. by rewrite instant_utc. Qed.

Lemma read_event_bytes e s : canonical_event_bytes (read_event e) s = canonical_event_bytes e s.
Proof.
  unfold canonical_event_bytes, _canonical_event_v1, _canonical_event_v2. cbn [read_event ev_schema_version ev_inputs_json ev_outputs_json ev_artifact_pointers_json ev_started_at ev_completed_at].
  destruct (read_event_iso (instant (ev_started_at e))) as [-> ->]. destruct (iso_instant (ev_started_at e)) as [-> ->].
  assert (forall t, opt_map _utc_iso ((fun t => from_timestamptz (instant t)) <$> t) = opt_map _utc_iso t
                    /\ opt_map utc_isoformat ((fun t => from_timestamptz (instant t)) <$> t) = opt_map utc_isoformat t) as Ht.
  { intros [t|]; [|done]. cbn [fmap option_fmap option_map opt_map]. destruct (read_event_iso (instant t)) as [-> ->].
    by destruct (iso_instant t) as [-> ->]. }
  destruct (Ht (ev_completed_at e)) as [-> ->]. done.
Qed.

Lemma read_event_digest authenticate k p e s :
  entry_digest authenticate k p (read_event e) s = entry_digest authenticate k p e s.
Proof. unfold entry_digest. by rewrite read_event_bytes. Qed.

Lemma read_event_eqb e : event_eqb (read_event e) e = true.
Proof.
  apply bool_decide_eq_true. unfold event_key. cbn [read_event ev_started_at ev_completed_at ev_event_id ev_chain_id
    ev_auth_principal ev_agent_id ev_event_class ev_action_type ev_description ev_conversation_id ev_correlation_id
    ev_outcome ev_outcome_detail ev_inputs_json ev_outputs_json ev_artifact_pointers_json ev_key_id ev_schema_version].
  rewrite instant_from_timestamptz. f_equal. f_equal. destruct (ev_completed_at e) as [t|]; [|done].
  change (Some (instant (from_timestamptz (instant t))) = Some (instant t)). by rewrite instant_from_timestamptz.
Qed.

Lemma post_init_Ok e e' :
  event_post_init e = Ok e' ->
  exists i o p, e' = with_json e i o p /\ canonical_json (JStr (ev_inputs_json e)) KDict = Ok i
    /\ canonical_json (JStr (ev_outputs_json e)) KDict = Ok o
    /\ canonical_json (JStr (ev_artifact_pointers_json e)) KList = Ok p.
Proof. unfold event_post_init. intros He. inv_ok. subst. eauto 10. Qed.

Lemma record_Ok r rec :
  _record r = Ok rec ->
  row_event r = Ok (ar_event rec) /\ ar_sequence rec = au_chain_sequence r
  /\ ar_recorded_at rec = from_timestamptz (au_recorded_at r)
  /\ ar_previous_digest rec = au_prev_hash r /\ ar_entry_digest rec = au_entry_hash r.
Proof.
  unfold _record, record_post_init. intros Hr. inv_ok. subst. cbn. auto.
Qed.

Lemma row_event_Ok r e :
  row_event r = Ok e -> ev_chain_id e = au_actor_user_id r /\ ev_event_id e = au_event_id r /\ ev_key_id e = au_key_id r.
Proof. unfold row_event. intros He. inv_ok. apply post_init_Ok in He as (i & o & p & -> & _). done. Qed.

(** What a stable event becomes. *)
Lemma stored_event e sequence previous entry now r rec :
  stable e = true ->
  event_row e (ev_inputs_json e) (ev_outputs_json e) (ev_artifact_pointers_json e) sequence previous entry now = Ok r ->
  _record r = Ok rec ->
  ar_event rec = read_event e /\ au_event_id r = ev_event_id e.
Proof.
  unfold stable. intros Hst Hrow Hrec. split_bools. apply record_Ok in Hrec as (He & _).
  unfold event_row, uuid_param in Hrow.
  match goal with Hu : uuid_in (ev_event_id e) = _ |- _ => rewrite Hu in Hrow end.
  match goal with Hu : uuid_in (ev_correlation_id e) = _ |- _ => rewrite Hu in Hrow end.
  destruct (stored_text_roundtrip KDict (ev_inputs_json e)) as (wi & Hwi & Ci); [done|].
  destruct (stored_text_roundtrip KDict (ev_outputs_json e)) as (wo & Hwo & Co); [done|].
  destruct (stored_text_roundtrip KList (ev_artifact_pointers_json e)) as (wp & Hwp & Cp); [done|].
  rewrite Hwi, Hwo, Hwp in Hrow. cbn in Hrow. apply Ok_inj in Hrow as <-. split; [|done].
  unfold row_event in He. cbn [au_inputs_meta au_outputs_meta au_artifact_pointers] in He.
  change (JObj []) with (empty_of KDict) in He. change (JArr []) with (empty_of KList) in He.
  rewrite Ci, Co, Cp in He. cbn [mbind outcome_mbind outcome_bind] in He.
  apply post_init_Ok in He as (i & o & p & -> & Ei & Eo & Ep). cbn in Ei, Eo, Ep.
  rewrite stored_text_canonical in Ei by done. rewrite stored_text_canonical in Eo by done.
  rewrite stored_text_canonical in Ep by done. simplify_eq.
  unfold with_json, read_event. cbn. f_equal. by destruct (ev_completed_at e).
Qed.
End Storage.

(** ** The rows of a chain *)

Section Table.
Context `{PyFloat} `{PgEnv} `{PgJsonb}.
Implicit Types (t : list audit_row) (r : audit_row) (c : pystr).

Lemma audit_conflict_sym a b : audit_conflict a b = audit_conflict b a.
Proof. unfold audit_conflict. f_equal; apply bool_decide_ext; split; congruence. Qed.

Lemma audit_conflict_id a b : au_event_id a = au_event_id b -> audit_conflict a b = true.
Proof. intros Heq. unfold audit_conflict. by rewrite bool_decide_eq_true_2. Qed.

(** What the indexes and constraints of the table keep. *)
Definition table_ok t : Prop :=
  unique_ok audit_conflict t = true /\ Forall (fun r => check_audit_row r = Ok ()) t.

Lemma table_ok_where p t : table_ok t -> table_ok (rows_where p t).
Proof.
  intros [Hu Hc]. split.
  - clear Hc. revert Hu. induction t as [|x t IH]; [done|]. cbn [unique_ok]. intros [Hx%negb_true_iff Hu]%andb_true_iff.
    unfold rows_where in *. cbn. destruct (p x); [|auto]. cbn [unique_ok]. rewrite IH by done. rewrite andb_true_r.
    apply negb_true_iff. rewrite exists_row_false in Hx |- *. intros y [Hy _]%elem_of_rows_where. by apply Hx.
  - rewrite Forall_forall in Hc |- *. intros r [Hr _]%elem_of_rows_where. by apply Hc.
Qed.

Lemma table_ok_elem t a b :
  table_ok t -> a ∈ t -> b ∈ t -> audit_conflict a b = true -> a = b.
Proof. intros [Hu _]. by apply unique_ok_elem; [apply audit_conflict_sym|]. Qed.

Lemma sequence_le_total a b : sequence_le a b = true \/ sequence_le b a = true.
Proof. apply time_key_total. intros x y. apply str_leb_total. Qed.
Lemma sequence_le_trans x y z : sequence_le x y = true -> sequence_le y z = true -> sequence_le x z = true.
Proof. apply time_key_trans. intros ? ? ?. apply str_leb_trans. Qed.
Lemma sequence_le_antisym a b : sequence_le a b = true -> sequence_le b a = true -> au_event_id a = au_event_id b.
Proof.
  unfold sequence_le, time_key_leb. intros Hab Hba.
  assert (str_leb (au_event_id a) (au_event_id b) = true /\ str_leb (au_event_id b) (au_event_id a) = true) as [] by lia.
  by apply str_leb_antisym.
Qed.

(** Rows in the order of the chain are determined by their set. *)
Lemma sorted_rows t l1 l2 :
  table_ok t -> (forall r, r ∈ l1 -> r ∈ t) -> l1 ≡ₚ l2 ->
  StronglySorted (bool_rel sequence_le) l1 -> StronglySorted (bool_rel sequence_le) l2 -> l1 = l2.
Proof.
  intros Ht Hin Hp Hs1 Hs2. apply (sorted_unique (bool_rel sequence_le)); [done..|].
  intros a b Ha Hb Hab Hba. apply (table_ok_elem t); auto. by apply audit_conflict_id, sequence_le_antisym.
Qed.

Lemma sort_rows_sorted t : StronglySorted (bool_rel sequence_le) (sort_by sequence_le t).
Proof. apply sort_by_sorted; [apply sequence_le_total|apply sequence_le_trans]. Qed.

Definition chain_where (p : audit_row -> bool) t : list audit_row := sort_by sequence_le (rows_where p t).
Definition chain c t : list audit_row := chain_where (of_chain c) t.

Lemma elem_of_chain_where p t r : r ∈ chain_where p t <-> r ∈ t /\ p r = true.
Proof. unfold chain_where. by rewrite elem_of_sort_by, elem_of_rows_where. Qed.

Lemma elem_of_chain c t r : r ∈ chain c t <-> r ∈ t /\ au_actor_user_id r = c.
Proof. unfold chain. rewrite elem_of_chain_where. unfold of_chain. by rewrite bool_decide_eq_true. Qed.

Lemma select_ordered_chain stmt p t :
  table_ok t -> select_ordered stmt sequence_le p t = chain_where p t.
Proof.
  intros Ht. apply (sorted_rows t); [done| | |apply sort_rows_sorted|apply sort_rows_sorted].
  - intros r Hr. by apply elem_of_select_ordered in Hr as [? _].
  - rewrite select_ordered_perm. unfold chain_where. rewrite sort_by_perm. apply rows_where_perm, scan_perm.
Qed.

Lemma sequence_unique c t a b :
  table_ok t -> a ∈ chain c t -> b ∈ chain c t -> au_chain_sequence a = au_chain_sequence b -> a = b.
Proof.
  intros Ht [Ha Hca]%elem_of_chain [Hb Hcb]%elem_of_chain Hs. apply (table_ok_elem t); [done..|].
  unfold audit_conflict. rewrite (bool_decide_eq_true_2 ((_, _) = _)) by congruence. by rewrite orb_true_r.
Qed.

(** A row beyond the last of its chain. *)
Lemma chain_snoc c t r :
  table_ok (t ++ [r]) ->
  (au_actor_user_id r = c -> forall r', r' ∈ chain c t -> au_chain_sequence r' < au_chain_sequence r) ->
  chain c (t ++ [r]) = if of_chain c r then chain c t ++ [r] else chain c t.
Proof.
  intros Ht Hlt. unfold chain, chain_where at 1. unfold rows_where. rewrite List.filter_app. cbn.
  fold (rows_where (of_chain c) t). unfold of_chain at 2 3. case_bool_decide as Hc; [|by rewrite app_nil_r].
  apply (sorted_rows (t ++ [r])); [done| | |apply sort_rows_sorted|].
  - intros x Hx. apply elem_of_sort_by, elem_of_app in Hx as [[Hx _]%elem_of_rows_where|Hx]; apply elem_of_app; auto.
  - unfold chain_where. by rewrite !sort_by_perm.
  - apply StronglySorted_app_2; [|apply sort_rows_sorted|repeat constructor].
    intros x y Hx Hy. apply list_elem_of_singleton in Hy as ->. specialize (Hlt Hc x Hx).
    unfold bool_rel, sequence_le, time_key_leb. lia.
Qed.

(** The last row of a chain is the one the next append continues. *)
Lemma select_last_snoc c t l r :
  table_ok t -> chain c t = l ++ [r] ->
  head (select_ordered "audit_last" (fun a b => au_chain_sequence b <=? au_chain_sequence a) (of_chain c) t) = Some r.
Proof.
  intros Ht Hch. set (le := fun a b : audit_row => au_chain_sequence b <=? au_chain_sequence a).
  assert (forall x, x ∈ select_ordered "audit_last" le (of_chain c) t <-> x ∈ chain c t) as Hel.
  { intros x. unfold chain. by rewrite elem_of_select_ordered, elem_of_chain_where. }
  assert (StronglySorted (bool_rel le) (select_ordered "audit_last" le (of_chain c) t)) as Hs.
  { apply sort_by_sorted; subst le; cbn; intros; lia. }
  assert (r ∈ chain c t) as Hr by (rewrite Hch; apply elem_of_app; right; by left).
  assert (forall x, x ∈ chain c t -> au_chain_sequence x <= au_chain_sequence r) as Hmax.
  { intros x Hx. pose proof (sort_rows_sorted (rows_where (of_chain c) t)) as Hsort. fold (chain_where (of_chain c) t) in Hsort.
    fold (chain c t) in Hsort. rewrite Hch in Hsort, Hx. apply elem_of_app in Hx as [Hx|Hx].
    - assert (bool_rel sequence_le x r) as Hle by (eapply StronglySorted_app_1_elem_of; [exact Hsort|done|by left]).
      unfold bool_rel, sequence_le, time_key_leb in Hle. lia.
    - apply list_elem_of_singleton in Hx as ->. lia. }
  destruct (select_ordered "audit_last" le (of_chain c) t) as [|x rest] eqn:Hsel.
  - by apply Hel, elem_of_nil in Hr.
  - cbn. f_equal. assert (x ∈ chain c t) as Hx by (apply Hel; by left).
    apply (sequence_unique c t); [done..|]. specialize (Hmax x Hx). apply Hel, elem_of_cons in Hr as [->|Hr]; [done|].
    apply StronglySorted_inv in Hs as [_ HF]. rewrite Forall_forall in HF. specialize (HF r Hr). unfold bool_rel, le in HF. lia.
Qed.

Lemma select_last_nil c t :
  chain c t = [] ->
  head (select_ordered "audit_last" (fun a b => au_chain_sequence b <=? au_chain_sequence a) (of_chain c) t) = None.
Proof.
  intros Hch. destruct (select_ordered _ _ _ t) as [|x rest] eqn:Hsel; [done|].
  assert (x ∈ chain c t) as Hx; [|rewrite Hch in Hx; by apply elem_of_nil in Hx].
  unfold chain. rewrite elem_of_chain_where, <- (elem_of_select_ordered "audit_last" (fun a b => au_chain_sequence b <=? au_chain_sequence a)).
  rewrite Hsel. by left.
Qed.
End Table.

(** ** Appending *)

Section Append.
Context `{PyFloat} `{PgEnv} `{PgJsonb}.
Implicit Types (t : list audit_row) (r : audit_row) (c : pystr) (db : audit_db).

(** The place after the last event of a chain. *)
Definition next_place (c : pystr) (db : audit_db) : Z * list N :=
  match last (chain c (ad_events db)) with
  | None => (1, GENESIS_DIGEST)
  | Some p => (au_chain_sequence p + 1, au_entry_hash p)
  end.

Lemma select_last_spec c db db' o :
  table_ok (ad_events db) -> select_last c db = Ok (o, db') -> db' = db /\ o = last (chain c (ad_events db)).
Proof.
  intros Ht. unfold select_last. intros Hs. inv_ok. simplify_eq. split; [done|].
  destruct (chain c (ad_events db')) as [|x l _] eqn:Hch using rev_ind; [by rewrite select_last_nil|].
  rewrite last_snoc. by eapply select_last_snoc.
Qed.

Lemma lock_chain_Ok c db x db' : lock_chain c db = Ok (x, db') -> db' = db.
Proof. unfold lock_chain. intros Hl. inv_ok. congruence. Qed.

Lemma select_event_Ok c event_id db o db' :
  select_event c event_id db = Ok (o, db') ->
  db' = db /\ exists id, uuid_in event_id = Some id
    /\ o = select_one "audit_event" (fun r => of_chain c r && bool_decide (au_event_id r = id)) (ad_events db).
Proof.
  unfold select_event, uuid_param. intros Hs. inv_ok. destruct (uuid_in event_id) as [id|]; [|done]. inv_ok.
  simplify_eq. eauto.
Qed.

Lemma insert_event_Ok e i o p sequence previous entry db row db' :
  insert_event e i o p sequence previous entry db = Ok (row, db') ->
  exists r, row = Some r /\ event_row e i o p sequence previous entry (clock_timestamp (length (ad_events db))) = Ok r
    /\ check_audit_row r = Ok () /\ exists_row (audit_conflict r) (ad_events db) = false
    /\ db' = set_events (ad_events db ++ [r]) db.
Proof.
  unfold insert_event. intros Hi. apply bind_Ok_inv in Hi as (_ & _ & Hi). apply bind_Ok_inv in Hi as (r & Hr & Hi).
  apply bind_Ok_inv in Hi as (t & Ht & Hi). apply insert_row_Ok in Ht as (Hc & Hx & ->). simplify_eq. eauto 10.
Qed.

(** A successful append found the event, or stored it at the end. *)
Lemma append_cases authenticate e s rec s' :
  table_ok (ad_events (s_db s)) -> append e authenticate s = (Ok rec, s') ->
  s_failed s = false /\ s_failed s' = false /\
  ((s_db s' = s_db s /\ exists row, row ∈ ad_events (s_db s) /\ au_actor_user_id row = ev_chain_id e /\ uuid_in (ev_event_id e) = Some (au_event_id row)
      /\ _record row = Ok rec /\ event_eqb (ar_event rec) e = true
      /\ entry_digest authenticate (ev_key_id (ar_event rec)) (ar_previous_digest rec) e (ar_sequence rec)
         = Ok (ar_entry_digest rec))
   \/ exists i o p sequence previous entry now r,
      next_place (ev_chain_id e) (s_db s) = (sequence, previous)
      /\ entry_digest authenticate (ev_key_id e) previous e sequence = Ok entry
      /\ canonical_json (JStr (ev_inputs_json e)) KDict = Ok i /\ canonical_json (JStr (ev_outputs_json e)) KDict = Ok o
      /\ canonical_json (JStr (ev_artifact_pointers_json e)) KList = Ok p
      /\ event_row e i o p sequence previous entry now = Ok r /\ _record r = Ok rec
      /\ check_audit_row r = Ok () /\ exists_row (audit_conflict r) (ad_events (s_db s)) = false
      /\ s_db s' = set_events (ad_events (s_db s) ++ [r]) (s_db s)).
Proof.
  intros Ht Ha. unfold append in Ha. apply bind_run_Ok in Ha as (? & [db0 f0] & Hlock & Ha).
  apply exec_run_Ok in Hlock as (Hf & Hf0 & Hlock). apply lock_chain_Ok in Hlock. cbn in Hf0, Hlock. subst.
  apply bind_run_Ok in Ha as (found & [db1 f1] & Hsel & Ha).
  apply exec_run_Ok in Hsel as (_ & Hf1 & Hsel). apply select_event_Ok in Hsel as (Hdb & id & Hid & Hfound). cbn in Hf1, Hdb, Hfound. subst.
  split; [done|]. destruct (select_one _ _ _) as [row|] eqn:Hfound.
  - apply bind_run_Ok in Ha as (rec' & ? & [Hrec ->]%lift_run_Ok & Ha).
    apply bind_run_Ok in Ha as (expected & ? & [Hexp ->]%lift_run_Ok & Ha).
    apply bind_run_Ok in Ha as (? & ? & [Hck ->]%lift_run_Ok & Ha). injection Ha as <- <-.
    apply raise_if_Ok, orb_false_iff in Hck as [Heq%negb_false_iff Hd%bool_decide_eq_false].
    apply dec_stable in Hd. split; [done|]. left. split; [done|].
    apply select_one_Some in Hfound as [Hin Hp]. apply andb_true_iff in Hp as [Hc%bool_decide_eq_true Hp%bool_decide_eq_true].
    exists row. split_and!; try done; [by rewrite Hp|by rewrite Hd].
  - apply bind_run_Ok in Ha as (previous & [db2 f2] & Hlast & Ha).
    apply exec_run_Ok in Hlast as (_ & Hf2 & Hlast). apply select_last_spec in Hlast as [Hdb Hprev]; [|done]. cbn in Hf2, Hdb, Hprev. subst.
    apply bind_run_Ok in Ha as (entry & ? & [Hentry ->]%lift_run_Ok & Ha).
    apply bind_run_Ok in Ha as (i & ? & [Hi ->]%lift_run_Ok & Ha).
    apply bind_run_Ok in Ha as (o & ? & [Ho ->]%lift_run_Ok & Ha).
    apply bind_run_Ok in Ha as (p & ? & [Hp ->]%lift_run_Ok & Ha).
    apply bind_run_Ok in Ha as (row & [db3 f3] & Hins & Ha). apply exec_run_Ok in Hins as (_ & Hf3 & Hins).
    apply insert_event_Ok in Hins as (r & -> & Hrow & Hc & Hx & Hdb). cbn in Hf3, Hrow, Hx, Hdb. subst.
    apply bind_run_Ok in Ha as (? & ? & [[= <-] ->]%lift_run_Ok & Ha).
    apply bind_run_Ok in Ha as (rec' & ? & [Hrec ->]%lift_run_Ok & Ha).
    apply bind_run_Ok in Ha as (? & ? & [_ ->]%lift_run_Ok & Ha). injection Ha as <- <-.
    split; [done|]. right. unfold next_place.
    destruct (last (chain (ev_chain_id e) (ad_events (s_db s)))); eauto 20.
Qed.
End Append.

(** ** Chains stay linked *)

Section Invariant.
Context `{PyFloat} `{PgEnv} `{PgJsonb}.
Context (authenticate : AuditAuthenticator).
Implicit Types (t : list audit_row) (r : audit_row) (c : pystr) (db : audit_db).

(** The rows of a chain read as a linked chain that begins where [origin]
    allows; an empty chain begins at genesis. *)
Definition chain_inv (origin : Z -> list N -> Prop) c t : Prop :=
  exists rs start previous last_seq digest,
    map_each _record (chain c t) = Ok rs
    /\ linked authenticate c start previous rs last_seq digest
    /\ (rs = [] -> start = 1 /\ previous = GENESIS_DIGEST)
    /\ origin start previous.

Lemma chain_records c t rs : map_each _record (chain c t) = Ok rs ->
  Forall2 (fun r rec => _record r = Ok rec) (chain c t) rs.
Proof. by intros ?%map_each_Ok. Qed.

Lemma next_place_linked c db rs start previous last_seq digest :
  map_each _record (chain c (ad_events db)) = Ok rs ->
  linked authenticate c start previous rs last_seq digest ->
  (rs = [] -> start = 1 /\ previous = GENESIS_DIGEST) ->
  next_place c db = (last_seq + 1, digest).
Proof.
  intros Hm%map_each_Ok Hl Hnil. unfold next_place.
  destruct rs as [|rec rs _] using rev_ind.
  - apply Forall2_nil_inv_r in Hm as ->. inversion Hl; subst. destruct Hnil as [-> ->]; done.
  - apply Forall2_app_inv_r in Hm as (l1 & l2 & _ & Hlast & ->).
    apply Forall2_cons_inv_r in Hlast as (r & l3 & Hr & Hnl & ->). apply Forall2_nil_inv_r in Hnl as ->.
    rewrite last_snoc. apply linked_last in Hl as [-> ->]. apply record_Ok in Hr as (_ & -> & _ & _ & ->). done.
Qed.

(** A row that continues its chain. *)
Lemma chain_inv_snoc origin c db r rec :
  table_ok (ad_events db ++ [r]) -> chain_inv origin c (ad_events db) -> _record r = Ok rec ->
  (au_actor_user_id r = c -> record_ok authenticate c (fst (next_place c db)) (snd (next_place c db)) rec) ->
  origin 1 GENESIS_DIGEST ->
  chain_inv origin c (ad_events db ++ [r]).
Proof.
  intros Ht (rs & start & previous & last_seq & digest & Hm & Hl & Hnil & Ho) Hrec Hok Hgen.
  pose proof (next_place_linked c db rs start previous last_seq digest Hm Hl Hnil) as Hnext.
  rewrite Hnext in Hok. cbn in Hok.
  assert (chain c (ad_events db ++ [r]) = if of_chain c r then chain c (ad_events db) ++ [r] else chain c (ad_events db)) as Hch.
  { apply chain_snoc; [done|]. intros Hc r' Hr'. destruct (Hok Hc) as (_ & Hs & _).
    apply record_Ok in Hrec as (_ & Hseq & _). rewrite <- Hseq, Hs.
    apply map_each_Ok in Hm. apply list_elem_of_lookup in Hr' as [i Hi].
    destruct (Forall2_lookup_l _ _ _ _ _ Hm Hi) as (rec' & Hi' & Hrec').
    apply record_Ok in Hrec' as (_ & <- & _). rewrite (linked_sequence _ _ _ _ _ _ _ _ _ Hl Hi').
    apply lookup_lt_Some in Hi'. rewrite (linked_length _ _ _ _ _ _ _ Hl). lia. }
  unfold of_chain in Hch. case_bool_decide as Hc.
  - exists (rs ++ [rec]), start, previous, (last_seq + 1), (ar_entry_digest rec). split_and!; try done.
    + apply map_each_Ok in Hm. apply map_each_Ok. rewrite Hch. apply Forall2_app; [done|by constructor].
    + apply linked_snoc with digest; auto.
    + by destruct rs.
  - exists rs, start, previous, last_seq, digest. by rewrite Hch.
Qed.

(** What an append of a stable event does to the table. *)
Lemma append_step e s rec s' :
  table_ok (ad_events (s_db s)) -> stable e = true -> append e authenticate s = (Ok rec, s') ->
  s_failed s' = false /\
  ((s_db s' = s_db s /\ exists r, r ∈ ad_events (s_db s) /\ au_actor_user_id r = ev_chain_id e
      /\ uuid_in (ev_event_id e) = Some (au_event_id r) /\ _record r = Ok rec /\ event_eqb (ar_event rec) e = true
      /\ entry_digest authenticate (ev_key_id (ar_event rec)) (ar_previous_digest rec) e (ar_sequence rec)
         = Ok (ar_entry_digest rec))
   \/ exists r, s_db s' = set_events (ad_events (s_db s) ++ [r]) (s_db s) /\ table_ok (ad_events (s_db s) ++ [r])
      /\ _record r = Ok rec /\ au_actor_user_id r = ev_chain_id e /\ au_event_id r = ev_event_id e
      /\ ar_event rec = read_event e
      /\ record_ok authenticate (ev_chain_id e) (fst (next_place (ev_chain_id e) (s_db s)))
           (snd (next_place (ev_chain_id e) (s_db s))) rec).
Proof.
  intros Ht Hst Ha. apply append_cases in Ha as (_ & Hf & Ha); [|done]. split; [done|].
  destruct Ha as [Ha|(i & o & p & sequence & previous & entry & now & r & Hnext & He & Hi & Ho & Hp & Hrow & Hrec & Hc & Hx & Hdb)];
    [by left|right].
  pose proof Hst as Hst'. unfold stable in Hst'. split_bools. rewrite stored_text_canonical in Hi, Ho by done.
  rewrite stored_text_canonical in Hp by done. simplify_eq.
  destruct (stored_event e sequence previous entry now r rec Hst Hrow Hrec) as [Hread Hid].
  assert (au_actor_user_id r = ev_chain_id e /\ au_chain_sequence r = sequence /\ au_prev_hash r = previous
          /\ au_entry_hash r = entry) as (Ha & Hs & Hpv & Hen).
  { unfold event_row in Hrow. inv_ok. by subst. }
  apply record_Ok in Hrec as Hrec'. destruct Hrec' as (_ & Rs & _ & Rp & Re).
  exists r. split_and!; try done.
  - destruct Ht as [Hu Hck]. split; [apply unique_ok_snoc; [apply audit_conflict_sym|done]|].
    apply Forall_app. split; [done|by constructor].
  - rewrite Hnext. cbn. unfold record_ok. rewrite Hread. split_and!; [done|congruence|congruence|].
    rewrite read_event_digest. cbn [read_event ev_key_id]. congruence.
Qed.

Lemma append_inv (origin : pystr -> Z -> list N -> Prop) e s rec s' :
  table_ok (ad_events (s_db s)) -> (forall c, chain_inv (origin c) c (ad_events (s_db s))) ->
  (forall c, origin c 1 GENESIS_DIGEST) ->
  stable e = true -> append e authenticate s = (Ok rec, s') ->
  table_ok (ad_events (s_db s')) /\ forall c, chain_inv (origin c) c (ad_events (s_db s')).
Proof.
  intros Ht Hinv Hgen Hst Ha. destruct (append_step e s rec s' Ht Hst Ha) as (_ & [[-> _]|(r & -> & Ht' & Hrec & Hc & _ & _ & Hok)]); [done|].
  cbn. split; [done|]. intros c. eapply chain_inv_snoc; [done|done|done| |done]. intros Hrc. congruence.
Qed.
End Invariant.

(** ** Canonical bytes determine an event *)

Section Injective.
Context `{PyFloat}.

Definition canonical_text (t : pystr) : bool :=
  match loads t with Ok v => json_wf v && bool_decide (dumps false v = Ok t) | Err _ => false end.

(** Encodable strings and canonical JSON text. *)
Definition event_wf (e : AuditEvent) : bool :=
  forallb (forallb scalar) (event_texts e)
  && canonical_text (ev_inputs_json e) && canonical_text (ev_outputs_json e)
  && canonical_text (ev_artifact_pointers_json e).

(** What the digest covers of an event: all but the name of the key, which is not
    in the canonical bytes; it is only passed to the authenticator. *)
Definition event_content (e : AuditEvent) :=
  ([ev_event_id e; ev_chain_id e; ev_auth_principal e; ev_event_class e; ev_action_type e; ev_description e;
    ev_correlation_id e; ev_outcome e; ev_inputs_json e; ev_outputs_json e; ev_artifact_pointers_json e],
   [ev_agent_id e; ev_conversation_id e; ev_outcome_detail e],
   instant (ev_started_at e), instant <$> ev_completed_at e, ev_schema_version e).

Lemma canonical_text_inj t1 t2 v1 v2 :
  canonical_text t1 = true -> canonical_text t2 = true -> loads t1 = Ok v1 -> loads t2 = Ok v2 ->
  sort_json v1 = sort_json v2 -> t1 = t2.
Proof.
  unfold canonical_text. intros H1 H2 L1 L2 Hs. rewrite L1 in H1. rewrite L2 in H2. split_bools.
  assert (dumps false (sort_json v1) = Ok t1) as D1 by (by apply dumps_sort).
  assert (dumps false (sort_json v2) = Ok t2) as D2 by (by apply dumps_sort).
  rewrite Hs, D2 in D1. by injection D1.
Qed.

Definition iso_suffix (version : Z) : pystr := if version =? 1 then u "+00:00" else u "Z".

(** Both versions, as one object. *)
Definition event_object (e : AuditEvent) (sequence : Z) (i o p : json) : list (pystr * json) :=
  (if ev_schema_version e =? 1 then [] else [(u "chain_sequence", JInt sequence)])
  ++ event_members e (ev_schema_version e) i o p (iso_text (instant (ev_started_at e)) ++ iso_suffix (ev_schema_version e))
       ((fun t => iso_text (instant t) ++ iso_suffix (ev_schema_version e)) <$> ev_completed_at e).

Definition times_ok (e : AuditEvent) : bool :=
  in_datetime_range (instant (ev_started_at e))
  && match ev_completed_at e with Some t => in_datetime_range (instant t) | None => true end.

Lemma iso_Ok (f : datetime -> result pystr) suffix d s :
  (forall d, f d = t ← astimezone_utc d; Ok (iso_text t ++ suffix)) ->
  f d = Ok s -> s = iso_text (instant d) ++ suffix /\ in_datetime_range (instant d) = true.
Proof. intros Hf. rewrite Hf. unfold astimezone_utc. intros Hs. inv_ok. subst. done. Qed.

Lemma opt_map_iso (f : datetime -> result pystr) suffix o o' :
  (forall d, f d = t ← astimezone_utc d; Ok (iso_text t ++ suffix)) ->
  opt_map f o = Ok o' ->
  o' = ((fun t => iso_text (instant t) ++ suffix) <$> o)
  /\ match o with Some t => in_datetime_range (instant t) | None => true end = true.
Proof.
  intros Hf. destruct o as [d|]; cbn; [|by intros [= <-]].
  intros (s & [-> Hr]%(iso_Ok f suffix) & [= <-])%bind_Ok_inv; done.
Qed.

Lemma canonical_bytes_object e sequence bytes :
  canonical_event_bytes e sequence = Ok bytes ->
  exists i o p text, loads (ev_inputs_json e) = Ok i /\ loads (ev_outputs_json e) = Ok o
    /\ loads (ev_artifact_pointers_json e) = Ok p /\ times_ok e = true
    /\ dumps (ev_schema_version e =? 1) (JObj (event_object e sequence i o p)) = Ok text
    /\ utf8_encode text = Ok bytes /\ (ev_schema_version e = 1 \/ ev_schema_version e = 2).
Proof.
  unfold canonical_event_bytes, event_object, iso_suffix, times_ok. intros Hb. apply bind_Ok_inv in Hb as (? & _ & Hb).
  destruct (Z.eqb_spec (ev_schema_version e) 1) as [Hv|Hv].
  - unfold _canonical_event_v1 in Hb. apply bind_Ok_inv in Hb as (i & Hi & Hb). apply bind_Ok_inv in Hb as (o & Ho & Hb).
    apply bind_Ok_inv in Hb as (p & Hp & Hb). apply bind_Ok_inv in Hb as (st & Hst & Hb).
    apply bind_Ok_inv in Hb as (co & Hco & Hb). apply bind_Ok_inv in Hb as (text & Htext & Hb).
    apply (iso_Ok utc_isoformat (u "+00:00")) in Hst as [-> Hr]; [|done].
    apply (opt_map_iso utc_isoformat (u "+00:00")) in Hco as [-> Hc]; [|done].
    exists i, o, p, text. rewrite Hr, Hc, Hv in *. split_and!; auto.
  - apply bind_Ok_inv in Hb as (? & Hv2%raise_unless_Ok%Z.eqb_eq & Hb).
    unfold _canonical_event_v2 in Hb. apply bind_Ok_inv in Hb as (i & Hi & Hb). apply bind_Ok_inv in Hb as (o & Ho & Hb).
    apply bind_Ok_inv in Hb as (p & Hp & Hb). apply bind_Ok_inv in Hb as (st & Hst & Hb).
    apply bind_Ok_inv in Hb as (co & Hco & Hb). apply bind_Ok_inv in Hb as (text & Htext & Hb).
    apply (iso_Ok _utc_iso (u "Z")) in Hst as [-> Hr]; [|done].
    apply (opt_map_iso _utc_iso (u "Z")) in Hco as [-> Hc]; [|done].
    exists i, o, p, text. rewrite Hr, Hc. split_and!; auto.
Qed.

Lemma event_object_keys e sequence i o p : NoDup (fst <$> event_object e sequence i o p).
Proof.
  unfold event_object. destruct (ev_schema_version e =? 1); cbn [fmap list_fmap app event_members fst];
    apply (bool_decide_eq_true_1 (NoDup _)); vm_compute; reflexivity.
Qed.

Lemma event_object_wf e sequence i o p :
  event_wf e = true -> loads (ev_inputs_json e) = Ok i -> loads (ev_outputs_json e) = Ok o ->
  loads (ev_artifact_pointers_json e) = Ok p -> json_wf (JObj (event_object e sequence i o p)) = true.
Proof.
  unfold event_wf, canonical_text, event_texts. intros Hw Hi Ho Hp. rewrite Hi, Ho, Hp in Hw. split_bools.
  assert (forall t suffix, forallb scalar suffix = true -> forallb scalar (iso_text t ++ suffix) = true) as Hiso.
  { intros t suffix Hs. rewrite forallb_app, Hs, ascii_scalar by apply iso_text_ascii. done. }
  assert (forallb scalar (iso_suffix (ev_schema_version e)) = true) as Hsuf by (unfold iso_suffix; by destruct (_ =? 1)).
  rewrite forallb_app in *. cbn [forallb] in *. split_bools.
  assert (forall s, Some s ∈ [ev_agent_id e; ev_conversation_id e; ev_outcome_detail e] -> forallb scalar s = true) as Hopt.
  { intros s Hs. match goal with Ho : forallb _ (omap _ _) = true |- _ => rewrite forallb_forall in Ho; apply Ho end.
    apply list_elem_of_In, list_elem_of_omap. exists (Some s). done. }
  assert (forall o, (forall s, o = Some s -> forallb scalar s = true) -> json_wf (opt_str o) = true) as Hos by (intros [s|]; cbn; auto).
  assert (json_wf (opt_str (ev_agent_id e)) = true) as Wa by (apply Hos; intros s Hs; apply Hopt; rewrite Hs; left).
  assert (json_wf (opt_str (ev_conversation_id e)) = true) as Wc by (apply Hos; intros s Hs; apply Hopt; rewrite Hs; right; left).
  assert (json_wf (opt_str (ev_outcome_detail e)) = true) as Wo by (apply Hos; intros s Hs; apply Hopt; rewrite Hs; do 2 right; left).
  assert (json_wf (opt_str ((fun t => iso_text (instant t) ++ iso_suffix (ev_schema_version e)) <$> ev_completed_at e)) = true) as Wt.
  { apply Hos. intros s. destruct (ev_completed_at e); cbn; [intros [= <-]; by apply Hiso|done]. }
  specialize (Hiso (instant (ev_started_at e)) _ Hsuf).
  cbn [json_wf]. apply andb_true_iff. split; [apply bool_decide_eq_true, event_object_keys|].
  unfold event_object. rewrite forallb_app. apply andb_true_iff. split; [by destruct (ev_schema_version e =? 1)|].
  cbn [event_members forallb]. clear Hos Hopt. repeat first [done | apply andb_true_iff; split].
Qed.
End Injective.

Section Tamper.
Context `{PyFloat}.

Lemma event_object_member n e sequence i o p m : event_members e (ev_schema_version e) i o p
    (iso_text (instant (ev_started_at e)) ++ iso_suffix (ev_schema_version e))
    ((fun t => iso_text (instant t) ++ iso_suffix (ev_schema_version e)) <$> ev_completed_at e) !! n = Some m ->
  m ∈ event_object e sequence i o p.
Proof. intros Hm. apply elem_of_app. right. by eapply list_elem_of_lookup_2. Qed.

Lemma opt_str_inj a b : sort_json (opt_str a) = sort_json (opt_str b) -> a = b.
Proof. destruct a, b; cbn; congruence. Qed.

Lemma JInt_inj a b : sort_json (JInt a) = sort_json (JInt b) -> a = b.
Proof. cbn. congruence. Qed.
Lemma JStr_inj a b : sort_json (JStr a) = sort_json (JStr b) -> a = b.
Proof. cbn. congruence. Qed.

(** Canonical bytes determine what they cover. *)
Lemma canonical_bytes_inj e1 e2 s1 s2 bytes :
  event_wf e1 = true -> event_wf e2 = true ->
  canonical_event_bytes e1 s1 = Ok bytes -> canonical_event_bytes e2 s2 = Ok bytes ->
  event_content e1 = event_content e2.
Proof.
  intros W1 W2 B1 B2.
  apply canonical_bytes_object in B1 as (i1 & o1 & p1 & t1 & I1 & O1 & P1 & T1 & D1 & U1 & _).
  apply canonical_bytes_object in B2 as (i2 & o2 & p2 & t2 & I2 & O2 & P2 & T2 & D2 & U2 & _).
  pose proof (event_object_wf e1 s1 _ _ _ W1 I1 O1 P1) as F1. pose proof (event_object_wf e2 s2 _ _ _ W2 I2 O2 P2) as F2.
  assert (t1 = t2) as <- by (eapply utf8_encode_inj; [exact (dumps_scalar _ _ _ F1 D1)|exact (dumps_scalar _ _ _ F2 D2)|done|done]).
  pose proof (loads_text _ _ _ F1 D1) as L1. rewrite (loads_text _ _ _ F2 D2) in L1. apply Ok_inj in L1. symmetry in L1.
  assert (forall k x1 x2, (k, x1) ∈ event_object e1 s1 i1 o1 p1 -> (k, x2) ∈ event_object e2 s2 i2 o2 p2 ->
            sort_json x1 = sort_json x2) as Hm.
  { intros k x1 x2. apply (sort_json_member _ _ k _ _ L1), event_object_keys. }
  clear D1 D2 U1 U2 F1 F2 L1. unfold event_wf, times_ok in *. split_bools.
  assert (ev_schema_version e1 = ev_schema_version e2) as Hv.
  { apply JInt_inj, (Hm (u "schema_version")); apply (event_object_member 0); reflexivity. }
  assert (forall k a b, (k, JStr a) ∈ event_object e1 s1 i1 o1 p1 -> (k, JStr b) ∈ event_object e2 s2 i2 o2 p2 -> a = b) as Hs.
  { intros k a b M1 M2. apply JStr_inj. exact (Hm k _ _ M1 M2). }
  assert (forall k a b, (k, opt_str a) ∈ event_object e1 s1 i1 o1 p1 -> (k, opt_str b) ∈ event_object e2 s2 i2 o2 p2 -> a = b) as Hopt.
  { intros k a b M1 M2. apply opt_str_inj. exact (Hm k _ _ M1 M2). }
  assert (instant (ev_started_at e1) = instant (ev_started_at e2)) as Hst.
  { apply iso_text_inj; [done..|]. apply (app_inv_tail (iso_suffix (ev_schema_version e1))). rewrite Hv at 2.
    apply (Hs (u "started_at")); apply (event_object_member 15); reflexivity. }
  assert (instant <$> ev_completed_at e1 = instant <$> ev_completed_at e2) as Hco.
  { assert (((fun t => iso_text (instant t) ++ iso_suffix (ev_schema_version e1)) <$> ev_completed_at e1)
            = ((fun t => iso_text (instant t) ++ iso_suffix (ev_schema_version e2)) <$> ev_completed_at e2)) as Hc
      by (apply (Hopt (u "completed_at")); apply (event_object_member 16); reflexivity).
    destruct (ev_completed_at e1) as [c1|], (ev_completed_at e2) as [c2|]; try done. 
    apply (f_equal Some), iso_text_inj; [done..|]. apply (app_inv_tail (iso_suffix (ev_schema_version e1))). rewrite Hv at 2.
    by apply (inj Some). }
  unfold event_content. rewrite Hst, Hco, Hv.
  rewrite (Hs (u "event_id") (ev_event_id e1) (ev_event_id e2)) by (apply (event_object_member 1); reflexivity).
  rewrite (Hs (u "actor_user_id") (ev_chain_id e1) (ev_chain_id e2)) by (apply (event_object_member 2); reflexivity).
  rewrite (Hs (u "auth_principal") (ev_auth_principal e1) (ev_auth_principal e2)) by (apply (event_object_member 3); reflexivity).
  rewrite (Hs (u "event_class") (ev_event_class e1) (ev_event_class e2)) by (apply (event_object_member 5); reflexivity).
  rewrite (Hs (u "action_type") (ev_action_type e1) (ev_action_type e2)) by (apply (event_object_member 6); reflexivity).
  rewrite (Hs (u "description") (ev_description e1) (ev_description e2)) by (apply (event_object_member 7); reflexivity).
  rewrite (Hs (u "correlation_id") (ev_correlation_id e1) (ev_correlation_id e2)) by (apply (event_object_member 9); reflexivity).
  rewrite (Hs (u "outcome") (ev_outcome e1) (ev_outcome e2)) by (apply (event_object_member 10); reflexivity).
  rewrite (Hopt (u "agent_id") (ev_agent_id e1) (ev_agent_id e2)) by (apply (event_object_member 4); reflexivity).
  rewrite (Hopt (u "conversation_id") (ev_conversation_id e1) (ev_conversation_id e2)) by (apply (event_object_member 8); reflexivity).
  rewrite (Hopt (u "outcome_detail") (ev_outcome_detail e1) (ev_outcome_detail e2)) by (apply (event_object_member 11); reflexivity).
  rewrite (canonical_text_inj (ev_inputs_json e1) (ev_inputs_json e2) i1 i2) by first [done | apply (Hm (u "inputs_meta")); apply (event_object_member 12); reflexivity].
  rewrite (canonical_text_inj (ev_outputs_json e1) (ev_outputs_json e2) o1 o2) by first [done | apply (Hm (u "outputs_meta")); apply (event_object_member 13); reflexivity].
  rewrite (canonical_text_inj (ev_artifact_pointers_json e1) (ev_artifact_pointers_json e2) p1 p2) by first [done | apply (Hm (u "artifact_pointers")); apply (event_object_member 14); reflexivity].
  done.
Qed.

(** Two records whose digests authenticate different payloads and are equal. *)
Definition colliding (authenticate : AuditAuthenticator) (r1 r2 : AuditRecord) : Prop :=
  exists b1 b2 d, canonical_event_bytes (ar_event r1) (ar_sequence r1) = Ok b1
    /\ canonical_event_bytes (ar_event r2) (ar_sequence r2) = Ok b2
    /\ ar_previous_digest r1 ++ b1 <> ar_previous_digest r2 ++ b2
    /\ _authenticate authenticate (ev_key_id (ar_event r1)) (ar_previous_digest r1 ++ b1) = Ok d
    /\ _authenticate authenticate (ev_key_id (ar_event r2)) (ar_previous_digest r2 ++ b2) = Ok d.
Definition collision (authenticate : AuditAuthenticator) (rs1 rs2 : list AuditRecord) : Prop :=
  exists r1 r2, r1 ∈ rs1 /\ r2 ∈ rs2 /\ colliding authenticate r1 r2.

Lemma collision_cons authenticate r1 r2 rs1 rs2 :
  collision authenticate rs1 rs2 -> collision authenticate (r1 :: rs1) (r2 :: rs2).
Proof. intros (x1 & x2 & H1 & H2 & Hc). exists x1, x2. split_and!; [by right|by right|done]. Qed.

Lemma authenticate_length authenticate k p d : _authenticate authenticate k p = Ok d -> length d = 32%nat.
Proof. unfold _authenticate, _digest_bytes. intros Ha. inv_ok. subst. by apply Nat.eqb_eq. Qed.

Definition same_content (r1 r2 : AuditRecord) : Prop := event_content (ar_event r1) = event_content (ar_event r2).

(** Records in one place with one digest. *)
Lemma entry_digest_inj authenticate c s p1 p2 r1 r2 :
  event_wf (ar_event r1) = true -> event_wf (ar_event r2) = true -> length p1 = 32%nat -> length p2 = 32%nat ->
  record_ok authenticate c s p1 r1 -> record_ok authenticate c s p2 r2 -> ar_entry_digest r1 = ar_entry_digest r2 ->
  colliding authenticate r1 r2 \/ (p1 = p2 /\ same_content r1 r2).
Proof.
  intros W1 W2 L1 L2 (_ & S1 & P1 & (b1 & B1 & A1)%bind_Ok_inv) (_ & S2 & P2 & (b2 & B2 & A2)%bind_Ok_inv) Hd.
  rewrite <- Hd in A2. destruct (decide (p1 ++ b1 = p2 ++ b2)) as [Heq|Hne]; [right|left].
  - apply app_inj_1 in Heq as [-> ->]; [|congruence]. split; [done|]. by eapply canonical_bytes_inj.
  - exists b1, b2, (ar_entry_digest r1). by rewrite S1, S2, P1, P2.
Qed.

Lemma linked_inj authenticate c s p1 p2 rs1 rs2 l1 l2 d :
  length p1 = 32%nat -> length p2 = 32%nat ->
  linked authenticate c s p1 rs1 l1 d -> linked authenticate c s p2 rs2 l2 d -> length rs1 = length rs2 ->
  Forall (fun r => event_wf (ar_event r) = true) rs1 -> Forall (fun r => event_wf (ar_event r) = true) rs2 ->
  collision authenticate rs1 rs2 \/ (p1 = p2 /\ Forall2 same_content rs1 rs2).
Proof.
  intros L1 L2 H1. revert p2 rs2 L2. induction H1 as [s p1|s p1 r1 rs1 l1 d O1 H1 IH]; intros p2 rs2 L2 H2 Hlen W1 W2.
  - destruct rs2; [|done]. inversion H2; subst. right. split; [done|constructor].
  - destruct rs2 as [|r2 rs2]; [done|]. inversion H2 as [|? ? ? ? ? ? O2 H2']; subst.
    apply Forall_cons_1 in W1 as [W1 W1']. apply Forall_cons_1 in W2 as [W2 W2'].
    assert (forall p r, record_ok authenticate c s p r -> length (ar_entry_digest r) = 32%nat) as Hd
      by (intros p r (_ & _ & _ & (b & _ & Ha)%bind_Ok_inv); by eapply authenticate_length).
    destruct (IH (Hd _ _ O1) (ar_entry_digest r2) rs2) as [?|[Heq HF]]; [by eapply Hd|done|by injection Hlen|done|done| |].
    { left. by apply collision_cons. }
    destruct (entry_digest_inj _ _ _ _ _ _ _ W1 W2 L1 L2 O1 O2 Heq) as [Hc|[-> Hc]].
    { left. exists r1, r2. split_and!; [by left|by left|done]. }
    right. split; [done|by constructor].
Qed.
End Tamper.

(** Column values as PostgreSQL returns them: encodable text, and JSONB values
    other than a string (which the code would parse once more). *)
Section RowWf.
Context `{PyFloat} `{PgEnv} `{PgJsonb}.

Definition row_texts (r : audit_row) : list pystr :=
  [au_event_id r; au_actor_user_id r; au_auth_principal r; au_event_class r; au_action_type r; au_description r;
   au_correlation_id r; au_outcome r; au_key_id r] ++ omap id [au_agent_id r; au_conversation_id r; au_outcome_detail r].
Definition column_wf (v : json) : bool := match v with JStr _ => false | _ => json_wf v end.
Definition row_wf (r : audit_row) : bool :=
  forallb (forallb scalar) (row_texts r)
  && column_wf (au_inputs_meta r) && column_wf (au_outputs_meta r) && column_wf (au_artifact_pointers r).

Lemma canonical_json_text v k t :
  column_wf v = true -> canonical_json (json_or v (empty_of k)) k = Ok t -> canonical_text t = true.
Proof.
  intros Hw Hc. assert (column_wf (json_or v (empty_of k)) = true) as Hw' by (unfold json_or; destruct (falsy v), k; done).
  revert Hc Hw'. generalize (json_or v (empty_of k)). clear v Hw. intros v Hc Hw. apply canonical_json_Ok in Hc as (w & Hv & Hk & Hd).
  assert (v = w) as <- by (by destruct v; simplify_eq). assert (json_wf v = true) as Hwf by (by destruct v).
  unfold canonical_text. rewrite (loads_text false v t Hwf Hd), json_wf_sort by done.
  by rewrite bool_decide_eq_true_2 by (by apply dumps_sort).
Qed.

Lemma canonical_text_again t k t' : canonical_text t = true -> canonical_json (JStr t) k = Ok t' -> t' = t.
Proof.
  unfold canonical_text. intros Ht (w & Hw & _ & Hd)%canonical_json_Ok. rewrite Hw in Ht. split_bools. congruence.
Qed.

Lemma record_wf r rec : row_wf r = true -> _record r = Ok rec -> event_wf (ar_event rec) = true.
Proof.
  unfold row_wf. intros Hw (He & _)%record_Ok. split_bools. unfold row_event in He.
  change (JObj []) with (empty_of KDict) in He. change (JArr []) with (empty_of KList) in He.
  apply bind_Ok_inv in He as (i & Hi & He). apply bind_Ok_inv in He as (o & Ho & He). apply bind_Ok_inv in He as (p & Hp & He).
  apply canonical_json_text in Hi as Ti; [|done]. apply canonical_json_text in Ho as To; [|done].
  apply canonical_json_text in Hp as Tp; [|done]. apply post_init_Ok in He as (i' & o' & p' & -> & Ei & Eo & Ep). cbn in Ei, Eo, Ep.
  apply canonical_text_again in Ei as ->; [|done]. apply canonical_text_again in Eo as ->; [|done].
  apply canonical_text_again in Ep as ->; [|done]. unfold event_wf. cbn [with_json ev_inputs_json ev_outputs_json ev_artifact_pointers_json].
  rewrite Ti, To, Tp, !andb_true_r. done.
Qed.

(** ** Reading a chain *)

Lemma load_chain_run c start s rs s' :
  load_chain c start s = (Ok rs, s') ->
  s' = s /\ map_each _record (select_ordered "audit_chain" sequence_le
                (fun r => of_chain c r && (start <=? au_chain_sequence r)) (ad_events (s_db s))) = Ok rs.
Proof.
  unfold load_chain. intros Hl. apply bind_run_Ok in Hl as (? & ? & [_ ->]%lift_run_Ok & Hl).
  apply bind_run_Ok in Hl as (rows & s1 & Hs & [Hl ->]%lift_run_Ok). apply exec_run_Ok in Hs as (Hf & Hf' & Hs).
  unfold select_chain in Hs. apply bind_Ok_inv in Hs as (? & _ & [= <- Hdb]).
  destruct s as [db f], s1 as [db1 f1]. cbn in *. by subst.
Qed.

Lemma verify_chain_run c authenticate start previous s v s' :
  verify_chain c authenticate start previous s = (Ok v, s') ->
  s' = s /\ length previous = 32%nat /\ exists rs, load_chain c start s = (Ok rs, s)
    /\ verify_loop authenticate c start previous rs = Ok v.
Proof.
  unfold verify_chain, verify_records, _digest_bytes. intros Hv. apply bind_run_Ok in Hv as (? & ? & [Hl ->]%lift_run_Ok & Hv).
  apply raise_unless_Ok, Nat.eqb_eq in Hl. apply bind_run_Ok in Hv as (rs & s1 & Hload & [Hv ->]%lift_run_Ok).
  apply bind_Ok_inv in Hv as (? & _ & Hv). pose proof (load_chain_run _ _ _ _ _ Hload) as [-> _]. eauto 10.
Qed.

Lemma load_chain_wf c start s rs s' :
  Forall (fun r => row_wf r = true) (ad_events (s_db s)) -> load_chain c start s = (Ok rs, s') ->
  Forall (fun r => event_wf (ar_event r) = true) rs.
Proof.
  intros Hw [_ Hm]%load_chain_run. apply map_each_Ok in Hm.
  pose proof (proj1 (Forall_forall _ _) Hw) as Hall. apply Forall_forall.
  intros rec [i Hi]%list_elem_of_lookup. destruct (Forall2_lookup_r _ _ _ _ _ Hm Hi) as (r & Hr & Hrec).
  apply list_elem_of_lookup_2, elem_of_select_ordered in Hr as [Hr _]. by apply (record_wf r); [apply Hall|].
Qed.
End RowWf.
