(* ===== verification/AuditClaims.v ===== *)
(** * Claims about the audit chain

    Verification is exact; a verified chain is tamper evident; an append is
    idempotent and refuses a changed event; events PostgreSQL rewrites break
    an honest chain. *)

From Stdlib Require Import ZifyBool.
From S2P Require Import Prelude Regex Errors Domain Sha256 Json IsoTime JsonDecode Pg AuditChain AuditSpec.

(** ** References for witnesses *)

(** Floats by a table of their texts. *)
Definition sample_reprs : list pystr := [u "0.5"; u "1.5"; u "-0.0"; u "0.0"; u "1e+16"; u "1e-07"].
#[global] Program Instance float_reference : PyFloat | 100 := {|
  float_value := JFloat;
  is_repr t := bool_decide (t ∈ sample_reprs)
|}.
Next Obligation. done. Qed.
Next Obligation.
  intros t Ht%bool_decide_eq_true. unfold sample_reprs in Ht.
  repeat (apply elem_of_cons in Ht as [->|Ht]); [..|by apply elem_of_nil in Ht].
  - exists [], [48%N], (u ".5"), []. split_and!; try done; [by left|by left|right; by exists 53%N, []|by left].
  - exists [], [49%N], (u ".5"), []. split_and!; try done; [by left|right; by exists 49%N, []|right; by exists 53%N, []|by left].
  - exists [45%N], [48%N], (u ".0"), []. split_and!; try done; [by right|by left|right; by exists 48%N, []|by left].
  - exists [], [48%N], (u ".0"), []. split_and!; try done; [by left|by left|right; by exists 48%N, []|by left].
  - exists [], [49%N], [], (u "e+16"). split_and!; try done; [by left|right; by exists 49%N, []|by left|].
    right. exists [43%N], 49%N, [54%N]. split_and!; try done. auto.
  - exists [], [49%N], [], (u "e-07"). split_and!; try done; [by left|right; by exists 49%N, []|by left|].
    right. exists [45%N], 48%N, [55%N]. split_and!; try done. auto.
Qed.

(** JSONB that keeps the order of keys. *)
#[global] Program Instance jsonb_reference : PgJsonb | 100 := {| key_order := id |}.
Next Obligation. done. Qed.

(** SHA-256 of the key name and the payload. *)
Definition sha_authenticator : AuditAuthenticator := fun key payload =>
  Ok (sha256_digest (key ++ payload)).

Definition sample_event (event_id inputs : pystr) : AuditEvent :=
  {| ev_event_id := event_id; ev_chain_id := u "owner"; ev_auth_principal := u "principal"; ev_agent_id := None;
     ev_event_class := u "auth"; ev_action_type := u "login"; ev_description := u "signed in";
     ev_conversation_id := None; ev_correlation_id := u "00000000-0000-4000-8000-0000000000aa";
     ev_outcome := u "success"; ev_outcome_detail := None; ev_inputs_json := inputs; ev_outputs_json := u "{}";
     ev_artifact_pointers_json := u "[]"; ev_started_at := utc 1000000; ev_completed_at := Some (Aware 3602000000 3600000000);
     ev_key_id := u "k1"; ev_schema_version := 2 |}.
Definition sample_id (n : string) : pystr := u "00000000-0000-4000-8000-0000000000" ++ u n.
Definition empty_audit : audit_db := AuditDb [] [] false.

Definition appended (events : list AuditEvent) (db : audit_db) : audit_db :=
  fold_left (fun db e => snd (audit_transaction (append e sha_authenticator) db)) events db.
Definition two_events : audit_db :=
  appended [sample_event (sample_id "01") (u "{}"); sample_event (sample_id "02") (quoted "{'a':1.5}")] empty_audit.

(** The records of the chain, and the same with the second one renumbered. *)
Definition two_records : list AuditRecord :=
  match fst (load_chain (u "owner") 1 (Session two_events false)) with Ok rs => rs | Err _ => [] end.
Definition renumber (n : Z) (r : AuditRecord) : AuditRecord :=
  {| ar_event := ar_event r; ar_sequence := n; ar_recorded_at := ar_recorded_at r;
     ar_previous_digest := ar_previous_digest r; ar_entry_digest := ar_entry_digest r |}.
Definition renumbered : list AuditRecord := alter (renumber 3) 1%nat two_records.

Example two_events_verify :
  cv_valid <$> (match fst (verify_chain (u "owner") sha_authenticator 1 GENESIS_DIGEST (Session two_events false)) with
                | Ok v => Some v | Err _ => None end) = Some true
  /\ length (ad_events two_events) = 2%nat.
Proof. vm_compute. split; reflexivity. Qed.

(** ** Verification *)

Section Claims.
Context `{PyFloat} `{PgEnv} `{PgJsonb}.

(** C14: [verify_records] is exact.  It returns a verdict exactly when the records
    split into a linked prefix, whose end it reports, and a rest that is empty,
    and then it says valid, or begins with a record that does not continue the
    chain, and then it names that record and the first thing wrong with it: of
    another chain, not the next sequence number, not linked to the digest before
    it, or an entry digest that is not the one of its content.  It raises exactly
    when the starting digest has not 32 bytes, or when the authenticator or the
    canonical form raises on the first record that passes the first three
    checks, with that error. *)
Theorem verify_records_exact authenticate c rs start previous :
  (forall v, verify_records rs c authenticate start previous = Ok v <->
    length previous = 32%nat /\
    exists good rest, rs = good ++ rest
      /\ linked authenticate c start previous good (cv_last_sequence v) (cv_last_digest v)
      /\ match rest with
         | [] => cv_valid v = true /\ cv_first_invalid_event_id v = None /\ cv_reason v = None
         | bad :: _ =>
             cv_valid v = false /\ cv_first_invalid_event_id v = Some (ev_event_id (ar_event bad))
             /\ exists reason, cv_reason v = Some reason
                /\ record_wrong authenticate c (cv_last_sequence v + 1) (cv_last_digest v) bad reason
         end)
  /\ (forall e, verify_records rs c authenticate start previous = Err e <->
      (length previous <> 32%nat /\ e = Exn ValueError_ "expected_previous_digest must contain 32 bytes")
      \/ (length previous = 32%nat /\ exists good bad rest last digest,
           rs = good ++ bad :: rest /\ linked authenticate c start previous good last digest
           /\ record_raises authenticate c (last + 1) digest bad e)).
Proof.
  unfold verify_records, _digest_bytes. destruct (Nat.eqb_spec (length previous) 32) as [Hlen|Hlen]; cbn.
  - split; split.
    + intros Hv. split; [done|]. apply verify_loop_spec in Hv. destruct (cv_valid v).
      * destruct Hv as (Hl & Hi & Hr). exists rs, []. by rewrite app_nil_r.
      * destruct Hv as (good & bad & rest & reason & -> & Hl & Hf & Hi & Hr). exists good, (bad :: rest). split_and!; try done.
        exists reason. split; [done|]. by apply record_fault_Some.
    + intros (_ & good & rest & -> & Hl & Hrest). rewrite (verify_loop_app _ _ _ _ _ _ _ _ Hl).
      destruct v as [valid first reason last digest]; cbn in *. destruct rest as [|bad rest]; cbn.
      * destruct Hrest as (-> & -> & ->). by replace (last + 1 - 1) with last by lia.
      * destruct Hrest as (-> & -> & why & -> & Hw). rewrite (proj2 (record_fault_Some _ _ _ _ _ _) Hw). cbn.
        by replace (last + 1 - 1) with last by lia.
    + intros Hv%verify_loop_Err. by right.
    + intros [[? _]|(_ & good & bad & rest & last & digest & -> & Hl & Hr)]; [done|].
      rewrite (verify_loop_app _ _ _ _ _ _ _ _ Hl). cbn. by rewrite (proj2 (record_fault_Err _ _ _ _ _ _) Hr).
  - split; split; [done|by intros [? _]|intros [= <-]; by left|].
    intros [[_ ->]|[? _]]; done.
Qed.

(** C15: a verified chain is tamper evident.  If the chain of an owner verifies in
    two databases from the same sequence number, with the same number of
    events and the same last digest, then either a record of one chain and a
    record of the other have different authenticated payloads with the same
    digest, or both databases hold the same events in the same order, up to the
    names of their keys, which the digests do not cover, and began from the same
    digest. *)
Theorem chain_tamper_evident authenticate c start p1 p2 db1 db2 v1 v2 s1 s2 :
  Forall (fun r => row_wf r = true) (ad_events db1) -> Forall (fun r => row_wf r = true) (ad_events db2) ->
  verify_chain c authenticate start p1 (Session db1 false) = (Ok v1, s1) ->
  verify_chain c authenticate start p2 (Session db2 false) = (Ok v2, s2) ->
  cv_valid v1 = true -> cv_valid v2 = true ->
  cv_last_sequence v1 = cv_last_sequence v2 -> cv_last_digest v1 = cv_last_digest v2 ->
  exists rs1 rs2,
    load_chain c start (Session db1 false) = (Ok rs1, Session db1 false)
    /\ load_chain c start (Session db2 false) = (Ok rs2, Session db2 false)
    /\ (collision authenticate rs1 rs2 \/ (p1 = p2 /\ Forall2 same_content rs1 rs2)).
Proof.
  intros W1 W2 V1 V2 T1 T2 Hs Hd.
  apply verify_chain_run in V1 as (_ & L1 & rs1 & R1 & V1). apply verify_chain_run in V2 as (_ & L2 & rs2 & R2 & V2).
  apply verify_loop_spec in V1. apply verify_loop_spec in V2. rewrite T1 in V1. rewrite T2 in V2.
  destruct V1 as [V1 _]. destruct V2 as [V2 _]. rewrite <- Hd in V2.
  apply linked_length in V1 as N1. apply linked_length in V2 as N2.
  apply (load_chain_wf _ _ (Session db1 false)) in R1 as F1; [|done]. apply (load_chain_wf _ _ (Session db2 false)) in R2 as F2; [|done].
  exists rs1, rs2. split_and!; [done|done|]. apply (linked_inj _ _ _ _ _ _ _ _ _ _ L1 L2 V1 V2 ltac:(lia) F1 F2).
Qed.

(** ** Appends *)

Lemma append_params authenticate e s rec s' :
  append e authenticate s = (Ok rec, s') ->
  storable (ev_chain_id e) = true /\ storable (ev_event_id e) = true.
Proof.
  unfold append. intros Ha. apply bind_run_Ok in Ha as (? & s0 & _ & Ha). apply bind_run_Ok in Ha as (? & s1 & Hsel & _).
  apply exec_run_Ok in Hsel as (_ & _ & Hsel). unfold select_event, text_params in Hsel. inv_ok. cbn in Hs. split_bools. done.
Qed.

(** The run of an append whose event is stored. *)
Lemma append_found authenticate e db r rec :
  table_ok (ad_events db) -> storable (ev_chain_id e) = true -> storable (ev_event_id e) = true ->
  uuid_in (ev_event_id e) = Some (au_event_id r) -> r ∈ ad_events db -> au_actor_user_id r = ev_chain_id e ->
  _record r = Ok rec ->
  append e authenticate (Session db false)
  = (expected ← entry_digest authenticate (ev_key_id (ar_event rec)) (ar_previous_digest rec) e (ar_sequence rec);
     raise_if (negb (event_eqb (ar_event rec) e) || bool_decide (ar_entry_digest rec <> expected))
       (Exn PlaneError "audit event identity has conflicting semantics") ;;
     Ok rec, Session db false).
Proof.
  intros Ht Sc Si Hid Hr Hc Hrec. unfold append.
  assert (exec (lock_chain (ev_chain_id e)) (Session db false) = (Ok (), Session db false)) as Hlock
    by (unfold exec, lock_chain, text_params; cbn; by rewrite Sc).
  assert (exec (select_event (ev_chain_id e) (ev_event_id e)) (Session db false) = (Ok (Some r), Session db false)) as Hsel.
  { unfold exec, select_event, text_params, uuid_param. cbn. rewrite Sc, Si, Hid. cbn.
    rewrite (select_one_unique _ _ _ r); [done|done|unfold of_chain; by rewrite !bool_decide_eq_true_2|].
    intros r' Hr' [_ Hp%bool_decide_eq_true]%andb_true_iff. apply (table_ok_elem (ad_events db)); [done..|]. by apply audit_conflict_id. }
  unfold mbind, SM_mbind. rewrite Hlock, Hsel. unfold lift. rewrite Hrec.
  destruct (entry_digest _ _ _ _ _) as [expected|x]; [|done]. cbn.
  destruct (raise_if _ _) as [[]|x]; done.
Qed.

Lemma append_stored authenticate e s rec s' :
  table_ok (ad_events (s_db s)) -> stable e = true -> append e authenticate s = (Ok rec, s') ->
  exists r, table_ok (ad_events (s_db s')) /\ r ∈ ad_events (s_db s') /\ s' = Session (s_db s') false
    /\ uuid_in (ev_event_id e) = Some (au_event_id r) /\ au_actor_user_id r = ev_chain_id e /\ _record r = Ok rec
    /\ event_eqb (ar_event rec) e = true
    /\ entry_digest authenticate (ev_key_id (ar_event rec)) (ar_previous_digest rec) e (ar_sequence rec) = Ok (ar_entry_digest rec).
Proof.
  intros Ht Hst Ha. pose proof (append_step _ _ _ _ _ Ht Hst Ha) as (Hf & Hstep).
  assert (s' = Session (s_db s') false) as Hs' by (destruct s'; cbn in *; by subst).
  pose proof Hst as Hst'. unfold stable in Hst'. split_bools.
  destruct Hstep as [(Hdb & r & Hr & Hc & Hid & Hrec & Heq & Hd)|(r & Hdb & Ht' & Hrec & Hc & Hid & Hread & Hok)].
  - exists r. rewrite Hdb in *. done.
  - exists r. rewrite Hdb in *. cbn. destruct Hok as (_ & Hseq & Hprev & Hdig). rewrite Hread in Hdig |- *.
    rewrite read_event_digest in Hdig. split_and!; try done.
    + apply elem_of_app. right. by left.
    + congruence.
    + apply read_event_eqb.
    + by rewrite Hseq, Hprev.
Qed.

(** Appending is idempotent.  Appending an event again after it was appended
    returns the same record and leaves the tables as they are; an event with
    the same identity in the chain and any other content, or with another
    digest, is refused and nothing is written. *)
Theorem append_idempotent authenticate e e' s rec s' :
  table_ok (ad_events (s_db s)) -> stable e = true -> append e authenticate s = (Ok rec, s') ->
  append e authenticate s' = (Ok rec, s')
  /\ (ev_chain_id e' = ev_chain_id e -> ev_event_id e' = ev_event_id e -> event_eqb (ar_event rec) e' = false ->
      exists x, append e' authenticate s' = (Err x, s')).
Proof.
  intros Ht Hst Ha. destruct (append_params _ _ _ _ _ Ha) as [Sc Si].
  destruct (append_stored _ _ _ _ _ Ht Hst Ha) as (r & Ht' & Hr & Hs' & Hid & Hc & Hrec & Heq & Hd). rewrite Hs'. split.
  - rewrite (append_found authenticate e _ r rec) by done. rewrite Hd. cbn. rewrite Heq, bool_decide_eq_false_2 by tauto. done.
  - intros Ec Ei Hne. rewrite (append_found authenticate e' _ r rec) by (congruence || done).
    destruct (entry_digest _ _ _ e' _) as [d|x]; cbn; [|eauto]. rewrite Hne. cbn. eauto.
Qed.
End Claims.

(** ** Witnesses *)

Definition verified (db : audit_db) : ChainVerification :=
  match fst (verify_chain (u "owner") sha_authenticator 1 GENESIS_DIGEST (Session db false)) with
  | Ok v => v
  | Err _ => {| cv_valid := false; cv_first_invalid_event_id := None; cv_reason := None; cv_last_sequence := 0;
                cv_last_digest := [] |}
  end.

(** The same events recorded at other times. *)
Definition re_recorded (r : audit_row) : audit_row :=
  {| au_event_id := au_event_id r; au_actor_user_id := au_actor_user_id r; au_auth_principal := au_auth_principal r;
     au_agent_id := au_agent_id r; au_event_class := au_event_class r; au_action_type := au_action_type r;
     au_description := au_description r; au_conversation_id := au_conversation_id r;
     au_correlation_id := au_correlation_id r; au_outcome := au_outcome r; au_outcome_detail := au_outcome_detail r;
     au_inputs_meta := au_inputs_meta r; au_outputs_meta := au_outputs_meta r;
     au_artifact_pointers := au_artifact_pointers r; au_started_at := au_started_at r;
     au_completed_at := au_completed_at r; au_recorded_at := au_recorded_at r + 7; au_chain_sequence := au_chain_sequence r;
     au_prev_hash := au_prev_hash r; au_entry_hash := au_entry_hash r; au_key_id := au_key_id r;
     au_schema_version := au_schema_version r |}.
Definition two_events_later : audit_db := AuditDb (re_recorded <$> ad_events two_events) [] false.

Lemma forallb_holds {A} (f : A -> bool) l : forallb f l = true -> Forall (fun x => f x = true) l.
Proof. intros Hl. apply Forall_forall. intros x Hx%list_elem_of_In. rewrite forallb_forall in Hl. auto. Qed.

Lemma chain_tamper_evident_witness :
  exists rs1 rs2,
    load_chain (u "owner") 1 (Session two_events false) = (Ok rs1, Session two_events false)
    /\ load_chain (u "owner") 1 (Session two_events_later false) = (Ok rs2, Session two_events_later false)
    /\ (collision sha_authenticator rs1 rs2 \/ (GENESIS_DIGEST = GENESIS_DIGEST /\ Forall2 same_content rs1 rs2)).
Proof.
  apply (chain_tamper_evident sha_authenticator (u "owner") 1 GENESIS_DIGEST GENESIS_DIGEST two_events two_events_later
           (verified two_events) (verified two_events_later) (Session two_events false) (Session two_events_later false)).
  - apply forallb_holds. vm_compute. reflexivity.
  - apply forallb_holds. vm_compute. reflexivity.
  - vm_compute. reflexivity.
  - vm_compute. reflexivity.
  - vm_compute. reflexivity.
  - vm_compute. reflexivity.
  - vm_compute. reflexivity.
  - vm_compute. reflexivity.
Defined.

(** The first record continues the chain; the renumbered one is named. *)
Lemma verify_records_exact_witness :
  exists first second, renumbered = [first; second]
    /\ verify_records renumbered (u "owner") sha_authenticator 1 GENESIS_DIGEST
       = Ok {| cv_valid := false; cv_first_invalid_event_id := Some (sample_id "02");
               cv_reason := Some "non_contiguous_sequence"%string;
               cv_last_sequence := 1; cv_last_digest := ar_entry_digest first |}.
Proof.
  destruct renumbered as [|first [|second [|]]] eqn:Hrs; try (vm_compute in Hrs; discriminate Hrs).
  exists first, second. split; [reflexivity|].
  apply (proj1 (verify_records_exact sha_authenticator (u "owner") [first; second] 1 GENESIS_DIGEST)).
  vm_compute in Hrs. injection Hrs as <- <-. split; [reflexivity|].
  eexists [_], [_]. split; [reflexivity|]. split.
  - eapply linked_cons; [split; [|split; [|split]]; vm_compute; reflexivity|].
    apply (linked_nil _ _ (1 + 1)).
  - split; [reflexivity|]. split; [reflexivity|]. eexists. split; [reflexivity|].
    apply wrong_sequence; [reflexivity|discriminate].
Defined.

Definition first_event : AuditEvent := sample_event (sample_id "01") (quoted "{'a':1.5}").
Definition first_run := append first_event sha_authenticator (Session empty_audit false).
Definition first_record : AuditRecord :=
  match fst first_run with
  | Ok r => r
  | Err _ => {| ar_event := first_event; ar_sequence := 0; ar_recorded_at := utc 0; ar_previous_digest := []; ar_entry_digest := [] |}
  end.

Lemma append_idempotent_witness :
  append first_event sha_authenticator (snd first_run) = (Ok first_record, snd first_run)
  /\ exists x, append (sample_event (sample_id "01") (u "{}")) sha_authenticator (snd first_run) = (Err x, snd first_run).
Proof.
  destruct (append_idempotent sha_authenticator first_event (sample_event (sample_id "01") (u "{}")) (Session empty_audit false)
              first_record (snd first_run)) as [H1 H2].
  - split; [done|constructor].
  - vm_compute. reflexivity.
  - vm_compute. reflexivity.
  - split; [exact H1|]. apply H2; vm_compute; reflexivity.
Defined.

(** ** Events the table rewrites *)

Definition unstable_events : list AuditEvent :=
  [sample_event (u "00000000-0000-4000-8000-0000000000AB") (u "{}");
   sample_event (sample_id "01") (quoted "{'n':1e+16}"); sample_event (sample_id "01") (quoted "{'n':-0.0}")].

(** An event that is valid but not stable is accepted, and from then on the
    untouched chain does not verify: an upper-case UUID, a float of at least
    10^16 or a negative zero comes back from the table in another form, so the
    recomputed digest differs; repeating the append is refused as a conflict. *)
Theorem unstable_event_breaks_chain : Forall (fun e =>
  event_post_init e = Ok e /\ stable e = false
  /\ exists rec db, audit_transaction (append e sha_authenticator) empty_audit = (Ok rec, db)
     /\ fst (verify_chain (u "owner") sha_authenticator 1 GENESIS_DIGEST (Session db false))
        = Ok {| cv_valid := false; cv_first_invalid_event_id := Some (ev_event_id (ar_event rec));
                cv_reason := Some "entry_digest_mismatch"%string; cv_last_sequence := 0; cv_last_digest := GENESIS_DIGEST |}
     /\ fst (append e sha_authenticator (Session db false))
        = raise PlaneError "audit event identity has conflicting semantics") unstable_events.
Proof.
  unfold unstable_events.
  repeat (apply Forall_cons; split; [split; [vm_compute; reflexivity|split; [vm_compute; reflexivity|
    eexists _, _; split; [vm_compute; reflexivity|split; vm_compute; reflexivity]]]|]).
  constructor.
Qed.
