(* ===== verification/AuditRetention.v ===== *)
(** * Audit retention (src/src/astralplane/audit_retention.py)

    A prefix of an audit chain can be removed once an authenticated anchor
    records where the retained part begins.  Anchors with their canonical
    bytes, the HMAC authenticator, and the methods of
    [AuditRetentionRepository] on the tables of the audit chain. *)

From S2P Require Import Prelude Regex Errors Domain Sha256 Json IsoTime JsonDecode Pg AuditChain.

(** ** Authenticators *)

Record AnchorAuthenticator : Type := {
  aa_sign : pystr -> list N -> result (list N);
  aa_verify : pystr -> list N -> list N -> result bool
}.

(** [hmac.new(key, payload, hashlib.sha256).digest()] *)
Definition hmac_sha256 (key payload : list N) : list N :=
  let key := if (64 <? length key)%nat then sha256_digest key else key in
  let block := key ++ replicate (64 - length key) 0%N in
  let inner := sha256_digest ((N.lxor 54 <$> block) ++ payload) in
  sha256_digest ((N.lxor 92 <$> block) ++ inner).

Section HMAC.
Context (key_resolver : pystr -> result (list N)).

Definition hmac_sign (key_id : pystr) (payload : list N) : result (list N) :=
  key ← key_resolver key_id;
  raise_if (length key <? 32)%nat (Exn ValueError_ "audit anchor HMAC keys must contain at least 32 bytes") ;;
  Ok (hmac_sha256 key payload).

(** [hmac.compare_digest] is equality. *)
Definition hmac_verify (key_id : pystr) (payload authentication : list N) : result bool :=
  expected ← hmac_sign key_id payload; Ok (bool_decide (expected = authentication)).

Definition HMACAnchorAuthenticator : AnchorAuthenticator := {| aa_sign := hmac_sign; aa_verify := hmac_verify |}.
End HMAC.

(** ** Anchors *)

Record AuditRetentionAnchor : Type := {
  ra_anchor_id : pystr;
  ra_chain_id : pystr;
  ra_first_retained_sequence : Z;
  ra_previous_entry_digest : list N;
  ra_retention_policy_digest : list N;
  ra_created_at : datetime;
  ra_key_id : pystr;
  ra_authentication : list N
}.

Definition _digest (name : string) (value : list N) : result unit :=
  raise_unless (length value =? 32)%nat (Exn ValueError_ (name ++ " must contain 32 bytes")).

(** [bytes(value)] of a [BYTEA] column, with its length. *)
Definition _bytes (value : list N) : result (list N) := _digest "audit digest" value ;; Ok value.

Definition bounded_name (name : string) (value : pystr) : result unit :=
  raise_if (bool_decide (py_strip value = []) || (512 <? length value)%nat)
    (Exn ValueError_ (name ++ " must be a bounded non-empty string")).

Definition anchor_post_init (a : AuditRetentionAnchor) : result AuditRetentionAnchor :=
  bounded_name "anchor_id" (ra_anchor_id a) ;;
  bounded_name "chain_id" (ra_chain_id a) ;;
  bounded_name "key_id" (ra_key_id a) ;;
  raise_if (ra_first_retained_sequence a <=? 1) (Exn ValueError_ "retention anchors begin after genesis") ;;
  _digest "previous_entry_digest" (ra_previous_entry_digest a) ;;
  _digest "retention_policy_digest" (ra_retention_policy_digest a) ;;
  _aware "created_at" (ra_created_at a) ;;
  raise_if (bool_decide (ra_authentication a = [])) (Exn ValueError_ "authentication must contain bytes") ;;
  Ok a.

(** [digest.hex()] *)
Definition bytes_hex (bs : list N) : pystr := bs ≫= fun b => hex_digits 2 (Z.of_N b).

Definition canonical_anchor_bytes (a : AuditRetentionAnchor) : result (list N) :=
  created ← _utc_iso (ra_created_at a);
  text ← dumps true (JObj
    [(u "type", JStr (u "astral.audit-retention-anchor/v1"));
     (u "anchor_id", JStr (ra_anchor_id a));
     (u "owner_or_chain", JStr (ra_chain_id a));
     (u "first_retained_sequence", JInt (ra_first_retained_sequence a));
     (u "previous_entry_digest", JStr (bytes_hex (ra_previous_entry_digest a)));
     (u "retention_policy_digest", JStr (bytes_hex (ra_retention_policy_digest a)));
     (u "created_at", JStr created);
     (u "key_id", JStr (ra_key_id a))]);
  utf8_encode text.

Definition build_anchor (anchor_id chain_id : pystr) (first_retained_sequence : Z)
    (previous_entry_digest retention_policy_digest : list N) (created_at : datetime) (key_id : pystr)
    (authenticator : AnchorAuthenticator) : result AuditRetentionAnchor :=
  let anchor authentication :=
    anchor_post_init
      {| ra_anchor_id := anchor_id; ra_chain_id := chain_id; ra_first_retained_sequence := first_retained_sequence;
         ra_previous_entry_digest := previous_entry_digest; ra_retention_policy_digest := retention_policy_digest;
         ra_created_at := created_at; ra_key_id := key_id; ra_authentication := authentication |} in
  unsigned ← anchor (u "pending");
  payload ← canonical_anchor_bytes unsigned;
  authentication ← aa_sign authenticator key_id payload;
  anchor authentication.

(** [except Exception: return False] *)
Definition verify_anchor (a : AuditRetentionAnchor) (authenticator : AnchorAuthenticator) : result bool :=
  match payload ← canonical_anchor_bytes a; aa_verify authenticator (ra_key_id a) payload (ra_authentication a) with
  | Ok b => Ok b
  | Err e => if is_exception e then Ok false else Err e
  end.

(** Dataclass equality. *)
Definition anchor_key (a : AuditRetentionAnchor) :=
  (ra_anchor_id a, ra_chain_id a, ra_first_retained_sequence a, ra_previous_entry_digest a,
   ra_retention_policy_digest a, instant (ra_created_at a), ra_key_id a, ra_authentication a).
Definition anchor_eqb (a b : AuditRetentionAnchor) : bool := bool_decide (anchor_key a = anchor_key b).

Record RetentionPruneResult : Type := {
  pr_anchor : AuditRetentionAnchor;
  pr_deleted_events : Z
}.

(** ** Rows and statements *)

Definition anchor_checks (r : anchor_row) : bool :=
  (1 <? an_first_retained_sequence r) && (length (an_previous_entry_digest r) =? 32)%nat
  && (length (an_retention_policy_digest r) =? 32)%nat.
Definition check_anchor_row (r : anchor_row) : result unit :=
  raise_unless (is_int8 (an_first_retained_sequence r)) (Exn PgNumericOutOfRange "bigint out of range") ;;
  raise_unless (anchor_checks r) (Exn PgCheckViolation "new row violates check constraint").

(** The primary key, the arbiter of the insert. *)
Definition anchor_conflict (r r' : anchor_row) : bool :=
  bool_decide ((an_owner_or_chain r, an_first_retained_sequence r)
               = (an_owner_or_chain r', an_first_retained_sequence r')).

(** [INSERT ... ON CONFLICT (owner_or_chain, first_retained_sequence) DO NOTHING];
    a duplicate [anchor_id] is an error. *)
Definition insert_anchor (a : AuditRetentionAnchor) (db : audit_db) : result (option anchor_row * audit_db) :=
  text_params [ra_anchor_id a; ra_chain_id a; ra_key_id a] ;;
  let r := {| an_anchor_id := ra_anchor_id a; an_owner_or_chain := ra_chain_id a;
              an_first_retained_sequence := ra_first_retained_sequence a;
              an_previous_entry_digest := ra_previous_entry_digest a;
              an_retention_policy_digest := ra_retention_policy_digest a; an_created_at := instant (ra_created_at a);
              an_key_id := ra_key_id a; an_signature_or_mac := ra_authentication a |} in
  '(o, t) ← insert_do_nothing check_anchor_row anchor_conflict
    (fun r => raise_if (exists_row (fun r' => bool_decide (an_anchor_id r = an_anchor_id r')) (ad_anchors db))
      (Exn PgUniqueViolation "duplicate key value violates unique constraint")) r (ad_anchors db);
  Ok (o, set_anchors t db).

Section Repository.
Context `{PyFloat} `{PgEnv} `{PgJsonb}.

Definition _anchor (r : anchor_row) : result AuditRetentionAnchor :=
  previous ← _bytes (an_previous_entry_digest r);
  policy ← _bytes (an_retention_policy_digest r);
  anchor_post_init
    {| ra_anchor_id := an_anchor_id r; ra_chain_id := an_owner_or_chain r;
       ra_first_retained_sequence := an_first_retained_sequence r; ra_previous_entry_digest := previous;
       ra_retention_policy_digest := policy; ra_created_at := from_timestamptz (an_created_at r);
       ra_key_id := an_key_id r; ra_authentication := an_signature_or_mac r |}.

Definition select_anchor (chain_id : pystr) (first_retained_sequence : Z) (db : audit_db)
  : result (option anchor_row * audit_db) :=
  text_params [chain_id] ;;
  Ok (select_one "audit_anchor" (fun r => bool_decide ((an_owner_or_chain r, an_first_retained_sequence r)
                                                       = (chain_id, first_retained_sequence))) (ad_anchors db), db).

(** One event of a chain by its sequence number, [FOR UPDATE]. *)
Definition select_at (chain_id : pystr) (sequence : Z) (db : audit_db) : result (option audit_row * audit_db) :=
  text_params [chain_id] ;;
  Ok (select_one "audit_at" (fun r => of_chain chain_id r && (au_chain_sequence r =? sequence)) (ad_events db), db).

(** ** AuditRetentionRepository *)

Definition load_anchor (chain_id : pystr) (first_retained_sequence : Z) : SM audit_db (option AuditRetentionAnchor) :=
  row ← exec (select_anchor chain_id first_retained_sequence);
  match row with
  | None => mret None
  | Some r => a ← lift (_anchor r); mret (Some a)
  end.

(** The anchor of a prefix that is gone already. *)
Definition replayed_anchor (existing : option AuditRetentionAnchor) (boundary_prev policy_digest : list N)
    (authenticator : AnchorAuthenticator) : result AuditRetentionAnchor :=
  let missing : result AuditRetentionAnchor := raise AuditRetentionError "a pruned audit prefix has no valid matching anchor" in
  match existing with
  | None => missing
  | Some a =>
      previous ← _bytes boundary_prev;
      if bool_decide (ra_previous_entry_digest a <> previous) || bool_decide (ra_retention_policy_digest a <> policy_digest)
      then missing
      else verify_anchor a authenticator ≫= fun ok : bool => if ok then Ok a else missing
  end.

Definition prune_prefix (chain_id : pystr) (first_retained_sequence : Z) (anchor_id : pystr) (policy_digest : list N)
    (created_at : datetime) (key_id : pystr) (authenticator : AnchorAuthenticator) : SM audit_db RetentionPruneResult :=
  lift (raise_if (first_retained_sequence <=? 1)
    (Exn ValueError_ "first_retained_sequence must be greater than one")) ;;
  lift (_digest "policy_digest" policy_digest) ;;
  lift (_aware "created_at" created_at) ;;
  exec (lock_chain chain_id) ;;
  boundary ← exec (select_at chain_id first_retained_sequence);
  boundary ← lift (match boundary with
                   | None => raise AuditRetentionError "the requested first retained audit event does not exist"
                   | Some b => Ok b
                   end);
  previous ← exec (select_at chain_id (first_retained_sequence - 1));
  match previous with
  | None =>
      existing ← load_anchor chain_id first_retained_sequence;
      a ← lift (replayed_anchor existing (au_prev_hash boundary) policy_digest authenticator);
      mret {| pr_anchor := a; pr_deleted_events := 0 |}
  | Some p =>
      previous_digest ← lift (_bytes (au_entry_hash p));
      boundary_prev ← lift (_bytes (au_prev_hash boundary));
      lift (raise_if (bool_decide (boundary_prev <> previous_digest))
        (Exn AuditRetentionError "audit retention boundary does not join the preceding event")) ;;
      candidate ← lift (build_anchor anchor_id chain_id first_retained_sequence previous_digest policy_digest created_at
                          key_id authenticator);
      inserted ← exec (insert_anchor candidate);
      durable ← match inserted with
                | Some r => a ← lift (_anchor r); mret (Some a)
                | None => load_anchor chain_id first_retained_sequence
                end;
      durable ← lift (let conflict : result AuditRetentionAnchor := raise AuditRetentionError "audit retention anchor identity conflicts with durable state" in
                      match durable with
                      | None => conflict
                      | Some d =>
                          if anchor_eqb d candidate then
                            verify_anchor d authenticator ≫= fun ok : bool => if ok then Ok d else conflict
                          else conflict
                      end);
      exec (fun db => Ok ((), set_allow_purge true db)) ;;
      deleted ← exec (delete_events (fun r => of_chain chain_id r && (au_chain_sequence r <? first_retained_sequence)));
      mret {| pr_anchor := durable; pr_deleted_events := Z.of_nat (length deleted) |}
  end.

Definition _invalid (event_id : pystr) (reason : string) (first_sequence : Z) : ChainVerification :=
  {| cv_valid := false; cv_first_invalid_event_id := Some event_id; cv_reason := Some reason;
     cv_last_sequence := first_sequence - 1; cv_last_digest := GENESIS_DIGEST |}.

Definition verify_retained_chain (chain_id : pystr) (authenticate_event : AuditAuthenticator)
    (authenticate_anchor : AnchorAuthenticator) : SM audit_db ChainVerification :=
  records ← load_chain chain_id 1;
  match records with
  | [] => mret {| cv_valid := true; cv_first_invalid_event_id := None; cv_reason := None; cv_last_sequence := 0;
                  cv_last_digest := GENESIS_DIGEST |}
  | first :: _ =>
      let event_id := ev_event_id (ar_event first) in
      if ar_sequence first =? 1 then lift (verify_records records chain_id authenticate_event 1 GENESIS_DIGEST)
      else
        anchor ← load_anchor chain_id (ar_sequence first);
        match anchor with
        | None => mret (_invalid event_id "missing_retention_anchor" (ar_sequence first))
        | Some a =>
            ok ← lift (verify_anchor a authenticate_anchor);
            if negb ok then mret (_invalid event_id "invalid_retention_anchor" (ar_sequence first))
            else if bool_decide (ra_chain_id a <> chain_id)
                    || bool_decide (ra_previous_entry_digest a <> ar_previous_digest first)
                    || negb (ra_first_retained_sequence a =? ar_sequence first)
            then mret (_invalid event_id "retention_anchor_mismatch" (ar_sequence first))
            else lift (verify_records records chain_id authenticate_event (ar_sequence first) (ra_previous_entry_digest a))
        end
  end.
End Repository.
