(* ===== verification/AuditRetentionSpec.v ===== *)
(** * What audit retention promises

    Pruning removes exactly the events below its boundary, after an anchor for
    the boundary is durable; chains stay linked from genesis or from a valid
    anchor through any history of appends and prunes, so the retained chain
    always verifies. *)

From Stdlib Require Import ZifyBool.
From S2P Require Import Prelude Regex Errors Domain Sha256 Json IsoTime JsonDecode Pg AuditChain AuditSpec AuditClaims AuditRetention.

(** ** One prune *)

Section Prune.
Context `{PyFloat} `{PgEnv} `{PgJsonb}.
Implicit Types (c : pystr) (n : Z) (db : audit_db).

Definition below c n (r : audit_row) : bool := of_chain c r && (au_chain_sequence r <? n).

(** A stored anchor for the place a chain begins at. *)
Definition anchor_for (authenticator : AnchorAuthenticator) c n (digest : list N) (r : anchor_row)
    (a : AuditRetentionAnchor) : Prop :=
  an_owner_or_chain r = c /\ an_first_retained_sequence r = n /\ an_previous_entry_digest r = digest
  /\ _anchor r = Ok a /\ verify_anchor a authenticator = Ok true.

Lemma select_at_Ok c n db o db' :
  select_at c n db = Ok (o, db') ->
  db' = db /\ match o with
              | Some r => r ∈ ad_events db /\ au_actor_user_id r = c /\ au_chain_sequence r = n
              | None => forall r, r ∈ ad_events db -> au_actor_user_id r = c -> au_chain_sequence r <> n
              end.
Proof.
  unfold select_at. intros Hs. apply bind_Ok_inv in Hs as (? & _ & [= <- <-]). split; [done|].
  destruct (select_one _ _ _) as [r|] eqn:Hsel.
  - apply select_one_Some in Hsel as [Hr [Hc%bool_decide_eq_true Hn%Z.eqb_eq]%andb_true_iff]. done.
  - intros r Hr Hc Hn. rewrite select_one_None in Hsel. specialize (Hsel r Hr). unfold of_chain in Hsel.
    rewrite Hn, Z.eqb_refl, bool_decide_eq_true_2 in Hsel; done.
Qed.

Lemma anchor_fields r a :
  _anchor r = Ok a ->
  ra_anchor_id a = an_anchor_id r /\ ra_chain_id a = an_owner_or_chain r
  /\ ra_first_retained_sequence a = an_first_retained_sequence r
  /\ ra_previous_entry_digest a = an_previous_entry_digest r /\ ra_retention_policy_digest a = an_retention_policy_digest r
  /\ length (an_previous_entry_digest r) = 32%nat /\ 1 < an_first_retained_sequence r.
Proof.
  unfold _anchor, _bytes, anchor_post_init. intros Ha. apply bind_Ok_inv in Ha as (p & Hp & Ha).
  apply bind_Ok_inv in Ha as (q & Hq & Ha). apply bind_Ok_inv in Hp as (? & Hd & [= <-]). apply bind_Ok_inv in Hq as (? & _ & [= <-]).
  unfold _digest in Hd. apply raise_unless_Ok, Nat.eqb_eq in Hd.
  apply bind_Ok_inv in Ha as (? & _ & Ha). apply bind_Ok_inv in Ha as (? & _ & Ha). apply bind_Ok_inv in Ha as (? & _ & Ha).
  apply bind_Ok_inv in Ha as (? & Hn%raise_if_Ok & Ha). apply bind_Ok_inv in Ha as (? & _ & Ha).
  apply bind_Ok_inv in Ha as (? & _ & Ha). apply bind_Ok_inv in Ha as (? & _ & Ha). apply bind_Ok_inv in Ha as (? & _ & [= <-]).
  apply Z.leb_gt in Hn. cbn in *. done.
Qed.

Lemma select_anchor_Ok c n db o db' :
  select_anchor c n db = Ok (o, db') ->
  db' = db /\ forall r, o = Some r -> r ∈ ad_anchors db /\ an_owner_or_chain r = c /\ an_first_retained_sequence r = n.
Proof.
  unfold select_anchor. intros Hs. apply bind_Ok_inv in Hs as (? & _ & [= <- <-]). split; [done|].
  intros r [Hr Hp%bool_decide_eq_true]%select_one_Some. by simplify_eq.
Qed.

Lemma load_anchor_Ok c n s o s' :
  load_anchor c n s = (Ok o, s') ->
  s_failed s' = false /\ s_db s' = s_db s /\ forall a, o = Some a -> exists r, r ∈ ad_anchors (s_db s)
    /\ an_owner_or_chain r = c /\ an_first_retained_sequence r = n /\ _anchor r = Ok a.
Proof.
  unfold load_anchor. intros Hl. apply bind_run_Ok in Hl as (row & s1 & Hs & Hl). apply exec_run_Ok in Hs as (_ & Hf & Hs).
  apply select_anchor_Ok in Hs as [Hdb Hrow]. destruct row as [r|].
  - apply bind_run_Ok in Hl as (a & ? & [Ha ->]%lift_run_Ok & [= <- <-]). split_and!; try done. intros a' [= <-].
    destruct (Hrow r eq_refl) as (? & ? & ?). eauto.
  - injection Hl as <- <-. done.
Qed.

Lemma retention_anchor_Ok a db o db' :
  insert_anchor a db = Ok (o, db') ->
  (o = None /\ db' = db)
  \/ exists r, o = Some r /\ db' = set_anchors (ad_anchors db ++ [r]) db
     /\ exists_row (anchor_conflict r) (ad_anchors db) = false /\ an_owner_or_chain r = ra_chain_id a
     /\ an_first_retained_sequence r = ra_first_retained_sequence a.
Proof.
  unfold insert_anchor. intros Hi. apply bind_Ok_inv in Hi as (? & _ & Hi). apply bind_Ok_inv in Hi as ([o' t] & Hi & [= <- <-]).
  apply insert_do_nothing_Ok in Hi as (_ & [(-> & -> & _)|(-> & -> & Hc & _)]); [left|right].
  - destruct db. done.
  - eauto 10.
Qed.

Lemma build_anchor_fields anchor_id c n digest policy created key authenticator a :
  build_anchor anchor_id c n digest policy created key authenticator = Ok a ->
  ra_chain_id a = c /\ ra_first_retained_sequence a = n /\ ra_previous_entry_digest a = digest
  /\ ra_retention_policy_digest a = policy.
Proof.
  unfold build_anchor. intros Ha. apply bind_Ok_inv in Ha as (? & _ & Ha). apply bind_Ok_inv in Ha as (? & _ & Ha).
  apply bind_Ok_inv in Ha as (? & _ & Ha). unfold anchor_post_init in Ha.
  repeat (apply bind_Ok_inv in Ha as (? & _ & Ha)). injection Ha as <-. done.
Qed.

Lemma lock_chain_storable c db x db' : lock_chain c db = Ok (x, db') -> storable c = true.
Proof. unfold lock_chain, text_params. intros Hl. inv_ok. cbn in Hs. by split_bools. Qed.

(** The two ways a prune succeeds. *)
Lemma prune_cases c n anchor_id policy created key authenticator s res s' :
  prune_prefix c n anchor_id policy created key authenticator s = (Ok res, s') ->
  s_failed s = false /\ s_failed s' = false /\ 1 < n /\ storable c = true
  /\ _digest "policy_digest" policy = Ok () /\ _aware "created_at" created = Ok ()
  /\ ra_retention_policy_digest (pr_anchor res) = policy /\
  exists b, b ∈ ad_events (s_db s) /\ au_actor_user_id b = c /\ au_chain_sequence b = n /\
  ((s_db s' = s_db s /\ pr_deleted_events res = 0
    /\ (forall r, r ∈ ad_events (s_db s) -> au_actor_user_id r = c -> au_chain_sequence r <> n - 1)
    /\ exists r, r ∈ ad_anchors (s_db s) /\ anchor_for authenticator c n (au_prev_hash b) r (pr_anchor res))
   \/ exists p r anchors', p ∈ ad_events (s_db s) /\ au_actor_user_id p = c /\ au_chain_sequence p = n - 1
      /\ au_prev_hash b = au_entry_hash p
      /\ (anchors' = ad_anchors (s_db s)
          \/ anchors' = ad_anchors (s_db s) ++ [r] /\ exists_row (anchor_conflict r) (ad_anchors (s_db s)) = false)
      /\ r ∈ anchors' /\ anchor_for authenticator c n (au_entry_hash p) r (pr_anchor res)
      /\ s_db s' = AuditDb (rows_where (fun r => negb (below c n r)) (ad_events (s_db s))) anchors' true
      /\ pr_deleted_events res = Z.of_nat (length (rows_where (below c n) (ad_events (s_db s))))).
Proof.
  unfold prune_prefix. intros Hp. apply bind_run_Ok in Hp as (? & ? & [Hn%raise_if_Ok ->]%lift_run_Ok & Hp).
  apply bind_run_Ok in Hp as ([] & ? & [Hpol ->]%lift_run_Ok & Hp). apply bind_run_Ok in Hp as ([] & ? & [Haw ->]%lift_run_Ok & Hp).
  apply bind_run_Ok in Hp as (? & [db0 f0] & Hlock & Hp). apply exec_run_Ok in Hlock as (Hf & Hf0 & Hlock).
  apply lock_chain_storable in Hlock as Hst. apply lock_chain_Ok in Hlock. cbn in Hf0, Hlock. subst f0 db0.
  apply bind_run_Ok in Hp as (ob & [db1 f1] & Hb & Hp). apply exec_run_Ok in Hb as (_ & Hf1 & Hb).
  apply select_at_Ok in Hb as [Hdb Hb]. cbn in Hf1, Hdb, Hb. subst f1 db1.
  apply bind_run_Ok in Hp as (b & ? & [Hob ->]%lift_run_Ok & Hp). destruct ob as [b'|]; [injection Hob as ->|done].
  destruct Hb as (Hb & Hbc & Hbn).
  apply bind_run_Ok in Hp as (op & [db2 f2] & Hpv & Hp). apply exec_run_Ok in Hpv as (_ & Hf2 & Hpv).
  apply select_at_Ok in Hpv as [Hdb Hpv]. cbn in Hf2, Hdb, Hpv. subst f2 db2.
  assert (1 < n) as Hn1 by lia. destruct op as [p|].
  - destruct Hpv as (Hpe & Hpc & Hpn).
    apply bind_run_Ok in Hp as (pd & ? & [Hpd ->]%lift_run_Ok & Hp). unfold _bytes in Hpd.
    apply bind_Ok_inv in Hpd as (? & _ & [= <-]).
    apply bind_run_Ok in Hp as (bp & ? & [Hbp ->]%lift_run_Ok & Hp). unfold _bytes in Hbp.
    apply bind_Ok_inv in Hbp as (? & _ & [= <-]).
    apply bind_run_Ok in Hp as (? & ? & [Hjoin%raise_if_Ok%bool_decide_eq_false%dec_stable ->]%lift_run_Ok & Hp).
    apply bind_run_Ok in Hp as (cand & ? & [Hcand ->]%lift_run_Ok & Hp). apply build_anchor_fields in Hcand as (Hcc & Hcn & Hcd & Hcp).
    apply bind_run_Ok in Hp as (ins & [db3 f3] & Hins & Hp). apply exec_run_Ok in Hins as (_ & Hf3 & Hins). cbn in Hf3, Hins. subst f3.
    apply bind_run_Ok in Hp as (durable & s4 & Hdur & Hp). apply bind_run_Ok in Hp as (d & ? & [Hd ->]%lift_run_Ok & Hp).
    apply bind_run_Ok in Hp as (? & [db5 f5] & Hset & Hp). apply exec_run_Ok in Hset as (_ & Hf5 & Hset). cbn in Hf5, Hset. subst f5.
    assert (db5 = set_allow_purge true (s_db s4)) as Hdb5 by congruence.
    apply bind_run_Ok in Hp as (deleted & [db6 f6] & Hdel & [= <- <-]). apply exec_run_Ok in Hdel as (_ & Hf6 & Hdel). cbn in Hf6, Hdel. subst f6.
    unfold delete_events in Hdel. apply bind_Ok_inv in Hdel as (? & _ & [= <- <-]).
    destruct durable as [d'|]; [|done]. destruct (anchor_eqb d' cand) eqn:Heq; [|done].
    apply bind_Ok_inv in Hd as ([] & Hver & Hd); [|done]. injection Hd as ->.
    apply bool_decide_eq_true in Heq. unfold anchor_key in Heq.
    do 6 (split; [done|]). split; [cbn; congruence|]. exists b. split_and!; try done. right.
    assert (exists r anchors', (anchors' = ad_anchors (s_db s)
          \/ anchors' = ad_anchors (s_db s) ++ [r] /\ exists_row (anchor_conflict r) (ad_anchors (s_db s)) = false)
      /\ r ∈ anchors' /\ an_owner_or_chain r = c /\ an_first_retained_sequence r = n /\ _anchor r = Ok d
      /\ s_db s4 = set_anchors anchors' (s_db s)) as (r & anchors' & Hanch & Hr & Hrc & Hrn & Hra & Hdb4).
    { apply retention_anchor_Ok in Hins as [[-> ->]|(r & -> & -> & Hcf & Hrc & Hrn)].
      - apply load_anchor_Ok in Hdur as (_ & Hdb4 & Hex). destruct (Hex d eq_refl) as (r & Hr & Hrc & Hrn & Hra). cbn in *.
        exists r, (ad_anchors (s_db s)). split_and!; auto. rewrite Hdb4. by destruct (s_db s).
      - apply bind_run_Ok in Hdur as (a & ? & [Ha ->]%lift_run_Ok & [= -> <-]).
        exists r, (ad_anchors (s_db s) ++ [r]). split_and!; auto; [|congruence|congruence].
        apply elem_of_app. right. by left. }
    exists p, r, anchors'. rewrite Hdb4 in Hdb5. clear Hset. subst db5. cbn. split_and!; try done.
    pose proof (anchor_fields r d Hra) as (_ & _ & _ & Hrd & _). unfold anchor_for. split_and!; try done. congruence.
  - apply bind_run_Ok in Hp as (existing & s1 & Hload & Hp). apply load_anchor_Ok in Hload as (Hf3 & Hdb & Hex). cbn in Hdb, Hex.
    apply bind_run_Ok in Hp as (a & ? & [Ha ->]%lift_run_Ok & [= <- <-]). unfold replayed_anchor in Ha. destruct existing as [a'|]; [|done].
    destruct (Hex a' eq_refl) as (r & Hr & Hrc & Hrn & Hra).
    apply bind_Ok_inv in Ha as (pv & Hpd & Ha). unfold _bytes in Hpd. apply bind_Ok_inv in Hpd as (? & _ & [= <-]).
    destruct (bool_decide (ra_previous_entry_digest a' <> au_prev_hash b)) eqn:Hpvd; [done|]. cbn in Ha.
    destruct (bool_decide (ra_retention_policy_digest a' <> policy)) eqn:Hpe; [done|].
    apply bind_Ok_inv in Ha as ([] & Hver & Ha); [|done]. injection Ha as ->.
    apply bool_decide_eq_false, dec_stable in Hpvd, Hpe. do 7 (split; [done|]).
    exists b. split_and!; try done. left. split_and!; try done. exists r. split; [done|].
    pose proof (anchor_fields r a Hra) as (_ & _ & _ & Hd & _). unfold anchor_for. rewrite <- Hd. done.
Qed.
End Prune.

(** ** Histories *)

Section History.
Context `{PyFloat} `{PgEnv} `{PgJsonb}.
Context (authenticate : AuditAuthenticator) (authenticator : AnchorAuthenticator).
Implicit Types (c : pystr) (n : Z) (db : audit_db) (t : list audit_row).

(** A chain begins at genesis, or where an anchor that verifies says. *)
Definition origin (anchors : list anchor_row) c (start : Z) (previous : list N) : Prop :=
  (start = 1 /\ previous = GENESIS_DIGEST)
  \/ exists r a, r ∈ anchors /\ anchor_for authenticator c start previous r a.

Definition audit_inv db : Prop :=
  table_ok (ad_events db) /\ unique_ok anchor_conflict (ad_anchors db) = true
  /\ forall c, chain_inv authenticate (origin (ad_anchors db) c) c (ad_events db).

Lemma chain_inv_mono (O O' : Z -> list N -> Prop) c t :
  (forall start previous, O start previous -> O' start previous) ->
  chain_inv authenticate O c t -> chain_inv authenticate O' c t.
Proof. intros HO (rs & start & previous & l & d & ? & ? & ? & ?). exists rs, start, previous, l, d. auto. Qed.

Lemma rows_where_split {A} (q : A -> bool) l1 l2 :
  (forall x, x ∈ l1 -> q x = false) -> (forall x, x ∈ l2 -> q x = true) -> rows_where q (l1 ++ l2) = l2.
Proof.
  intros Hl1 Hl2. unfold rows_where. rewrite List.filter_app.
  replace (List.filter q l1) with (@nil A) by (symmetry; by apply rows_where_nil). cbn.
  induction l2 as [|x l2 IH]; [done|]. cbn. rewrite Hl2 by left. f_equal. apply IH. intros y Hy. apply Hl2. by right.
Qed.

Lemma rows_where_twice {A} (p q : A -> bool) (l : list A) : rows_where p (rows_where q l) = rows_where (fun x => p x && q x) l.
Proof.
  unfold rows_where. induction l as [|x l IH]; [done|]. cbn. destruct (q x); cbn; [|by rewrite andb_false_r].
  rewrite andb_true_r. destruct (p x); [by f_equal|done].
Qed.

(** The rows of a chain from a sequence number on. *)
Lemma chain_cut c n t l1 l2 :
  table_ok t -> chain c t = l1 ++ l2 ->
  (forall r, r ∈ l1 -> au_chain_sequence r < n) -> (forall r, r ∈ l2 -> n <= au_chain_sequence r) ->
  chain c (rows_where (fun r => negb (below c n r)) t) = l2.
Proof.
  intros Ht Hch Hlo Hhi.
  apply (sorted_rows t); [done| | |apply sort_rows_sorted|].
  - intros r [Hr _]%elem_of_chain. by apply elem_of_rows_where in Hr as [? _].
  - unfold chain, chain_where. rewrite sort_by_perm, rows_where_twice.
    transitivity (rows_where (fun r => n <=? au_chain_sequence r) (chain c t)).
    + unfold chain, chain_where. rewrite (rows_where_perm _ _ _ (sort_by_perm sequence_le (rows_where (of_chain c) t))).
      rewrite rows_where_twice. unfold rows_where. erewrite List.filter_ext; [reflexivity|]. intros r. unfold below, of_chain.
      case_bool_decide; cbn; [|by rewrite andb_false_r]. rewrite andb_true_r. lia.
    + rewrite Hch. rewrite rows_where_split; [done| |]; intros x Hx; [specialize (Hlo x Hx)|specialize (Hhi x Hx)]; lia.
  - pose proof (sort_rows_sorted (rows_where (of_chain c) t)) as Hs. fold (chain_where (of_chain c) t) in Hs. fold (chain c t) in Hs.
    rewrite Hch in Hs. by apply StronglySorted_app_1_r in Hs.
Qed.

Lemma chain_other c c' n t : c' <> c -> chain c' (rows_where (fun r => negb (below c n r)) t) = chain c' t.
Proof.
  intros Hne. unfold chain, chain_where. f_equal. apply rows_where_sub. intros r Hr%bool_decide_eq_true. unfold below, of_chain.
  by rewrite bool_decide_eq_false_2 by congruence.
Qed.

Lemma prune_chain (O : Z -> list N -> Prop) c n t b p :
  table_ok t -> chain_inv authenticate O c t ->
  b ∈ t -> au_actor_user_id b = c -> au_chain_sequence b = n ->
  p ∈ t -> au_actor_user_id p = c -> au_chain_sequence p = n - 1 ->
  chain_inv authenticate (fun start previous => start = n /\ previous = au_entry_hash p) c
    (rows_where (fun r => negb (below c n r)) t).
Proof.
  intros Ht (rs & start & previous & last_seq & digest & Hm & Hl & Hnil & _) Hb Hbc Hbn Hp Hpc Hpn.
  apply map_each_Ok in Hm.
  assert (forall i r, chain c t !! i = Some r -> au_chain_sequence r = start + Z.of_nat i) as Hseq.
  { intros i r Hi. destruct (Forall2_lookup_l _ _ _ _ _ Hm Hi) as (rec & Hi' & Hrec).
    apply record_Ok in Hrec as (_ & <- & _). by eapply linked_sequence. }
  assert (p ∈ chain c t) as Hpch by (by apply elem_of_chain). apply list_elem_of_lookup in Hpch as [i Hi].
  assert (b ∈ chain c t) as Hbch by (by apply elem_of_chain). apply list_elem_of_lookup in Hbch as [j Hj].
  pose proof (Hseq i p Hi) as Hip. pose proof (Hseq j b Hj) as Hjb. assert (j = S i) as -> by lia.
  set (l1 := take i (chain c t)). set (l2 := drop (S i) (chain c t)).
  assert (chain c t = (l1 ++ [p]) ++ l2) as Hch by (rewrite <- app_assoc; symmetry; by apply take_drop_middle).
  assert (l1 ++ [p] = take (S i) (chain c t)) as Htake by (symmetry; by apply take_S_r).
  rewrite Hch in Hm. apply Forall2_app_inv_l in Hm as (rs1 & rs2 & Hm1 & Hm2 & ->).
  apply linked_app in Hl as (mid & d & Hl1 & Hl2).
  assert (chain c (rows_where (fun r => negb (below c n r)) t) = l2) as Hcut.
  { apply (chain_cut c n t (l1 ++ [p]) l2 Ht Hch).
    - intros r Hr. rewrite Htake in Hr. apply elem_of_take in Hr as (k & Hk & Hlt). rewrite (Hseq k r Hk). lia.
    - intros r [k Hk]%list_elem_of_lookup. unfold l2 in Hk. rewrite lookup_drop in Hk. rewrite (Hseq _ r Hk). lia. }
  apply Forall2_app_inv_l in Hm1 as (rs0 & rsp & _ & Hmp & ->). apply Forall2_cons_inv_l in Hmp as (rec & ? & Hrec & Hnl & ->).
  apply Forall2_nil_inv_l in Hnl as ->. apply record_Ok in Hrec as (_ & Rs & _ & _ & Rd).
  apply linked_last in Hl1 as [-> ->]. exists rs2, n, (au_entry_hash p), last_seq, digest. rewrite Hcut.
  rewrite Rs, Rd, Hpn in Hl2. replace (n - 1 + 1) with n in Hl2 by lia.
  split_and!; [by apply map_each_Ok|done| |done|done].
  intros ->. apply Forall2_nil_inv_r in Hm2. unfold l2 in Hm2. assert (drop (S i) (chain c t) !! 0%nat = Some b) as Hd.
  { rewrite lookup_drop. by rewrite Nat.add_0_r. } rewrite Hm2 in Hd. done.
Qed.

Lemma anchor_conflict_sym a b : anchor_conflict a b = anchor_conflict b a.
Proof. unfold anchor_conflict. apply bool_decide_ext. split; congruence. Qed.

Lemma prune_inv c n anchor_id policy created key s res s' :
  audit_inv (s_db s) -> prune_prefix c n anchor_id policy created key authenticator s = (Ok res, s') ->
  audit_inv (s_db s').
Proof.
  intros (Ht & Hu & Hch) Hp. apply prune_cases in Hp as (_ & _ & Hn & _ & _ & _ & _ & b & Hb & Hbc & Hbn & [(-> & _)|Hp]); [done|].
  destruct Hp as (p & r & anchors' & Hpe & Hpc & Hpn & _ & Hanch & Hr & Hfor & -> & _). cbn.
  assert (forall r', r' ∈ ad_anchors (s_db s) -> r' ∈ anchors') as Hsub.
  { destruct Hanch as [->|[-> _]]; [done|]. intros r' Hr'. apply elem_of_app. by left. }
  split; [|split].
  - by apply table_ok_where.
  - destruct Hanch as [->|[-> Hx]]; [done|]. apply unique_ok_snoc; [apply anchor_conflict_sym|done].
  - cbn. intros c'. destruct (decide (c' = c)) as [->|Hne].
    + eapply chain_inv_mono; [|eapply prune_chain; [done|apply Hch|exact Hb|done|done|exact Hpe|done|done]].
      intros ? ? [-> ->]. right. eauto.
    + unfold chain_inv. rewrite chain_other by done. apply (chain_inv_mono (origin (ad_anchors (s_db s)) c')); [|apply Hch].
      intros start previous [?|(r' & a & Hr' & Ha)]; [by left|right; eauto].
Qed.

(** Committed transactions of a deployment: appends of stable events, prunes. *)
Inductive audit_step : audit_db -> audit_db -> Prop :=
  | step_append e rec db db' :
      stable e = true -> audit_transaction (append e authenticate) db = (Ok rec, db') -> audit_step db db'
  | step_prune c n anchor_id policy created key res db db' :
      audit_transaction (prune_prefix c n anchor_id policy created key authenticator) db = (Ok res, db') ->
      audit_step db db'.

Lemma audit_transaction_run {A} (m : SM audit_db A) db a db' :
  audit_transaction m db = (Ok a, db') ->
  exists s', m (Session (set_allow_purge false db) false) = (Ok a, s') /\ s_failed s' = false
    /\ db' = set_allow_purge false (s_db s').
Proof.
  unfold audit_transaction. destruct (transaction m _) as [r db1] eqn:Ht. intros [= -> <-].
  apply transaction_run in Ht as (s' & Hm & Hf & <-). eauto.
Qed.

Lemma audit_step_inv db db' : audit_step db db' -> audit_inv db -> audit_inv db'.
Proof.
  intros Hstep Hinv. destruct Hstep as [e rec db db' Hst Ht|c n anchor_id policy created key res db db' Ht];
    apply audit_transaction_run in Ht as (s' & Hm & _ & ->).
  - destruct Hinv as (Ht & Hu & Hch).
    assert (ad_anchors (s_db s') = ad_anchors db) as Ha.
    { destruct (append_step authenticate e (Session (set_allow_purge false db) false) _ _ Ht Hst Hm) as (_ & [[-> _]|(r & -> & _)]); done. }
    apply (append_inv authenticate (fun c => origin (ad_anchors db) c)) in Hm as [Ht' Hch']; [|done|done|by left|done].
    unfold audit_inv. cbn. rewrite Ha. done.
  - apply prune_inv in Hm; done.
Qed.

Lemma audit_inv_reached d db : rtc audit_step d db -> audit_inv d -> audit_inv db.
Proof. induction 1 as [|x y z Hstep _ IH]; [done|]. intros Hx. apply IH. by eapply audit_step_inv. Qed.

(** ** Verification of what is retained *)

Lemma load_chain_all c db :
  table_ok (ad_events db) -> storable c = true ->
  load_chain c 1 (Session db false) = (map_each _record (chain c (ad_events db)), Session db false).
Proof.
  intros Ht Hc. unfold load_chain, mbind, SM_mbind, lift, exec, select_chain, text_params. cbn. rewrite Hc. cbn.
  rewrite select_ordered_chain by done. unfold chain, chain_where.
  replace (rows_where (fun r => of_chain c r && (1 <=? au_chain_sequence r)) (ad_events db))
    with (rows_where (of_chain c) (ad_events db)); [done|].
  apply List.filter_ext_in. intros r Hr%list_elem_of_In. destruct Ht as [_ Hck]. rewrite Forall_forall in Hck.
  specialize (Hck r Hr). unfold check_audit_row, audit_checks in Hck. inv_ok. split_bools.
  replace (1 <=? au_chain_sequence r) with true by lia. by rewrite andb_true_r.
Qed.

Lemma load_anchor_for c n db r a :
  unique_ok anchor_conflict (ad_anchors db) = true -> storable c = true -> r ∈ ad_anchors db ->
  an_owner_or_chain r = c -> an_first_retained_sequence r = n -> _anchor r = Ok a ->
  load_anchor c n (Session db false) = (Ok (Some a), Session db false).
Proof.
  intros Hu Hc Hr Hrc Hrn Ha. unfold load_anchor, mbind, SM_mbind, lift, exec, select_anchor, text_params. cbn. rewrite Hc. cbn.
  rewrite (select_one_unique _ _ _ r); [by rewrite Ha|done|apply bool_decide_eq_true; congruence|].
  intros r' Hr' Hp%bool_decide_eq_true. apply (unique_ok_elem anchor_conflict (ad_anchors db)); try done; [apply anchor_conflict_sym|].
  apply bool_decide_eq_true. congruence.
Qed.

Lemma verify_retained c db :
  audit_inv db -> storable c = true ->
  exists v, verify_retained_chain c authenticate authenticator (Session db false) = (Ok v, Session db false)
    /\ cv_valid v = true /\ next_place c db = (cv_last_sequence v + 1, cv_last_digest v).
Proof.
  intros (Ht & Hu & Hch) Hc. destruct (Hch c) as (rs & start & previous & last_seq & digest & Hm & Hl & Hnil & Ho).
  pose proof (next_place_linked authenticate c db rs start previous last_seq digest Hm Hl Hnil) as Hnext.
  unfold verify_retained_chain, mbind at 1, SM_mbind. rewrite load_chain_all, Hm by done.
  destruct rs as [|first rs].
  - eexists. split; [done|]. split; [done|]. rewrite Hnext. inversion Hl; subst. destruct (Hnil eq_refl) as [-> ->]. done.
  - assert (ar_sequence first = start /\ ar_previous_digest first = previous) as [Hs Hp].
    { inversion Hl as [|? ? ? ? ? ? (_ & Hs & Hp & _) _]; subst. done. }
    exists {| cv_valid := true; cv_first_invalid_event_id := None; cv_reason := None; cv_last_sequence := last_seq;
              cv_last_digest := digest |}. rewrite Hnext. split; [|done].
    pose proof (verify_loop_linked _ _ _ _ _ _ _ Hl) as Hv. rewrite Hs.
    destruct (Z.eqb_spec start 1) as [->|Hne].
    + destruct Ho as [[_ ->]|(r & a & _ & _ & Hn & _ & Ha & _)]; [unfold lift, verify_records, _digest_bytes; cbn in *; by rewrite Hv|].
      pose proof (anchor_fields r a Ha) as (_ & _ & _ & _ & _ & _ & Hlt). lia.
    + destruct Ho as [[? _]|(r & a & Hr & Hrc & Hn & Hd & Ha & Hver)]; [done|].
      pose proof (anchor_fields r a Ha) as (_ & Fc & Fn & Fd & _ & Flen & _).
      unfold mbind, SM_mbind. rewrite (load_anchor_for c start db r a) by done. unfold lift. rewrite Hver. cbn [negb].
      rewrite Fc, Fd, Fn, Hrc, Hd, Hp, Hn, Z.eqb_refl. rewrite !bool_decide_eq_false_2 by tauto. cbn [orb negb].
      unfold verify_records, _digest_bytes. rewrite Hd in Flen. rewrite Flen. cbn [Nat.eqb raise_unless mbind outcome_mbind outcome_bind].
      by rewrite Hv.
Qed.
End History.

(** ** Claims *)

Section Claims.
Context `{PyFloat} `{PgEnv} `{PgJsonb}.

Lemma audit_inv_empty authenticate authenticator : audit_inv authenticate authenticator empty_audit.
Proof.
  split; [split; [done|constructor]|]. split; [done|]. intros c. exists [], 1, GENESIS_DIGEST, 0, GENESIS_DIGEST.
  split_and!; try done; [constructor|by left].
Qed.

(** C16: every chain verifies after any history.  From an empty database, through
    any sequence of committed appends of stable events (to any chains, in any
    order) and prunes, [verify_retained_chain] of every chain returns, says
    valid, and reports the place where the next append will continue. *)
Theorem history_verifies authenticate authenticator db c :
  rtc (audit_step authenticate authenticator) empty_audit db -> storable c = true ->
  exists v, verify_retained_chain c authenticate authenticator (Session db false) = (Ok v, Session db false)
    /\ cv_valid v = true /\ next_place c db = (cv_last_sequence v + 1, cv_last_digest v).
Proof.
  intros Hrtc Hc. apply verify_retained; [|done].
  exact (audit_inv_reached _ _ _ _ Hrtc (audit_inv_empty _ _)).
Qed.

(** No event below the first retained one is left when its predecessor is gone. *)
Lemma nothing_below authenticate (O : Z -> list N -> Prop) c n t b :
  chain_inv authenticate O c t -> b ∈ t -> au_actor_user_id b = c -> au_chain_sequence b = n ->
  (forall r, r ∈ t -> au_actor_user_id r = c -> au_chain_sequence r <> n - 1) ->
  forall r, r ∈ t -> below c n r = false.
Proof.
  intros (rs & start & previous & last_seq & digest & Hm & Hl & _) Hb Hbc Hbn Hno r Hr. apply map_each_Ok in Hm.
  assert (forall i r, chain c t !! i = Some r -> au_chain_sequence r = start + Z.of_nat i) as Hseq.
  { intros i r' Hi. destruct (Forall2_lookup_l _ _ _ _ _ Hm Hi) as (rec & Hi' & Hrec).
    apply record_Ok in Hrec as (_ & <- & _). by eapply linked_sequence. }
  unfold below, of_chain. case_bool_decide as Hrc; [|done]. cbn. apply Z.ltb_ge.
  assert (b ∈ chain c t) as [j Hj]%list_elem_of_lookup by (by apply elem_of_chain).
  assert (r ∈ chain c t) as [i Hi]%list_elem_of_lookup by (by apply elem_of_chain).
  pose proof (Hseq j b Hj) as Hjb. pose proof (Hseq i r Hi) as Hir.
  destruct j as [|j]; [lia|]. assert (is_Some (chain c t !! j)) as [q Hq] by (apply lookup_lt_is_Some; apply lookup_lt_Some in Hj; lia).
  exfalso. apply (Hno q); [..|rewrite (Hseq j q Hq); lia]; apply list_elem_of_lookup_2, elem_of_chain in Hq; tauto.
Qed.

Lemma rows_where_all {A} (p : A -> bool) l : (forall x, x ∈ l -> p x = true) -> rows_where p l = l.
Proof. intros Hl. apply (rows_where_split p [] l); [by intros x Hx%elem_of_nil|done]. Qed.

(** A prune of a prefix that is gone. *)
Lemma prune_again c n anchor_id policy created key authenticator db b r a :
  table_ok (ad_events db) -> unique_ok anchor_conflict (ad_anchors db) = true ->
  1 < n -> storable c = true -> _digest "policy_digest" policy = Ok () -> _aware "created_at" created = Ok () ->
  b ∈ ad_events db -> au_actor_user_id b = c -> au_chain_sequence b = n ->
  (forall r, r ∈ ad_events db -> au_actor_user_id r = c -> au_chain_sequence r <> n - 1) ->
  r ∈ ad_anchors db -> anchor_for authenticator c n (au_prev_hash b) r a -> ra_retention_policy_digest a = policy ->
  prune_prefix c n anchor_id policy created key authenticator (Session db false)
  = (Ok {| pr_anchor := a; pr_deleted_events := 0 |}, Session db false).
Proof.
  intros Ht Hu Hn Hc Hpol Haw Hb Hbc Hbn Hno Hr (Hrc & Hrn & Hrd & Hra & Hver) Hap.
  pose proof (anchor_fields r a Hra) as (_ & _ & _ & Fd & _ & Flen & _).
  assert (forall m, exec (select_at c m) (Session db false)
            = (Ok (select_one "audit_at" (fun r => of_chain c r && (au_chain_sequence r =? m)) (ad_events db)), Session db false)) as Hat
    by (intros m; unfold exec, select_at, text_params; cbn; by rewrite Hc).
  assert (exec (lock_chain c) (Session db false) = (Ok (), Session db false)) as Hlock
    by (unfold exec, lock_chain, text_params; cbn; by rewrite Hc).
  unfold prune_prefix. rewrite Hpol, Haw. replace (n <=? 1) with false by lia.
  unfold mbind, SM_mbind. unfold lift at 1 2 3. cbn [raise_if]. rewrite Hlock, !Hat.
  rewrite (select_one_unique _ _ _ b); [|done|unfold of_chain; rewrite bool_decide_eq_true_2 by done; lia|].
  2: { intros x Hx [Hxc%bool_decide_eq_true Hxn]%andb_true_iff. apply (sequence_unique c (ad_events db)); [done|by apply elem_of_chain|by apply elem_of_chain|lia]. }
  unfold lift at 1. rewrite Hat, (proj2 (select_one_None _ _ _)).
  2: { intros x Hx. unfold of_chain. case_bool_decide as Hxc; [|done]. specialize (Hno x Hx Hxc). cbn. lia. }
  rewrite (load_anchor_for c n db r a) by done. unfold lift, replayed_anchor, _bytes, _digest.
  rewrite Hrd in Flen. rewrite Flen. cbn [Nat.eqb raise_unless mbind outcome_mbind outcome_bind].
  rewrite Fd, Hrd, Hap, !bool_decide_eq_false_2 by tauto. cbn [orb]. rewrite Hver. done.
Qed.

(** C30: what a prune does.  On consistent tables a successful prune removes
    exactly the events of the chain below the boundary and counts them, leaves
    a verified anchor that names the boundary and the digest the first
    retained event links to, keeps the tables consistent, and the same call
    again returns the same anchor and removes nothing. *)
Theorem prune_exact authenticate authenticator c n anchor_id policy created key s res s' :
  audit_inv authenticate authenticator (s_db s) ->
  prune_prefix c n anchor_id policy created key authenticator s = (Ok res, s') ->
  ad_events (s_db s') = rows_where (fun r => negb (below c n r)) (ad_events (s_db s))
  /\ pr_deleted_events res = Z.of_nat (length (rows_where (below c n) (ad_events (s_db s))))
  /\ audit_inv authenticate authenticator (s_db s')
  /\ (exists b r, b ∈ ad_events (s_db s') /\ au_actor_user_id b = c /\ au_chain_sequence b = n
      /\ r ∈ ad_anchors (s_db s') /\ anchor_for authenticator c n (au_prev_hash b) r (pr_anchor res))
  /\ prune_prefix c n anchor_id policy created key authenticator s'
     = (Ok {| pr_anchor := pr_anchor res; pr_deleted_events := 0 |}, s').
Proof.
  intros Hinv Hp. pose proof (prune_inv _ _ _ _ _ _ _ _ _ _ _ Hinv Hp) as Hinv'.
  pose proof Hinv as (Ht & Hu & Hch). pose proof Hinv' as (Ht' & Hu' & _).
  apply prune_cases in Hp as (_ & Hf & Hn & Hc & Hpol & Haw & Hrp & b & Hb & Hbc & Hbn & Hp).
  assert (s' = Session (s_db s') false) as Hs' by (destruct s'; cbn in *; by subst).
  destruct Hp as [(Hdb & Hdel & Hno & r & Hr & Hfor)
                 |(p & r & anchors' & Hpe & Hpc & Hpn & Hjoin & Hanch & Hr & Hfor & Hdb & Hdel)].
  - pose proof (nothing_below _ _ _ _ _ _ (Hch c) Hb Hbc Hbn Hno) as Hnone.
    replace (rows_where (below c n) (ad_events (s_db s))) with (@nil audit_row) by (symmetry; by apply rows_where_nil).
    rewrite Hdb in *. rewrite rows_where_all by (intros x Hx; by rewrite (Hnone x Hx)).
    split_and!; try done; [by exists b, r|].
    rewrite Hs'. by apply (prune_again c n anchor_id policy created key authenticator (s_db s) b r).
  - assert (b ∈ ad_events (s_db s')) as Hb'.
    { rewrite Hdb. cbn. apply elem_of_rows_where. split; [done|]. unfold below, of_chain. rewrite bool_decide_eq_true_2 by done. cbn. lia. }
    rewrite <- Hjoin in Hfor.
    assert (r ∈ ad_anchors (s_db s')) as Hr' by (by rewrite Hdb).
    split_and!; try done; [by rewrite Hdb|by exists b, r|].
    rewrite Hs'. cbn. eapply prune_again; try done. intros x Hx Hxc Hxn. rewrite Hdb in Hx. cbn in Hx.
    apply elem_of_rows_where in Hx as [_ Hx]. unfold below, of_chain in Hx. rewrite bool_decide_eq_true_2 in Hx by done. cbn in Hx. lia.
Qed.
End Claims.

(** ** Witnesses *)

Definition sample_authenticator : AnchorAuthenticator := HMACAnchorAuthenticator (fun _ => Ok (replicate 32 7%N)).
Definition sample_prune : SM audit_db RetentionPruneResult :=
  prune_prefix (u "owner") 2 (u "anchor-1") (replicate 32 9%N) (utc 5000000) (u "anchor-key") sample_authenticator.
Definition pruned : audit_db := snd (audit_transaction sample_prune two_events).
Definition third_event : AuditEvent := sample_event (sample_id "03") (quoted "{'b':[null,true]}").
Definition after_prune : audit_db := snd (audit_transaction (append third_event sha_authenticator) pruned).

Definition run_value {A} (m : SM audit_db A) (db : audit_db) (default : A) : A :=
  match fst (audit_transaction m db) with Ok a => a | Err _ => default end.
Definition sample_anchor : AuditRetentionAnchor :=
  {| ra_anchor_id := []; ra_chain_id := []; ra_first_retained_sequence := 0; ra_previous_entry_digest := [];
     ra_retention_policy_digest := []; ra_created_at := utc 0; ra_key_id := []; ra_authentication := [] |}.
Definition no_prune : RetentionPruneResult := {| pr_anchor := sample_anchor; pr_deleted_events := -1 |}.

Definition one_event : audit_db := appended [sample_event (sample_id "01") (u "{}")] empty_audit.

Lemma two_events_reached : rtc (audit_step sha_authenticator sample_authenticator) empty_audit two_events.
Proof.
  eapply rtc_l; [apply (step_append _ _ (sample_event (sample_id "01") (u "{}"))
    (run_value (append (sample_event (sample_id "01") (u "{}")) sha_authenticator) empty_audit first_record) empty_audit one_event);
    vm_compute; reflexivity|].
  eapply rtc_l; [apply (step_append _ _ (sample_event (sample_id "02") (quoted "{'a':1.5}"))
    (run_value (append (sample_event (sample_id "02") (quoted "{'a':1.5}")) sha_authenticator) one_event first_record) one_event two_events);
    vm_compute; reflexivity|].
  apply rtc_refl.
Defined.

Lemma history_verifies_witness :
  rtc (audit_step sha_authenticator sample_authenticator) empty_audit after_prune
  /\ (au_chain_sequence <$> ad_events after_prune) = [2; 3]
  /\ exists v, verify_retained_chain (u "owner") sha_authenticator sample_authenticator (Session after_prune false)
               = (Ok v, Session after_prune false)
     /\ cv_valid v = true /\ next_place (u "owner") after_prune = (cv_last_sequence v + 1, cv_last_digest v).
Proof.
  assert (rtc (audit_step sha_authenticator sample_authenticator) empty_audit after_prune) as Hrtc.
  { transitivity two_events; [exact two_events_reached|].
    eapply rtc_l; [apply (step_prune _ _ (u "owner") 2 (u "anchor-1") (replicate 32 9%N) (utc 5000000) (u "anchor-key")
      (run_value sample_prune two_events no_prune) two_events pruned); vm_compute; reflexivity|].
    eapply rtc_l; [apply (step_append _ _ third_event
      (run_value (append third_event sha_authenticator) pruned first_record) pruned after_prune); vm_compute; reflexivity|].
    apply rtc_refl. }
  split; [exact Hrtc|]. split; [vm_compute; reflexivity|].
  apply (history_verifies sha_authenticator sample_authenticator after_prune (u "owner") Hrtc). vm_compute. reflexivity.
Defined.

Definition prune_run := sample_prune (Session two_events false).

Lemma prune_exact_witness :
  (au_chain_sequence <$> ad_events (s_db (snd prune_run))) = [2]
  /\ sample_prune (snd prune_run)
     = (Ok {| pr_anchor := pr_anchor (run_value sample_prune two_events no_prune); pr_deleted_events := 0 |}, snd prune_run).
Proof.
  assert (audit_inv sha_authenticator sample_authenticator two_events) as Hinv.
  { exact (audit_inv_reached _ _ _ _ two_events_reached (audit_inv_empty _ _)). }
  destruct (prune_exact sha_authenticator sample_authenticator (u "owner") 2 (u "anchor-1") (replicate 32 9%N) (utc 5000000)
    (u "anchor-key") (Session two_events false) (run_value sample_prune two_events no_prune) (snd prune_run) Hinv)
    as (_ & _ & _ & _ & Hagain); [vm_compute; reflexivity|].
  split; [vm_compute; reflexivity|exact Hagain].
Defined.
