(* ===== verification/AuditDelivery.v ===== *)
(** * Audit delivery (src/src/astralplane/audit_delivery.py)

    Audit events published to an external sink through the outbox: the
    canonical payload, enqueueing in the caller's transaction, claiming with
    validation, and delivery, where the sink is called between two
    transactions.  The sink is a parameter; each database transaction is the
    [transaction] of Pg.v on the outbox table.  Nesting is bounded by the code
    itself, so the interpreter's recursion limit plays no part. *)

From Stdlib Require Import ZifyBool.
From S2P Require Import Prelude Regex Errors Domain Sha256 Json JsonDecode Pg Outbox.

Definition AUDIT_OUTBOX_TOPIC : pystr := u "audit.publish".
Definition CANONICAL_JSON_MAX_DEPTH : Z := 128.
Definition CANONICAL_JSON_MAX_NODES : Z := 4096.
Definition CANONICAL_JSON_MAX_BYTES : Z := 1048576.

Definition _SENSITIVE_KEYS : list pystr :=
  u <$> ["api_key"; "authorization"; "client_secret"; "cookie"; "credentials"; "password"; "passwd"; "private_key";
         "refresh_token"; "secret"; "set_cookie"; "access_token"]%string.
Definition _SENSITIVE_SUFFIXES : list pystr :=
  u <$> ["_api_key"; "_client_secret"; "_password"; "_private_key"; "_refresh_token"; "_secret"; "_access_token"]%string.

(** ** Payloads *)

(** What the sanitiser distinguishes of a Python value.  A key is [None] when
    it is not a string; [PActive] is a reference to a container that encloses
    it. *)
Inductive pyobj : Type :=
  | PNone
  | PBool (b : bool)
  | PInt (z : Z)
  | PFloat (text : pystr)
  | PNonFinite
  | PStr (s : pystr)
  | PSeq (l : list pyobj)
  | PMap (items : list (option pystr * pyobj))
  | PActive
  | POther.

(** [str.casefold] of the interpreter's Unicode tables: lower case on ASCII. *)
Class PyText : Type := {
  casefold : pystr -> pystr;
  casefold_ascii s : Forall (fun c => (c < 128)%N) s -> casefold s = py_lower s
}.

Definition isascii (s : pystr) : bool := forallb (fun c => (c <? 128)%N) s.
Definition ends_with (suffix s : pystr) : bool := starts_with (reverse suffix) (reverse s).

(** [if not s.isascii(): s.encode("utf-8")] *)
Definition encodable (s : pystr) : bool := isascii s || is_ok (utf8_encode s).

Section Payload.
Context `{PyFloat} `{PyText}.

Definition normalized_key (key : pystr) : pystr :=
  (fun c => if (c =? 45)%N then 95%N else c) <$> casefold key.
Definition credential_key (key : pystr) : bool :=
  bool_decide (normalized_key key ∈ _SENSITIVE_KEYS)
  || existsb (fun suffix => ends_with suffix (normalized_key key)) _SENSITIVE_SUFFIXES.

Definition contract_error {A} (message : string) : result A := raise SQLContractError message.

(** The loops over the elements and the members of a container, with the count
    of nodes visited so far. *)
Definition visit_elements (visit : pyobj -> Z -> result (json * Z)) : list pyobj -> Z -> result (list json * Z) :=
  fix loop l nodes :=
    match l with
    | [] => Ok ([], nodes)
    | nested :: l' =>
        '(v, nodes) ← visit nested nodes;
        '(rest, nodes) ← loop l' nodes;
        Ok (v :: rest, nodes)
    end.
Definition visit_members (visit : pyobj -> Z -> result (json * Z))
  : list (option pystr * pyobj) -> Z -> result (list (pystr * json) * Z) :=
  fix loop items nodes :=
    match items with
    | [] => Ok ([], nodes)
    | (key, nested) :: items' =>
        match key with
        | None | Some [] => contract_error "audit payload keys must be non-empty strings"
        | Some key =>
            raise_unless (encodable key) (Exn SQLContractError "audit payload contains unpaired surrogate code points") ;;
            raise_if (credential_key key) (Exn SQLContractError "audit payload contains a credential-bearing field") ;;
            '(v, nodes) ← visit nested nodes;
            '(rest, nodes) ← loop items' nodes;
            Ok ((key, v) :: rest, nodes)
        end
    end.

Fixpoint visit (item : pyobj) (depth nodes : Z) : result (json * Z) :=
  let nodes := nodes + 1 in
  if CANONICAL_JSON_MAX_DEPTH <? depth then contract_error "audit payload exceeds canonical JSON structural bounds"
  else if CANONICAL_JSON_MAX_NODES <? nodes then contract_error "audit payload exceeds canonical JSON structural bounds"
  else
    match item with
    | PMap items =>
        '(sanitized, nodes) ← visit_members (fun nested nodes => visit nested (depth + 1) nodes) items nodes;
        Ok (JObj sanitized, nodes)
    | PSeq l =>
        '(elements, nodes) ← visit_elements (fun nested nodes => visit nested (depth + 1) nodes) l nodes;
        Ok (JArr elements, nodes)
    | PActive => contract_error "audit payload contains a cyclic reference"
    | PStr s =>
        raise_unless (encodable s) (Exn SQLContractError "audit payload contains unpaired surrogate code points") ;;
        Ok (JStr s, nodes)
    | PNone => Ok (JNull, nodes)
    | PBool b => Ok (JBool b, nodes)
    | PInt z => Ok (JInt z, nodes)
    | PFloat text => Ok (JFloat text, nodes)
    | PNonFinite | POther =>
        contract_error "audit payload contains a value that is not canonical-JSON compatible"
    end.

Definition _safe_json_value (value : pyobj) : result json := '(v, _) ← visit value 0 0; Ok v.

Definition is_mapping (value : pyobj) : bool := match value with PMap _ => true | _ => false end.

(** [except (TypeError, ValueError, RecursionError)] *)
Definition canonical_audit_payload (event : pyobj) : result (list N) :=
  raise_unless (is_mapping event) (Exn SQLContractError "audit event must be a mapping") ;;
  sanitized ← _safe_json_value event;
  encoded ← match text ← dumps false sanitized; utf8_encode text with
            | Ok encoded => Ok encoded
            | Err e =>
                if isinstance (exn_cls e) TypeError_ || isinstance (exn_cls e) ValueError_
                then contract_error "audit payload is not canonical-JSON compatible"
                else Err e
            end;
  raise_if (CANONICAL_JSON_MAX_BYTES <? Z.of_nat (length encoded))
    (Exn SQLContractError "audit payload exceeds the canonical JSON byte bound") ;;
  Ok encoded.

(** What [json.loads] returns, as a value again. *)
Fixpoint of_json (v : json) : pyobj :=
  match v with
  | JNull => PNone
  | JBool b => PBool b
  | JInt z => PInt z
  | JFloat t => PFloat t
  | JNonFinite => PNonFinite
  | JStr s => PStr s
  | JArr l => PSeq (of_json <$> l)
  | JObj items => PMap ((fun '(k, x) => (Some k, of_json x)) <$> items)
  | JOther => POther
  end.

(** ** Delivery *)

Inductive AuditDeliveryState : Type := NO_WORK | DELIVERED | RETRY_SCHEDULED | DEAD_LETTERED.

Record AuditDeliveryResult : Type := {
  dr_state : AuditDeliveryState;
  dr_entry_id : option pystr;
  dr_attempt : option Z;
  dr_retry_available_at : option datetime;
  dr_error_code : option pystr
}.

(** Durations in microseconds; [publish(event_id, canonical_payload,
    idempotency_key)] returns or raises. *)
Record AuditOutboxDelivery : Type := {
  ao_publish : pystr -> list N -> pystr -> result unit;
  ao_max_attempts : Z;
  ao_base_retry_delay : Z;
  ao_max_retry_delay : Z
}.

Definition delivery_init (d : AuditOutboxDelivery) : result AuditOutboxDelivery :=
  raise_if (ao_max_attempts d <? 1) (Exn SQLContractError "max_attempts must be a positive integer") ;;
  raise_if (ao_base_retry_delay d <=? 0) (Exn SQLContractError "base_retry_delay must be positive") ;;
  raise_if (ao_max_retry_delay d <? ao_base_retry_delay d)
    (Exn SQLContractError "max_retry_delay must be at least base_retry_delay") ;;
  Ok d.

Definition _aware_utc (value : datetime) : result datetime :=
  match value with
  | Naive _ => contract_error "audit delivery timestamps must be timezone-aware"
  | Aware wall off => Ok (utc (wall - off))
  end.

Definition _require_applied (r : command_result) : result unit :=
  raise_unless (cr_rowcount r =? 1) (Exn PlaneError "audit delivery state transition was not durably applied").

Definition _validate_claim (claim : ClaimedOutboxEntry) : result unit :=
  let payload := oe_canonical_payload (co_entry claim) in
  raise_if (bool_decide (oe_topic (co_entry claim) <> AUDIT_OUTBOX_TOPIC))
    (Exn SQLContractError "claim is not an audit outbox entry") ;;
  _aware_utc (co_lease_expires_at claim) ;;
  raise_if ((co_expected_version claim <? 1) || (co_attempt claim <? 1))
    (Exn PlaneError "audit outbox lease metadata is invalid") ;;
  raise_if (bool_decide (sha256_hex payload <> oe_payload_sha256 (co_entry claim)))
    (Exn PlaneError "audit outbox payload digest mismatch") ;;
  canonical ← match decoded ← loads_bytes payload; canonical_audit_payload (of_json decoded) with
              | Ok canonical => Ok canonical
              | Err e =>
                  if isinstance (exn_cls e) UnicodeDecodeError_ || isinstance (exn_cls e) JSONDecodeError_
                     || isinstance (exn_cls e) SQLContractError
                  then raise PlaneError "audit outbox payload is not valid canonical JSON"
                  else Err e
              end;
  raise_if (bool_decide (canonical <> payload)) (Exn PlaneError "audit outbox payload is not canonical").

Context `{PgEnv}.

Definition enqueue (event_id : pystr) (event : pyobj) (available_at : datetime) : SM outbox_table command_result :=
  lift (raise_if (bool_decide (event_id = []) || (220 <? length event_id)%nat)
    (Exn SQLContractError "event_id must be a non-empty bounded string")) ;;
  lift (raise_if (existsb (fun c => (c <? 33)%N) event_id)
    (Exn SQLContractError "event_id must not contain whitespace or control characters")) ;;
  payload ← lift (canonical_audit_payload event);
  available ← lift (_aware_utc available_at);
  Outbox.enqueue
    {| oe_entry_id := u "audit:" ++ event_id; oe_topic := AUDIT_OUTBOX_TOPIC; oe_canonical_payload := payload;
       oe_payload_sha256 := sha256_hex payload; oe_idempotency_key := u "audit:" ++ event_id;
       oe_available_at := available |}.

Definition claim (worker_id : pystr) (now : datetime) (lease_duration limit : Z) (t : outbox_table)
  : result (list ClaimedOutboxEntry) * outbox_table :=
  match _aware_utc now with
  | Err e => (Err e, t)
  | Ok exact_now =>
      transaction
        (claimed ← Outbox.claim worker_id [AUDIT_OUTBOX_TOPIC] exact_now lease_duration limit;
         lift (check_each _validate_claim claimed) ;;
         mret claimed) t
  end.

(** [datetime.max.replace(tzinfo=UTC)] *)
Definition DATETIME_MAX : Z := 253402300799999999.

Definition retry_delay (d : AuditOutboxDelivery) (attempt : Z) : Z :=
  let exponent := Z.min (attempt - 1) 30 in
  let multiplier := 2 ^ exponent in
  if ao_max_retry_delay d / multiplier <? ao_base_retry_delay d then ao_max_retry_delay d
  else ao_base_retry_delay d * multiplier.

Definition error_code : pystr := u "audit_sink_unavailable".

(** One fenced settlement in a transaction of its own. *)
Definition settle_once (m : SM outbox_table command_result) (outcome : AuditDeliveryResult) (t : outbox_table)
  : result AuditDeliveryResult * outbox_table :=
  match transaction (applied ← m; lift (_require_applied applied)) t with
  | (Ok _, t') => (Ok outcome, t')
  | (Err e, t') => (Err e, t')
  end.

Definition _settle_failure (d : AuditOutboxDelivery) (c : ClaimedOutboxEntry) (now : datetime) (t : outbox_table)
  : result AuditDeliveryResult * outbox_table :=
  let entry_id := oe_entry_id (co_entry c) in
  let outcome state retry_at :=
    {| dr_state := state; dr_entry_id := Some entry_id; dr_attempt := Some (co_attempt c);
       dr_retry_available_at := retry_at; dr_error_code := Some error_code |} in
  if ao_max_attempts d <=? co_attempt c then
    settle_once (dead_letter entry_id (co_worker_id c) (co_expected_version c) error_code now)
      (outcome DEAD_LETTERED None) t
  else
    let delay := retry_delay d (co_attempt c) in
    if DATETIME_MAX - instant now <? delay then
      (raise PlaneError "audit retry time exceeds the supported datetime range", t)
    else
      let retry_available_at := utc (instant now + delay) in
      settle_once (retry entry_id (co_worker_id c) (co_expected_version c) retry_available_at error_code now)
        (outcome RETRY_SCHEDULED (Some retry_available_at)) t.

Definition deliver (d : AuditOutboxDelivery) (c : ClaimedOutboxEntry) (now : datetime) (t : outbox_table)
  : result AuditDeliveryResult * outbox_table :=
  let entry := co_entry c in
  match (_validate_claim c ;;
         exact_now ← _aware_utc now;
         raise_if (instant (co_lease_expires_at c) <=? instant exact_now) (Exn PlaneError "audit outbox lease has expired") ;;
         Ok exact_now) with
  | Err e => (Err e, t)
  | Ok exact_now =>
      match ao_publish d (remove_prefix (u "audit:") (oe_entry_id entry)) (oe_canonical_payload entry)
              (oe_idempotency_key entry) with
      | Ok _ =>
          settle_once (ack (oe_entry_id entry) (co_worker_id c) (co_expected_version c) exact_now)
            {| dr_state := DELIVERED; dr_entry_id := Some (oe_entry_id entry); dr_attempt := Some (co_attempt c);
               dr_retry_available_at := None; dr_error_code := None |} t
      | Err e => if is_exception e then _settle_failure d c exact_now t else (Err e, t)
      end
  end.

Definition deliver_one (d : AuditOutboxDelivery) (worker_id : pystr) (now : datetime) (lease_duration : Z)
    (t : outbox_table) : result AuditDeliveryResult * outbox_table :=
  match claim worker_id now lease_duration 1 t with
  | (Err e, t') => (Err e, t')
  | (Ok [], t') =>
      (Ok {| dr_state := NO_WORK; dr_entry_id := None; dr_attempt := None; dr_retry_available_at := None;
             dr_error_code := None |}, t')
  | (Ok (c :: _), t') => deliver d c now t'
  end.
End Payload.
