(* ===== verification/AuditDeliverySpec.v ===== *)
(** * What audit delivery promises

    A canonical payload is decoded and canonicalised to the same bytes, within
    its bounds and free of credential fields; entries enqueued here always
    validate when claimed; a delivery settles its claim exactly once, on every
    branch; one entry that does not validate blocks the queue. *)

From Stdlib Require Import ZifyBool.
From S2P Require Import Prelude Regex Errors Domain Sha256 Json JsonDecode Pg Outbox OutboxSafety OutboxSpec AuditDelivery.

(** ** Sanitised values *)

Section Payload.
Context `{PyFloat} `{PyText}.

(** Nodes of a value, and the depth of its deepest node. *)
Fixpoint json_nodes (v : json) : Z :=
  match v with
  | JArr l => 1 + fold_right Z.add 0 (json_nodes <$> l)
  | JObj items => 1 + fold_right Z.add 0 ((fun '(_, x) => json_nodes x) <$> items)
  | _ => 1
  end.
Fixpoint json_depth (v : json) : Z :=
  match v with
  | JArr l => fold_right Z.max 0 ((fun x => 1 + json_depth x) <$> l)
  | JObj items => fold_right Z.max 0 ((fun '(_, x) => 1 + json_depth x) <$> items)
  | _ => 0
  end.

(** Keys that are non-empty, encodable and carry no credential; encodable
    strings; JSON values only. *)
Definition clean_key (k : pystr) : bool := negb (bool_decide (k = [])) && encodable k && negb (credential_key k).
Fixpoint clean (v : json) : bool :=
  match v with
  | JNull | JBool _ | JInt _ | JFloat _ => true
  | JStr s => encodable s
  | JArr l => forallb clean l
  | JObj items => forallb (fun '(k, x) => clean_key k && clean x) items
  | JNonFinite | JOther => false
  end.

Lemma pyobj_nested_ind (P : pyobj -> Prop) :
  P PNone -> (forall b, P (PBool b)) -> (forall z, P (PInt z)) -> (forall t, P (PFloat t)) -> P PNonFinite ->
  (forall s, P (PStr s)) -> (forall l, Forall P l -> P (PSeq l)) ->
  (forall items, Forall (fun kv => P (snd kv)) items -> P (PMap items)) -> P PActive -> P POther ->
  forall v, P v.
Proof.
  intros H1 H2 H3 H4 H5 H6 Hseq Hmap H7 H8. fix IH 1.
  intros [|b|z|t| |s|l|items| |]; [done|done|done|done|done|done| | |done|done].
  - apply Hseq. induction l as [|x l IHl]; constructor; [apply IH|apply IHl].
  - apply Hmap. induction items as [|[k x] items IHi]; constructor; [apply IH|apply IHi].
Qed.

(** Within the bounds at depth [d] after [n] nodes. *)
Definition bounded (v : json) (d n : Z) : Prop :=
  d + json_depth v <= CANONICAL_JSON_MAX_DEPTH /\ n + json_nodes v <= CANONICAL_JSON_MAX_NODES.

Lemma json_nodes_pos v : 1 <= json_nodes v.
Proof.
  induction v as [|flag|z|text| |s|l IH|items IH|] using json_nested_ind; cbn; try lia.
  - assert (0 <= fold_right Z.add 0 (json_nodes <$> l)); [|lia]. induction IH; cbn; lia.
  - assert (0 <= fold_right Z.add 0 ((fun '(_, x) => json_nodes x) <$> items)); [|lia].
    induction IH as [|[k x] items Hx _ IHi]; cbn in *; lia.
Qed.
Lemma json_depth_nonneg v : 0 <= json_depth v.
Proof.
  destruct v; cbn; try lia.
  - induction l; cbn; lia.
  - induction items as [|[k x] items IH]; cbn; lia.
Qed.

Definition visited (item : pyobj) (d n : Z) (v : json) (n' : Z) : Prop :=
  item = of_json v /\ clean v = true /\ bounded v d n /\ n' = n + json_nodes v.

Lemma visit_leaf v d n : json_nodes v = 1 -> json_depth v = 0 ->
  (CANONICAL_JSON_MAX_DEPTH <? d) = false -> (CANONICAL_JSON_MAX_NODES <? n + 1) = false -> bounded v d n.
Proof. unfold bounded. intros -> -> Hd Hn. apply Z.ltb_ge in Hd, Hn. lia. Qed.

Lemma elements_visited l d n vs n' :
  Forall (fun x => forall d n v n', visit x d n = Ok (v, n') -> visited x d n v n') l ->
  visit_elements (fun nested nodes => visit nested (d + 1) nodes) l n = Ok (vs, n') ->
  l = of_json <$> vs /\ forallb clean vs = true /\ n' = n + fold_right Z.add 0 (json_nodes <$> vs)
  /\ Forall (fun v => d + 1 + json_depth v <= CANONICAL_JSON_MAX_DEPTH) vs
  /\ (vs <> [] -> n' <= CANONICAL_JSON_MAX_NODES).
Proof.
  intros HF. revert n vs n'. induction HF as [|x l Hx HF IH]; intros n vs n'; cbn.
  - intros [= <- <-]. split_and!; try done. cbn. lia.
  - intros ([v n1] & Hv & Hl)%bind_Ok_inv. apply bind_Ok_inv in Hl as ([rest n2] & Hrest & [= <- <-]).
    apply Hx in Hv as (-> & Hc & [Hd Hn] & ->). apply IH in Hrest as (-> & Hcs & -> & HFd & Hmax).
    cbn. rewrite Hc, Hcs. split_and!; try done; [lia|by constructor|]. intros _.
    destruct rest as [|y rest]; [cbn; lia|]. cbn in *. specialize (Hmax ltac:(done)). lia.
Qed.

Lemma members_visited items d n vs n' :
  Forall (fun kx => forall d n v n', visit (snd kx) d n = Ok (v, n') -> visited (snd kx) d n v n') items ->
  visit_members (fun nested nodes => visit nested (d + 1) nodes) items n = Ok (vs, n') ->
  items = (fun '(k, x) => (Some k, of_json x)) <$> vs /\ forallb (fun '(k, x) => clean_key k && clean x) vs = true
  /\ n' = n + fold_right Z.add 0 ((fun '(_, x) => json_nodes x) <$> vs)
  /\ Forall (fun '(_, v) => d + 1 + json_depth v <= CANONICAL_JSON_MAX_DEPTH) vs
  /\ (vs <> [] -> n' <= CANONICAL_JSON_MAX_NODES).
Proof.
  intros HF. revert n vs n'. induction HF as [|[key x] l Hx HF IH]; intros n vs n'; cbn.
  - intros [= <- <-]. split_and!; try done. cbn. lia.
  - destruct key as [[|c key]|]; [done| |done]. intros (? & Henc%raise_unless_Ok & Hl)%bind_Ok_inv.
    apply bind_Ok_inv in Hl as (? & Hcred%raise_if_Ok & Hl).
    apply bind_Ok_inv in Hl as ([v n1] & Hv & Hl). apply bind_Ok_inv in Hl as ([rest n2] & Hrest & [= <- <-]).
    cbn in Hx. apply Hx in Hv as (-> & Hc & [Hd Hn] & ->). apply IH in Hrest as (-> & Hcs & -> & HFd & Hmax).
    assert (clean_key (c :: key) = true) as Hk by (unfold clean_key; by rewrite Henc, Hcred).
    cbn [fmap list_fmap forallb fold_right]. rewrite Hk, Hc, Hcs. split_and!; try done; [lia|by constructor|]. intros _.
    destruct rest as [|[k y] rest]; [cbn; lia|]. cbn in *. specialize (Hmax ltac:(done)). lia.
Qed.

Lemma max_depth l d m : 0 <= m - d -> Forall (fun x => d + x <= m) l -> d + fold_right Z.max 0 l <= m.
Proof. intros Hm. induction 1; cbn; lia. Qed.

(** A visit that succeeds returns the value itself, clean and within bounds. *)
Lemma visit_visited item d n v n' : visit item d n = Ok (v, n') -> visited item d n v n'.
Proof.
  revert d n v n'. induction item as [|b|z|t| |s|l IH|items IH| |] using pyobj_nested_ind; intros d n v n'; cbn [visit];
    destruct (CANONICAL_JSON_MAX_DEPTH <? d) eqn:Hd; try done; destruct (CANONICAL_JSON_MAX_NODES <? n + 1) eqn:Hn; try done.
  - intros [= <- <-]. split_and!; try done. by apply visit_leaf.
  - intros [= <- <-]. split_and!; try done. by apply visit_leaf.
  - intros [= <- <-]. split_and!; try done. by apply visit_leaf.
  - intros [= <- <-]. split_and!; try done. by apply visit_leaf.
  - intros (? & He%raise_unless_Ok & [= <- <-])%bind_Ok_inv. split_and!; try done. by apply visit_leaf.
  - intros ([vs n1] & Hl & [= <- <-])%bind_Ok_inv. apply elements_visited in Hl as (-> & Hc & -> & HF & Hmax); [|done].
    split_and!; try done; [|cbn; lia]. apply Z.ltb_ge in Hd, Hn. split.
    + cbn. apply max_depth; [lia|]. apply Forall_fmap. eapply Forall_impl; [exact HF|]. cbn. lia.
    + cbn. destruct vs as [|x vs]; [cbn; lia|]. specialize (Hmax ltac:(done)). lia.
  - intros ([vs n1] & Hl & [= <- <-])%bind_Ok_inv. apply members_visited in Hl as (-> & Hc & -> & HF & Hmax); [|done].
    split_and!; try done; [|cbn; lia]. apply Z.ltb_ge in Hd, Hn. split.
    + cbn. apply max_depth; [lia|]. apply Forall_fmap. eapply Forall_impl; [exact HF|]. intros [k x]. cbn. lia.
    + cbn. destruct vs as [|x vs]; [cbn; lia|]. specialize (Hmax ltac:(done)). lia.
Qed.

Lemma nodes_sum l : 0 <= fold_right Z.add 0 (json_nodes <$> l).
Proof. induction l as [|x l IH]; cbn; [lia|]. pose proof (json_nodes_pos x). lia. Qed.
Lemma member_nodes_sum (l : list (pystr * json)) : 0 <= fold_right Z.add 0 ((fun '(_, x) => json_nodes x) <$> l).
Proof. induction l as [|[k x] l IH]; cbn; [lia|]. pose proof (json_nodes_pos x). lia. Qed.

Lemma elements_run l d n :
  Forall (fun v => forall d n, clean v = true -> bounded v d n -> visit (of_json v) d n = Ok (v, n + json_nodes v)) l ->
  forallb clean l = true -> (forall v, v ∈ l -> d + 1 + json_depth v <= CANONICAL_JSON_MAX_DEPTH) ->
  n + fold_right Z.add 0 (json_nodes <$> l) <= CANONICAL_JSON_MAX_NODES ->
  visit_elements (fun nested nodes => visit nested (d + 1) nodes) (of_json <$> l) n
  = Ok (l, n + fold_right Z.add 0 (json_nodes <$> l)).
Proof.
  intros HF. revert n. induction HF as [|v l Hv HF IH]; intros n; cbn; [by rewrite Z.add_0_r|].
  intros [Hc Hcs]%andb_true_iff Hd Hn.
  pose proof (nodes_sum l) as Hpos.
  rewrite Hv; [|done|split; [apply Hd; by left|lia]]. cbn.
  rewrite IH; [|done|intros x Hx; apply Hd; by right|lia]. cbn. do 2 f_equal. lia.
Qed.

Lemma members_run l d n :
  Forall (fun kv => forall d n, clean (snd kv) = true -> bounded (snd kv) d n ->
            visit (of_json (snd kv)) d n = Ok (snd kv, n + json_nodes (snd kv))) l ->
  forallb (fun '(k, x) => clean_key k && clean x) l = true ->
  (forall kv, kv ∈ l -> d + 1 + json_depth (snd kv) <= CANONICAL_JSON_MAX_DEPTH) ->
  n + fold_right Z.add 0 ((fun '(_, x) => json_nodes x) <$> l) <= CANONICAL_JSON_MAX_NODES ->
  visit_members (fun nested nodes => visit nested (d + 1) nodes) ((fun '(k, x) => (Some k, of_json x)) <$> l) n
  = Ok (l, n + fold_right Z.add 0 ((fun '(_, x) => json_nodes x) <$> l)).
Proof.
  intros HF. revert n. induction HF as [|[k v] l Hv HF IH]; intros n; cbn [forallb fmap list_fmap fold_right]; [by rewrite Z.add_0_r|].
  intros [[Hk Hc]%andb_true_iff Hcs]%andb_true_iff Hd Hn.
  pose proof (member_nodes_sum l) as Hpos.
  unfold clean_key in Hk. split_bools. destruct k as [|c k]; [done|]. cbn [visit_members].
  repeat match goal with Hx : encodable _ = true |- _ => rewrite Hx; clear Hx | Hx : credential_key _ = false |- _ => rewrite Hx; clear Hx end.
  cbn [raise_unless raise_if mbind outcome_mbind outcome_bind].
  cbn [snd] in Hv. rewrite Hv; [|done|split; [apply (Hd (c :: k, v)); by left|lia]]. cbn [mbind outcome_mbind outcome_bind].
  fold (visit_members (fun nested nodes => visit nested (d + 1) nodes)).
  rewrite IH; [|done|intros x Hx; apply Hd; by right|lia]. cbn. do 2 f_equal. lia.
Qed.

Lemma fold_max_le l m x : x ∈ l -> fold_right Z.max 0 l <= m -> x <= m.
Proof. induction 1 as [y l|y z l _ IH]; cbn; [lia|]. intros Hm. apply IH. lia. Qed.

(** The visit of a clean value within bounds returns it. *)
Lemma visit_clean v d n : clean v = true -> bounded v d n -> visit (of_json v) d n = Ok (v, n + json_nodes v).
Proof.
  revert d n. induction v as [|flag|z|text| |s|l IH|items IH|] using json_nested_ind; intros d n Hc [Hd Hn];
    pose proof (json_depth_nonneg) as Hnn; cbn [of_json visit clean json_nodes] in *; try done.
  all: rewrite (proj2 (Z.ltb_ge _ _)) by (first [specialize (Hnn (JArr l)) | specialize (Hnn (JObj items)) | idtac]; cbn [json_depth] in *; lia).
  1-4: (rewrite (proj2 (Z.ltb_ge _ _)) by lia; done).
  - rewrite (proj2 (Z.ltb_ge _ _)) by lia. by rewrite Hc.
  - pose proof (nodes_sum l) as Hpos.
    rewrite (proj2 (Z.ltb_ge _ _)) by lia. rewrite elements_run; [cbn; do 2 f_equal; lia|done|done| |lia].
    intros v Hv. cbn in Hd. assert (1 + json_depth v <= CANONICAL_JSON_MAX_DEPTH - d); [|lia].
    eapply fold_max_le; [|apply Z.le_add_le_sub_l, Hd]. apply list_elem_of_fmap. eauto.
  - pose proof (member_nodes_sum items) as Hpos.
    rewrite (proj2 (Z.ltb_ge _ _)) by lia. rewrite members_run; [cbn; do 2 f_equal; lia|done|done| |lia].
    intros [k v] Hv. cbn in Hd |- *. assert (1 + json_depth v <= CANONICAL_JSON_MAX_DEPTH - d); [|lia].
    eapply fold_max_le; [|apply Z.le_add_le_sub_l, Hd]. apply list_elem_of_fmap. by exists (k, v).
Qed.

(** ** Sorting keys *)

Lemma fold_perm (f : Z -> Z -> Z) l l' :
  (forall a b c, f a (f b c) = f b (f a c)) -> l ≡ₚ l' -> fold_right f 0 l = fold_right f 0 l'.
Proof. intros Hf. induction 1 as [|x l l' _ IH|x y l|l1 l2 l3 _ IH1 _ IH2]; cbn; [done|by rewrite IH|apply Hf|by rewrite IH1]. Qed.

Lemma sort_measure v : json_nodes (sort_json v) = json_nodes v /\ json_depth (sort_json v) = json_depth v.
Proof.
  induction v as [|flag|z|text| |s|l IH|items IH|] using json_nested_ind; try done; cbn [sort_json json_nodes json_depth].
  - induction IH as [|x l [Hx1 Hx2] _ IHl]; [done|]. cbn in *. lia.
  - rewrite (fold_perm Z.add _ ((fun '(_, x) => json_nodes x) <$> ((fun '(k, x) => (k, sort_json x)) <$> items)));
      [|intros; lia|by rewrite sort_by_perm].
    rewrite (fold_perm Z.max _ ((fun '(_, x) => 1 + json_depth x) <$> ((fun '(k, x) => (k, sort_json x)) <$> items)));
      [|intros; lia|by rewrite sort_by_perm].
    induction IH as [|[k x] l [Hx1 Hx2] _ IHl]; [done|]. cbn in *. lia.
Qed.

Lemma clean_sort v : clean v = true -> clean (sort_json v) = true.
Proof.
  induction v as [|flag|z|text| |s|l IH|items IH|] using json_nested_ind; try done; cbn [sort_json clean].
  - intros Hc. rewrite forallb_forall in *. intros x Hx%list_elem_of_In%list_elem_of_fmap. destruct Hx as (y & -> & Hy).
    rewrite Forall_forall in IH. apply (IH y Hy), Hc. by apply list_elem_of_In.
  - intros Hc. rewrite forallb_forall in *. intros x Hx%list_elem_of_In%elem_of_sort_by%list_elem_of_fmap.
    destruct Hx as ([k y] & -> & Hy). rewrite Forall_forall in IH. specialize (IH _ Hy). apply list_elem_of_In, Hc in Hy. cbn in *.
    apply andb_true_iff in Hy as [-> Hy]. by apply IH.
Qed.

(** Python values: code points, [repr] texts, one member per key. *)
Definition code_points (s : pystr) : bool := forallb (fun c => (c <? 1114112)%N) s.
Fixpoint py_value (x : pyobj) : bool :=
  match x with
  | PFloat t => is_repr t
  | PStr s => code_points s
  | PSeq l => forallb py_value l
  | PMap items =>
      bool_decide (NoDup (fst <$> items))
      && forallb (fun '(k, x) => match k with Some k => code_points k | None => true end && py_value x) items
  | _ => true
  end.

Lemma encodable_scalar s : code_points s = true -> encodable s = true -> forallb scalar s = true.
Proof.
  unfold code_points, encodable. intros Hp [Ha|He]%orb_true_iff.
  - unfold isascii in Ha. rewrite forallb_forall in *. intros c Hc%Ha. unfold scalar. lia.
  - destruct (utf8_encode s) as [bytes|] eqn:Hu; [|done]. eapply utf8_scalar; [|exact Hu].
    apply Forall_forall. intros c Hc%list_elem_of_In. rewrite forallb_forall in Hp. specialize (Hp c Hc). lia.
Qed.

Lemma py_value_wf v : py_value (of_json v) = true -> clean v = true -> json_wf v = true.
Proof.
  induction v as [|flag|z|text| |s|l IH|items IH|] using json_nested_ind; try done; cbn [of_json py_value clean json_wf].
  - intros Hp Hc. by apply encodable_scalar.
  - intros Hp Hc. rewrite forallb_forall in *. intros x Hx. rewrite Forall_forall in IH.
    apply IH; [by apply list_elem_of_In| |by apply Hc]. apply Hp. apply list_elem_of_In, list_elem_of_fmap. exists x.
    split; [done|]. by apply list_elem_of_In.
  - intros [Hnd%bool_decide_eq_true Hp]%andb_true_iff Hc. rewrite forallb_forall in *. apply andb_true_iff. split.
    + apply bool_decide_eq_true. rewrite <- list_fmap_compose in Hnd.
      assert (NoDup (Some <$> (fst <$> items))) as Hnd'.
      { rewrite <- list_fmap_compose. erewrite list_fmap_ext; [exact Hnd|]. by intros ? [??]. }
      by apply NoDup_fmap_1 in Hnd'.
    + apply forallb_forall. intros [k x] Hx. rewrite Forall_forall in IH. specialize (Hc _ Hx). cbn in Hc.
      assert (In (Some k, of_json x) ((fun '(k, x) => (Some k, of_json x)) <$> items)) as Hin.
      { apply list_elem_of_In, list_elem_of_fmap. exists (k, x). split; [done|]. by apply list_elem_of_In. }
      apply Hp in Hin. apply andb_true_iff in Hc as [Hk Hcx]. apply andb_true_iff in Hin as [Hkp Hpx].
      unfold clean_key in Hk. split_bools. rewrite encodable_scalar by done. cbn.
      apply list_elem_of_In in Hx. by apply (IH _ Hx).
Qed.

(** ** Canonical payloads *)

Lemma canonical_payload_Ok event bytes :
  canonical_audit_payload event = Ok bytes <->
  exists v text, event = of_json v /\ is_mapping event = true /\ clean v = true /\ bounded v 0 0
    /\ dumps false v = Ok text /\ utf8_encode text = Ok bytes /\ Z.of_nat (length bytes) <= CANONICAL_JSON_MAX_BYTES.
Proof.
  unfold canonical_audit_payload, _safe_json_value. split.
  - intros (? & Hm%raise_unless_Ok & Hp)%bind_Ok_inv. apply bind_Ok_inv in Hp as (v & Hv & Hp).
    apply bind_Ok_inv in Hv as ([v' n] & Hv & [= ->]). apply visit_visited in Hv as (-> & Hc & Hb & _).
    apply bind_Ok_inv in Hp as (encoded & He & Hp). apply bind_Ok_inv in Hp as (? & Hl%raise_if_Ok%Z.ltb_ge & [= ->]).
    destruct (dumps false v) as [text|e] eqn:Hd; cbn in He; [|by destruct (_ || _)].
    destruct (utf8_encode text) as [b|e] eqn:Hu; [|by destruct (_ || _)]. injection He as ->. eauto 10.
  - intros (v & text & -> & Hm & Hc & Hb & Hd & Hu & Hl). rewrite Hm. cbn [raise_unless mbind outcome_mbind outcome_bind].
    rewrite (visit_clean v 0 0 Hc Hb). cbn [mbind outcome_mbind outcome_bind]. rewrite Hd. cbn [mbind outcome_mbind outcome_bind].
    rewrite Hu. cbn [mbind outcome_mbind outcome_bind]. by rewrite (proj2 (Z.ltb_ge _ _)) by lia.
Qed.

Lemma canonical_payload_decode v text bytes :
  json_wf v = true -> clean v = true -> bounded v 0 0 -> is_mapping (of_json v) = true ->
  dumps false v = Ok text -> utf8_encode text = Ok bytes -> Z.of_nat (length bytes) <= CANONICAL_JSON_MAX_BYTES ->
  loads_bytes bytes = Ok (sort_json v) /\ canonical_audit_payload (of_json (sort_json v)) = Ok bytes.
Proof.
  intros Hw Hc [Hd Hn] Hm Hdu Hu Hl. split.
  - unfold loads_bytes. rewrite (utf8_roundtrip text bytes); [|by eapply dumps_scalar|done]. cbn. by apply (loads_text false).
  - apply canonical_payload_Ok. exists (sort_json v), text. destruct (sort_measure v) as [Sn Sd]. unfold bounded. rewrite Sn, Sd.
    split_and!; try done; [by destruct v|by apply clean_sort|by apply dumps_sort].
Qed.
End Payload.

(** ** Claims *)

Section Claims.
Context `{PyFloat} `{PyText} `{PgEnv}.

(** A payload that is its own canonical form. *)
Definition payload_valid (bytes : list N) : bool :=
  match loads_bytes bytes with
  | Ok v => bool_decide (canonical_audit_payload (of_json v) = Ok bytes)
  | Err _ => false
  end.

Lemma validate_claim_Ok c :
  oe_topic (co_entry c) = AUDIT_OUTBOX_TOPIC -> is_aware (co_lease_expires_at c) = true ->
  1 <= co_expected_version c -> 1 <= co_attempt c ->
  sha256_hex (oe_canonical_payload (co_entry c)) = oe_payload_sha256 (co_entry c) ->
  payload_valid (oe_canonical_payload (co_entry c)) = true -> _validate_claim c = Ok ().
Proof.
  intros Ht Ha Hv Hat Hsha Hp. unfold _validate_claim, payload_valid in *. rewrite Hsha, Ht, !bool_decide_eq_false_2 by tauto.
  destruct (co_lease_expires_at c) as [|w off]; [done|]. cbn [raise_if mbind outcome_mbind outcome_bind _aware_utc].
  rewrite !(proj2 (Z.ltb_ge _ _)) by lia. cbn [orb raise_if mbind outcome_mbind outcome_bind].
  destruct (loads_bytes _) as [v|]; [|done]. cbn [mbind outcome_mbind outcome_bind]. apply bool_decide_eq_true in Hp. rewrite Hp.
  cbn [mbind outcome_mbind outcome_bind]. by rewrite bool_decide_eq_false_2 by tauto.
Qed.

Lemma validate_claim_payload c : _validate_claim c = Ok () -> payload_valid (oe_canonical_payload (co_entry c)) = true.
Proof.
  unfold _validate_claim, payload_valid. intros Hv. do 4 (apply bind_Ok_inv in Hv as (? & _ & Hv)).
  apply bind_Ok_inv in Hv as (canonical & Hc & Hv). apply raise_if_Ok, bool_decide_eq_false, dec_stable in Hv as ->.
  destruct (loads_bytes _) as [v|e]; cbn in Hc; [|by destruct (_ || _)].
  destruct (canonical_audit_payload (of_json v)) as [b|e]; [|by destruct (_ || _)]. by apply bool_decide_eq_true.
Qed.

(** Every audit row of the table carries a valid payload. *)
Definition audit_rows_valid (t : outbox_table) : Prop :=
  forall r, r ∈ t -> ro_topic r = AUDIT_OUTBOX_TOPIC -> payload_valid (ro_canonical_payload r) = true.

(** Rows keep their topic and payload; new ones have another topic. *)
Definition payloads_kept (t t' : outbox_table) : Prop :=
  forall r', r' ∈ t' -> ro_topic r' = AUDIT_OUTBOX_TOPIC ->
    exists r, r ∈ t /\ ro_topic r = AUDIT_OUTBOX_TOPIC /\ ro_canonical_payload r = ro_canonical_payload r'.
#[local] Instance payloads_kept_preorder : PreOrder payloads_kept.
Proof.
  split; [intros t r' ? ?; eauto|]. intros t1 t2 t3 H12 H23 r' Hr' Ht. destruct (H23 r' Hr' Ht) as (r2 & Hr2 & Ht2 & <-).
  by apply H12.
Qed.

Lemma payloads_kept_update p f t :
  (forall r, ro_topic (f r) = ro_topic r /\ ro_canonical_payload (f r) = ro_canonical_payload r) ->
  payloads_kept t (update_where p f t).
Proof.
  intros Hf r' (r & Hr & ->)%elem_of_update_where Ht. destruct (Hf r) as [Htr Hpr]. destruct (p r); exists r; rewrite ?Htr, ?Hpr in *; auto.
Qed.

Lemma settle_kept f entry worker version now t c t' :
  (forall r, ro_topic (f r) = ro_topic r /\ ro_canonical_payload (f r) = ro_canonical_payload r) ->
  settle f entry worker version now t = Ok (c, t') -> payloads_kept t t'.
Proof. intros Hf ->%settle_table. by apply payloads_kept_update. Qed.

Lemma validate_entry_topic e x : _validate_entry e = Ok x -> oe_topic x = oe_topic e.
Proof.
  unfold _validate_entry. intros Hv. do 3 (apply bind_Ok_inv in Hv as (? & ?Hb & Hv)). do 3 (apply bind_Ok_inv in Hv as (? & _ & Hv)).
  apply bind_Ok_inv in Hv as (? & _ & [= <-]). by apply bounded_text_Ok in Hb0 as [-> _].
Qed.

Lemma validate_entry_digest e x : _validate_entry e = Ok x -> sha256_hex (oe_canonical_payload x) = oe_payload_sha256 x.
Proof.
  unfold _validate_entry. intros Hv. do 5 (apply bind_Ok_inv in Hv as (? & _ & Hv)).
  apply bind_Ok_inv in Hv as (? & Hd%raise_if_Ok%bool_decide_eq_false%dec_stable & Hv).
  by apply bind_Ok_inv in Hv as (? & _ & [= <-]).
Qed.

(** Operations other than an enqueue on the audit topic. *)
Definition foreign_op (op : outbox_op) : bool :=
  match op with OpEnqueue e => negb (bool_decide (oe_topic e = AUDIT_OUTBOX_TOPIC)) | _ => true end.

Lemma foreign_op_kept op : foreign_op op = true -> respects payloads_kept (run_op op).
Proof.
  destruct op as [e|w ts now d n|e w v now|e w v a err now|e w v err now|now n]; cbn [foreign_op run_op]; intros Hop;
    (apply respects_bind; [apply _| |intros; apply respects_ret, _]).
  - unfold Outbox.enqueue. respects_auto. apply respects_exec; [apply _|]. intros t c t' Hq r' Hr' Htop.
    match goal with Hx : _validate_entry e = Ok _ |- _ => apply validate_entry_topic in Hx as Htx end.
    unfold _ENQUEUE_SQL in Hq. apply bind_Ok_inv in Hq as (? & _ & Hq). destruct (exists_row _ t); [injection Hq as _ <-; eauto|].
    destruct (exists_row _ t); [done|]. injection Hq as _ <-. apply elem_of_app in Hr' as [Hr'|Hr']; [eauto|].
    apply list_elem_of_singleton in Hr' as ->. cbn in Htop. apply negb_true_iff, bool_decide_eq_false in Hop. congruence.
  - unfold Outbox.claim. respects_auto. apply respects_exec; [apply _|]. intros t c t' ->%claim_sql_table. by apply payloads_kept_update.
  - unfold ack. respects_auto. apply respects_exec; [apply _|]. intros t c t' Hq. by eapply settle_kept; [|exact Hq].
  - unfold retry. respects_auto. apply respects_exec; [apply _|]. intros t c t' Hq. by eapply settle_kept; [|exact Hq].
  - unfold dead_letter. respects_auto. apply respects_exec; [apply _|]. intros t c t' Hq. by eapply settle_kept; [|exact Hq].
  - unfold reclaim_expired. respects_auto. apply respects_exec; [apply _|]. intros t c t' ->%reclaim_sql_table. by apply payloads_kept_update.
Qed.

(** ** The queue *)

(** Committed transactions on the outbox: enqueues of audit events here, and
    any other operation that does not enqueue on the audit topic. *)
Inductive queue_step : outbox_table -> outbox_table -> Prop :=
  | queue_enqueue event_id event available_at c t t' :
      py_value event = true -> transaction (enqueue event_id event available_at) t = (Ok c, t') -> queue_step t t'
  | queue_other op t : foreign_op op = true -> queue_step t (snd (transaction (run_op op) t)).

Lemma payload_of_event event bytes :
  py_value event = true -> canonical_audit_payload event = Ok bytes -> payload_valid bytes = true.
Proof.
  intros Hp (v & text & -> & Hm & Hc & Hb & Hd & Hu & Hl)%canonical_payload_Ok.
  destruct (canonical_payload_decode v text bytes) as [Hload Hcan]; try done; [by apply py_value_wf|].
  unfold payload_valid. rewrite Hload. by apply bool_decide_eq_true.
Qed.

Lemma validate_entry_payload e x : _validate_entry e = Ok x -> oe_canonical_payload x = oe_canonical_payload e.
Proof.
  unfold _validate_entry. intros Hv. do 6 (apply bind_Ok_inv in Hv as (? & _ & Hv)). by apply bind_Ok_inv in Hv as (? & _ & [= <-]).
Qed.

Definition queue_safe (t t' : outbox_table) : Prop := audit_rows_valid t -> audit_rows_valid t'.
#[local] Instance queue_safe_preorder : PreOrder queue_safe.
Proof. unfold queue_safe. split; [intros t; auto|intros t1 t2 t3; auto]. Qed.

Lemma enqueue_queue_safe event_id event available_at :
  py_value event = true -> respects queue_safe (enqueue event_id event available_at).
Proof.
  intros Hp. unfold enqueue, Outbox.enqueue. respects_auto. apply respects_exec; [apply _|]. intros t c t' Hq Hv r Hr Ht.
  unfold _ENQUEUE_SQL in Hq. apply bind_Ok_inv in Hq as (? & _ & Hq). destruct (exists_row _ t); [injection Hq as _ <-; by apply Hv|].
  destruct (exists_row _ t); [done|]. injection Hq as _ <-. apply elem_of_app in Hr as [Hr|Hr]; [by apply Hv|].
  apply list_elem_of_singleton in Hr as ->. cbn.
  match goal with Hx : _validate_entry _ = Ok _ |- _ => apply validate_entry_payload in Hx as -> end. cbn. by eapply payload_of_event.
Qed.

Lemma enqueue_outbox_safe event_id event available_at : respects outbox_safe (enqueue event_id event available_at).
Proof. unfold enqueue. respects_auto. apply enqueue_safe. Qed.

Lemma queue_step_inv t t' :
  queue_step t t' -> outbox_inv t /\ audit_rows_valid t -> outbox_inv t' /\ audit_rows_valid t'.
Proof.
  intros Hs [Hi Hv]. destruct Hs as [event_id event available_at c t t' Hp Ht|op t Hop].
  - pose proof (respects_transaction outbox_safe _ t (enqueue_outbox_safe event_id event available_at)) as H1'.
    pose proof (respects_transaction queue_safe _ t (enqueue_queue_safe event_id event available_at Hp)) as H2'.
    rewrite Ht in H1', H2'. split; [by apply H1'|by apply H2'].
  - split; [by apply (respects_transaction outbox_safe _ t (run_op_safe op))|].
    intros r Hr Ht. destruct (respects_transaction payloads_kept _ t (foreign_op_kept op Hop) r Hr Ht) as (r0 & Hr0 & Ht0 & <-). by apply Hv.
Qed.

Lemma queue_reached t : rtc queue_step [] t -> outbox_inv t /\ audit_rows_valid t.
Proof.
  assert (forall t0, rtc queue_step t0 t -> outbox_inv t0 /\ audit_rows_valid t0 -> outbox_inv t /\ audit_rows_valid t) as Hgo.
  { induction 1 as [|x y z Hs _ IH]; [done|]. intros Hx. by apply IH, queue_step_inv with x. }
  intros Hr. apply (Hgo [] Hr). split; [apply outbox_inv_empty|]. intros r Hr'. by apply elem_of_nil in Hr'.
Qed.

(** What a claim decodes. *)
Lemma claimed_entry_valid worker expires now r i :
  row_ok r -> ro_topic r = AUDIT_OUTBOX_TOPIC -> payload_valid (ro_canonical_payload r) = true ->
  claimed_entry (claim_row_update worker expires now r) = Ok i -> _validate_claim i = Ok ().
Proof.
  intros Hok Ht Hp Hc. pose proof (attempts_nonneg r Hok) as Ha.
  destruct (check_outbox_row_Ok r _ (ok_constraints r Hok)) as (_ & _ & Hck). unfold outbox_checks in Hck. split_bools.
  unfold claimed_entry in Hc. apply bind_Ok_inv in Hc as (entry & He & Hc). apply bind_Ok_inv in Hc as (w & _ & Hc).
  apply bind_Ok_inv in Hc as (exp & Hexp & [= <-]). unfold _entry_from_record in He. apply bind_Ok_inv in He as (at_ & _ & He).
  apply validate_entry_topic in He as Et. apply validate_entry_payload in He as Ep. cbn in Et, Ep, Hexp. injection Hexp as <-.
  apply validate_entry_digest in He. apply validate_claim_Ok; cbn; try done; try congruence; lia.
Qed.

Lemma audit_claim_validates worker now duration limit t items t' :
  outbox_inv t -> audit_rows_valid t ->
  transaction (Outbox.claim worker [AUDIT_OUTBOX_TOPIC] now duration limit) t = (Ok items, t') ->
  check_each _validate_claim items = Ok ().
Proof.
  intros Hi Hv Ht. apply check_each_Ok, Forall_forall. intros i Hin.
  destruct (claim_items _ _ _ _ _ _ _ _ _ Hi Ht Hin) as (r & Hr & Hc & Hdec & _). unfold claimable in Hc. split_bools.
  match goal with Hx : ro_topic r ∈ _ |- _ => apply list_elem_of_singleton in Hx as Htop end.
  eapply claimed_entry_valid; [|exact Htop|by apply Hv|exact Hdec]. by eapply (proj1 (Forall_forall _ _)); [apply Hi|].
Qed.
End Claims.

(** ** Settling *)

Section Settle.
Context `{PyFloat} `{PyText} `{PgEnv}.

Definition settlement_method (k : settlement) (entry worker : pystr) (version : Z) (now : datetime)
  : SM outbox_table command_result :=
  match k with
  | S_ack => ack entry worker version now
  | S_retry available error => retry entry worker version available error now
  | S_dead_letter error => dead_letter entry worker version error now
  end.

Lemma settlement_rowcount k entry worker version now s c s' :
  settlement_method k entry worker version now s = (Ok c, s') -> cr_rowcount c = 1.
Proof.
  assert (forall op c c', _require_single_update op c = Ok c' -> cr_rowcount c' = 1) as Hreq.
  { intros op c0 c'. unfold _require_single_update. destruct (Z.eqb_spec (cr_rowcount c0) 1); congruence. }
  destruct k; cbn [settlement_method]; unfold ack, retry, dead_letter; intros Hr; inv_run.
  all: match goal with Hx : (let '(_, _) := ?v in _) _ = _ |- _ => destruct v as [[? ?] ?] end; inv_run; eauto.
Qed.

(** A settlement here is the settlement of the outbox. *)
Lemma settle_once_run k entry worker version now outcome t :
  settle_once (settlement_method k entry worker version now) outcome t
  = match transaction (run_op (settlement_op k entry worker version now)) t with
    | (Ok _, t') => (Ok outcome, t')
    | (Err e, t') => (Err e, t')
    end.
Proof.
  assert (run_op (settlement_op k entry worker version now) = (settlement_method k entry worker version now ;; mret ())) as -> by (by destruct k).
  unfold settle_once, transaction, mbind, SM_mbind.
  destruct (settlement_method k entry worker version now (Session t false)) as [[c|e] s'] eqn:Hm; [|done].
  apply settlement_rowcount in Hm. unfold lift, _require_applied. rewrite Hm. cbn. by destruct (s_failed s').
Qed.

(** What a delivery will do once the sink has answered. *)
Definition delivery_plan (d : AuditOutboxDelivery) (c : ClaimedOutboxEntry) (now : Z)
  : result (settlement * AuditDeliveryResult) :=
  let entry := co_entry c in
  let outcome state at_ code :=
    {| dr_state := state; dr_entry_id := Some (oe_entry_id entry); dr_attempt := Some (co_attempt c);
       dr_retry_available_at := at_; dr_error_code := code |} in
  match ao_publish d (remove_prefix (u "audit:") (oe_entry_id entry)) (oe_canonical_payload entry) (oe_idempotency_key entry) with
  | Ok _ => Ok (S_ack, outcome DELIVERED None None)
  | Err e =>
      if negb (is_exception e) then Err e
      else if ao_max_attempts d <=? co_attempt c then
        Ok (S_dead_letter error_code, outcome DEAD_LETTERED None (Some error_code))
      else
        let at_ := now + Z.min (ao_max_retry_delay d) (ao_base_retry_delay d * 2 ^ Z.min (co_attempt c - 1) 30) in
        if DATETIME_MAX <? at_ then raise PlaneError "audit retry time exceeds the supported datetime range"
        else Ok (S_retry (utc at_) error_code, outcome RETRY_SCHEDULED (Some (utc at_)) (Some error_code))
  end.

Lemma delivery_plan_error d c now k outcome :
  delivery_plan d c now = Ok (k, outcome) ->
  match k with
  | S_ack => True
  | S_retry at_ err => exists x, at_ = utc x /\ err = error_code
  | S_dead_letter err => err = error_code
  end.
Proof.
  unfold delivery_plan. destruct (ao_publish _ _ _ _) as [|e]; [by intros [= <- _]|]. destruct (negb (is_exception e)); [done|].
  destruct (ao_max_attempts d <=? co_attempt c); [by intros [= <- _]|]. destruct (DATETIME_MAX <? _); [done|].
  intros [= <- _]. eauto.
Qed.

(** The guarded doubling is the smaller of the two delays. *)
Lemma retry_delay_min d attempt :
  1 <= attempt ->
  retry_delay d attempt = Z.min (ao_max_retry_delay d) (ao_base_retry_delay d * 2 ^ Z.min (attempt - 1) 30).
Proof.
  intros Ha. unfold retry_delay. set (m := 2 ^ Z.min (attempt - 1) 30).
  assert (0 < m) as Hm by (apply Z.pow_pos_nonneg; lia).
  pose proof (Z.div_mod (ao_max_retry_delay d) m ltac:(lia)) as Hdm. pose proof (Z.mod_pos_bound (ao_max_retry_delay d) m Hm) as Hb.
  revert Hdm Hb. generalize (ao_max_retry_delay d / m) (ao_max_retry_delay d mod m). intros q r Hdm Hb.
  destruct (Z.ltb_spec q (ao_base_retry_delay d)); nia.
Qed.

Lemma deliver_plan d c now t :
  _validate_claim c = Ok () -> is_aware now = true -> instant now < instant (co_lease_expires_at c) ->
  deliver d c now t
  = match delivery_plan d c (instant now) with
    | Err e => (Err e, t)
    | Ok (k, outcome) =>
        settle_once (settlement_method k (oe_entry_id (co_entry c)) (co_worker_id c) (co_expected_version c) (utc (instant now)))
          outcome t
    end.
Proof.
  intros Hv Ha Hl. assert (1 <= co_attempt c) as Hat.
  { unfold _validate_claim in Hv. do 2 (apply bind_Ok_inv in Hv as (? & _ & Hv)). apply bind_Ok_inv in Hv as (? & Hm%raise_if_Ok & _). lia. }
  unfold deliver. rewrite Hv. destruct now as [|w off]; [done|]. cbn [mbind outcome_mbind outcome_bind _aware_utc].
  change (instant (Aware w off)) with (w - off) in *. rewrite instant_utc.
  rewrite (proj2 (Z.leb_gt _ _)) by lia. cbn [raise_if mbind outcome_mbind outcome_bind]. unfold delivery_plan.
  destruct (ao_publish _ _ _ _) as [|e]; [done|]. destruct (is_exception e); [|done]. cbn [negb]. unfold _settle_failure.
  destruct (ao_max_attempts d <=? co_attempt c); [done|]. rewrite retry_delay_min, instant_utc by done.
  set (delay := Z.min _ _). replace (DATETIME_MAX - (w - off) <? delay) with (DATETIME_MAX <? w - off + delay) by lia.
  destruct (DATETIME_MAX <? w - off + delay); done.
Qed.
End Settle.
