(* ===== verification/AuditDeliveryClaims.v ===== *)
(** * Claims about audit delivery *)

From Stdlib Require Import ZifyBool.
From S2P Require Import Prelude Regex Errors Domain Sha256 Json JsonDecode Pg Outbox OutboxSafety OutboxSpec AuditDelivery AuditDeliverySpec AuditClaims.

(** Case folding of ASCII. *)
#[global] Program Instance text_reference : PyText | 100 := {| casefold := py_lower |}.
Next Obligation. done. Qed.

Section Claims.
Context `{PyFloat} `{PyText} `{PgEnv}.

(** C32: a canonical payload reads back and is a fixed point.  When the canonical
    form of an event is computed, the event holds JSON values only, no key at
    any depth names a credential, nesting, size and length are within their
    bounds, the bytes decode to the event with its keys sorted, and the
    canonical form of what they decode to is the same bytes. *)
Theorem payload_roundtrip event bytes :
  py_value event = true -> canonical_audit_payload event = Ok bytes ->
  exists v, event = of_json v /\ clean v = true
    /\ json_depth v <= CANONICAL_JSON_MAX_DEPTH /\ json_nodes v <= CANONICAL_JSON_MAX_NODES
    /\ Z.of_nat (length bytes) <= CANONICAL_JSON_MAX_BYTES
    /\ loads_bytes bytes = Ok (sort_json v)
    /\ canonical_audit_payload (of_json (sort_json v)) = Ok bytes.
Proof.
  intros Hp (v & text & -> & Hm & Hc & Hb & Hdu & Hu & Hl)%canonical_payload_Ok. exists v.
  destruct (canonical_payload_decode v text bytes) as [Hload Hcan]; try done; [by apply py_value_wf|].
  split_and!; try done; unfold bounded in *; lia.
Qed.

Lemma outbox_claim_open worker topics now duration limit t items s' :
  Outbox.claim worker topics now duration limit (Session t false) = (Ok items, s') -> s_failed s' = false.
Proof. unfold Outbox.claim. intros Hc. inv_run. subst.
  match goal with Hx : exec _ _ = (Ok _, _) |- _ => by apply exec_run_Ok in Hx as (_ & ? & _) end.
Qed.

Lemma claim_transaction worker now duration limit t :
  is_aware now = true ->
  claim worker now duration limit t
  = match transaction (Outbox.claim worker [AUDIT_OUTBOX_TOPIC] (utc (instant now)) duration limit) t with
    | (Ok items, t') => match check_each _validate_claim items with Ok _ => (Ok items, t') | Err e => (Err e, t) end
    | (Err e, t') => (Err e, t')
    end.
Proof.
  destruct now as [|w off]; [done|]. intros _. unfold claim, transaction. cbn [_aware_utc]. unfold mbind, SM_mbind.
  change (instant (Aware w off)) with (w - off).
  destruct (Outbox.claim _ _ _ _ _ _) as [[items|e] s'] eqn:Hc; [|done]. unfold lift.
  rewrite (outbox_claim_open _ _ _ _ _ _ _ _ Hc). destruct (check_each _ items); [|done]. cbn.
  by rewrite (outbox_claim_open _ _ _ _ _ _ _ _ Hc).
Qed.

(** What is enqueued here can be claimed.  On every table reached from an empty
    outbox by enqueues of audit events through this component and any outbox
    operations that do not enqueue on its topic (claims, settlements and
    reclaims of all workers), a claim of audit entries is exactly the claim of
    the outbox: the validation of the claimed entries never refuses one. *)
Theorem queued_entries_validate worker now duration limit t :
  rtc queue_step [] t -> is_aware now = true ->
  claim worker now duration limit t
  = transaction (Outbox.claim worker [AUDIT_OUTBOX_TOPIC] (utc (instant now)) duration limit) t.
Proof.
  intros Hr Ha. apply queue_reached in Hr as [Hi Hv]. rewrite claim_transaction by done.
  destruct (transaction _ t) as [[items|e] t'] eqn:Ht; [|done]. by rewrite (audit_claim_validates _ _ _ _ _ _ _ Hi Hv Ht).
Qed.

(** One entry that does not validate blocks its queue.  When the rows a claim
    would take include one whose payload is not canonical, the claim of every
    worker raises and rolls back, so the table stays as it is, the row is never
    settled, and a worker that takes one entry at a time raises as long as that
    row comes first. *)
Theorem poisoned_claim_blocks d worker now duration limit t r :
  outbox_inv t -> is_aware now = true ->
  r ∈ claim_batch [AUDIT_OUTBOX_TOPIC] (instant now) limit t -> payload_valid (ro_canonical_payload r) = false ->
  exists e, claim worker now duration limit t = (Err e, t)
    /\ (limit = 1 -> deliver_one d worker now duration t = (Err e, t)).
Proof.
  intros Hi Ha Hr Hp.
  assert (exists e, claim worker now duration limit t = (Err e, t)) as [e He].
  { rewrite claim_transaction by done. destruct (transaction _ t) as [[items|e] t'] eqn:Ht.
    - pose proof Ht as Ht0. apply (claim_takes _ _ _ _ _ _ _ _ r) in Ht as (i & Hin & Hdec); [|by rewrite instant_utc].
      destruct (check_each _validate_claim items) as [[]|e] eqn:Hck; [|eauto].
      apply check_each_Ok in Hck. rewrite Forall_forall in Hck. specialize (Hck i Hin). apply validate_claim_payload in Hck.
      unfold claimed_entry in Hdec. apply bind_Ok_inv in Hdec as (entry & Hent & Hdec). apply bind_Ok_inv in Hdec as (? & _ & Hdec).
      apply bind_Ok_inv in Hdec as (? & _ & [= <-]). unfold _entry_from_record in Hent. apply bind_Ok_inv in Hent as (? & _ & Hent).
      apply validate_entry_payload in Hent. cbn in Hent, Hck. congruence.
    - apply transaction_error_atomic in Ht as ->. eauto. }
  exists e. split; [done|]. intros ->. unfold deliver_one. by rewrite He.
Qed.

(** C31: what a delivery does, on every branch.  For a valid claim whose lease has
    not run out, the settlement is decided by the sink: an acknowledgement when
    it accepts; a dead letter when it raises on the last attempt; else a retry
    after min(max delay, base delay * 2^min(attempt-1, 30)), unless that time
    cannot be represented.  If the worker still holds the lease the settlement
    rewrites that row alone and its outcome is returned; otherwise the call
    raises and changes nothing.  A claim that is not valid or has run out
    raises before the sink is called. *)
Theorem deliver_exact d c now t :
  outbox_inv t -> is_aware now = true ->
  fullmatch _SAFE_ID (oe_entry_id (co_entry c)) = true -> fullmatch _SAFE_ID (co_worker_id c) = true ->
  let entry := oe_entry_id (co_entry c) in
  let worker := co_worker_id c in
  let version := co_expected_version c in
  (_validate_claim c = Ok () -> instant now < instant (co_lease_expires_at c) ->
   match delivery_plan d c (instant now) with
   | Err e => deliver d c now t = (Err e, t)
   | Ok (k, outcome) =>
       (forall r, r ∈ t -> holds_lease entry worker version (instant now) r -> version < int8_max ->
          deliver d c now t = (Ok outcome, update_where (fun x => bool_decide (x = r)) (settled k (instant now)) t))
       /\ ((forall r, r ∈ t -> ~ holds_lease entry worker version (instant now) r) ->
           exists msg, deliver d c now t = (raise PlaneError msg, t))
   end)
  /\ (_validate_claim c <> Ok () \/ instant (co_lease_expires_at c) <= instant now ->
      exists e, forall publish, deliver {| ao_publish := publish; ao_max_attempts := ao_max_attempts d;
                  ao_base_retry_delay := ao_base_retry_delay d; ao_max_retry_delay := ao_max_retry_delay d |} c now t = (Err e, t)).
Proof.
  intros Hi Ha He Hw entry worker version. split.
  - intros Hv Hl. rewrite (deliver_plan d c now t Hv Ha Hl).
    assert (1 <= version) as Hver.
    { unfold _validate_claim in Hv. do 2 (apply bind_Ok_inv in Hv as (? & _ & Hv)). apply bind_Ok_inv in Hv as (? & Hm%raise_if_Ok & _).
      subst version. lia. }
    destruct (delivery_plan d c (instant now)) as [[k outcome]|e] eqn:Hplan; [|done].
    assert (settlement_args k entry worker version (utc (instant now)) = true) as Hargs.
    { unfold settlement_args. subst entry worker. rewrite He, Hw, (proj2 (Z.leb_le _ _)) by lia. cbn [andb is_aware utc].
      apply delivery_plan_error in Hplan. destruct k as [|at_ err|err]; [done| |]; [destruct Hplan as (x & -> & ->)|subst err]; by vm_compute. }
    rewrite settle_once_run. fold entry worker version. split.
    + intros r Hr Hh%fenced_holds Hlt. rewrite (settlement_hit k entry worker version (utc (instant now)) t r) by (rewrite ?instant_utc; done).
      by rewrite instant_utc.
    + intros Hno. destruct (settlement_miss k entry worker version (utc (instant now)) t Hi Hargs) as [msg ->]; [|eauto].
      intros r Hr. rewrite instant_utc. apply not_true_iff_false. rewrite fenced_holds. by apply Hno.
  - intros Hbad. unfold deliver. cbn [ao_publish]. destruct now as [|w off]; [done|]. cbn [_aware_utc].
    destruct (_validate_claim c) as [[]|e] eqn:Hv; [|by exists e]. destruct Hbad as [?|Hl]; [done|]. change (instant (Aware w off)) with (w - off) in Hl.
    cbn [mbind outcome_mbind outcome_bind]. rewrite instant_utc, (proj2 (Z.leb_le _ _)) by lia. cbn. by eexists.
Qed.

(** C36: the retry delay doubles with each attempt up to its bound: it is
    min(max, base * 2^min(attempt-1, 30)), positive, never above the maximum,
    and never shorter than the delay of an earlier attempt. *)
Theorem retry_delay_bounds d attempt attempt' :
  delivery_init d = Ok d -> 1 <= attempt <= attempt' ->
  retry_delay d attempt = Z.min (ao_max_retry_delay d) (ao_base_retry_delay d * 2 ^ Z.min (attempt - 1) 30)
  /\ 0 < retry_delay d attempt <= ao_max_retry_delay d /\ retry_delay d attempt <= retry_delay d attempt'.
Proof.
  unfold delivery_init. intros Hd Ha. inv_ok. rewrite !retry_delay_min by lia. split; [done|].
  assert (0 < 2 ^ Z.min (attempt - 1) 30) as Hpos by (apply Z.pow_pos_nonneg; lia).
  assert (2 ^ Z.min (attempt - 1) 30 <= 2 ^ Z.min (attempt' - 1) 30) as Hmono by (apply Z.pow_le_mono_r; lia).
  split_bools. nia.
Qed.
End Claims.

(** ** Witnesses *)

Definition sample_payload : pyobj :=
  PMap [(Some (u "b"), PSeq [PInt 1; PFloat (u "1.5"); PNone]); (Some (u "a"), PStr (u "x"))].
Definition sample_bytes : list N := quoted "{'a':'x','b':[1,1.5,null]}".

Lemma payload_roundtrip_witness :
  canonical_audit_payload sample_payload = Ok sample_bytes
  /\ exists v, sample_payload = of_json v /\ canonical_audit_payload (of_json (sort_json v)) = Ok sample_bytes.
Proof.
  assert (canonical_audit_payload sample_payload = Ok sample_bytes) as Hc by (vm_compute; reflexivity).
  split; [exact Hc|]. destruct (payload_roundtrip sample_payload sample_bytes) as (v & Hv & _ & _ & _ & _ & _ & Hr).
  - vm_compute. reflexivity.
  - exact Hc.
  - exists v. split; [exact Hv|exact Hr].
Defined.

Definition queued : outbox_table := snd (transaction (enqueue (u "e1") sample_payload (utc 100)) []).

Lemma queued_entries_validate_witness :
  claim (u "worker-a") (utc 200) 1000 5 queued
  = transaction (Outbox.claim (u "worker-a") [AUDIT_OUTBOX_TOPIC] (utc (instant (utc 200))) 1000 5) queued
  /\ length queued = 1%nat.
Proof.
  split; [|vm_compute; reflexivity]. apply queued_entries_validate; [|reflexivity]. apply rtc_once.
  apply (queue_enqueue (u "e1") sample_payload (utc 100) (CommandResult 1 [u "audit:e1"])); vm_compute; reflexivity.
Defined.

(** An entry of the audit topic enqueued elsewhere, with a space in it. *)
Definition poison_payload : list N := quoted "{ }".
Definition poisoned : outbox_table := snd (transaction (Outbox.enqueue
  {| oe_entry_id := u "audit:bad"; oe_topic := AUDIT_OUTBOX_TOPIC; oe_canonical_payload := poison_payload;
     oe_payload_sha256 := sha256_hex poison_payload; oe_idempotency_key := u "audit:bad"; oe_available_at := utc 50 |}) queued).
Definition sample_delivery : AuditOutboxDelivery :=
  {| ao_publish := fun _ _ _ => Ok (); ao_max_attempts := 8; ao_base_retry_delay := 5000000; ao_max_retry_delay := 3600000000 |}.
Definition poison_row : outbox_row := enqueued_row
  {| oe_entry_id := u "audit:bad"; oe_topic := AUDIT_OUTBOX_TOPIC; oe_canonical_payload := poison_payload;
     oe_payload_sha256 := sha256_hex poison_payload; oe_idempotency_key := u "audit:bad"; oe_available_at := utc 50 |} 1.

Lemma poisoned_reached : rtc outbox_step [] poisoned.
Proof.
  apply rtc_once. apply (step_transaction pg_reference
    [(false, OpEnqueue {| oe_entry_id := u "audit:e1"; oe_topic := AUDIT_OUTBOX_TOPIC; oe_canonical_payload := sample_bytes;
                  oe_payload_sha256 := sha256_hex sample_bytes; oe_idempotency_key := u "audit:e1"; oe_available_at := utc 100 |});
     (false, OpEnqueue {| oe_entry_id := u "audit:bad"; oe_topic := AUDIT_OUTBOX_TOPIC; oe_canonical_payload := poison_payload;
                  oe_payload_sha256 := sha256_hex poison_payload; oe_idempotency_key := u "audit:bad"; oe_available_at := utc 50 |})] []).
Qed.

Lemma poisoned_claim_blocks_witness :
  exists e, claim (u "worker-a") (utc 200) 1000 1 poisoned = (Err e, poisoned)
    /\ (1 = 1 -> deliver_one sample_delivery (u "worker-a") (utc 200) 1000 poisoned = (Err e, poisoned)).
Proof.
  apply (poisoned_claim_blocks sample_delivery (u "worker-a") (utc 200) 1000 1 poisoned poison_row).
  - apply (steps_safe [] poisoned poisoned_reached outbox_inv_empty).
  - reflexivity.
  - apply (bool_decide_eq_true_1 (poison_row ∈ _)). vm_compute. reflexivity.
  - vm_compute. reflexivity.
Defined.

Definition sample_claimed : outbox_table := snd (claim (u "worker-a") (utc 200) 1000 1 queued).
Definition sample_claim : ClaimedOutboxEntry :=
  {| co_entry := {| oe_entry_id := u "audit:e1"; oe_topic := AUDIT_OUTBOX_TOPIC; oe_canonical_payload := sample_bytes;
                    oe_payload_sha256 := sha256_hex sample_bytes; oe_idempotency_key := u "audit:e1"; oe_available_at := utc 100 |};
     co_worker_id := u "worker-a"; co_lease_expires_at := utc 1200; co_expected_version := 1; co_attempt := 1 |}.
(** A sink that refuses. *)
Definition failing_delivery : AuditOutboxDelivery :=
  {| ao_publish := fun _ _ _ => raise RuntimeError_ "sink down"; ao_max_attempts := 8; ao_base_retry_delay := 5000000;
     ao_max_retry_delay := 3600000000 |}.

Lemma deliver_exact_witness :
  fst (claim (u "worker-a") (utc 200) 1000 1 queued) = Ok [sample_claim]
  /\ exists outcome t', deliver failing_delivery sample_claim (utc 300) sample_claimed = (Ok outcome, t')
     /\ dr_state outcome = RETRY_SCHEDULED /\ dr_retry_available_at outcome = Some (utc 5000300)
     /\ ro_status <$> t' = [O_retry].
Proof.
  split; [vm_compute; reflexivity|].
  assert (outbox_inv sample_claimed) as Hi.
  { assert (rtc queue_step [] queued) as Hq.
    { apply rtc_once. apply (queue_enqueue (u "e1") sample_payload (utc 100) (CommandResult 1 [u "audit:e1"])); vm_compute; reflexivity. }
    apply queue_reached in Hq as [Hi _].
    assert (sample_claimed = snd (transaction (run_op (OpClaim (u "worker-a") [AUDIT_OUTBOX_TOPIC] (utc 200) 1000 1)) queued)) as ->
      by (vm_compute; reflexivity).
    by apply (respects_transaction outbox_safe _ queued (run_op_safe _)). }
  destruct (deliver_exact failing_delivery sample_claim (utc 300) sample_claimed Hi) as [Hd _]; [reflexivity|vm_compute; reflexivity..|].
  specialize (Hd ltac:(vm_compute; reflexivity) ltac:(vm_compute; reflexivity)).
  destruct (delivery_plan failing_delivery sample_claim (instant (utc 300))) as [[k outcome]|] eqn:Hp; [|vm_compute in Hp; discriminate Hp].
  destruct Hd as [Hd _]. destruct sample_claimed as [|r [|]] eqn:Hs; [vm_compute in Hs; discriminate Hs| |vm_compute in Hs; discriminate Hs].
  eexists _, _. split.
  - apply (Hd r); [by left| |vm_compute; reflexivity].
    vm_compute in Hs. injection Hs as <-. split; try reflexivity. exists 1200. split; [reflexivity|vm_compute; reflexivity].
  - vm_compute in Hs. injection Hs as <-. vm_compute in Hp. injection Hp as <- <-. vm_compute. auto.
Defined.

Lemma retry_delay_bounds_witness :
  retry_delay sample_delivery 3 = 20000000 /\ 0 < retry_delay sample_delivery 3 <= 3600000000
  /\ retry_delay sample_delivery 3 <= retry_delay sample_delivery 40.
Proof.
  destruct (retry_delay_bounds sample_delivery 3 40) as (H1 & H2 & H3); [vm_compute; reflexivity|lia|].
  split; [vm_compute; reflexivity|]. split; [exact H2|exact H3].
Defined.
