(* ===== verification/AuditQuery.v ===== *)
(** * Reading the audit log (AuditRepository.list_page and
      list_tool_trajectory_events_for_administration)

    The owner's page of events with its filters and cursor, and the tool
    trajectory of all owners for administration.  [LOWER] of the database is a
    parameter ([PgLower] of [Pg]); [LIKE] is the documented matching with a backslash escape. *)

From Stdlib Require Import ZifyBool.
From S2P Require Import Prelude Regex Errors Domain Sha256 Json IsoTime JsonDecode Pg Outbox AuditDelivery AuditChain AuditSpec AuditClaims.

(** ** [LIKE ... ESCAPE E'\\'] *)

Fixpoint like (p s : pystr) : bool :=
  match p with
  | [] => bool_decide (s = [])
  | c :: p' =>
      if (c =? 37)%N then
        (fix any (s : pystr) : bool := like p' s || match s with [] => false | _ :: s' => any s' end) s
      else if (c =? 95)%N then match s with [] => false | _ :: s' => like p' s' end
      else if (c =? 92)%N then
        match p' with
        | [] => false
        | e :: p'' => match s with [] => false | x :: s' => (x =? e)%N && like p'' s' end
        end
      else match s with [] => false | x :: s' => (x =? c)%N && like p' s' end
  end.

(** The three replacements of the source: backslash first, then [%] and [_]. *)
Definition replace_char (c : N) (s : pystr) : pystr := s ≫= fun x => if (x =? c)%N then [92%N; c] else [x].
Definition escape_like (s : pystr) : pystr := replace_char 95 (replace_char 37 (replace_char 92 s)).

(** ** Pages *)

Record AuditCursor : Type := { ac_recorded_at : datetime; ac_event_id : pystr }.
Definition cursor_post_init (c : AuditCursor) : result AuditCursor :=
  _aware "recorded_at" (ac_recorded_at c) ;; _required "event_id" (ac_event_id c) 128 ;; Ok c.

Record AuditPage : Type := { ap_records : list AuditRecord; ap_next_cursor : option AuditCursor }.

(** The arguments of a listing, less cursor and limit. *)
Record page_query : Type := {
  pq_owner_id : pystr;
  pq_event_classes : option (list pystr);
  pq_outcomes : option (list pystr);
  pq_from_ts : option datetime;
  pq_to_ts : option datetime;
  pq_keyword : option pystr
}.

Record page_params : Type := {
  pp_classes : list pystr;
  pp_outcomes : list pystr;
  pp_pattern : option pystr
}.

Section Pages.
Context `{PyFloat} `{PyText} `{PgEnv} `{PgJsonb} `{PgLower}.

Definition opt_aware (name : string) (t : option datetime) : result unit :=
  match t with None => Ok () | Some t => _aware name t end.

(** The pattern of a keyword. *)
Definition keyword_pattern (keyword : pystr) : result pystr :=
  normalized ← _required_keyword keyword;
  Ok ([37%N] ++ escape_like (casefold normalized) ++ [37%N]).

Definition check_query (q : page_query) (limit : Z) : result page_params :=
  _required "owner_id" (pq_owner_id q) 512 ;;
  raise_unless ((1 <=? limit) && (limit <=? 200)) (Exn ValueError_ "limit must be between 1 and 200") ;;
  classes ← _bounded_filters "event_classes" (pq_event_classes q);
  outcomes ← _bounded_filters "outcomes" (pq_outcomes q);
  raise_unless (forallb (fun o => bool_decide (o ∈ OUTCOMES)) outcomes)
    (Exn ValueError_ "outcomes contains an unsupported value") ;;
  opt_aware "from_ts" (pq_from_ts q) ;;
  opt_aware "to_ts" (pq_to_ts q) ;;
  raise_if (match pq_from_ts q, pq_to_ts q with Some a, Some b => instant b <=? instant a | _, _ => false end)
    (Exn ValueError_ "from_ts must precede to_ts") ;;
  pattern ← opt_map keyword_pattern (pq_keyword q);
  Ok {| pp_classes := classes; pp_outcomes := outcomes; pp_pattern := pattern |}.

(** The clauses without the cursor. *)
Definition page_where (q : page_query) (p : page_params) (r : audit_row) : bool :=
  of_chain (pq_owner_id q) r
  && (bool_decide (pp_classes p = []) || bool_decide (au_event_class r ∈ pp_classes p))
  && (bool_decide (pp_outcomes p = []) || bool_decide (au_outcome r ∈ pp_outcomes p))
  && match pq_from_ts q with Some t => instant t <=? au_recorded_at r | None => true end
  && match pq_to_ts q with Some t => au_recorded_at r <? instant t | None => true end
  && match pp_pattern p with
     | Some pattern => like pattern (pg_lower (au_description r)) || like pattern (pg_lower (au_action_type r))
     | None => true
     end.

(** [(recorded_at, event_id) < (%s, %s)] *)
Definition before (recorded_at : Z) (event_id : pystr) (r : audit_row) : bool :=
  (au_recorded_at r <? recorded_at)
  || ((au_recorded_at r =? recorded_at) && negb (str_leb event_id (au_event_id r))).

(** [ORDER BY recorded_at DESC, event_id DESC] *)
Definition newest_le (a b : audit_row) : bool :=
  time_key_leb au_recorded_at (fun a b => str_leb (au_event_id a) (au_event_id b)) b a.

Definition page_texts (q : page_query) (p : page_params) (cursor : option AuditCursor) : list pystr :=
  [pq_owner_id q] ++ pp_classes p ++ pp_outcomes p ++ omap id [pp_pattern p; ac_event_id <$> cursor].

Definition select_page (q : page_query) (p : page_params) (cursor : option AuditCursor) (limit : Z) (db : audit_db)
  : result (list audit_row * audit_db) :=
  text_params (page_texts q p cursor) ;;
  bound ← opt_map (fun c => id ← uuid_param (ac_event_id c); Ok (instant (ac_recorded_at c), id)) cursor;
  let visible r := page_where q p r && match bound with Some (at_, id) => before at_ id r | None => true end in
  Ok (take (Z.to_nat limit) (select_ordered "audit_page" newest_le visible (ad_events db)), db).

Definition list_page (q : page_query) (cursor : option AuditCursor) (limit : Z) : SM audit_db AuditPage :=
  p ← lift (check_query q limit);
  rows ← exec (select_page q p cursor (limit + 1));
  records ← lift (map_each _record (take (Z.to_nat limit) rows));
  next ← lift (if limit <? Z.of_nat (length rows) then
                 match last records with
                 | Some r =>
                     c ← cursor_post_init {| ac_recorded_at := ar_recorded_at r; ac_event_id := ev_event_id (ar_event r) |};
                     Ok (Some c)
                 | None => raise Exception_ "tuple index out of range"
                 end
               else Ok None);
  mret {| ap_records := records; ap_next_cursor := next |}.

(** ** The tool trajectory *)

Record ToolTrajectoryEvent : Type := { tt_agent_id : pystr; tt_correlation_id : pystr; tt_tool_name : pystr }.

(** [REPLACE(text, from, '')]: every occurrence, left to right. *)
Fixpoint sql_remove (fuel : nat) (from s : pystr) : pystr :=
  match fuel, s with
  | S fuel', c :: s' =>
      if starts_with from s then sql_remove fuel' from (drop (length from) s) else c :: sql_remove fuel' from s'
  | _, _ => []
  end.
Definition tool_name (action_type : pystr) : pystr :=
  let s := sql_remove (length action_type) (u "tool.") action_type in sql_remove (length s) (u ".end") s.

Definition is_trajectory (from_ts to_ts : Z) (r : audit_row) : bool :=
  bool_decide (au_event_class r = u "agent_tool_call") && like (u "tool.%.end") (au_action_type r)
  && is_some (au_agent_id r) && (from_ts <=? au_recorded_at r) && (au_recorded_at r <=? to_ts).

(** [ORDER BY agent_id, correlation_id, recorded_at, event_id] *)
Definition trajectory_le (a b : audit_row) : bool :=
  let agent r := default [] (au_agent_id r) in
  if bool_decide (agent a = agent b) then
    if bool_decide (au_correlation_id a = au_correlation_id b) then
      time_key_leb au_recorded_at (fun a b => str_leb (au_event_id a) (au_event_id b)) a b
    else str_leb (au_correlation_id a) (au_correlation_id b)
  else collate (agent a) (agent b).

Definition trajectory_event (r : audit_row) : result ToolTrajectoryEvent :=
  let agent_id := default [] (au_agent_id r) in
  _required "persisted agent_id" agent_id 512 ;;
  _required "persisted correlation_id" (au_correlation_id r) 128 ;;
  _required "persisted tool_name" (tool_name (au_action_type r)) 256 ;;
  Ok {| tt_agent_id := agent_id; tt_correlation_id := au_correlation_id r; tt_tool_name := tool_name (au_action_type r) |}.

Definition list_tool_trajectory_events_for_administration (from_ts to_ts : datetime) (limit : Z)
  : SM audit_db (list ToolTrajectoryEvent) :=
  lift (_aware "from_ts" from_ts) ;;
  lift (_aware "to_ts" to_ts) ;;
  lift (raise_if (instant to_ts <? instant from_ts) (Exn ValueError_ "from_ts cannot follow to_ts")) ;;
  lift (raise_unless ((1 <=? limit) && (limit <=? 2000)) (Exn ValueError_ "limit must be between 1 and 2000")) ;;
  rows ← query (fun db => take (Z.to_nat limit)
    (select_ordered "audit_trajectory" trajectory_le (is_trajectory (instant from_ts) (instant to_ts)) (ad_events db)));
  lift (map_each trajectory_event rows).
End Pages.

Example like_sample :
  like ([37%N] ++ escape_like (u "50%_off\") ++ [37%N]) (u "a 50%_off\ sale") = true
  /\ like ([37%N] ++ escape_like (u "50%") ++ [37%N]) (u "50 percent") = false
  /\ tool_name (u "tool.search.end") = u "search".
Proof. vm_compute. done. Qed.
