(* ===== verification/AuditQuerySpec.v ===== *)
(** * Claims about reading the audit log

    Following the cursors of [list_page] visits every matching event exactly
    once, newest first, and ends; a keyword is matched literally. *)

From Stdlib Require Import ZifyBool.
From S2P Require Import Prelude Regex Errors Domain Sha256 Json IsoTime JsonDecode Pg Outbox AuditDelivery AuditChain AuditSpec AuditClaims AuditDeliveryClaims AuditQuery.

(** ** A keyword is matched literally *)

Definition escaped (x : N) : pystr := if (x =? 92)%N || (x =? 37)%N || (x =? 95)%N then [92%N; x] else [x].

Lemma escape_like_cons x k : escape_like (x :: k) = escaped x ++ escape_like k.
Proof.
  unfold escape_like, replace_char, escaped. rewrite bind_cons, !bind_app.
  destruct (x =? 92)%N eqn:E1; [apply N.eqb_eq in E1; by subst|].
  destruct (x =? 37)%N eqn:E2; [apply N.eqb_eq in E2; by subst|]. rewrite bind_cons, E2. cbn -[N.eqb].
  destruct (x =? 95)%N eqn:E3; [apply N.eqb_eq in E3; by subst|done].
Qed.

Lemma like_percent p s : like (37%N :: p) s = true <-> exists a b, s = a ++ b /\ like p b = true.
Proof.
  induction s as [|x s IH]; cbn.
  - rewrite orb_false_r. split; [intros Hl; by exists [], []|]. intros (a & b & Hab & Hl).
    symmetry in Hab. by apply app_eq_nil in Hab as [-> ->].
  - cbn in IH. rewrite orb_true_iff, IH. split.
    + intros [Hl|(a & b & -> & Hl)]; [by exists [], (x :: s)|by exists (x :: a), b].
    + intros ([|y a] & b & Hab & Hl); [left; cbn in Hab; by subst|right]. injection Hab as <- ->. eauto.
Qed.

Lemma like_escaped k p s : like (escape_like k ++ p) s = true <-> exists b, s = k ++ b /\ like p b = true.
Proof.
  revert s. induction k as [|x k IH]; intros s; [naive_solver|]. rewrite escape_like_cons, <- app_assoc. unfold escaped. cbn [app].
  assert (forall y, (match s with [] => false | z :: s' => (z =? y)%N && like (escape_like k ++ p) s' end) = true
                    <-> exists b, s = y :: k ++ b /\ like p b = true) as Hstep.
  { intros y. destruct s as [|z s]; [naive_solver|]. rewrite andb_true_iff, N.eqb_eq, IH. naive_solver. }
  rewrite <- Hstep.
  destruct (x =? 92)%N eqn:E1; [apply N.eqb_eq in E1; by subst|].
  destruct (x =? 37)%N eqn:E2; [apply N.eqb_eq in E2; by subst|].
  destruct (x =? 95)%N eqn:E3; [apply N.eqb_eq in E3; by subst|].
  cbn [app orb like]. by rewrite E1, E2, E3.
Qed.

Lemma like_rest s : like [37%N] s = true.
Proof. apply like_percent. exists s, []. by rewrite app_nil_r. Qed.

(** The pattern of a keyword matches the texts that contain it. *)
Lemma keyword_literal k s :
  like ([37%N] ++ escape_like k ++ [37%N]) s = true <-> exists a b, s = a ++ k ++ b.
Proof.
  cbn [app]. rewrite like_percent. split.
  - intros (a & b & -> & (c & -> & _)%like_escaped). eauto.
  - intros (a & b & ->). exists a, (k ++ b). split; [done|]. apply like_escaped. exists b. by rewrite like_rest.
Qed.

(** ** Identifiers of a UUID column *)

(** The column holds standard forms. *)
Definition ids_ok (t : list audit_row) : Prop := Forall (fun r => uuid_in (au_event_id r) = Some (au_event_id r)) t.

Lemma hex_storable c : is_some (hex_value c) = true -> storable [lower_hex c] = true.
Proof. unfold hex_value, is_dec, lower_hex, storable. cbn. intros Hc. repeat case_match; try done; cbn in *; lia. Qed.

Lemma storable_app a b : storable (a ++ b) = storable a && storable b.
Proof. apply forallb_app. Qed.
Lemma storable_take n a : storable a = true -> storable (take n a) = true.
Proof. rewrite <- (take_drop n a) at 1. rewrite storable_app. by intros [? ?]%andb_true_iff. Qed.
Lemma storable_drop n a : storable a = true -> storable (drop n a) = true.
Proof. rewrite <- (take_drop n a) at 1. rewrite storable_app. by intros [? ?]%andb_true_iff. Qed.

Lemma uuid_digits_storable n s ds rest : uuid_digits n s = Some (ds, rest) -> storable ds = true.
Proof.
  revert s ds rest. induction n as [|n IH]; intros s ds rest; cbn [uuid_digits]; [by intros [= <- <-]|].
  destruct s as [|a [|b s]]; [done..|]. destruct (is_some (hex_value a) && is_some (hex_value b)) eqn:Hx; [|done].
  apply andb_true_iff in Hx as [Ha%hex_storable Hb%hex_storable].
  match goal with |- context[uuid_digits n ?s'] => destruct (uuid_digits n s') as [[ds' r']|] eqn:Hd; [|done] end.
  intros [= <- <-]. apply IH in Hd. change (storable ([lower_hex a] ++ [lower_hex b] ++ ds') = true).
  by rewrite !storable_app, Ha, Hb, Hd.
Qed.

Lemma uuid_storable s id : uuid_in s = Some id -> storable id = true.
Proof.
  assert (forall ds, storable ds = true -> storable (uuid_form ds) = true) as Hform.
  { intros ds Hs. unfold uuid_form. rewrite !storable_app, !storable_take, storable_drop by auto using storable_drop. done. }
  unfold uuid_in. intros Hu. destruct (is_char 123 s).
  - destruct (uuid_digits 16 (drop 1 s)) as [[ds r]|] eqn:Hd; [|done]. apply uuid_digits_storable in Hd.
    repeat case_match; simplify_eq. auto.
  - destruct (uuid_digits 16 s) as [[ds r]|] eqn:Hd; [|done]. apply uuid_digits_storable in Hd.
    repeat case_match; simplify_eq. auto.
Qed.

(** ** The order of a page *)

Lemma rows_where_and {A} (p q : A -> bool) l : rows_where q (rows_where p l) = rows_where (fun x => p x && q x) l.
Proof.
  unfold rows_where. induction l as [|x l IH]; [done|]. cbn. destruct (p x); cbn; [|done]. by destruct (q x); rewrite IH.
Qed.

Lemma newest_le_total a b : newest_le a b = true \/ newest_le b a = true.
Proof. apply time_key_total. intros x y. apply str_leb_total. Qed.
Lemma newest_le_trans x y z : newest_le x y = true -> newest_le y z = true -> newest_le x z = true.
Proof. intros Hxy Hyz. eapply time_key_trans; [|exact Hyz|exact Hxy]. intros ? ? ?. apply str_leb_trans. Qed.
Lemma newest_le_antisym a b : newest_le a b = true -> newest_le b a = true -> au_event_id a = au_event_id b.
Proof. intros Hab Hba. destruct (time_key_antisym _ _ _ _ Hab Hba). by apply str_leb_antisym. Qed.

(** The cursor clause is the strict order. *)
Lemma before_newest x r :
  before (au_recorded_at x) (au_event_id x) r = newest_le x r && negb (newest_le r x).
Proof.
  unfold before, newest_le, time_key_leb. destruct (str_leb_total (au_event_id x) (au_event_id r)) as [Ho|Ho];
    rewrite Ho; lia.
Qed.

Section Pages.
Context `{PyFloat} `{PyText} `{PgEnv} `{PgJsonb} `{PgLower}.
Implicit Types (t : list audit_row) (q : page_query) (p : page_params).

(** The events a listing is about, newest first. *)
Definition matching q p t : list audit_row := sort_by newest_le (rows_where (page_where q p) t).

Lemma newest_unique t l1 l2 :
  table_ok t -> (forall r, r ∈ l1 -> r ∈ t) -> l1 ≡ₚ l2 ->
  StronglySorted (bool_rel newest_le) l1 -> StronglySorted (bool_rel newest_le) l2 -> l1 = l2.
Proof.
  intros Ht Hin Hp Hs1 Hs2. apply (sorted_unique (bool_rel newest_le)); [done..|].
  intros a b Ha Hb Hab Hba. apply (table_ok_elem t); auto. by apply audit_conflict_id, newest_le_antisym.
Qed.

Lemma sort_newest l : StronglySorted (bool_rel newest_le) (sort_by newest_le l).
Proof. apply sort_by_sorted; [apply newest_le_total|apply newest_le_trans]. Qed.

Lemma elem_of_matching q p t r : r ∈ matching q p t <-> r ∈ t /\ page_where q p r = true.
Proof. unfold matching. by rewrite elem_of_sort_by, elem_of_rows_where. Qed.

(** The rows after a row of a sorted list of different rows. *)
Lemma rows_before t l1 x l2 :
  table_ok t -> (forall r, r ∈ l1 ++ x :: l2 -> r ∈ t) -> NoDup (l1 ++ x :: l2) ->
  StronglySorted (bool_rel newest_le) (l1 ++ x :: l2) ->
  rows_where (before (au_recorded_at x) (au_event_id x)) (l1 ++ x :: l2) = l2.
Proof.
  intros Ht Hin Hnd Hs. assert (forall r, r ∈ l1 -> newest_le r x = true) as Hpre.
  { intros r Hr. eapply (StronglySorted_app_1_elem_of (bool_rel newest_le)); [exact Hs|done|by left]. }
  apply StronglySorted_app_1_r in Hs.
  apply StronglySorted_inv in Hs as [_ Hpost]. rewrite Forall_forall in Hpost.
  apply NoDup_app in Hnd as (_ & _ & [Hnd _]%NoDup_cons).
  unfold rows_where. rewrite List.filter_app. cbn [List.filter]. rewrite before_newest, andb_negb_r.
  rewrite (proj2 (rows_where_nil _ l1)), forallb_filter_id; [done| |].
  - apply forallb_forall. intros r Hr%list_elem_of_In. rewrite before_newest. specialize (Hpost r Hr). unfold bool_rel in Hpost.
    rewrite Hpost. cbn. destruct (newest_le r x) eqn:Hrx; [exfalso|done]. apply Hnd.
    enough (x = r) as -> by done. apply (table_ok_elem t); [done|apply Hin; set_solver..|].
    by apply audit_conflict_id, newest_le_antisym.
  - intros r Hr. rewrite before_newest. by rewrite (Hpre r Hr), andb_false_r.
Qed.

Lemma matching_NoDup q p t : table_ok t -> NoDup (matching q p t).
Proof.
  intros [Hu _]. unfold matching. rewrite sort_by_perm. apply NoDup_rows_where.
  apply (unique_ok_NoDup audit_conflict); [|done]. intros r. by apply audit_conflict_id.
Qed.

(** A cursor that points at the last row of [pre]. *)
Definition cursor_at (pre : list audit_row) (cursor : option AuditCursor) : Prop :=
  match cursor with
  | None => pre = []
  | Some c => exists pre' x, pre = pre' ++ [x] /\ instant (ac_recorded_at c) = au_recorded_at x /\ ac_event_id c = au_event_id x
  end.

Lemma select_page_at q p cursor n db pre suf :
  table_ok (ad_events db) -> ids_ok (ad_events db) -> forallb storable (page_texts q p None) = true ->
  matching q p (ad_events db) = pre ++ suf -> cursor_at pre cursor ->
  select_page q p cursor n db = Ok (take (Z.to_nat n) suf, db).
Proof.
  intros Ht Hids Hst Hm Hcur. unfold select_page, text_params. destruct cursor as [c|]; cbn in Hcur.
  - destruct Hcur as (pre' & x & -> & Hat & Hid). rewrite <- app_assoc in Hm. cbn in Hm.
    assert (x ∈ matching q p (ad_events db)) as Hx by (rewrite Hm; set_solver).
    apply elem_of_matching in Hx as [Hx _]. unfold ids_ok in Hids. rewrite Forall_forall in Hids. specialize (Hids x Hx).
    assert (forallb storable (page_texts q p (Some c)) = true) as ->.
    { revert Hst. unfold page_texts. rewrite !forallb_app. cbn [omap list_omap fmap option_fmap option_map].
      destruct (pp_pattern p); cbn; rewrite !andb_true_iff, Hid, (uuid_storable _ _ Hids); tauto. }
    cbn. unfold uuid_param. rewrite Hid, Hids. cbn. do 3 f_equal.
    rewrite Hat. apply (newest_unique (ad_events db)); [done| | |apply sort_newest|].
    + intros r [? _]%elem_of_select_ordered. done.
    + rewrite select_ordered_perm, (rows_where_perm _ _ _ (scan_perm _ _ _)).
      rewrite <- (rows_before (ad_events db) pre' x suf); [|done|intros r Hr|..].
      * rewrite <- Hm. unfold matching. rewrite (rows_where_perm _ _ _ (sort_by_perm _ _)). by rewrite rows_where_and.
      * rewrite <- Hm in Hr. by apply elem_of_matching in Hr as [? _].
      * rewrite <- Hm. by apply matching_NoDup.
      * rewrite <- Hm. apply sort_newest.
    + pose proof (sort_newest (rows_where (page_where q p) (ad_events db))) as Hs. fold (matching q p (ad_events db)) in Hs.
      rewrite Hm in Hs. apply StronglySorted_app_1_r in Hs. by apply StronglySorted_inv in Hs as [? _].
  - subst pre. cbn in Hm. rewrite Hst. cbn. do 3 f_equal. rewrite <- Hm.
    apply (newest_unique (ad_events db)); [done| | |apply sort_newest|apply sort_newest].
    + intros r [? _]%elem_of_select_ordered. done.
    + rewrite select_ordered_perm. unfold matching. rewrite sort_by_perm, (rows_where_perm _ _ _ (scan_perm _ _ _)).
      by rewrite (List.filter_ext _ (page_where q p)) by (intros; apply andb_true_r).
Qed.

(** The cursor made of a record points at its row. *)
Lemma record_cursor r rec :
  _record r = Ok rec ->
  let c := {| ac_recorded_at := ar_recorded_at rec; ac_event_id := ev_event_id (ar_event rec) |} in
  cursor_post_init c = Ok c /\ instant (ac_recorded_at c) = au_recorded_at r /\ ac_event_id c = au_event_id r.
Proof.
  intros (He & _ & Hat & _)%record_Ok. pose proof (row_event_Ok _ _ He) as (_ & Hid & _). cbn. rewrite Hat, Hid.
  split; [|by rewrite instant_from_timestamptz]. unfold cursor_post_init. cbn [ac_recorded_at ac_event_id _aware from_timestamptz].
  unfold row_event in He. apply bind_Ok_inv in He as (? & _ & He). apply bind_Ok_inv in He as (? & _ & He).
  apply bind_Ok_inv in He as (? & _ & He). unfold event_post_init in He. cbn [check_each ev_event_id] in He.
  apply bind_Ok_inv in He as ([] & He & _). apply bind_Ok_inv in He as ([] & He & _). by rewrite He.
Qed.

Lemma last_of_take {A} (l : list A) n x : (0 < n)%nat -> l !! pred n = Some x -> take n l = take (pred n) l ++ [x].
Proof. destruct n as [|n]; [lia|]. intros _. apply take_S_r. Qed.

Lemma list_page_at q p cursor limit db pre suf recs :
  table_ok (ad_events db) -> ids_ok (ad_events db) -> check_query q limit = Ok p ->
  forallb storable (page_texts q p None) = true ->
  matching q p (ad_events db) = pre ++ suf -> cursor_at pre cursor ->
  Forall2 (fun r rec => _record r = Ok rec) suf recs ->
  exists next, list_page q cursor limit (Session db false)
      = (Ok {| ap_records := take (Z.to_nat limit) recs; ap_next_cursor := next |}, Session db false)
    /\ match next with
       | None => (length suf <= Z.to_nat limit)%nat
       | Some c => (0 < Z.to_nat limit < length suf)%nat /\ cursor_at (pre ++ take (Z.to_nat limit) suf) (Some c)
       end.
Proof.
  intros Ht Hids Hq Hst Hm Hcur Hrec. assert (1 <= limit) as Hlim by (unfold check_query in Hq; inv_ok; lia).
  unfold list_page. rewrite Hq. unfold mbind at 1, SM_mbind, lift at 1.
  unfold mbind at 1, SM_mbind, exec. cbn [s_failed s_db].
  rewrite (select_page_at _ _ _ _ _ pre suf) by done. cbn [s_failed s_db].
  rewrite take_take. replace (Z.to_nat limit `min` Z.to_nat (limit + 1))%nat with (Z.to_nat limit) by lia.
  rewrite (proj2 (map_each_Ok _ _ (take (Z.to_nat limit) recs))) by by apply Forall2_take.
  unfold mbind at 1, SM_mbind, lift at 1. cbn [s_failed s_db]. rewrite length_take.
  replace (limit <? Z.of_nat (Z.to_nat (limit + 1) `min` length suf)) with (Z.to_nat limit <? length suf)%nat by lia.
  destruct (Nat.ltb_spec (Z.to_nat limit) (length suf)) as [Hlt|Hge].
  - destruct (lookup_lt_is_Some_2 suf (pred (Z.to_nat limit))) as [x Hx]; [lia|].
    destruct (Forall2_lookup_l _ _ _ _ _ Hrec Hx) as (rec & Hrx & Hr). destruct (record_cursor _ _ Hr) as (Hc & Hat & Hid).
    rewrite (last_of_take recs _ rec), last_snoc by (done || lia).
    unfold mbind at 1, SM_mbind, lift. rewrite Hc. eexists. split; [reflexivity|]. split; [lia|]. cbn.
    eexists _, x. split; [|done]. rewrite (last_of_take suf _ x) by (done || lia). apply app_assoc.
  - by exists None.
Qed.

(** Following the cursors: the pages from [cursor] on, together. *)
Fixpoint list_pages (fuel : nat) (q : page_query) (limit : Z) (cursor : option AuditCursor) : SM audit_db (list AuditRecord) :=
  match fuel with
  | O => lift (raise Exception_ "more pages")
  | S fuel' =>
      page ← list_page q cursor limit;
      match ap_next_cursor page with
      | None => mret (ap_records page)
      | Some c => rest ← list_pages fuel' q limit (Some c); mret (ap_records page ++ rest)
      end
  end.

Lemma list_pages_at fuel q p limit db :
  table_ok (ad_events db) -> ids_ok (ad_events db) -> check_query q limit = Ok p ->
  forallb storable (page_texts q p None) = true ->
  forall pre suf recs cursor,
  (length suf < fuel)%nat -> matching q p (ad_events db) = pre ++ suf -> cursor_at pre cursor ->
  Forall2 (fun r rec => _record r = Ok rec) suf recs ->
  list_pages fuel q limit cursor (Session db false) = (Ok recs, Session db false).
Proof.
  intros Ht Hids Hq Hst. induction fuel as [|fuel IH]; intros pre suf recs cursor Hf Hm Hcur Hrec; [lia|].
  destruct (list_page_at q p cursor limit db pre suf recs) as (next & Hrun & Hnext); [done..|].
  cbn [list_pages]. unfold mbind at 1, SM_mbind. rewrite Hrun. cbn [ap_next_cursor ap_records].
  pose proof (Forall2_length _ _ _ Hrec) as Hlen. destruct next as [c|].
  - destruct Hnext as [Hn Hc]. unfold mbind at 1, SM_mbind.
    rewrite (IH (pre ++ take (Z.to_nat limit) suf) (drop (Z.to_nat limit) suf) (drop (Z.to_nat limit) recs)).
    + unfold mret, SM_mret. by rewrite take_drop.
    + rewrite length_drop. lia.
    + by rewrite <- app_assoc, take_drop.
    + done.
    + by apply Forall2_drop.
  - unfold mret, SM_mret. by rewrite firstn_all2 by lia.
Qed.

(** C33: following [next_cursor] from the first page ends, and the pages together
    are exactly the owner's events that match the filters, each once, newest
    first.  With [n] matching events at most [n] calls are needed beyond the
    first, whatever the page size. *)
Theorem pages_exhaustive q p limit db recs :
  table_ok (ad_events db) -> ids_ok (ad_events db) -> check_query q limit = Ok p ->
  forallb storable (page_texts q p None) = true ->
  map_each _record (matching q p (ad_events db)) = Ok recs ->
  list_pages (S (length (matching q p (ad_events db)))) q limit None (Session db false) = (Ok recs, Session db false)
  /\ matching q p (ad_events db) ≡ₚ rows_where (page_where q p) (ad_events db)
  /\ NoDup (matching q p (ad_events db)) /\ StronglySorted (bool_rel newest_le) (matching q p (ad_events db)).
Proof.
  intros Ht Hids Hq Hst Hrec. split_and!.
  - apply (list_pages_at _ q p limit db Ht Hids Hq Hst [] (matching q p (ad_events db))); [lia|done..|]. by apply map_each_Ok.
  - apply sort_by_perm.
  - by apply matching_NoDup.
  - apply sort_newest.
Qed.
End Pages.

(** Two events of one owner, one a page. *)
Definition owner_query : page_query :=
  {| pq_owner_id := u "owner"; pq_event_classes := None; pq_outcomes := None; pq_from_ts := None; pq_to_ts := None;
     pq_keyword := None |}.
Definition owner_params : page_params := {| pp_classes := []; pp_outcomes := []; pp_pattern := None |}.
Definition owner_records : list AuditRecord :=
  match map_each _record (reverse (ad_events two_events)) with Ok l => l | Err _ => [] end.

Lemma pages_exhaustive_witness :
  length owner_records = 2%nat
  /\ list_pages 3 owner_query 1 None (Session two_events false) = (Ok owner_records, Session two_events false).
Proof.
  split; [vm_compute; reflexivity|].
  apply (pages_exhaustive owner_query owner_params 1 two_events owner_records).
  - split; [vm_compute; reflexivity|].
    eapply Forall_impl; [apply (forallb_holds (fun r => match check_audit_row r with Ok _ => true | Err _ => false end)); vm_compute; reflexivity|].
    intros r Hr. cbv beta in Hr |- *. revert Hr. destruct (check_audit_row r) as [[]|]; [intros _; reflexivity|discriminate].
  - eapply Forall_impl; [apply (forallb_holds (fun r => bool_decide (uuid_in (au_event_id r) = Some (au_event_id r)))); vm_compute; reflexivity|].
    intros r Hr. by apply bool_decide_eq_true in Hr.
  - vm_compute. reflexivity.
  - vm_compute. reflexivity.
  - vm_compute. reflexivity.
Defined.
