(* ===== verification/BlobKeys.v ===== *)
(** * Names of physical storage (blob_store.py and database/migrations.py)

    The validators of owners and keys of the blob store, the SQL functions
    that the tables check the same names with, and how far they agree. *)

From S2P Require Import Prelude Regex Errors Domain Sha256 Json Pg AuthoritySchema Outbox AuditDelivery.

(** ** Validators of blob_store.py *)

(** [^[A-Za-z0-9][A-Za-z0-9._@-]{0,254}$] *)
Definition component_char (c : N) : bool := is_alnum c || one_of "._@-" c.
Definition blob_identifier_re : regex := RSeq (RChar is_alnum) (RRep 0 254 component_char).
(** [^__verif__[A-Za-z0-9][A-Za-z0-9._-]{0,245}$] *)
Definition verification_char (c : N) : bool := is_alnum c || one_of "._-" c.
Definition verification_owner_re : regex :=
  RSeq (RLit (u "__verif__")) (RSeq (RChar is_alnum) (RRep 0 245 verification_char)).

Definition _MAX_KEY_CHARACTERS : nat := 4096.
Definition _MAX_KEY_COMPONENTS : nat := 32.
Definition _WINDOWS_RESERVED_COMPONENTS : list pystr :=
  [u "con"; u "prn"; u "aux"; u "nul"]
  ++ ((fun n => u "com" ++ [n]) <$> [49; 50; 51; 52; 53; 54; 55; 56; 57]%N)
  ++ ((fun n => u "lpt" ++ [n]) <$> [49; 50; 51; 52; 53; 54; 55; 56; 57]%N).

(** [s.split(".", 1)[0]], which is also [split_part(s, '.', 1)]. *)
Fixpoint stem (s : pystr) : pystr :=
  match s with
  | [] => []
  | c :: s' => if (c =? 46)%N then [] else c :: stem s'
  end.

(** [s.rstrip(" .")], which is also [rtrim(s, ' .')]. *)
Fixpoint drop_trail (s : pystr) : pystr :=
  match s with
  | c :: s' => if (c =? 32)%N || (c =? 46)%N then drop_trail s' else s
  | [] => []
  end.
Definition rstrip_trail (s : pystr) : pystr := reverse (drop_trail (reverse s)).

(** One of the nine characters that no platform component may contain. *)
Definition syntax_char (c : N) : bool := one_of "<>:|?*" c || (c =? 34)%N.

(** [re.split] at the characters of a class, which is also [string_to_array]. *)
Fixpoint split_at (f : N -> bool) (s : pystr) : list pystr :=
  match s with
  | [] => [[]]
  | c :: s' =>
      let rest := split_at f s' in
      if f c then [] :: rest else match rest with p :: ps => (c :: p) :: ps | [] => [[c]] end
  end.

(** ["/".join(parts)] *)
Fixpoint join_slash (parts : list pystr) : pystr :=
  match parts with
  | [] => []
  | [p] => p
  | p :: ps => p ++ [47%N] ++ join_slash ps
  end.

Definition has_char (c : N) (s : pystr) : bool := existsb (N.eqb c) s.

Section Validators.
Context `{PyText}.

Definition _safe_platform_component (value : pystr) : bool :=
  bool_decide (rstrip_trail value = value)
  && negb (bool_decide (casefold (stem value) ∈ _WINDOWS_RESERVED_COMPONENTS))
  && negb (existsb (fun c => syntax_char c || (c <? 32)%N) value).

Definition validate_blob_owner_id (value : pystr) : result pystr :=
  raise_if ((negb (fullmatch blob_identifier_re value) && negb (fullmatch verification_owner_re value))
            || negb (_safe_platform_component value))
    (Exn SQLContractError "owner_id is not a valid bounded identifier") ;;
  Ok value.

(** [re.match(r"^[A-Za-z]:", key)] *)
Definition drive_prefix (key : pystr) : bool :=
  match key with a :: b :: _ => (is_upper a || is_lower a) && (b =? 58)%N | _ => false end.

Definition _normalized_key (key : pystr) : result pystr :=
  raise_if (bool_decide (key = []) || has_char 0 key)
    (Exn SQLContractError "blob key must be a non-empty string without NUL bytes") ;;
  raise_if (_MAX_KEY_CHARACTERS <? length key)%nat (Exn SQLContractError "blob key must not exceed 4096 characters") ;;
  raise_if (starts_with (u "/") key || starts_with (u "\") key || drive_prefix key)
    (Exn SQLContractError "blob key must be relative") ;;
  let parts := split_at (fun c => (c =? 47)%N || (c =? 92)%N) key in
  raise_if (_MAX_KEY_COMPONENTS <? length parts)%nat (Exn SQLContractError "blob key must not exceed 32 components") ;;
  raise_if (existsb (fun part => bool_decide (part ∈ [[]; u "."; u ".."]) || (255 <? length part)%nat) parts)
    (Exn SQLContractError "blob key contains an unsafe path component") ;;
  raise_if (existsb (starts_with (u ".astralplane-")) parts)
    (Exn SQLContractError "blob key uses a reserved Plane storage component") ;;
  raise_if (existsb (fun part => negb (_safe_platform_component part)) parts)
    (Exn SQLContractError "blob key contains platform-specific syntax") ;;
  Ok (join_slash parts).

Definition validate_blob_storage_key (value : pystr) : result pystr := _normalized_key value.
End Validators.

(** ** SQL functions of database/migrations.py *)

Section Canonical.
Context `{PgEnv} `{PgLower}.

Definition reserved (value : pystr) : bool := bool_decide (stem (pg_lower value) ∈ _WINDOWS_RESERVED_COMPONENTS).

Definition astralplane_blob_owner_is_canonical (candidate : pystr) : bool :=
  (fullmatch blob_identifier_re candidate || fullmatch verification_owner_re candidate)
  && bool_decide (candidate = rstrip_trail candidate) && negb (reserved candidate).

Definition pg_bad_component (value : pystr) : bool :=
  negb ((1 <=? length value)%nat && (length value <=? 255)%nat)
  || bool_decide (value ∈ [u "."; u ".."]) || starts_with (u ".astralplane-") value
  || bool_decide (value <> rstrip_trail value) || existsb syntax_char value || existsb pg_cntrl value
  || reserved value.

Definition astralplane_blob_storage_key_is_canonical (candidate : pystr) : bool :=
  (1 <=? length candidate)%nat && (length candidate <=? 4096)%nat
  && negb (starts_with (u "/") candidate) && negb (has_char 92 candidate)
  && (let parts := split_at (N.eqb 47) candidate in
      (1 <=? length parts)%nat && (length parts <=? 32)%nat && negb (existsb pg_bad_component parts)).

Definition astralplane_attachment_id_is_canonical (candidate : pystr) : bool :=
  fullmatch blob_identifier_re candidate && negb (has_char 47 candidate)
  && astralplane_blob_storage_key_is_canonical candidate.
End Canonical.

(** ** How far the two agree *)

Lemma existsb_false {A} (f : A -> bool) l : existsb f l = false <-> forall x, x ∈ l -> f x = false.
Proof.
  split.
  - intros Hl x Hx%list_elem_of_In. destruct (f x) eqn:Hf; [|done]. rewrite <- Hl. symmetry. apply existsb_exists. eauto.
  - intros Hl. apply not_true_iff_false. rewrite existsb_exists. intros (x & Hx%list_elem_of_In & Hf). by rewrite Hl in Hf.
Qed.

Lemma existsb_ext_in {A} (f g : A -> bool) l : (forall x, x ∈ l -> f x = g x) -> existsb f l = existsb g l.
Proof.
  induction l as [|x l IH]; [done|]. intros Hfg. cbn. rewrite (Hfg x) by left. rewrite IH; [done|]. intros y Hy. apply Hfg. by right.
Qed.

(** Facts about the ASCII characters, by evaluation. *)
Lemma ascii_cases (P : N -> bool) c : forallb P (N.of_nat <$> seq 0 128) = true -> (c < 128)%N -> P c = true.
Proof.
  rewrite forallb_forall. intros Hall Hc. apply Hall, list_elem_of_In, list_elem_of_fmap.
  exists (N.to_nat c). split; [lia|]. apply elem_of_seq. lia.
Qed.

Lemma component_char_ascii c : component_char c = true -> (c < 128)%N.
Proof.
  unfold component_char, is_alnum, is_upper, is_lower, is_digit, in_range, one_of.
  rewrite !orb_true_iff, !andb_true_iff, !N.leb_le, bool_decide_eq_true. intros [?|Hc]; [lia|].
  repeat (apply elem_of_cons in Hc as [->|Hc]; [done|]). by apply elem_of_nil in Hc.
Qed.

Lemma component_char_plain c :
  component_char c = true -> syntax_char c || (c <? 32)%N || (c =? 47)%N || (c =? 92)%N || (c =? 127)%N = false.
Proof.
  intros Hc. pose proof (component_char_ascii c Hc) as Ha.
  assert (implb (component_char c) (negb (syntax_char c || (c <? 32)%N || (c =? 47)%N || (c =? 92)%N || (c =? 127)%N)) = true) as Hi.
  { apply (ascii_cases (fun c => implb (component_char c) (negb (syntax_char c || (c <? 32)%N || (c =? 47)%N || (c =? 92)%N || (c =? 127)%N))));
      [vm_compute; reflexivity|done]. }
  rewrite Hc in Hi. by apply negb_true_iff in Hi.
Qed.

Lemma alnum_component c : is_alnum c = true -> component_char c = true.
Proof. unfold component_char. by intros ->. Qed.

Lemma verification_component c : verification_char c = true -> component_char c = true.
Proof.
  unfold verification_char, component_char. destruct (is_alnum c); [done|]. cbn. unfold one_of. rewrite !bool_decide_eq_true.
  change (u "._-") with [46%N; 95%N; 45%N]. change (u "._@-") with [46%N; 95%N; 64%N; 45%N]. set_solver.
Qed.

Definition component_text (s : pystr) : Prop := Forall (fun c => component_char c = true) s.

Lemma blob_identifier_text s : fullmatch blob_identifier_re s = true -> component_text s.
Proof.
  intros (s1 & s2 & -> & (c & -> & Hc) & _ & Hf)%fullmatch_lang. constructor; [by apply alnum_component|done].
Qed.
Lemma verification_owner_text s : fullmatch verification_owner_re s = true -> component_text s.
Proof.
  intros (s1 & s2 & -> & -> & (s3 & s4 & -> & (c & -> & Hc) & _ & Hf))%fullmatch_lang.
  apply Forall_app. split; [by repeat constructor|]. constructor; [by apply alnum_component|].
  eapply Forall_impl; [exact Hf|]. apply verification_component.
Qed.

Definition ascii (s : pystr) : Prop := Forall (fun c => (c < 128)%N) s.
Lemma component_text_ascii s : component_text s -> ascii s.
Proof. intros Hs. eapply Forall_impl; [exact Hs|]. apply component_char_ascii. Qed.

Lemma component_text_without s (f : N -> bool) :
  component_text s -> (forall c, component_char c = true -> f c = false) -> existsb f s = false.
Proof. intros Hs Hf. apply existsb_false. intros x Hx. apply Hf. unfold component_text in Hs. rewrite Forall_forall in Hs. auto. Qed.

(** Lowering keeps the stem. *)
Lemma stem_lower s : stem (py_lower s) = py_lower (stem s).
Proof.
  induction s as [|c s IH]; [done|]. unfold py_lower in *. rewrite fmap_cons. cbn [stem].
  destruct (N.eqb_spec c 46) as [->|Hc]; [done|]. destruct (N.eqb_spec (lower_char c) 46) as [Hl|Hl]; [|cbn; by rewrite IH].
  exfalso. unfold lower_char, is_upper, in_range in Hl. destruct (_ && _) eqn:Hb in Hl; [|done].
  apply andb_true_iff in Hb as [Hb _]. apply N.leb_le in Hb. lia.
Qed.

Lemma ascii_stem s : ascii s -> ascii (stem s).
Proof.
  intros Hs. induction Hs as [|c s Hc Hs IH]; [constructor|]. cbn. destruct (c =? 46)%N; [constructor|]. by constructor.
Qed.

(** Splitting a key. *)
Lemma split_at_ext f g s : (forall c, c ∈ s -> f c = g c) -> split_at f s = split_at g s.
Proof.
  induction s as [|c s IH]; [done|]. intros Hfg. cbn. rewrite (Hfg c) by left. rewrite IH; [done|]. intros x Hx. apply Hfg. by right.
Qed.

Lemma split_at_cons f s : exists p ps, split_at f s = p :: ps.
Proof. destruct s as [|c s]; cbn; [eauto|]. destruct (f c); [eauto|]. destruct (split_at f s); eauto. Qed.

Lemma join_split f s : join_slash (split_at f s) = (fun c => if f c then 47%N else c) <$> s.
Proof.
  induction s as [|c s IH]; [done|]. rewrite fmap_cons, <- IH. cbn [split_at].
  destruct (split_at_cons f s) as (p & ps & ->). by destruct (f c), ps.
Qed.

Lemma elem_of_split f s c : c ∈ s -> f c = true \/ exists part, part ∈ split_at f s /\ c ∈ part.
Proof.
  induction s as [|d s IH]; [by intros ?%elem_of_nil|]. cbn. intros Hc. destruct (split_at_cons f s) as (p & ps & Heq). rewrite Heq in *.
  destruct (f d) eqn:Hd.
  - apply elem_of_cons in Hc as [->|Hc]; [by left|]. destruct (IH Hc) as [?|(part & Hp & Hx)]; [by left|right].
    exists part. split; [by right|done].
  - apply elem_of_cons in Hc as [->|Hc]; [right; exists (d :: p); split; by left|].
    destruct (IH Hc) as [?|(part & Hp & Hx)]; [by left|right]. apply elem_of_cons in Hp as [->|Hp].
    + exists (d :: p). split; [by left|by right].
    + exists part. split; [by right|done].
Qed.

Lemma split_elem f s part c : part ∈ split_at f s -> c ∈ part -> c ∈ s.
Proof.
  revert part. induction s as [|d s IH]; intros part; cbn.
  - intros ->%list_elem_of_singleton. by intros ?%elem_of_nil.
  - destruct (split_at_cons f s) as (p & ps & Heq). rewrite Heq in *. destruct (f d).
    + intros [->|Hp]%elem_of_cons Hc; [by apply elem_of_nil in Hc|]. right. by eapply IH.
    + intros [->|Hp]%elem_of_cons Hc.
      * apply elem_of_cons in Hc as [->|Hc]; [by left|]. right. apply (IH p); [by left|done].
      * right. apply (IH part); [by right|done].
Qed.

Lemma guard_Ok {E A} b (e : E) (m : outcome E A) v : (raise_if b e ;; m) = Ok v <-> b = false /\ m = Ok v.
Proof. by destruct b; cbn; split; [| | |intros [_ ?]]; try naive_solver. Qed.

Section Agreement.
Context `{PyText} `{PgEnv} `{PgLower}.

(** [lower] of a locale that treats ASCII as ASCII. *)
Definition lower_is_ascii : Prop := forall s, ascii s -> pg_lower s = py_lower s.

(** Letter case beyond ASCII: the server's [lower] neither makes nor removes a
    full stop, and neither it nor Python's [casefold] makes a device name out of
    text that is not ASCII. *)
Record case_laws : Prop := {
  cl_lower_stem s : stem (pg_lower s) = pg_lower (stem s);
  cl_lower_device s : pg_lower s ∈ _WINDOWS_RESERVED_COMPONENTS -> ascii s;
  cl_casefold_device s : casefold s ∈ _WINDOWS_RESERVED_COMPONENTS -> ascii s
}.

Hypothesis Hlower : lower_is_ascii.

(** The two tests for a device name agree on [s]. *)
Definition same_device (s : pystr) : Prop :=
  reserved s = bool_decide (casefold (stem s) ∈ _WINDOWS_RESERVED_COMPONENTS).

Lemma reserved_agrees s : ascii s -> same_device s.
Proof.
  intros Hs. unfold same_device, reserved. rewrite Hlower, stem_lower by done.
  rewrite casefold_ascii by by apply ascii_stem. done.
Qed.

Lemma reserved_agrees_all s : case_laws -> same_device s.
Proof.
  intros [Hst Hl Hc]. unfold same_device, reserved. apply bool_decide_ext. rewrite Hst. split; intros Hin.
  - pose proof (Hl _ Hin) as Ha. rewrite casefold_ascii by done. by rewrite Hlower in Hin.
  - pose proof (Hc _ Hin) as Ha. rewrite Hlower by done. by rewrite casefold_ascii in Hin.
Qed.

Lemma owner_agrees s : is_ok (validate_blob_owner_id s) = astralplane_blob_owner_is_canonical s.
Proof.
  unfold validate_blob_owner_id, astralplane_blob_owner_is_canonical, raise_if.
  destruct (fullmatch blob_identifier_re s || fullmatch verification_owner_re s) eqn:Hm.
  - assert (component_text s) as Ht.
    { apply orb_true_iff in Hm as [?|?]; [by apply blob_identifier_text|by apply verification_owner_text]. }
    rewrite <- negb_orb, Hm. cbn. unfold _safe_platform_component.
    rewrite (component_text_without s (fun c => syntax_char c || (c <? 32)%N)); [|done|].
    2: { intros c Hc%component_char_plain. by do 3 (apply orb_false_iff in Hc as [Hc _]). }
    rewrite reserved_agrees by by apply component_text_ascii.
    rewrite (bool_decide_ext (rstrip_trail s = s) (s = rstrip_trail s)) by done.
    by destruct (bool_decide (s = _)), (bool_decide (casefold _ ∈ _)).
  - by rewrite <- negb_orb, Hm.
Qed.

(** A component that the store accepts. *)
Definition component_ok (part : pystr) : bool :=
  negb (bool_decide (part ∈ [[]; u "."; u ".."]) || (255 <? length part)%nat)
  && negb (starts_with (u ".astralplane-") part) && _safe_platform_component part.

Lemma cntrl_low part : existsb (fun c => (c <? 32)%N) part = true -> existsb pg_cntrl part = true.
Proof.
  rewrite !existsb_exists. intros (c & Hc & Hlt). exists c. split; [done|]. rewrite pg_cntrl_ascii by lia.
  unfold is_ascii_control. by rewrite Hlt.
Qed.

Lemma component_agrees part : same_device part ->
  negb (pg_bad_component part) = component_ok part && negb (existsb pg_cntrl part).
Proof.
  intros Hdev. unfold pg_bad_component, component_ok, _safe_platform_component. rewrite Hdev. clear Hdev.
  pose proof (cntrl_low part) as Hlow.
  assert (existsb (fun c => syntax_char c || (c <? 32)%N) part = existsb syntax_char part || existsb (fun c => (c <? 32)%N) part) as ->.
  { clear. induction part as [|c s IH]; [done|]. cbn -[N.ltb syntax_char]. rewrite IH.
    by destruct (syntax_char c), (c <? 32)%N, (existsb syntax_char s), (existsb _ s). }
  rewrite (bool_decide_ext (part ∈ [[]; u "."; u ".."]) (part = [] \/ part ∈ [u "."; u ".."])) by set_solver.
  rewrite bool_decide_or.
  assert (bool_decide (part = []) = negb (1 <=? length part)%nat) as -> by by destruct part.
  rewrite bool_decide_not, (bool_decide_ext (part = rstrip_trail part) (rstrip_trail part = part)) by done.
  rewrite (Nat.leb_antisym 255 (length part)).
  destruct (1 <=? length part)%nat, (255 <? length part)%nat, (bool_decide (part ∈ [u "."; u ".."])), (starts_with _ part),
    (bool_decide (rstrip_trail part = part)), (existsb syntax_char part), (existsb (fun c => (c <? 32)%N) part),
    (existsb pg_cntrl part), (bool_decide (casefold _ ∈ _)); cbn in *; first [reflexivity|by specialize (Hlow eq_refl)].
Qed.

(** A key that is its own normal form, by its parts. *)
Lemma validate_key_spec s : validate_blob_storage_key s = Ok s <->
  s <> [] /\ has_char 0 s = false /\ (length s <= 4096)%nat /\ starts_with (u "/") s = false /\ has_char 92 s = false
  /\ (length (split_at (N.eqb 47) s) <= 32)%nat /\ Forall (fun part => component_ok part = true) (split_at (N.eqb 47) s).
Proof.
  set (sep := fun c => (c =? 47)%N || (c =? 92)%N).
  assert (has_char 92 s = false -> split_at sep s = split_at (N.eqb 47) s) as Hsep.
  { intros Hb. apply split_at_ext. intros c Hc. unfold sep. unfold has_char in Hb. rewrite existsb_false in Hb.
    specialize (Hb c Hc). rewrite (N.eqb_sym c 92), Hb, orb_false_r. apply N.eqb_sym. }
  assert (has_char 92 s = false <-> join_slash (split_at sep s) = s) as Hnorm.
  { rewrite join_split. unfold has_char. rewrite existsb_false. clear. induction s as [|c s IH]; [split; [done|set_solver]|].
    rewrite fmap_cons. unfold sep in *. split.
    - intros Hc. f_equal.
      + specialize (Hc c ltac:(by left)). rewrite N.eqb_sym in Hc. rewrite Hc, orb_false_r. destruct (N.eqb_spec c 47); congruence.
      + apply IH. intros x Hx. apply Hc. by right.
    - intros [= Hc Hs] x [->|Hx]%elem_of_cons; [|by apply IH]. rewrite N.eqb_sym.
      destruct (c =? 92)%N eqn:E; [|done]. apply N.eqb_eq in E. subst. cbn in Hc. done. }
  unfold validate_blob_storage_key, _normalized_key. fold sep. rewrite !guard_Ok.
  assert (Ok (join_slash (split_at sep s)) = (Ok s : result pystr) <-> has_char 92 s = false) as ->
    by (split; [intros [= Hj]; by apply Hnorm|intros Hj; f_equal; by apply Hnorm]).
  rewrite !orb_false_iff, !bool_decide_eq_false.
  assert (Forall (fun part => component_ok part = true) (split_at (N.eqb 47) s) <->
    existsb (fun part => bool_decide (part ∈ [[]; u "."; u ".."]) || (255 <? length part)%nat) (split_at (N.eqb 47) s) = false
    /\ existsb (starts_with (u ".astralplane-")) (split_at (N.eqb 47) s) = false
    /\ existsb (fun part => negb (_safe_platform_component part)) (split_at (N.eqb 47) s) = false) as Hparts.
  { rewrite Forall_forall, !existsb_false. unfold component_ok. split.
    - intros Hc. split_and!; intros part Hp;
        apply (Hc part), andb_true_iff in Hp as [[Hx%negb_true_iff Hy%negb_true_iff]%andb_true_iff Hz]; [done|done|].
      by rewrite Hz.
    - intros (Hx & Hy & Hz) part Hp. rewrite (Hx part Hp), (Hy part Hp). by apply negb_false_iff, Hz. }
  split.
  - intros ([Hne Hz] & Hl & [[Hs1 Hs2] Hd] & Hn & Ha & Hb & Hc & Hw). rewrite (Hsep Hw) in *.
    apply Nat.ltb_ge in Hl, Hn. by rewrite Hparts.
  - intros (Hne & Hz & Hl & Hs & Hw & Hn & Hp). rewrite (Hsep Hw). pose proof Hp as Hp'. apply Hparts in Hp' as (Ha & Hb & Hc).
    split_and!; try done; try by apply Nat.ltb_ge.
    + unfold has_char in Hw. rewrite existsb_false in Hw. destruct s as [|c s]; [done|]. change (u "\") with [92%N].
      cbn [starts_with]. apply andb_false_iff. left. apply bool_decide_eq_false. intros <-. by specialize (Hw 92%N ltac:(by left)).
    + destruct s as [|c0 [|c1 s]]; [done..|]. cbn. destruct (N.eqb_spec c1 58) as [->|]; [|apply andb_false_r]. exfalso.
      destruct (elem_of_split (N.eqb 47) (c0 :: 58%N :: s) 58%N) as [Hx|(part & Hin & Hx)]; [set_solver|done|].
      rewrite Forall_forall in Hp. specialize (Hp part Hin). unfold component_ok, _safe_platform_component in Hp. split_bools.
      match goal with Hx : existsb (fun c => syntax_char c || _) part = false |- _ => rewrite existsb_false in Hx; specialize (Hx 58%N) end.
      naive_solver.
Qed.

Lemma key_agrees s : (forall part, part ∈ split_at (N.eqb 47) s -> same_device part) ->
  astralplane_blob_storage_key_is_canonical s = true <-> validate_blob_storage_key s = Ok s /\ existsb pg_cntrl s = false.
Proof.
  intros Hdev. rewrite validate_key_spec. unfold astralplane_blob_storage_key_is_canonical.
  rewrite !andb_true_iff, !negb_true_iff, !Nat.leb_le.
  assert (existsb pg_bad_component (split_at (N.eqb 47) s) = false <->
    Forall (fun part => component_ok part = true) (split_at (N.eqb 47) s) /\ existsb pg_cntrl s = false) as Hparts.
  { rewrite existsb_false, Forall_forall. rewrite (existsb_false pg_cntrl).
    assert (forall part, part ∈ split_at (N.eqb 47) s ->
      pg_bad_component part = false <-> component_ok part = true /\ existsb pg_cntrl part = false) as Heq.
    { intros part Hp. rewrite <- negb_true_iff, component_agrees by auto. by rewrite andb_true_iff, negb_true_iff. }
    split.
    - intros Hbad. split; [intros part Hp; by apply Heq, Hbad|]. intros c Hc.
      destruct (elem_of_split (N.eqb 47) s c Hc) as [Hx%N.eqb_eq|(part & Hp & Hx)]; [subst; by rewrite pg_cntrl_ascii|].
      destruct (proj1 (Heq part Hp) (Hbad part Hp)) as [_ Hd]. rewrite existsb_false in Hd. auto.
    - intros [Hok Hd] part Hp. apply Heq; [done|]. split; [auto|]. apply existsb_false. intros c Hc. apply Hd.
      by eapply split_elem. }
  rewrite Hparts. destruct (split_at_cons (N.eqb 47) s) as (p0 & ps & Hcons). split.
  - intros ((((Hl & Hl') & Hs) & Hw) & (_ & Hn) & Hp & Hd). split_and!; try done; [intros ->; cbn in Hl; lia|].
    apply not_true_iff_false. intros Hz. unfold has_char in Hz. apply existsb_exists in Hz as (c & Hc%list_elem_of_In & <-%N.eqb_eq).
    destruct (elem_of_split (N.eqb 47) s 0%N Hc) as [Hx|(part & Hin & Hx)]; [done|].
    rewrite Forall_forall in Hp. specialize (Hp part Hin). unfold component_ok, _safe_platform_component in Hp. split_bools.
    match goal with Hx : existsb (fun c => syntax_char c || _) part = false |- _ => rewrite existsb_false in Hx; specialize (Hx 0%N) end.
    naive_solver.
  - intros ((Hne & _ & Hl & Hs & Hw & Hn & Hp) & Hd). rewrite Hcons in *. split_and!; try done; [destruct s; [done|cbn; lia]|cbn; lia].
Qed.

Lemma ascii_key_agrees s : ascii s ->
  astralplane_blob_storage_key_is_canonical s = true <-> validate_blob_storage_key s = Ok s /\ existsb pg_cntrl s = false.
Proof.
  intros Ha. apply key_agrees. intros part Hp. apply reserved_agrees. apply Forall_forall. intros c Hc.
  unfold ascii in Ha. rewrite Forall_forall in Ha. apply Ha. by eapply split_elem.
Qed.

(** A control character that the code lets pass: DEL, or one beyond ASCII. *)
Lemma passed_control s c : validate_blob_storage_key s = Ok s -> c ∈ s -> pg_cntrl c = true -> (127 <= c)%N.
Proof.
  rewrite validate_key_spec. intros (_ & _ & _ & _ & _ & _ & Hp) Hc Hctl.
  destruct (N.ltb_spec c 127) as [Hlt|]; [exfalso|done]. rewrite pg_cntrl_ascii in Hctl by lia.
  destruct (elem_of_split (N.eqb 47) s c Hc) as [Hx%N.eqb_eq|(part & Hin & Hx)]; [by subst|].
  rewrite Forall_forall in Hp. specialize (Hp part Hin). unfold component_ok, _safe_platform_component in Hp. split_bools.
  match goal with Hx : existsb (fun c => syntax_char c || _) part = false |- _ => rewrite existsb_false in Hx; specialize (Hx c); rename Hx into Hno end.
  unfold is_ascii_control in Hctl. apply orb_true_iff in Hctl as [Hctl|Hctl%N.eqb_eq]; [|lia].
  specialize (Hno Hx). cbn beta in Hno. by rewrite Hctl, orb_true_r in Hno.
Qed.

(** The name of an attachment: one component. *)
Definition attachment_name (a : pystr) : Prop :=
  fullmatch blob_identifier_re a = true /\ validate_blob_storage_key a = Ok a.

Lemma attachment_id_agrees a : astralplane_attachment_id_is_canonical a = true <-> attachment_name a.
Proof.
  unfold astralplane_attachment_id_is_canonical, attachment_name. destruct (fullmatch blob_identifier_re a) eqn:Hm; [|naive_solver].
  apply blob_identifier_text in Hm as Ht. cbn.
  assert (forall f, (forall c, component_char c = true -> f c = false) -> existsb f a = false) as Hno
    by (intros f; by apply component_text_without).
  unfold has_char. rewrite Hno.
  2: { intros c Hc%component_char_plain. apply orb_false_iff in Hc as [Hc _]. apply orb_false_iff in Hc as [Hc _].
       apply orb_false_iff in Hc as [_ H47]. by rewrite N.eqb_sym. }
  cbn. rewrite ascii_key_agrees by by apply component_text_ascii. rewrite Hno; [naive_solver|].
  intros c Hc. rewrite pg_cntrl_ascii by by apply component_char_ascii.
  apply component_char_plain in Hc. unfold is_ascii_control.
  apply orb_false_iff in Hc as [Hc ->]. do 2 apply orb_false_iff in Hc as [Hc _]. by apply orb_false_iff in Hc as [_ ->].
Qed.
End Agreement.
