(* ===== verification/ArtifactSchema.v ===== *)
(** * Attachments, blob owners and purge tombstones: the tables

    [user_attachments] with the materialization columns of revision 074.004,
    [astralplane_blob_owner_state] and [astralplane_purge_tombstone]
    (database/legacy_baseline_066.py and database/migrations.py).  The columns
    [created_at] and [updated_at] of the last two are written and never read;
    they are left out.  A CHECK that makes a text column an enumeration is the
    type of the column. *)

From S2P Require Import Prelude Regex Errors Domain Pg AuthoritySchema AuditDelivery BlobKeys.

(** The readings of the server's clock during one call: the time of its
    statement, and what [clock_timestamp()] gives in a clause for a row. *)
Record clock : Type := { statement_timestamp : Z; clock_now : string -> pystr -> Z }.

(** ** user_attachments *)

Inductive AttachmentMaterializationState : Type := READY | MPENDING.
#[global] Instance materialization_state_eq_dec : EqDecision AttachmentMaterializationState.
Proof. solve_decision. Defined.

Record attachment_row : Type := {
  at_attachment_id : pystr;
  at_user_id : pystr;
  at_filename : pystr;
  at_content_type : pystr;
  at_category : pystr;
  at_extension : pystr;
  at_size_bytes : Z;
  at_sha256 : pystr;
  at_storage_path : pystr;
  at_created_at : Z;
  at_deleted_at : option Z;
  at_state : AttachmentMaterializationState;
  at_lease_id : option pystr;
  at_lease_version : option Z;
  at_lease_expires_at : option Z;
  at_max_bytes : option Z;
  at_storage_key : option pystr
}.
#[global] Instance attachment_row_eq_dec : EqDecision attachment_row.
Proof. solve_decision. Defined.

(** ** astralplane_blob_owner_state *)

Inductive owner_state : Type := OWNER_ACTIVE | OWNER_RETIRED.
#[global] Instance owner_state_eq_dec : EqDecision owner_state.
Proof. solve_decision. Defined.

Record owner_row : Type := {
  ow_owner_id : pystr;
  ow_state : owner_state;
  ow_version : Z;
  ow_retired_at : option Z
}.

(** ** astralplane_purge_tombstone *)

Inductive PurgeStatus : Type := PENDING | PURGED | FAILED | MANUAL_REVIEW.
Inductive PurgeTargetScope : Type := EXACT_KEY | ATTACHMENT_PREFIX | OWNER_NAMESPACE.
#[global] Instance PurgeStatus_eq_dec : EqDecision PurgeStatus.
Proof. solve_decision. Defined.
#[global] Instance PurgeTargetScope_eq_dec : EqDecision PurgeTargetScope.
Proof. solve_decision. Defined.

Definition PurgeTargetScope_value (s : PurgeTargetScope) : pystr :=
  match s with
  | EXACT_KEY => u "exact_key"
  | ATTACHMENT_PREFIX => u "attachment_prefix"
  | OWNER_NAMESPACE => u "owner_namespace"
  end.

Record tombstone_row : Type := {
  ts_tombstone_id : pystr;
  ts_owner_id : pystr;
  ts_object_kind : pystr;
  ts_object_id : pystr;
  ts_storage_key : pystr;
  ts_target_scope : PurgeTargetScope;
  ts_storage_locator_sha256 : pystr;
  ts_requested_at : Z;
  ts_status : PurgeStatus;
  ts_attempt_count : Z;
  ts_version : Z;
  ts_available_at : Z;
  ts_verified_absent_at : option Z;
  ts_evidence : option pystr;
  ts_resolved_at : option Z;
  ts_last_error_code : option pystr
}.

Record artifact_db : Type := ArtifactDb {
  ab_attachments : list attachment_row;
  ab_owners : list owner_row;
  ab_tombstones : list tombstone_row
}.
Definition set_attachments t db := ArtifactDb t (ab_owners db) (ab_tombstones db).
Definition set_owners t db := ArtifactDb (ab_attachments db) t (ab_tombstones db).
Definition set_tombstones t db := ArtifactDb (ab_attachments db) (ab_owners db) t.

Definition nullable {A} (p : A -> bool) (o : option A) : bool := match o with Some x => p x | None => true end.
Definition not_null {A} (p : A -> bool) (o : option A) : bool := match o with Some x => p x | None => false end.

Definition slash : pystr := [47%N].
(** [replace(path, '\', '/')] *)
Definition forward_slashes (s : pystr) : pystr := (fun c => if (c =? 92)%N then 47%N else c) <$> s.

Section Constraints.
Context `{PgEnv} `{PgLower}.

(** [user_attachments_materialization_state_check] *)
Definition lease_columns (least : Z) (r : attachment_row) : bool :=
  not_null identifier_is_canonical (at_lease_id r)
  && not_null (fun v => least <=? v) (at_lease_version r)
  && is_some (at_lease_expires_at r)
  && not_null (fun m => 0 <? m) (at_max_bytes r)
  && astralplane_blob_owner_is_canonical (at_user_id r)
  && astralplane_attachment_id_is_canonical (at_attachment_id r)
  && not_null (fun k => astralplane_blob_storage_key_is_canonical k
                        && bool_decide (k = at_attachment_id r ++ slash ++ at_filename r)
                        && bool_decide (forward_slashes (at_storage_path r) = at_user_id r ++ slash ++ k)) (at_storage_key r).
Definition no_lease_columns (r : attachment_row) : bool :=
  negb (is_some (at_lease_id r)) && negb (is_some (at_lease_version r)) && negb (is_some (at_lease_expires_at r))
  && negb (is_some (at_max_bytes r)) && negb (is_some (at_storage_key r)).
Definition materialization_state_check (r : attachment_row) : bool :=
  match at_state r with
  | READY =>
      astralplane_blob_owner_is_canonical (at_user_id r)
      && astralplane_attachment_id_is_canonical (at_attachment_id r)
      && astralplane_blob_storage_key_is_canonical (at_attachment_id r ++ slash ++ at_filename r)
      && bool_decide (forward_slashes (at_storage_path r)
                      = at_user_id r ++ slash ++ at_attachment_id r ++ slash ++ at_filename r)
      && (0 <=? at_size_bytes r) && fullmatch hex64_re (at_sha256 r)
      && (no_lease_columns r || lease_columns 1 r)
  | MPENDING => lease_columns 0 r
  end.
Definition check_attachment_row (r : attachment_row) : result unit :=
  raise_unless (is_int8 (at_size_bytes r) && is_int8 (at_created_at r) && nullable is_int8 (at_deleted_at r)
                && nullable is_int8 (at_lease_version r) && nullable is_int8 (at_max_bytes r))
    (Exn PgNumericOutOfRange "bigint out of range") ;;
  raise_unless (materialization_state_check r) (Exn PgCheckViolation "new row violates check constraint").

(** The primary key and [uq_user_attachments_attachment_id_casefold]. *)
Definition attachment_conflict (a b : attachment_row) : bool :=
  bool_decide (at_attachment_id a = at_attachment_id b)
  || bool_decide (pg_lower (at_attachment_id a) = pg_lower (at_attachment_id b)).

Definition check_owner_row (r : owner_row) : result unit :=
  raise_unless (is_int8 (ow_version r)) (Exn PgNumericOutOfRange "bigint out of range") ;;
  raise_unless (astralplane_blob_owner_is_canonical (ow_owner_id r) && (0 <=? ow_version r)
                && match ow_state r with
                   | OWNER_ACTIVE => negb (is_some (ow_retired_at r))
                   | OWNER_RETIRED => is_some (ow_retired_at r)
                   end)
    (Exn PgCheckViolation "new row violates check constraint").

(** The primary key and [uq_astralplane_blob_owner_state_casefold]. *)
Definition owner_conflict (a b : owner_row) : bool :=
  bool_decide (ow_owner_id a = ow_owner_id b) || bool_decide (pg_lower (ow_owner_id a) = pg_lower (ow_owner_id b)).

Definition _OBJECT_KINDS : list pystr := [u "attachment"; u "artifact"; u "knowledge"; u "generated_agent"].

(** [astralplane_purge_state_shape_check] *)
Definition state_shape (r : tombstone_row) : bool :=
  match ts_status r with
  | PENDING => negb (is_some (ts_verified_absent_at r)) && negb (is_some (ts_last_error_code r))
  | PURGED => is_some (ts_verified_absent_at r) && negb (is_some (ts_last_error_code r))
  | FAILED | MANUAL_REVIEW => negb (is_some (ts_verified_absent_at r)) && is_some (ts_last_error_code r)
  end.

(** ['^purge-attachment_prefix-[0-9a-f]{64}$'] and its like *)
Definition tagged_digest_re (tag : string) : regex := RSeq (RLit (u tag)) hex64_re.

(** [astralplane_purge_tombstone_target_shape_check] *)
Definition target_shape (r : tombstone_row) : bool :=
  let unresolved := negb (is_some (ts_evidence r)) && negb (is_some (ts_resolved_at r)) in
  match ts_target_scope r with
  | EXACT_KEY =>
      match ts_status r with
      | MANUAL_REVIEW => unresolved
      | PURGED => not_null (fullmatch hex64_re) (ts_evidence r) && is_some (ts_resolved_at r)
      | _ => false
      end
  | ATTACHMENT_PREFIX =>
      bool_decide (ts_object_kind r = u "attachment") && astralplane_attachment_id_is_canonical (ts_object_id r)
      && bool_decide (ts_storage_key r = ts_object_id r)
      && fullmatch (tagged_digest_re "purge-attachment_prefix-") (ts_tombstone_id r) && unresolved
  | OWNER_NAMESPACE =>
      bool_decide (ts_object_kind r = u "attachment") && fullmatch (tagged_digest_re "owner-namespace:") (ts_object_id r)
      && bool_decide (ts_storage_key r = u "owner-namespace")
      && fullmatch (tagged_digest_re "purge-owner_namespace-") (ts_tombstone_id r) && unresolved
  end.
Definition check_tombstone_row (r : tombstone_row) : result unit :=
  raise_unless (is_int4 (ts_attempt_count r) && is_int8 (ts_version r)) (Exn PgNumericOutOfRange "integer out of range") ;;
  raise_unless (bool_decide (ts_object_kind r ∈ _OBJECT_KINDS) && fullmatch hex64_re (ts_storage_locator_sha256 r)
                && (0 <=? ts_attempt_count r) && (0 <=? ts_version r) && state_shape r && target_shape r)
    (Exn PgCheckViolation "new row violates check constraint").

(** The primary key and [UNIQUE (owner_id, object_kind, object_id)]. *)
Definition object_key (r : tombstone_row) : pystr * pystr * pystr := (ts_owner_id r, ts_object_kind r, ts_object_id r).
Definition tombstone_conflict (a b : tombstone_row) : bool :=
  bool_decide (ts_tombstone_id a = ts_tombstone_id b) || bool_decide (object_key a = object_key b).
End Constraints.
