(* ===== verification/Materialization.v ===== *)
(** * Materialization of attachments (repositories/artifacts.py)

    [MaterializationRepository]: a pending attachment is begun under a lease,
    renewed, staged and published to the blob store, and finalized; with the
    readers [AttachmentRepository] and [BlobMetadataRepository].  The blob
    store is the class [BlobStore]: its state changes outside transactions, so
    a rolled back publication leaves its bytes. *)

From S2P Require Import Prelude Regex Errors Domain Pg AuthoritySchema AuditDelivery BlobKeys ArtifactSchema.

(** ** Authorities of the blob store (blob_store.py) *)

(** [_positive_bound] with its default maximum. *)
Definition _positive_bound (value : Z) : result Z :=
  raise_unless ((1 <=? value) && (value <=? int8_max)) (Exn SQLContractError "max_bytes must be an integer in range") ;; Ok value.

(** [_SAFE_STAGING_ID] is the pattern of canonical identifiers. *)
Definition _normalized_staging_id (value : pystr) : result pystr :=
  raise_unless (fullmatch identifier_re value) (Exn SQLContractError "staging_id is not a canonical bounded identifier") ;; Ok value.

Record BlobPublishAuthority : Type := {
  pa_owner_id : pystr;
  pa_storage_key : pystr;
  pa_max_bytes : Z;
  pa_lease_id : pystr
}.

Record BlobPurgeAuthority : Type := {
  ga_owner_id : pystr;
  ga_target_scope : PurgeTargetScope;
  ga_storage_key : pystr
}.

Record BlobWriteResult : Type := { bw_storage_key : pystr; bw_size_bytes : Z; bw_sha256 : pystr }.
Record BlobDeleteResult : Type := { bd_deleted_files : Z; bd_deleted_directories : Z; bd_absent_verified : bool }.

Section Authorities.
Context `{PyText}.

Definition _create_blob_publish_authority (owner_id storage_key : pystr) (max_bytes : Z) (lease_id : pystr)
  : result BlobPublishAuthority :=
  owner ← validate_blob_owner_id owner_id;
  key ← validate_blob_storage_key storage_key;
  maximum ← _positive_bound max_bytes;
  lease ← _normalized_staging_id lease_id;
  Ok {| pa_owner_id := owner; pa_storage_key := key; pa_max_bytes := maximum; pa_lease_id := lease |}.

Definition _create_blob_purge_authority (owner_id : pystr) (target_scope : PurgeTargetScope) (storage_key : pystr)
  : result BlobPurgeAuthority :=
  owner ← validate_blob_owner_id owner_id;
  raise_if (bool_decide (target_scope = EXACT_KEY)) (Exn SQLContractError "blob purge authority scope is unsupported") ;;
  key ← if bool_decide (target_scope = ATTACHMENT_PREFIX) then validate_blob_storage_key storage_key
        else Ok (u "owner-namespace");
  Ok {| ga_owner_id := owner; ga_target_scope := target_scope; ga_storage_key := key |}.
End Authorities.

(** The operations of the store that the plane uses; a staged write carries
    the evidence that the store computed for it. *)
Class BlobStore (W : Type) : Type := {
  _begin_staged_materialization : BlobPublishAuthority -> W -> result unit * W;
  release_reservation : W -> W;
  _publish_staged_materialization : BlobWriteResult -> BlobPublishAuthority -> W -> result BlobWriteResult * W;
  _delete_for_purge : BlobPurgeAuthority -> W -> result (option BlobDeleteResult) * W;
  is_prefix_absent : pystr -> pystr -> W -> result bool;
  is_owner_absent : pystr -> W -> result bool
}.

(** ** Values *)

Definition _ATTACHMENT_CATEGORIES : list pystr :=
  [u "archive"; u "data"; u "document"; u "image"; u "medical"; u "presentation"; u "spreadsheet"; u "text"].
Definition _PENDING_CONTENT_TYPE : pystr := u "application/x-astralplane-pending-materialization".
Definition _PENDING_SHA256 : pystr := replicate 64 48%N.
Definition _MAX_MATERIALIZATION_LEASE_SECONDS : Z := 86400.

Record AttachmentRecord : Type := {
  ar_attachment_id : pystr;
  ar_owner_id : pystr;
  ar_filename : pystr;
  ar_content_type : pystr;
  ar_category : pystr;
  ar_extension : pystr;
  ar_size_bytes : Z;
  ar_sha256 : pystr;
  ar_storage_locator : pystr;
  ar_created_at : Z;
  ar_deleted_at : option Z
}.

Record PendingAttachmentMaterializationRecord : Type := {
  pm_attachment_id : pystr;
  pm_owner_id : pystr;
  pm_filename : pystr;
  pm_category : pystr;
  pm_extension : pystr;
  pm_storage_locator : pystr;
  pm_storage_key : pystr;
  pm_max_bytes : Z;
  pm_created_at : Z;
  pm_lease_id : pystr;
  pm_lease_version : Z;
  pm_lease_expires_at : datetime
}.

(** [AttachmentMaterializationBeginResult]: pending or ready metadata. *)
Inductive begin_result : Type :=
  | BeginPending (pending : PendingAttachmentMaterializationRecord)
  | BeginReady (ready : AttachmentRecord).

Record publish_fence : Type := {
  pf_owner_id : pystr;
  pf_attachment_id : pystr;
  pf_filename : pystr;
  pf_storage_key : pystr;
  pf_storage_locator : pystr;
  pf_max_bytes : Z;
  pf_lease_id : pystr;
  pf_lease_version : Z
}.

Record BlobMetadataRecord : Type := {
  bm_object_id : pystr;
  bm_owner_id : pystr;
  bm_storage_locator : pystr;
  bm_sha256 : pystr;
  bm_size_bytes : Z;
  bm_created_at : Z;
  bm_deleted_at : option Z
}.

(** ** Validators of repositories/__init__.py, on values of the right type *)

Definition _required_id (value : pystr) (field : string) (maximum : nat) : result pystr :=
  raise_if (bool_decide (py_strip value = [])) (Exn RepositoryValidationError (field ++ " must be a non-empty string")) ;;
  raise_if (maximum <? length value)%nat (Exn RepositoryValidationError (field ++ " exceeds its maximum length")) ;;
  Ok value.

Definition _bounded_text (value : pystr) (field : string) (maximum : nat) (allow_empty : bool) : result pystr :=
  raise_if (negb allow_empty && bool_decide (py_strip value = []))
    (Exn RepositoryValidationError (field ++ " must not be empty")) ;;
  raise_if (maximum <? length value)%nat (Exn RepositoryValidationError (field ++ " exceeds its maximum length")) ;;
  Ok value.

Definition _bounded_limit (limit : Z) (maximum : Z) : result Z :=
  raise_if ((limit <? 1) || (maximum <? limit)) (Exn RepositoryValidationError "limit is outside the supported range") ;; Ok limit.

Definition _non_negative_int (value : Z) (field : string) : result Z :=
  raise_if (value <? 0) (Exn RepositoryValidationError (field ++ " must be a non-negative integer")) ;; Ok value.

Definition _positive_int (value : Z) (field : string) : result Z :=
  integer ← _non_negative_int value field;
  raise_if (integer =? 0) (Exn RepositoryValidationError (field ++ " must be a positive integer")) ;; Ok integer.

(** ** Validators of artifacts.py *)

Definition _digest (value : pystr) : result pystr :=
  raise_unless (fullmatch hex64_re value) (Exn RepositoryValidationError "sha256 must be a lowercase SHA-256 digest") ;; Ok value.

Definition _lease_seconds (value : Z) : result Z :=
  raise_unless ((1 <=? value) && (value <=? _MAX_MATERIALIZATION_LEASE_SECONDS))
    (Exn RepositoryValidationError "lease_seconds must be an integer in [1, 86400]") ;; Ok value.

(** [_CANONICAL_LEASE_ID] *)
Definition _lease_id (value : pystr) : result pystr :=
  raise_unless (fullmatch identifier_re value)
    (Exn RepositoryValidationError "lease_id must be a canonical identifier of at most 128 characters") ;; Ok value.

(** [except SQLContractError as exc: raise RepositoryValidationError(...)] *)
Definition contract_to_validation {A} (message : string) (m : result A) : result A :=
  match m with
  | Ok a => Ok a
  | Err e => if isinstance (exn_cls e) SQLContractError then raise RepositoryValidationError message else Err e
  end.

Section Identity.
Context `{PyText}.

Definition _physical_attachment_id (value : pystr) : result pystr :=
  let message := "attachment_id must be one safe bounded storage component"%string in
  raise_unless (fullmatch blob_identifier_re value) (Exn RepositoryValidationError message) ;;
  normalized ← contract_to_validation message (validate_blob_storage_key value);
  raise_if (has_char 47 normalized) (Exn RepositoryValidationError message) ;;
  Ok normalized.

Definition _materialization_storage_key (value attachment_id filename : pystr) : result pystr :=
  normalized ← contract_to_validation "storage_key must be a safe owner-relative blob key" (validate_blob_storage_key value);
  raise_if (bool_decide (normalized <> attachment_id ++ slash ++ filename))
    (Exn RepositoryValidationError "storage_key must equal the exact attachment_id/filename identity") ;;
  Ok normalized.

Definition _materialization_physical_identity (owner_id attachment_id filename storage_locator storage_key : pystr)
  : result (pystr * pystr) :=
  '(normalized_filename, normalized_locator) ←
    contract_to_validation "attachment materialization has an invalid physical storage identity"
      (f ← validate_blob_storage_key filename; l ← validate_blob_storage_key storage_locator; Ok (f, l));
  raise_if (bool_decide (normalized_filename <> filename) || has_char 47 normalized_filename)
    (Exn RepositoryValidationError "filename must be one exact safe storage component") ;;
  normalized_key ← _materialization_storage_key storage_key attachment_id filename;
  raise_if (bool_decide (normalized_locator <> owner_id ++ slash ++ normalized_key))
    (Exn RepositoryValidationError "storage_locator must equal the exact owner_id/storage_key identity") ;;
  Ok (normalized_locator, normalized_key).

Definition _materialization_max_bytes (value : Z) : result Z :=
  maximum ← _positive_int value "max_bytes";
  raise_if (int8_max <? maximum) (Exn RepositoryValidationError "max_bytes exceeds PostgreSQL BIGINT capacity") ;;
  Ok maximum.
End Identity.

(** ** Rows *)

Definition _attachment (r : attachment_row) : AttachmentRecord :=
  {| ar_attachment_id := at_attachment_id r; ar_owner_id := at_user_id r; ar_filename := at_filename r;
     ar_content_type := at_content_type r; ar_category := at_category r; ar_extension := at_extension r;
     ar_size_bytes := at_size_bytes r; ar_sha256 := at_sha256 r; ar_storage_locator := at_storage_path r;
     ar_created_at := at_created_at r; ar_deleted_at := at_deleted_at r |}.

Definition _blob (r : attachment_row) : BlobMetadataRecord :=
  {| bm_object_id := at_attachment_id r; bm_owner_id := at_user_id r; bm_storage_locator := at_storage_path r;
     bm_sha256 := at_sha256 r; bm_size_bytes := at_size_bytes r; bm_created_at := at_created_at r;
     bm_deleted_at := at_deleted_at r |}.

(** [except (RepositoryValidationError, SQLContractError)] *)
Definition identity_to_data {A} (m : result A) : result A :=
  match m with
  | Ok a => Ok a
  | Err e =>
      if isinstance (exn_cls e) RepositoryValidationError || isinstance (exn_cls e) SQLContractError
      then raise RepositoryDataError "pending attachment has an invalid physical storage identity" else Err e
  end.

(** [int(value)] of a column that may be NULL. *)
Definition py_int (o : option Z) : result Z :=
  match o with Some z => Ok z | None => raise TypeError_ "int() argument must be a string or a real number, not 'NoneType'" end.
(** [str(value)] of a text column that may be NULL. *)
Definition py_str (o : option pystr) : pystr := default (u "None") o.

Section Rows.
Context `{PyText} `{PgEnv}.

Definition _pending_materialization (r : attachment_row) : result PendingAttachmentMaterializationRecord :=
  raise_if (bool_decide (at_state r <> MPENDING)) (Exn RepositoryDataError "attachment materialization is not pending") ;;
  raise_if (is_some (at_deleted_at r)) (Exn RepositoryDataError "pending attachment materialization is abandoned") ;;
  expires_at ← match at_lease_expires_at r with
               | Some t => Ok (from_timestamptz t)
               | None => raise RepositoryDataError "pending attachment lease expiry is not timezone-aware"
               end;
  '(owner_id, attachment_id, storage_locator, storage_key) ← identity_to_data
    (owner_id ← validate_blob_owner_id (at_user_id r);
     attachment_id ← _physical_attachment_id (at_attachment_id r);
     key ← match at_storage_key r with
           | Some k => Ok k
           | None => raise RepositoryValidationError "storage_key must be a safe owner-relative blob key"
           end;
     '(locator, key) ← _materialization_physical_identity owner_id attachment_id (at_filename r) (at_storage_path r) key;
     Ok (owner_id, attachment_id, locator, key));
  max_bytes ← py_int (at_max_bytes r);
  lease_version ← py_int (at_lease_version r);
  Ok {| pm_attachment_id := attachment_id; pm_owner_id := owner_id; pm_filename := at_filename r;
        pm_category := at_category r; pm_extension := at_extension r; pm_storage_locator := storage_locator;
        pm_storage_key := storage_key; pm_max_bytes := max_bytes; pm_created_at := at_created_at r;
        pm_lease_id := py_str (at_lease_id r); pm_lease_version := lease_version; pm_lease_expires_at := expires_at |}.
End Rows.

(** [_optional_returned] of the rows a command returned. *)
Definition _optional_returned {A} (rows : list A) : result (option A) :=
  match rows with
  | [] => Ok None
  | [r] => Ok (Some r)
  | _ => raise RepositoryDataError "write did not return exactly one detached record"
  end.

Definition microseconds (seconds : Z) : Z := seconds * 1000000.

(** The arguments of [begin_pending_materialization]. *)
Record begin_request : Type := {
  rq_attachment_id : pystr;
  rq_owner_id : pystr;
  rq_filename : pystr;
  rq_category : pystr;
  rq_extension : pystr;
  rq_storage_locator : pystr;
  rq_storage_key : pystr;
  rq_max_bytes : Z;
  rq_created_at : Z;
  rq_lease_id : pystr;
  rq_lease_seconds : Z
}.

Section Repository.
Context `{PyText} `{PgEnv} `{PgLower}.

(** ** Statements *)

Definition active_owner (owner_id : pystr) : owner_row :=
  {| ow_owner_id := owner_id; ow_state := OWNER_ACTIVE; ow_version := 0; ow_retired_at := None |}.
(** [INSERT ... ON CONFLICT DO NOTHING] *)
Definition ensure_owner (owner_id : pystr) (db : artifact_db) : result (unit * artifact_db) :=
  text_params [owner_id] ;;
  '(_, t) ← insert_do_nothing check_owner_row owner_conflict (fun _ => Ok ()) (active_owner owner_id) (ab_owners db);
  Ok ((), set_owners t db).

Definition select_owner (owner_id : pystr) (db : artifact_db) : option owner_row :=
  select_one "blob_owner" (fun r => bool_decide (ow_owner_id r = owner_id)) (ab_owners db).

Definition of_attachment (attachment_id owner_id : pystr) (r : attachment_row) : bool :=
  bool_decide (at_attachment_id r = attachment_id) && bool_decide (at_user_id r = owner_id).

Definition live_pending (r : attachment_row) : bool :=
  bool_decide (at_state r = MPENDING) && negb (is_some (at_deleted_at r)).

(** The lease fence shared by renewal, locking and finalization. *)
Definition lease_held (site : string) (ck : clock) (attachment_id owner_id lease_id : pystr) (version : Z) (r : attachment_row) : bool :=
  of_attachment attachment_id owner_id r && live_pending r
  && bool_decide (at_lease_id r = Some lease_id) && bool_decide (at_lease_version r = Some version)
  && not_null (fun t => clock_now ck site (at_attachment_id r) <? t) (at_lease_expires_at r).

Definition pending_row (q : begin_request) (locator key : pystr) (expires_at : Z) : attachment_row :=
  {| at_attachment_id := rq_attachment_id q; at_user_id := rq_owner_id q; at_filename := rq_filename q;
     at_content_type := _PENDING_CONTENT_TYPE; at_category := rq_category q; at_extension := rq_extension q;
     at_size_bytes := 0; at_sha256 := _PENDING_SHA256; at_storage_path := locator; at_created_at := rq_created_at q;
     at_deleted_at := None; at_state := MPENDING; at_lease_id := Some (rq_lease_id q); at_lease_version := Some 0;
     at_lease_expires_at := Some expires_at; at_max_bytes := Some (rq_max_bytes q); at_storage_key := Some key |}.

(** [INSERT ... ON CONFLICT (attachment_id) DO NOTHING RETURNING ...]; the other
    unique index raises. *)
Definition insert_pending (ck : clock) (q : begin_request) (locator key : pystr) (db : artifact_db)
  : result (list attachment_row * artifact_db) :=
  text_params [rq_attachment_id q; rq_owner_id q; rq_filename q; rq_category q; rq_extension q; locator; rq_lease_id q; key] ;;
  let r := pending_row q locator key (clock_now ck "begin" (rq_attachment_id q) + microseconds (rq_lease_seconds q)) in
  check_attachment_row r ;;
  if exists_row (fun r' => bool_decide (at_attachment_id r' = at_attachment_id r)) (ab_attachments db) then Ok ([], db)
  else if exists_row (attachment_conflict r) (ab_attachments db) then
    raise PgUniqueViolation "duplicate key value violates unique constraint"
  else Ok ([r], set_attachments (ab_attachments db ++ [r]) db).

Definition update_attachments (p : attachment_row -> bool) (f : attachment_row -> attachment_row) (db : artifact_db)
  : result (list attachment_row * artifact_db) :=
  '(rows, t) ← update_returning check_attachment_row attachment_conflict p f (ab_attachments db);
  Ok (rows, set_attachments t db).

Definition set_lease (version expires_at : option Z) (r : attachment_row) : attachment_row :=
  {| at_attachment_id := at_attachment_id r; at_user_id := at_user_id r; at_filename := at_filename r;
     at_content_type := at_content_type r; at_category := at_category r; at_extension := at_extension r;
     at_size_bytes := at_size_bytes r; at_sha256 := at_sha256 r; at_storage_path := at_storage_path r;
     at_created_at := at_created_at r; at_deleted_at := at_deleted_at r; at_state := at_state r;
     at_lease_id := at_lease_id r; at_lease_version := version; at_lease_expires_at := expires_at;
     at_max_bytes := at_max_bytes r; at_storage_key := at_storage_key r |}.
Definition next_version (r : attachment_row) : option Z := Z.succ <$> at_lease_version r.

Definition set_ready (content_type : pystr) (size : Z) (digest : pystr) (r : attachment_row) : attachment_row :=
  {| at_attachment_id := at_attachment_id r; at_user_id := at_user_id r; at_filename := at_filename r;
     at_content_type := content_type; at_category := at_category r; at_extension := at_extension r;
     at_size_bytes := size; at_sha256 := digest; at_storage_path := at_storage_path r;
     at_created_at := at_created_at r; at_deleted_at := at_deleted_at r; at_state := READY;
     at_lease_id := at_lease_id r; at_lease_version := next_version r; at_lease_expires_at := at_lease_expires_at r;
     at_max_bytes := at_max_bytes r; at_storage_key := at_storage_key r |}.

Definition _get_lifecycle (owner_id attachment_id : pystr) : SM artifact_db (option attachment_row) :=
  exec (fun db => text_params [attachment_id; owner_id] ;;
                  Ok (select_one "lifecycle" (of_attachment attachment_id owner_id) (ab_attachments db), db)).

(** ** Methods *)

Definition _lock_active_blob_owner (owner_id : pystr) : SM artifact_db unit :=
  exec (ensure_owner owner_id) ;;
  row ← query (select_owner owner_id);
  lift (raise_unless (match row with Some r => bool_decide (ow_state r = OWNER_ACTIVE) | None => false end)
    (Exn RepositoryConflictError "blob owner is retired and cannot publish attachments")).

Definition _raise_lifecycle_conflict {A} (existing : option attachment_row) : result A :=
  match existing with
  | None => raise RepositoryNotFoundError "pending attachment materialization was not found"
  | Some _ => raise RepositoryConflictError "pending attachment materialization lease changed, expired, or was abandoned"
  end.

(** The stored row is what the same request would have written. *)
Definition same_request (q : begin_request) (locator key : pystr) (r : attachment_row) : bool :=
  bool_decide (at_filename r = rq_filename q) && bool_decide (at_category r = rq_category q)
  && bool_decide (at_extension r = rq_extension q) && bool_decide (at_storage_path r = locator)
  && bool_decide (at_storage_key r = Some key) && bool_decide (at_max_bytes r = Some (rq_max_bytes q))
  && (at_created_at r =? rq_created_at q) && bool_decide (at_lease_id r = Some (rq_lease_id q))
  && negb (is_some (at_deleted_at r)).

Definition begin_pending_materialization (ck : clock) (q : begin_request) : SM artifact_db begin_result :=
  attachment_id ← lift (_physical_attachment_id (rq_attachment_id q));
  owner_id ← lift (validate_blob_owner_id (rq_owner_id q));
  filename ← lift (_bounded_text (rq_filename q) "filename" 1024 false);
  lift (raise_unless (bool_decide (rq_category q ∈ _ATTACHMENT_CATEGORIES))
    (Exn RepositoryValidationError "attachment category is unsupported")) ;;
  lift (_bounded_text (rq_extension q) "extension" 64 true) ;;
  storage_locator ← lift (_bounded_text (rq_storage_locator q) "storage_locator" 4096 false);
  '(locator, key) ← lift (_materialization_physical_identity owner_id attachment_id filename storage_locator (rq_storage_key q));
  lift (_materialization_max_bytes (rq_max_bytes q)) ;;
  lift (_non_negative_int (rq_created_at q) "created_at") ;;
  lift (_lease_id (rq_lease_id q)) ;;
  lift (_lease_seconds (rq_lease_seconds q)) ;;
  _lock_active_blob_owner owner_id ;;
  rows ← exec (insert_pending ck q locator key);
  row ← lift (_optional_returned rows);
  match row with
  | Some r => p ← lift (_pending_materialization r); mret (BeginPending p)
  | None =>
      existing ← _get_lifecycle owner_id attachment_id;
      match existing with
      | None => lift (raise RepositoryConflictError "materialization identity is owned by another namespace")
      | Some r =>
          lift (raise_unless (same_request q locator key r)
            (Exn RepositoryConflictError "pending materialization identity was reused with different semantics")) ;;
          match at_state r with
          | MPENDING => p ← lift (_pending_materialization r); mret (BeginPending p)
          | READY => mret (BeginReady (_attachment r))
          end
      end
  end.

Definition renew_pending_materialization (ck : clock) (owner_id attachment_id lease_id : pystr)
    (expected_lease_version lease_seconds : Z) : SM artifact_db PendingAttachmentMaterializationRecord :=
  owner_id ← lift (validate_blob_owner_id owner_id);
  attachment_id ← lift (_physical_attachment_id attachment_id);
  lease_id ← lift (_lease_id lease_id);
  expected ← lift (_non_negative_int expected_lease_version "expected_lease_version");
  duration ← lift (_lease_seconds lease_seconds);
  _lock_active_blob_owner owner_id ;;
  rows ← exec (update_attachments (lease_held "renew" ck attachment_id owner_id lease_id expected)
    (fun r => set_lease (next_version r) (Some (clock_now ck "renewed" (at_attachment_id r) + microseconds duration)) r));
  row ← lift (_optional_returned rows);
  match row with
  | Some r => lift (_pending_materialization r)
  | None =>
      existing ← _get_lifecycle owner_id attachment_id;
      match existing with
      | Some r =>
          if live_pending r && bool_decide (at_lease_id r = Some lease_id)
             && bool_decide (at_lease_version r = Some (expected + 1))
          then lift (_pending_materialization r) else lift (_raise_lifecycle_conflict existing)
      | None => lift (_raise_lifecycle_conflict existing)
      end
  end.

Definition finalized (fence : publish_fence) (locator key : pystr) (maximum : Z) (content_type : pystr) (size : Z) (digest : pystr)
    (r : attachment_row) : bool :=
  bool_decide (at_state r = READY) && negb (is_some (at_deleted_at r))
  && bool_decide (at_lease_id r = Some (pf_lease_id fence)) && bool_decide (at_lease_version r = Some (pf_lease_version fence + 1))
  && bool_decide (at_storage_path r = locator) && bool_decide (at_storage_key r = Some key)
  && bool_decide (at_max_bytes r = Some maximum) && bool_decide (at_content_type r = content_type)
  && (at_size_bytes r =? size) && bool_decide (at_sha256 r = digest).

Definition _finalize_pending_materialization (ck : clock) (fence : publish_fence) (content_type : pystr) (size_bytes : Z)
    (sha256 : pystr) : SM artifact_db AttachmentRecord :=
  owner_id ← lift (validate_blob_owner_id (pf_owner_id fence));
  attachment_id ← lift (_physical_attachment_id (pf_attachment_id fence));
  lease_id ← lift (_lease_id (pf_lease_id fence));
  expected ← lift (_non_negative_int (pf_lease_version fence) "lease_version");
  storage_locator ← lift (_bounded_text (pf_storage_locator fence) "storage_locator" 4096 false);
  '(locator, storage_key) ← lift (_materialization_physical_identity owner_id attachment_id (pf_filename fence) storage_locator
                                    (pf_storage_key fence));
  maximum ← lift (_materialization_max_bytes (pf_max_bytes fence));
  _lock_active_blob_owner owner_id ;;
  content_type ← lift (_bounded_text content_type "content_type" 255 false);
  lift (raise_if (bool_decide (content_type = _PENDING_CONTENT_TYPE)) (Exn RepositoryValidationError "final content_type is reserved")) ;;
  size ← lift (_non_negative_int size_bytes "size_bytes");
  digest ← lift (_digest sha256);
  lift (raise_if (bool_decide (digest = _PENDING_SHA256)) (Exn RepositoryValidationError "final sha256 is reserved")) ;;
  rows ← exec (fun db =>
    text_params [content_type; locator; storage_key] ;;
    update_attachments (fun r =>
      lease_held "finalize" ck attachment_id owner_id lease_id expected r
      && bool_decide (at_storage_path r = locator) && bool_decide (at_storage_key r = Some storage_key)
      && bool_decide (at_max_bytes r = Some maximum) && not_null (fun m => size <=? m) (at_max_bytes r))
      (set_ready content_type size digest) db);
  row ← lift (_optional_returned rows);
  match row with
  | Some r => mret (_attachment r)
  | None =>
      existing ← _get_lifecycle owner_id attachment_id;
      match existing with
      | Some r =>
          if finalized fence locator storage_key maximum content_type size digest r then mret (_attachment r)
          else lift (_raise_lifecycle_conflict existing)
      | None => lift (_raise_lifecycle_conflict existing)
      end
  end.

Definition _lock_pending_materialization_for_publish (ck : clock) (owner_id attachment_id lease_id : pystr)
    (expected_lease_version : Z) : SM artifact_db publish_fence :=
  owner_id ← lift (validate_blob_owner_id owner_id);
  attachment_id ← lift (_physical_attachment_id attachment_id);
  lease_id ← lift (_lease_id lease_id);
  expected ← lift (_non_negative_int expected_lease_version "expected_lease_version");
  _lock_active_blob_owner owner_id ;;
  row ← query (fun db => select_one "lock_pending" (lease_held "lock" ck attachment_id owner_id lease_id expected) (ab_attachments db));
  match row with
  | None => existing ← _get_lifecycle owner_id attachment_id; lift (_raise_lifecycle_conflict existing)
  | Some r =>
      pending ← lift (_pending_materialization r);
      mret {| pf_owner_id := pm_owner_id pending; pf_attachment_id := pm_attachment_id pending;
              pf_filename := pm_filename pending; pf_storage_key := pm_storage_key pending;
              pf_storage_locator := pm_storage_locator pending; pf_max_bytes := pm_max_bytes pending;
              pf_lease_id := pm_lease_id pending; pf_lease_version := pm_lease_version pending |}
  end.

(** ** With the blob store *)

Section Store.
Context {W : Type} `{BlobStore W}.

(** A method that runs a session and acts on the store. *)
Definition store_run (A : Type) : Type := session artifact_db -> W -> result A * session artifact_db * W.
Definition in_session {A} (m : SM artifact_db A) : store_run A := fun s w => let '(r, s') := m s in (r, s', w).
Definition on_store {A} (f : W -> result A * W) : store_run A := fun s w => let '(r, w') := f w in (r, s, w').
#[global] Instance store_run_mret : MRet store_run := fun _ a s w => (Ok a, s, w).
#[global] Instance store_run_mbind : MBind store_run := fun _ _ f m s w =>
  match m s w with
  | (Ok a, s', w') => f a s' w'
  | (Err e, s', w') => (Err e, s', w')
  end.

Definition fence_authority (fence : publish_fence) : result BlobPublishAuthority :=
  _create_blob_publish_authority (pf_owner_id fence) (pf_storage_key fence) (pf_max_bytes fence) (pf_lease_id fence).

Definition publish_pending_materialization (ck : clock) (staged : BlobWriteResult) (owner_id attachment_id lease_id : pystr)
    (expected_lease_version : Z) (content_type : pystr) : store_run AttachmentRecord :=
  fence ← in_session (
    owner_id ← lift (validate_blob_owner_id owner_id);
    attachment_id ← lift (_physical_attachment_id attachment_id);
    lease_id ← lift (_lease_id lease_id);
    expected ← lift (_non_negative_int expected_lease_version "expected_lease_version");
    content_type ← lift (_bounded_text content_type "content_type" 255 false);
    lift (raise_if (bool_decide (content_type = _PENDING_CONTENT_TYPE)) (Exn RepositoryValidationError "final content_type is reserved")) ;;
    lift (_non_negative_int (bw_size_bytes staged) "size_bytes") ;;
    lift (_digest (bw_sha256 staged)) ;;
    _lock_pending_materialization_for_publish ck owner_id attachment_id lease_id expected);
  authority ← in_session (lift (
    raise_if (pf_max_bytes fence <? bw_size_bytes staged)
      (Exn RepositoryValidationError "staged materialization exceeds its durable maximum") ;;
    fence_authority fence));
  written ← on_store (_publish_staged_materialization staged authority);
  in_session (_finalize_pending_materialization ck fence content_type (bw_size_bytes written) (bw_sha256 written)).

(** [except BaseException: reservation.release(); raise] *)
Definition open_pending_materialization_staging (ck : clock) (owner_id attachment_id lease_id : pystr)
    (expected_lease_version : Z) : store_run unit := fun s w =>
  match (fence ← in_session (_lock_pending_materialization_for_publish ck owner_id attachment_id lease_id expected_lease_version);
         authority ← in_session (lift (fence_authority fence));
         on_store (_begin_staged_materialization authority)) s w with
  | (Ok a, s', w') => (Ok a, s', w')
  | (Err e, s', w') => (Err e, s', release_reservation w')
  end.

(** [with database.transaction() as transaction:] around such a method: the
    tables are rolled back, the store is not. *)
Definition store_transaction {A} (body : store_run A) (db : artifact_db) (w : W) : result A * artifact_db * W :=
  match body (Session db false) w with
  | (Ok a, s', w') =>
      if s_failed s' then
        (raise TransactionStateError "transaction rolled back after a handled command failure", db, w')
      else (Ok a, s_db s', w')
  | (Err e, _, w') => (Err e, db, w')
  end.
End Store.

(** ** Readers *)

Definition attachment_get (owner_id attachment_id : pystr) (include_deleted : bool) : SM artifact_db (option AttachmentRecord) :=
  owner_id ← lift (_required_id owner_id "owner_id" 512);
  attachment_id ← lift (_required_id attachment_id "attachment_id" 512);
  row ← exec (fun db => text_params [attachment_id; owner_id] ;;
    Ok (select_one "attachment_get" (fun r => of_attachment attachment_id owner_id r && bool_decide (at_state r = READY)
                                       && (include_deleted || negb (is_some (at_deleted_at r)))) (ab_attachments db), db));
  mret (_attachment <$> row).

(** [ORDER BY created_at DESC, attachment_id DESC] *)
Definition live_le (a b : attachment_row) : bool :=
  time_key_leb at_created_at (fun a b => collate (at_attachment_id a) (at_attachment_id b)) b a.

Definition list_live (owner_id : pystr) (category : option pystr) (limit : Z) (before_created_at : option Z)
    (before_attachment_id : option pystr) : SM artifact_db (list AttachmentRecord) :=
  owner_id ← lift (_required_id owner_id "owner_id" 512);
  limit ← lift (_bounded_limit limit 200);
  lift (raise_if (negb (Bool.eqb (is_some before_created_at) (is_some before_attachment_id)))
    (Exn RepositoryValidationError "attachment cursor time and identity must be supplied together")) ;;
  lift (raise_unless (nullable (fun c => bool_decide (c ∈ _ATTACHMENT_CATEGORIES)) category)
    (Exn RepositoryValidationError "attachment category is unsupported")) ;;
  cursor ← lift (match before_created_at, before_attachment_id with
                 | Some t, Some i =>
                     t ← _non_negative_int t "before_created_at";
                     i ← _required_id i "before_attachment_id" 512;
                     Ok (Some (t, i))
                 | _, _ => Ok None
                 end);
  rows ← exec (fun db =>
    text_params (owner_id :: omap id [category; snd <$> cursor]) ;;
    Ok (take (Z.to_nat limit) (select_ordered "attachments_live" live_le (fun r =>
          bool_decide (at_user_id r = owner_id) && bool_decide (at_state r = READY) && negb (is_some (at_deleted_at r))
          && nullable (fun c => bool_decide (at_category r = c)) category
          && nullable (fun '(t, i) => (at_created_at r <? t) || ((at_created_at r =? t) && negb (collate i (at_attachment_id r)))) cursor)
          (ab_attachments db)), db));
  mret (_attachment <$> rows).

Definition blob_metadata_get (owner_id object_id : pystr) (include_deleted : bool) : SM artifact_db (option BlobMetadataRecord) :=
  owner_id ← lift (_required_id owner_id "owner_id" 512);
  object_id ← lift (_required_id object_id "object_id" 512);
  row ← exec (fun db => text_params [object_id; owner_id] ;;
    Ok (select_one "blob_metadata_get" (fun r => of_attachment object_id owner_id r && bool_decide (at_state r = READY)
                                          && (include_deleted || negb (is_some (at_deleted_at r)))) (ab_attachments db), db));
  mret (_blob <$> row).
End Repository.
