(* ===== verification/Purge.v ===== *)
(** * Purging attachments (src/src/astralplane/purge.py)

    Tombstones that schedule the physical destruction of an attachment's blobs
    or of an owner's namespace ([PostgresPurgeStore]), and the executor that
    deletes the blobs, verifies their absence and records the outcome
    ([DurablePurgeExecutor]). *)

From S2P Require Import Prelude Regex Errors Domain Sha256 Json Pg AuthoritySchema AuditDelivery BlobKeys ArtifactSchema Materialization.

(** ** Validators *)

(** [^[A-Za-z0-9][A-Za-z0-9._:@-]{0,254}$] *)
Definition identifier_char (c : N) : bool := is_alnum c || one_of "._:@-" c.
Definition _SAFE_IDENTIFIER : regex := RSeq (RChar is_alnum) (RRep 0 254 identifier_char).
(** [^[a-z][a-z0-9_.-]{0,63}$] *)
Definition error_char (c : N) : bool := is_lower c || is_digit c || one_of "_.-" c.
Definition _SAFE_ERROR_CODE : regex := RSeq (RChar is_lower) (RRep 0 63 error_char).
Definition _OWNER_NAMESPACE_SELECTOR : pystr := u "owner-namespace".
Definition _MAX_RECOVERY_BATCH : Z := 1000.

Record PurgeTombstone : Type := {
  pt_tombstone_id : pystr;
  pt_owner_id : pystr;
  pt_object_kind : pystr;
  pt_object_id : pystr;
  pt_storage_key : pystr;
  pt_storage_locator_sha256 : pystr;
  pt_requested_at : datetime;
  pt_target_scope : PurgeTargetScope;
  pt_status : PurgeStatus;
  pt_attempt_count : Z;
  pt_version : Z;
  pt_available_at : option datetime;
  pt_verified_absent_at : option datetime;
  pt_evidence : option pystr;
  pt_resolved_at : option datetime;
  pt_last_error_code : option pystr
}.

Record PurgeScheduleResult : Type := {
  sc_tombstone : PurgeTombstone;
  sc_tombstone_created : bool;
  sc_metadata_rows_soft_deleted : Z
}.

Inductive PurgeAttemptState : Type := ATTEMPT_PURGED | ATTEMPT_ALREADY_PURGED | ATTEMPT_FAILED.
#[global] Instance PurgeAttemptState_eq_dec : EqDecision PurgeAttemptState.
Proof. solve_decision. Defined.

Record PurgeAttemptResult : Type := {
  pr_state : PurgeAttemptState;
  pr_tombstone_id : pystr;
  pr_attempt : Z;
  pr_error_code : option pystr
}.

Definition _bounded_identifier (value : pystr) (name : string) : result pystr :=
  raise_unless (fullmatch _SAFE_IDENTIFIER value) (Exn SQLContractError (name ++ " is not a valid bounded identifier")) ;; Ok value.

Definition _bounded_legacy_owner_id (value : pystr) : result pystr :=
  raise_unless (fullmatch _SAFE_IDENTIFIER value)
    (Exn SQLContractError "legacy owner_id is not a bounded predecessor identifier") ;; Ok value.

Definition _bounded_legacy_storage_key (value : pystr) : result pystr :=
  raise_if (bool_decide (value = []) || (4096 <? length value)%nat || has_char 0 value)
    (Exn SQLContractError "legacy storage key is not a bounded predecessor locator") ;; Ok value.

Definition _bounded_recovery_limit (value : Z) : result Z :=
  raise_unless ((1 <=? value) && (value <=? _MAX_RECOVERY_BATCH))
    (Exn SQLContractError "limit must be an integer in [1, 1000]") ;; Ok value.

Definition _deleted_at (value : Z) : result Z :=
  raise_if (value <? 0) (Exn SQLContractError "deleted_at must be a non-negative integer") ;; Ok value.

Definition _lowercase_digest (value : pystr) (name : string) : result pystr :=
  raise_unless (fullmatch hex64_re value) (Exn SQLContractError (name ++ " must be a lowercase SHA-256 digest")) ;; Ok value.

Definition sha256_text (s : pystr) : result pystr := bytes ← utf8_encode s; Ok (sha256_hex bytes).

Definition _owner_namespace_object_id (owner_id : pystr) : result pystr :=
  digest ← sha256_text owner_id; Ok (u "owner-namespace:" ++ digest).

Definition nul : pystr := [0%N].
Definition _scheduled_tombstone_id (scope : PurgeTargetScope) (owner_id object_id : pystr) : result pystr :=
  digest ← sha256_text (PurgeTargetScope_value scope ++ nul ++ owner_id ++ nul ++ object_id);
  Ok (u "purge-" ++ PurgeTargetScope_value scope ++ u "-" ++ digest).

Definition _utc (value : datetime) (name : string) : result datetime :=
  match value with
  | Naive _ => raise SQLContractError (name ++ " must be timezone-aware")
  | Aware wall off => Ok (utc (wall - off))
  end.
Definition opt_utc (value : option datetime) (name : string) : result (option datetime) :=
  match value with None => Ok None | Some t => t ← _utc t name; Ok (Some t) end.

Section Tombstones.
Context `{PyText}.

Definition storage_locator_sha256 (owner_id key : pystr) : result pystr :=
  owner ← validate_blob_owner_id owner_id;
  normalized ← validate_blob_storage_key key;
  sha256_text (owner ++ nul ++ normalized).

(** The identity a typed tombstone must have. *)
Definition check_typed_identity (t : PurgeTombstone) (tombstone_id owner_id object_id storage_key : pystr) : result unit :=
  match pt_target_scope t with
  | ATTACHMENT_PREFIX =>
      expected_id ← _scheduled_tombstone_id ATTACHMENT_PREFIX owner_id object_id;
      raise_if (bool_decide (pt_object_kind t <> u "attachment") || bool_decide (storage_key <> object_id)
                || bool_decide (tombstone_id <> expected_id))
        (Exn SQLContractError "attachment-prefix tombstone does not match its typed deletion identity")
  | OWNER_NAMESPACE =>
      expected_object_id ← _owner_namespace_object_id owner_id;
      expected_id ← _scheduled_tombstone_id OWNER_NAMESPACE owner_id expected_object_id;
      raise_if (bool_decide (pt_object_kind t <> u "attachment") || bool_decide (object_id <> expected_object_id)
                || bool_decide (storage_key <> _OWNER_NAMESPACE_SELECTOR) || bool_decide (tombstone_id <> expected_id))
        (Exn SQLContractError "owner-namespace tombstone does not match its typed deletion identity")
  | EXACT_KEY =>
      raise_unless (bool_decide (pt_status t ∈ [MANUAL_REVIEW; PURGED]))
        (Exn SQLContractError "legacy exact-key tombstones must be in manual review or operator-resolved")
  end.

Definition check_locator (t : PurgeTombstone) (owner_id storage_key : pystr) : result pystr :=
  match pt_target_scope t with
  | EXACT_KEY =>
      raise_unless (fullmatch hex64_re (pt_storage_locator_sha256 t))
        (Exn SQLContractError "legacy storage locator digest is invalid") ;;
      Ok (pt_storage_locator_sha256 t)
  | _ =>
      expected_digest ← storage_locator_sha256 owner_id storage_key;
      raise_if (bool_decide (pt_storage_locator_sha256 t <> expected_digest))
        (Exn SQLContractError "storage locator does not match its SHA-256 digest") ;;
      Ok expected_digest
  end.

Definition check_resolution_evidence (t : PurgeTombstone) : result unit :=
  let has_digest := is_some (pt_evidence t) in
  let has_time := is_some (pt_resolved_at t) in
  match pt_target_scope t with
  | EXACT_KEY =>
      if bool_decide (pt_status t = PURGED) then
        raise_if (negb has_digest || negb has_time)
          (Exn SQLContractError "operator-resolved exact tombstones require durable resolution evidence")
      else raise_if (has_digest || has_time) (Exn SQLContractError "manual-review tombstones cannot claim resolution evidence")
  | _ => raise_if (has_digest || has_time) (Exn SQLContractError "typed purge tombstones cannot carry manual resolution evidence")
  end.

Definition _validate_tombstone (t : PurgeTombstone) : result PurgeTombstone :=
  tombstone_id ← _bounded_identifier (pt_tombstone_id t) "tombstone_id";
  object_id ← _bounded_identifier (pt_object_id t) "object_id";
  raise_unless (bool_decide (pt_object_kind t ∈ _OBJECT_KINDS))
    (Exn SQLContractError "object_kind is not a supported durable object kind") ;;
  '(owner_id, storage_key) ←
    (if bool_decide (pt_target_scope t = EXACT_KEY) then
       owner ← _bounded_legacy_owner_id (pt_owner_id t); key ← _bounded_legacy_storage_key (pt_storage_key t); Ok (owner, key)
     else owner ← validate_blob_owner_id (pt_owner_id t); key ← validate_blob_storage_key (pt_storage_key t); Ok (owner, key));
  check_typed_identity t tombstone_id owner_id object_id storage_key ;;
  expected_digest ← check_locator t owner_id storage_key;
  raise_if (pt_attempt_count t <? 0) (Exn SQLContractError "attempt_count must be a non-negative integer") ;;
  raise_if (pt_version t <? 0) (Exn SQLContractError "version must be a non-negative integer") ;;
  available_at ← _utc (default (pt_requested_at t) (pt_available_at t)) "available_at";
  verified_absent_at ← opt_utc (pt_verified_absent_at t) "verified_absent_at";
  raise_unless (nullable (fullmatch hex64_re) (pt_evidence t))
    (Exn SQLContractError "manual resolution evidence must be a lowercase SHA-256 digest") ;;
  manual_resolved_at ← opt_utc (pt_resolved_at t) "manual_resolved_at";
  raise_if (bool_decide (pt_status t = PURGED) && negb (is_some verified_absent_at))
    (Exn SQLContractError "purged tombstones require verified_absent_at") ;;
  raise_if (bool_decide (pt_status t <> PURGED) && is_some verified_absent_at)
    (Exn SQLContractError "incomplete tombstones cannot claim verified absence") ;;
  check_resolution_evidence t ;;
  raise_unless (nullable (fullmatch _SAFE_ERROR_CODE) (pt_last_error_code t))
    (Exn SQLContractError "last_error_code is not a safe bounded code") ;;
  requested_at ← _utc (pt_requested_at t) "requested_at";
  Ok {| pt_tombstone_id := tombstone_id; pt_owner_id := owner_id; pt_object_kind := pt_object_kind t;
        pt_object_id := object_id; pt_storage_key := storage_key; pt_storage_locator_sha256 := expected_digest;
        pt_requested_at := requested_at; pt_target_scope := pt_target_scope t; pt_status := pt_status t;
        pt_attempt_count := pt_attempt_count t; pt_version := pt_version t; pt_available_at := Some available_at;
        pt_verified_absent_at := verified_absent_at; pt_evidence := pt_evidence t; pt_resolved_at := manual_resolved_at;
        pt_last_error_code := pt_last_error_code t |}.

(** The record of a row; timestamps are aware, so [_record_datetime] returns. *)
Definition _from_record `{PgEnv} (r : tombstone_row) : result PurgeTombstone :=
  let time t := utc (instant (from_timestamptz t)) in
  _validate_tombstone
    {| pt_tombstone_id := ts_tombstone_id r; pt_owner_id := ts_owner_id r; pt_object_kind := ts_object_kind r;
       pt_object_id := ts_object_id r; pt_storage_key := ts_storage_key r;
       pt_storage_locator_sha256 := ts_storage_locator_sha256 r; pt_requested_at := time (ts_requested_at r);
       pt_target_scope := ts_target_scope r; pt_status := ts_status r; pt_attempt_count := ts_attempt_count r;
       pt_version := ts_version r; pt_available_at := Some (time (ts_available_at r));
       pt_verified_absent_at := time <$> ts_verified_absent_at r; pt_evidence := ts_evidence r;
       pt_resolved_at := time <$> ts_resolved_at r; pt_last_error_code := ts_last_error_code r |}.

Definition _scheduled_tombstone (scope : PurgeTargetScope) (owner_id object_id storage_key : pystr) (requested_at : datetime)
  : result PurgeTombstone :=
  tombstone_id ← _scheduled_tombstone_id scope owner_id object_id;
  locator ← storage_locator_sha256 owner_id storage_key;
  Ok {| pt_tombstone_id := tombstone_id; pt_owner_id := owner_id; pt_object_kind := u "attachment"; pt_object_id := object_id;
        pt_storage_key := storage_key; pt_storage_locator_sha256 := locator; pt_requested_at := requested_at;
        pt_target_scope := scope; pt_status := PENDING; pt_attempt_count := 0; pt_version := 0;
        pt_available_at := Some requested_at; pt_verified_absent_at := None; pt_evidence := None; pt_resolved_at := None;
        pt_last_error_code := None |}.

Definition _require_scheduled_target (t : PurgeTombstone) (scope : PurgeTargetScope) (storage_key : pystr) : result unit :=
  raise_if (bool_decide (pt_target_scope t <> scope) || bool_decide (pt_storage_key t <> storage_key))
    (Exn PlaneError "purge owner object already represents different work").
End Tombstones.

(** ** Statements *)

Section Store.
Context `{PyText} `{PgEnv} `{PgLower}.

Definition enqueued (t : PurgeTombstone) : tombstone_row :=
  {| ts_tombstone_id := pt_tombstone_id t; ts_owner_id := pt_owner_id t; ts_object_kind := pt_object_kind t;
     ts_object_id := pt_object_id t; ts_storage_key := pt_storage_key t; ts_target_scope := pt_target_scope t;
     ts_storage_locator_sha256 := pt_storage_locator_sha256 t; ts_requested_at := instant (pt_requested_at t);
     ts_status := PENDING; ts_attempt_count := 0; ts_version := 0;
     ts_available_at := instant (default (pt_requested_at t) (pt_available_at t)); ts_verified_absent_at := None;
     ts_evidence := None; ts_resolved_at := None; ts_last_error_code := None |}.

(** The row count of [_ENQUEUE_SQL]. *)
Definition _ENQUEUE_SQL (t : PurgeTombstone) (db : artifact_db) : result (Z * artifact_db) :=
  '(row, ts) ← insert_do_nothing check_tombstone_row tombstone_conflict (fun _ => Ok ()) (enqueued t) (ab_tombstones db);
  Ok (if is_some row then 1 else 0, set_tombstones ts db).

Definition of_tombstone (owner_id tombstone_id : pystr) (r : tombstone_row) : bool :=
  bool_decide (ts_owner_id r = owner_id) && bool_decide (ts_tombstone_id r = tombstone_id).

Definition _LOAD_SQL (owner_id tombstone_id : pystr) (db : artifact_db) : option tombstone_row :=
  select_one "purge_load" (of_tombstone owner_id tombstone_id) (ab_tombstones db).
Definition _LOAD_BY_OBJECT_SQL (owner_id object_kind object_id : pystr) (db : artifact_db) : option tombstone_row :=
  select_one "purge_load_by_object" (fun r => bool_decide (object_key r = (owner_id, object_kind, object_id))) (ab_tombstones db).
Definition _LOAD_LEGACY_FOR_ADMINISTRATION_SQL (tombstone_id : pystr) (db : artifact_db) : option tombstone_row :=
  select_one "purge_load_legacy" (fun r => bool_decide (ts_tombstone_id r = tombstone_id)
                                           && bool_decide (ts_target_scope r = EXACT_KEY)) (ab_tombstones db).

Definition requested_le : tombstone_row -> tombstone_row -> bool :=
  time_key_leb ts_requested_at (fun a b => collate (ts_tombstone_id a) (ts_tombstone_id b)).
Definition _LIST_INCOMPLETE_SQL (owner_id : pystr) (db : artifact_db) : list tombstone_row :=
  select_ordered "purge_incomplete" requested_le (fun r => bool_decide (ts_owner_id r = owner_id)
                                                          && bool_decide (ts_status r <> PURGED)) (ab_tombstones db).

Definition open_status (r : tombstone_row) : bool := bool_decide (ts_status r ∈ [PENDING; FAILED]).
(** The statement does not select the columns of a manual resolution. *)
Definition without_resolution (r : tombstone_row) : tombstone_row :=
  {| ts_tombstone_id := ts_tombstone_id r; ts_owner_id := ts_owner_id r; ts_object_kind := ts_object_kind r;
     ts_object_id := ts_object_id r; ts_storage_key := ts_storage_key r; ts_target_scope := ts_target_scope r;
     ts_storage_locator_sha256 := ts_storage_locator_sha256 r; ts_requested_at := ts_requested_at r; ts_status := ts_status r;
     ts_attempt_count := ts_attempt_count r; ts_version := ts_version r; ts_available_at := ts_available_at r;
     ts_verified_absent_at := ts_verified_absent_at r; ts_evidence := None; ts_resolved_at := None;
     ts_last_error_code := ts_last_error_code r |}.
Definition ready_le : tombstone_row -> tombstone_row -> bool := time_key_leb ts_available_at requested_le.
Definition _LIST_READY_FOR_ADMINISTRATION_SQL (observed_at limit : Z) (db : artifact_db) : list tombstone_row :=
  without_resolution <$> take (Z.to_nat limit)
    (select_ordered "purge_ready" ready_le (fun r => open_status r && (ts_available_at r <=? observed_at)) (ab_tombstones db)).

Definition expired_pending (site : string) (ck : clock) (r : attachment_row) : bool :=
  live_pending r && not_null (fun t => t <=? clock_now ck site (at_attachment_id r)) (at_lease_expires_at r).

Definition _HAS_EXPIRED_PENDING_SQL (ck : clock) (db : artifact_db) : bool :=
  exists_row (expired_pending "has_expired" ck) (ab_attachments db).
Definition _HAS_INCOMPLETE_SQL (ck : clock) (db : artifact_db) : bool :=
  exists_row (fun r => bool_decide (ts_status r <> PURGED)) (ab_tombstones db)
  || exists_row (expired_pending "has_incomplete" ck) (ab_attachments db).

Definition retired (requested_at : Z) (r : owner_row) : owner_row :=
  {| ow_owner_id := ow_owner_id r; ow_state := OWNER_RETIRED;
     ow_version := match ow_state r with OWNER_ACTIVE => ow_version r + 1 | OWNER_RETIRED => ow_version r end;
     ow_retired_at := Some (default requested_at (ow_retired_at r)) |}.
(** The returned states of [_RETIRE_BLOB_OWNER_SQL]. *)
Definition _RETIRE_BLOB_OWNER_SQL (requested_at : Z) (owner_id : pystr) (db : artifact_db)
  : result (list owner_state * artifact_db) :=
  '(rows, t) ← update_returning check_owner_row owner_conflict (fun r => bool_decide (ow_owner_id r = owner_id))
                 (retired requested_at) (ab_owners db);
  Ok (map ow_state rows, set_owners t db).

Definition set_deleted (deleted_at : Z) (version : option Z) (r : attachment_row) : attachment_row :=
  {| at_attachment_id := at_attachment_id r; at_user_id := at_user_id r; at_filename := at_filename r;
     at_content_type := at_content_type r; at_category := at_category r; at_extension := at_extension r;
     at_size_bytes := at_size_bytes r; at_sha256 := at_sha256 r; at_storage_path := at_storage_path r;
     at_created_at := at_created_at r; at_deleted_at := Some deleted_at; at_state := at_state r;
     at_lease_id := at_lease_id r; at_lease_version := version; at_lease_expires_at := at_lease_expires_at r;
     at_max_bytes := at_max_bytes r; at_storage_key := at_storage_key r |}.

Definition _ABANDON_PENDING_MATERIALIZATION_SQL (deleted_at : Z) (attachment_id owner_id lease_id : pystr) (version : Z) :=
  update_attachments (fun r => of_attachment attachment_id owner_id r && live_pending r
                               && bool_decide (at_lease_id r = Some lease_id) && bool_decide (at_lease_version r = Some version))
    (fun r => set_deleted deleted_at (next_version r) r).

(** [ORDER BY materialization_lease_expires_at, attachment_id] *)
Definition expiry_le : attachment_row -> attachment_row -> bool :=
  time_key_leb (fun r => default 0 (at_lease_expires_at r)) (fun a b => collate (at_attachment_id a) (at_attachment_id b)).
(** [FLOOR(EXTRACT(EPOCH FROM statement_timestamp()) * 1000)] *)
Definition epoch_milliseconds (ck : clock) : Z := statement_timestamp ck / 1000.
Definition _CLAIM_EXPIRED_PENDING_MATERIALIZATIONS_SQL (ck : clock) (limit : Z) (db : artifact_db)
  : result (list attachment_row * artifact_db) :=
  let candidates := select_skip_locked "claim_expired" expiry_le (expired_pending "claim_expired" ck) limit (ab_attachments db) in
  '(rows, db') ← update_attachments
    (fun r => bool_decide ((at_attachment_id r, at_user_id r) ∈ ((fun c => (at_attachment_id c, at_user_id c)) <$> candidates)))
    (fun r => set_deleted (epoch_milliseconds ck) (next_version r) r) db;
  Ok (scan "claim_expired_returning" _ rows, db').

Definition _LOAD_MATERIALIZATION_LIFECYCLE_SQL (attachment_id owner_id : pystr) (db : artifact_db) : option attachment_row :=
  select_one "materialization_lifecycle" (of_attachment attachment_id owner_id) (ab_attachments db).

(** The [SET] of a transition of a tombstone. *)
Definition set_status (status : PurgeStatus) (attempts : Z) (available_at : Z) (verified : option Z) (evidence : option pystr)
    (resolved : option Z) (error : option pystr) (r : tombstone_row) : tombstone_row :=
  {| ts_tombstone_id := ts_tombstone_id r; ts_owner_id := ts_owner_id r; ts_object_kind := ts_object_kind r;
     ts_object_id := ts_object_id r; ts_storage_key := ts_storage_key r; ts_target_scope := ts_target_scope r;
     ts_storage_locator_sha256 := ts_storage_locator_sha256 r; ts_requested_at := ts_requested_at r; ts_status := status;
     ts_attempt_count := attempts; ts_version := ts_version r + 1; ts_available_at := available_at;
     ts_verified_absent_at := verified; ts_evidence := evidence; ts_resolved_at := resolved; ts_last_error_code := error |}.

(** The row count of an [UPDATE] of tombstones. *)
Definition update_tombstones (p : tombstone_row -> bool) (f : tombstone_row -> tombstone_row) (db : artifact_db)
  : result (Z * artifact_db) :=
  '(rows, t) ← update_returning check_tombstone_row tombstone_conflict p f (ab_tombstones db);
  Ok (Z.of_nat (length rows), set_tombstones t db).

Definition purge_fenced (owner_id tombstone_id : pystr) (version : Z) (r : tombstone_row) : bool :=
  of_tombstone owner_id tombstone_id r && (ts_version r =? version) && open_status r.

Definition _MARK_PURGED_SQL (verified_absent_at : Z) (owner_id tombstone_id locator : pystr) (version : Z) :=
  update_tombstones (fun r => purge_fenced owner_id tombstone_id version r && bool_decide (ts_storage_locator_sha256 r = locator))
    (fun r => set_status PURGED (ts_attempt_count r + 1) verified_absent_at (Some verified_absent_at) (ts_evidence r)
                (ts_resolved_at r) None r).
Definition _MARK_FAILED_SQL (available_at : Z) (error_code owner_id tombstone_id : pystr) (version : Z) :=
  update_tombstones (purge_fenced owner_id tombstone_id version)
    (fun r => set_status FAILED (ts_attempt_count r + 1) available_at None (ts_evidence r) (ts_resolved_at r) (Some error_code) r).
Definition _MARK_MANUAL_REVIEW_SQL (error_code owner_id tombstone_id : pystr) (version : Z) :=
  update_tombstones (purge_fenced owner_id tombstone_id version)
    (fun r => set_status MANUAL_REVIEW (ts_attempt_count r) (ts_available_at r) (ts_verified_absent_at r) (ts_evidence r)
                (ts_resolved_at r) (Some error_code) r).
Definition _RESOLVE_LEGACY_EXACT_SQL (verified_absent_at : Z) (evidence owner_id tombstone_id locator : pystr) (version : Z) :=
  update_tombstones (fun r => of_tombstone owner_id tombstone_id r && (ts_version r =? version)
                              && bool_decide (ts_storage_locator_sha256 r = locator) && bool_decide (ts_target_scope r = EXACT_KEY)
                              && bool_decide (ts_status r = MANUAL_REVIEW))
    (fun r => set_status PURGED (ts_attempt_count r + 1) (ts_available_at r) (Some verified_absent_at) (Some evidence)
                (Some verified_absent_at) None r).

(** ** PostgresPurgeStore *)

Definition decoded (row : option tombstone_row) : result (option PurgeTombstone) :=
  match row with None => Ok None | Some r => t ← _from_record r; Ok (Some t) end.

Definition _load_by_object (owner_id object_kind object_id : pystr) : SM artifact_db (option PurgeTombstone) :=
  row ← query (_LOAD_BY_OBJECT_SQL owner_id object_kind object_id); lift (decoded row).

Definition _enqueue_scheduled (tombstone : PurgeTombstone) : SM artifact_db (PurgeTombstone * bool) :=
  exact ← lift (_validate_tombstone tombstone);
  rowcount ← exec (_ENQUEUE_SQL exact);
  if rowcount =? 1 then mret (exact, true)
  else
    existing ← _load_by_object (pt_owner_id exact) (pt_object_kind exact) (pt_object_id exact);
    match existing with
    | None => lift (raise PlaneError "purge schedule identity was reused by different work")
    | Some t => lift (_require_scheduled_target t (pt_target_scope exact) (pt_storage_key exact)) ;; mret (t, false)
    end.

(** Enqueue the tombstone of an attachment. *)
Definition enqueue_attachment (owner attachment : pystr) (requested_at : datetime) : SM artifact_db (PurgeTombstone * bool) :=
  candidate ← lift (_scheduled_tombstone ATTACHMENT_PREFIX owner attachment attachment requested_at);
  _enqueue_scheduled candidate.

Definition schedule_attachment_prefix (owner_id attachment_id : pystr) (requested_at : datetime) (deleted_at : Z)
  : SM artifact_db PurgeScheduleResult :=
  owner ← lift (validate_blob_owner_id owner_id);
  attachment ← lift (_bounded_identifier attachment_id "attachment_id");
  requested ← lift (_utc requested_at "requested_at");
  deleted ← lift (_deleted_at deleted_at);
  existing ← _load_by_object owner (u "attachment") attachment;
  '(tombstone, created) ← match existing with
    | None =>
        metadata ← attachment_get owner attachment true;
        lift (raise_unless (is_some metadata) (Exn PlaneError "purge object was not found in the owner scope")) ;;
        enqueue_attachment owner attachment requested
    | Some t => lift (_require_scheduled_target t ATTACHMENT_PREFIX attachment) ;; mret (t, false)
    end;
  changed ← exec (update_attachments
    (fun r => of_attachment attachment owner r && bool_decide (at_state r = READY) && negb (is_some (at_deleted_at r)))
    (fun r => set_deleted deleted (at_lease_version r) r));
  lift (raise_unless (length changed <=? 1)%nat (Exn PlaneError "attachment purge updated an invalid number of metadata rows")) ;;
  mret {| sc_tombstone := tombstone; sc_tombstone_created := created;
          sc_metadata_rows_soft_deleted := Z.of_nat (length changed) |}.

Definition abandon_pending_materialization (ck : clock) (owner_id attachment_id lease_id : pystr) (expected_lease_version deleted_at : Z)
  : SM artifact_db PurgeScheduleResult :=
  owner ← lift (validate_blob_owner_id owner_id);
  attachment ← lift (_bounded_identifier attachment_id "attachment_id");
  lease ← lift (_bounded_identifier lease_id "lease_id");
  lift (raise_if (expected_lease_version <? 0) (Exn SQLContractError "expected_lease_version must be non-negative")) ;;
  deleted ← lift (_deleted_at deleted_at);
  rows ← exec (_ABANDON_PENDING_MATERIALIZATION_SQL deleted attachment owner lease expected_lease_version);
  match rows with
  | [_] =>
      '(tombstone, created) ← enqueue_attachment owner attachment (utc (statement_timestamp ck));
      mret {| sc_tombstone := tombstone; sc_tombstone_created := created; sc_metadata_rows_soft_deleted := 1 |}
  | _ :: _ :: _ => lift (raise PlaneError "pending materialization abandonment returned invalid evidence")
  | [] =>
      lifecycle ← query (_LOAD_MATERIALIZATION_LIFECYCLE_SQL attachment owner);
      existing ← _load_by_object owner (u "attachment") attachment;
      match lifecycle, existing with
      | Some r, Some t =>
          if bool_decide (at_state r = MPENDING) && bool_decide (at_lease_id r = Some lease)
             && bool_decide (at_lease_version r = Some (expected_lease_version + 1)) && is_some (at_deleted_at r)
          then
            lift (_require_scheduled_target t ATTACHMENT_PREFIX attachment) ;;
            mret {| sc_tombstone := t; sc_tombstone_created := false; sc_metadata_rows_soft_deleted := 0 |}
          else lift (raise PlaneError "pending materialization lease changed or was finalized")
      | _, _ => lift (raise PlaneError "pending materialization lease changed or was finalized")
      end
  end.

(** One tombstone for each row that the recovery claimed. *)
Fixpoint schedule_claimed (ck : clock) (rows : list attachment_row) : SM artifact_db (list PurgeScheduleResult) :=
  match rows with
  | [] => mret []
  | r :: rows =>
      owner ← lift (validate_blob_owner_id (at_user_id r));
      attachment ← lift (_bounded_identifier (at_attachment_id r) "attachment_id");
      '(tombstone, created) ← enqueue_attachment owner attachment (utc (statement_timestamp ck));
      rest ← schedule_claimed ck rows;
      mret ({| sc_tombstone := tombstone; sc_tombstone_created := created; sc_metadata_rows_soft_deleted := 1 |} :: rest)
  end.

Definition schedule_expired_pending_materializations_for_administration (ck : clock) (limit : Z)
  : SM artifact_db (list PurgeScheduleResult) :=
  bound ← lift (_bounded_recovery_limit limit);
  rows ← exec (_CLAIM_EXPIRED_PENDING_MATERIALIZATIONS_SQL ck bound);
  lift (raise_if (bound <? Z.of_nat (length rows)) (Exn PlaneError "expired materialization recovery exceeded its bound")) ;;
  schedule_claimed ck rows.

Definition has_expired_pending_materializations_for_administration (ck : clock) : SM artifact_db bool :=
  query (_HAS_EXPIRED_PENDING_SQL ck).

Definition schedule_owner_namespace (owner_id : pystr) (requested_at : datetime) (deleted_at : Z)
  : SM artifact_db PurgeScheduleResult :=
  owner ← lift (validate_blob_owner_id owner_id);
  requested ← lift (_utc requested_at "requested_at");
  deleted ← lift (_deleted_at deleted_at);
  exec (ensure_owner owner) ;;
  states ← exec (_RETIRE_BLOB_OWNER_SQL (instant requested) owner);
  lift (match states with
        | [OWNER_RETIRED] => Ok ()
        | [OWNER_ACTIVE] => raise PlaneError "blob owner retirement failed closed"
        | _ => raise PlaneError "blob owner retirement returned invalid evidence"
        end) ;;
  object_id ← lift (_owner_namespace_object_id owner);
  existing ← _load_by_object owner (u "attachment") object_id;
  '(tombstone, created) ← match existing with
    | None =>
        candidate ← lift (_scheduled_tombstone OWNER_NAMESPACE owner object_id _OWNER_NAMESPACE_SELECTOR requested);
        _enqueue_scheduled candidate
    | Some t => lift (_require_scheduled_target t OWNER_NAMESPACE _OWNER_NAMESPACE_SELECTOR) ;; mret (t, false)
    end;
  changed ← exec (update_attachments (fun r => bool_decide (at_user_id r = owner) && negb (is_some (at_deleted_at r)))
    (fun r => set_deleted deleted (match at_state r with MPENDING => next_version r | READY => at_lease_version r end) r));
  mret {| sc_tombstone := tombstone; sc_tombstone_created := created;
          sc_metadata_rows_soft_deleted := Z.of_nat (length changed) |}.

Definition load (owner_id tombstone_id : pystr) : SM artifact_db (option PurgeTombstone) :=
  owner ← lift (validate_blob_owner_id owner_id);
  identifier ← lift (_bounded_identifier tombstone_id "tombstone_id");
  row ← query (_LOAD_SQL owner identifier);
  lift (decoded row).

Definition load_legacy_exact_for_administration (tombstone_id : pystr) : SM artifact_db (option PurgeTombstone) :=
  identifier ← lift (_bounded_identifier tombstone_id "tombstone_id");
  row ← query (_LOAD_LEGACY_FOR_ADMINISTRATION_SQL identifier);
  lift (decoded row).

Definition list_incomplete (owner_id : pystr) : SM artifact_db (list PurgeTombstone) :=
  owner ← lift (validate_blob_owner_id owner_id);
  rows ← query (_LIST_INCOMPLETE_SQL owner);
  lift (map_each _from_record rows).

Definition list_ready_for_administration (observed_at : datetime) (limit : Z) : SM artifact_db (list PurgeTombstone) :=
  timestamp ← lift (_utc observed_at "observed_at");
  bound ← lift (_bounded_recovery_limit limit);
  rows ← query (_LIST_READY_FOR_ADMINISTRATION_SQL (instant timestamp) bound);
  lift (raise_if (bound <? Z.of_nat (length rows)) (Exn PlaneError "purge recovery query exceeded its requested bound")) ;;
  lift (map_each _from_record rows).

Definition has_incomplete_for_administration (ck : clock) : SM artifact_db bool := query (_HAS_INCOMPLETE_SQL ck).

Definition fence_conflict : exn := Exn PlaneError "purge tombstone version fence rejected the transition".
Definition _require_update (rowcount : Z) : result unit := raise_unless (rowcount =? 1) fence_conflict.

Definition expected_version_of (expected_version : Z) : result Z :=
  raise_if (expected_version <? 0) (Exn SQLContractError "expected_version must be a non-negative integer") ;; Ok expected_version.
Definition _fence (owner_id tombstone_id : pystr) (expected_version : Z) : result (pystr * pystr * Z) :=
  owner ← validate_blob_owner_id owner_id;
  identifier ← _bounded_identifier tombstone_id "tombstone_id";
  version ← expected_version_of expected_version;
  Ok (owner, identifier, version).
Definition safe_error_code (error_code : pystr) : result unit :=
  raise_unless (fullmatch _SAFE_ERROR_CODE error_code) (Exn SQLContractError "error_code is not a safe bounded code").

(** The executor is the only holder of the authority these methods require. *)
Definition _mark_purged_for_executor (owner_id tombstone_id expected_locator : pystr) (expected_version : Z)
    (verified_absent_at : datetime) : SM artifact_db unit :=
  '(owner, identifier, version) ← lift (_fence owner_id tombstone_id expected_version);
  locator ← lift (_lowercase_digest expected_locator "expected_storage_locator_sha256");
  timestamp ← lift (_utc verified_absent_at "verified_absent_at");
  rowcount ← exec (_MARK_PURGED_SQL (instant timestamp) owner identifier locator version);
  lift (_require_update rowcount).

Definition _mark_failed_for_executor (owner_id tombstone_id : pystr) (expected_version : Z) (available_at : datetime)
    (error_code : pystr) : SM artifact_db unit :=
  '(owner, identifier, version) ← lift (_fence owner_id tombstone_id expected_version);
  lift (safe_error_code error_code) ;;
  available ← lift (_utc available_at "available_at");
  rowcount ← exec (_MARK_FAILED_SQL (instant available) error_code owner identifier version);
  lift (_require_update rowcount).

Definition _mark_manual_review_for_executor (owner_id tombstone_id : pystr) (expected_version : Z) (error_code : pystr)
  : SM artifact_db unit :=
  '(owner, identifier, version) ← lift (_fence owner_id tombstone_id expected_version);
  lift (safe_error_code error_code) ;;
  rowcount ← exec (_MARK_MANUAL_REVIEW_SQL error_code owner identifier version);
  lift (_require_update rowcount).

Definition _mark_legacy_exact_resolved_for_administration (owner_id tombstone_id expected_locator : pystr) (expected_version : Z)
    (verified_absent_at : datetime) (evidence : pystr) : SM artifact_db unit :=
  owner ← lift (_bounded_legacy_owner_id owner_id);
  identifier ← lift (_bounded_identifier tombstone_id "tombstone_id");
  version ← lift (expected_version_of expected_version);
  expected_digest ← lift (_lowercase_digest expected_locator "expected_storage_locator_sha256");
  timestamp ← lift (_utc verified_absent_at "verified_absent_at");
  evidence_digest ← lift (_lowercase_digest evidence "resolution_evidence_sha256");
  rowcount ← exec (_RESOLVE_LEGACY_EXACT_SQL (instant timestamp) evidence_digest owner identifier expected_digest version);
  lift (_require_update rowcount).
End Store.

(** ** DurablePurgeExecutor

    Each transaction and each call of the store is one action; before the n-th
    action the other processes have done [others n].  The actions are recorded
    with the planes before and after them, the latest first. *)

Section Executor.
Context `{PyText} `{PgEnv} `{PgLower} {W : Type} `{BlobStore W}.

Definition plane (W : Type) : Type := artifact_db * W.
Context (others : nat -> plane W -> plane W).

Record executor_state : Type := Executing { x_actions : list (plane W * plane W); x_plane : plane W }.
Definition XM (A : Type) : Type := executor_state -> result A * executor_state.
#[global] Instance XM_mret : MRet XM := fun _ a x => (Ok a, x).
#[global] Instance XM_mbind : MBind XM := fun _ _ f m x =>
  match m x with
  | (Ok a, x') => f a x'
  | (Err e, x') => (Err e, x')
  end.

Definition pure {A} (r : result A) : XM A := fun x => (r, x).
(** [with self._database.transaction() as transaction:] *)
Definition in_transaction {A} (m : SM artifact_db A) : XM A := fun x =>
  let '(db, w) := others (length (x_actions x)) (x_plane x) in
  let '(r, db') := transaction m db in (r, Executing (((db, w), (db', w)) :: x_actions x) (db', w)).
Definition call_store {A} (f : W -> result A * W) : XM A := fun x =>
  let '(db, w) := others (length (x_actions x)) (x_plane x) in
  let '(r, w') := f w in (r, Executing (((db, w), (db, w')) :: x_actions x) (db, w')).
Definition ask_store {A} (f : W -> result A) : XM A := call_store (fun w => (f w, w)).

(** [except PlaneError as conflict: if conflict.code != "purge_fence_conflict": raise] *)
Definition on_fence_conflict {A} (m : XM A) (handler : XM A) : XM A := fun x =>
  match m x with
  | (Err e, x') => if bool_decide (e = fence_conflict) then handler x' else (Err e, x')
  | ok => ok
  end.

Definition attempt_result (state : PurgeAttemptState) (tombstone_id : pystr) (attempt : Z) (error_code : option pystr)
  : PurgeAttemptResult :=
  {| pr_state := state; pr_tombstone_id := tombstone_id; pr_attempt := attempt; pr_error_code := error_code |}.

Definition _load (owner_id tombstone_id : pystr) : XM (option PurgeTombstone) := in_transaction (load owner_id tombstone_id).
Definition _load_legacy_for_administration (tombstone_id : pystr) : XM (option PurgeTombstone) :=
  in_transaction (load_legacy_exact_for_administration tombstone_id).

Definition _is_absent (t : PurgeTombstone) : XM bool :=
  match pt_target_scope t with
  | OWNER_NAMESPACE => ask_store (is_owner_absent (pt_owner_id t))
  | ATTACHMENT_PREFIX => ask_store (is_prefix_absent (pt_owner_id t) (pt_storage_key t))
  | EXACT_KEY => pure (raise PlaneError "legacy exact-key absence is represented only by operator evidence")
  end.

Definition _delete_and_verify (t : PurgeTombstone) : XM unit :=
  pure (raise_if (bool_decide (pt_target_scope t = EXACT_KEY))
    (Exn PlaneError "legacy exact-key deletion requires external operator attestation")) ;;
  authority ← pure (_create_blob_purge_authority (pt_owner_id t) (pt_target_scope t) (pt_storage_key t));
  outcome ← call_store (_delete_for_purge authority);
  pure (raise_unless (nullable bd_absent_verified outcome) (Exn PlaneError "blob deletion did not prove absence")) ;;
  absent ← _is_absent t;
  pure (raise_unless absent (Exn PlaneError "blob remained present after deletion")).

Definition _reconcile_concurrent_transition (owner_id tombstone_id : pystr) : XM PurgeAttemptResult :=
  current ← _load owner_id tombstone_id;
  match current with
  | None => pure (raise PlaneError "purge tombstone disappeared during reconciliation")
  | Some t =>
      let unconverged := pure (raise PlaneError "purge concurrent transition did not converge") in
      let already := attempt_result ATTEMPT_ALREADY_PURGED tombstone_id (pt_attempt_count t) None in
      let failed := attempt_result ATTEMPT_FAILED tombstone_id (pt_attempt_count t) (pt_last_error_code t) in
      match pt_status t, pt_target_scope t with
      | PURGED, EXACT_KEY => mret already
      | PURGED, _ => absent ← _is_absent t; if absent : bool then mret already else unconverged
      | FAILED, _ | MANUAL_REVIEW, _ => mret failed
      | PENDING, _ => unconverged
      end
  end.

Definition execute (owner_id tombstone_id : pystr) (now retry_at : datetime) : XM PurgeAttemptResult :=
  timestamp ← pure (_utc now "now");
  next_retry ← pure (_utc retry_at "retry_at");
  pure (raise_if (instant next_retry <=? instant timestamp) (Exn SQLContractError "retry_at must be later than now")) ;;
  loaded ← _load owner_id tombstone_id;
  match loaded with
  | None => pure (raise PlaneError "purge tombstone was not found in the owner scope")
  | Some t =>
      let reconcile := _reconcile_concurrent_transition owner_id tombstone_id in
      match pt_status t with
      | MANUAL_REVIEW => pure (raise PlaneError "purge tombstone requires manual review")
      | PURGED =>
          (if bool_decide (pt_target_scope t = EXACT_KEY) then mret ()
           else absent ← _is_absent t;
                pure (raise_unless absent (Exn PlaneError "purged tombstone no longer matches physical storage"))) ;;
          mret (attempt_result ATTEMPT_ALREADY_PURGED tombstone_id (pt_attempt_count t) None)
      | PENDING | FAILED =>
          pure (raise_if (match pt_available_at t with Some a => instant timestamp <? instant a | None => false end)
            (Exn PlaneError "purge tombstone is not yet available for retry")) ;;
          if bool_decide (pt_target_scope t = EXACT_KEY) then
            on_fence_conflict
              (in_transaction (_mark_manual_review_for_executor owner_id tombstone_id (pt_version t) (u "publication_fence_required")) ;;
               mret (attempt_result ATTEMPT_FAILED tombstone_id (pt_attempt_count t) (Some (u "publication_fence_required"))))
              reconcile
          else fun x =>
            match _delete_and_verify t x with
            | (Ok _, x') =>
                on_fence_conflict
                  (in_transaction (_mark_purged_for_executor owner_id tombstone_id (pt_storage_locator_sha256 t) (pt_version t) timestamp) ;;
                   mret (attempt_result ATTEMPT_PURGED tombstone_id (pt_attempt_count t + 1) None))
                  reconcile x'
            | (Err e, x') =>
                if is_exception e then
                  on_fence_conflict
                    (in_transaction (_mark_failed_for_executor owner_id tombstone_id (pt_version t) next_retry (u "blob_delete_failed")) ;;
                     mret (attempt_result ATTEMPT_FAILED tombstone_id (pt_attempt_count t + 1) (Some (u "blob_delete_failed"))))
                    reconcile x'
                else (Err e, x')
            end
      end
  end.

Definition discover_ready_for_administration (observed_at : datetime) (limit : Z) : XM (list PurgeTombstone) :=
  timestamp ← pure (_utc observed_at "observed_at");
  bound ← pure (_bounded_recovery_limit limit);
  in_transaction (list_ready_for_administration timestamp bound).

Fixpoint execute_each (timestamp next_retry : datetime) (ready : list PurgeTombstone) : XM (list PurgeAttemptResult) :=
  match ready with
  | [] => mret []
  | t :: ready =>
      r ← execute (pt_owner_id t) (pt_tombstone_id t) timestamp next_retry;
      rest ← execute_each timestamp next_retry ready;
      mret (r :: rest)
  end.

Definition reconcile_ready_for_administration (observed_at retry_at : datetime) (limit : Z) : XM (list PurgeAttemptResult) :=
  timestamp ← pure (_utc observed_at "observed_at");
  next_retry ← pure (_utc retry_at "retry_at");
  pure (raise_if (instant next_retry <=? instant timestamp) (Exn SQLContractError "retry_at must be later than observed_at")) ;;
  ready ← discover_ready_for_administration timestamp limit;
  execute_each timestamp next_retry ready.

Definition executor_has_incomplete (ck : clock) : XM bool := in_transaction (has_incomplete_for_administration ck).

(** The outcome of a resolution found already recorded. *)
Definition replayed_resolution (t : PurgeTombstone) (tombstone_id evidence : pystr) (conflict : string) : result PurgeAttemptResult :=
  raise_if (bool_decide (pt_evidence t <> Some evidence)) (Exn PlaneError conflict) ;;
  Ok (attempt_result ATTEMPT_ALREADY_PURGED tombstone_id (pt_attempt_count t) None).

Definition resolve_legacy_exact_for_administration (tombstone_id expected_owner_id expected_locator : pystr)
    (observed_at : datetime) (resolution_evidence : pystr) : XM PurgeAttemptResult :=
  timestamp ← pure (_utc observed_at "observed_at");
  expected_owner ← pure (_bounded_legacy_owner_id expected_owner_id);
  expected_digest ← pure (_lowercase_digest expected_locator "expected_storage_locator_sha256");
  evidence ← pure (_lowercase_digest resolution_evidence "resolution_evidence_sha256");
  let changed t := bool_decide (pt_owner_id t <> expected_owner) || bool_decide (pt_storage_locator_sha256 t <> expected_digest) in
  loaded ← _load_legacy_for_administration tombstone_id;
  match loaded with
  | None => pure (raise PlaneError "legacy purge tombstone was not found")
  | Some t =>
      pure (raise_if (changed t) (Exn PlaneError "legacy purge resolution identity changed after operator inspection")) ;;
      match pt_status t with
      | PURGED => pure (replayed_resolution t tombstone_id evidence "legacy purge resolution replay changed its evidence digest")
      | PENDING | FAILED => pure (raise PlaneError "legacy exact-key tombstone is not awaiting operator resolution")
      | MANUAL_REVIEW =>
          on_fence_conflict
            (in_transaction (_mark_legacy_exact_resolved_for_administration expected_owner tombstone_id expected_digest
                               (pt_version t) timestamp evidence) ;;
             mret (attempt_result ATTEMPT_PURGED tombstone_id (pt_attempt_count t + 1) None))
            (current ← _load_legacy_for_administration tombstone_id;
             match current with
             | None => pure (raise PlaneError "purge tombstone disappeared during operator resolution")
             | Some c =>
                 pure (raise_if (changed c) (Exn PlaneError "concurrent legacy purge resolution changed the inspected identity")) ;;
                 match pt_status c with
                 | PURGED => pure (replayed_resolution c tombstone_id evidence "concurrent legacy purge resolution used different evidence")
                 | _ => pure (Err fence_conflict)
                 end
             end)
      end
  end.
End Executor.
