(* ===== verification/PurgeTables.v ===== *)
(** * What every statement on the artifact tables keeps

    The constraints and keys of the three tables hold; tombstones advance by
    their state machine and are never lost; attachments keep their identity and
    stay deleted; retired owners stay retired. *)

From Stdlib Require Import ZifyBool.
From S2P Require Import Prelude Regex Errors Domain Sha256 Json Pg AuthoritySchema AuditDelivery BlobKeys ArtifactSchema Materialization Purge.

(** ** Relations between rows *)

Definition identity (r : tombstone_row) : pystr * pystr * pystr * pystr * pystr * PurgeTargetScope * pystr :=
  (ts_tombstone_id r, ts_owner_id r, ts_object_kind r, ts_object_id r, ts_storage_key r, ts_target_scope r,
   ts_storage_locator_sha256 r).

(** The transitions of a tombstone: never out of [PURGED], out of manual review
    only for an operator-resolved exact key. *)
Definition transition (r r' : tombstone_row) : Prop :=
  ts_version r < ts_version r' /\ ts_attempt_count r <= ts_attempt_count r'
  /\ match ts_status r with
     | PENDING | FAILED => ts_status r' <> PENDING
     | MANUAL_REVIEW => ts_status r' = PURGED /\ ts_target_scope r = EXACT_KEY
     | PURGED => False
     end.
Definition advances (r r' : tombstone_row) : Prop := identity r = identity r' /\ (r = r' \/ transition r r').

Lemma advances_refl r : advances r r.
Proof. split; auto. Qed.
Lemma advances_trans r1 r2 r3 : advances r1 r2 -> advances r2 r3 -> advances r1 r3.
Proof.
  intros [I1 [->|(V1 & A1 & T1)]] [I2 [<-|(V2 & A2 & T2)]]; (split; [congruence|]); [by left|by right|by right|right].
  split_and!; [lia|lia|]. destruct (ts_status r1), (ts_status r2), (ts_status r3); try done; naive_solver.
Qed.

Definition deleted (r : attachment_row) : bool := is_some (at_deleted_at r).
Definition continues (r r' : attachment_row) : Prop :=
  at_attachment_id r = at_attachment_id r' /\ at_user_id r = at_user_id r' /\ (deleted r = true -> r' = r)
  /\ (at_state r = READY -> at_state r' = READY).

(** ** Relations between databases *)

Record evolves (db db' : artifact_db) : Prop := {
  ev_tombstones r : r ∈ ab_tombstones db -> exists r', r' ∈ ab_tombstones db' /\ advances r r';
  ev_attachments r : r ∈ ab_attachments db -> exists r', r' ∈ ab_attachments db' /\ continues r r';
  ev_owners r : r ∈ ab_owners db -> ow_state r = OWNER_RETIRED -> r ∈ ab_owners db'
}.

#[global] Instance evolves_preorder : PreOrder evolves.
Proof.
  split.
  - intros db. split; [intros r Hr; exists r; split; [done|apply advances_refl]|intros r Hr; exists r; split; [done|by repeat split]|done].
  - intros a b c Hab Hbc. split.
    + intros r Hr. destruct (ev_tombstones _ _ Hab r Hr) as (r1 & H1 & A1). destruct (ev_tombstones _ _ Hbc r1 H1) as (r2 & H2 & A2).
      exists r2. split; [done|]. by eapply advances_trans.
    + intros r Hr. destruct (ev_attachments _ _ Hab r Hr) as (r1 & H1 & E1 & E1' & D1 & S1).
      destruct (ev_attachments _ _ Hbc r1 H1) as (r2 & H2 & E2 & E2' & D2 & S2).
      exists r2. split; [done|]. split_and!; [congruence|congruence| |auto]. intros Hd. rewrite D1 in * by done. by rewrite D2.
    + intros r Hr Hret. apply (ev_owners _ _ Hbc); [|done]. by apply (ev_owners _ _ Hab).
Qed.

(** The work that a tombstone stands for. *)
Definition target (r : tombstone_row) : PurgeTargetScope * pystr * pystr := (ts_target_scope r, ts_owner_id r, ts_object_id r).
Lemma identity_target r r' : identity r = identity r' -> target r = target r'.
Proof. unfold identity, target. congruence. Qed.
Lemma identity_id r r' : identity r = identity r' -> ts_tombstone_id r = ts_tombstone_id r'.
Proof. unfold identity. congruence. Qed.
Lemma identity_scope r r' : identity r = identity r' -> ts_target_scope r = ts_target_scope r'.
Proof. unfold identity. congruence. Qed.

(** New tombstones are for targets of [E]; those newly purged are operator
    resolutions or have an identifier in [G]. *)
Record allowed (E : PurgeTargetScope * pystr * pystr -> Prop) (G : pystr -> Prop) (db db' : artifact_db) : Prop := {
  al_new r' : r' ∈ ab_tombstones db' ->
    (exists r, r ∈ ab_tombstones db /\ identity r = identity r') \/ E (target r');
  al_purged r' : r' ∈ ab_tombstones db' -> ts_status r' = PURGED -> ts_target_scope r' <> EXACT_KEY ->
    (exists r, r ∈ ab_tombstones db /\ identity r = identity r' /\ ts_status r = PURGED) \/ G (ts_tombstone_id r')
}.

Lemma same_tombstones_allowed E G db db' : ab_tombstones db = ab_tombstones db' -> allowed E G db db'.
Proof. intros Ht. split; rewrite Ht; eauto. Qed.

#[global] Instance allowed_preorder E G : PreOrder (allowed E G).
Proof.
  split; [intros db; by apply same_tombstones_allowed|]. intros a b c Hab Hbc. split.
  - intros r Hr. destruct (al_new _ _ _ _ Hbc r Hr) as [(r1 & Hr1 & I1)|?]; [|auto].
    destruct (al_new _ _ _ _ Hab r1 Hr1) as [(r0 & Hr0 & I0)|?]; [left; exists r0; split; [done|congruence]|].
    right. by rewrite <-(identity_target _ _ I1).
  - intros r Hr Hp Hs. destruct (al_purged _ _ _ _ Hbc r Hr Hp Hs) as [(r1 & Hr1 & I1 & P1)|?]; [|auto].
    destruct (al_purged _ _ _ _ Hab r1 Hr1 P1) as [(r0 & Hr0 & I0 & P0)|?].
    + by rewrite (identity_scope _ _ I1).
    + left. exists r0. split_and!; [done|congruence|done].
    + right. by rewrite <-(identity_id _ _ I1).
Qed.

Section Tables.
Context `{PyText} `{PgEnv} `{PgLower} (E : PurgeTargetScope * pystr * pystr -> Prop) (G : pystr -> Prop).

Record tables_ok (db : artifact_db) : Prop := {
  tk_tombstones : Forall (fun r => check_tombstone_row r = Ok ()) (ab_tombstones db);
  tk_tombstone_keys : unique_ok tombstone_conflict (ab_tombstones db) = true;
  tk_attachments : Forall (fun r => check_attachment_row r = Ok ()) (ab_attachments db);
  tk_attachment_keys : unique_ok attachment_conflict (ab_attachments db) = true;
  tk_owners : Forall (fun r => check_owner_row r = Ok ()) (ab_owners db);
  tk_owner_keys : unique_ok owner_conflict (ab_owners db) = true
}.

(** What a statement keeps, when it may schedule the targets of [E] and purge
    the tombstones of [G]. *)
Definition keeps (db db' : artifact_db) : Prop := tables_ok db -> tables_ok db' /\ evolves db db' /\ allowed E G db db'.
#[global] Instance keeps_preorder : PreOrder keeps.
Proof.
  split; [intros db Hok; split_and!; [done|reflexivity|reflexivity]|].
  intros a b c Hab Hbc Hok. destruct (Hab Hok) as (Hb & E1 & A1). destruct (Hbc Hb) as (Hc & E2 & A2).
  split_and!; [done|by etransitivity|by etransitivity].
Qed.

Lemma tombstone_conflict_sym a b : tombstone_conflict a b = tombstone_conflict b a.
Proof. unfold tombstone_conflict. f_equal; apply bool_decide_ext; split; congruence. Qed.
Lemma attachment_conflict_sym a b : attachment_conflict a b = attachment_conflict b a.
Proof. unfold attachment_conflict. f_equal; apply bool_decide_ext; split; congruence. Qed.
Lemma owner_conflict_sym a b : owner_conflict a b = owner_conflict b a.
Proof. unfold owner_conflict. f_equal; apply bool_decide_ext; split; congruence. Qed.

Lemma Forall_updated {A} (P : A -> Prop) p f (l : list A) :
  Forall P l -> Forall P (f <$> rows_where p l) -> Forall P (update_where p f l).
Proof.
  rewrite !Forall_forall. intros Hl Hf x (y & Hy & ->)%elem_of_update_where. destruct (p y) eqn:Hp; [|auto].
  apply Hf. apply list_elem_of_fmap. exists y. split; [done|]. by apply elem_of_rows_where.
Qed.

Lemma evolves_tombstones t db :
  (forall r, r ∈ ab_tombstones db -> exists r', r' ∈ t /\ advances r r') -> evolves db (set_tombstones t db).
Proof. intros Ht. split; [done| |done]. intros r Hr. exists r. split; [done|]. by repeat split. Qed.
Lemma evolves_attachments t db :
  (forall r, r ∈ ab_attachments db -> exists r', r' ∈ t /\ continues r r') -> evolves db (set_attachments t db).
Proof. intros Ht. split; [|done|done]. intros r Hr. exists r. split; [done|apply advances_refl]. Qed.
Lemma evolves_owners t db :
  (forall r, r ∈ ab_owners db -> ow_state r = OWNER_RETIRED -> r ∈ t) -> evolves db (set_owners t db).
Proof.
  intros Ht. split; [| |done]; intros r Hr; exists r; (split; [done|]); [apply advances_refl|by repeat split].
Qed.

(** ** The statements *)

Lemma update_tombstones_keeps p f db n db' :
  (forall r, r ∈ ab_tombstones db -> p r = true -> advances r (f r)) ->
  (forall r, p r = true -> ts_target_scope r <> EXACT_KEY -> ts_status (f r) = PURGED -> G (ts_tombstone_id r)) ->
  update_tombstones p f db = Ok (n, db') -> keeps db db'.
Proof.
  intros Hpf Hg Hu Hok. unfold update_tombstones in Hu. apply bind_Ok_inv in Hu as ([rows t] & Hu & [= _ <-]).
  apply update_returning_Ok in Hu as (Hc & _ & -> & Hk). split_and!.
  - destruct Hok. split; cbn; try done. by apply Forall_updated.
  - apply evolves_tombstones. intros r Hr. exists (if p r then f r else r). split.
    + apply elem_of_update_where. eauto.
    + destruct (p r) eqn:Hp; [auto|apply advances_refl].
  - split; cbn; intros r' (r & Hr & ->)%elem_of_update_where; destruct (p r) eqn:Hp; [| |intros Hs Hx|intros Hs _].
    + left. exists r. split; [done|]. by apply Hpf.
    + left. eauto.
    + right. destruct (Hpf r Hr Hp) as [Hi _]. rewrite <-(identity_id _ _ Hi). apply Hg; [done| |done].
      by rewrite (identity_scope _ _ Hi).
    + left. eauto.
Qed.

Lemma update_attachments_keeps p f db rows db' :
  (tables_ok db -> forall r, r ∈ ab_attachments db -> p r = true -> continues r (f r)) ->
  update_attachments p f db = Ok (rows, db') -> keeps db db'.
Proof.
  intros Hpf Hu Hok. unfold update_attachments in Hu. apply bind_Ok_inv in Hu as ([rows' t] & Hu & [= _ <-]).
  apply update_returning_Ok in Hu as (Hc & _ & -> & Hk). split_and!; [| |by apply same_tombstones_allowed].
  - destruct Hok. split; cbn; try done. by apply Forall_updated.
  - apply evolves_attachments. intros r Hr. exists (if p r then f r else r). split.
    + apply elem_of_update_where. eauto.
    + destruct (p r) eqn:Hp; [auto|by repeat split].
Qed.

Lemma tombstone_enqueue_keeps t db n db' : E (target (enqueued t)) -> _ENQUEUE_SQL t db = Ok (n, db') -> keeps db db'.
Proof.
  unfold _ENQUEUE_SQL. intros Ht He Hok. apply bind_Ok_inv in He as ([o ts] & Hi & [= _ <-]).
  apply insert_do_nothing_Ok in Hi as (Hc & [(_ & -> & _)|(_ & -> & Hn & _)]).
  - destruct db. split_and!; [done|reflexivity|reflexivity].
  - split_and!.
    + destruct Hok. split; cbn; try done; [by apply Forall_app_2; [|constructor]|].
      apply unique_ok_snoc; [apply tombstone_conflict_sym|done].
    + apply evolves_tombstones. intros r Hr. exists r. split; [set_solver|apply advances_refl].
    + split; cbn; intros r [Hr| ->%list_elem_of_singleton]%elem_of_app; [eauto|eauto|eauto|done].
Qed.

Lemma ensure_owner_keeps o db a db' : ensure_owner o db = Ok (a, db') -> keeps db db'.
Proof.
  unfold ensure_owner. intros He Hok. apply bind_Ok_inv in He as (? & _ & He). apply bind_Ok_inv in He as ([r t] & Hi & [= _ <-]).
  apply insert_do_nothing_Ok in Hi as (Hc & [(_ & -> & _)|(_ & -> & Hn & _)]).
  - destruct db. split_and!; [done|reflexivity|reflexivity].
  - split_and!; [| |by apply same_tombstones_allowed].
    + destruct Hok. split; cbn; try done; [by apply Forall_app_2; [|constructor]|].
      apply unique_ok_snoc; [apply owner_conflict_sym|done].
    + apply evolves_owners. set_solver.
Qed.

Lemma retire_keeps at_ o db states db' : _RETIRE_BLOB_OWNER_SQL at_ o db = Ok (states, db') -> keeps db db'.
Proof.
  unfold _RETIRE_BLOB_OWNER_SQL. intros He Hok. apply bind_Ok_inv in He as ([rows t] & Hu & [= _ <-]).
  apply update_returning_Ok in Hu as (Hc & _ & -> & Hk). split_and!; [| |by apply same_tombstones_allowed].
  - destruct Hok. split; cbn; try done. by apply Forall_updated.
  - apply evolves_owners. intros r Hr Hs. apply elem_of_update_where. exists r. split; [done|].
    pose proof (proj1 (Forall_forall _ _) (tk_owners _ Hok) r Hr) as Hcheck. unfold check_owner_row in Hcheck. inv_ok.
    rewrite Hs in Hcheck.
    destruct (bool_decide _); [|done]. destruct r as [i st n [x|]]; cbn in *; subst; [done|]. by rewrite andb_false_r in Hcheck.
Qed.

Lemma insert_pending_keeps ck q locator key db rows db' : insert_pending ck q locator key db = Ok (rows, db') -> keeps db db'.
Proof.
  unfold insert_pending. intros He Hok. apply bind_Ok_inv in He as (? & _ & He). apply bind_Ok_inv in He as ([] & Hc & He).
  destruct (exists_row _ (ab_attachments db)); [injection He as _ <-; split_and!; [done|reflexivity|reflexivity]|].
  destruct (exists_row (attachment_conflict _) _) eqn:Hn; [done|]. injection He as _ <-. split_and!; [| |by apply same_tombstones_allowed].
  - destruct Hok. split; cbn; try done; [by apply Forall_app_2; [|constructor]|].
    apply unique_ok_snoc; [apply attachment_conflict_sym|done].
  - apply evolves_attachments. intros r Hr. exists r. split; [set_solver|by repeat split].
Qed.

(** Rows that are live, and statements that keep their identity. *)
Lemma live_continues r r' :
  deleted r = false -> at_attachment_id r = at_attachment_id r' -> at_user_id r = at_user_id r' ->
  (at_state r = READY -> at_state r' = READY) -> continues r r'.
Proof. intros Hd Hi Hu Hs. split_and!; [done|done| |done]. by rewrite Hd. Qed.

Lemma live_pending_live r : live_pending r = true -> deleted r = false.
Proof. unfold live_pending, deleted. by intros [_ Hd%negb_true_iff]%andb_true_iff. Qed.

Lemma attachment_unique db a b :
  tables_ok db -> a ∈ ab_attachments db -> b ∈ ab_attachments db -> at_attachment_id a = at_attachment_id b -> a = b.
Proof.
  intros Hok Ha Hb Hi. apply (unique_ok_elem attachment_conflict (ab_attachments db)); try done.
  - apply attachment_conflict_sym.
  - apply Hok.
  - unfold attachment_conflict. by rewrite bool_decide_eq_true_2.
Qed.

Lemma tombstone_unique db a b :
  tables_ok db -> a ∈ ab_tombstones db -> b ∈ ab_tombstones db ->
  ts_tombstone_id a = ts_tombstone_id b \/ object_key a = object_key b -> a = b.
Proof.
  intros Hok Ha Hb Hi. apply (unique_ok_elem tombstone_conflict (ab_tombstones db)); try done.
  - apply tombstone_conflict_sym.
  - apply Hok.
  - unfold tombstone_conflict. apply orb_true_iff. rewrite !bool_decide_eq_true. done.
Qed.

Lemma owner_unique db a b :
  tables_ok db -> a ∈ ab_owners db -> b ∈ ab_owners db -> ow_owner_id a = ow_owner_id b -> a = b.
Proof.
  intros Hok Ha Hb Hi. apply (unique_ok_elem owner_conflict (ab_owners db)); try done.
  - apply owner_conflict_sym.
  - apply Hok.
  - unfold owner_conflict. by rewrite bool_decide_eq_true_2.
Qed.

Lemma claim_candidate ck limit db r :
  tables_ok db -> r ∈ ab_attachments db ->
  bool_decide ((at_attachment_id r, at_user_id r) ∈ ((fun c => (at_attachment_id c, at_user_id c)) <$>
    select_skip_locked "claim_expired" expiry_le (expired_pending "claim_expired" ck) limit (ab_attachments db))) = true ->
  expired_pending "claim_expired" ck r = true.
Proof.
  intros Hok Hr Hc. apply bool_decide_eq_true, list_elem_of_fmap in Hc as (c & [= Hi Hu] & Hc).
  apply elem_of_select_skip_locked in Hc as [Hc Hp]. by rewrite (attachment_unique db r c).
Qed.

Lemma claim_expired_keeps ck limit db rows db' :
  _CLAIM_EXPIRED_PENDING_MATERIALIZATIONS_SQL ck limit db = Ok (rows, db') -> keeps db db'.
Proof.
  unfold _CLAIM_EXPIRED_PENDING_MATERIALIZATIONS_SQL. intros Hc. apply bind_Ok_inv in Hc as ([rows' db1] & Hu & [= _ <-]).
  eapply update_attachments_keeps; [|exact Hu]. intros Hok r Hr Hp. cbn beta in Hp. apply claim_candidate in Hp; [|done..].
  unfold expired_pending in Hp. apply andb_true_iff in Hp as [Hp _]. apply live_pending_live in Hp. by apply live_continues.
Qed.

(** The fence of a transition. *)
Lemma fenced_advances o id v r r' :
  purge_fenced o id v r = true -> identity r = identity r' -> ts_version r' = ts_version r + 1 ->
  ts_attempt_count r <= ts_attempt_count r' -> ts_status r' <> PENDING -> advances r r'.
Proof.
  clear E G. unfold purge_fenced, open_status. intros Hf Hi Hv Ha Hs. split_bools. split; [done|right].
  split_and!; [lia|done|]. destruct (ts_status r); try done; set_solver.
Qed.
End Tables.

(** ** Methods *)

Create HintDb keeps.

Ltac keeps_step :=
  first [respects_step | match goal with |- respects _ (exec _) => apply respects_exec; [apply _|intros ? ? ? ?] end].

Section Methods.
Context `{PyText} `{PgEnv} `{PgLower} (E : PurgeTargetScope * pystr * pystr -> Prop) (G : pystr -> Prop).

Lemma exec_update_attachments p f :
  (forall db, tables_ok db -> forall r, r ∈ ab_attachments db -> p r = true -> continues r (f r)) ->
  respects (keeps E G) (exec (update_attachments p f)).
Proof. intros Hpf. apply respects_exec; [apply _|]. intros db a db' Hu. eapply update_attachments_keeps; [|exact Hu]. eauto. Qed.

Lemma held_continues site ck a o l v r r' :
  lease_held site ck a o l v r = true -> at_attachment_id r = at_attachment_id r' -> at_user_id r = at_user_id r' ->
  continues r r'.
Proof.
  unfold lease_held. intros Hl Hi Hu. split_bools. apply live_continues; [by apply live_pending_live|done|done|].
  unfold live_pending in *. split_bools. congruence.
Qed.

Lemma lock_owner_keeps o : respects (keeps E G) (_lock_active_blob_owner o).
Proof.
  unfold _lock_active_blob_owner. repeat keeps_step. by eapply ensure_owner_keeps.
Qed.
Lemma get_lifecycle_keeps o a : respects (keeps E G) (_get_lifecycle o a).
Proof.
  unfold _get_lifecycle. keeps_step. match goal with Hx : _ = Ok _ |- _ => apply bind_Ok_inv in Hx as (? & _ & [= _ <-]) end. reflexivity.
Qed.
Hint Resolve lock_owner_keeps get_lifecycle_keeps : keeps.

Lemma begin_keeps ck q : respects (keeps E G) (begin_pending_materialization ck q).
Proof.
  unfold begin_pending_materialization.
  repeat first [solve [auto with keeps] | progress keeps_step]. by eapply insert_pending_keeps.
Qed.

Lemma renew_keeps ck o a l v n : respects (keeps E G) (renew_pending_materialization ck o a l v n).
Proof.
  unfold renew_pending_materialization.
  repeat first [solve [auto with keeps]
    | apply exec_update_attachments; intros db Hok r Hr Hp; by eapply held_continues | progress keeps_step].
Qed.

Lemma lock_publish_keeps ck o a l v : respects (keeps E G) (_lock_pending_materialization_for_publish ck o a l v).
Proof.
  unfold _lock_pending_materialization_for_publish. repeat first [solve [auto with keeps] | progress keeps_step].
Qed.

Lemma finalize_keeps ck f ct n d : respects (keeps E G) (_finalize_pending_materialization ck f ct n d).
Proof.
  unfold _finalize_pending_materialization. repeat first [solve [auto with keeps] | progress keeps_step].
  match goal with Hx : _ = Ok _ |- _ => apply bind_Ok_inv in Hx as (? & _ & Hx); eapply update_attachments_keeps; [|exact Hx] end.
  intros Hok r Hr Hp. cbn beta in Hp. split_bools. by eapply held_continues.
Qed.
Hint Resolve begin_keeps renew_keeps lock_publish_keeps finalize_keeps : keeps.

Lemma load_by_object_keeps o k i : respects (keeps E G) (_load_by_object o k i).
Proof. unfold _load_by_object. repeat keeps_step. Qed.
Definition pt_target (t : PurgeTombstone) : PurgeTargetScope * pystr * pystr := (pt_target_scope t, pt_owner_id t, pt_object_id t).

Lemma bounded_identifier_same v name v' : _bounded_identifier v name = Ok v' -> v' = v.
Proof. unfold _bounded_identifier. intros Hv. inv_ok. done. Qed.
Lemma owner_id_same v v' : validate_blob_owner_id v = Ok v' -> v' = v.
Proof. unfold validate_blob_owner_id. intros Hv. inv_ok. done. Qed.

(** What validation keeps of a tombstone. *)
Lemma validated_target t t' : _validate_tombstone t = Ok t' ->
  pt_target t' = pt_target t /\ pt_tombstone_id t' = pt_tombstone_id t /\ pt_status t' = pt_status t
  /\ pt_version t' = pt_version t.
Proof.
  unfold _validate_tombstone. intros Hv.
  apply bind_Ok_inv in Hv as (i & Hi%bounded_identifier_same & Hv). apply bind_Ok_inv in Hv as (j & Hj%bounded_identifier_same & Hv).
  apply bind_Ok_inv in Hv as (? & _ & Hv). apply bind_Ok_inv in Hv as ([o k] & Ho & Hv).
  assert (o = pt_owner_id t) as ->.
  { destruct (bool_decide _); inv_ok; simplify_eq; [|by eapply owner_id_same].
    match goal with Hx : _bounded_legacy_owner_id _ = _ |- _ => unfold _bounded_legacy_owner_id in Hx end. inv_ok. done. }
  clear Ho. inv_ok. by subst.
Qed.

Lemma enqueue_scheduled_keeps t : E (pt_target t) -> respects (keeps E G) (_enqueue_scheduled t).
Proof.
  intros Ht. unfold _enqueue_scheduled. repeat first [apply load_by_object_keeps | progress keeps_step].
  eapply tombstone_enqueue_keeps; [|done]. match goal with Hx : _validate_tombstone _ = Ok _ |- _ => apply validated_target in Hx as [Hx _]; change (E (pt_target a)); by rewrite Hx end.
Qed.
Lemma scheduled_target scope o i k t c : _scheduled_tombstone scope o i k t = Ok c -> pt_target c = (scope, o, i).
Proof. unfold _scheduled_tombstone. intros Hs. inv_ok. by subst. Qed.
Lemma enqueue_attachment_keeps o a t : E (ATTACHMENT_PREFIX, o, a) -> respects (keeps E G) (enqueue_attachment o a t).
Proof.
  intros He. unfold enqueue_attachment. keeps_step. apply enqueue_scheduled_keeps.
  match goal with Hx : _scheduled_tombstone _ _ _ _ _ = Ok _ |- _ => by rewrite (scheduled_target _ _ _ _ _ _ Hx) end.
Qed.
Lemma attachment_get_keeps o a b : respects (keeps E G) (attachment_get o a b).
Proof.
  unfold attachment_get. repeat keeps_step. match goal with Hx : _ = Ok _ |- _ => apply bind_Ok_inv in Hx as (? & _ & [= _ <-]) end. reflexivity.
Qed.
Hint Resolve load_by_object_keeps attachment_get_keeps : keeps.

Lemma live_update p (g : attachment_row -> option Z) d :
  (forall r, p r = true -> deleted r = false) -> respects (keeps E G) (exec (update_attachments p (fun r => set_deleted d (g r) r))).
Proof. intros Hp. apply exec_update_attachments. intros db _ r _ Hr. by apply live_continues; [apply Hp| | |]. Qed.

Lemma schedule_claimed_keeps ck rows :
  Forall (fun r => E (ATTACHMENT_PREFIX, at_user_id r, at_attachment_id r)) rows -> respects (keeps E G) (schedule_claimed ck rows).
Proof.
  induction 1 as [|r rows He _ IH]; cbn [schedule_claimed]; repeat first [solve [auto with keeps] | progress keeps_step].
  apply enqueue_attachment_keeps.
  repeat match goal with
  | Hx : _bounded_identifier _ _ = Ok _ |- _ => apply bounded_identifier_same in Hx as ->
  | Hx : validate_blob_owner_id _ = Ok _ |- _ => apply owner_id_same in Hx as ->
  end. done.
Qed.

Lemma fence_same o i v o' i' v' : _fence o i v = Ok (o', i', v') -> o' = o /\ i' = i /\ v' = v.
Proof.
  unfold _fence, expected_version_of. intros Hf. inv_ok. simplify_eq.
  split_and!; [by eapply owner_id_same|by eapply bounded_identifier_same|done].
Qed.
Lemma mark_purged_keeps o i l v t : G i -> respects (keeps E G) (_mark_purged_for_executor o i l v t).
Proof.
  intros Hi. unfold _mark_purged_for_executor, _MARK_PURGED_SQL. repeat keeps_step.
  match goal with Hx : _fence _ _ _ = Ok _ |- _ => apply fence_same in Hx as (-> & -> & ->) end.
  eapply update_tombstones_keeps; [| |done].
  - intros r _ Hp. cbn beta in Hp. apply andb_true_iff in Hp as [Hp _].
    eapply fenced_advances; [exact Hp|done|done|cbn; lia|done].
  - intros r Hp _ _. cbn beta in Hp. unfold purge_fenced, of_tombstone in Hp. split_bools. by subst.
Qed.
Lemma mark_failed_keeps o i v t e : respects (keeps E G) (_mark_failed_for_executor o i v t e).
Proof.
  unfold _mark_failed_for_executor, _MARK_FAILED_SQL. repeat keeps_step.
  eapply update_tombstones_keeps; [| |done]; [|done]. intros r _ Hp. eapply fenced_advances; [exact Hp|done|done|cbn; lia|done].
Qed.
Lemma mark_review_keeps o i v e : respects (keeps E G) (_mark_manual_review_for_executor o i v e).
Proof.
  unfold _mark_manual_review_for_executor, _MARK_MANUAL_REVIEW_SQL. repeat keeps_step.
  eapply update_tombstones_keeps; [| |done]; [|done]. intros r _ Hp. eapply fenced_advances; [exact Hp|done|done|cbn; lia|done].
Qed.
Lemma mark_resolved_keeps o i l v t e : respects (keeps E G) (_mark_legacy_exact_resolved_for_administration o i l v t e).
Proof.
  unfold _mark_legacy_exact_resolved_for_administration, _RESOLVE_LEGACY_EXACT_SQL. repeat keeps_step.
  eapply update_tombstones_keeps; [| |done]; intros r; [intros _ Hp|intros Hp ? _]; cbn beta in Hp; split_bools; [|done].
  split; [done|right]. split_and!; [cbn; lia|cbn; lia|].
  match goal with Hx : ts_status _ = MANUAL_REVIEW |- _ => rewrite Hx end. done.
Qed.
End Methods.

#[export] Hint Resolve lock_owner_keeps get_lifecycle_keeps begin_keeps renew_keeps lock_publish_keeps finalize_keeps
  load_by_object_keeps attachment_get_keeps mark_failed_keeps mark_review_keeps mark_resolved_keeps : keeps.
