(* ===== verification/PurgeSpec.v ===== *)
(** * Fences of scheduled purges

    A typed tombstone is fenced by the tables: its attachment is deleted or its
    owner is retired.  Every method keeps the tables and the fences, a
    tombstone is enqueued only in the transaction that fences it, and a
    publication that the lease admits lies outside the scope of every
    tombstone. *)

From Stdlib Require Import ZifyBool.
From S2P Require Import Prelude Regex Errors Domain Sha256 Json Pg AuthoritySchema AuditDelivery BlobKeys ArtifactSchema Materialization Purge PurgeTables.

Abbreviation purge_target := (PurgeTargetScope * pystr * pystr)%type.

Definition scope_fenced (db : artifact_db) (tgt : purge_target) : Prop :=
  match tgt with
  | (EXACT_KEY, _, _) => True
  | (ATTACHMENT_PREFIX, _, i) => exists r, r ∈ ab_attachments db /\ at_attachment_id r = i /\ deleted r = true
  | (OWNER_NAMESPACE, o, _) => exists r, r ∈ ab_owners db /\ ow_owner_id r = o /\ ow_state r = OWNER_RETIRED
  end.

Lemma fenced_evolves db db' tgt : evolves db db' -> scope_fenced db tgt -> scope_fenced db' tgt.
Proof.
  intros He. destruct tgt as [[[] o] i]; cbn; [done| |].
  - intros (r & Hr & Hi & Hd). destruct (ev_attachments _ _ He r Hr) as (r' & Hr' & _ & _ & Hs & _).
    rewrite Hs in Hr' by done. eauto.
  - intros (r & Hr & Ho & Hs). exists r. split; [|done]. by apply (ev_owners _ _ He).
Qed.

(** The keys of the blob store that a target covers.  A legacy exact key covers
    none: it was written before keys were bound to owners and attachments, the
    code refuses to look for it in the store, and its purge rests on the evidence
    of an operator instead ([purge_grounded] of PurgeSafety.v). *)
Definition in_scope (tgt : purge_target) (owner key : pystr) : Prop :=
  match tgt with
  | (EXACT_KEY, _, _) => False
  | (ATTACHMENT_PREFIX, o, i) => owner = o /\ (key = i \/ exists rest, key = i ++ slash ++ rest)
  | (OWNER_NAMESPACE, o, _) => owner = o
  end.

Section Fences.
Context `{PyText} `{PgEnv} `{PgLower}.

Record fences_hold (db : artifact_db) : Prop := {
  fh_tables : tables_ok db;
  fh_fenced t : t ∈ ab_tombstones db -> scope_fenced db (target t)
}.

(** What a transaction keeps: only executors purge typed tombstones. *)
Definition db_step (db db' : artifact_db) : Prop :=
  fences_hold db -> fences_hold db' /\ evolves db db' /\ allowed (fun _ => True) (fun _ => False) db db'.
#[global] Instance db_step_preorder : PreOrder db_step.
Proof.
  split; [intros db Hok; split_and!; [done|reflexivity|reflexivity]|].
  intros a b c Hab Hbc Hok. destruct (Hab Hok) as (Hb & E1 & A1). destruct (Hbc Hb) as (Hc & E2 & A2).
  split_and!; [done|by etransitivity|by etransitivity].
Qed.

Lemma allowed_weaken (E E' : purge_target -> Prop) (G G' : pystr -> Prop) db db' :
  (forall x, E x -> E' x) -> (forall x, G x -> G' x) -> allowed E G db db' -> allowed E' G' db db'.
Proof.
  intros HE HG [Hn Hp]. split; [intros r Hr; destruct (Hn r Hr)|intros r Hr Hs Hx; destruct (Hp r Hr Hs Hx)]; auto.
Qed.

(** A transaction that fences what it enqueues. *)
Lemma fences_kept E G db db' :
  keeps E G db db' -> (forall tgt, E tgt -> scope_fenced db' tgt) -> fences_hold db ->
  fences_hold db' /\ evolves db db' /\ allowed E G db db'.
Proof.
  intros Hk HE [Hok Hf]. destruct (Hk Hok) as (Hok' & He & Ha). split_and!; [|done|done]. split; [done|].
  intros t Ht. destruct (al_new _ _ _ _ Ha t Ht) as [(r & Hr & Hi)|Hn]; [|auto].
  rewrite <-(identity_target _ _ Hi). eapply fenced_evolves; [exact He|auto].
Qed.
Lemma fenced_step E db db' :
  keeps E (fun _ => False) db db' -> (fences_hold db -> forall tgt, E tgt -> scope_fenced db' tgt) -> db_step db db'.
Proof.
  intros Hk HE Hok. destruct (fences_kept _ _ _ _ Hk (HE Hok) Hok) as (? & ? & ?). split_and!; [done..|].
  eapply allowed_weaken; [| |done]; done.
Qed.

Abbreviation never := (fun _ => False).
Lemma quiet_step db db' : keeps never never db db' -> db_step db db'.
Proof. intros Hk. by eapply fenced_step. Qed.
Lemma quiet_transaction {A} (m : SM artifact_db A) db : respects (keeps never never) m -> db_step db (snd (transaction m db)).
Proof. intros Hm. apply quiet_step. apply respects_transaction; [apply _|done]. Qed.

(** A transaction matters only when its body returns. *)
Lemma returning_transaction {A} (m : SM artifact_db A) db :
  (forall a s', m (Session db false) = (Ok a, s') -> db_step db (s_db s')) -> db_step db (snd (transaction m db)).
Proof.
  intros Hm. unfold transaction. destruct (m (Session db false)) as [[a|e] s']; [|reflexivity].
  destruct (s_failed s'); [reflexivity|]. by eapply Hm.
Qed.

(** The tables after a run that respects [R]. *)
Lemma run_keeps {A} (R : artifact_db -> artifact_db -> Prop) (m : SM artifact_db A) s r s' :
  m s = (r, s') -> respects R m -> R (s_db s) (s_db s').
Proof. intros Hr Hm. specialize (Hm s). by rewrite Hr in Hm. Qed.
End Fences.

(** ** Scheduling *)

(** Break a successful run into its statements. *)
Ltac inv_method :=
  repeat first [progress inv_run | match goal with
  | Hx : exec _ ?s = (Ok _, ?s') |- _ =>
      let f := fresh "Hf" in let g := fresh "Hf" in apply exec_run_Ok in Hx as (f & g & Hx)
  | Hx : _bounded_identifier _ _ = Ok _ |- _ => apply bounded_identifier_same in Hx
  | Hx : validate_blob_owner_id _ = Ok _ |- _ => apply owner_id_same in Hx
  end]; subst.

Section Scheduling.
Context `{PyText} `{PgEnv} `{PgLower}.
Abbreviation never := (fun _ => False).

Lemma marked_deleted p g d db rows db' r o :
  update_attachments p (fun r => set_deleted d (g r) r) db = Ok (rows, db') -> r ∈ ab_attachments db ->
  p r = true \/ deleted r = true -> scope_fenced db' (ATTACHMENT_PREFIX, o, at_attachment_id r).
Proof.
  unfold update_attachments. intros Hu Hr Hp. apply bind_Ok_inv in Hu as ([rows' t] & Hu & [= _ <-]).
  apply update_returning_Ok in Hu as (_ & _ & -> & _). cbn.
  exists (if p r then set_deleted d (g r) r else r). split_and!; [apply elem_of_update_where; eauto|by destruct (p r)|].
  destruct (p r); [done|naive_solver].
Qed.

Lemma record_fields r t : _from_record r = Ok t ->
  pt_target t = target r /\ pt_tombstone_id t = ts_tombstone_id r /\ pt_status t = ts_status r /\ pt_version t = ts_version r.
Proof. intros Ht. by apply validated_target in Ht. Qed.

(** The row that [_load_by_object] decoded. *)
Lemma load_by_object_run o k i s t s' : _load_by_object o k i s = (Ok t, s') ->
  s' = s /\ s_failed s = false /\
  match t with
  | None => True
  | Some t => exists r, r ∈ ab_tombstones (s_db s) /\ target r = pt_target t /\ ts_owner_id r = o /\ ts_object_id r = i
  end.
Proof.
  unfold _load_by_object. intros Hr. inv_run. subst. split_and!; [done|done|].
  destruct (_LOAD_BY_OBJECT_SQL _ _ _ _) as [r|] eqn:Hs; cbn in Hl; [|by injection Hl as <-].
  apply bind_Ok_inv in Hl as (t' & Ht & [= <-]). apply select_one_Some in Hs as [Hr Hp]. unfold object_key in Hp. split_bools. simplify_eq.
  exists r. split_and!; [done| |done|done]. by apply record_fields in Ht as [<- _].
Qed.

Lemma attachment_get_run o a b s rec s' : attachment_get o a b s = (Ok (Some rec), s') ->
  s' = s /\ exists r, r ∈ ab_attachments (s_db s) /\ of_attachment a o r = true /\ at_state r = READY.
Proof.
  unfold attachment_get. intros Hr. inv_method.
  repeat match goal with Hx : _required_id _ _ _ = _ |- _ => unfold _required_id in Hx end. inv_ok. subst.
  split; [destruct s, s'; cbn in *; congruence|].
  destruct (select_one _ _ _) as [r|] eqn:Hsel; [|done]. apply select_one_Some in Hsel as [Hin Hp]. split_bools. eauto.
Qed.

(** A tombstone found for the same work is fenced already. *)
Lemma found_fenced o i t scope key db r :
  fences_hold db -> r ∈ ab_tombstones db -> target r = pt_target t -> ts_owner_id r = o -> ts_object_id r = i ->
  _require_scheduled_target t scope key = Ok () -> scope_fenced db (scope, o, i).
Proof.
  intros Hok Hr Ht Ho Hi Hq. unfold _require_scheduled_target in Hq. inv_ok. split_bools.
  pose proof (fh_fenced _ Hok r Hr) as Hf. unfold target, pt_target in *.
  assert (pt_target_scope t = scope) as Hs by (by destruct (decide (pt_target_scope t = scope))).
  rewrite Ho, Hi in *. replace (ts_target_scope r) with scope in Hf by congruence. done.
Qed.

Definition deletable (o a : pystr) (db : artifact_db) : Prop :=
  exists r, r ∈ ab_attachments db /\ at_attachment_id r = a /\ (deleted r = true \/ (at_user_id r = o /\ at_state r = READY)).
Lemma deletable_evolves o a db db' : evolves db db' -> deletable o a db -> deletable o a db'.
Proof.
  intros He (r & Hr & Ha & Hd). destruct (ev_attachments _ _ He r Hr) as (r' & Hr' & Hi & Hu & Hdel & Hs).
  exists r'. split_and!; [done|congruence|]. destruct Hd as [Hd|[Hd Hd']]; [left; by rewrite Hdel|right; split; [congruence|auto]].
Qed.

(** Once the tombstone is enqueued, the rows of the attachment are deleted. *)
Lemma schedule_attachment_step o a t d db : db_step db (snd (transaction (schedule_attachment_prefix o a t d) db)).
Proof.
  apply returning_transaction. intros res s' Hr. unfold schedule_attachment_prefix in Hr. inv_method.
  destruct v4 as [tombstone created]. inv_method. rename Hr5 into Hx. rename Hr4 into Hload.
  apply load_by_object_run in Hload as (-> & _ & Hfound).
  set (E := eq (ATTACHMENT_PREFIX, o, a)).
  assert (keeps E never db (s_db s4) /\ (fences_hold db -> deletable o a (s_db s4))) as [Hk Hdel].
  { destruct v3 as [t'|]; inv_method.
    - destruct Hfound as (r & Hin & Ht & Ho & Hi). split; [reflexivity|]. intros Hok.
      match goal with Hq : _require_scheduled_target _ _ _ = Ok ?u |- _ => destruct u;
        destruct (found_fenced _ _ _ _ _ _ _ Hok Hin Ht Ho Hi Hq) as (x & ? & ? & ?); exists x; auto end.
    - destruct v3 as [rec|]; [|done]. apply attachment_get_run in Hr as (-> & r & Hin & Ha & Hs).
      assert (keeps E never db (s_db s4)) as Hk by (apply (run_keeps (keeps E never) _ _ _ _ Hx); by apply enqueue_attachment_keeps).
      split; [done|]. intros Hok. destruct (Hk (fh_tables _ Hok)) as (_ & He & _). eapply deletable_evolves; [exact He|].
      unfold of_attachment in Ha. split_bools. exists r. auto. }
  eapply (fenced_step E).
  - transitivity (s_db s4); [exact Hk|]. eapply update_attachments_keeps; [|exact Hr0].
    intros _ r _ Hp. cbn beta in Hp. split_bools. by apply live_continues.
  - intros Hok tgt <-. destruct (Hdel Hok) as (r & Hin & <- & Hd). eapply marked_deleted; [exact Hr0|done|].
    unfold of_attachment, deleted in *. destruct (at_deleted_at r); [by right|]. left. destruct Hd as [?|[Hu Hs]]; [done|].
    by rewrite !bool_decide_eq_true_2.
Qed.

Lemma updated_rows p f db rows db' x :
  update_attachments p f db = Ok (rows, db') -> x ∈ rows ->
  x ∈ ab_attachments db' /\ exists r, r ∈ ab_attachments db /\ p r = true /\ x = f r.
Proof.
  unfold update_attachments. intros Hu Hx. apply bind_Ok_inv in Hu as ([rows' t] & Hu & [= <- <-]).
  apply update_returning_Ok in Hu as (_ & -> & -> & _). apply list_elem_of_fmap in Hx as (r & -> & [Hr Hp]%elem_of_rows_where).
  split; [|eauto]. apply elem_of_update_where. exists r. by rewrite Hp.
Qed.

Lemma abandon_step ck o a l v d db : db_step db (snd (transaction (abandon_pending_materialization ck o a l v d) db)).
Proof.
  apply returning_transaction. intros res s' Hr. unfold abandon_pending_materialization in Hr. inv_method.
  unfold _ABANDON_PENDING_MATERIALIZATION_SQL in *. cbn in *. rename Hr5 into Hu.
  set (E := fun tgt => tgt = (ATTACHMENT_PREFIX, o, a) /\ v5 <> []).
  assert (keeps E never db (s_db s4)) as Hk.
  { eapply update_attachments_keeps; [|exact Hu]. intros _ r _ Hp. cbn beta in Hp. split_bools.
    by apply live_continues; [apply live_pending_live|..]. }
  assert (keeps E never (s_db s4) (s_db s')) as Hk'.
  { apply (run_keeps (keeps E never) _ _ _ _ Hr). destruct v5 as [|x [|]]; repeat first [solve [auto with keeps] | progress keeps_step].
    by apply enqueue_attachment_keeps. }
  eapply (fenced_step E); [by transitivity (s_db s4)|]. intros Hok tgt [-> Hne]. destruct v5 as [|x v5]; [done|].
  destruct (updated_rows _ _ _ _ _ x Hu ltac:(by left)) as (Hx & r & Hin & Hp & ->).
  destruct (Hk (fh_tables _ Hok)) as (Hok4 & _). destruct (Hk' Hok4) as (_ & He & _). eapply fenced_evolves; [exact He|].
  unfold of_attachment in Hp. split_bools. eexists. by split_and!.
Qed.

Lemma claim_rows ck n db rows db' :
  _CLAIM_EXPIRED_PENDING_MATERIALIZATIONS_SQL ck n db = Ok (rows, db') ->
  forall x, x ∈ rows -> x ∈ ab_attachments db' /\ deleted x = true.
Proof.
  unfold _CLAIM_EXPIRED_PENDING_MATERIALIZATIONS_SQL. intros Hc x Hx. apply bind_Ok_inv in Hc as ([rows' db1] & Hu & [= <- <-]).
  apply elem_of_scan in Hx. destruct (updated_rows _ _ _ _ _ x Hu Hx) as (? & r & _ & _ & ->). done.
Qed.

Lemma schedule_expired_step ck n db :
  db_step db (snd (transaction (schedule_expired_pending_materializations_for_administration ck n) db)).
Proof.
  apply returning_transaction. intros res s' Hr. unfold schedule_expired_pending_materializations_for_administration in Hr.
  inv_method. rename Hr1 into Hu. cbn in Hu.
  set (E := fun tgt => exists r, r ∈ v0 /\ tgt = (ATTACHMENT_PREFIX, at_user_id r, at_attachment_id r)).
  assert (keeps E never db (s_db s0)) as Hk by by eapply claim_expired_keeps.
  assert (keeps E never (s_db s0) (s_db s')) as Hk'.
  { apply (run_keeps (keeps E never) _ _ _ _ Hr). apply schedule_claimed_keeps. apply Forall_forall. intros r Hin. by exists r. }
  eapply (fenced_step E); [by transitivity (s_db s0)|]. intros Hok tgt (r & Hin & ->).
  destruct (Hk (fh_tables _ Hok)) as (Hok1 & _). destruct (Hk' Hok1) as (_ & He & _). eapply fenced_evolves; [exact He|].
  destruct (claim_rows _ _ _ _ _ Hu r Hin). by exists r.
Qed.

Lemma retire_fences at_ o db db' i :
  _RETIRE_BLOB_OWNER_SQL at_ o db = Ok ([OWNER_RETIRED], db') -> scope_fenced db' (OWNER_NAMESPACE, o, i).
Proof.
  unfold _RETIRE_BLOB_OWNER_SQL. intros Hu. apply bind_Ok_inv in Hu as ([rows t] & Hu & [= Hrows <-]).
  apply update_returning_Ok in Hu as (_ & -> & -> & _). destruct (rows_where _ _) as [|r [|]] eqn:Hw; [done| |done].
  assert (r ∈ rows_where (fun r => bool_decide (ow_owner_id r = o)) (ab_owners db)) as Hr by (rewrite Hw; by left).
  apply elem_of_rows_where in Hr as [Hr Ho]. cbn. exists (retired at_ r). split_and!; [|by split_bools|done].
  apply elem_of_update_where. exists r. by rewrite Ho.
Qed.

Lemma schedule_owner_step o t d db : db_step db (snd (transaction (schedule_owner_namespace o t d) db)).
Proof.
  apply returning_transaction. intros res s' Hr. unfold schedule_owner_namespace in Hr. inv_method.
  destruct v3 as [|[] [|]]; try done. cbn in Hr3. apply load_by_object_run in Hr7 as (-> & _ & _).
  destruct v7 as [tombstone created]. set (E := fun tgt : purge_target => exists i, tgt = (OWNER_NAMESPACE, o, i)).
  assert (keeps E never db (s_db s3)) as Hk.
  { transitivity (s_db s2); [by eapply ensure_owner_keeps|by eapply retire_keeps]. }
  assert (keeps E never (s_db s3) (s_db s7)) as Hk'.
  { apply (run_keeps (keeps E never) _ _ _ _ Hr8). destruct v6; repeat keeps_step. apply enqueue_scheduled_keeps.
    match goal with Hx : _scheduled_tombstone _ _ _ _ _ = Ok _ |- _ => rewrite (scheduled_target _ _ _ _ _ _ Hx) end. by eexists. }
  assert (keeps E never (s_db s7) (s_db s')) as Hk''.
  { apply (run_keeps (keeps E never) _ _ _ _ Hr). keeps_step; [|keeps_step]. apply live_update. intros r Hp. by split_bools. }
  eapply (fenced_step E); [transitivity (s_db s3); [done|by transitivity (s_db s7)]|]. intros Hok tgt [i ->].
  destruct (Hk (fh_tables _ Hok)) as (Hok3 & _). destruct (Hk' Hok3) as (Hok7 & He & _). destruct (Hk'' Hok7) as (_ & He' & _).
  eapply fenced_evolves; [exact He'|]. eapply fenced_evolves; [exact He|]. by eapply retire_fences.
Qed.
End Scheduling.

(** ** Publication *)

Section Publication.
Context `{PyText} `{PgEnv} `{PgLower}.

Definition separator (c : N) : bool := (c =? 47)%N || (c =? 92)%N.
Lemma validate_key_Ok s k : validate_blob_storage_key s = Ok k -> k = (fun c => if separator c then 47%N else c) <$> s.
Proof. unfold validate_blob_storage_key, _normalized_key. rewrite !guard_Ok. intros (_ & _ & _ & _ & _ & _ & _ & [= <-]). apply join_split. Qed.

(** Normal keys are kept. *)
Lemma validate_key_normal s k : has_char 92 s = false -> validate_blob_storage_key s = Ok k -> k = s.
Proof.
  intros Hs ->%validate_key_Ok. unfold has_char in Hs. rewrite existsb_false in Hs. rewrite <-(list_fmap_id s) at 2.
  apply list_fmap_ext. intros i c Hc%list_elem_of_lookup_2. specialize (Hs c Hc). unfold separator, id.
  rewrite N.eqb_sym in Hs. rewrite Hs, orb_false_r. destruct (N.eqb_spec c 47); congruence.
Qed.
Lemma validated_key_normal s k : validate_blob_storage_key s = Ok k -> has_char 92 k = false.
Proof.
  intros ->%validate_key_Ok. unfold has_char. apply existsb_false. intros x (c & -> & _)%list_elem_of_fmap.
  unfold separator. destruct (N.eqb_spec c 92) as [->|]; [by rewrite orb_true_r|]. rewrite orb_false_r.
  destruct (c =? 47)%N; [done|]. apply N.eqb_neq. congruence.
Qed.
Lemma validate_key_twice s k k' : validate_blob_storage_key s = Ok k -> validate_blob_storage_key k = Ok k' -> k' = k.
Proof. intros Hk. apply validate_key_normal. by eapply validated_key_normal. Qed.

Lemma contract_to_validation_Ok {A} msg (m : result A) a : contract_to_validation msg m = Ok a -> m = Ok a.
Proof. destruct m; cbn; [done|]. by case_match. Qed.
Lemma identity_to_data_Ok {A} (m : result A) a : identity_to_data m = Ok a -> m = Ok a.
Proof. destruct m; cbn; [done|]. by case_match. Qed.

Lemma blob_identifier_plain a x : fullmatch blob_identifier_re a = true -> x ∈ [47; 92]%N -> has_char x a = false.
Proof.
  intros Ha%blob_identifier_text Hx. apply component_text_without; [done|]. intros c Hc%component_char_plain.
  rewrite !orb_false_iff in Hc. destruct Hc as [[[_ H47] H92] _]. rewrite N.eqb_sym. set_solver.
Qed.
Lemma physical_id_same a a' : _physical_attachment_id a = Ok a' -> a' = a /\ has_char 47 a = false.
Proof.
  unfold _physical_attachment_id. intros Hp. inv_ok.
  match goal with Hx : contract_to_validation _ _ = Ok _ |- _ => apply contract_to_validation_Ok, validate_key_normal in Hx as -> end;
    [by subst|]. by apply blob_identifier_plain; [|set_solver].
Qed.

(** A pending row as the record that was read from it. *)
Lemma pending_identity r p : _pending_materialization r = Ok p ->
  pm_owner_id p = at_user_id r /\ pm_storage_key p = at_attachment_id r ++ slash ++ at_filename r
  /\ has_char 47 (at_attachment_id r) = false /\ has_char 92 (pm_storage_key p) = false.
Proof.
  unfold _pending_materialization. intros Hp. apply bind_Ok_inv in Hp as (? & _ & Hp). apply bind_Ok_inv in Hp as (? & _ & Hp).
  apply bind_Ok_inv in Hp as (? & _ & Hp). apply bind_Ok_inv in Hp as ([[[o a] loc] key] & Hi & Hp). inv_ok. subst. cbn [pm_owner_id pm_storage_key].
  apply identity_to_data_Ok in Hi. inv_ok. destruct v4 as [loc' key']. inv_ok. simplify_eq.
  match goal with Hx : validate_blob_owner_id _ = Ok _ |- _ => apply owner_id_same in Hx as -> end.
  match goal with Hx : _physical_attachment_id _ = Ok _ |- _ => apply physical_id_same in Hx as [-> ?] end.
  match goal with Hx : _materialization_physical_identity _ _ _ _ _ = Ok _ |- _ => unfold _materialization_physical_identity in Hx end.
  apply bind_Ok_inv in Hs4 as ([f l] & _ & Hs4). inv_ok. simplify_eq.
  match goal with Hx : _materialization_storage_key _ _ _ = Ok _ |- _ => unfold _materialization_storage_key in Hx end. inv_ok. subst.
  split_bools. match goal with Hx : contract_to_validation _ (validate_blob_storage_key v3) = Ok _ |- _ =>
    apply contract_to_validation_Ok, validated_key_normal in Hx end.
  split_and!; [done| |done|done]. by apply dec_stable.
Qed.

Lemma has_char_app c s t : has_char c (s ++ t) = has_char c s || has_char c t.
Proof. apply existsb_app. Qed.
Lemma first_component a b x y :
  has_char 47 a = false -> has_char 47 b = false -> a ++ slash ++ x = b ++ slash ++ y -> a = b.
Proof.
  revert b. induction a as [|c a IH]; intros [|d b] Ha Hb Heq; cbn in *; simplify_eq; try done.
  apply orb_false_iff in Ha as [_ Ha], Hb as [_ Hb]. f_equal. by apply IH.
Qed.

(** A held lease: its row is live, its key names the row, its owner is active. *)
Record published_by (db : artifact_db) (owner key : pystr) (r : attachment_row) : Prop := {
  pb_row : r ∈ ab_attachments db;
  pb_live : deleted r = false;
  pb_owner : owner = at_user_id r;
  pb_key : key = at_attachment_id r ++ slash ++ at_filename r;
  pb_name : has_char 47 (at_attachment_id r) = false;
  pb_normal : has_char 92 key = false;
  pb_active : exists o, o ∈ ab_owners db /\ ow_owner_id o = owner /\ ow_state o = OWNER_ACTIVE
}.

Lemma lock_publish_run ck o a l v s f s' :
  _lock_pending_materialization_for_publish ck o a l v s = (Ok f, s') ->
  exists r, published_by (s_db s') (pf_owner_id f) (pf_storage_key f) r.
Proof.
  unfold _lock_pending_materialization_for_publish, _lock_active_blob_owner. intros Hr. inv_method.
  apply raise_unless_Ok in Hl. destruct (select_owner o (s_db s6)) as [w|] eqn:Hw; [|done].
  apply select_one_Some in Hw as [Hw Hwo]. destruct (select_one _ _ _) as [r|] eqn:Hs; inv_method.
  2: by destruct v0.
  apply select_one_Some in Hs as [Hin Hp]. unfold lease_held, of_attachment in Hp. split_bools.
  match goal with Hx : _pending_materialization _ = Ok _ |- _ => destruct (pending_identity _ _ Hx) as (Ho & Hk & Hn & Hb) end.
  exists r. split; cbn; try done; [by apply live_pending_live|]. exists w. split_and!; [done|congruence|done].
Qed.

Lemma tombstone_name db t :
  tables_ok db -> t ∈ ab_tombstones db -> ts_target_scope t = ATTACHMENT_PREFIX -> has_char 47 (ts_object_id t) = false.
Proof.
  intros Hok Ht Hs. pose proof (proj1 (Forall_forall _ _) (tk_tombstones _ Hok) t Ht) as Hc. unfold check_tombstone_row in Hc.
  inv_ok. split_bools. match goal with Hx : target_shape _ = true |- _ => unfold target_shape in Hx; rewrite Hs in Hx end.
  unfold astralplane_attachment_id_is_canonical in *. by split_bools.
Qed.

(** No tombstone covers what a held lease publishes. *)
Lemma published_outside db owner key r t :
  tables_ok db -> published_by db owner key r -> t ∈ ab_tombstones db -> scope_fenced db (target t) -> ~ in_scope (target t) owner key.
Proof.
  intros Hok Hb Ht Hf Hs. pose proof (tombstone_name db t Hok Ht) as Hn. unfold target in *.
  destruct (ts_target_scope t); cbn in Hf, Hs; [done| |].
  - destruct Hf as (r' & Hr' & Hi & Hd). destruct Hs as [_ Hkey]. specialize (Hn eq_refl).
    assert (at_attachment_id r = ts_object_id t) as Heq.
    { destruct Hb as [_ _ _ -> Hx _ _]. destruct Hkey as [Hkey|[rest Hkey]]; [|exact (first_component _ _ _ rest Hx Hn Hkey)].
      rewrite <-Hkey, has_char_app in Hn. cbn in Hn. by rewrite orb_true_r in Hn. }
    assert (r = r') as <- by (eapply attachment_unique; [done|apply Hb|done|congruence]).
    pose proof (pb_live _ _ _ _ Hb). congruence.
  - destruct Hf as (o & Ho & Hi & Hst). destruct (pb_active _ _ _ _ Hb) as (o' & Ho' & Hi' & Hst').
    assert (o = o') as <- by (eapply owner_unique; [done|done|done|congruence]). congruence.
Qed.
End Publication.
