(* ===== verification/PurgeSafety.v ===== *)
(** * Purges are final

    The attachment tables together with the blob store.  [plane_ok] says that
    the fences hold and that nothing is stored under a purged tombstone;
    [respectful] is what every action of the plane keeps.  The repository
    operations are respectful ([plane_step]), and so is every action of an
    executor among respectful others, whose report of a purge is final. *)

From S2P Require Import Prelude Regex Errors Domain Sha256 Json Pg AuthoritySchema AuditDelivery BlobKeys ArtifactSchema Materialization Purge PurgeTables PurgeSpec.

(** What the plane relies on of a blob store: the keys each owner holds. *)
Class BlobStoreLaws (W : Type) `{BlobStore W} : Type := {
  holds : W -> pystr -> pystr -> Prop;
  stage_adds_nothing a w o k : holds (snd (_begin_staged_materialization a w)) o k -> holds w o k;
  release_adds_nothing w o k : holds (release_reservation w) o k -> holds w o k;
  publish_adds_one b a w o k :
    holds (snd (_publish_staged_materialization b a w)) o k -> holds w o k \/ (o = pa_owner_id a /\ k = pa_storage_key a);
  delete_adds_nothing a w o k : holds (snd (_delete_for_purge a w)) o k -> holds w o k;
  prefix_absence o p w k :
    is_prefix_absent o p w = Ok true -> k = p \/ (exists rest, k = p ++ slash ++ rest) -> ~ holds w o k;
  owner_absence o w k : is_owner_absent o w = Ok true -> ~ holds w o k
}.

Section Plane.
Context `{PyText} `{PgEnv} `{PgLower} {W : Type} `{BlobStoreLaws W}.

Definition vacant (w : W) (tgt : purge_target) : Prop := forall o k, in_scope tgt o k -> ~ holds w o k.

(** What a purged tombstone rests on: the store holds nothing in the scope of a
    typed target; a legacy exact key has the digest of an operator's evidence
    and the time of its resolution. *)
Definition purge_grounded (w : W) (t : tombstone_row) : Prop :=
  match ts_target_scope t with
  | EXACT_KEY => (exists e, ts_evidence t = Some e /\ fullmatch hex64_re e = true) /\ is_some (ts_resolved_at t) = true
  | ATTACHMENT_PREFIX => forall k, k = ts_object_id t \/ (exists rest, k = ts_object_id t ++ slash ++ rest) ->
                                   ~ holds w (ts_owner_id t) k
  | OWNER_NAMESPACE => forall k, ~ holds w (ts_owner_id t) k
  end.

Record plane_ok (p : plane W) : Prop := {
  po_fences : fences_hold (fst p);
  po_vacant t : t ∈ ab_tombstones (fst p) -> ts_status t = PURGED -> vacant (snd p) (target t)
}.

Lemma purged_grounded p t :
  plane_ok p -> t ∈ ab_tombstones (fst p) -> ts_status t = PURGED -> purge_grounded (snd p) t.
Proof.
  intros Hok Ht Hp. pose proof (po_vacant _ Hok t Ht Hp) as Hv.
  pose proof (proj1 (Forall_forall _ _) (tk_tombstones _ (fh_tables _ (po_fences _ Hok))) t Ht) as Hc. cbn beta in Hc.
  unfold purge_grounded. unfold vacant, target, in_scope in Hv. destruct (ts_target_scope t) eqn:Hs; [|by auto..].
  unfold check_tombstone_row in Hc. inv_ok. split_bools.
  match goal with Hx : target_shape _ = true |- _ => unfold target_shape in Hx; rewrite Hs, Hp in Hx end.
  split_bools. split; [|done]. unfold not_null in *. case_match; [eauto|done].
Qed.

Lemma purged_verified p t :
  plane_ok p -> t ∈ ab_tombstones (fst p) -> ts_status t = PURGED -> is_some (ts_verified_absent_at t) = true.
Proof.
  intros Hok Ht Hp.
  pose proof (proj1 (Forall_forall _ _) (tk_tombstones _ (fh_tables _ (po_fences _ Hok))) t Ht) as Hc. cbn beta in Hc.
  unfold check_tombstone_row in Hc. inv_ok. split_bools.
  match goal with Hx : state_shape _ = true |- _ => unfold state_shape in Hx; rewrite Hp in Hx end. by split_bools.
Qed.

(** What an action of the plane keeps. *)
Definition respectful (p p' : plane W) : Prop :=
  plane_ok p ->
  plane_ok p' /\ evolves (fst p) (fst p')
  /\ (forall t, t ∈ ab_tombstones (fst p) -> vacant (snd p) (target t) -> vacant (snd p') (target t)).

#[global] Instance respectful_preorder : PreOrder respectful.
Proof.
  split; [intros p Hok; split_and!; [done|reflexivity|done]|]. intros a b c Hab Hbc Hok.
  destruct (Hab Hok) as (Hb & E1 & V1). destruct (Hbc Hb) as (Hc & E2 & V2). split_and!; [done|by etransitivity|].
  intros t Ht Hv. destruct (ev_tombstones _ _ E1 t Ht) as (t' & Ht' & [Hi _]). rewrite (identity_target _ _ Hi).
  apply V2; [done|]. rewrite <-(identity_target _ _ Hi). by apply V1.
Qed.

(** A change of the tables that purges only vacant targets. *)
Lemma tables_respectful E G db db' w :
  (fences_hold db -> fences_hold db' /\ evolves db db' /\ allowed E G db db') ->
  (plane_ok (db, w) -> forall t, t ∈ ab_tombstones db' -> G (ts_tombstone_id t) -> vacant w (target t)) ->
  respectful (db, w) (db', w).
Proof.
  intros Hs HG Hok. destruct (Hs (po_fences _ Hok)) as (Hf & He & Ha). split_and!; [|done|done]. split; [done|]. cbn.
  intros t Ht Hp. destruct (decide (ts_target_scope t = EXACT_KEY)) as [Hx|Hx].
  { intros o k Hin. unfold target in Hin. by rewrite Hx in Hin. }
  destruct (al_purged _ _ _ _ Ha t Ht Hp Hx) as [(r & Hr & Hi & Hs')|Hg]; [|auto].
  rewrite <-(identity_target _ _ Hi). by apply (po_vacant _ Hok).
Qed.
Lemma db_step_respectful db db' w : db_step db db' -> respectful (db, w) (db', w).
Proof. intros Hs. by eapply tables_respectful. Qed.

(** A change of the store that adds no key. *)
Lemma store_respectful db w w' : (forall o k, holds w' o k -> holds w o k) -> respectful (db, w) (db, w').
Proof.
  intros Hw Hok. assert (forall tgt, vacant w tgt -> vacant w' tgt) as Hv by (intros tgt Hv o k Hin Hh; by eapply Hv, Hw).
  split_and!; [|reflexivity|auto]. split; [apply Hok|]. intros t Ht Hp. by apply Hv, (po_vacant _ Hok).
Qed.

(** A publication under a held lease. *)
Lemma publish_respectful db db1 w w' owner key r :
  keeps (fun _ => False) (fun _ => False) db db1 -> published_by db1 owner key r ->
  (forall o k, holds w' o k -> holds w o k \/ (o = owner /\ k = key)) -> respectful (db, w) (db, w').
Proof.
  intros Hk Hb Hw Hok. destruct Hok as [Hfh Hpv]. cbn in *. destruct (Hk (fh_tables _ Hfh)) as (Hok1 & He & _).
  assert (forall t, t ∈ ab_tombstones db -> vacant w (target t) -> vacant w' (target t)) as Hv.
  { intros t Ht Hv o k Hin Hh. destruct (Hw _ _ Hh) as [Hh'|[-> ->]]; [by eapply Hv|].
    destruct (ev_tombstones _ _ He t Ht) as (t1 & Ht1 & [Hi _]). rewrite (identity_target _ _ Hi) in Hin.
    revert Hin. eapply published_outside; [done|done|done|]. rewrite <-(identity_target _ _ Hi).
    eapply fenced_evolves; [exact He|]. by apply (fh_fenced _ Hfh). }
  split_and!; [|reflexivity|done]. split; [done|]. intros t Ht Hp. by apply Hv, Hpv.
Qed.
End Plane.

(** ** The operations of the repositories *)

Section Operations.
Context `{PyText} `{PgEnv} `{PgLower} {W : Type} `{BlobStoreLaws W}.
Abbreviation never := (fun _ => False).

Definition after_store {A} (body : store_run (W:=W) A) (p : plane W) : plane W :=
  let '(_, db', w') := store_transaction body (fst p) (snd p) in (db', w').

(** A method with the store, by its run. *)
Lemma store_transaction_respectful {A} (body : store_run A) db w :
  (forall r s w', body (Session db false) w = (r, s, w') ->
    respectful (db, w) (db, w') /\ (forall a, r = Ok a -> keeps never never db (s_db s))) ->
  respectful (db, w) (after_store body (db, w)).
Proof.
  intros Hb. unfold after_store, store_transaction. cbn. destruct (body _ w) as [[r s] w'] eqn:Hr. destruct (Hb _ _ _ eq_refl) as [Hs Hk].
  destruct r as [a|e]; [|done]. destruct (s_failed s); [done|].
  transitivity (db, w'); [done|]. apply db_step_respectful, quiet_step. by eapply Hk.
Qed.

Lemma fence_authority_same f a : fence_authority f = Ok a -> has_char 92 (pf_storage_key f) = false ->
  pa_owner_id a = pf_owner_id f /\ pa_storage_key a = pf_storage_key f.
Proof.
  unfold fence_authority, _create_blob_publish_authority. intros Ha Hn. inv_ok. subst. cbn.
  split; [by eapply owner_id_same|by eapply validate_key_normal].
Qed.

Lemma open_staging_respectful ck o a l v db w :
  respectful (db, w) (after_store (open_pending_materialization_staging ck o a l v) (db, w)).
Proof.
  apply store_transaction_respectful. intros r s w' Hr. unfold open_pending_materialization_staging in Hr.
  unfold mbind, store_run_mbind, in_session, on_store, lift in Hr.
  destruct (_lock_pending_materialization_for_publish ck o a l v _) as [[f|e] s1] eqn:Hl.
  2: { simplify_eq. split; [|done]. apply store_respectful. apply release_adds_nothing. }
  assert (keeps never never db (s_db s1)) as Hk by (apply (run_keeps (keeps never never) _ _ _ _ Hl); auto with keeps).
  destruct (fence_authority f) as [au|e].
  2: { simplify_eq. split; [|done]. apply store_respectful. apply release_adds_nothing. }
  pose proof (stage_adds_nothing au w) as Hst. destruct (_begin_staged_materialization au w) as [[x|e] w1]; simplify_eq; (split; [|done]);
    apply store_respectful; [done|]. intros o' k Hh. by apply Hst, release_adds_nothing.
Qed.

Lemma publish_pending_respectful ck b o a l v ct db w :
  respectful (db, w) (after_store (publish_pending_materialization ck b o a l v ct) (db, w)).
Proof.
  apply store_transaction_respectful. intros r s w' Hr. unfold publish_pending_materialization in Hr.
  match type of Hr with (in_session ?m ≫= _) _ _ = _ =>
    assert (respects (keeps never never) m) as Hm by (repeat first [solve [auto with keeps] | progress keeps_step]);
    assert (forall s f s', m s = (Ok f, s') -> exists row, published_by (s_db s') (pf_owner_id f) (pf_storage_key f) row) as Hlock
      by (intros ? ? ? Hx; inv_method; by eapply lock_publish_run);
    set (lock := m) in *
  end.
  unfold mbind, store_run_mbind, in_session, on_store in Hr.
  destruct (lock (Session db false)) as [[f|e] s1] eqn:Hl; [|simplify_eq; by split].
  destruct (Hlock _ _ _ Hl) as [row Hpub]. apply (run_keeps (keeps never never)) in Hl as Hk; [|done]. clearbody lock. cbn in Hk.
  destruct (lift _ s1) as [[au|e] s2] eqn:Ha; [|simplify_eq; by split].
  apply lift_run_Ok in Ha as [Ha ->]. apply bind_Ok_inv in Ha as (? & _ & Ha).
  apply fence_authority_same in Ha as [Ho Hkey]; [|by destruct Hpub].
  pose proof (publish_adds_one b au w) as Hst. rewrite Ho, Hkey in Hst.
  assert (respectful (db, w) (db, snd (_publish_staged_materialization b au w))) as Hres by by eapply publish_respectful.
  destruct (_publish_staged_materialization b au w) as [[written|e] w1]; [|by simplify_eq].
  destruct (_finalize_pending_materialization _ _ _ _ _ s1) as [r2 s2] eqn:Hfin. simplify_eq. split; [done|]. intros y _.
  transitivity (s_db s1); [done|]. apply (run_keeps (keeps never never) _ _ _ _ Hfin). auto with keeps.
Qed.
End Operations.

(** One operation of a repository, in its own transaction. *)
Section Steps.
Context `{PyText} `{PgEnv} `{PgLower} {W : Type} `{BlobStoreLaws W}.

Inductive plane_step : plane W -> plane W -> Prop :=
  | step_begin ck q db w : plane_step (db, w) (snd (transaction (begin_pending_materialization ck q) db), w)
  | step_renew ck o a l v n db w : plane_step (db, w) (snd (transaction (renew_pending_materialization ck o a l v n) db), w)
  | step_open ck o a l v p : plane_step p (after_store (open_pending_materialization_staging ck o a l v) p)
  | step_publish ck b o a l v ct p : plane_step p (after_store (publish_pending_materialization ck b o a l v ct) p)
  | step_schedule o a t d db w : plane_step (db, w) (snd (transaction (schedule_attachment_prefix o a t d) db), w)
  | step_abandon ck o a l v d db w : plane_step (db, w) (snd (transaction (abandon_pending_materialization ck o a l v d) db), w)
  | step_expire ck n db w :
      plane_step (db, w) (snd (transaction (schedule_expired_pending_materializations_for_administration ck n) db), w)
  | step_retire o t d db w : plane_step (db, w) (snd (transaction (schedule_owner_namespace o t d) db), w).

Lemma plane_step_respectful p p' : plane_step p p' -> respectful p p'.
Proof.
  destruct 1; [| |destruct p; apply open_staging_respectful|destruct p; apply publish_pending_respectful|..]; apply db_step_respectful;
    [by apply quiet_transaction; auto with keeps..| | | |];
    auto using schedule_attachment_step, abandon_step, schedule_expired_step, schedule_owner_step.
Qed.

Lemma plane_steps_respectful p p' : rtc plane_step p p' -> respectful p p'.
Proof. induction 1; [reflexivity|]. etransitivity; [by apply plane_step_respectful|done]. Qed.

(** A purged tombstone never changes. *)
Lemma purged_stays db db' t : evolves db db' -> t ∈ ab_tombstones db -> ts_status t = PURGED -> t ∈ ab_tombstones db'.
Proof.
  intros He Ht Hp. destruct (ev_tombstones _ _ He t Ht) as (t' & Ht' & _ & [->|(_ & _ & Hx)]); [done|]. by rewrite Hp in Hx.
Qed.
End Steps.

(** ** The executor among others *)

Section Executor.
Context `{PyText} `{PgEnv} `{PgLower} {W : Type} `{BlobStoreLaws W}.
Abbreviation never := (fun _ => False).
Context (others : nat -> plane W -> plane W) (Hothers : forall n p, respectful p (others n p)).

(** The actions so far were respectful. *)
Record trace_ok (x : executor_state) : Prop := {
  tr_actions : Forall (fun '(p, p') => respectful p p') (x_actions (W:=W) x);
  tr_plane : plane_ok (x_plane x)
}.

(** Assertions that respectful actions keep. *)
Definition stable (P : plane W -> Prop) : Prop := forall p p', plane_ok p -> P p -> respectful p p' -> P p'.

Definition triple {A} (P : plane W -> Prop) (m : XM (W:=W) A) (Q : result A -> plane W -> Prop) : Prop :=
  forall x, trace_ok x -> P (x_plane x) ->
    trace_ok (snd (m x)) /\ respectful (x_plane x) (x_plane (snd (m x))) /\ Q (fst (m x)) (x_plane (snd (m x))).

Lemma rely_pure {A} P (r : result A) (Q : result A -> plane W -> Prop) : (forall p, P p -> Q r p) -> triple P (pure r) Q.
Proof. intros HQ x Hx HP. split_and!; [done|reflexivity|]. by apply HQ. Qed.
Lemma rely_ret {A} P (a : A) (Q : result A -> plane W -> Prop) : (forall p, P p -> Q (Ok a) p) -> triple P (mret a) Q.
Proof. intros HQ. by apply (rely_pure P (Ok a)). Qed.

Lemma rely_bind {A B} P (m : XM A) (f : A -> XM B) (R : A -> plane W -> Prop) Q :
  triple P m (fun r p => match r with Ok a => R a p | Err e => Q (Err e) p end) ->
  (forall a, triple (R a) (f a) Q) -> triple P (m ≫= f) Q.
Proof.
  intros Hm Hf x Hx HP. destruct (Hm x Hx HP) as (Hx' & Hr & HR). unfold mbind, XM_mbind.
  destruct (m x) as [[a|e] x']; [|done]. destruct (Hf a x' Hx' HR) as (Hy & Hr' & HQ). split_and!; [done|by etransitivity|done].
Qed.

Lemma rely_weaken {A} (P P' : plane W -> Prop) (m : XM A) (Q Q' : result A -> plane W -> Prop) :
  (forall p, P' p -> P p) -> (forall r p, Q r p -> Q' r p) -> triple P m Q -> triple P' m Q'.
Proof. intros HP HQ Hm x Hx HP'. destruct (Hm x Hx (HP _ HP')) as (? & ? & ?). auto. Qed.

(** The interference of the others, then one action. *)
Lemma others_ok P n p : stable P -> plane_ok p -> P p -> plane_ok (others n p) /\ respectful p (others n p) /\ P (others n p).
Proof. intros HP Hok Hp. pose proof (Hothers n p) as Ho. split_and!; [by apply Ho|done|by apply (HP p)]. Qed.

Lemma rely_transaction {A} P (m : SM artifact_db A) Q :
  stable P ->
  (forall db w r db', plane_ok (db, w) -> P (db, w) -> transaction m db = (r, db') ->
    respectful (db, w) (db', w) /\ (plane_ok (db', w) -> Q r (db', w))) ->
  triple P (in_transaction others m) Q.
Proof.
  intros HP Hm x Hx Hp. unfold in_transaction.
  destruct (others_ok P (length (x_actions x)) (x_plane x) HP (tr_plane _ Hx) Hp) as (Hok & Ho & HP').
  destruct (others _ _) as [db w]. destruct (transaction m db) as [r db'] eqn:Ht. destruct (Hm _ _ _ _ Hok HP' Ht) as [Hr HQ].
  destruct (Hr Hok) as (Hok' & _). cbn.
  split_and!; [|by etransitivity|auto]. split; [apply Forall_cons; split; [exact Hr|apply Hx]|done].
Qed.

Lemma rely_store {A} P (f : W -> result A * W) Q :
  stable P -> (forall w o k, holds (snd (f w)) o k -> holds w o k) ->
  (forall db w, plane_ok (db, w) -> P (db, w) -> P (db, snd (f w)) -> Q (fst (f w)) (db, snd (f w))) ->
  triple P (call_store others f) Q.
Proof.
  intros HP Hf HQ x Hx Hp. unfold call_store.
  destruct (others_ok P (length (x_actions x)) (x_plane x) HP (tr_plane _ Hx) Hp) as (Hok & Ho & HP').
  destruct (others _ _) as [db w]. specialize (Hf w). specialize (HQ db w Hok HP'). destruct (f w) as [r w']. cbn in *.
  assert (respectful (db, w) (db, w')) as Hr by by apply store_respectful.
  destruct (Hr Hok) as (Hok' & _). split_and!; [split; [apply Forall_cons; split; [exact Hr|apply Hx]|done]|by etransitivity|]. apply HQ. by apply (HP (db, w)).
Qed.

Lemma rely_conflict {A} P (m handler : XM A) Q R :
  triple P m (fun r p => match r with Ok a => Q (Ok a) p | Err e => R p /\ Q (Err e) p end) ->
  triple R handler Q -> triple P (on_fence_conflict m handler) Q.
Proof.
  intros Hm Hh x Hx HP. destruct (Hm x Hx HP) as (Hx' & Hr & HQ). unfold on_fence_conflict. destruct (m x) as [[a|e] x']; [done|].
  destruct HQ as [HR HQ]. destruct (bool_decide _); [|done]. destruct (Hh x' Hx' HR) as (Hy & Hr' & HQ'). split_and!; [done|by etransitivity|done].
Qed.

Lemma rely_catch {A B} P (m : XM A) (ok failed : XM B) Q R S :
  triple P m (fun r p => match r with Ok _ => R p | Err e => S p /\ Q (Err e) p end) ->
  triple R ok Q -> triple S failed Q ->
  triple P (fun x => match m x with
                     | (Ok _, x') => ok x'
                     | (Err e, x') => if is_exception e then failed x' else (Err e, x')
                     end) Q.
Proof.
  intros Hm Hok Hf x Hx HP. destruct (Hm x Hx HP) as (Hx' & Hr & HQ).
  assert (forall (h : XM B) T x', trace_ok x' -> respectful (x_plane x) (x_plane x') -> triple T h Q -> T (x_plane x') ->
    trace_ok (snd (h x')) /\ respectful (x_plane x) (x_plane (snd (h x'))) /\ Q (fst (h x')) (x_plane (snd (h x')))) as Hseq.
  { intros h T y Hy Hxy Hh HT. destruct (Hh y Hy HT) as (? & ? & ?). split_and!; [done|by etransitivity|done]. }
  destruct (m x) as [[a|e] x']; [by eapply Hseq|]. destruct HQ. destruct (is_exception e); [by eapply Hseq|done].
Qed.

(** *** Assertions *)

Definition known (t : PurgeTombstone) (p : plane W) : Prop :=
  exists r, r ∈ ab_tombstones (fst p) /\ ts_tombstone_id r = pt_tombstone_id t /\ target r = pt_target t.
Definition cleared (t : PurgeTombstone) (p : plane W) : Prop := known t p /\ vacant (snd p) (pt_target t).
Definition purged (o i : pystr) (p : plane W) : Prop :=
  exists r, r ∈ ab_tombstones (fst p) /\ of_tombstone o i r = true /\ ts_status r = PURGED.

Lemma true_stable : stable (fun _ => True).
Proof. done. Qed.
Lemma known_stable t : stable (known t).
Proof.
  intros p p' Hok (r & Hr & Hi & Ht) Hp. destruct (Hp Hok) as (_ & He & _).
  destruct (ev_tombstones _ _ He r Hr) as (r' & Hr' & [Hid _]). exists r'. split_and!; [done| |].
  - by rewrite <-(identity_id _ _ Hid).
  - by rewrite <-(identity_target _ _ Hid).
Qed.
Lemma cleared_stable t : stable (cleared t).
Proof.
  intros p p' Hok [Hk Hv] Hp. split; [exact (known_stable t p p' Hok Hk Hp)|]. destruct Hk as (r & Hr & _ & Ht). rewrite <-Ht in *.
  destruct (Hp Hok) as (_ & _ & Hvac). exact (Hvac r Hr Hv).
Qed.
Lemma purged_stable o i : stable (purged o i).
Proof.
  intros p p' Hok (r & Hr & Hi & Hs) Hp. destruct (Hp Hok) as (_ & He & _). exists r. split; [exact (purged_stays _ _ _ He Hr Hs)|done].
Qed.

(** *** Actions *)

(** A typed prefix tombstone names its attachment. *)
Lemma validated_prefix t t' :
  _validate_tombstone t = Ok t' -> pt_target_scope t' = ATTACHMENT_PREFIX -> pt_storage_key t' = pt_object_id t'.
Proof.
  unfold _validate_tombstone. intros Hv Hs. apply bind_Ok_inv in Hv as (i & _ & Hv). apply bind_Ok_inv in Hv as (j & _ & Hv).
  apply bind_Ok_inv in Hv as (? & _ & Hv). apply bind_Ok_inv in Hv as ([o k] & _ & Hv). apply bind_Ok_inv in Hv as (? & Hc & Hv).
  inv_ok. subst. cbn in *. unfold check_typed_identity in Hc. rewrite Hs in Hc. inv_ok. split_bools. by apply dec_stable.
Qed.

Definition loaded_as (o i : pystr) (t : PurgeTombstone) (p : plane W) : Prop :=
  known t p /\ pt_owner_id t = o /\ pt_tombstone_id t = i
  /\ (pt_target_scope t = ATTACHMENT_PREFIX -> pt_storage_key t = pt_object_id t)
  /\ (pt_status t = PURGED -> purged o i p).

Lemma load_run o i db r db' : transaction (load o i) db = (r, db') ->
  db' = db /\ forall t, r = Ok (Some t) -> exists row, row ∈ ab_tombstones db /\ of_tombstone o i row = true /\ _from_record row = Ok t.
Proof.
  intros Hr. assert (db' = db) as ->.
  { replace db' with (snd (transaction (load o i) db)) by by rewrite Hr. symmetry. apply respects_transaction; [apply _|].
    unfold load. repeat respects_step. }
  split; [done|]. intros t ->. unfold transaction in Hr. destruct (load o i _) as [[x|e] s'] eqn:Hl; [|done].
  destruct (s_failed s'); [done|]. injection Hr as -> _. unfold load in Hl. inv_method. cbn in *.
  destruct (_LOAD_SQL _ _ _) as [row|] eqn:Hs; [|done]. cbn in *. inv_ok. simplify_eq.
  apply select_one_Some in Hs as [Hin Hp]. eauto.
Qed.

Lemma load_spec o i P : stable P ->
  triple P (_load others o i) (fun r p => P p /\ forall t, r = Ok (Some t) -> loaded_as o i t p).
Proof.
  intros HP. apply rely_transaction; [done|]. intros db w r db' Hok Hp [-> Hl]%load_run. split; [reflexivity|]. intros _.
  split; [done|]. intros t Ht. destruct (Hl t Ht) as (row & Hin & Ho & Hd). pose proof (record_fields _ _ Hd) as (Htg & Hid & Hst & _).
  pose proof Ho as Ho'. unfold of_tombstone in Ho'. split_bools. unfold target, pt_target in Htg. injection Htg as Hsc Hto Hobj.
  split_and!; [|congruence|congruence|by eapply validated_prefix|].
  - exists row. split_and!; [done|done|]. unfold target, pt_target. congruence.
  - intros Hp'. exists row. split_and!; [done|done|congruence].
Qed.

Lemma loaded_stable o i t : stable (loaded_as o i t).
Proof.
  intros p p' Hok (Hk & Ho & Hi & Hs & Hp) Hr. split_and!; [exact (known_stable _ _ _ Hok Hk Hr)|done..|].
  intros Hst. exact (purged_stable _ _ _ _ Hok (Hp Hst) Hr).
Qed.

Lemma absent_spec o i t :
  triple (loaded_as o i t) (_is_absent others t) (fun r p => loaded_as o i t p /\ (r = Ok true -> cleared t p)).
Proof.
  unfold _is_absent, ask_store. destruct (pt_target_scope t) eqn:Hs.
  - apply rely_pure. intros p Hp. by split.
  - apply rely_store; [apply loaded_stable|done|]. cbn. intros db w _ Hp _. split; [done|]. intros Ha. split; [apply Hp|].
    unfold pt_target. rewrite Hs. intros o' k [-> Hk]. destruct Hp as (_ & _ & _ & Hkey & _). rewrite <-Hkey in Hk by done.
    by eapply prefix_absence.
  - apply rely_store; [apply loaded_stable|done|]. cbn. intros db w _ Hp _. split; [done|]. intros Ha. split; [apply Hp|].
    unfold pt_target. rewrite Hs. intros o' k ->. by apply owner_absence.
Qed.

Lemma delete_spec o i t :
  triple (loaded_as o i t) (_delete_and_verify others t) (fun r p => match r with Ok _ => cleared t p | Err _ => loaded_as o i t p end).
Proof.
  unfold _delete_and_verify.
  apply (rely_bind _ _ _ (fun _ => loaded_as o i t)); [apply rely_pure; intros p Hp; by case_match|]. intros _.
  apply (rely_bind _ _ _ (fun _ => loaded_as o i t)); [apply rely_pure; intros p Hp; by case_match|]. intros au.
  apply (rely_bind _ _ _ (fun _ => loaded_as o i t)).
  { apply rely_store; [apply loaded_stable|apply delete_adds_nothing|]. intros db w _ _ Hp. by case_match. }
  intros out. apply (rely_bind _ _ _ (fun _ => loaded_as o i t)); [apply rely_pure; intros p Hp; by case_match|]. intros _.
  apply (rely_bind _ _ _ (fun (b : bool) p => loaded_as o i t p /\ (b = true -> cleared t p))).
  { eapply rely_weaken; [done| |apply absent_spec]. intros [b|e] p [Hp Hc]; [|done]. split; [done|]. naive_solver. }
  intros b. apply rely_pure. intros p [Hp Hc]. destruct b; cbn; auto.
Qed.

(** The others have not changed the target of the tombstone, so what is marked is vacant. *)
Lemma mark_purged_respectful o i l v at_ t db w r db' :
  plane_ok (db, w) -> cleared t (db, w) -> pt_tombstone_id t = i ->
  transaction (_mark_purged_for_executor o i l v at_) db = (r, db') -> respectful (db, w) (db', w).
Proof.
  intros Hok [(row & Hrow & Hid & Htg) Hv] <- Hr.
  assert (keeps never (eq (pt_tombstone_id t)) db db') as Hk.
  { replace db' with (snd (transaction (_mark_purged_for_executor o (pt_tombstone_id t) l v at_) db)) by by rewrite Hr.
    apply respects_transaction; [apply _|]. by apply mark_purged_keeps. }
  apply (tables_respectful never (eq (pt_tombstone_id t))); [by apply fences_kept|]. intros _ x Hx Hi.
  pose proof (fh_tables _ (po_fences _ Hok)) as Hdb. destruct (Hk Hdb) as (Hdb' & He & _).
  destruct (ev_tombstones _ _ He row Hrow) as (x' & Hx' & [Hi' _]).
  assert (x = x') as -> by (apply (tombstone_unique db'); [done..|left; rewrite <-(identity_id _ _ Hi'); congruence]).
  rewrite <-(identity_target _ _ Hi'), Htg. exact Hv.
Qed.

Lemma updated_one p f db n db' : update_tombstones p f db = Ok (n, db') -> _require_update n = Ok () ->
  exists r, r ∈ ab_tombstones db /\ p r = true /\ f r ∈ ab_tombstones db'.
Proof.
  unfold update_tombstones, _require_update. intros Hu Hn. apply bind_Ok_inv in Hu as ([rows ts] & Hu & [= <- <-]).
  apply raise_unless_Ok, Z.eqb_eq in Hn. apply update_returning_Ok in Hu as (_ & -> & -> & _). rewrite length_fmap in Hn.
  destruct (rows_where p (ab_tombstones db)) as [|r rest] eqn:Hw; [done|].
  assert (r ∈ rows_where p (ab_tombstones db)) as [Hr Hp]%elem_of_rows_where by (rewrite Hw; by left).
  exists r. split_and!; [done|done|]. apply elem_of_update_where. exists r. by rewrite Hp.
Qed.

Lemma mark_purged_run o i l v at_ db u db' :
  transaction (_mark_purged_for_executor o i l v at_) db = (Ok u, db') ->
  exists r, r ∈ ab_tombstones db' /\ of_tombstone o i r = true /\ ts_status r = PURGED.
Proof.
  unfold transaction. destruct (_mark_purged_for_executor _ _ _ _ _ _) as [[x|e] s'] eqn:Hm; [|done]. destruct (s_failed s'); [done|].
  intros [= -> <-]. unfold _mark_purged_for_executor in Hm. inv_method. destruct v0 as [[o' i'] v']. inv_method.
  destruct u. apply fence_same in Hl as (-> & -> & ->). destruct (updated_one _ _ _ _ _ Hr1 Hl0) as (r & _ & Hp & Hin).
  unfold purge_fenced in Hp. eexists. split_and!; [exact Hin| |done]. by split_bools.
Qed.

(** The report of an attempt. *)
Definition reported (o i : pystr) (r : result PurgeAttemptResult) (p : plane W) : Prop :=
  forall a, r = Ok a -> pr_tombstone_id a = i /\ (pr_state a <> ATTEMPT_FAILED -> purged o i p).

Lemma reported_error o i e p : reported o i (Err e) p.
Proof. by intros a [=]. Qed.
Lemma reported_failed o i n c p : reported o i (Ok (attempt_result ATTEMPT_FAILED i n c)) p.
Proof. by intros a [= <-]. Qed.
Lemma reported_loaded o i t s n c p : pt_status t = PURGED -> loaded_as o i t p -> reported o i (Ok (attempt_result s i n c)) p.
Proof. intros Hs (_ & _ & _ & _ & Hp) a [= <-]. split; [done|]. intros _. by apply Hp. Qed.
Hint Resolve reported_error reported_failed reported_loaded : core.

(** An assertion kept through a check. *)
Lemma rely_check P (r : result unit) {A} (f : unit -> XM A) Q :
  (forall e p, Q (Err e) p) -> triple P (f ()) Q -> triple P (pure r ≫= f) Q.
Proof.
  intros He Hf. apply (rely_bind _ _ _ (fun _ => P)); [apply rely_pure; intros p Hp; by destruct r|]. by intros [].
Qed.

Lemma loading o i A (f : option PurgeTombstone -> XM A) Q :
  (forall e p, Q (Err e) p) -> triple (fun _ => True) (f None) Q -> (forall t, triple (loaded_as o i t) (f (Some t)) Q) ->
  triple (fun _ => True) (_load others o i ≫= f) Q.
Proof.
  intros He Hn Hf. apply (rely_bind _ _ _ (fun r p => forall t, r = Some t -> loaded_as o i t p)).
  { eapply rely_weaken; [| |apply (load_spec o i _ true_stable)]; [done|]. intros [r|e] p [_ Hl]; [|done]. naive_solver. }
  intros [t|]; [|by eapply rely_weaken; [| |exact Hn]]. eapply rely_weaken; [| |exact (Hf t)]; auto.
Qed.

Lemma asking o i t A (f : bool -> XM A) Q :
  (forall e p, Q (Err e) p) -> (forall b, triple (loaded_as o i t) (f b) Q) -> triple (loaded_as o i t) (_is_absent others t ≫= f) Q.
Proof.
  intros He Hf. apply (rely_bind _ _ _ (fun _ => loaded_as o i t)); [|done].
  eapply rely_weaken; [done| |apply absent_spec]. intros [b|e] p [Hp _]; auto.
Qed.

Lemma reconcile_spec o i : triple (fun _ => True) (_reconcile_concurrent_transition others o i) (reported o i).
Proof.
  unfold _reconcile_concurrent_transition. apply loading; [auto|by apply rely_pure; auto|]. intros t.
  destruct (pt_status t) eqn:Hs; [by apply rely_pure; auto| |by apply rely_ret; auto|by apply rely_ret; auto].
  destruct (pt_target_scope t); [by apply rely_ret; eauto|..]; (apply asking; [auto|]); (intros []; [apply rely_ret|apply rely_pure]; eauto).
Qed.

(** A transaction of the executor that purges nothing. *)
Lemma quiet_spec {A B} (m : SM artifact_db A) (b : B) P Q :
  stable P -> respects (keeps never never) m -> (forall p, Q (Ok b) p) -> (forall e p, Q (Err e) p) ->
  triple P (in_transaction others m ;; mret b) Q.
Proof.
  intros HP Hm HQ He. apply (rely_bind _ _ _ (fun _ _ => True)); [|by intros a; apply rely_ret].
  apply rely_transaction; [done|]. intros db w r db' Hok Hp Hr. split; [|intros _; by destruct r].
  replace db' with (snd (transaction m db)) by by rewrite Hr. by apply db_step_respectful, quiet_transaction.
Qed.

(** Marking a cleared tombstone. *)
Lemma mark_purged_spec o i t l v at_ n : pt_tombstone_id t = i ->
  triple (cleared t) (in_transaction others (_mark_purged_for_executor o i l v at_) ;; mret (attempt_result ATTEMPT_PURGED i n None)) (reported o i).
Proof.
  intros Hi. apply (rely_bind _ _ _ (fun _ => purged o i)); [|intros u; apply rely_ret; by intros p Hp a [= <-]].
  apply rely_transaction; [apply cleared_stable|]. intros db w r db' Hok Hp Hr.
  split; [by eapply mark_purged_respectful|]. intros _. destruct r; [|apply reported_error]. by eapply mark_purged_run.
Qed.

Lemma rely_fact {A} (P : plane W -> Prop) (phi : Prop) (m : XM A) Q :
  (forall p, P p -> phi) -> (phi -> triple P m Q) -> triple P m Q.
Proof. intros HP Hm x Hx Hp. by apply Hm; [eapply HP|..]. Qed.

Lemma quiet_attempt {A} (m : SM artifact_db A) o i n c P handler :
  stable P -> respects (keeps never never) m -> triple (fun _ => True) handler (reported o i) ->
  triple P (on_fence_conflict (in_transaction others m ;; mret (attempt_result ATTEMPT_FAILED i n c)) handler) (reported o i).
Proof. intros HP Hm Hh. eapply rely_conflict; [|exact Hh]. apply quiet_spec; auto. Qed.

(** The attempt on an open tombstone. *)
Lemma attempt_spec o i t l v now n retry c handler :
  triple (fun _ => True) handler (reported o i) ->
  triple (loaded_as o i t) (fun x =>
    match _delete_and_verify others t x with
    | (Ok _, x') =>
        on_fence_conflict (in_transaction others (_mark_purged_for_executor o i l v now) ;;
                           mret (attempt_result ATTEMPT_PURGED i n None)) handler x'
    | (Err e, x') =>
        if is_exception e then
          on_fence_conflict (in_transaction others (_mark_failed_for_executor o i v retry c) ;;
                             mret (attempt_result ATTEMPT_FAILED i n (Some c))) handler x'
        else (Err e, x')
    end) (reported o i).
Proof.
  intros Hh. apply (rely_fact _ (pt_tombstone_id t = i)); [by intros p (_ & _ & Hi & _)|]. intros Hi.
  apply (rely_catch _ _ _ _ _ (cleared t) (loaded_as o i t)).
  - eapply rely_weaken; [| |apply (delete_spec o i t)]; [done|]. intros [u|e] p Hp; auto.
  - eapply rely_conflict; [|exact Hh]. eapply rely_weaken; [| |by apply mark_purged_spec]; [done|]. intros [a|e] p Hp; auto.
  - apply quiet_attempt; [apply loaded_stable|apply mark_failed_keeps|done].
Qed.

Lemma execute_spec o i now retry_at : triple (fun _ => True) (execute others o i now retry_at) (reported o i).
Proof.
  unfold execute.
  apply (rely_bind _ _ _ (fun _ _ => True)); [apply rely_pure; intros p _; case_match; auto|]. intros timestamp.
  apply (rely_bind _ _ _ (fun _ _ => True)); [apply rely_pure; intros p _; case_match; auto|]. intros next_retry.
  apply rely_check; [auto|]. apply loading; [auto|by apply rely_pure; auto|]. intros t.
  pose proof (reconcile_spec o i) as Hrec.
  destruct (pt_status t) eqn:Hs; [| | |by apply rely_pure; auto].
  2: { case_bool_decide.
       - apply (rely_bind _ _ _ (fun _ => loaded_as o i t)); [by apply rely_ret|]. intros _. by apply rely_ret; eauto.
       - apply (rely_bind _ _ _ (fun _ => loaded_as o i t)); [|intros _; by apply rely_ret; eauto].
         apply asking; [auto|]. intros b. apply rely_pure. intros p Hp. by destruct b. }
  all: apply rely_check; [auto|]; case_bool_decide;
    [apply quiet_attempt; [apply loaded_stable|apply mark_review_keeps|done]|by apply attempt_spec].
Qed.

(** A sweep: every attempt it reports as done left a purged tombstone. *)
Definition swept (results : list PurgeAttemptResult) (p : plane W) : Prop :=
  Forall (fun a => pr_state a <> ATTEMPT_FAILED -> exists o, purged o (pr_tombstone_id a) p) results.
Lemma swept_stable results : stable (swept results).
Proof.
  intros p p' Hok Hs Hr. eapply Forall_impl; [exact Hs|]. intros a Ha Hf. destruct (Ha Hf) as [o Ho].
  exists o. exact (purged_stable _ _ _ _ Hok Ho Hr).
Qed.

Lemma rely_frame {A} P (m : XM A) Q F :
  stable F -> triple P m Q -> triple (fun p => P p /\ F p) m (fun r p => Q r p /\ F p).
Proof.
  intros HF Hm x Hx [HP Hf]. destruct (Hm x Hx HP) as (Hx' & Hr & HQ). split_and!; [done|done|done|].
  exact (HF _ _ (tr_plane _ Hx) Hf Hr).
Qed.

Lemma execute_each_spec now retry ready :
  triple (fun _ => True) (execute_each others now retry ready) (fun r p => forall l, r = Ok l -> swept l p).
Proof.
  induction ready as [|t ready IH]; cbn [execute_each]; [apply rely_ret; intros p _ l [= <-]; constructor|].
  apply (rely_bind _ _ _ (fun a => swept [a])).
  { eapply rely_weaken; [| |apply execute_spec]; [done|]. intros [a|e] p Hr; [|done]. apply Forall_singleton.
    destruct (Hr a eq_refl) as [-> Hp]. eauto. }
  intros a. apply (rely_bind _ _ _ (fun rest => swept (a :: rest))); [|intros rest; apply rely_ret; intros p Hp l Hl; by simplify_eq].
  eapply rely_weaken; [| |apply (rely_frame _ _ _ _ (swept_stable [a]) IH)]; [by split|]. intros [rest|e] p [Hl Ha]; [|done].
  apply (Forall_app_2 _ [a]); [exact Ha|by apply Hl].
Qed.

Lemma list_ready_quiet at_ n : respects eq (list_ready_for_administration at_ n).
Proof. unfold list_ready_for_administration. repeat respects_step. Qed.

Lemma reconcile_ready_spec observed retry n :
  triple (fun _ => True) (reconcile_ready_for_administration others observed retry n) (fun r p => forall l, r = Ok l -> swept l p).
Proof.
  unfold reconcile_ready_for_administration, discover_ready_for_administration.
  apply (rely_bind _ _ _ (fun _ _ => True)); [by apply rely_pure; intros p _; case_match|]. intros timestamp.
  apply (rely_bind _ _ _ (fun _ _ => True)); [by apply rely_pure; intros p _; case_match|]. intros next_retry.
  apply rely_check; [done|]. apply (rely_bind _ _ _ (fun _ _ => True)); [|intros ready; apply execute_each_spec].
  apply (rely_bind _ _ _ (fun _ _ => True)); [by apply rely_pure; intros p _; case_match|]. intros at_.
  apply (rely_bind _ _ _ (fun _ _ => True)); [by apply rely_pure; intros p _; case_match|]. intros bound.
  apply rely_transaction; [done|]. intros db w r db' Hok _ Hr.
  pose proof (respects_transaction eq _ db (list_ready_quiet at_ bound)) as Hq. rewrite Hr in Hq. cbn in Hq. subst.
  split; [reflexivity|]. intros _. by destruct r.
Qed.
End Executor.

(** ** Operator resolution *)

Section Resolution.
Context `{PyText} `{PgEnv} `{PgLower} {W : Type} `{BlobStoreLaws W}.
Context (others : nat -> plane W -> plane W) (Hothers : forall n p, respectful p (others n p)).

(** The tombstone of an exact key, resolved with its evidence. *)
Definition resolved (i evidence : pystr) (p : plane W) : Prop :=
  exists r, r ∈ ab_tombstones (fst p) /\ ts_tombstone_id r = i /\ ts_target_scope r = EXACT_KEY
            /\ ts_status r = PURGED /\ ts_evidence r = Some evidence.
Lemma resolved_stable i e : stable (resolved i e).
Proof.
  intros p p' Hok (r & Hr & Hi & Hx & Hs & He) Hp. destruct (Hp Hok) as (_ & Hev & _). exists r.
  split; [exact (purged_stays _ _ _ Hev Hr Hs)|done].
Qed.

Lemma record_evidence r t : _from_record r = Ok t -> pt_evidence t = ts_evidence r.
Proof.
  unfold _from_record, _validate_tombstone. intros Hv. apply bind_Ok_inv in Hv as (? & _ & Hv). apply bind_Ok_inv in Hv as (? & _ & Hv).
  apply bind_Ok_inv in Hv as (? & _ & Hv). apply bind_Ok_inv in Hv as ([o k] & _ & Hv). inv_ok. by subst.
Qed.

Lemma load_legacy_run i db r db' : transaction (load_legacy_exact_for_administration i) db = (r, db') ->
  db' = db /\ forall t, r = Ok (Some t) ->
    exists row, row ∈ ab_tombstones db /\ ts_tombstone_id row = i /\ ts_target_scope row = EXACT_KEY /\ _from_record row = Ok t.
Proof.
  intros Hr. assert (db' = db) as ->.
  { replace db' with (snd (transaction (load_legacy_exact_for_administration i) db)) by by rewrite Hr. symmetry.
    apply respects_transaction; [apply _|]. unfold load_legacy_exact_for_administration. repeat respects_step. }
  split; [done|]. intros t ->. unfold transaction in Hr. destruct (load_legacy_exact_for_administration i _) as [[x|e] s'] eqn:Hl; [|done].
  destruct (s_failed s'); [done|]. injection Hr as -> _. unfold load_legacy_exact_for_administration in Hl. inv_method. cbn in *.
  destruct (_LOAD_LEGACY_FOR_ADMINISTRATION_SQL _ _) as [row|] eqn:Hs; [|done]. cbn in *. inv_ok. simplify_eq.
  apply select_one_Some in Hs as [Hin Hp]. split_bools. eauto 10.
Qed.

Definition legacy_as (i : pystr) (t : PurgeTombstone) (p : plane W) : Prop :=
  forall e, pt_status t = PURGED -> pt_evidence t = Some e -> resolved i e p.

Lemma loading_legacy i A (f : option PurgeTombstone -> XM A) Q :
  (forall e p, Q (Err e) p) -> triple (fun _ => True) (f None) Q -> (forall t, triple (legacy_as i t) (f (Some t)) Q) ->
  triple (fun _ => True) (_load_legacy_for_administration others i ≫= f) Q.
Proof.
  intros He Hn Hf. apply (rely_bind _ _ _ (fun r p => forall t, r = Some t -> legacy_as i t p)).
  - apply rely_transaction; [done|done|]. intros db w r db' Hok _ [-> Hl]%load_legacy_run. split; [reflexivity|]. intros _.
    destruct r as [r|e]; [|done]. intros t ->. destruct (Hl t eq_refl) as (row & Hin & Hi & Hx & Hd).
    intros e Hs He'. exists row. apply record_fields in Hd as Hd'. destruct Hd' as (_ & _ & Hst & _). apply record_evidence in Hd.
    split_and!; [done|done|done|congruence|congruence].
  - intros [t|]; [|by eapply rely_weaken; [| |exact Hn]]. eapply rely_weaken; [| |exact (Hf t)]; auto.
Qed.

Definition resolution_reported (i evidence : pystr) (r : result PurgeAttemptResult) (p : plane W) : Prop :=
  forall a, r = Ok a -> pr_tombstone_id a = i /\ resolved i evidence p.
Lemma resolution_error i ev e p : resolution_reported i ev (Err e) p.
Proof. by intros a [=]. Qed.
Hint Resolve resolution_error : core.

Lemma replay_spec i ev t msg : pt_status t = PURGED ->
  triple (legacy_as i t) (pure (replayed_resolution t i ev msg)) (resolution_reported i ev).
Proof.
  intros Hs. apply rely_pure. intros p Hp a Ha. unfold replayed_resolution in Ha. inv_ok. subst. split; [done|].
  apply Hp; [done|]. split_bools. by apply dec_stable.
Qed.

Lemma mark_resolved_spec o i l v at_ ev n P :
  stable P -> triple P (in_transaction others (_mark_legacy_exact_resolved_for_administration o i l v at_ ev) ;;
                        mret (attempt_result ATTEMPT_PURGED i n None)) (resolution_reported i ev).
Proof.
  intros HP. apply (rely_bind _ _ _ (fun _ => resolved i ev)); [|intros u; apply rely_ret; by intros p Hp a [= <-]].
  apply rely_transaction; [done|done|]. intros db w r db' Hok Hp Hr. split.
  { replace db' with (snd (transaction (_mark_legacy_exact_resolved_for_administration o i l v at_ ev) db)) by by rewrite Hr.
    apply db_step_respectful, quiet_transaction. auto with keeps. }
  intros _. destruct r as [u|e]; [|auto]. unfold transaction in Hr.
  destruct (_mark_legacy_exact_resolved_for_administration _ _ _ _ _ _ _) as [[x|e] s'] eqn:Hm; [|done]. destruct (s_failed s'); [done|].
  injection Hr as -> <-. unfold _mark_legacy_exact_resolved_for_administration, _lowercase_digest in Hm. inv_method. inv_ok. subst.
  destruct u. match goal with Hu : _RESOLVE_LEGACY_EXACT_SQL _ _ _ _ _ _ _ = Ok _ |- _ =>
    destruct (updated_one _ _ _ _ _ Hu ltac:(done)) as (row & _ & Hq & Hin) end.
  unfold of_tombstone in Hq. split_bools. eexists. split_and!; [exact Hin|done..].
Qed.

Lemma resolve_spec i o l at_ ev :
  triple (fun _ => True) (resolve_legacy_exact_for_administration others i o l at_ ev) (resolution_reported i ev).
Proof.
  unfold resolve_legacy_exact_for_administration.
  do 3 (apply (rely_bind _ _ _ (fun _ _ => True)); [apply rely_pure; intros p _; case_match; auto|]; intros ?).
  apply (rely_bind _ _ _ (fun e _ => e = ev)).
  { apply rely_pure. intros p _. unfold _lowercase_digest. by destruct (fullmatch hex64_re ev); cbn. }
  intros e. apply (rely_fact _ (e = ev)); [done|]. intros ->. eapply rely_weaken; [| |apply loading_legacy]; [done|done|auto| |].
  { by apply rely_pure. }
  intros t. apply rely_check; [auto|]. destruct (pt_status t) eqn:Hs; [by apply rely_pure| |by apply rely_pure|].
  { by apply replay_spec. }
  eapply rely_conflict.
  { eapply rely_weaken; [| |apply mark_resolved_spec; exact true_stable]; [done|]. intros [done_|failed] p Hp; [done|]. split; [exact I|auto]. }
  apply loading_legacy; [auto|by apply rely_pure|]. intros c. apply rely_check; [auto|].
  destruct (pt_status c) eqn:Hc; [by apply rely_pure|by apply replay_spec|by apply rely_pure|by apply rely_pure].
Qed.
End Resolution.
