(* ===== verification/PurgeClaims.v ===== *)
(** * Claims about materialization and purging

    Their witnesses run on a store that is the list of the keys it holds. *)

From S2P Require Import Prelude Regex Errors Domain Sha256 Json Pg AuthoritySchema Outbox AuditDelivery AuditDeliveryClaims BlobKeys ArtifactSchema Materialization Purge PurgeTables PurgeSpec PurgeSafety.

(** ** A reference store *)

Abbreviation key_store := (list (pystr * pystr)).

Definition under (p k : pystr) : bool := bool_decide (k = p) || starts_with (p ++ slash) k.
Definition covered (a : BlobPurgeAuthority) (blob : pystr * pystr) : bool :=
  bool_decide (fst blob = ga_owner_id a)
  && (bool_decide (ga_target_scope a = OWNER_NAMESPACE) || under (ga_storage_key a) (snd blob)).

#[global] Instance reference_store : BlobStore key_store := {|
  _begin_staged_materialization _ w := (Ok (), w);
  release_reservation w := w;
  _publish_staged_materialization b a w := (Ok b, (pa_owner_id a, pa_storage_key a) :: w);
  _delete_for_purge a w :=
    (Ok (Some {| bd_deleted_files := 1; bd_deleted_directories := 0; bd_absent_verified := true |}),
     rows_where (fun blob => negb (covered a blob)) w);
  is_prefix_absent o p w := Ok (forallb (fun blob => negb (bool_decide (fst blob = o) && under p (snd blob))) w);
  is_owner_absent o w := Ok (forallb (fun blob => negb (bool_decide (fst blob = o))) w)
|}.

Lemma starts_with_app p s : starts_with p (p ++ s) = true.
Proof. induction p as [|c p IH]; [done|]. cbn. by rewrite bool_decide_eq_true_2. Qed.

#[global] Program Instance reference_laws : BlobStoreLaws key_store := {| holds w o k := (o, k) ∈ w |}.
Next Obligation. done. Qed.
Next Obligation. done. Qed.
Next Obligation. cbn. intros b a w o k [[= -> ->]|Hk]%elem_of_cons; auto. Qed.
Next Obligation. cbn. intros a w o k [? _]%elem_of_rows_where. done. Qed.
Next Obligation.
  cbn [is_prefix_absent reference_store]. intros o p w k [= Hw] Hk Hin. rewrite forallb_forall in Hw. apply list_elem_of_In, Hw, negb_true_iff in Hin.
  cbn [fst snd] in Hin. rewrite bool_decide_eq_true_2 in Hin by done. unfold under in Hin.
  destruct Hk as [->|[rest ->]]; [by rewrite bool_decide_eq_true_2 in Hin|].
  rewrite app_assoc, starts_with_app, orb_true_r in Hin. done.
Qed.
Next Obligation.
  cbn. intros o w k [= Hw] Hin. rewrite forallb_forall in Hw. apply list_elem_of_In, Hw, negb_true_iff in Hin.
  by rewrite bool_decide_eq_true_2 in Hin.
Qed.

(** ** A published attachment, its purge scheduled *)

Definition sample_clock : clock := {| statement_timestamp := 1000000; clock_now := fun _ _ => 1000000 |}.
Definition sample_begin : begin_request :=
  {| rq_attachment_id := u "att-1"; rq_owner_id := u "alice"; rq_filename := u "notes.txt"; rq_category := u "text";
     rq_extension := u "txt"; rq_storage_locator := u "alice/att-1/notes.txt"; rq_storage_key := u "att-1/notes.txt";
     rq_max_bytes := 100; rq_created_at := 1; rq_lease_id := u "lease-1"; rq_lease_seconds := 60 |}.
(** The same under a lease whose identifier has a slash. *)
Definition slash_begin : begin_request :=
  {| rq_attachment_id := u "att-1"; rq_owner_id := u "alice"; rq_filename := u "notes.txt"; rq_category := u "text";
     rq_extension := u "txt"; rq_storage_locator := u "alice/att-1/notes.txt"; rq_storage_key := u "att-1/notes.txt";
     rq_max_bytes := 100; rq_created_at := 1; rq_lease_id := u "worker/1"; rq_lease_seconds := 60 |}.
Definition sample_write : BlobWriteResult :=
  {| bw_storage_key := u "att-1/notes.txt"; bw_size_bytes := 5; bw_sha256 := replicate 64 97%N |}.

Definition empty_plane : plane key_store := (ArtifactDb [] [] [], []).
Definition begun : plane key_store :=
  (snd (transaction (begin_pending_materialization sample_clock sample_begin) (fst empty_plane)), snd empty_plane).
Definition published : plane key_store :=
  after_store (publish_pending_materialization sample_clock sample_write (u "alice") (u "att-1") (u "lease-1") 0 (u "text/plain")) begun.
Definition scheduled : plane key_store :=
  (snd (transaction (schedule_attachment_prefix (u "alice") (u "att-1") (utc 2000000) 2) (fst published)), snd published).
Definition sample_tombstone : pystr := default [] (head (ts_tombstone_id <$> ab_tombstones (fst scheduled))).
Definition alone : nat -> plane key_store -> plane key_store := fun _ p => p.
Definition executed := execute alone (u "alice") sample_tombstone (utc 3000000) (utc 4000000) (Executing [] scheduled).

Lemma empty_plane_ok : plane_ok empty_plane.
Proof. split; [split; [by repeat constructor|set_solver]|set_solver]. Qed.
Lemma scheduled_reached : rtc plane_step empty_plane scheduled.
Proof.
  eapply rtc_l; [apply (step_begin sample_clock sample_begin)|]. eapply rtc_l; [apply step_publish|].
  eapply rtc_l; [|apply rtc_refl]. rewrite (surjective_pairing (after_store _ _)) at 1. apply step_schedule.
Qed.
Lemma scheduled_ok : plane_ok scheduled.
Proof. apply (plane_steps_respectful _ _ scheduled_reached), empty_plane_ok. Qed.
Lemma alone_respectful n p : respectful p (alone n p).
Proof. reflexivity. Qed.

Example executed_report : pr_state <$> (match fst executed with Ok a => Some a | Err _ => None end) = Some ATTEMPT_PURGED.
Proof. vm_compute. reflexivity. Qed.

Lemma executed_ok : plane_ok (x_plane (snd executed)).
Proof.
  assert (trace_ok (Executing [] scheduled)) as Hx by (split; [constructor|exact scheduled_ok]).
  destruct (execute_spec alone alone_respectful (u "alice") sample_tombstone (utc 3000000) (utc 4000000) _ Hx I) as (Hx' & _).
  apply Hx'.
Qed.

Definition swept_sample := reconcile_ready_for_administration alone (utc 3000000) (utc 4000000) 10 (Executing [] scheduled).
Lemma swept_report : exists a, fst swept_sample = Ok [a] /\ pr_state a = ATTEMPT_PURGED /\ pr_tombstone_id a = sample_tombstone.
Proof. eexists. split_and!; vm_compute; reflexivity. Qed.

(** A legacy tombstone that awaits an operator. *)
Definition legacy_tombstone : tombstone_row :=
  {| ts_tombstone_id := u "legacy-1"; ts_owner_id := u "alice"; ts_object_kind := u "attachment"; ts_object_id := u "old-1";
     ts_storage_key := u "old-1/file"; ts_target_scope := EXACT_KEY; ts_storage_locator_sha256 := replicate 64 97%N;
     ts_requested_at := 1; ts_status := MANUAL_REVIEW; ts_attempt_count := 0; ts_version := 1; ts_available_at := 1;
     ts_verified_absent_at := None; ts_evidence := None; ts_resolved_at := None; ts_last_error_code := Some (u "publication_fence_required") |}.
Definition legacy_plane : plane key_store := (ArtifactDb [] [] [legacy_tombstone], []).
Lemma legacy_plane_ok : plane_ok legacy_plane.
Proof.
  split; [split; [by repeat constructor|]|]; cbn; intros t ->%list_elem_of_singleton; [exact I|done].
Qed.
Definition resolved_sample := resolve_legacy_exact_for_administration alone (u "legacy-1") (u "alice") (replicate 64 97%N) (utc 5)
  (replicate 64 98%N) (Executing [] legacy_plane).
Lemma resolved_report : exists a, fst resolved_sample = Ok a.
Proof. eexists. vm_compute. reflexivity. Qed.

Lemma lower_reference_ascii : lower_is_ascii (H1:=lower_reference).
Proof. intros s _. reflexivity. Qed.

(** ** Theorems *)

Section Claims.
Context `{PyText} `{PgEnv} `{PgLower} {W : Type} `{BlobStoreLaws W}.

(** C9: Whatever the repositories do to the attachment tables and the blob
    store (begin, renew, stage and publish a materialization, abandon it, claim
    the expired ones, schedule the purge of an attachment or of an owner, in
    any order, returning or raising), the tables keep their constraints, each
    scheduled target stays fenced, and nothing is stored again under a
    tombstone that is purged, whose row no longer changes; the purge of a legacy
    exact key keeps its operator's evidence. *)
Theorem purges_survive_operations (p p' : plane W) :
  plane_ok p -> rtc plane_step p p' ->
  plane_ok p' /\ evolves (fst p) (fst p')
  /\ forall t, t ∈ ab_tombstones (fst p) -> ts_status t = PURGED ->
       t ∈ ab_tombstones (fst p') /\ vacant (snd p') (target t) /\ purge_grounded (snd p') t.
Proof.
  intros Hok Hs. destruct (plane_steps_respectful _ _ Hs Hok) as (Hok' & He & Hv). split_and!; [done|done|].
  intros t Ht Hp. assert (t ∈ ab_tombstones (fst p')) by by eapply purged_stays.
  split_and!; [done|by apply (po_vacant _ Hok')|by apply purged_grounded].
Qed.

Context (others : nat -> plane W -> plane W) (Hothers : forall n q, respectful q (others n q)).

(** C8: An executor among respectful others does only respectful actions, so
    that executors and repositories compose, and an attempt that it reports as
    purged is durable and final.  The owner's tombstone of that identifier is
    stored with status [PURGED] and the time its absence was verified; whatever
    respectful actions follow, its row stays as it is and nothing is stored in
    its scope (the keys of the attachment, or all keys of the owner), or, for a
    legacy exact key, whose absence the code never inspects, the row keeps the
    operator's evidence it was resolved with. *)
Theorem execution_is_final (p : plane W) (o i : pystr) (now retry_at : datetime) :
  plane_ok p ->
  let '(r, x) := execute others o i now retry_at (Executing [] p) in
  Forall (fun '(q, q') => respectful q q') (x_actions x) /\ respectful p (x_plane x)
  /\ forall a, r = Ok a -> pr_state a <> ATTEMPT_FAILED ->
       pr_tombstone_id a = i
       /\ exists t, t ∈ ab_tombstones (fst (x_plane x)) /\ (ts_owner_id t, ts_tombstone_id t) = (o, i)
         /\ ts_status t = PURGED /\ is_some (ts_verified_absent_at t) = true
         /\ forall q, respectful (x_plane x) q -> t ∈ ab_tombstones (fst q) /\ purge_grounded (snd q) t.
Proof.
  intros Hok. assert (trace_ok (Executing [] p)) as Hx by by split.
  destruct (execute_spec others Hothers o i now retry_at _ Hx I) as (Hx' & Hr & Hrep).
  destruct (execute _ _ _ _ _ _) as [r x]. split_and!; [apply Hx'|done|]. intros a -> Hs. destruct (Hrep a eq_refl) as [Hi Hp].
  split; [done|]. destruct (Hp Hs) as (t & Ht & Ho & Hst). exists t. split_and!; [done| |done| |].
  - unfold of_tombstone in Ho. split_bools. congruence.
  - eapply purged_verified; [apply (tr_plane _ Hx')|done|done].
  - intros q Hq. destruct (Hq (tr_plane _ Hx')) as (Hok' & He & _).
    assert (t ∈ ab_tombstones (fst q)) by by eapply purged_stays. split; [done|]. by apply purged_grounded.
Qed.

(** A recovery sweep over the ready tombstones does only respectful
    actions, and every attempt it reports as purged, even one that a later
    attempt of the sweep follows, has a purged tombstone at its end. *)
Theorem sweep_is_final (p : plane W) (observed_at retry_at : datetime) (limit : Z) :
  plane_ok p ->
  let '(r, x) := reconcile_ready_for_administration others observed_at retry_at limit (Executing [] p) in
  Forall (fun '(q, q') => respectful q q') (x_actions x)
  /\ forall l, r = Ok l -> Forall (fun a => pr_state a <> ATTEMPT_FAILED ->
       exists t, t ∈ ab_tombstones (fst (x_plane x)) /\ ts_tombstone_id t = pr_tombstone_id a /\ ts_status t = PURGED
                 /\ vacant (snd (x_plane x)) (target t)) l.
Proof.
  intros Hok. assert (trace_ok (Executing [] p)) as Hx by by split.
  destruct (reconcile_ready_spec others Hothers observed_at retry_at limit _ Hx I) as (Hx' & Hr & Hrep).
  destruct (reconcile_ready_for_administration _ _ _ _ _) as [r x]. split; [apply Hx'|]. intros l ->.
  eapply Forall_impl; [exact (Hrep l eq_refl)|]. intros a Ha Hs. destruct (Ha Hs) as (o & t & Ht & Ho & Hst).
  unfold of_tombstone in Ho. split_bools. exists t. split_and!; [done|done|done|]. by apply (po_vacant _ (tr_plane _ Hx')).
Qed.

(** An operator's resolution of a legacy exact key that returns has left
    its tombstone purged with exactly the evidence given, also when it replays
    an earlier resolution or races with one. *)
Theorem resolution_is_durable (p : plane W) (i o locator evidence : pystr) (observed_at : datetime) :
  plane_ok p ->
  let '(r, x) := resolve_legacy_exact_for_administration others i o locator observed_at evidence (Executing [] p) in
  Forall (fun '(q, q') => respectful q q') (x_actions x)
  /\ forall a, r = Ok a -> pr_tombstone_id a = i /\ resolved i evidence (x_plane x).
Proof.
  intros Hok. assert (trace_ok (Executing [] p)) as Hx by by split.
  destruct (resolve_spec others Hothers i o locator observed_at evidence _ Hx I) as (Hx' & Hr & Hrep).
  destruct (resolve_legacy_exact_for_administration _ _ _ _ _ _ _) as [r x]. split; [apply Hx'|exact Hrep].
Qed.
End Claims.

(** C34: The names the code accepts are the names the tables accept: owners and
    attachment identifiers always, and a key of Unicode text exactly when it is
    accepted in its normal form and has no character that the server classes as a
    control character.  The difference is only that: a key the code accepts and
    the tables refuse has such a character, and it is DEL or beyond ASCII.  Assumed
    of letter case: [lower] treats ASCII as ASCII, and beyond ASCII neither
    [lower] nor [casefold] makes a full stop or a device name ([case_laws]). *)
Theorem storage_names_agree `{PyText} `{PgEnv} `{PgLower} :
  lower_is_ascii -> case_laws ->
  (forall o, is_ok (validate_blob_owner_id o) = astralplane_blob_owner_is_canonical o)
  /\ (forall a, is_ok (_physical_attachment_id a) = astralplane_attachment_id_is_canonical a)
  /\ forall k, is_ok (utf8_encode k) = true ->
       (astralplane_blob_storage_key_is_canonical k = true <-> validate_blob_storage_key k = Ok k /\ existsb pg_cntrl k = false)
       /\ (validate_blob_storage_key k = Ok k -> astralplane_blob_storage_key_is_canonical k = false ->
           exists c, c ∈ k /\ pg_cntrl c = true /\ (127 <= c)%N).
Proof.
  intros Hl Hcase. split_and!; [intros o; by apply owner_agrees| |].
  2: { intros k _. assert (forall part, part ∈ split_at (N.eqb 47) k -> same_device part) as Hdev by (intros; by apply reserved_agrees_all).
       pose proof (key_agrees Hl k Hdev) as Hk. split; [done|]. intros Hv Hno.
       destruct (existsb pg_cntrl k) eqn:Hctl; [|by rewrite (proj2 Hk (conj Hv eq_refl)) in Hno].
       apply existsb_exists in Hctl as (c & Hc%list_elem_of_In & Hctl). exists c. split_and!; [done|done|by eapply passed_control]. }
  intros a. destruct (astralplane_attachment_id_is_canonical a) eqn:Hc.
  - apply (attachment_id_agrees Hl) in Hc as [Hm Hv]. unfold _physical_attachment_id. rewrite Hm. cbn [raise_unless bind_Ok].
    rewrite bind_Ok, Hv. cbn [contract_to_validation]. rewrite bind_Ok, (blob_identifier_plain _ 47%N Hm) by set_solver. done.
  - destruct (_physical_attachment_id a) as [a'|e] eqn:Hp; [|done]. exfalso. destruct (physical_id_same _ _ Hp) as [-> _].
    unfold _physical_attachment_id in Hp. inv_ok. apply contract_to_validation_Ok in Hs0. subst.
    assert (attachment_name a) as Hn by done. apply (attachment_id_agrees Hl) in Hn. congruence.
Qed.

Lemma safe_identifier_no_slash l : has_char 47 l = true -> fullmatch _SAFE_IDENTIFIER l = false.
Proof.
  intros Hl. apply not_true_iff_false. intros (s1 & s2 & -> & (c & -> & Hc) & _ & Hf)%fullmatch_lang.
  rewrite has_char_app in Hl. apply orb_true_iff in Hl as [Hl|Hl].
  - unfold has_char in Hl. cbn [existsb] in Hl. rewrite orb_false_r in Hl. by apply N.eqb_eq in Hl as <-.
  - apply existsb_exists in Hl as (x & Hx%list_elem_of_In & <-%N.eqb_eq). rewrite Forall_forall in Hf. by specialize (Hf _ Hx).
Qed.

(** A lease identifier may contain a slash: a materialization begins under
    it.  Abandoning one always raises [SQLContractError] before any statement,
    because the purge store checks it as an identifier without slashes. *)
Theorem slash_lease_cannot_be_abandoned :
  (exists q r, has_char 47 (rq_lease_id q) = true
     /\ fst (transaction (begin_pending_materialization sample_clock q) (fst empty_plane)) = Ok r)
  /\ forall ck o a l v d db, has_char 47 l = true ->
       exists msg, transaction (abandon_pending_materialization ck o a l v d) db = (raise SQLContractError msg, db).
Proof.
  split; [exists slash_begin; eexists; split; vm_compute; reflexivity|].
  intros ck o a l v d db Hl.
  unfold transaction, abandon_pending_materialization, validate_blob_owner_id, _bounded_identifier, mbind, SM_mbind, lift.
  rewrite (safe_identifier_no_slash l Hl). destruct (raise_if _ _) as [[]|e] eqn:Ho; cbn [outcome_mbind].
  2: { eexists. unfold raise_if in Ho. case_match; [|done]. by injection Ho as <-. }
  destruct (fullmatch _SAFE_IDENTIFIER a); eexists; reflexivity.
Qed.

(** ** Witnesses *)

Lemma purges_survive_operations_witness :
  exists t, t ∈ ab_tombstones (fst (x_plane (snd executed))) /\ ts_status t = PURGED
    /\ vacant (snd (after_store (publish_pending_materialization sample_clock sample_write (u "alice") (u "att-1") (u "lease-1") 0
                                   (u "text/plain")) (x_plane (snd executed)))) (target t).
Proof.
  destruct (head (ab_tombstones (fst (x_plane (snd executed))))) as [t|] eqn:Ht; [|vm_compute in Ht; discriminate Ht].
  apply head_Some_elem_of in Ht as Hin. exists t. assert (ts_status t = PURGED) as Hs by (vm_compute in Ht; injection Ht as <-; reflexivity).
  destruct (purges_survive_operations (x_plane (snd executed)) _ executed_ok
    (rtc_once _ _ (step_publish sample_clock sample_write (u "alice") (u "att-1") (u "lease-1") 0 (u "text/plain") _)))
    as (_ & _ & Hkept).
  split_and!; [exact Hin|exact Hs|]. exact (proj1 (proj2 (Hkept t Hin Hs))).
Defined.

Lemma execution_is_final_witness :
  let '(r, x) := executed in
  (exists a, r = Ok a /\ pr_state a = ATTEMPT_PURGED)
  /\ exists t, t ∈ ab_tombstones (fst (x_plane x)) /\ ts_status t = PURGED /\ purge_grounded (snd (x_plane x)) t.
Proof.
  pose proof (execution_is_final alone alone_respectful scheduled (u "alice") sample_tombstone (utc 3000000) (utc 4000000) scheduled_ok)
    as Hfinal.
  pose proof executed_report as Hreport. fold executed in Hfinal. destruct executed as [r x]. destruct Hfinal as (_ & _ & Hfinal).
  destruct r as [a|e]; [|discriminate Hreport]. injection Hreport as Hstate. split; [by exists a|].
  destruct (Hfinal a eq_refl ltac:(by rewrite Hstate)) as (_ & t & Ht & _ & Hst & _ & Hq). exists t. split; [done|].
  split; [exact Hst|]. exact (proj2 (Hq _ (PreOrder_Reflexive _))).
Defined.

Lemma sweep_is_final_witness :
  let '(r, x) := reconcile_ready_for_administration alone (utc 3000000) (utc 4000000) 10 (Executing [] scheduled) in
  (exists a, r = Ok [a] /\ pr_state a = ATTEMPT_PURGED /\ pr_tombstone_id a = sample_tombstone)
  /\ exists t, t ∈ ab_tombstones (fst (x_plane x)) /\ ts_tombstone_id t = sample_tombstone /\ ts_status t = PURGED.
Proof.
  pose proof (sweep_is_final alone alone_respectful scheduled (utc 3000000) (utc 4000000) 10 scheduled_ok) as Hfinal.
  pose proof swept_report as Hreport. unfold swept_sample in Hreport.
  destruct (reconcile_ready_for_administration _ _ _ _ _) as [r x]. destruct Hfinal as (_ & Hfinal). cbn [fst] in Hreport. destruct Hreport as (a & -> & Hs & Hi).
  split; [exists a; exact (conj eq_refl (conj Hs Hi))|]. pose proof (Forall_inv (Hfinal _ eq_refl)) as Ha. destruct (Ha ltac:(by rewrite Hs)) as (t & Ht & Hid & Hst & _).
  exists t. exact (conj Ht (conj (eq_trans Hid Hi) Hst)).
Defined.

Lemma resolution_is_durable_witness :
  let '(r, x) := resolve_legacy_exact_for_administration alone (u "legacy-1") (u "alice") (replicate 64 97%N) (utc 5)
                   (replicate 64 98%N) (Executing [] legacy_plane) in
  (exists a, r = Ok a) /\ resolved (u "legacy-1") (replicate 64 98%N) (x_plane x).
Proof.
  pose proof (resolution_is_durable alone alone_respectful legacy_plane (u "legacy-1") (u "alice") (replicate 64 97%N)
    (replicate 64 98%N) (utc 5) legacy_plane_ok) as Hd.
  pose proof resolved_report as Hreport. unfold resolved_sample in Hreport.
  destruct (resolve_legacy_exact_for_administration _ _ _ _ _ _ _) as [r x]. destruct Hd as (_ & Hd). cbn [fst] in Hreport. destruct Hreport as (a & ->).
  split; [by exists a|]. exact (proj2 (Hd a eq_refl)).
Defined.

Lemma lower_reference_case : case_laws (H:=text_reference) (H1:=lower_reference).
Proof.
  assert (forall s, py_lower s ∈ _WINDOWS_RESERVED_COMPONENTS -> ascii s) as Hdev.
  { intros s Hs. assert (ascii (py_lower s)) as Ha.
    { revert Hs. generalize (py_lower s). apply Forall_forall. repeat constructor. }
    unfold py_lower, ascii in *. rewrite Forall_fmap in Ha. eapply Forall_impl; [exact Ha|]. cbn. intros c.
    unfold lower_char, is_upper, in_range. destruct (_ && _) eqn:E; lia. }
  split; [exact stem_lower|exact Hdev|exact Hdev].
Qed.

(** An owner, an attachment, a key beyond ASCII that both accept, and a key with
    DEL that only the code accepts. *)
Lemma storage_names_agree_witness :
  astralplane_blob_owner_is_canonical (u "alice@example.org") = true
  /\ astralplane_attachment_id_is_canonical (u "aux") = false
  /\ astralplane_blob_storage_key_is_canonical (u "att-1/na" ++ [239%N] ++ u "ve.txt") = true
  /\ (validate_blob_storage_key (u "att-1/a" ++ [127%N]) = Ok (u "att-1/a" ++ [127%N])
      /\ exists c, c ∈ u "att-1/a" ++ [127%N] /\ is_ascii_control c = true /\ (127 <= c)%N).
Proof.
  destruct (storage_names_agree lower_reference_ascii lower_reference_case) as (Howner & Hid & Hkey).
  split; [rewrite <- Howner; vm_compute; reflexivity|].
  split; [rewrite <- Hid; vm_compute; reflexivity|].
  split; [apply Hkey; [|split]; vm_compute; reflexivity|].
  assert (validate_blob_storage_key (u "att-1/a" ++ [127%N]) = Ok (u "att-1/a" ++ [127%N])) as Hv by (vm_compute; reflexivity).
  split; [exact Hv|]. apply Hkey; [vm_compute; reflexivity|exact Hv|vm_compute; reflexivity].
Defined.
