(* ===== verification/PurgeProgress.v ===== *)
(** * Purges make progress

    On a store that deletes what it is asked to, an attempt on an open
    tombstone that is due purges it; on a store that fails, the attempt is
    recorded and the tombstone is due again at the given time. *)

From Stdlib Require Import ZifyBool.
From S2P Require Import Prelude Regex Errors Domain Sha256 Json Pg AuthoritySchema AuditDelivery AuditDeliveryClaims BlobKeys ArtifactSchema Materialization Purge PurgeTables PurgeSpec PurgeSafety PurgeClaims.

Section Progress.
Context `{PyText} `{PgEnv} `{PgLower} {W : Type} `{BlobStore W}.

(** What reading the row of a typed tombstone has checked and kept. *)
Record typed_record (row : tombstone_row) (t : PurgeTombstone) : Prop := {
  ty_owner : validate_blob_owner_id (ts_owner_id row) = Ok (ts_owner_id row);
  ty_id : fullmatch _SAFE_IDENTIFIER (ts_tombstone_id row) = true;
  ty_key : ts_target_scope row = ATTACHMENT_PREFIX -> validate_blob_storage_key (pt_storage_key t) = Ok (pt_storage_key t);
  ty_locator : pt_storage_locator_sha256 t = ts_storage_locator_sha256 row;
  ty_attempts : pt_attempt_count t = ts_attempt_count row;
  ty_available : pt_available_at t = Some (utc (ts_available_at row))
}.

Lemma prefix_row row : check_tombstone_row row = Ok () -> ts_target_scope row = ATTACHMENT_PREFIX -> ts_storage_key row = ts_object_id row.
Proof.
  unfold check_tombstone_row. intros Hc Hs. inv_ok. split_bools.
  match goal with Hx : target_shape _ = true |- _ => unfold target_shape in Hx; rewrite Hs in Hx end. by split_bools.
Qed.

Lemma validated_typed t0 t : _validate_tombstone t0 = Ok t -> pt_target_scope t0 <> EXACT_KEY ->
  validate_blob_owner_id (pt_owner_id t0) = Ok (pt_owner_id t) /\ fullmatch _SAFE_IDENTIFIER (pt_tombstone_id t0) = true
  /\ validate_blob_storage_key (pt_storage_key t0) = Ok (pt_storage_key t)
  /\ pt_storage_locator_sha256 t = pt_storage_locator_sha256 t0 /\ pt_attempt_count t = pt_attempt_count t0
  /\ pt_available_at t = (fun d => utc (instant d)) <$> Some (default (pt_requested_at t0) (pt_available_at t0)).
Proof.
  intros Ht Hx. unfold _validate_tombstone in Ht.
  apply bind_Ok_inv in Ht as (i & Hi & Ht). apply bind_Ok_inv in Ht as (j & _ & Ht). apply bind_Ok_inv in Ht as (? & _ & Ht).
  rewrite (bool_decide_eq_false_2 (pt_target_scope t0 = EXACT_KEY)) in Ht by done.
  apply bind_Ok_inv in Ht as ([o k] & Hok & Ht). apply bind_Ok_inv in Hok as (o' & Ho' & Hok). apply bind_Ok_inv in Hok as (k' & Hk & [= -> ->]).
  apply bind_Ok_inv in Ht as (? & _ & Ht). apply bind_Ok_inv in Ht as (d & Hd & Ht). apply bind_Ok_inv in Ht as (? & _ & Ht).
  apply bind_Ok_inv in Ht as (? & _ & Ht). apply bind_Ok_inv in Ht as (av & Hav & Ht). inv_ok. subst t. cbn.
  unfold _bounded_identifier in Hi. inv_ok. unfold _utc in Hav. destruct (default _ _) as [|wall off]; [done|]. injection Hav as <-.
  split_and!; try done. unfold check_locator in Hd. destruct (pt_target_scope t0); [done|..]; inv_ok; split_bools; subst; symmetry; by apply dec_stable.
Qed.

Lemma record_typed row t : check_tombstone_row row = Ok () -> ts_target_scope row <> EXACT_KEY -> _from_record row = Ok t -> typed_record row t.
Proof.
  intros Hc Hx Ht. pose proof (record_fields _ _ Ht) as (Htg & _). injection Htg as Hsc Ho Hobj.
  pose proof (validated_prefix _ _ Ht) as Hkey. destruct (validated_typed _ _ Ht Hx) as (Ho' & Hi & Hk & Hl & Ha & Hav).
  cbn in Ho', Hi, Hk, Hl, Ha. split; try done.
  - by rewrite Ho' , Ho.
  - intros Hs. rewrite (prefix_row _ Hc Hs) in Hk. rewrite Hkey, Hobj in Hk |- * by congruence. done.
  - assert (forall z, utc (instant (utc (instant (from_timestamptz z)))) = utc z) as Hz.
    { intros z. rewrite instant_from_timestamptz. unfold utc, instant. f_equal. lia. }
    exact (eq_trans Hav (f_equal Some (Hz _))).
Qed.

(** ** The actions of an executor alone *)

Definition undisturbed (n : nat) (p : plane W) : plane W := p.

Lemma load_row db row t : tables_ok db -> row ∈ ab_tombstones db -> typed_record row t -> _from_record row = Ok t ->
  transaction (load (ts_owner_id row) (ts_tombstone_id row)) db = (Ok (Some t), db).
Proof.
  intros Hok Hin Hty Ht. assert (_LOAD_SQL (ts_owner_id row) (ts_tombstone_id row) db = Some row) as Hs.
  { apply select_one_unique; [done|unfold of_tombstone; by rewrite !bool_decide_eq_true_2|].
    intros r Hr Hp. unfold of_tombstone in Hp. split_bools. apply (tombstone_unique db); [done..|by left]. }
  unfold transaction, load, _bounded_identifier, mbind, SM_mbind, lift. rewrite (ty_owner _ _ Hty), (ty_id _ _ Hty).
  cbn [raise_unless query exec s_failed s_db]. unfold outcome_mbind, outcome_bind. rewrite Hs. unfold decoded, mbind, outcome_mbind, outcome_bind.
  by rewrite Ht.
Qed.

(** An update that pins one row succeeds when the row it writes is well-formed. *)
Lemma update_one p f db row :
  tables_ok db -> row ∈ ab_tombstones db -> p row = true ->
  (forall r, p r = true -> ts_tombstone_id r = ts_tombstone_id row) -> (forall r, identity (f r) = identity r) ->
  check_tombstone_row (f row) = Ok () ->
  update_tombstones p f db = Ok (1, set_tombstones (update_where p f (ab_tombstones db)) db).
Proof.
  intros Hok Hin Hp Hpin Hid Hc. unfold update_tombstones, update_returning.
  assert (rows_where p (ab_tombstones db) = [row]) as ->.
  { apply (rows_where_unique tombstone_conflict); [apply Hok| |done|done]. intros a b Ha Hb. unfold tombstone_conflict.
    rewrite (bool_decide_eq_true_2 (ts_tombstone_id a = ts_tombstone_id b)); [done|]. by rewrite (Hpin a Ha), (Hpin b Hb). }
  assert (unique_ok tombstone_conflict (update_where p f (ab_tombstones db)) = true) as ->.
  { unfold update_where. rewrite unique_ok_fmap; [apply Hok|]. intros a b.
    assert (forall r, identity (if p r then f r else r) = identity r) as Hg by (intros r; by destruct (p r)).
    pose proof (Hg a) as Ia. pose proof (Hg b) as Ib. unfold identity in Ia, Ib. unfold tombstone_conflict, object_key.
    by injection Ia as -> -> -> -> _ _ _; injection Ib as -> -> -> -> _ _ _. }
  cbn. rewrite Hc. done.
Qed.

Lemma transition_row status attempts available verified error row :
  check_tombstone_row row = Ok () -> ts_target_scope row <> EXACT_KEY -> ts_version row < int8_max -> 0 <= attempts <= int4_max ->
  match status with
  | PURGED => is_some verified = true /\ error = None
  | FAILED => verified = None /\ is_some error = true
  | _ => False
  end ->
  check_tombstone_row (set_status status attempts available verified (ts_evidence row) (ts_resolved_at row) error row) = Ok ().
Proof.
  intros Hc Hx Hv Ha Hs. unfold check_tombstone_row in *. cbn -[is_int4 is_int8 fullmatch bool_decide state_shape target_shape]. inv_ok. split_bools.
  assert (is_int4 attempts && is_int8 (ts_version row + 1) = true) as -> by (unfold is_int4, is_int8, int4_max, int8_max in *; lia).
  cbn [raise_unless]. rewrite bind_Ok. apply raise_unless_Ok. rewrite !andb_true_iff, bool_decide_eq_true. split_and!; try done; [lia|lia| |].
  - unfold state_shape. cbn [set_status ts_status ts_verified_absent_at ts_last_error_code].
    destruct status; try done; destruct Hs as [Hs1 Hs2]; by rewrite Hs1, Hs2.
  - unfold target_shape in *. cbn [set_status ts_target_scope ts_object_kind ts_object_id ts_storage_key ts_tombstone_id ts_evidence ts_resolved_at].
    by destruct (ts_target_scope row).
Qed.

Lemma xbind_Ok {A B} (m : XM A) (f : A -> XM (W:=W) B) x a x' : m x = (Ok a, x') -> (m ≫= f) x = f a x'.
Proof. unfold mbind, XM_mbind. by intros ->. Qed.
Lemma pure_Ok {A B} (r : result A) (f : A -> XM (W:=W) B) x a : r = Ok a -> (pure r ≫= f) x = f a x.
Proof. intros ->. done. Qed.
Lemma alone_transaction {A} (m : SM artifact_db A) acts db w r db' :
  transaction m db = (r, db') ->
  in_transaction undisturbed m (Executing acts (db, w)) = (r, Executing (((db, w), (db', w)) :: acts) (db', w)).
Proof. unfold in_transaction, undisturbed. cbn. by intros ->. Qed.
Lemma alone_store {A} (f : W -> result A * W) acts db w r w' :
  f w = (r, w') ->
  call_store undisturbed f (Executing acts (db, w)) = (r, Executing (((db, w), (db, w')) :: acts) (db, w')).
Proof. unfold call_store, undisturbed. cbn. by intros ->. Qed.

(** The store finds what an authority covers absent. *)
Definition found_absent (a : BlobPurgeAuthority) (w : W) : Prop :=
  match ga_target_scope a with
  | OWNER_NAMESPACE => is_owner_absent (ga_owner_id a) w = Ok true
  | _ => is_prefix_absent (ga_owner_id a) (ga_storage_key a) w = Ok true
  end.

(** The store deletes what it is asked to, and then finds it absent. *)
Definition deletes (a : BlobPurgeAuthority) (w : W) : Prop :=
  exists d w', _delete_for_purge a w = (Ok (Some d), w') /\ bd_absent_verified d = true /\ found_absent a w'.

Definition purge_authority (row : tombstone_row) (t : PurgeTombstone) : BlobPurgeAuthority :=
  {| ga_owner_id := ts_owner_id row; ga_target_scope := ts_target_scope row;
     ga_storage_key := match ts_target_scope row with ATTACHMENT_PREFIX => pt_storage_key t | _ => u "owner-namespace" end |}.

Lemma authority_row row t : typed_record row t -> ts_target_scope row <> EXACT_KEY -> pt_target t = target row ->
  _create_blob_purge_authority (pt_owner_id t) (pt_target_scope t) (pt_storage_key t) = Ok (purge_authority row t).
Proof.
  intros Hty Hx Htg. injection Htg as -> -> _. unfold _create_blob_purge_authority, purge_authority. rewrite (ty_owner _ _ Hty), bind_Ok.
  destruct (ts_target_scope row) eqn:Hs; [done|..]; cbn; [|done]. by rewrite (ty_key _ _ Hty Hs).
Qed.

Lemma delete_run row t acts db w :
  typed_record row t -> ts_target_scope row <> EXACT_KEY -> pt_target t = target row -> deletes (purge_authority row t) w ->
  exists acts' w', _delete_and_verify undisturbed t (Executing acts (db, w)) = (Ok (), Executing acts' (db, w'))
    /\ found_absent (purge_authority row t) w'.
Proof.
  intros Hty Hx Htg (d & w' & Hd & Hv & Ha). unfold _delete_and_verify. pose proof Htg as Htg'. injection Htg' as Hsc Ho _.
  rewrite (pure_Ok _ _ _ ()) by (rewrite bool_decide_eq_false_2; [done|congruence]).
  rewrite (pure_Ok _ _ _ _ (authority_row _ _ Hty Hx Htg)).
  rewrite (xbind_Ok _ _ _ _ _ (alone_store _ acts db w _ _ Hd)). rewrite (pure_Ok _ _ _ ()) by (cbn; by rewrite Hv).
  assert (exists acts' : list (plane W * plane W), _is_absent undisturbed t (Executing (((db, w), (db, w')) :: acts) (db, w'))
    = (Ok true, Executing acts' (db, w'))) as [acts' Hab].
  { eexists. unfold _is_absent, ask_store. rewrite Hsc, Ho. unfold found_absent in Ha. cbn in Ha.
    destruct (ts_target_scope row) eqn:Hs; [done|..]; apply alone_store; by rewrite Ha. }
  rewrite (xbind_Ok _ _ _ _ _ Hab). do 2 eexists. split; [reflexivity|done].
Qed.

(** The tombstone [row] after a purge verified at [n], field by field. *)
Record purged_at (n : Z) (row row' : tombstone_row) : Prop := {
  pu_target : target row' = target row;
  pu_id : ts_tombstone_id row' = ts_tombstone_id row;
  pu_status : ts_status row' = PURGED;
  pu_verified : ts_verified_absent_at row' = Some n;
  pu_error : ts_last_error_code row' = None;
  pu_attempts : ts_attempt_count row' = ts_attempt_count row + 1;
  pu_version : ts_version row' = ts_version row + 1
}.

(** Only [row] changed, to [row']; its identifier is the primary key. *)
Definition replaces (row row' : tombstone_row) (db db' : artifact_db) : Prop :=
  ab_tombstones db' = update_where (fun r => bool_decide (ts_tombstone_id r = ts_tombstone_id row)) (fun _ => row') (ab_tombstones db)
  /\ ab_attachments db' = ab_attachments db /\ ab_owners db' = ab_owners db.

Lemma mark_purged_row db row t n :
  tables_ok db -> row ∈ ab_tombstones db -> typed_record row t -> ts_target_scope row <> EXACT_KEY -> open_status row = true ->
  ts_version row < int8_max -> ts_attempt_count row < int4_max -> pt_version t = ts_version row ->
  exists row' db', transaction (_mark_purged_for_executor (ts_owner_id row) (ts_tombstone_id row) (pt_storage_locator_sha256 t) (pt_version t) (utc n)) db
    = (Ok (), db') /\ purged_at n row row' /\ replaces row row' db db'.
Proof.
  intros Hok Hin Hty Hx Hop Hv Ha Hver. pose proof (proj1 (Forall_forall _ _) (tk_tombstones _ Hok) row Hin) as Hc.
  assert (0 <= ts_version row /\ 0 <= ts_attempt_count row /\ fullmatch hex64_re (ts_storage_locator_sha256 row) = true) as (Hv0 & Ha0 & Hhex).
  { unfold check_tombstone_row in Hc. inv_ok. by split_bools. }
  set (p r := purge_fenced (ts_owner_id row) (ts_tombstone_id row) (ts_version row) r
              && bool_decide (ts_storage_locator_sha256 r = ts_storage_locator_sha256 row)).
  assert (p row = true) as Hp by (unfold p, purge_fenced, of_tombstone; by rewrite Hop, Z.eqb_refl, !bool_decide_eq_true_2).
  assert (forall r, p r = true -> ts_tombstone_id r = ts_tombstone_id row) as Hpin.
  { intros r Hr. unfold p, purge_fenced, of_tombstone in Hr. by split_bools. }
  eexists _, _. split; [|split].
  - unfold transaction, _mark_purged_for_executor, _fence, _bounded_identifier, expected_version_of, _lowercase_digest.
    rewrite (ty_owner _ _ Hty), (ty_id _ _ Hty), (ty_locator _ _ Hty), Hhex, Hver.
    assert (ts_version row <? 0 = false) as -> by lia.
    unfold mbind, SM_mbind, outcome_mbind, outcome_bind, lift, exec. cbn [raise_if raise_unless _utc utc s_failed s_db].
    change (Aware (n - 0) 0) with (utc (n - 0)). rewrite instant_utc. unfold _MARK_PURGED_SQL.
    rewrite (update_one _ _ _ row Hok Hin Hp Hpin); [reflexivity|done|]. apply transition_row; [done|done|done|lia|done].
  - instantiate (1 := set_status PURGED (ts_attempt_count row + 1) n (Some n) (ts_evidence row) (ts_resolved_at row) None row).
    by split.
  - unfold replaces. cbn. split; [|done]. rewrite Z.sub_0_r. apply update_where_ext.
    + intros r Hr. apply eq_true_iff_eq. rewrite bool_decide_eq_true. split; [apply Hpin|].
      intros Hi. by rewrite (tombstone_unique db r row Hok Hr Hin (or_introl Hi)).
    + intros r Hr Hi%bool_decide_eq_true. by rewrite (tombstone_unique db r row Hok Hr Hin (or_introl Hi)).
Qed.

Lemma utc_again n name : _utc (utc n) name = Ok (utc n).
Proof. unfold _utc, utc. by rewrite Z.sub_0_r. Qed.

Lemma purged_lookup row row' db db' : replaces row row' db db' -> row ∈ ab_tombstones db -> row' ∈ ab_tombstones db'.
Proof. intros [-> _] Hin. apply elem_of_update_where. exists row. by rewrite bool_decide_eq_true_2. Qed.

(** An attempt whose deletion is proved, from its first step to its report. *)
Lemma due_attempt_run db w row t n m :
  tables_ok db -> row ∈ ab_tombstones db -> _from_record row = Ok t -> ts_target_scope row <> EXACT_KEY -> open_status row = true ->
  ts_available_at row <= n -> n < m -> ts_version row < int8_max -> ts_attempt_count row < int4_max ->
  deletes (purge_authority row t) w ->
  exists row' acts db' w',
    execute undisturbed (ts_owner_id row) (ts_tombstone_id row) (utc n) (utc m) (Executing [] (db, w))
    = (Ok (attempt_result ATTEMPT_PURGED (ts_tombstone_id row) (ts_attempt_count row + 1) None), Executing acts (db', w'))
    /\ purged_at n row row' /\ replaces row row' db db' /\ found_absent (purge_authority row t) w'.
Proof.
  intros Hok Hin Ht Hx Hop Hdue Hnm Hv Ha Hdel. pose proof (proj1 (Forall_forall _ _) (tk_tombstones _ Hok) row Hin) as Hc.
  pose proof (record_typed _ _ Hc Hx Ht) as Hty. pose proof (record_fields _ _ Ht) as (Htg & _ & Hst & Hver).
  pose proof Htg as Htg'. injection Htg' as Hsc _ _. unfold execute.
  rewrite (pure_Ok _ _ _ _ (utc_again n _)), (pure_Ok _ _ _ _ (utc_again m _)), !instant_utc.
  rewrite (pure_Ok _ _ _ ()) by (assert (m <=? n = false) as -> by lia; done).
  rewrite (xbind_Ok _ _ _ _ _ (alone_transaction _ [] db w _ _ (load_row _ _ _ Hok Hin Hty Ht))).
  match goal with |- context [Executing ?a (db, w)] => destruct (delete_run row t a db w Hty Hx Htg Hdel) as (acts & w' & Hrun & Habsent) end.
  destruct (mark_purged_row db row t n Hok Hin Hty Hx Hop Hv Ha Hver) as (row' & db' & Hmark & Hpurged & Hrep).
  assert (pt_status t = PENDING \/ pt_status t = FAILED) as Hopen.
  { unfold open_status in Hop. split_bools. rewrite Hst. set_solver. }
  exists row'. eexists _, db', w'. split; [|done].
  assert (forall y, on_fence_conflict (in_transaction undisturbed (_mark_purged_for_executor (ts_owner_id row) (ts_tombstone_id row)
    (pt_storage_locator_sha256 t) (pt_version t) (utc n)) ;; mret (attempt_result ATTEMPT_PURGED (ts_tombstone_id row) (pt_attempt_count t + 1) None))
    y (Executing acts (db, w')) = (Ok (attempt_result ATTEMPT_PURGED (ts_tombstone_id row) (ts_attempt_count row + 1) None),
                                   Executing (((db, w'), (db', w')) :: acts) (db', w'))) as Hlast.
  { intros y. unfold on_fence_conflict. rewrite (xbind_Ok _ _ _ _ _ (alone_transaction _ _ _ _ _ _ Hmark)). cbn. by rewrite (ty_attempts _ _ Hty). }
  destruct Hopen as [-> | ->];
    (rewrite (pure_Ok _ _ _ ()) by (rewrite (ty_available _ _ Hty), instant_utc; assert (n <? ts_available_at row = false) as -> by lia; done));
    (rewrite bool_decide_eq_false_2 by congruence); cbv iota beta; rewrite Hrun; apply Hlast.
Qed.
End Progress.

Section Vacancy.
Context `{PyText} `{PgEnv} `{PgLower} {W : Type} `{BlobStoreLaws W}.

(** What the store finds absent is the whole scope of the tombstone. *)
Lemma absent_vacant row t w :
  ts_target_scope row <> EXACT_KEY -> _from_record row = Ok t ->
  found_absent (purge_authority row t) w -> vacant w (target row).
Proof.
  intros Hx Ht Ha. pose proof (record_fields _ _ Ht) as (Htg & _). injection Htg as Hsc _ Hobj.
  pose proof (validated_prefix _ _ Ht) as Hkey. unfold found_absent, purge_authority in Ha. cbn in Ha.
  intros o k. unfold target. destruct (ts_target_scope row) eqn:Hs; [done| |]; cbn.
  - intros [-> Hk]. rewrite Hkey, Hobj in Ha by congruence. by eapply prefix_absence.
  - intros ->. by eapply owner_absence.
Qed.

(** C39: On a store that deletes what it is asked to, one undisturbed attempt
    on a typed tombstone that is open and due purges it and reports so.  The
    stored row then has status [PURGED], the verification time, one more attempt
    and version and no error; it is the only row of any table that changed; and
    the store holds nothing in the scope of the tombstone.  So a tombstone is
    never retried for ever once the store works. *)
Theorem due_attempt_purges db w row t n m :
  tables_ok db -> row ∈ ab_tombstones db -> _from_record row = Ok t -> ts_target_scope row <> EXACT_KEY -> open_status row = true ->
  ts_available_at row <= n -> n < m -> ts_version row < int8_max -> ts_attempt_count row < int4_max ->
  deletes (purge_authority row t) w ->
  let '(r, x) := execute undisturbed (ts_owner_id row) (ts_tombstone_id row) (utc n) (utc m) (Executing [] (db, w)) in
  r = Ok (attempt_result ATTEMPT_PURGED (ts_tombstone_id row) (ts_attempt_count row + 1) None)
  /\ vacant (snd (x_plane x)) (target row)
  /\ exists row', row' ∈ ab_tombstones (fst (x_plane x)) /\ purged_at n row row' /\ replaces row row' db (fst (x_plane x)).
Proof.
  intros Hok Hin Ht Hx Hop Hdue Hnm Hv Ha Hdel.
  destruct (due_attempt_run db w row t n m) as (row' & acts & db' & w' & -> & Hp & Hr & Habs); try done.
  cbn. split_and!; [done|by eapply absent_vacant|]. exists row'. split_and!; [by eapply purged_lookup|done|done].
Qed.
End Vacancy.

(** The scheduled purge of the sample attachment, on the reference store. *)
Definition due_row : tombstone_row := default legacy_tombstone (head (ab_tombstones (fst scheduled))).
Lemma due_attempt_purges_witness :
  let '(r, x) := execute (W:=key_store) undisturbed (ts_owner_id due_row) (ts_tombstone_id due_row) (utc 3000000) (utc 4000000)
                   (Executing [] scheduled) in
  r = Ok (attempt_result ATTEMPT_PURGED (ts_tombstone_id due_row) (ts_attempt_count due_row + 1) None)
  /\ exists row', row' ∈ ab_tombstones (fst (x_plane x)) /\ ts_status row' = PURGED /\ ts_verified_absent_at row' = Some 3000000.
Proof.
  destruct (_from_record due_row) as [t|e] eqn:Ht; [|vm_compute in Ht; discriminate Ht].
  pose proof (due_attempt_purges (fst scheduled) (snd scheduled) due_row t 3000000 4000000) as Hdue.
  rewrite <- (surjective_pairing scheduled) in Hdue.
  destruct (execute _ _ _ _ _ _) as [r x].
  destruct Hdue as (Hr & _ & row' & Hin & Hp & _).
  - exact (fh_tables _ (po_fences _ scheduled_ok)).
  - apply head_Some_elem_of. vm_compute. reflexivity.
  - exact Ht.
  - vm_compute. discriminate.
  - vm_compute. reflexivity.
  - vm_compute. discriminate.
  - reflexivity.
  - vm_compute. reflexivity.
  - vm_compute. reflexivity.
  - vm_compute in Ht. injection Ht as <-. do 2 eexists. split; [reflexivity|]. split; [reflexivity|]. vm_compute. reflexivity.
  - split; [exact Hr|]. exists row'. split; [exact Hin|]. split; [apply (pu_status _ _ _ Hp)|apply (pu_verified _ _ _ Hp)].
Defined.
