(* ===== verification/Compatibility.v ===== *)
(** * Producer and consumer compatibility (src/src/astralplane/compatibility.py)

    The versions a release declares, and the report that tells a consumer
    whether it may use a database at an observed revision. *)

From S2P Require Import Prelude Regex Errors Domain Sha256 Json Revision Pg Migrations MigrationLineage BlobKeys JsonDecode.

Definition CONTRACT_VERSION : pystr := u "astralplane.contract/v1".
Definition PACKAGE_VERSION : pystr := u "0.1.7".
Definition MINIMUM_CONSUMER_VERSION : pystr := u "0.1.0".
Definition BLOB_LAYOUT_VERSION : pystr := u "astralplane.blob-layout/v1".
Definition RECOVERY_CONTRACT_VERSION : pystr := u "astralplane.recovery/v1".

(** One group of the pattern: a zero alone, or digits that start with another. *)
Definition version_part (s : pystr) : bool :=
  match s with
  | [] => false
  | c :: s' => if (c =? 48)%N then bool_decide (s' = []) else is_digit c && forallb is_digit s'
  end.

(** [int(part)]: text of more digits than the interpreter converts raises. *)
Definition part_value (s : pystr) : result N :=
  raise_if (MAX_STR_DIGITS <? Z.of_nat (length s)) (Exn ValueError_ "Exceeds the limit for integer string conversion") ;;
  Ok (digits_value s).

(** The three groups are the parts between the dots: a group has no dot. *)
Definition _version_key (value : pystr) : result (option (N * N * N)) :=
  match split_at (N.eqb 46) value with
  | [a; b; c] =>
      if version_part a && version_part b && version_part c
      then x ← part_value a; y ← part_value b; z ← part_value c; Ok (Some (x, y, z))
      else Ok None
  | _ => Ok None
  end.

(** [a < b] on tuples. *)
Definition version_ltb (a b : N * N * N) : bool :=
  let '(a1, a2, a3) := a in
  let '(b1, b2, b3) := b in
  (a1 <? b1)%N || ((a1 =? b1)%N && ((a2 <? b2)%N || ((a2 =? b2)%N && (a3 <? b3)%N))).

Inductive CompatibilityState : Type := COMPATIBLE | COMPAT_INCOMPATIBLE.
#[global] Instance CompatibilityState_eq_dec : EqDecision CompatibilityState.
Proof. solve_decision. Defined.
Definition CompatibilityState_value (s : CompatibilityState) : pystr :=
  match s with COMPATIBLE => u "compatible" | COMPAT_INCOMPATIBLE => u "incompatible" end.

Record CompatibilityReport : Type := {
  cr_state : CompatibilityState;
  cr_contract_version : pystr;
  cr_package_version : pystr;
  cr_schema_revision : pystr;
  cr_read_compatible_from : list pystr;
  cr_migration_digest : pystr;
  cr_minimum_consumer_version : pystr;
  cr_blob_layout_version : pystr;
  cr_recovery_contract_version : pystr;
  cr_advisory_lock_ids : list (Z * Z);
  cr_reasons : list pystr
}.

Definition compatible (r : CompatibilityReport) : bool := bool_decide (cr_state r = COMPATIBLE).

Definition compatibility_to_dict (r : CompatibilityReport) : json :=
  JObj [(u "advisory_lock_ids", JArr ((fun '(a, b) => JArr [JInt a; JInt b]) <$> cr_advisory_lock_ids r));
        (u "blob_layout_version", JStr (cr_blob_layout_version r));
        (u "compatible", JBool (compatible r));
        (u "contract_version", JStr (cr_contract_version r));
        (u "migration_digest", JStr (cr_migration_digest r));
        (u "minimum_consumer_version", JStr (cr_minimum_consumer_version r));
        (u "package_version", JStr (cr_package_version r));
        (u "read_compatible_from", JArr (JStr <$> cr_read_compatible_from r));
        (u "reasons", JArr (JStr <$> cr_reasons r));
        (u "recovery_contract_version", JStr (cr_recovery_contract_version r));
        (u "schema_revision", JStr (cr_schema_revision r));
        (u "state", JStr (CompatibilityState_value (cr_state r)))].

(** [reasons.append(reason)] under a condition. *)
Definition reason_if (b : bool) (reason : string) : list pystr := if b then [u reason] else [].

Section Inspect.
(** The digest of the declared migrations. *)
Context (MIGRATION_DIGEST : pystr).
Let current := CURRENT_DATA_PLANE_REVISION MIGRATION_DIGEST.

Definition inspect_compatibility (expected_contract_version observed_schema_revision consumer_version : pystr)
  : result CompatibilityReport :=
  let schema_accepted := match accepts_reader_at current observed_schema_revision with Ok b => b | Err _ => false end in
  consumer_key ← _version_key consumer_version;
  minimum_key ← _version_key MINIMUM_CONSUMER_VERSION;
  let too_old := match consumer_key, minimum_key with
                 | Some consumer, Some minimum => version_ltb consumer minimum
                 | _, _ => true
                 end in
  let reasons := reason_if (negb (bool_decide (expected_contract_version = CONTRACT_VERSION))) "contract_version_mismatch"
                 ++ reason_if (negb schema_accepted) "schema_revision_incompatible"
                 ++ reason_if too_old "consumer_version_too_old" in
  Ok {| cr_state := match reasons with [] => COMPATIBLE | _ => COMPAT_INCOMPATIBLE end;
        cr_contract_version := CONTRACT_VERSION;
        cr_package_version := PACKAGE_VERSION;
        cr_schema_revision := dp_schema_revision current;
        cr_read_compatible_from := dp_read_compatible_from current;
        cr_migration_digest := MIGRATION_DIGEST;
        cr_minimum_consumer_version := MINIMUM_CONSUMER_VERSION;
        cr_blob_layout_version := BLOB_LAYOUT_VERSION;
        cr_recovery_contract_version := RECOVERY_CONTRACT_VERSION;
        cr_advisory_lock_ids := ADVISORY_LOCK_IDS;
        cr_reasons := reasons |}.
End Inspect.

(** ** What a report says *)

Lemma readable_canonical D revision :
  revision = dp_schema_revision (CURRENT_DATA_PLANE_REVISION D) \/ revision ∈ dp_read_compatible_from (CURRENT_DATA_PLANE_REVISION D) ->
  fullmatch revision_re revision = true.
Proof.
  intros Hr. assert (revision ∈ u "089.014" :: dp_read_compatible_from (CURRENT_DATA_PLANE_REVISION [])) as Hin.
  { destruct Hr as [->|Hr]; [left|right; exact Hr]. }
  assert (forallb (fullmatch revision_re) (u "089.014" :: dp_read_compatible_from (CURRENT_DATA_PLANE_REVISION [])) = true) as Hall
    by (vm_compute; reflexivity).
  rewrite forallb_forall in Hall. by apply Hall, list_elem_of_In.
Qed.

Lemma accepts_reader_spec D revision :
  accepts_reader_at (CURRENT_DATA_PLANE_REVISION D) revision = Ok true <->
  revision = dp_schema_revision (CURRENT_DATA_PLANE_REVISION D) \/ revision ∈ dp_read_compatible_from (CURRENT_DATA_PLANE_REVISION D).
Proof.
  unfold accepts_reader_at, validate_revision. split.
  - intros (x & (? & _ & [= <-])%bind_Ok_inv & [= Hb])%bind_Ok_inv. apply orb_true_iff in Hb as [Hb|Hb]; apply bool_decide_eq_true in Hb; auto.
  - intros Hr. rewrite (readable_canonical D revision Hr). cbn [raise_unless mbind outcome_mbind outcome_bind]. f_equal. apply orb_true_iff.
    destruct Hr; [left|right]; by apply bool_decide_eq_true_2.
Qed.

(** A report says compatible exactly when the contract is the declared one,
    the observed revision is current or readable, and the consumer's version is
    a version not before the minimum; and it gives reasons exactly otherwise. *)
Theorem compatibility_exact D contract revision consumer r :
  inspect_compatibility D contract revision consumer = Ok r ->
  (compatible r = true <->
     contract = CONTRACT_VERSION
     /\ (revision = dp_schema_revision (CURRENT_DATA_PLANE_REVISION D)
         \/ revision ∈ dp_read_compatible_from (CURRENT_DATA_PLANE_REVISION D))
     /\ exists key, _version_key consumer = Ok (Some key) /\ version_ltb key (0, 1, 0)%N = false)
  /\ (compatible r = true <-> cr_reasons r = []).
Proof.
  unfold inspect_compatibility. intros (consumer_key & Hk & (minimum & Hm & [= <-])%bind_Ok_inv)%bind_Ok_inv.
  assert (minimum = Some (0, 1, 0)%N) as -> by (vm_compute in Hm; congruence). unfold compatible. cbn [cr_state cr_reasons].
  rewrite <- accepts_reader_spec, Hk.
  set (accepted := match accepts_reader_at _ revision with Ok b => b | Err _ => false end).
  assert (accepts_reader_at (CURRENT_DATA_PLANE_REVISION D) revision = Ok true <-> accepted = true) as ->.
  { subst accepted. destruct (accepts_reader_at _ revision); naive_solver. }
  destruct (decide (contract = CONTRACT_VERSION)) as [Hc|Hc];
    [rewrite (bool_decide_eq_true_2 _ Hc)|rewrite (bool_decide_eq_false_2 _ Hc)];
    destruct accepted, consumer_key as [key|]; [destruct (version_ltb key _) eqn:Hv| |destruct (version_ltb key _) eqn:Hv| |
      destruct (version_ltb key _) eqn:Hv| |destruct (version_ltb key _) eqn:Hv|]; cbn [negb reason_if app];
    try rewrite bool_decide_eq_true_2 by done; try rewrite bool_decide_eq_false_2 by done;
    (split; split; [naive_solver congruence|naive_solver congruence|done|done]).
Qed.

Lemma compatibility_exact_witness :
  exists r, inspect_compatibility [] CONTRACT_VERSION (u "089.013") (u "1.0.0") = Ok r /\ (compatible r = true <-> cr_reasons r = []).
Proof.
  eexists. split; [reflexivity|].
  apply (compatibility_exact [] CONTRACT_VERSION (u "089.013") (u "1.0.0")). reflexivity.
Defined.

(** A version with a component of more digits than the interpreter converts
    has no report. *)
Lemma long_version_raises :
  is_ok (inspect_compatibility [] CONTRACT_VERSION (u "089.014") (u "0.1." ++ replicate 4301 49%N)) = false.
Proof. vm_compute. reflexivity. Qed.
