(* ===== verification/EndpointReadiness.v ===== *)
(** * Endpoint readiness (src/src/astralplane/endpoint_readiness.py)

    The read-only qualification of a PostgreSQL primary and its paired blob
    roots, and the fence that identifies them.  What the database answers is a
    [database_session], what a path holds a [root_view]; both are arguments. *)

From Stdlib Require QArith_base.
From S2P Require Import Prelude Regex Errors Domain Sha256 Json Pg Revision Migrations MigrationLineage Outbox AuditDelivery Compatibility.

(** ** Raised values *)

(** A [PlaneError] of a class with what its constructor stored, an [OSError],
    or another exception. *)
Inductive failure : Type :=
  | Plane (c : exn_class) (stored : plane_error)
  | OSError
  | Raised (e : exn).

(** [raise cls(..., code=code, metadata=metadata)] *)
Definition raise_plane {A} (c : exn_class) (code : code_arg) (metadata : metadata_arg) : outcome failure A :=
  match plane_error_init c code metadata with
  | Ok stored => Err (Plane c stored)
  | Err e => Err (Raised e)
  end.

#[global] Arguments is_exception : simpl never.

(** What [except Exception] catches. *)
Definition caught (e : failure) : bool :=
  match e with Plane _ _ | OSError => true | Raised e => is_exception e end.

(** ** Values *)

Definition ENDPOINT_READINESS_CONTRACT_VERSION : pystr := u "astralplane.endpoint-readiness/v1".

(** [^[0-9a-f]{8}$] *)
Definition _TIMELINE : regex := RRep 8 8 is_hex.
(** [^[A-Za-z0-9][A-Za-z0-9._-]{0,63}$] *)
Definition _ROOT_NAME : regex := RSeq (RChar is_alnum) (RRep 0 63 (fun c => is_alnum c || one_of "._-" c)).

(** The only member of [EndpointTopology]. *)
Definition PAIRED_BLOB_ROOTS : pystr := u "astralplane.external-primary-paired-blobs/v1".

Inductive EndpointReadinessState : Type :=
  WRITABLE | UNAVAILABLE | NOT_PRIMARY | STALE | INCOMPATIBLE | AMBIGUOUS.
#[global] Instance EndpointReadinessState_eq_dec : EqDecision EndpointReadinessState.
Proof. solve_decision. Defined.
Definition EndpointReadinessState_value (s : EndpointReadinessState) : pystr :=
  u match s with
    | WRITABLE => "writable" | UNAVAILABLE => "unavailable" | NOT_PRIMARY => "not_primary"
    | STALE => "stale" | INCOMPATIBLE => "incompatible" | AMBIGUOUS => "ambiguous"
    end.

Record EndpointFence : Type := {
  ef_topology : pystr;
  ef_database_identity : pystr;
  ef_schema_identity : pystr;
  ef_blob_identity : pystr;
  ef_blob_inventory_digest : pystr;
  ef_blob_roots : list pystr;
  ef_schema_revision : pystr;
  ef_migration_digest : pystr;
  ef_blob_layout_version : pystr
}.

Record EndpointReadiness : Type := {
  er_state : EndpointReadinessState;
  er_topology : pystr;
  er_expected_database : pystr;
  er_expected_schema : pystr;
  er_expected_schema_revision : pystr;
  er_expected_migration_digest : pystr;
  er_expected_blob_layout_version : pystr;
  er_blob_roots : list pystr;
  er_blob_inventory_digest : option pystr;
  er_fence : option EndpointFence;
  er_expected_fence_digest : option pystr;
  er_reasons : list pystr
}.

Record DatabaseObservation : Type := {
  do_state : EndpointReadinessState;
  do_reasons : list pystr;
  do_database_identity : option pystr;
  do_schema_identity : option pystr
}.

(** The text is ASCII, so its bytes are its characters. *)
Definition _digest (document : json) : result pystr := canonical ← dumps true document; Ok (sha256_hex canonical).

#[global] Arguments _digest : simpl never.

Definition _identifier (value : pystr) : bool :=
  negb (bool_decide (value = [])) && negb (existsb (N.eqb 0) value)
  && match utf8_encode value with Ok bytes => (length bytes <=? 63)%nat | Err _ => false end.

(** A path: text, bytes ([os.fspath] may return them), or an object whose
    [__fspath__] raises ([TypeError] also stands for one that returns neither);
    anything else is not a path. *)
Inductive path_arg : Type :=
  | PathText (s : pystr)
  | PathBytes (b : list N)
  | PathRaises (e : exn)
  | NotPath.

(** Python's [sorted] of the names of a mapping. *)
Definition sorted_names (names : list pystr) : list pystr := sort_by str_leb names.
Definition names_of {A} (roots : list (pystr * A)) : list pystr := sorted_names (fst <$> roots).

Definition fence_document (f : EndpointFence) (others : list (pystr * json)) : json :=
  JObj ([(u "blob_identity", JStr (ef_blob_identity f));
         (u "blob_inventory_digest", JStr (ef_blob_inventory_digest f));
         (u "blob_layout_version", JStr (ef_blob_layout_version f));
         (u "blob_roots", JArr (JStr <$> ef_blob_roots f));
         (u "database_identity", JStr (ef_database_identity f))]
        ++ others ++
        [(u "migration_digest", JStr (ef_migration_digest f));
         (u "schema_identity", JStr (ef_schema_identity f));
         (u "schema_revision", JStr (ef_schema_revision f));
         (u "topology", JStr (ef_topology f))]).

(** [EndpointFence.digest] *)
Definition fence_digest (f : EndpointFence) : result pystr := _digest (fence_document f []).
(** [EndpointFence.to_dict] *)
Definition fence_to_dict (f : EndpointFence) : result json :=
  d ← fence_digest f; Ok (fence_document f [(u "digest", JStr d)]).

Definition writable (r : EndpointReadiness) : bool := bool_decide (er_state r = WRITABLE) && is_some (er_fence r).

Definition require_writable (r : EndpointReadiness) : outcome failure EndpointFence :=
  match er_fence r with
  | Some fence =>
      if writable r then Ok fence
      else raise_plane EndpointReadinessError CodeNone
             (MetaItems [(Some (u "reasons"), DStr (join (u ",") (er_reasons r)));
                         (Some (u "state"), DStr (EndpointReadinessState_value (er_state r)))])
  | None =>
      raise_plane EndpointReadinessError CodeNone
        (MetaItems [(Some (u "reasons"), DStr (join (u ",") (er_reasons r)));
                    (Some (u "state"), DStr (EndpointReadinessState_value (er_state r)))])
  end.

(** A call of a function that raises no [PlaneError] of its own. *)
Definition plain {A} (m : result A) : outcome failure A := map_err Raised m.

Definition require_fence (r : EndpointReadiness) (expected : EndpointFence) : outcome failure EndpointFence :=
  fence ← require_writable r;
  observed ← plain (fence_digest fence);
  wanted ← plain (fence_digest expected);
  if bool_decide (observed = wanted) then Ok fence
  else raise_plane EndpointFenceError CodeNone
         (MetaItems [(Some (u "expected"), DStr wanted); (Some (u "observed"), DStr observed)]).

Definition readiness_to_dict (r : EndpointReadiness) : result json :=
  fence ← match er_fence r with None => Ok JNull | Some f => fence_to_dict f end;
  Ok (JObj [(u "blob_inventory_digest", match er_blob_inventory_digest r with Some d => JStr d | None => JNull end);
            (u "blob_roots", JArr (JStr <$> er_blob_roots r));
            (u "expected_blob_layout_version", JStr (er_expected_blob_layout_version r));
            (u "expected_database", JStr (er_expected_database r));
            (u "expected_fence_digest", match er_expected_fence_digest r with Some d => JStr d | None => JNull end);
            (u "expected_migration_digest", JStr (er_expected_migration_digest r));
            (u "expected_schema", JStr (er_expected_schema r));
            (u "expected_schema_revision", JStr (er_expected_schema_revision r));
            (u "fence", fence);
            (u "reasons", JArr (JStr <$> er_reasons r));
            (u "state", JStr (EndpointReadinessState_value (er_state r)));
            (u "topology", JStr (er_topology r));
            (u "writable", JBool (writable r))]).

(** ** Blob roots *)

(** A file system as a scan meets it.  [entry.stat] raises, shows a link, a
    directory, a regular file or something else.  A directory is listed in the
    order of [os.scandir], which may raise where the listing stops.  A file has
    the link count of the listing, and what opening it gives: nothing when
    [os.open] raises. *)
Record file_view : Type := {
  fv_regular : bool;     (** [fstat] of the descriptor: a regular file, no link *)
  fv_nlink : Z;
  fv_content : option (list N);   (** the bytes read, unless a read raises *)
  fv_final_size : Z      (** [st_size] after the last read *)
}.
Inductive node : Type :=
  | Unstatable
  | Link
  | Dir (children : list (pystr * node)) (complete : bool)
  | File (nlink : Z) (opened : option file_view)
  | Special.

(** A store opened on a path: [root_identity_digest] at the first and at the
    second reading, what [os.lstat] shows of the path, and what
    [Path.resolve(strict=True)] leads to. *)
Record root_view : Type := {
  rv_open : result unit;
  rv_identity : result pystr;
  rv_supplied : node;
  rv_resolved : option node;
  rv_identity_again : result pystr;
  rv_close : result unit
}.

(** Whether the loop of [_normalized_roots] keeps a path: [os.fspath] may raise,
    and the handler is for [TypeError] only. *)
Definition endpoint_path (path : path_arg) : outcome failure bool :=
  match path with
  | PathText s => Ok (negb (bool_decide (s = [])))
  | PathBytes b => Ok (negb (bool_decide (b = [])))
  | PathRaises e => if isinstance (exn_cls e) TypeError_ then Ok false else Err (Raised e)
  | NotPath => Ok false
  end.

Fixpoint keep_roots (value : list (pystr * path_arg)) : outcome failure (option (list (pystr * path_arg))) :=
  match value with
  | [] => Ok (Some [])
  | (name, path) :: value' =>
      if negb (fullmatch _ROOT_NAME name) then Ok None
      else
        kept ← endpoint_path path;
        if kept : bool then normalized ← keep_roots value'; Ok (option_map (cons (name, path)) normalized)
        else Ok None
  end.

(** [None] when the mapping is refused. *)
Definition _normalized_roots (value : list (pystr * path_arg)) : outcome failure (option (list (pystr * path_arg))) :=
  if bool_decide (value = []) then Ok None else keep_roots value.

(** The store of one root: its identity, or the reason of the [return] in the
    handler or in the [finally]. *)
Definition observe_root (view : root_view) : outcome failure (pystr + string) :=
  match rv_open view with
  | Err e => if is_exception e then Ok (inr "blob_root_unavailable"%string) else Err (Raised e)
  | Ok _ =>
      match rv_close view with
      | Err e => if is_exception e then Ok (inr "blob_root_cleanup_failed"%string) else Err (Raised e)
      | Ok _ =>
          match rv_identity view with
          | Ok root_id => Ok (inl root_id)
          | Err e => if is_exception e then Ok (inr "blob_root_unavailable"%string) else Err (Raised e)
          end
      end
  end.

Fixpoint observe_roots (fs : path_arg -> root_view) (roots : list (pystr * path_arg))
  : outcome failure (list (pystr * pystr) + string) :=
  match roots with
  | [] => Ok (inl [])
  | (name, path) :: roots' =>
      first ← observe_root (fs path);
      match first with
      | inr reason => Ok (inr reason)
      | inl root_id =>
          rest ← observe_roots fs roots';
          Ok (match rest with inl identities => inl ((name, root_id) :: identities) | inr reason => inr reason end)
      end
  end.

(** [_digest(identities)]: a list of pairs. *)
Definition identities_document (identities : list (pystr * pystr)) : json :=
  JArr ((fun '(name, root_id) => JArr [JStr name; JStr root_id]) <$> identities).

Definition by_name (roots : list (pystr * path_arg)) : list (pystr * path_arg) :=
  sort_by (fun a b => str_leb (fst a) (fst b)) roots.

Definition _blob_observation (fs : path_arg -> root_view) (roots : list (pystr * path_arg))
  : outcome failure (pystr + string) :=
  observed ← observe_roots fs (by_name roots);
  match observed with
  | inr reason => Ok (inr reason)
  | inl identities =>
      if bool_decide (NoDup (snd <$> identities)) then d ← plain (_digest (identities_document identities)); Ok (inl d)
      else Ok (inr "blob_root_duplicate"%string)
  end.

(** ** The database *)

(** The statements without rows, in the order of their use. *)
Inductive statement : Type :=
  | SetStatementTimeout
  | SetLockTimeout
  | SetTransactionReadOnly
  | SetRowSecurityOff
  | PinCurrentSchema
  | SetSearchPath (search_path : pystr)
  | LockMetadata (relation : pystr).

(** The row of [_ENDPOINT_QUERY]; [postmaster_started_at] by its text. *)
Record endpoint_row : Type := {
  ep_database : pystr;
  ep_schema : option pystr;
  ep_database_oid : Z;
  ep_schema_oid : Z;
  ep_schema_owner : option pystr;
  ep_in_recovery : bool;
  ep_server_address : option pystr;
  ep_server_port : option Z;
  ep_postmaster_started_at : pystr;
  ep_wal_file : option pystr
}.
(** The row of [_METADATA_IDENTITY_QUERY]. *)
Record identity_row : Type := { id_relation_oid : Z; id_namespace_oid : Z }.
#[global] Instance identity_row_eq_dec : EqDecision identity_row.
Proof. solve_decision. Defined.

(** The answers of a connection; the identity query is asked three times. *)
Record database_session : Type := {
  ds_checkout : result unit;
  ds_begin : result unit;
  ds_execute : statement -> result unit;
  ds_read_only_posture : result (option pystr);
  ds_target : result (option (pystr * option pystr));
  ds_try_migration_lock : Z * Z -> result (option bool);
  ds_endpoint : result (option endpoint_row);
  ds_metadata_identity : nat -> pystr -> result (option identity_row);
  ds_verify_current : result unit;
  ds_metadata : pystr -> Z -> result (list (pystr * option pystr));
  ds_pgcode : exn -> option pystr;
  ds_finish : result unit;
  ds_release : result unit
}.

(** A name in double quotes, with those of the name doubled. *)
Definition quoted_name (name : pystr) : pystr :=
  [34%N] ++ (name ≫= fun c => if (c =? 34)%N then [34%N; 34%N] else [c]) ++ [34%N].

#[global] Arguments quoted_name : simpl never.

Definition observation (state : EndpointReadinessState) (reason : string) : DatabaseObservation :=
  {| do_state := state; do_reasons := [u reason]; do_database_identity := None; do_schema_identity := None |}.

Definition opt_text (o : option pystr) : json := match o with Some s => JStr s | None => JNull end.

Definition database_document (e : endpoint_row) (timeline : pystr) : json :=
  JObj [(u "database", JStr (ep_database e));
        (u "database_oid", JStr (int_text (ep_database_oid e)));
        (u "postmaster_started_at", JStr (ep_postmaster_started_at e));
        (u "server_address", JStr (default [] (ep_server_address e)));
        (u "server_port", match ep_server_port e with Some p => JInt p | None => JNull end);
        (u "timeline", JStr timeline)].
Definition schema_document (e : endpoint_row) (database_identity : pystr) : json :=
  JObj [(u "database_identity", JStr database_identity);
        (u "schema", opt_text (ep_schema e));
        (u "schema_oid", JStr (int_text (ep_schema_oid e)));
        (u "schema_owner", opt_text (ep_schema_owner e))].

(** [wal_file[:8].lower()] *)
Definition timeline_of (e : endpoint_row) : pystr :=
  match ep_wal_file e with Some w => py_lower (take 8 w) | None => [] end.

(** [len(metadata) == 2 and {row["key"]: row["value"] ...} == expected]; the
    query returns only the two keys. *)
Definition metadata_matches (revision digest : pystr) (rows : list (pystr * option pystr)) : bool :=
  let expected := [(SCHEMA_META_REVISION, Some revision); (SCHEMA_META_DIGEST, Some digest)] in
  Nat.eqb (length rows) 2 && forallb (fun row => bool_decide (row ∈ expected)) rows
  && forallb (fun row => bool_decide (row ∈ rows)) expected.

Section Observe.
Context (MIGRATION_DIGEST : pystr).
Let current := CURRENT_DATA_PLANE_REVISION MIGRATION_DIGEST.

Definition metadata_current (rows : list (pystr * option pystr)) : bool :=
  metadata_matches (dp_schema_revision current) (dp_migration_digest current) rows.

(** The [try] block: lock the table, read its identity again, verify the
    catalog.  [Some] is a [return] inside the block. *)
Definition verify_catalog (s : database_session) (expected_schema : pystr) (found : identity_row)
  : result (option DatabaseObservation) :=
  ds_execute s (LockMetadata (quoted_name expected_schema ++ u ".schema_meta")) ;;
  again ← ds_metadata_identity s 1 expected_schema;
  if bool_decide (again = Some found)
  then ds_verify_current s ;; Ok None
  else Ok (Some (observation INCOMPATIBLE "schema_identity_changed")).

Definition guarded_catalog (s : database_session) (expected_schema : pystr) (found : identity_row)
  : result (option DatabaseObservation) :=
  match verify_catalog s expected_schema found with
  | Err e =>
      if is_exception e && negb (bool_decide (ds_pgcode s e ∈ [Some (u "55P03"); Some (u "57014")]))
      then Ok (Some (observation INCOMPATIBLE "schema_catalog_mismatch"))
      else Err e
  | r => r
  end.

(** After the catalog: the metadata rows, the identity once more, the digests. *)
Definition observe_identity (s : database_session) (expected_schema : pystr) (e : endpoint_row) (found : identity_row)
  : result DatabaseObservation :=
  metadata ← ds_metadata s (quoted_name expected_schema ++ u ".schema_meta") (id_relation_oid found);
  if negb (metadata_current metadata) then Ok (observation INCOMPATIBLE "schema_metadata_mismatch")
  else
    last ← ds_metadata_identity s 2 expected_schema;
    if negb (bool_decide (last = Some found)) then Ok (observation INCOMPATIBLE "schema_identity_changed")
    else
      database_identity ← _digest (database_document e (timeline_of e));
      schema_identity ← _digest (schema_document e database_identity);
      Ok {| do_state := WRITABLE; do_reasons := []; do_database_identity := Some database_identity;
            do_schema_identity := Some schema_identity |}.

(** The role, the timeline and the identity of the metadata table. *)
Definition observe_endpoint (s : database_session) (posture : option pystr) (expected_schema : pystr) (e : endpoint_row)
  : result DatabaseObservation :=
  if ep_in_recovery e then Ok (observation NOT_PRIMARY "postgresql_in_recovery")
  else if negb (bool_decide (posture = Some (u "off"))) then Ok (observation NOT_PRIMARY "postgresql_read_only")
  else if negb (fullmatch _TIMELINE (timeline_of e)) then Ok (observation AMBIGUOUS "endpoint_timeline_unavailable")
  else
    identity_ ← ds_metadata_identity s 0 expected_schema;
    match identity_ with
    | None => Ok (observation INCOMPATIBLE "schema_catalog_mismatch")
    | Some found =>
        if negb (id_namespace_oid found =? ep_schema_oid e) then Ok (observation INCOMPATIBLE "schema_catalog_mismatch")
        else
          refused ← guarded_catalog s expected_schema found;
          match refused with
          | Some o => Ok o
          | None => observe_identity s expected_schema e found
          end
    end.

Definition _observe_database (s : database_session) (expected_database expected_schema : pystr) : result DatabaseObservation :=
  ds_execute s SetStatementTimeout ;;
  ds_execute s SetLockTimeout ;;
  posture ← ds_read_only_posture s;
  ds_execute s SetTransactionReadOnly ;;
  ds_execute s SetRowSecurityOff ;;
  ds_execute s PinCurrentSchema ;;
  target ← ds_target s;
  if negb (bool_decide (target = Some (expected_database, Some expected_schema)))
  then Ok (observation INCOMPATIBLE "database_or_schema_target_mismatch")
  else
    ds_execute s (SetSearchPath (quoted_name expected_schema ++ u ",pg_temp")) ;;
    acquired ← ds_try_migration_lock s (default (0, 0) (migration_lock current));
    if negb (bool_decide (acquired = Some true)) then Ok (observation UNAVAILABLE "migration_in_progress")
    else
      endpoint ← ds_endpoint s;
      match endpoint with
      | None => Ok (observation INCOMPATIBLE "endpoint_observation_unavailable")
      | Some e => observe_endpoint s posture expected_schema e
      end.

(** The transaction always ends by a rollback; errors of the clean-up replace
    what was raised or returned. *)
Definition finally {A} (m : result A) (cleanup : result unit) : result A := cleanup ;; m.
Definition _inspect_database (s : database_session) (expected_database expected_schema : pystr) : result DatabaseObservation :=
  ds_checkout s ;;
  finally (ds_begin s ;; finally (_observe_database s expected_database expected_schema) (ds_finish s)) (ds_release s).

(** ** The fence *)

(** [EndpointFence.__post_init__] *)
Definition fence_init (f : EndpointFence) : result EndpointFence :=
  raise_unless (bool_decide (ef_topology f = PAIRED_BLOB_ROOTS)) (Exn ValueError_ "endpoint fence topology is unsupported") ;;
  raise_unless (is_sha256 (ef_database_identity f))
    (Exn ValueError_ "endpoint fence database_identity must be lowercase SHA-256") ;;
  raise_unless (is_sha256 (ef_schema_identity f)) (Exn ValueError_ "endpoint fence schema_identity must be lowercase SHA-256") ;;
  raise_unless (is_sha256 (ef_blob_identity f)) (Exn ValueError_ "endpoint fence blob_identity must be lowercase SHA-256") ;;
  raise_unless (is_sha256 (ef_blob_inventory_digest f))
    (Exn ValueError_ "endpoint fence blob inventory digest must be lowercase SHA-256") ;;
  raise_if (bool_decide (ef_blob_roots f = [])
            || negb (bool_decide (ef_blob_roots f = sorted_names (ef_blob_roots f)))
            || negb (bool_decide (NoDup (ef_blob_roots f)))
            || existsb (fun name => negb (fullmatch _ROOT_NAME name)) (ef_blob_roots f))
    (Exn ValueError_ "endpoint fence blob roots must be unique sorted identifiers") ;;
  raise_unless (bool_decide (ef_migration_digest f = dp_migration_digest current))
    (Exn ValueError_ "endpoint fence migration digest is not current") ;;
  raise_unless (bool_decide (ef_schema_revision f = dp_schema_revision current))
    (Exn ValueError_ "endpoint fence schema revision is not current") ;;
  raise_unless (bool_decide (ef_blob_layout_version f = BLOB_LAYOUT_VERSION))
    (Exn ValueError_ "endpoint fence blob layout is unsupported") ;;
  Ok f.

Definition _fence_reasons (expected observed : EndpointFence) : list pystr :=
  let differs {A} `{EqDecision A} (field : EndpointFence -> A) := negb (bool_decide (field expected = field observed)) in
  let reasons :=
    reason_if (differs ef_topology) "fence_topology_mismatch"
    ++ reason_if (differs ef_database_identity) "fence_database_identity_mismatch"
    ++ reason_if (differs ef_schema_identity) "fence_schema_identity_mismatch"
    ++ reason_if (differs ef_blob_identity) "fence_blob_identity_mismatch"
    ++ reason_if (differs ef_blob_inventory_digest) "fence_blob_inventory_mismatch"
    ++ reason_if (differs ef_blob_roots) "fence_blob_root_set_mismatch"
    ++ reason_if (differs ef_schema_revision) "fence_schema_revision_mismatch"
    ++ reason_if (differs ef_migration_digest) "fence_migration_digest_mismatch"
    ++ reason_if (differs ef_blob_layout_version) "fence_blob_layout_mismatch" in
  match reasons with [] => [u "fence_mismatch"] | _ => reasons end.

(** ** The report *)

(** [acquire_timeout_seconds]: an integer, a finite float by its value, or an
    infinity or NaN. *)
Inductive timeout : Type := IntSeconds (seconds : Z) | FloatSeconds (seconds : QArith_base.Q) | NotFinite.

(** [float(z)] raises [OverflowError] when [z] rounds past the largest double: the
    doubles end at [2^1024 - 2^971], and half a unit above it rounds up. *)
Definition float_overflows (z : Z) : bool := 2 ^ 1024 - 2 ^ 970 <=? Z.abs z.

Definition endpoint_error {A} : outcome failure A := raise_plane EndpointReadinessError CodeNone MetaNone.

Definition check_acquire_timeout (t : timeout) : outcome failure unit :=
  match t with
  | IntSeconds z =>
      if float_overflows z then Err (Raised (Exn OverflowError_ "int too large to convert to float"))
      else if z <=? 0 then endpoint_error else Ok ()
  | FloatSeconds q => if QArith_base.Qle_bool q (QArith_base.inject_Z 0) then endpoint_error else Ok ()
  | NotFinite => endpoint_error
  end.

Record readiness_request : Type := {
  rq_database_url : pystr;
  rq_blob_roots : list (pystr * path_arg);
  rq_blob_inventory_digest : pystr;
  rq_expected_database : pystr;
  rq_expected_schema : pystr;
  rq_expected_schema_revision : pystr;
  rq_expected_migration_digest : pystr;
  rq_expected_blob_layout_version : pystr;
  rq_topology : pystr;
  rq_expected_fence : option EndpointFence;
  rq_connect_timeout_seconds : Z;
  rq_acquire_timeout_seconds : timeout
}.

(** Creating the pool, its one session, and closing it. *)
Record endpoint_env : Type := {
  ee_roots : path_arg -> root_view;
  ee_connect : result database_session;
  ee_close : result unit
}.

(** [_report]: the echo of the request with a state, a fence and reasons. *)
Definition _report (rq : readiness_request) (state : EndpointReadinessState) (blob_roots : list pystr)
    (blob_inventory_digest : option pystr) (fence : option EndpointFence) (reasons : list pystr)
  : outcome failure EndpointReadiness :=
  expected ← match rq_expected_fence rq with
             | None => Ok None
             | Some f => d ← plain (fence_digest f); Ok (Some d)
             end;
  Ok {| er_state := state;
        er_topology := rq_topology rq;
        er_expected_database := rq_expected_database rq;
        er_expected_schema := rq_expected_schema rq;
        er_expected_schema_revision := rq_expected_schema_revision rq;
        er_expected_migration_digest := rq_expected_migration_digest rq;
        er_expected_blob_layout_version := rq_expected_blob_layout_version rq;
        er_blob_roots := blob_roots;
        er_blob_inventory_digest := blob_inventory_digest;
        er_fence := fence;
        er_expected_fence_digest := expected;
        er_reasons := reasons |}.

Definition schema_name_invalid (name : pystr) : bool :=
  negb (_identifier name) || starts_with (u "pg_") name || bool_decide (name = u "information_schema").

(** The static checks, all of them reported. *)
Definition request_reasons (rq : readiness_request) : list pystr :=
  reason_if (negb (_identifier (rq_expected_database rq))) "expected_database_invalid"
  ++ reason_if (schema_name_invalid (rq_expected_schema rq)) "expected_schema_invalid"
  ++ reason_if (negb (bool_decide (rq_expected_schema_revision rq = dp_schema_revision current)))
       "expected_schema_revision_not_current"
  ++ reason_if (negb (bool_decide (rq_expected_migration_digest rq = dp_migration_digest current)))
       "expected_migration_digest_not_current"
  ++ reason_if (negb (bool_decide (rq_expected_blob_layout_version rq = BLOB_LAYOUT_VERSION)))
       "expected_blob_layout_version_mismatch"
  ++ reason_if (negb (bool_decide (rq_topology rq = PAIRED_BLOB_ROOTS))) "topology_unsupported".

(** The part with a pool: the observation, or the reason it failed. *)
Definition inspect_pool (env : endpoint_env) (rq : readiness_request) : outcome failure (DatabaseObservation + string) :=
  match (s ← ee_connect env; _inspect_database s (rq_expected_database rq) (rq_expected_schema rq)) with
  | Err e =>
      if is_exception e then
        match ee_connect env, ee_close env with
        | Ok _, Err close_error => if is_exception close_error then Ok (inr "database_unavailable"%string)
                                   else Err (Raised close_error)
        | _, _ => Ok (inr "database_unavailable"%string)
        end
      else Err (Raised e)
  | Ok o =>
      match ee_close env with
      | Ok _ => Ok (inl o)
      | Err e => if is_exception e then Ok (inr "database_cleanup_failed"%string) else Err (Raised e)
      end
  end.

(** The fence of a writable observation, and its comparison with the expected one. *)
Definition report_fence (rq : readiness_request) (root_names : list pystr) (blob_identity : pystr) (o : DatabaseObservation)
  : outcome failure EndpointReadiness :=
  match do_database_identity o, do_schema_identity o with
  | Some database_identity, Some schema_identity =>
      fence ← plain (fence_init
        {| ef_topology := rq_topology rq;
           ef_database_identity := database_identity;
           ef_schema_identity := schema_identity;
           ef_blob_identity := blob_identity;
           ef_blob_inventory_digest := rq_blob_inventory_digest rq;
           ef_blob_roots := root_names;
           ef_schema_revision := dp_schema_revision current;
           ef_migration_digest := dp_migration_digest current;
           ef_blob_layout_version := rq_expected_blob_layout_version rq |});
      stale ← match rq_expected_fence rq with
              | None => Ok false
              | Some expected => wanted ← plain (fence_digest expected); seen ← plain (fence_digest fence);
                                 Ok (negb (bool_decide (wanted = seen)))
              end;
      match rq_expected_fence rq with
      | Some expected =>
          if stale : bool
          then _report rq STALE root_names (Some (rq_blob_inventory_digest rq)) (Some fence) (_fence_reasons expected fence)
          else _report rq WRITABLE root_names (Some (rq_blob_inventory_digest rq)) (Some fence) []
      | None => _report rq WRITABLE root_names (Some (rq_blob_inventory_digest rq)) (Some fence) []
      end
  | _, _ => Err (Raised (Exn AssertionError_ ""))
  end.

Definition inspect_endpoint_readiness (env : endpoint_env) (rq : readiness_request) : outcome failure EndpointReadiness :=
  if bool_decide (py_strip (rq_database_url rq) = []) then endpoint_error
  else if rq_connect_timeout_seconds rq <? 1 then endpoint_error
  else
    check_acquire_timeout (rq_acquire_timeout_seconds rq) ;;
    roots ← _normalized_roots (rq_blob_roots rq);
    let root_names := match roots with None => [] | Some roots => names_of roots end in
    let inventory := rq_blob_inventory_digest rq in
    let reasons := request_reasons rq in
    if negb (bool_decide (reasons = []))
    then _report rq INCOMPATIBLE root_names (if is_sha256 inventory then Some inventory else None) None reasons
    else
      match roots with
      | None => _report rq AMBIGUOUS root_names None None [u "blob_roots_invalid"]
      | Some roots =>
          if negb (is_sha256 inventory) then _report rq AMBIGUOUS root_names None None [u "blob_inventory_digest_invalid"]
          else
            blobs ← _blob_observation (ee_roots env) roots;
            match blobs with
            | inr reason => _report rq AMBIGUOUS root_names (Some inventory) None [u reason]
            | inl blob_identity =>
                inspected ← inspect_pool env rq;
                match inspected with
                | inr reason => _report rq UNAVAILABLE root_names (Some inventory) None [u reason]
                | inl o =>
                    if bool_decide (do_state o = WRITABLE) then report_fence rq root_names blob_identity o
                    else _report rq (do_state o) root_names (Some inventory) None (do_reasons o)
                end
            end
      end.
End Observe.
