(* ===== verification/EndpointSpec.v ===== *)
(** * What endpoint readiness promises

    When a report says that an endpoint is writable, that the function always
    returns a report, and what the fence identifies. *)

From S2P Require Import Prelude Regex Errors Domain Sha256 Json JsonDecode Pg Revision Migrations MigrationLineage Outbox AuditDelivery Compatibility EndpointReadiness.

(** ** Documents that always have a text *)

Fixpoint dumpable (v : json) : bool :=
  match v with
  | JNull | JBool _ | JFloat _ | JStr _ => true
  | JInt z => Json.printable z
  | JArr l => forallb dumpable l
  | JObj items => forallb (fun '(_, x) => dumpable x) items
  | JNonFinite | JOther => false
  end.

Lemma dumpable_dumps b v : dumpable v = true -> exists t, dumps b v = Ok t.
Proof.
  induction v as [|flag|z|text| |s|l IH|items IH|] using json_nested_ind; cbn [dumpable dumps]; intros Hv; try done; eauto.
  - rewrite Hv. cbn. eauto.
  - destruct (map_each_total (dumps b) l) as [ts ->]; [|cbn; eauto].
    rewrite forallb_forall in Hv. rewrite Forall_forall in IH. intros x Hx. apply IH; [done|]. by apply Hv, list_elem_of_In.
  - destruct (map_each_total (fun '(k, x) => t ← dumps b x; Ok (k, t)) items) as [ms ->]; [|cbn; eauto].
    rewrite forallb_forall in Hv. rewrite Forall_forall in IH. intros [k x] Hx. pose proof Hx as Hy%list_elem_of_In%Hv.
    destruct (IH _ Hx Hy) as [t Ht]. cbn in Ht. rewrite Ht. cbn. eauto.
Qed.

Lemma digest_total v : dumpable v = true -> exists d, _digest v = Ok d /\ is_sha256 d = true.
Proof.
  intros [t Ht]%(dumpable_dumps true). unfold _digest. rewrite Ht. eexists. split; [done|]. apply sha256_hex_format.
Qed.

Lemma digest_format v d : _digest v = Ok d -> is_sha256 d = true.
Proof. intros (t & _ & <-%Ok_inj)%bind_Ok_inv. apply sha256_hex_format. Qed.

Lemma dumpable_texts l : forallb dumpable (JStr <$> l) = true.
Proof. by induction l. Qed.

Lemma fence_digest_total f : exists d, fence_digest f = Ok d /\ is_sha256 d = true.
Proof. apply digest_total. cbn. by rewrite dumpable_texts. Qed.

Lemma identities_dumpable l : dumpable (identities_document l) = true.
Proof. unfold identities_document. cbn. induction l as [|[n i] l IH]; [done|]. by cbn. Qed.

(** ** Two digests that agree *)

(** Either the documents are the same up to the order of keys, or their texts
    are different with one SHA-256. *)
Definition same_or_colliding (v1 v2 : json) : Prop :=
  sort_json v1 = sort_json v2
  \/ exists t1 t2, dumps true v1 = Ok t1 /\ dumps true v2 = Ok t2 /\ t1 <> t2 /\ sha256_hex t1 = sha256_hex t2.

Section Binding.
Context `{PyFloat}.

Lemma digest_binds v1 v2 d :
  json_wf v1 = true -> json_wf v2 = true -> _digest v1 = Ok d -> _digest v2 = Ok d -> same_or_colliding v1 v2.
Proof.
  intros W1 W2 (t1 & D1 & E1%Ok_inj)%bind_Ok_inv (t2 & D2 & E2%Ok_inj)%bind_Ok_inv.
  destruct (decide (t1 = t2)) as [<-|Hne]; [left; by eapply dumps_inj|]. right. exists t1, t2. split_and!; [done|done|done|congruence].
Qed.

(** Text without surrogates, as every pattern of the fence demands. *)
Lemma sha256_scalar s : is_sha256 s = true -> forallb scalar s = true.
Proof.
  intros [_ Hs]%hex64_spec. apply ascii_scalar. eapply Forall_impl; [exact Hs|]. cbn. intros c Hc.
  unfold is_hex, is_digit, in_range in Hc. rewrite orb_true_iff, !andb_true_iff, !N.leb_le in Hc. lia.
Qed.

Lemma alnum_ascii c : is_alnum c = true -> (c < 128)%N.
Proof. unfold is_alnum, is_upper, is_lower, is_digit, in_range. rewrite !orb_true_iff, !andb_true_iff, !N.leb_le. lia. Qed.

Lemma root_name_scalar s : fullmatch _ROOT_NAME s = true -> forallb scalar s = true.
Proof.
  intros (s1 & s2 & -> & (c & -> & Hc) & _ & Hf)%fullmatch_lang. apply ascii_scalar. constructor; [by apply alnum_ascii|].
  eapply Forall_impl; [exact Hf|]. cbn. intros x [Hx|Hx]%orb_true_iff; [by apply alnum_ascii|].
  unfold one_of in Hx. apply bool_decide_eq_true in Hx. change (u "._-") with [46%N; 95%N; 45%N] in Hx.
  repeat (apply elem_of_cons in Hx as [->|Hx]; [done|]). by apply elem_of_nil in Hx.
Qed.
End Binding.

(** ** The fence *)

Lemma texts_sorted l : sort_json (JArr (JStr <$> l)) = JArr (JStr <$> l).
Proof. cbn. f_equal. rewrite <- list_fmap_compose. by apply list_fmap_ext. Qed.

Lemma texts_inj l1 l2 : JArr (JStr <$> l1) = JArr (JStr <$> l2) -> l1 = l2.
Proof. intros [= Hl]. revert l2 Hl. induction l1 as [|x l1 IH]; intros [|y l2]; [done..|]. cbn. intros [= -> Hl]. f_equal. by apply IH. Qed.

(** Members in the same place of two objects. *)
Lemma object_member items1 items2 i k x1 x2 :
  sort_json (JObj items1) = sort_json (JObj items2) -> NoDup (fst <$> items2) ->
  items1 !! i = Some (k, x1) -> items2 !! i = Some (k, x2) -> sort_json x1 = sort_json x2.
Proof. intros Hs Hn H1%list_elem_of_lookup_2 H2%list_elem_of_lookup_2. by eapply sort_json_member. Qed.

Lemma object_text items1 items2 i k x1 x2 :
  sort_json (JObj items1) = sort_json (JObj items2) -> NoDup (fst <$> items2) ->
  items1 !! i = Some (k, JStr x1) -> items2 !! i = Some (k, JStr x2) -> x1 = x2.
Proof. intros Hs Hn H1 H2. pose proof (object_member _ _ _ _ _ _ Hs Hn H1 H2) as Hm. by injection Hm. Qed.

Lemma object_texts items1 items2 i k l1 l2 :
  sort_json (JObj items1) = sort_json (JObj items2) -> NoDup (fst <$> items2) ->
  items1 !! i = Some (k, JArr (JStr <$> l1)) -> items2 !! i = Some (k, JArr (JStr <$> l2)) -> l1 = l2.
Proof.
  intros Hs Hn H1 H2. pose proof (object_member _ _ _ _ _ _ Hs Hn H1 H2) as Hm. rewrite !texts_sorted in Hm. by apply texts_inj.
Qed.

Lemma fence_document_inj f1 f2 : sort_json (fence_document f1 []) = sort_json (fence_document f2 []) -> f1 = f2.
Proof.
  destruct f1 as [a1 b1 c1 d1 e1 r1 g1 h1 i1], f2 as [a2 b2 c2 d2 e2 r2 g2 h2 i2]. unfold fence_document. cbn [app].
  intros Hs. assert (NoDup (fst <$> [(u "blob_identity", JStr d2); (u "blob_inventory_digest", JStr e2);
    (u "blob_layout_version", JStr i2); (u "blob_roots", JArr (JStr <$> r2)); (u "database_identity", JStr b2);
    (u "migration_digest", JStr h2); (u "schema_identity", JStr c2); (u "schema_revision", JStr g2);
    (u "topology", JStr a2)])) as Hn by (by apply (bool_decide_unpack _)).
  f_equal.
  - by apply (object_text _ _ 8 (u "topology") _ _ Hs Hn).
  - by apply (object_text _ _ 4 (u "database_identity") _ _ Hs Hn).
  - by apply (object_text _ _ 6 (u "schema_identity") _ _ Hs Hn).
  - by apply (object_text _ _ 0 (u "blob_identity") _ _ Hs Hn).
  - by apply (object_text _ _ 1 (u "blob_inventory_digest") _ _ Hs Hn).
  - by apply (object_texts _ _ 3 (u "blob_roots") _ _ Hs Hn).
  - by apply (object_text _ _ 7 (u "schema_revision") _ _ Hs Hn).
  - by apply (object_text _ _ 5 (u "migration_digest") _ _ Hs Hn).
  - by apply (object_text _ _ 2 (u "blob_layout_version") _ _ Hs Hn).
Qed.

(** Reading a list of reasons back. *)
Lemma reason_if_elem b reason x : x ∈ reason_if b reason <-> b = true /\ x = u reason.
Proof. destruct b; cbn; rewrite ?list_elem_of_singleton; [naive_solver|]. rewrite elem_of_nil. naive_solver. Qed.

Lemma reason_if_nil b reason : reason_if b reason = [] <-> b = false.
Proof. by destruct b. Qed.

Lemma fence_reasons_differ expected observed :
  expected <> observed -> u "fence_mismatch" ∉ _fence_reasons expected observed.
Proof.
  intros Hne. unfold _fence_reasons. destruct (_ ++ _) as [|x l] eqn:Hl.
  - exfalso. apply Hne. repeat (apply app_eq_nil in Hl as [?%reason_if_nil%negb_false_iff%bool_decide_eq_true Hl]).
    apply reason_if_nil, negb_false_iff, bool_decide_eq_true in Hl. destruct expected, observed. cbn in *. by subst.
  - rewrite <- Hl. clear x l Hl. rewrite !elem_of_app, !reason_if_elem.
    intros Hx. repeat destruct Hx as [Hx|Hx]; by destruct Hx as [_ Hx].
Qed.

(** The fields of a fence, each with the reason that reports its difference. *)
Inductive fence_differs (wanted f : EndpointFence) : pystr -> Prop :=
  | differs_topology : ef_topology wanted <> ef_topology f -> fence_differs wanted f (u "fence_topology_mismatch")
  | differs_database : ef_database_identity wanted <> ef_database_identity f ->
      fence_differs wanted f (u "fence_database_identity_mismatch")
  | differs_schema : ef_schema_identity wanted <> ef_schema_identity f ->
      fence_differs wanted f (u "fence_schema_identity_mismatch")
  | differs_blobs : ef_blob_identity wanted <> ef_blob_identity f -> fence_differs wanted f (u "fence_blob_identity_mismatch")
  | differs_inventory : ef_blob_inventory_digest wanted <> ef_blob_inventory_digest f ->
      fence_differs wanted f (u "fence_blob_inventory_mismatch")
  | differs_roots : ef_blob_roots wanted <> ef_blob_roots f -> fence_differs wanted f (u "fence_blob_root_set_mismatch")
  | differs_revision : ef_schema_revision wanted <> ef_schema_revision f ->
      fence_differs wanted f (u "fence_schema_revision_mismatch")
  | differs_migrations : ef_migration_digest wanted <> ef_migration_digest f ->
      fence_differs wanted f (u "fence_migration_digest_mismatch")
  | differs_layout : ef_blob_layout_version wanted <> ef_blob_layout_version f ->
      fence_differs wanted f (u "fence_blob_layout_mismatch").

(** Membership in the list of reasons, one disjunct for each field. *)
Lemma fence_reasons_exact wanted f x :
  wanted <> f -> x ∈ _fence_reasons wanted f <-> fence_differs wanted f x.
Proof.
  intros Hne. assert (x ∈ _fence_reasons wanted f <-> x ∈ _fence_reasons wanted f /\ x <> u "fence_mismatch") as ->.
  { pose proof (fence_reasons_differ _ _ Hne). split; [|naive_solver]. intros Hx. split; [done|by intros ->]. }
  unfold _fence_reasons. case_match eqn:Hl.
  { split; [set_solver|]. intros Hd. exfalso. apply not_elem_of_nil with x. rewrite <- Hl.
    rewrite !elem_of_app, !reason_if_elem, !negb_true_iff, !bool_decide_eq_false. destruct Hd; tauto. }
  rewrite <- Hl, !elem_of_app, !reason_if_elem, !negb_true_iff, !bool_decide_eq_false. split.
  - intros [Hx _]. repeat (destruct Hx as [[Hx ->]|Hx]; [by constructor|]). destruct Hx as [Hx ->]. by constructor.
  - intros Hd. split; [destruct Hd; tauto|]. by destruct Hd.
Qed.

Definition all_fence_reasons : list pystr :=
  [u "fence_topology_mismatch"; u "fence_database_identity_mismatch"; u "fence_schema_identity_mismatch";
   u "fence_blob_identity_mismatch"; u "fence_blob_inventory_mismatch"; u "fence_blob_root_set_mismatch";
   u "fence_schema_revision_mismatch"; u "fence_migration_digest_mismatch"; u "fence_blob_layout_mismatch"].

Lemma reason_if_sublist b reason : sublist (reason_if b reason) [u reason].
Proof. destruct b; cbn; repeat constructor. Qed.

(** The reasons keep this order, and none is repeated. *)
Lemma fence_reasons_sublist wanted f : wanted <> f -> sublist (_fence_reasons wanted f) all_fence_reasons.
Proof.
  intros Hne. pose proof (fence_reasons_differ _ _ Hne) as Hd. revert Hd. unfold _fence_reasons. case_match eqn:Hl; [set_solver|].
  intros _. rewrite <- Hl. unfold all_fence_reasons.
  repeat (match goal with |- sublist (_ ++ _) (?x :: ?l) => change (x :: l) with ([x] ++ l) end;
          apply sublist_app; [apply reason_if_sublist|]). apply reason_if_sublist.
Qed.

Lemma fence_reasons_ne expected observed : _fence_reasons expected observed <> [].
Proof. unfold _fence_reasons. by destruct (_ ++ _). Qed.

Section Fence.
Context `{PyFloat} (MIGRATION_DIGEST : pystr).

Lemma fence_valid f : fence_init MIGRATION_DIGEST f = Ok f ->
  is_sha256 (ef_database_identity f) = true /\ is_sha256 (ef_schema_identity f) = true
  /\ is_sha256 (ef_blob_identity f) = true /\ is_sha256 (ef_blob_inventory_digest f) = true
  /\ NoDup (ef_blob_roots f) /\ Forall (fun name => fullmatch _ROOT_NAME name = true) (ef_blob_roots f)
  /\ ef_topology f = PAIRED_BLOB_ROOTS /\ ef_migration_digest f = MIGRATION_DIGEST
  /\ ef_schema_revision f = u "089.014" /\ ef_blob_layout_version f = BLOB_LAYOUT_VERSION.
Proof.
  unfold fence_init. intros Hf. inv_ok. split_bools. split_and!; try done.
  apply Forall_forall. intros name Hn.
  match goal with Hx : existsb _ _ = false |- _ => rename Hx into He end.
  apply not_true_iff_false in He. destruct (fullmatch _ROOT_NAME name) eqn:Hm; [done|]. exfalso. apply He, existsb_exists.
  exists name. rewrite Hm. split; [by apply list_elem_of_In|done].
Qed.

Lemma fence_document_wf f : is_sha256 MIGRATION_DIGEST = true ->
  fence_init MIGRATION_DIGEST f = Ok f -> json_wf (fence_document f []) = true.
Proof.
  intros Hd (Ha & Hb & Hc & He & _ & Hr & Ht & Hm & Hs & Hl)%fence_valid. unfold fence_document. cbn [app json_wf].
  rewrite Ht, Hm, Hs, Hl. apply andb_true_iff. split; [by apply bool_decide_eq_true_2, (bool_decide_unpack _)|].
  cbn [forallb json_wf]. rewrite !andb_true_iff. split_and!; first [apply sha256_scalar; assumption | reflexivity | idtac].
  apply forallb_forall. intros x Hx%list_elem_of_In. apply list_elem_of_fmap in Hx as (n & -> & Hn).
  rewrite Forall_forall in Hr. cbn. by apply root_name_scalar, Hr.
Qed.
End Fence.

(** ** A qualified database *)

Lemma metadata_matches_spec revision digest rows :
  metadata_matches revision digest rows = true <->
  rows ≡ₚ [(SCHEMA_META_REVISION, Some revision); (SCHEMA_META_DIGEST, Some digest)].
Proof.
  unfold metadata_matches. set (expected := [(SCHEMA_META_REVISION, Some revision); (SCHEMA_META_DIGEST, Some digest)]).
  rewrite !andb_true_iff, Nat.eqb_eq, !forallb_forall.
  assert (NoDup expected) as Hn by (repeat constructor; set_solver). split.
  - intros [[Hl _] Hc]. symmetry. apply submseteq_length_Permutation; [|rewrite Hl; done].
    apply NoDup_submseteq; [done|]. intros x Hx. apply (bool_decide_eq_true (x ∈ rows)). by apply Hc, list_elem_of_In.
  - intros Hp. rewrite (Permutation_length Hp). split_and!; [done| |].
    + intros x Hx%list_elem_of_In. apply bool_decide_eq_true. by rewrite <- Hp.
    + intros x Hx%list_elem_of_In. apply bool_decide_eq_true. by rewrite Hp.
Qed.

Section Qualified.
Context (MIGRATION_DIGEST : pystr).
Let current := CURRENT_DATA_PLANE_REVISION MIGRATION_DIGEST.

Definition current_metadata : list (pystr * option pystr) :=
  [(SCHEMA_META_REVISION, Some (dp_schema_revision current)); (SCHEMA_META_DIGEST, Some (dp_migration_digest current))].

Lemma metadata_current_spec rows : metadata_current MIGRATION_DIGEST rows = true <-> rows ≡ₚ current_metadata.
Proof. apply metadata_matches_spec. Qed.

(** The statements that the observation ran, in order. *)
Definition observation_statements (schema : pystr) : list statement :=
  [SetStatementTimeout; SetLockTimeout; SetTransactionReadOnly; SetRowSecurityOff; PinCurrentSchema;
   SetSearchPath (quoted_name schema ++ u ",pg_temp"); LockMetadata (quoted_name schema ++ u ".schema_meta")].

(** A session of a writable primary on the expected database, at the current
    revision, whose metadata table kept its identity throughout. *)
Record database_qualified (s : database_session) (database schema : pystr) (e : endpoint_row)
    (database_identity schema_identity : pystr) : Prop := {
  dq_statements : Forall (fun st => ds_execute s st = Ok ()) (observation_statements schema);
  dq_target : ds_target s = Ok (Some (database, Some schema));
  dq_lock : ds_try_migration_lock s (1095980114, 60001) = Ok (Some true);
  dq_endpoint : ds_endpoint s = Ok (Some e);
  dq_primary : ep_in_recovery e = false;
  dq_posture : ds_read_only_posture s = Ok (Some (u "off"));
  dq_timeline : fullmatch _TIMELINE (timeline_of e) = true;
  dq_catalog : exists found rows,
    Forall (fun n => ds_metadata_identity s n schema = Ok (Some found)) [0%nat; 1%nat; 2%nat]
    /\ id_namespace_oid found = ep_schema_oid e /\ ds_verify_current s = Ok ()
    /\ ds_metadata s (quoted_name schema ++ u ".schema_meta") (id_relation_oid found) = Ok rows
    /\ rows ≡ₚ current_metadata;
  dq_database_identity : _digest (database_document e (timeline_of e)) = Ok database_identity;
  dq_schema_identity : _digest (schema_document e database_identity) = Ok schema_identity
}.

Definition writable_observation (database_identity schema_identity : pystr) : DatabaseObservation :=
  {| do_state := WRITABLE; do_reasons := []; do_database_identity := Some database_identity;
     do_schema_identity := Some schema_identity |}.

(** [case_test H]: the next test or call of a hypothesis [H : ... = Ok _]. *)
Ltac case_test H :=
  match type of H with
  | (_ ≫= _) = Ok _ => let v := fresh "v" in let E := fresh "E" in apply bind_Ok_inv in H as (v & E & H)
  | (if ?b then _ else _) = Ok _ => let E := fresh "E" in destruct b eqn:E
  | match ?x with Some _ => _ | None => _ end = Ok _ => let E := fresh "E" in destruct x eqn:E
  end.

Lemma guarded_catalog_None s schema found :
  guarded_catalog s schema found = Ok None <->
  ds_execute s (LockMetadata (quoted_name schema ++ u ".schema_meta")) = Ok ()
  /\ ds_metadata_identity s 1 schema = Ok (Some found) /\ ds_verify_current s = Ok ().
Proof.
  unfold guarded_catalog, verify_catalog. destruct (ds_execute s _) as [[]|x]; cbn; [|destruct (_ && _); naive_solver].
  destruct (ds_metadata_identity s 1 schema) as [again|x]; cbn; [|destruct (_ && _); naive_solver].
  case_bool_decide as Ha; subst; [|naive_solver].
  destruct (ds_verify_current s) as [[]|x]; cbn; [naive_solver|]. destruct (_ && _); naive_solver.
Qed.

Lemma guarded_catalog_Some s schema found o : guarded_catalog s schema found = Ok (Some o) ->
  do_state o = INCOMPATIBLE /\ do_reasons o <> [].
Proof.
  unfold guarded_catalog. destruct (verify_catalog s schema found) as [r|x] eqn:Hv; [|by destruct (_ && _); intros [= <-]].
  intros [= ->]. unfold verify_catalog in Hv. repeat case_test Hv; [done|by injection Hv as <-].
Qed.

Lemma observe_writable s database schema o :
  _observe_database MIGRATION_DIGEST s database schema = Ok o -> do_state o = WRITABLE ->
  exists e database_identity schema_identity, database_qualified s database schema e database_identity schema_identity
    /\ o = writable_observation database_identity schema_identity.
Proof.
  unfold _observe_database, observe_endpoint, observe_identity. intros Ho Hw.
  repeat case_test Ho; try (injection Ho as <-; discriminate Hw).
  all: try match goal with Hc : guarded_catalog _ _ _ = Ok (Some _) |- _ => apply guarded_catalog_Some in Hc as [? _]; congruence end.
  injection Ho as <-. exists e. eexists _, _. split; cycle 1; [reflexivity|]. split_bools. subst.
  match goal with Hc : guarded_catalog _ _ _ = Ok None |- _ => apply guarded_catalog_None in Hc as (? & ? & ?) end.
  repeat match goal with x : unit |- _ => destruct x end.
  match goal with Hm : metadata_current _ _ = true |- _ => apply metadata_current_spec in Hm end.
  split; try done; [by repeat constructor|]. eexists _, _. split_and!; try done. by repeat constructor.
Qed.

(** Only the comparison with an expected fence says that an endpoint is stale,
    and every other state has its reason. *)
Lemma observe_states s database schema o : _observe_database MIGRATION_DIGEST s database schema = Ok o ->
  do_state o <> STALE /\ (do_state o <> WRITABLE -> do_reasons o <> []).
Proof.
  unfold _observe_database, observe_endpoint, observe_identity. intros Ho.
  repeat case_test Ho; try (injection Ho as <-; done).
  match goal with Hc : guarded_catalog _ _ _ = Ok (Some _) |- _ => apply guarded_catalog_Some in Hc as [Hi Hr] end.
  injection Ho as <-. by rewrite Hi.
Qed.

Lemma observe_qualified s database schema e database_identity schema_identity :
  database_qualified s database schema e database_identity schema_identity ->
  _observe_database MIGRATION_DIGEST s database schema = Ok (writable_observation database_identity schema_identity).
Proof.
  intros [Hs Ht Hl He Hp Hr Hw (found & rows & Hi & Hn & Hv & Hm & Hc) Hd Hsc]. unfold observation_statements in Hs.
  rewrite !Forall_cons in Hs. rewrite !Forall_cons in Hi. destruct Hs as (S1 & S2 & S3 & S4 & S5 & S6 & S7 & _), Hi as (I1 & I2 & I3 & _).
  unfold _observe_database. rewrite S1, S2, Hr, S3, S4, S5, Ht. cbn. rewrite bool_decide_eq_true_2 by done. cbn.
  rewrite S6, Hl. cbn. rewrite bool_decide_eq_true_2 by done. cbn. rewrite He. cbn. unfold observe_endpoint.
  rewrite Hp, bool_decide_eq_true_2, Hw, I1 by done. cbn. rewrite Hn, Z.eqb_refl. cbn.
  rewrite (proj2 (guarded_catalog_None s schema found)) by done. cbn. unfold observe_identity. rewrite Hm. cbn.
  rewrite (proj2 (metadata_current_spec rows)) by done. cbn. rewrite I3. cbn. rewrite bool_decide_eq_true_2 by done. cbn.
  by rewrite Hd; cbn; rewrite Hsc.
Qed.

(** ** Observed roots *)

(** Each store opens, names its root and closes, in the order of the names. *)
Definition root_observed (fs : path_arg -> root_view) (root : pystr * path_arg) (found : pystr * pystr) : Prop :=
  fst found = fst root /\ rv_open (fs (snd root)) = Ok () /\ rv_identity (fs (snd root)) = Ok (snd found)
  /\ rv_close (fs (snd root)) = Ok ().

Lemma observe_root_inl view root_id :
  observe_root view = Ok (inl root_id) <->
  rv_open view = Ok () /\ rv_identity view = Ok root_id /\ rv_close view = Ok ().
Proof.
  unfold observe_root. destruct (rv_open view) as [[]|x]; [|destruct (is_exception x); naive_solver].
  destruct (rv_close view) as [[]|x]; [|destruct (is_exception x); naive_solver].
  destruct (rv_identity view) as [i|x]; [naive_solver|destruct (is_exception x); naive_solver].
Qed.

Lemma observe_roots_inl fs roots ids : observe_roots fs roots = Ok (inl ids) <-> Forall2 (root_observed fs) roots ids.
Proof.
  revert ids. induction roots as [|[name path] roots IH]; intros ids; cbn.
  - split; [intros [= <-]; constructor|by inversion 1].
  - split.
    + intros (first & Hf & Hr)%bind_Ok_inv. destruct first as [root_id|?]; [|done].
      apply bind_Ok_inv in Hr as (rest & Hrest & Hr). destruct rest as [rest|?]; [|done]. injection Hr as <-.
      constructor; [|by apply IH]. split; [done|]. by apply observe_root_inl.
    + inversion 1 as [|? [n i] ? ids' (Hn & Ho) Hr]; subst. cbn in *. subst.
      rewrite (proj2 (observe_root_inl (fs path) i) Ho). cbn. by rewrite (proj2 (IH ids') Hr).
Qed.

Lemma blob_observation_inl fs roots d :
  _blob_observation fs roots = Ok (inl d) <->
  exists ids, Forall2 (root_observed fs) (by_name roots) ids /\ NoDup (snd <$> ids) /\ _digest (identities_document ids) = Ok d.
Proof.
  unfold _blob_observation. split.
  - intros (o & Ho & Hd)%bind_Ok_inv. destruct o as [ids|?]; [|done]. apply observe_roots_inl in Ho. exists ids.
    case_bool_decide; [|done]. apply bind_Ok_inv in Hd as (x & Hx%map_err_Ok & [= <-]). done.
  - intros (ids & Hr & Hn & Hd). rewrite (proj2 (observe_roots_inl _ _ _) Hr). cbn. rewrite bool_decide_eq_true_2 by done.
    by rewrite Hd.
Qed.

(** ** A qualified endpoint *)

(** The path names something: text or bytes that are not empty. *)
Definition endpoint_path_ok (path : path_arg) : bool :=
  match path with
  | PathText s => negb (bool_decide (s = []))
  | PathBytes b => negb (bool_decide (b = []))
  | PathRaises _ | NotPath => false
  end.
(** A positive timeout that is a finite number, and a double when it is one. *)
Definition timeout_positive (t : timeout) : bool :=
  match t with
  | IntSeconds z => (0 <? z) && (z <? 2 ^ 1024 - 2 ^ 970)
  | FloatSeconds q => negb (QArith_base.Qle_bool q (QArith_base.inject_Z 0))
  | NotFinite => false
  end.

Record endpoint_qualified (env : endpoint_env) (rq : readiness_request) (f : EndpointFence) : Prop := {
  eq_url : py_strip (rq_database_url rq) <> [];
  eq_timeouts : 1 <= rq_connect_timeout_seconds rq /\ timeout_positive (rq_acquire_timeout_seconds rq) = true;
  eq_target : _identifier (rq_expected_database rq) = true /\ schema_name_invalid (rq_expected_schema rq) = false;
  eq_current : rq_expected_schema_revision rq = dp_schema_revision current
    /\ rq_expected_migration_digest rq = dp_migration_digest current;
  eq_layout : rq_expected_blob_layout_version rq = BLOB_LAYOUT_VERSION /\ rq_topology rq = PAIRED_BLOB_ROOTS;
  eq_root_paths : rq_blob_roots rq <> []
    /\ Forall (fun root => fullmatch _ROOT_NAME (fst root) = true /\ endpoint_path_ok (snd root) = true) (rq_blob_roots rq);
  eq_inventory : is_sha256 (rq_blob_inventory_digest rq) = true;
  eq_blobs : exists ids, Forall2 (root_observed (ee_roots env)) (by_name (rq_blob_roots rq)) ids /\ NoDup (snd <$> ids)
    /\ _digest (identities_document ids) = Ok (ef_blob_identity f);
  eq_database : exists s e, ee_connect env = Ok s /\ ds_checkout s = Ok () /\ ds_begin s = Ok ()
    /\ database_qualified s (rq_expected_database rq) (rq_expected_schema rq) e (ef_database_identity f) (ef_schema_identity f)
    /\ ds_finish s = Ok () /\ ds_release s = Ok () /\ ee_close env = Ok ();
  eq_fence : ef_topology f = PAIRED_BLOB_ROOTS /\ ef_blob_inventory_digest f = rq_blob_inventory_digest rq
    /\ ef_blob_roots f = names_of (rq_blob_roots rq) /\ ef_schema_revision f = dp_schema_revision current
    /\ ef_migration_digest f = dp_migration_digest current /\ ef_blob_layout_version f = BLOB_LAYOUT_VERSION;
  eq_expected : forall expected, rq_expected_fence rq = Some expected -> fence_digest expected = fence_digest f
}.

Lemma request_reasons_nil rq :
  request_reasons MIGRATION_DIGEST rq = [] <->
  (_identifier (rq_expected_database rq) = true /\ schema_name_invalid (rq_expected_schema rq) = false)
  /\ (rq_expected_schema_revision rq = dp_schema_revision current
       /\ rq_expected_migration_digest rq = dp_migration_digest current)
  /\ (rq_expected_blob_layout_version rq = BLOB_LAYOUT_VERSION /\ rq_topology rq = PAIRED_BLOB_ROOTS).
Proof.
  unfold request_reasons. fold current. split.
  - intros Hr. repeat (apply app_eq_nil in Hr as [?%reason_if_nil Hr]). apply reason_if_nil in Hr. by split_bools.
  - intros ([-> ->] & [-> ->] & -> & ->). rewrite !bool_decide_eq_true_2 by done. done.
Qed.

Lemma acquire_timeout_Ok t : check_acquire_timeout t = Ok () <-> timeout_positive t = true.
Proof.
  destruct t as [z|q|]; cbn -[Z.pow Z.sub]; [|by destruct (QArith_base.Qle_bool _ _)|done].
  unfold float_overflows. destruct (Z.leb_spec (2 ^ 1024 - 2 ^ 970) (Z.abs z)), (Z.leb_spec z 0), (Z.ltb_spec 0 z),
    (Z.ltb_spec z (2 ^ 1024 - 2 ^ 970)); cbn; try done; lia.
Qed.

Lemma endpoint_path_true path : endpoint_path path = Ok true <-> endpoint_path_ok path = true.
Proof.
  destruct path; cbn; [| |case_match; done|done]; (split; [by intros [= ->]|by intros ->]).
Qed.

Lemma keep_roots_Some roots roots' :
  keep_roots roots = Ok (Some roots') <->
  roots' = roots /\ Forall (fun root => fullmatch _ROOT_NAME (fst root) = true /\ endpoint_path_ok (snd root) = true) roots.
Proof.
  revert roots'. induction roots as [|[name path] roots IH]; intros roots'; cbn.
  - split; [intros [= <-]|intros [-> _]]; auto.
  - rewrite Forall_cons. cbn. destruct (fullmatch _ROOT_NAME name); cbn; [|naive_solver].
    rewrite <- endpoint_path_true. destruct (endpoint_path path) as [[]|]; cbn; [|naive_solver..].
    destruct (keep_roots roots) as [[kept|]|]; cbn.
    + specialize (IH kept). naive_solver.
    + split; [done|]. intros (_ & _ & Hf). discriminate (proj2 (IH roots) (conj eq_refl Hf)).
    + split; [done|]. intros (_ & _ & Hf). discriminate (proj2 (IH roots) (conj eq_refl Hf)).
Qed.

Lemma normalized_roots_Some roots roots' :
  _normalized_roots roots = Ok (Some roots') <->
  roots' = roots /\ roots <> []
  /\ Forall (fun root => fullmatch _ROOT_NAME (fst root) = true /\ endpoint_path_ok (snd root) = true) roots.
Proof.
  unfold _normalized_roots. case_bool_decide as Hn; [naive_solver|]. rewrite keep_roots_Some. naive_solver.
Qed.

(** The path is text or bytes, is no path, or raises [TypeError]. *)
Definition type_errors_only (path : path_arg) : Prop :=
  match path with PathRaises e => isinstance (exn_cls e) TypeError_ = true | _ => True end.

Lemma normalized_roots_total roots :
  Forall (fun root => type_errors_only (snd root)) roots -> exists normalized, _normalized_roots roots = Ok normalized.
Proof.
  intros Hf. unfold _normalized_roots. case_bool_decide; [eauto|].
  induction Hf as [|[name path] roots Hp Hf IH]; cbn; [eauto|]. destruct (fullmatch _ROOT_NAME name); cbn; [|eauto].
  assert (exists b, endpoint_path path = Ok b) as [[] ->]; cbn; [|destruct roots; [cbn; eauto|]|eauto].
  - destruct path; cbn in *; [eauto..| |eauto]. rewrite Hp. eauto.
  - destruct IH as [kept ->]; [done|]. cbn. eauto.
Qed.

Lemma normalized_roots_raises before name e after :
  Forall (fun root => fullmatch _ROOT_NAME (fst root) = true /\ endpoint_path_ok (snd root) = true) before ->
  fullmatch _ROOT_NAME name = true -> ~ type_errors_only (PathRaises e) ->
  _normalized_roots (before ++ (name, PathRaises e) :: after) = Err (Raised e).
Proof.
  intros Hb Hm He. unfold _normalized_roots. rewrite bool_decide_eq_false_2 by (by destruct before).
  induction Hb as [|[n path] before [Hn Hp] Hb IH]; cbn -[isinstance].
  - rewrite Hm. cbn -[isinstance]. unfold type_errors_only in He. apply not_true_is_false in He. by rewrite He.
  - cbn in Hn, Hp. rewrite Hn. cbn. rewrite (proj2 (endpoint_path_true _) Hp). cbn. by rewrite IH.
Qed.

Lemma overflow_large z : 2 ^ 1024 - 2 ^ 970 <= z -> float_overflows z = true.
Proof. intros Hz. unfold float_overflows. apply Z.leb_le. lia. Qed.

Lemma report_fields rq state names inventory fence reasons r :
  _report rq state names inventory fence reasons = Ok r -> er_state r = state /\ er_fence r = fence /\ er_reasons r = reasons.
Proof. intros (d & _ & <-%Ok_inj)%bind_Ok_inv. done. Qed.

Lemma report_total rq state names inventory fence reasons :
  exists r, _report rq state names inventory fence reasons = Ok r.
Proof.
  unfold _report. destruct (rq_expected_fence rq) as [f|]; cbn; [|eauto]. destruct (fence_digest_total f) as (d & -> & _). cbn. eauto.
Qed.
End Qualified.

(** ** The whole inspection *)

Section Inspection.
Context (MIGRATION_DIGEST : pystr).
Let current := CURRENT_DATA_PLANE_REVISION MIGRATION_DIGEST.

Lemma inspect_database_Ok s database schema o :
  _inspect_database MIGRATION_DIGEST s database schema = Ok o <->
  ds_checkout s = Ok () /\ ds_begin s = Ok () /\ _observe_database MIGRATION_DIGEST s database schema = Ok o
  /\ ds_finish s = Ok () /\ ds_release s = Ok ().
Proof.
  unfold _inspect_database, finally. destruct (ds_checkout s) as [[]|], (ds_release s) as [[]|], (ds_begin s) as [[]|],
    (ds_finish s) as [[]|]; cbn; naive_solver.
Qed.

Lemma inspect_pool_inl env rq o :
  inspect_pool MIGRATION_DIGEST env rq = Ok (inl o) <->
  exists s, ee_connect env = Ok s /\ ee_close env = Ok ()
    /\ _inspect_database MIGRATION_DIGEST s (rq_expected_database rq) (rq_expected_schema rq) = Ok o.
Proof.
  unfold inspect_pool. split.
  - destruct (ee_connect env) as [s|x]; cbn; [|by destruct (is_exception x)]. destruct (_inspect_database _ _ _ _) as [o'|x] eqn:Ho.
    + destruct (ee_close env) as [[]|x]; [|by destruct (is_exception x)]. intros [= <-]. eauto.
    + destruct (is_exception x); [|done]. destruct (ee_close env) as [|y]; [done|]. by destruct (is_exception y).
  - intros (s & -> & -> & Ho). cbn. by rewrite Ho.
Qed.

(** The names of the roots are what the fence demands. *)
Lemma sorted_names_idemp names : sorted_names (sorted_names names) = sorted_names names.
Proof.
  apply sort_by_id; [apply str_leb_total|apply str_leb_trans|apply str_leb_antisym|].
  apply sort_by_sorted; [apply str_leb_total|apply str_leb_trans].
Qed.

Lemma names_of_perm {A} (roots : list (pystr * A)) : names_of roots ≡ₚ fst <$> roots.
Proof. apply sort_by_perm. Qed.

Definition new_fence (rq : readiness_request) (database_identity schema_identity blob_identity : pystr) : EndpointFence :=
  {| ef_topology := rq_topology rq; ef_database_identity := database_identity; ef_schema_identity := schema_identity;
     ef_blob_identity := blob_identity; ef_blob_inventory_digest := rq_blob_inventory_digest rq;
     ef_blob_roots := names_of (rq_blob_roots rq); ef_schema_revision := dp_schema_revision current;
     ef_migration_digest := dp_migration_digest current; ef_blob_layout_version := rq_expected_blob_layout_version rq |}.

Lemma new_fence_valid rq d s b :
  NoDup (fst <$> rq_blob_roots rq) -> rq_blob_roots rq <> [] ->
  Forall (fun root => fullmatch _ROOT_NAME (fst root) = true /\ endpoint_path_ok (snd root) = true) (rq_blob_roots rq) ->
  rq_topology rq = PAIRED_BLOB_ROOTS -> rq_expected_blob_layout_version rq = BLOB_LAYOUT_VERSION ->
  is_sha256 (rq_blob_inventory_digest rq) = true -> is_sha256 d = true -> is_sha256 s = true -> is_sha256 b = true ->
  fence_init MIGRATION_DIGEST (new_fence rq d s b) = Ok (new_fence rq d s b).
Proof.
  intros Hn Hne Hr Ht Hl Hi Hd Hs Hb. unfold fence_init, new_fence. cbn.
  rewrite Ht, Hl, Hi, Hd, Hs, Hb, (bool_decide_eq_true_2 (PAIRED_BLOB_ROOTS = _)) by done. cbn.
  rewrite (bool_decide_eq_false_2 (names_of _ = [])).
  2: { intros He. apply Hne. pose proof (names_of_perm (rq_blob_roots rq)) as Hp. rewrite He in Hp.
       apply Permutation_nil_l in Hp. by apply (fmap_nil_inv fst). }
  rewrite (bool_decide_eq_true_2 (names_of _ = sorted_names _)) by (symmetry; apply sorted_names_idemp).
  rewrite (bool_decide_eq_true_2 (NoDup _)) by by rewrite names_of_perm.
  cbn. replace (existsb _ _) with false; [cbn; by rewrite !bool_decide_eq_true_2|]. symmetry. apply not_true_iff_false.
  intros (name & Hx%list_elem_of_In & Hm)%existsb_exists. rewrite names_of_perm in Hx. apply list_elem_of_fmap in Hx as (root & -> & Hx).
  rewrite Forall_forall in Hr. destruct (Hr root Hx) as [Hrn _]. rewrite Hrn in Hm. done.
Qed.

(** The report of a writable observation. *)
Lemma report_fence_Ok rq d s b :
  fence_init MIGRATION_DIGEST (new_fence rq d s b) = Ok (new_fence rq d s b) ->
  exists r, report_fence MIGRATION_DIGEST rq (names_of (rq_blob_roots rq)) b (writable_observation d s) = Ok r
    /\ er_fence r = Some (new_fence rq d s b)
    /\ (writable r = true <-> forall expected, rq_expected_fence rq = Some expected ->
          fence_digest expected = fence_digest (new_fence rq d s b))
    /\ (er_state r = WRITABLE /\ er_reasons r = [] \/ er_state r = STALE /\ exists expected, rq_expected_fence rq = Some expected
          /\ expected <> new_fence rq d s b /\ er_reasons r = _fence_reasons expected (new_fence rq d s b)).
Proof.
  intros Hf. unfold report_fence. cbn -[fence_init]. change (fence_init _ _) with (fence_init MIGRATION_DIGEST (new_fence rq d s b)).
  rewrite Hf. cbn. destruct (rq_expected_fence rq) as [expected|] eqn:He.
  - destruct (fence_digest_total expected) as (wanted & Hw & _), (fence_digest_total (new_fence rq d s b)) as (seen & Hs & _).
    rewrite Hw, Hs. cbn. case_bool_decide as Hd; cbn.
    + subst. destruct (report_total rq WRITABLE (names_of (rq_blob_roots rq)) (Some (rq_blob_inventory_digest rq))
                         (Some (new_fence rq d s b)) []) as [r Hr]. exists r.
      apply report_fields in Hr as Hx. destruct Hx as (Hst & Hfe & Hre). split_and!; [done|done| |by left].
      unfold writable. rewrite Hst, Hfe. split; [intros _ x [= <-]; congruence|done].
    + destruct (report_total rq STALE (names_of (rq_blob_roots rq)) (Some (rq_blob_inventory_digest rq))
                  (Some (new_fence rq d s b)) (_fence_reasons expected (new_fence rq d s b))) as [r Hr]. exists r.
      apply report_fields in Hr as Hx. destruct Hx as (Hst & Hfe & Hre). split_and!; [done|done| |].
      * unfold writable. rewrite Hst, Hfe. split; [done|]. intros Hx. specialize (Hx expected eq_refl). congruence.
      * right. split; [done|]. exists expected. split_and!; [done| |done]. intros ->. congruence.
  - destruct (report_total rq WRITABLE (names_of (rq_blob_roots rq)) (Some (rq_blob_inventory_digest rq))
                (Some (new_fence rq d s b)) []) as [r Hr]. exists r.
    apply report_fields in Hr as Hx. destruct Hx as (Hst & Hfe & Hre). split_and!; [done|done| |by left].
    unfold writable. rewrite Hst, Hfe. done.
Qed.
End Inspection.

(** ** Calls that raise only exceptions that a handler catches *)

Definition quiet {A} (m : result A) : Prop := forall e, m = Err e -> is_exception e = true.

Lemma quiet_Ok {A} (a : A) : quiet (Ok a).
Proof. by intros e. Qed.
Lemma quiet_bind {A B} (m : result A) (f : A -> result B) : quiet m -> (forall a, m = Ok a -> quiet (f a)) -> quiet (m ≫= f).
Proof. intros Hm Hf e. destruct m as [a|x]; cbn; [by apply Hf|]. intros [= <-]. by apply Hm. Qed.
Lemma quiet_if {A} (b : bool) (m n : result A) : quiet m -> quiet n -> quiet (if b then m else n).
Proof. by destruct b. Qed.
Lemma quiet_map_each {A B} (f : A -> result B) l : Forall (fun a => quiet (f a)) l -> quiet (map_each f l).
Proof.
  induction 1 as [|a l Ha Hl IH]; cbn; [apply quiet_Ok|].
  apply quiet_bind; [done|]. intros y _. apply quiet_bind; [done|]. intros ys _. apply quiet_Ok.
Qed.
Create HintDb quiet discriminated.
#[export] Hint Resolve quiet_Ok quiet_bind quiet_if : quiet.

Lemma dumps_quiet b v : quiet (dumps b v).
Proof.
  induction v as [|flag|z|text| |s|l IH|items IH|] using json_nested_ind; cbn [dumps]; try (by intros e [= <-]).
  - apply quiet_bind; [by destruct (Json.printable z); intros e [= <-]|]. eauto with quiet.
  - apply quiet_bind; [by apply quiet_map_each|]. eauto with quiet.
  - apply quiet_bind; [|eauto with quiet]. apply quiet_map_each. eapply Forall_impl; [exact IH|]. intros [k x] Hx. cbn.
    apply quiet_bind; [done|]. eauto with quiet.
Qed.

Lemma digest_quiet v : quiet (_digest v).
Proof. apply quiet_bind; [apply dumps_quiet|]. eauto with quiet. Qed.

Definition orderly_session (s : database_session) : Prop :=
  quiet (ds_checkout s) /\ quiet (ds_begin s) /\ (forall st, quiet (ds_execute s st)) /\ quiet (ds_read_only_posture s)
  /\ quiet (ds_target s) /\ (forall l, quiet (ds_try_migration_lock s l)) /\ quiet (ds_endpoint s)
  /\ (forall n schema, quiet (ds_metadata_identity s n schema)) /\ quiet (ds_verify_current s)
  /\ (forall r oid, quiet (ds_metadata s r oid)) /\ quiet (ds_finish s) /\ quiet (ds_release s).
Definition orderly_root (view : root_view) : Prop :=
  quiet (rv_open view) /\ quiet (rv_identity view) /\ quiet (rv_identity_again view) /\ quiet (rv_close view).
Definition orderly_endpoint (env : endpoint_env) : Prop :=
  (forall path, orderly_root (ee_roots env path)) /\ quiet (ee_connect env)
  /\ (forall s, ee_connect env = Ok s -> orderly_session s) /\ quiet (ee_close env).

Section Total.
Context (MIGRATION_DIGEST : pystr).

Lemma guarded_quiet s schema found : orderly_session s -> quiet (guarded_catalog s schema found).
Proof.
  intros (_ & _ & He & _ & _ & _ & _ & Hi & Hv & _) e. unfold guarded_catalog.
  assert (quiet (verify_catalog s schema found)) as Hq.
  { unfold verify_catalog. apply quiet_bind; [apply He|]. intros [] _. apply quiet_bind; [apply Hi|]. intros again _.
    apply quiet_if; [apply quiet_bind; [done|eauto with quiet]|apply quiet_Ok]. }
  destruct (verify_catalog s schema found) as [r|x]; [done|]. destruct (_ && _); [done|]. intros [= <-]. by apply Hq.
Qed.

Lemma observe_quiet s database schema : orderly_session s -> quiet (_observe_database MIGRATION_DIGEST s database schema).
Proof.
  intros Hs. pose proof Hs as (_ & _ & He & Hp & Ht & Hl & Hep & Hi & Hv & Hm & _).
  unfold _observe_database, observe_endpoint, observe_identity.
  repeat first [apply quiet_Ok | apply He | done | apply Hl | apply Hi | apply Hm | apply digest_quiet | by apply guarded_quiet
               | apply quiet_if | apply quiet_bind; [|intros ? _] | match goal with |- quiet (match ?x with _ => _ end) => destruct x end].
Qed.

Lemma inspect_database_quiet s database schema : orderly_session s -> quiet (_inspect_database MIGRATION_DIGEST s database schema).
Proof.
  intros Hs. pose proof Hs as (Hc & Hb & _ & _ & _ & _ & _ & _ & _ & _ & Hf & Hr). unfold _inspect_database, finally.
  repeat first [done | by apply observe_quiet | apply quiet_bind; [|intros ? _]].
Qed.

Lemma inspect_pool_total env rq : orderly_endpoint env -> exists o, inspect_pool MIGRATION_DIGEST env rq = Ok o.
Proof.
  intros (_ & Hc & Hs & Hcl). unfold inspect_pool.
  assert (quiet (s ← ee_connect env; _inspect_database MIGRATION_DIGEST s (rq_expected_database rq) (rq_expected_schema rq))) as Hq
    by (apply quiet_bind; [done|]; intros s Hx; by apply inspect_database_quiet, Hs).
  destruct (_ ≫= _) as [o|e].
  - destruct (ee_close env) as [|x]; [eauto|]. rewrite (Hcl x) by done. eauto.
  - rewrite (Hq e) by done. destruct (ee_connect env), (ee_close env) as [|x]; eauto. rewrite (Hcl x) by done. eauto.
Qed.

Lemma blob_observation_total fs roots : (forall path, orderly_root (fs path)) -> exists o, _blob_observation fs roots = Ok o.
Proof.
  intros Hfs. unfold _blob_observation. assert (forall l, exists o, observe_roots fs l = Ok o) as Hall.
  { induction l as [|[name path] l [o IH]]; cbn; [eauto|]. destruct (Hfs path) as (Ho & Hi & _ & Hc).
    assert (exists x, observe_root (fs path) = Ok x) as [x ->].
    { unfold observe_root. destruct (rv_open (fs path)) as [[]|e]; [|rewrite (Ho e) by done; eauto].
      destruct (rv_close (fs path)) as [[]|e]; [|rewrite (Hc e) by done; eauto].
      destruct (rv_identity (fs path)) as [i|e]; [eauto|rewrite (Hi e) by done; eauto]. }
    cbn. destruct x; [|eauto]. rewrite IH. cbn. eauto. }
  destruct (Hall (by_name roots)) as [[ids|reason] ->]; cbn; [|eauto]. case_bool_decide; [|eauto].
  destruct (digest_total _ (identities_dumpable ids)) as (d & -> & _). cbn. eauto.
Qed.
End Total.
