(* ===== verification/EndpointClaims.v ===== *)
(** * Properties of endpoint readiness

    A report is writable exactly for a qualified endpoint, the inspection
    always ends in a report, and a fence stands for one endpoint. *)

From S2P Require Import Prelude Regex Errors Domain Sha256 Json JsonDecode Pg Revision Migrations MigrationLineage Outbox AuditDelivery AuditClaims Compatibility EndpointReadiness EndpointSpec.

Section Claims.
Context (MIGRATION_DIGEST : pystr).
Let current := CURRENT_DATA_PLANE_REVISION MIGRATION_DIGEST.

(** A report that is not about a fence is not writable. *)
Lemma plain_report rq state names inventory reasons r :
  _report rq state names inventory None reasons = Ok r -> writable r = false.
Proof. intros (_ & Hf & _)%report_fields. unfold writable. rewrite Hf. apply andb_false_r. Qed.

(** What a report with a fence, or about a stale one, went through. *)
Lemma inspect_with_fence env rq r :
  NoDup (fst <$> rq_blob_roots rq) -> inspect_endpoint_readiness MIGRATION_DIGEST env rq = Ok r ->
  er_fence r <> None \/ er_state r = STALE ->
  exists d s b, endpoint_qualified MIGRATION_DIGEST env
      {| rq_database_url := rq_database_url rq; rq_blob_roots := rq_blob_roots rq;
         rq_blob_inventory_digest := rq_blob_inventory_digest rq; rq_expected_database := rq_expected_database rq;
         rq_expected_schema := rq_expected_schema rq; rq_expected_schema_revision := rq_expected_schema_revision rq;
         rq_expected_migration_digest := rq_expected_migration_digest rq;
         rq_expected_blob_layout_version := rq_expected_blob_layout_version rq; rq_topology := rq_topology rq;
         rq_expected_fence := None; rq_connect_timeout_seconds := rq_connect_timeout_seconds rq;
         rq_acquire_timeout_seconds := rq_acquire_timeout_seconds rq |} (new_fence MIGRATION_DIGEST rq d s b)
    /\ fence_init MIGRATION_DIGEST (new_fence MIGRATION_DIGEST rq d s b) = Ok (new_fence MIGRATION_DIGEST rq d s b)
    /\ report_fence MIGRATION_DIGEST rq (names_of (rq_blob_roots rq)) b (writable_observation d s) = Ok r.
Proof.
  intros Hn Hr Hf. unfold inspect_endpoint_readiness in Hr.
  destruct (bool_decide (py_strip _ = [])) eqn:Hu; [done|apply bool_decide_eq_false in Hu]. destruct (rq_connect_timeout_seconds rq <? 1) eqn:Hc; [done|].
  apply bind_Ok_inv in Hr as ([] & Ha%acquire_timeout_Ok & Hr). apply bind_Ok_inv in Hr as (normalized & Hroots & Hr).
  destruct (bool_decide (request_reasons _ _ = [])) eqn:Hq; [apply bool_decide_eq_true in Hq|by apply report_fields in Hr as (Hy & Hx & _); destruct Hf as [|Hf]; rewrite ?Hf in Hy].
  destruct normalized as [roots|]; [|by apply report_fields in Hr as (Hy & Hx & _); destruct Hf as [|Hf]; rewrite ?Hf in Hy].
  apply normalized_roots_Some in Hroots as (-> & Hne & Hall).
  destruct (is_sha256 (rq_blob_inventory_digest rq)) eqn:Hi; [|by apply report_fields in Hr as (Hy & Hx & _); destruct Hf as [|Hf]; rewrite ?Hf in Hy]. cbn in Hr.
  apply bind_Ok_inv in Hr as ([b|?] & Hb & Hr); [|by apply report_fields in Hr as (Hy & Hx & _); destruct Hf as [|Hf]; rewrite ?Hf in Hy].
  apply bind_Ok_inv in Hr as ([o|?] & Ho & Hr); [|by apply report_fields in Hr as (Hy & Hx & _); destruct Hf as [|Hf]; rewrite ?Hf in Hy].
  destruct (bool_decide (do_state o = WRITABLE)) eqn:Hw; [apply bool_decide_eq_true in Hw|].
  2: { apply report_fields in Hr as (Hy & Hx & _). apply inspect_pool_inl in Ho as (s & _ & _ & (_ & _ & Ho & _)%inspect_database_Ok).
       apply observe_states in Ho as [Ho _]. destruct Hf as [|Hf]; [done|]. congruence. }
  apply blob_observation_inl in Hb as (ids & Hids & Hnd & Hd).
  apply inspect_pool_inl in Ho as (s & Hs & Hclose & (H1 & H2 & Ho & H3 & H4)%inspect_database_Ok).
  apply observe_writable in Ho as (e & d & sc & Hdq & ->); [|done]. apply request_reasons_nil in Hq as (Hq1 & Hq2 & Hq3 & Hq4).
  apply Z.ltb_ge in Hc. exists d, sc, b. split_and!; [|by eapply new_fence_valid; eauto using digest_format, dq_database_identity, dq_schema_identity|done].
  split; cbn; try done; [eauto|eauto 12].
Qed.

(** The same inspection from its parts. *)
Lemma inspect_qualified env rq f :
  endpoint_qualified MIGRATION_DIGEST env rq f ->
  f = new_fence MIGRATION_DIGEST rq (ef_database_identity f) (ef_schema_identity f) (ef_blob_identity f)
  /\ inspect_endpoint_readiness MIGRATION_DIGEST env rq
     = report_fence MIGRATION_DIGEST rq (names_of (rq_blob_roots rq)) (ef_blob_identity f)
         (writable_observation (ef_database_identity f) (ef_schema_identity f)).
Proof.
  intros [Hu [Hc Ha] Ht Hcu [Hl Hp] [Hne Hr] Hi (ids & Hids & Hnd & Hd) (s & e & Hs & H1 & H2 & Hdq & H3 & H4 & H5)
    (F1 & F2 & F3 & F4 & F5 & F6) _]. split.
  { unfold new_fence. rewrite Hp, Hl, <- F1, <- F2, <- F3, <- F4, <- F5, <- F6. by destruct f. }
  unfold inspect_endpoint_readiness. rewrite (bool_decide_eq_false_2 (py_strip _ = [])) by done.
  rewrite (proj2 (Z.ltb_ge _ _) Hc), (proj2 (acquire_timeout_Ok _) Ha). cbn.
  rewrite (proj2 (normalized_roots_Some _ (rq_blob_roots rq))) by done. cbn.
  rewrite (bool_decide_eq_true_2 (request_reasons _ _ = [])) by (by apply request_reasons_nil). cbn. rewrite Hi. cbn.
  rewrite (proj2 (blob_observation_inl _ _ (ef_blob_identity f))) by eauto. cbn.
  rewrite (proj2 (inspect_pool_inl _ env rq (writable_observation (ef_database_identity f) (ef_schema_identity f)))); [done|].
  exists s. split_and!; [done|done|]. apply inspect_database_Ok. split_and!; try done. by eapply observe_qualified.
Qed.

Lemma inspect_writable env rq f :
  NoDup (fst <$> rq_blob_roots rq) ->
  (exists r, inspect_endpoint_readiness MIGRATION_DIGEST env rq = Ok r /\ writable r = true /\ er_fence r = Some f)
  <-> endpoint_qualified MIGRATION_DIGEST env rq f.
Proof.
  intros Hn. split.
  - intros (r & Hr & Hw & Hf). destruct (inspect_with_fence env rq r Hn Hr) as (d & s & b & Hq & Hi & Hrep); [left; by rewrite Hf|].
    destruct (report_fence_Ok _ _ _ _ _ Hi) as (r' & Hr' & Hfe & Hwr & _). rewrite Hrep in Hr'. injection Hr' as <-.
    rewrite Hfe in Hf. injection Hf as <-. destruct Hq. split; try done. by apply Hwr.
  - intros Hq. pose proof Hq as [Hf Hi]%inspect_qualified. rewrite Hi.
    assert (fence_init MIGRATION_DIGEST f = Ok f) as Hv.
    { rewrite Hf. destruct Hq as [? ? ? ? [? ?] [? ?] ? (? & ? & ? & ?) (? & ? & ? & ? & ? & [] & ?) ? ?].
      eapply new_fence_valid; eauto using digest_format. }
    rewrite Hf in Hv. destruct (report_fence_Ok _ _ _ _ _ Hv) as (r & Hr & Hfe & Hwr & _). exists r.
    rewrite <- Hf in Hfe, Hwr. split_and!; [done| |done]. apply Hwr. apply (eq_expected _ _ _ _ Hq).
Qed.

(** C26: a report says that an endpoint is writable, with a fence, exactly when
    the request is current, every root's store opens, names its root (no two
    the same) and closes, the session is a primary that is not read only on the
    expected database and schema, holds the migration lock, has the current
    metadata rows and the verified catalog in a table whose identity stays the
    same, all clean-up succeeds, and the expected fence, if any, has the digest
    of this one. *)
Theorem endpoint_writable_exactly env rq f :
  NoDup (fst <$> rq_blob_roots rq) ->
  (exists r, inspect_endpoint_readiness MIGRATION_DIGEST env rq = Ok r /\ writable r = true /\ er_fence r = Some f)
  <-> endpoint_qualified MIGRATION_DIGEST env rq f.
Proof. apply inspect_writable. Qed.

(** C27: a fence stands for one endpoint.  A fence that [require_fence] returns for
    an expected one is the fence of a writable report, and is the expected fence
    itself, unless the canonical texts of the two are a collision of SHA-256.
    A report that is stale names exactly the fields in which the fences differ,
    each by its own reason, in a fixed order and without repetition. *)
Theorem fence_identifies `{PyFloat} env rq r expected :
  is_sha256 MIGRATION_DIGEST = true -> fence_init MIGRATION_DIGEST expected = Ok expected ->
  NoDup (fst <$> rq_blob_roots rq) -> inspect_endpoint_readiness MIGRATION_DIGEST env rq = Ok r ->
  (forall f, require_fence r expected = Ok f ->
    writable r = true /\ er_fence r = Some f
    /\ (f = expected \/ exists t1 t2, dumps true (fence_document f []) = Ok t1
          /\ dumps true (fence_document expected []) = Ok t2 /\ t1 <> t2 /\ sha256_hex t1 = sha256_hex t2))
  /\ (er_state r = STALE -> exists wanted f, rq_expected_fence rq = Some wanted /\ er_fence r = Some f /\ wanted <> f
        /\ (forall reason, reason ∈ er_reasons r <-> fence_differs wanted f reason)
        /\ er_reasons r <> [] /\ sublist (er_reasons r) all_fence_reasons).
Proof.
  intros Hmd He Hn Hr. split.
  - intros f Hf. unfold require_fence in Hf. apply bind_Ok_inv in Hf as (f' & Hw & Hf).
    apply bind_Ok_inv in Hf as (d1 & D1%map_err_Ok & Hf). apply bind_Ok_inv in Hf as (d2 & D2%map_err_Ok & Hf).
    case_bool_decide as Hd; [|done]. injection Hf as <-. subst d2. unfold require_writable in Hw.
    destruct (er_fence r) as [f|] eqn:Hfe; [|done]. destruct (writable r) eqn:Hwr; [|done]. injection Hw as <-.
    split_and!; [done|done|].
    destruct (inspect_with_fence env rq r Hn Hr) as (d & s & b & _ & Hi & Hrep); [left; by rewrite Hfe|].
    destruct (report_fence_Ok _ _ _ _ _ Hi) as (r' & Hr' & Hfe' & _). rewrite Hrep in Hr'. injection Hr' as <-.
    rewrite Hfe in Hfe'. injection Hfe' as ->.
    destruct (digest_binds _ _ _ (fence_document_wf _ _ Hmd Hi) (fence_document_wf _ _ Hmd He) D1 D2) as [Hs|Hc]; [left|by right].
    by apply fence_document_inj.
  - intros Hst. destruct (inspect_with_fence env rq r Hn Hr (or_intror Hst)) as (d & s & b & _ & Hi & Hrep).
    destruct (report_fence_Ok _ _ _ _ _ Hi) as (r' & Hr' & Hfe' & _ & Hs). rewrite Hrep in Hr'. injection Hr' as <-.
    destruct Hs as [[Hs _]|(_ & wanted & Hw & Hne & Hre)]; [congruence|].
    exists wanted, (new_fence MIGRATION_DIGEST rq d s b). rewrite Hre.
    split_and!; try done; [intros reason; by apply fence_reasons_exact|apply fence_reasons_ne|by apply fence_reasons_sublist].
Qed.

(** C29: an inspection of a well-formed request ends in a report.  When the DSN is
    not blank, the timeouts are positive and finite, the acquire timeout is a
    double, and no path raises anything but [TypeError] when it is asked for its
    name, whatever the stores, the driver and the database raise (short of an
    interrupt of the process) becomes a state with reasons, writable exactly when
    there is none, and the constructor of the fence never refuses.  The other
    errors do escape: an integer timeout past the doubles raises [OverflowError],
    and an error of the first path that raises another one than [TypeError] is
    passed on. *)
Theorem readiness_total env rq :
  NoDup (fst <$> rq_blob_roots rq) -> py_strip (rq_database_url rq) <> [] -> 1 <= rq_connect_timeout_seconds rq ->
  (orderly_endpoint env -> timeout_positive (rq_acquire_timeout_seconds rq) = true ->
   Forall (fun root => type_errors_only (snd root)) (rq_blob_roots rq) ->
   exists r, inspect_endpoint_readiness MIGRATION_DIGEST env rq = Ok r /\ (writable r = true <-> er_reasons r = []))
  /\ (forall z, rq_acquire_timeout_seconds rq = IntSeconds z -> 2 ^ 1024 - 2 ^ 970 <= z ->
       inspect_endpoint_readiness MIGRATION_DIGEST env rq = Err (Raised (Exn OverflowError_ "int too large to convert to float")))
  /\ (forall before name e after, rq_blob_roots rq = before ++ (name, PathRaises e) :: after ->
       Forall (fun root => fullmatch _ROOT_NAME (fst root) = true /\ endpoint_path_ok (snd root) = true) before ->
       fullmatch _ROOT_NAME name = true -> ~ type_errors_only (PathRaises e) ->
       timeout_positive (rq_acquire_timeout_seconds rq) = true ->
       inspect_endpoint_readiness MIGRATION_DIGEST env rq = Err (Raised e)).
Proof.
  intros Hn Hu Hc. unfold inspect_endpoint_readiness. rewrite (bool_decide_eq_false_2 (py_strip _ = [])) by done.
  rewrite (proj2 (Z.ltb_ge _ _) Hc). split_and!.
  2: { intros z -> Hz. cbn -[Z.pow Z.sub]. by rewrite overflow_large. }
  2: { intros before name e after -> Hb Hm He Ha%acquire_timeout_Ok. rewrite Ha. cbn -[_normalized_roots].
       by rewrite (normalized_roots_raises before name e after). }
  intros Henv Ha%acquire_timeout_Ok Hpaths. rewrite Ha. cbn -[_normalized_roots].
  destruct (normalized_roots_total _ Hpaths) as [normalized Hroots]. rewrite Hroots. cbn.
  assert (forall state names inventory x reasons, exists r,
    _report rq state names inventory None (x :: reasons) = Ok r /\ (writable r = true <-> er_reasons r = [])) as Hplain.
  { intros state names inventory x reasons. destruct (report_total rq state names inventory None (x :: reasons)) as [r Hr].
    exists r. apply report_fields in Hr as Hx. destruct Hx as (_ & _ & Hx). split; [done|]. rewrite (plain_report _ _ _ _ _ _ Hr), Hx. by split. }
  destruct (request_reasons _ rq) as [|x reasons] eqn:Hq; [|apply Hplain]. cbn.
  apply request_reasons_nil in Hq as (_ & _ & Hl & Ht).
  destruct normalized as [roots|]; [|apply Hplain].
  apply normalized_roots_Some in Hroots as (-> & Hne & Hall).
  destruct (is_sha256 (rq_blob_inventory_digest rq)) eqn:Hi; [|apply Hplain]. cbn. pose proof Henv as (Hfs & _).
  destruct (blob_observation_total _ (rq_blob_roots rq) Hfs) as [[b|reason] Hb]; rewrite Hb; cbn; [|apply Hplain].
  destruct (inspect_pool_total MIGRATION_DIGEST env rq Henv) as [[o|reason] Ho]; rewrite Ho; cbn; [|apply Hplain].
  apply inspect_pool_inl in Ho as (s & _ & _ & (_ & _ & Ho & _)%inspect_database_Ok).
  destruct (bool_decide (do_state o = WRITABLE)) eqn:Hw; [apply bool_decide_eq_true in Hw|apply bool_decide_eq_false in Hw].
  - apply blob_observation_inl in Hb as (ids & _ & _ & Hd). apply observe_writable in Ho as (e & d & sc & [] & ->); [|done].
    destruct (report_fence_Ok MIGRATION_DIGEST rq d sc b) as (r & Hr & Hf & Hwr & Hst);
      [by eapply new_fence_valid; eauto using digest_format|].
    exists r. split; [done|]. unfold writable. destruct Hst as [[-> ->]|(-> & expected & _ & Hne' & ->)]; [by rewrite Hf|].
    split; [done|]. intros Hx. by apply fence_reasons_ne in Hx.
  - apply observe_states in Ho as [_ Hr]. specialize (Hr Hw). destruct (do_reasons o); [done|apply Hplain].
Qed.
End Claims.

(** ** A writable endpoint *)

Definition sample_migration_digest : pystr := replicate 64 97%N.
Definition sample_row : endpoint_row :=
  {| ep_database := u "plane"; ep_schema := Some (u "public"); ep_database_oid := 16384; ep_schema_oid := 2200;
     ep_schema_owner := Some (u "plane_owner"); ep_in_recovery := false; ep_server_address := None;
     ep_server_port := Some 5432; ep_postmaster_started_at := u "2026-01-01 00:00:00+00:00";
     ep_wal_file := Some (u "000000010000000000000001") |}.
Definition sample_session : database_session :=
  {| ds_checkout := Ok (); ds_begin := Ok (); ds_execute := fun _ => Ok (); ds_read_only_posture := Ok (Some (u "off"));
     ds_target := Ok (Some (u "plane", Some (u "public"))); ds_try_migration_lock := fun _ => Ok (Some true);
     ds_endpoint := Ok (Some sample_row);
     ds_metadata_identity := fun _ _ => Ok (Some {| id_relation_oid := 16400; id_namespace_oid := 2200 |});
     ds_verify_current := Ok (); ds_metadata := fun _ _ => Ok (current_metadata sample_migration_digest); ds_pgcode := fun _ => None;
     ds_finish := Ok (); ds_release := Ok () |}.
Definition sample_root (children : list (pystr * node)) : root_view :=
  {| rv_open := Ok (); rv_identity := Ok (sha256_hex (u "device:inode")); rv_supplied := Dir children true;
     rv_resolved := Some (Dir children true); rv_identity_again := Ok (sha256_hex (u "device:inode")); rv_close := Ok () |}.
Definition sample_env : endpoint_env :=
  {| ee_roots := fun _ => sample_root []; ee_connect := Ok sample_session; ee_close := Ok () |}.
Definition sample_request (expected : option EndpointFence) : readiness_request :=
  {| rq_database_url := u "postgresql://primary/plane"; rq_blob_roots := [(u "attachments", PathText (u "/srv/blobs"))];
     rq_blob_inventory_digest := sha256_hex (u "inventory"); rq_expected_database := u "plane";
     rq_expected_schema := u "public"; rq_expected_schema_revision := u "089.014";
     rq_expected_migration_digest := sample_migration_digest; rq_expected_blob_layout_version := BLOB_LAYOUT_VERSION;
     rq_topology := PAIRED_BLOB_ROOTS; rq_expected_fence := expected; rq_connect_timeout_seconds := 5;
     rq_acquire_timeout_seconds := FloatSeconds (QArith_base.inject_Z 1) |}.
Definition blank_report : EndpointReadiness :=
  {| er_state := UNAVAILABLE; er_topology := []; er_expected_database := []; er_expected_schema := [];
     er_expected_schema_revision := []; er_expected_migration_digest := []; er_expected_blob_layout_version := [];
     er_blob_roots := []; er_blob_inventory_digest := None; er_fence := None; er_expected_fence_digest := None; er_reasons := [] |}.
Definition sample_report_of (expected : option EndpointFence) : EndpointReadiness :=
  match inspect_endpoint_readiness sample_migration_digest sample_env (sample_request expected) with Ok r => r | Err _ => blank_report end.
Definition sample_report : EndpointReadiness := Eval vm_compute in sample_report_of None.
Definition sample_fence : EndpointFence :=
  Eval vm_compute in match er_fence sample_report with
                     | Some f => f
                     | None => new_fence sample_migration_digest (sample_request None) [] [] []
                     end.
(** The fence of the endpoint before a failover. *)
Definition old_fence : EndpointFence :=
  {| ef_topology := ef_topology sample_fence; ef_database_identity := sha256_hex (u "another primary");
     ef_schema_identity := ef_schema_identity sample_fence; ef_blob_identity := ef_blob_identity sample_fence;
     ef_blob_inventory_digest := ef_blob_inventory_digest sample_fence; ef_blob_roots := ef_blob_roots sample_fence;
     ef_schema_revision := ef_schema_revision sample_fence; ef_migration_digest := ef_migration_digest sample_fence;
     ef_blob_layout_version := ef_blob_layout_version sample_fence |}.
Definition stale_report : EndpointReadiness := Eval vm_compute in sample_report_of (Some old_fence).

Lemma endpoint_writable_exactly_witness : endpoint_qualified sample_migration_digest sample_env (sample_request (Some sample_fence)) sample_fence.
Proof.
  apply (endpoint_writable_exactly sample_migration_digest sample_env (sample_request (Some sample_fence)) sample_fence).
  - apply (bool_decide_unpack _). vm_compute. exact I.
  - exists (sample_report_of (Some sample_fence)). split_and!; vm_compute; reflexivity.
Defined.

Lemma fence_identifies_witness :
  (require_fence sample_report sample_fence = Ok sample_fence
   /\ (sample_fence = sample_fence \/ exists t1 t2, dumps true (fence_document sample_fence []) = Ok t1
          /\ dumps true (fence_document sample_fence []) = Ok t2 /\ t1 <> t2 /\ sha256_hex t1 = sha256_hex t2))
  /\ er_reasons stale_report = [u "fence_database_identity_mismatch"]
  /\ exists wanted f, fence_differs wanted f (u "fence_database_identity_mismatch")
       /\ ~ fence_differs wanted f (u "fence_schema_identity_mismatch").
Proof.
  split.
  - split; [vm_compute; reflexivity|].
    destruct (fence_identifies sample_migration_digest sample_env (sample_request None) sample_report sample_fence) as [Hf _].
    + vm_compute. reflexivity.
    + vm_compute. reflexivity.
    + apply (bool_decide_unpack _). vm_compute. exact I.
    + vm_compute. reflexivity.
    + destruct (Hf sample_fence) as (_ & _ & Hx); [vm_compute; reflexivity|exact Hx].
  - split; [vm_compute; reflexivity|].
    destruct (fence_identifies sample_migration_digest sample_env (sample_request (Some old_fence)) stale_report old_fence) as [_ Hs].
    + vm_compute. reflexivity.
    + vm_compute. reflexivity.
    + apply (bool_decide_unpack _). vm_compute. exact I.
    + vm_compute. reflexivity.
    + destruct (Hs eq_refl) as (wanted & f & _ & _ & _ & Hx & _). exists wanted, f.
      assert (er_reasons stale_report = [u "fence_database_identity_mismatch"]) as E by (vm_compute; reflexivity).
      split; [apply Hx; rewrite E; left|]. intros Hd. apply Hx in Hd. rewrite E in Hd.
      apply list_elem_of_singleton in Hd. discriminate Hd.
Defined.

(** A database that raises at every call. *)
Definition broken_env : endpoint_env :=
  {| ee_roots := fun _ => sample_root []; ee_connect := raise PgOperationalError "connection refused"; ee_close := Ok () |}.

(** A request with another timeout or path. *)
Definition with_timeout (t : timeout) (path : path_arg) : readiness_request :=
  let rq := sample_request None in
  {| rq_database_url := rq_database_url rq; rq_blob_roots := [(u "attachments", path)];
     rq_blob_inventory_digest := rq_blob_inventory_digest rq; rq_expected_database := rq_expected_database rq;
     rq_expected_schema := rq_expected_schema rq; rq_expected_schema_revision := rq_expected_schema_revision rq;
     rq_expected_migration_digest := rq_expected_migration_digest rq;
     rq_expected_blob_layout_version := rq_expected_blob_layout_version rq; rq_topology := rq_topology rq;
     rq_expected_fence := None; rq_connect_timeout_seconds := 5; rq_acquire_timeout_seconds := t |}.

(** A path that raises [TypeError] is reported, one that raises [ValueError]
    escapes, and so does the overflow of a huge timeout. *)
Lemma readiness_total_witness :
  (exists r, inspect_endpoint_readiness sample_migration_digest broken_env
               (with_timeout (IntSeconds 3) (PathRaises (Exn TypeError_ "not a path"))) = Ok r
     /\ (writable r = true <-> er_reasons r = []))
  /\ inspect_endpoint_readiness sample_migration_digest broken_env
       (with_timeout (IntSeconds (2 ^ 1024)) (PathText (u "/srv/blobs")))
     = Err (Raised (Exn OverflowError_ "int too large to convert to float"))
  /\ inspect_endpoint_readiness sample_migration_digest broken_env
       (with_timeout (IntSeconds 3) (PathRaises (Exn ValueError_ "moved")))
     = Err (Raised (Exn ValueError_ "moved")).
Proof.
  assert (forall t path, NoDup (fst <$> rq_blob_roots (with_timeout t path))) as Hn
    by (intros t path; apply NoDup_singleton).
  assert (orderly_endpoint broken_env) as Ho by (split_and!; [by intros path|by intros e [= <-]|done|done]).
  split; [|split].
  - apply (readiness_total sample_migration_digest broken_env
      (with_timeout (IntSeconds 3) (PathRaises (Exn TypeError_ "not a path"))));
      [apply Hn | vm_compute; discriminate | vm_compute; discriminate | exact Ho | vm_compute; reflexivity
      | repeat constructor].
  - apply (readiness_total sample_migration_digest broken_env
      (with_timeout (IntSeconds (2 ^ 1024)) (PathText (u "/srv/blobs")))) with (z := 2 ^ 1024);
      [apply Hn | vm_compute; discriminate | vm_compute; discriminate | reflexivity | vm_compute; discriminate].
  - apply (readiness_total sample_migration_digest broken_env
      (with_timeout (IntSeconds 3) (PathRaises (Exn ValueError_ "moved")))) with (before := []) (name := u "attachments") (after := []);
      [apply Hn | vm_compute; discriminate | vm_compute; discriminate | reflexivity | constructor
      | vm_compute; reflexivity | vm_compute; discriminate | vm_compute; reflexivity].
Defined.
