(* ===== verification/JointRestore.v ===== *)
(** * Joint restore (src/src/astralplane/joint_restore.py and recovery.py)

    The qualification of a restored database together with its blob roots: the
    walk of each root, the comparison with the inventory, the evidence; and the
    retirement of the sessions of the restored database. *)

From S2P Require Import Prelude Regex Errors Domain Sha256 Json Pg Revision Migrations MigrationLineage Outbox AuditDelivery BlobKeys Compatibility EndpointReadiness.

Definition JOINT_RESTORE_CONTRACT_VERSION : pystr := u "astralplane.joint-restore/v1".
(** [^[0-9a-f]{64}\.lock$] *)
Definition _LOCK_NAME : regex := RSeq hex64_re (RLit (u ".lock")).
(** [^\.astralplane-stage-[0-9a-f]{64}\.lock$] *)
Definition _STAGE_MARKER_NAME : regex := RSeq (RLit (u ".astralplane-stage-")) _LOCK_NAME.
Definition _EMPTY_SHA256 : pystr := sha256_hex [].
Definition _CONTROL_DIRECTORY : pystr := u ".astralplane-owner-locks".
Definition _MAX_RESTORE_COMPONENTS : nat := 32.

(** [raise JointRestoreError(..., code=code, metadata={"reason": reason})] *)
Definition refuse {A} (code reason : pystr) : outcome failure A :=
  raise_plane JointRestoreError (CodeStr code) (MetaItems [(Some (u "reason"), DStr reason)]).
Definition input_refused {A} (reason : string) : outcome failure A := refuse (u "joint_restore_input_incompatible") (u reason).
Definition inventory_refused {A} (reason : string) : outcome failure A := refuse (u "joint_restore_inventory_mismatch") (u reason).
#[global] Arguments refuse : simpl never.

(** [if b: _refuse(...)] *)
Definition input_refused_if (b : bool) (reason : string) : outcome failure unit := if b then input_refused reason else Ok ().
Definition inventory_refused_if (b : bool) (reason : string) : outcome failure unit :=
  if b then inventory_refused reason else Ok ().

Record RestoreBlobEntry : Type := {
  re_root : pystr;
  re_storage_key : pystr;
  re_size_bytes : Z;
  re_sha256 : pystr
}.
#[global] Instance RestoreBlobEntry_eq_dec : EqDecision RestoreBlobEntry.
Proof. solve_decision. Defined.

Record JointRestoreEvidence : Type := {
  je_contract_version : pystr;
  je_schema_revision : pystr;
  je_migration_digest : pystr;
  je_database_identity : pystr;
  je_schema_identity : pystr;
  je_blob_roots : list pystr;
  je_blob_identity : pystr;
  je_blob_inventory_digest : pystr;
  je_blob_count : Z;
  je_blob_size_bytes : Z;
  je_fence_digest : pystr;
  je_digest : pystr
}.
Record JointRestoreCompletion : Type := { jc_evidence : JointRestoreEvidence; jc_retired_sessions : Z }.

Definition evidence_items (e : JointRestoreEvidence) : list (pystr * json) :=
  [(u "blob_count", JInt (je_blob_count e));
   (u "blob_identity", JStr (je_blob_identity e));
   (u "blob_inventory_digest", JStr (je_blob_inventory_digest e));
   (u "blob_roots", JArr (JStr <$> je_blob_roots e));
   (u "blob_size_bytes", JInt (je_blob_size_bytes e));
   (u "contract_version", JStr (je_contract_version e));
   (u "database_identity", JStr (je_database_identity e));
   (u "digest", JStr (je_digest e));
   (u "fence_digest", JStr (je_fence_digest e));
   (u "migration_digest", JStr (je_migration_digest e));
   (u "schema_identity", JStr (je_schema_identity e));
   (u "schema_revision", JStr (je_schema_revision e))].
Definition evidence_to_dict (e : JointRestoreEvidence) : json := JObj (evidence_items e ++ [(u "state", JStr (u "qualified"))]).
(** The later [state] replaces the one of the evidence, in its place. *)
Definition completion_to_dict (c : JointRestoreCompletion) : json :=
  JObj (evidence_items (jc_evidence c)
        ++ [(u "state", JStr (u "recovered")); (u "retired_sessions", JInt (jc_retired_sessions c))]).

Section Walk.
Context `{PyText}.

Definition _is_stage_marker (storage_key : pystr) : bool :=
  let components := split_at (N.eqb 47) storage_key in
  let name := default [] (last components) in
  let candidate := join_slash (removelast components ++ [replicate (length name) 120%N]) in
  (1 <? length components)%nat && fullmatch _STAGE_MARKER_NAME name
  && is_ok (validate_blob_owner_id (default [] (head components)))
  && bool_decide (validate_blob_storage_key candidate = Ok candidate).

(** The validator raises a [ValueError] only. *)
Definition _validate_restore_storage_key (storage_key : pystr) : result pystr :=
  match validate_blob_storage_key storage_key with
  | Ok key => Ok key
  | Err e => if _is_stage_marker storage_key then Ok storage_key else Err e
  end.

(** [RestoreBlobEntry.__post_init__] *)
Definition entry_init (e : RestoreBlobEntry) : result RestoreBlobEntry :=
  raise_unless (fullmatch _ROOT_NAME (re_root e)) (Exn ValueError_ "restore blob root must be a bounded identifier") ;;
  _validate_restore_storage_key (re_storage_key e) ;;
  raise_if (re_size_bytes e <? 0) (Exn ValueError_ "restore blob size must be a non-negative integer") ;;
  raise_unless (is_sha256 (re_sha256 e)) (Exn ValueError_ "restore blob digest must be a lowercase SHA-256") ;;
  raise_if (_is_stage_marker (re_storage_key e)
            && (negb (re_size_bytes e =? 0) || negb (bool_decide (re_sha256 e = _EMPTY_SHA256))))
    (Exn ValueError_ "restore stage markers must be empty") ;;
  Ok e.

(** ** The walk of a root *)

(** [except OSError: _refuse(...)] *)
Definition os_refused {A} (reason : string) (m : outcome failure A) : outcome failure A :=
  match m with Err OSError => inventory_refused reason | _ => m end.

(** One entry of the directory of owner locks. *)
Definition check_lock (entry : pystr * node) : outcome failure unit :=
  match snd entry with
  | Unstatable => Err OSError
  | File _ _ => inventory_refused_if (negb (fullmatch _LOCK_NAME (fst entry))) "blob_control_unsafe"
  | Link | Dir _ _ | Special => inventory_refused "blob_control_unsafe"
  end.

Definition _verify_control_directory (n : node) : outcome failure unit :=
  match n with
  | Unstatable => inventory_refused "blob_control_unavailable"
  | Dir children complete =>
      os_refused "blob_control_unavailable"
        (check_each check_lock children ;; if complete : bool then Ok () else Err OSError)
  | Link | File _ _ | Special => inventory_refused "blob_control_unsafe"
  end.

Definition _file_evidence (opened : option file_view) (require_single_link : bool) : outcome failure (Z * pystr) :=
  os_refused "blob_unavailable"
    match opened with
    | None => Err OSError
    | Some view =>
        inventory_refused_if (negb (fv_regular view) || (require_single_link && negb (fv_nlink view =? 1))) "blob_object_unsafe" ;;
        content ← match fv_content view with Some content => Ok content | None => Err OSError end;
        let size := Z.of_nat (length content) in
        inventory_refused_if (negb (fv_final_size view =? size)) "blob_content_changed" ;;
        Ok (size, sha256_hex content)
    end.

(** The branch of a regular file. *)
Definition file_entry (root_name : pystr) (components : list pystr) (nlink : Z) (opened : option file_view)
  : outcome failure RestoreBlobEntry :=
  let storage_key := join_slash components in
  match _validate_restore_storage_key storage_key with
  | Err _ => inventory_refused "blob_key_unsafe"
  | Ok _ =>
      let stage_marker := _is_stage_marker storage_key in
      inventory_refused_if (stage_marker && negb (nlink =? 1)) "blob_object_unsafe" ;;
      found ← _file_evidence opened stage_marker;
      inventory_refused_if (stage_marker && (negb (fst found =? 0) || negb (bool_decide (snd found = _EMPTY_SHA256))))
        "blob_content_changed" ;;
      plain (entry_init {| re_root := root_name; re_storage_key := storage_key; re_size_bytes := fst found; re_sha256 := snd found |})
  end.

(** The entries appended to [observed]; a walk that raises leaves none. *)
Fixpoint _walk_root (root_name : pystr) (components : list pystr) (directory : node) : outcome failure (list RestoreBlobEntry) :=
  inventory_refused_if (_MAX_RESTORE_COMPONENTS <? length components)%nat "blob_membership_mismatch" ;;
  os_refused "blob_root_unavailable"
    match directory with
    | Dir children complete =>
        (fix walk (entries : list (pystr * node)) : outcome failure (list RestoreBlobEntry) :=
           match entries with
           | [] => if complete : bool then Ok [] else Err OSError
           | (name, child) :: entries' =>
               found ←
                 (if bool_decide (components = []) && bool_decide (name = _CONTROL_DIRECTORY)
                  then _verify_control_directory child ;; Ok []
                  else
                    match child with
                    | Unstatable => Err OSError
                    | Link => inventory_refused "blob_link_unsafe"
                    | Dir _ _ => _walk_root root_name (components ++ [name]) child
                    | File nlink opened => e ← file_entry root_name (components ++ [name]) nlink opened; Ok [e]
                    | Special => inventory_refused "blob_object_unsafe"
                    end);
               others ← walk entries';
               Ok (found ++ others)
           end) children
    | Unstatable | Link | File _ _ | Special => Err OSError
    end.

(** ** A root against its inventory *)

(** [isinstance(exc, JointRestoreError)] *)
Definition is_joint (e : failure) : bool := match e with Plane c _ => isinstance c JointRestoreError | _ => false end.

(** The [try] block of [_scan_root]. *)
Definition scan_body (name : pystr) (view : root_view) : outcome failure (pystr * list RestoreBlobEntry) :=
  plain (rv_open view) ;;
  root_id ← plain (rv_identity view);
  match rv_supplied view with
  | Unstatable => Err OSError
  | Dir _ _ =>
      root ← match rv_resolved view with Some n => Ok n | None => Err OSError end;
      observed ← _walk_root name [] root;
      again ← plain (rv_identity_again view);
      inventory_refused_if (negb (bool_decide (again = root_id))) "blob_root_changed" ;;
      Ok (root_id, observed)
  | Link | File _ _ | Special => inventory_refused "blob_root_unsafe"
  end.

Definition scan_store (name : pystr) (view : root_view) : outcome failure (pystr * list RestoreBlobEntry) :=
  let body := match scan_body name view with
              | Err e => if is_joint e then Err e else if caught e then inventory_refused "blob_root_unavailable" else Err e
              | r => r
              end in
  match rv_open view with
  | Err _ => body
  | Ok _ =>
      match rv_close view with
      | Ok _ => body
      | Err e => if is_exception e then inventory_refused "blob_root_cleanup_failed" else Err (Raised e)
      end
  end.

(** [d[key] = value] on a dict in insertion order. *)
Fixpoint dict_put {A} (k : pystr) (v : A) (d : list (pystr * A)) : list (pystr * A) :=
  match d with
  | [] => [(k, v)]
  | (k', v') :: d' => if bool_decide (k' = k) then (k, v) :: d' else (k', v') :: dict_put k v d'
  end.
Definition dict_get {A} (k : pystr) (d : list (pystr * A)) : option A := snd <$> find (fun kv => bool_decide (fst kv = k)) d.

(** [{entry.storage_key: entry for entry in entries}] *)
Definition by_key (entries : list RestoreBlobEntry) : list (pystr * RestoreBlobEntry) :=
  fold_left (fun d e => dict_put (re_storage_key e) e d) entries [].

(** [set(a) == set(b)] on the keys of two dicts. *)
Definition same_keys {A B} (a : list (pystr * A)) (b : list (pystr * B)) : bool :=
  forallb (fun k => bool_decide (k ∈ b.*1)) (a.*1) && forallb (fun k => bool_decide (k ∈ a.*1)) (b.*1).

Definition check_entry (expected : list (pystr * RestoreBlobEntry)) (item : pystr * RestoreBlobEntry) : outcome failure unit :=
  match dict_get (fst item) expected with
  | None => Err (Raised (Exn (HostError (u "KeyError")) ""))
  | Some wanted =>
      inventory_refused_if (negb (re_size_bytes (snd item) =? re_size_bytes wanted)) "blob_size_mismatch" ;;
      inventory_refused_if (negb (bool_decide (re_sha256 (snd item) = re_sha256 wanted))) "blob_digest_mismatch"
  end.

Definition total_size (entries : list RestoreBlobEntry) : Z := foldr (fun e n => re_size_bytes e + n) 0 entries.

Definition _scan_root (name : pystr) (view : root_view) (expected : list (pystr * RestoreBlobEntry))
  : outcome failure (pystr * Z * Z) :=
  scanned ← scan_store name view;
  let actual := by_key (snd scanned) in
  inventory_refused_if (negb (same_keys actual expected)) "blob_membership_mismatch" ;;
  check_each (check_entry expected) actual ;;
  Ok (fst scanned, Z.of_nat (length actual), total_size (snd <$> actual)).

(** ** Every root *)

(** [expected_by_root[name]] *)
Definition expected_for (entries : list RestoreBlobEntry) (name : pystr) : list (pystr * RestoreBlobEntry) :=
  by_key (List.filter (fun e => bool_decide (re_root e = name)) entries).

Fixpoint scan_roots (fs : path_arg -> root_view) (entries : list RestoreBlobEntry) (roots : list (pystr * path_arg))
  : outcome failure (list (pystr * pystr) * Z * Z) :=
  match roots with
  | [] => Ok ([], 0, 0)
  | (name, path) :: roots' =>
      first ← _scan_root name (fs path) (expected_for entries name);
      rest ← scan_roots fs entries roots';
      let '(root_id, count, size) := first in
      let '(ids, counts, sizes) := rest in
      Ok ((name, root_id) :: ids, count + counts, size + sizes)
  end.

Definition _blob_evidence (fs : path_arg -> root_view) (roots : list (pystr * path_arg)) (entries : list RestoreBlobEntry)
  : outcome failure (pystr * Z * Z) :=
  scanned ← scan_roots fs entries (by_name roots);
  let '(ids, count, size) := scanned in
  inventory_refused_if (negb (bool_decide (NoDup (snd <$> ids)))) "blob_root_duplicate" ;;
  d ← plain (_digest (identities_document ids));
  Ok (d, count, size).

(** ** Inputs *)

(** Whether a root is kept: [os.fspath] may raise, and the handler is for
    [TypeError] only. *)
Definition restore_path (path : path_arg) : outcome failure unit :=
  match path with
  | PathText s => input_refused_if (bool_decide (s = [])) "blob_roots_invalid"
  | PathRaises e => if isinstance (exn_cls e) TypeError_ then input_refused_if true "blob_roots_invalid" else Err (Raised e)
  | PathBytes _ | NotPath => input_refused_if true "blob_roots_invalid"
  end.
Fixpoint keep_restore_roots (value : list (pystr * path_arg)) : outcome failure unit :=
  match value with
  | [] => Ok ()
  | (name, path) :: value' =>
      input_refused_if (negb (fullmatch _ROOT_NAME name)) "blob_roots_invalid" ;;
      restore_path path ;;
      keep_restore_roots value'
  end.
Definition restore_roots (value : list (pystr * path_arg)) : outcome failure (list (pystr * path_arg)) :=
  input_refused_if (bool_decide (value = [])) "blob_roots_invalid" ;;
  keep_restore_roots value ;;
  Ok value.

(** [(item.root, item.storage_key)] in the order of tuples. *)
Definition entry_leb (a b : RestoreBlobEntry) : bool :=
  if bool_decide (re_root a = re_root b) then str_leb (re_storage_key a) (re_storage_key b) else str_leb (re_root a) (re_root b).

Fixpoint check_entries (roots : list pystr) (seen folded : list (pystr * pystr)) (entries : list RestoreBlobEntry)
  : outcome failure unit :=
  match entries with
  | [] => Ok ()
  | e :: entries' =>
      input_refused_if (negb (bool_decide (re_root e ∈ roots))) "blob_inventory_root_unknown" ;;
      let key := (re_root e, re_storage_key e) in
      let folded_key := (re_root e, casefold (re_storage_key e)) in
      input_refused_if (bool_decide (key ∈ seen) || bool_decide (folded_key ∈ folded)) "blob_inventory_duplicate" ;;
      check_entries roots (key :: seen) (folded_key :: folded) entries'
  end.

Definition _normalized_entries (value : list RestoreBlobEntry) (roots : list (pystr * path_arg))
  : outcome failure (list RestoreBlobEntry) :=
  check_entries (fst <$> roots) [] [] value ;;
  Ok (sort_by entry_leb value).

Definition entry_document (e : RestoreBlobEntry) : json :=
  JObj [(u "root", JStr (re_root e)); (u "sha256", JStr (re_sha256 e)); (u "size_bytes", JInt (re_size_bytes e));
        (u "storage_key", JStr (re_storage_key e))].
Definition inventory_document (names : list pystr) (entries : list RestoreBlobEntry) : json :=
  JObj [(u "contract_version", JStr JOINT_RESTORE_CONTRACT_VERSION); (u "entries", JArr (entry_document <$> entries));
        (u "roots", JArr (JStr <$> sorted_names names))].
Definition _inventory_digest (names : list pystr) (entries : list RestoreBlobEntry) : result pystr :=
  _digest (inventory_document names entries).

(** ** Qualification *)

Definition evidence_document (fence_d inventory_digest blob_identity : pystr) (count size : Z) : json :=
  JObj [(u "blob_count", JInt count); (u "blob_identity", JStr blob_identity);
        (u "blob_inventory_digest", JStr inventory_digest); (u "blob_size_bytes", JInt size);
        (u "contract_version", JStr JOINT_RESTORE_CONTRACT_VERSION); (u "fence_digest", JStr fence_d)].

Definition _evidence (fence : EndpointFence) (inventory_digest blob_identity : pystr) (count size : Z)
  : result JointRestoreEvidence :=
  fence_d ← fence_digest fence;
  d ← _digest (evidence_document fence_d inventory_digest blob_identity count size);
  Ok {| je_contract_version := JOINT_RESTORE_CONTRACT_VERSION;
        je_schema_revision := ef_schema_revision fence;
        je_migration_digest := ef_migration_digest fence;
        je_database_identity := ef_database_identity fence;
        je_schema_identity := ef_schema_identity fence;
        je_blob_roots := ef_blob_roots fence;
        je_blob_identity := blob_identity;
        je_blob_inventory_digest := inventory_digest;
        je_blob_count := count;
        je_blob_size_bytes := size;
        je_fence_digest := fence_d;
        je_digest := d |}.

Record restore_request : Type := {
  jr_database_url : pystr;
  jr_blob_roots : list (pystr * path_arg);
  jr_blob_inventory : list RestoreBlobEntry;
  jr_expected_database : pystr;
  jr_expected_schema : pystr;
  jr_expected_schema_revision : pystr;
  jr_expected_migration_digest : pystr;
  jr_expected_blob_inventory_digest : option pystr;
  jr_expected_blob_roots : option (list pystr);
  jr_expected_blob_layout_version : pystr;
  jr_connect_timeout_seconds : Z;
  jr_acquire_timeout_seconds : timeout
}.

(** What the walk meets, and what the inspection that follows it meets. *)
Record restore_env : Type := { nv_roots : path_arg -> root_view; nv_endpoint : endpoint_env }.

Section Qualify.
Context (MIGRATION_DIGEST : pystr).
Let current := CURRENT_DATA_PLANE_REVISION MIGRATION_DIGEST.

(** The checks before any input or output. *)
Definition check_request (rq : restore_request) : outcome failure unit :=
  input_refused_if (bool_decide (py_strip (jr_database_url rq) = [])) "database_url_invalid" ;;
  input_refused_if (negb (_identifier (jr_expected_database rq))) "expected_database_invalid" ;;
  input_refused_if (schema_name_invalid (jr_expected_schema rq)) "expected_schema_invalid" ;;
  input_refused_if (negb (bool_decide (jr_expected_schema_revision rq = dp_schema_revision current)))
    "schema_revision_not_current" ;;
  input_refused_if (negb (bool_decide (jr_expected_migration_digest rq = dp_migration_digest current))
                    || negb (bool_decide (jr_expected_migration_digest rq = MIGRATION_DIGEST)))
    "migration_digest_not_current" ;;
  input_refused_if (negb (bool_decide (jr_expected_blob_layout_version rq = BLOB_LAYOUT_VERSION))) "blob_layout_not_current" ;;
  input_refused_if match jr_expected_blob_inventory_digest rq with Some d => negb (is_sha256 d) | None => false end
    "blob_inventory_digest_invalid".

Definition check_expected_roots (rq : restore_request) (roots : list (pystr * path_arg)) : outcome failure unit :=
  match jr_expected_blob_roots rq with
  | None => Ok ()
  | Some expected =>
      input_refused_if (existsb (fun name => negb (fullmatch _ROOT_NAME name)) expected || negb (bool_decide (NoDup expected)))
        "expected_blob_roots_invalid" ;;
      inventory_refused_if (negb (bool_decide (sorted_names expected = names_of roots))) "blob_root_set_mismatch"
  end.

Definition readiness_of (rq : restore_request) (roots : list (pystr * path_arg)) (inventory_digest : pystr) : readiness_request :=
  {| rq_database_url := jr_database_url rq; rq_blob_roots := roots; rq_blob_inventory_digest := inventory_digest;
     rq_expected_database := jr_expected_database rq; rq_expected_schema := jr_expected_schema rq;
     rq_expected_schema_revision := jr_expected_schema_revision rq;
     rq_expected_migration_digest := jr_expected_migration_digest rq;
     rq_expected_blob_layout_version := jr_expected_blob_layout_version rq; rq_topology := PAIRED_BLOB_ROOTS;
     rq_expected_fence := None; rq_connect_timeout_seconds := jr_connect_timeout_seconds rq;
     rq_acquire_timeout_seconds := jr_acquire_timeout_seconds rq |}.

(** The fence of a writable report that agrees with the scan. *)
Definition agreed_fence (report : EndpointReadiness) (inventory_digest blob_identity : pystr) (names : list pystr)
  : outcome failure EndpointFence :=
  match er_fence report with
  | Some fence =>
      if writable report then
        inventory_refused_if (negb (bool_decide (ef_blob_identity fence = blob_identity))
                              || negb (bool_decide (ef_blob_inventory_digest fence = inventory_digest))
                              || negb (bool_decide (ef_blob_roots fence = names))) "blob_fence_mismatch" ;;
        Ok fence
      else refuse (u "joint_restore_database_unqualified")
             match er_reasons report with [] => u "database_not_writable" | reasons => join (u ",") reasons end
  | None => refuse (u "joint_restore_database_unqualified")
              match er_reasons report with [] => u "database_not_writable" | reasons => join (u ",") reasons end
  end.

Definition qualify_body (env : restore_env) (rq : restore_request) : outcome failure JointRestoreEvidence :=
  check_request rq ;;
  roots ← restore_roots (jr_blob_roots rq);
  check_expected_roots rq roots ;;
  entries ← _normalized_entries (jr_blob_inventory rq) roots;
  inventory_digest ← plain (_inventory_digest (fst <$> roots) entries);
  inventory_refused_if match jr_expected_blob_inventory_digest rq with
                       | Some d => negb (bool_decide (d = inventory_digest))
                       | None => false
                       end "blob_inventory_digest_mismatch" ;;
  blobs ← _blob_evidence (nv_roots env) roots entries;
  let '(blob_identity, blob_count, blob_size_bytes) := blobs in
  report ← inspect_endpoint_readiness MIGRATION_DIGEST (nv_endpoint env) (readiness_of rq roots inventory_digest);
  fence ← agreed_fence report inventory_digest blob_identity (names_of roots);
  plain (_evidence fence inventory_digest blob_identity blob_count blob_size_bytes).

Definition qualify_joint_restore (env : restore_env) (rq : restore_request) : outcome failure JointRestoreEvidence :=
  match qualify_body env rq with
  | Err e => if is_joint e then Err e else if caught e then raise_plane JointRestoreError CodeNone MetaNone else Err e
  | r => r
  end.
End Qualify.
End Walk.
