(* ===== verification/Recovery.v ===== *)
(** * Retiring the sessions of a restored database (recovery.py, joint_restore.py)

    [retire_restored_sessions] deletes every web session of an explicitly named
    database in one transaction; [recover_joint_restore] does so after the
    qualification.  The transaction is [PlaneDatabase.transaction] of
    Transaction.v on a connection of the pool of Pool.v, over the driver of
    FaultyDriver.v, any call of which may raise before or after its effect. *)

From S2P Require Import Prelude Regex Errors Domain Sha256 Json Pg Revision Migrations MigrationLineage Outbox AuditDelivery BlobKeys Compatibility EndpointReadiness JointRestore Pool Transaction FaultyDriver.

(** The restored database: its name and current schema, the rows of
    [schema_meta] and of [web_session]. *)
Record restored_db (W : Type) : Type := RestoredDb {
  rd_target : option (pystr * option pystr);
  rd_meta : list (pystr * option pystr);
  rd_sessions : list W
}.
Arguments RestoredDb {W}.
Arguments rd_target {W}.
Arguments rd_meta {W}.
Arguments rd_sessions {W}.

(** Statements without rows, in order. *)
Inductive recovery_statement : Type :=
  | PinSchema
  | BoundWaits
  | SetRecoveryPath (search_path : pystr)
  | MigrationLock (lock : Z * Z)
  | LockBothTables
  | LockSessions.

(** What the outside answers: creating the driver pool, [getconn] (a connection
    and its autocommit mode), the failures of the connection, what the server
    raises for a statement without rows, the catalog verifier, [putconn] and
    [closeall]. *)
Record recovery_env (W : Type) : Type := {
  rc_connect : result unit;
  rc_getconn : result (conn * bool);
  rc_faults : fault_plan;
  rc_execute : recovery_statement -> result unit;
  rc_verify_current : TX (fconn (restored_db W)) unit;
  rc_putconn : bool -> option exn;
  rc_closeall : option exn
}.
Arguments rc_connect {W}.
Arguments rc_getconn {W}.
Arguments rc_faults {W}.
Arguments rc_execute {W}.
Arguments rc_verify_current {W}.
Arguments rc_putconn {W}.
Arguments rc_closeall {W}.

Section Retire.
Context {W : Type} (MIGRATION_DIGEST : pystr).
Let current := CURRENT_DATA_PLANE_REVISION MIGRATION_DIGEST.
Implicit Types (env : recovery_env W) (db : restored_db W).
Abbreviation RM := (TX (fconn (restored_db W))).

Definition run_statement env (st : recovery_statement) : RM unit :=
  statement (rc_faults env) (fun db => rc_execute env st ;; Ok ((), db)).

(** [SessionRepository.bound_request_execution_waits] *)
Definition bound_request_execution_waits env : RM unit := run_statement env BoundWaits.

(** [DELETE FROM web_session], and the count of the rows. *)
Definition delete_sessions env : RM Z :=
  statement (rc_faults env) (fun db => Ok (Z.of_nat (length (rd_sessions db)), RestoredDb (rd_target db) (rd_meta db) [])).
Definition sessions_remain env : RM bool :=
  statement (rc_faults env) (fun db => Ok (match rd_sessions db with [] => false | _ => true end, db)).

(** [SessionRepository.retire_all_for_recovery] *)
Definition retire_all_for_recovery env : RM Z :=
  bound_request_execution_waits env ;;
  run_statement env LockSessions ;;
  rowcount ← delete_sessions env;
  tx_lift (raise_if (rowcount <? 0) (Exn PlaneError "restored session retirement returned an invalid count")) ;;
  remaining ← sessions_remain env;
  tx_lift (raise_if remaining (Exn PlaneError "restored session retirement was incomplete")) ;;
  mret rowcount.

Definition select_target env : RM (option (pystr * option pystr)) :=
  statement (rc_faults env) (fun db => Ok (rd_target db, db)).
(** [SELECT key,value FROM schema_meta WHERE key IN (...)] *)
Definition select_metadata env : RM (list (pystr * option pystr)) :=
  statement (rc_faults env) (fun db => Ok (List.filter (fun row => bool_decide (fst row ∈ [SCHEMA_META_REVISION; SCHEMA_META_DIGEST])) (rd_meta db), db)).

Record retirement_request : Type := {
  tr_expected_database : pystr;
  tr_expected_schema : pystr;
  tr_expected_schema_revision : pystr;
  tr_expected_migration_digest : pystr
}.

Definition retirement_request_ok (rq : retirement_request) : bool :=
  _identifier (tr_expected_database rq) && negb (schema_name_invalid (tr_expected_schema rq))
  && bool_decide (tr_expected_schema_revision rq = dp_schema_revision current)
  && bool_decide (tr_expected_migration_digest rq = dp_migration_digest current)
  && bool_decide (tr_expected_migration_digest rq = MIGRATION_DIGEST).

(** The body of the transaction. *)
Definition retirement_body env (rq : retirement_request) : RM Z :=
  run_statement env PinSchema ;;
  bound_request_execution_waits env ;;
  target ← select_target env;
  tx_lift (raise_unless (bool_decide (target = Some (tr_expected_database rq, Some (tr_expected_schema rq))))
          (Exn SessionRetirementError "restored session retirement target differs")) ;;
  run_statement env (SetRecoveryPath (quoted_name (tr_expected_schema rq) ++ u ",pg_temp")) ;;
  run_statement env (MigrationLock (default (0, 0) (migration_lock current))) ;;
  run_statement env LockBothTables ;;
  rc_verify_current env ;;
  metadata ← select_metadata env;
  tx_lift (raise_unless (metadata_matches (tr_expected_schema_revision rq) (tr_expected_migration_digest rq) metadata)
          (Exn SessionRetirementError "restored session retirement metadata differs")) ;;
  retire_all_for_recovery env.

(** Everything that goes wrong is reported alike. *)
Definition retirement_unavailable {A} : outcome failure A := raise_plane SessionRetirementError CodeNone MetaNone.
Definition report_exception {A} (e : exn) : outcome failure A := if is_exception e then retirement_unavailable else Err (Raised e).

(** [with PlaneDatabase(pool).transaction() as transaction:] *)
Definition retirement_use env (rq : retirement_request) db : usage Z :=
  plane_transaction (Driver0 := faulty_driver (rc_faults env))
    (match rc_getconn env with
     | Ok (id, autocommit) => Ok (id, Fconn (idle_conn db autocommit) 0)
     | Err e => Err e
     end)
    (fun _ discard => rc_putconn env discard) None (retirement_body env rq) pool_init.

(** What the database holds after the use. *)
Definition database_after (use : usage (C := fconn (restored_db W)) Z) db : restored_db W :=
  match u_returned use with Some (c, _) => pg_committed (fc_session c) | None => db end.

(** [pool.close()] runs in a [finally]: its error takes the place of the result. *)
Definition retire_restored_sessions env (rq : retirement_request) db : outcome failure Z * restored_db W :=
  if negb (retirement_request_ok rq) then (retirement_unavailable, db)
  else
    match rc_connect env with
    | Err e => (report_exception e, db)
    | Ok _ =>
        let use := retirement_use env rq db in
        (match fst (close (rc_closeall env) (u_pool use)) with
         | Err e => report_exception e
         | Ok _ => match u_result use with Ok retired => Ok retired | Err e => report_exception e end
         end, database_after use db)
    end.

Context `{PyText}.

(** The arguments that both halves share. *)
Definition retirement_of (rq : restore_request) : retirement_request :=
  {| tr_expected_database := jr_expected_database rq; tr_expected_schema := jr_expected_schema rq;
     tr_expected_schema_revision := jr_expected_schema_revision rq;
     tr_expected_migration_digest := jr_expected_migration_digest rq |}.

Definition recover_joint_restore (restore : restore_env) env (rq : restore_request) db
  : outcome failure JointRestoreCompletion * restored_db W :=
  match qualify_joint_restore MIGRATION_DIGEST restore rq with
  | Err e => (Err e, db)
  | Ok evidence =>
      let '(retirement, db') := retire_restored_sessions env (retirement_of rq) db in
      (retired ← retirement; Ok {| jc_evidence := evidence; jc_retired_sessions := retired |}, db')
  end.
End Retire.
