(* ===== verification/JointRestoreSpec.v ===== *)
(** * What a walk of a blob root establishes

    A declarative account of a root: which files it holds, and when it is
    clean.  The walk returns exactly for clean roots, with exactly their files,
    and a scan exactly when these are the inventory. *)

From S2P Require Import Prelude Regex Errors Domain Sha256 Json Pg Revision Migrations MigrationLineage Outbox AuditDelivery BlobKeys Compatibility EndpointReadiness EndpointSpec JointRestore.

(** ** Trees *)

Lemma node_nested_ind (P : node -> Prop) :
  P Unstatable -> P Link -> (forall children complete, Forall (fun nc => P (snd nc)) children -> P (Dir children complete)) ->
  (forall nlink opened, P (File nlink opened)) -> P Special -> forall n, P n.
Proof.
  intros Hu Hl Hd Hf Hs. fix IH 1. intros [| |children complete|nlink opened|]; [done|done| |done|done].
  apply Hd. induction children as [|[name child] children IHc]; constructor; [apply IH|apply IHc].
Qed.

(** The node at a path below another. *)
Inductive node_at : node -> list pystr -> node -> Prop :=
  | at_child children complete name child :
      (name, child) ∈ children -> node_at (Dir children complete) [name] child
  | at_below children complete name child path n :
      (name, child) ∈ children -> node_at child path n -> node_at (Dir children complete) (name :: path) n.

(** Names as file systems have them: not empty, without a slash, and unique
    in their directory. *)
Definition name_ok (name : pystr) : Prop := name <> [] /\ has_char 47 name = false.
Inductive tree_wf : node -> Prop :=
  | wf_dir children complete :
      NoDup (children.*1) -> Forall (fun nc => name_ok (fst nc) /\ tree_wf (snd nc)) children -> tree_wf (Dir children complete)
  | wf_leaf n : (forall children complete, n <> Dir children complete) -> tree_wf n.

Lemma node_at_names n path m : tree_wf n -> node_at n path m -> path <> [] /\ Forall name_ok path.
Proof.
  intros Hwf Hat. induction Hat as [children complete name child Hin|children complete name child path n Hin Hat IH];
    inversion Hwf as [? ? _ Hall|? Hno]; subst; try by edestruct Hno.
  - rewrite Forall_forall in Hall. destruct (Hall _ Hin) as [Hn _]. split; [done|by apply Forall_singleton].
  - rewrite Forall_forall in Hall. destruct (Hall _ Hin) as [Hn Ht]. destruct (IH Ht) as [_ HF]. split; [done|by constructor].
Qed.

(** ** Keys *)

Lemma split_name name : has_char 47 name = false -> split_at (N.eqb 47) name = [name].
Proof.
  induction name as [|c name IH]; [done|]. unfold has_char. cbn. intros [Hc Hr]%orb_false_iff. rewrite Hc, (IH Hr). done.
Qed.

Lemma split_join path : path <> [] -> Forall (fun name => has_char 47 name = false) path -> split_at (N.eqb 47) (join_slash path) = path.
Proof.
  intros Hne HF. induction HF as [|name path Hn HF IH]; [done|]. destruct path as [|second path]; [by apply split_name|].
  change (join_slash (name :: second :: path)) with (name ++ [47%N] ++ join_slash (second :: path)).
  specialize (IH ltac:(done)). set (rest := join_slash (second :: path)) in *. clear Hne HF.
  induction name as [|c name IHn]; cbn [app split_at]; [by rewrite N.eqb_refl, IH|].
  unfold has_char in Hn. cbn [existsb] in Hn. apply orb_false_iff in Hn as [Hc Hn]. rewrite Hc. cbn [app] in IHn. by rewrite (IHn Hn).
Qed.

Lemma join_inj p1 p2 :
  p1 <> [] -> p2 <> [] -> Forall name_ok p1 -> Forall name_ok p2 -> join_slash p1 = join_slash p2 -> p1 = p2.
Proof.
  intros N1 N2 F1 F2 Hj. rewrite <- (split_join p1), <- (split_join p2), Hj; [done|done|..|done|];
    (eapply Forall_impl; [eassumption|]; by intros x [_ ?]).
Qed.

(** ** Refusals *)

Lemma raise_plane_Err {A} c code m : exists e, @raise_plane A c code m = Err e.
Proof. unfold raise_plane. destruct (plane_error_init c code m); eauto. Qed.
Lemma refuse_not_Ok {A} code reason (a : A) : refuse code reason <> Ok a.
Proof. unfold refuse. destruct (@raise_plane_Err A JointRestoreError (CodeStr code) (MetaItems [(Some (u "reason"), DStr reason)])) as [e ->]. done. Qed.

Lemma input_refused_if_Ok b reason x : input_refused_if b reason = Ok x <-> b = false.
Proof. destruct b, x; cbn [input_refused_if inventory_refused_if]; split; intros Hr; try done. Qed.
Lemma inventory_refused_if_Ok b reason x : inventory_refused_if b reason = Ok x <-> b = false.
Proof. destruct b, x; cbn [input_refused_if inventory_refused_if]; split; intros Hr; try done. Qed.
Lemma os_refused_Ok {A} reason (m : outcome failure A) a : os_refused reason m = Ok a <-> m = Ok a.
Proof. by destruct m as [x|[c s| |e]]. Qed.
Lemma plain_Ok {A} (m : result A) a : plain m = Ok a <-> m = Ok a.
Proof. apply map_err_Ok. Qed.

(** [inv_refused]: one guard or call after another of a hypothesis. *)
Ltac inv_refused :=
  repeat match goal with
  | H : (_ ≫= _) = Ok _ |- _ =>
      let a := fresh "v" in let H1 := fresh "Hs" in apply bind_Ok_inv in H as (a & H1 & H)
  | H : input_refused_if _ _ = Ok _ |- _ => apply input_refused_if_Ok in H
  | H : inventory_refused_if _ _ = Ok _ |- _ => apply inventory_refused_if_Ok in H
  | H : os_refused _ _ = Ok _ |- _ => apply os_refused_Ok in H
  | H : plain _ = Ok _ |- _ => apply plain_Ok in H
  | H : refuse _ _ = Ok _ |- _ => by apply refuse_not_Ok in H
  | H : inventory_refused _ = Ok _ |- _ => by apply refuse_not_Ok in H
  | H : input_refused _ = Ok _ |- _ => by apply refuse_not_Ok in H
  | H : Ok _ = Ok _ |- _ => injection H as H
  | H : Err _ = Ok _ |- _ => discriminate H
  end.

Lemma elem_of_concat_iff {A} (ls : list (list A)) x : x ∈ concat ls <-> exists l, x ∈ l /\ l ∈ ls.
Proof. rewrite list_elem_of_In, in_concat. setoid_rewrite list_elem_of_In. naive_solver. Qed.

Lemma Forall2_exists_l' {A B} (P : A -> B -> Prop) l : Forall (fun a => exists b, P a b) l -> exists k, Forall2 P l k.
Proof. induction 1 as [|a l [b Hb] _ [k IH]]; [by exists []|]. exists (b :: k). by constructor. Qed.

(** ** Clean roots *)

Section Clean.
Context `{PyText}.

Definition entry_of (root_name key : pystr) (content : list N) : RestoreBlobEntry :=
  {| re_root := root_name; re_storage_key := key; re_size_bytes := Z.of_nat (length content); re_sha256 := sha256_hex content |}.

(** A file that a store could have written: a safe key, a readable regular
    file that does not grow, and for the marker of a stage an empty file with
    one link. *)
Definition file_ok (key : pystr) (nlink : Z) (opened : option file_view) (content : list N) : Prop :=
  is_ok (_validate_restore_storage_key key) = true
  /\ exists view, opened = Some view /\ fv_regular view = true /\ fv_content view = Some content
     /\ fv_final_size view = Z.of_nat (length content)
     /\ (_is_stage_marker key = true -> nlink = 1 /\ fv_nlink view = 1 /\ content = []).

Definition lock_ok (entry : pystr * node) : Prop :=
  fullmatch _LOCK_NAME (fst entry) = true /\ exists nlink opened, snd entry = File nlink opened.
(** The directory of owner locks holds only lock files. *)
Definition control_ok (n : node) : Prop := exists children, n = Dir children true /\ Forall lock_ok children.

Definition is_control_entry (components : list pystr) (name : pystr) : Prop := components = [] /\ name = _CONTROL_DIRECTORY.
#[local] Instance is_control_entry_dec components name : Decision (is_control_entry components name).
Proof. unfold is_control_entry. apply _. Defined.

(** A directory below [components] whose listing is complete and holds only
    clean directories and files, besides the locks. *)
Inductive clean_tree : list pystr -> node -> Prop :=
  | clean_dir components children :
      (length components <= 32)%nat ->
      (forall name child, (name, child) ∈ children ->
        (is_control_entry components name /\ control_ok child)
        \/ (~ is_control_entry components name
            /\ ((exists nlink opened content, child = File nlink opened
                 /\ file_ok (join_slash (components ++ [name])) nlink opened content)
                \/ clean_tree (components ++ [name]) child))) ->
      clean_tree components (Dir children true).

Lemma entry_of_valid root_name key content :
  fullmatch _ROOT_NAME root_name = true -> is_ok (_validate_restore_storage_key key) = true ->
  (_is_stage_marker key = true -> content = []) -> entry_init (entry_of root_name key content) = Ok (entry_of root_name key content).
Proof.
  intros Hr Hk Hm. unfold entry_init, entry_of. cbn -[sha256_hex _validate_restore_storage_key _is_stage_marker]. rewrite Hr.
  destruct (_validate_restore_storage_key key) as [k|]; [|done]. cbn -[sha256_hex _is_stage_marker].
  rewrite (proj2 (Z.ltb_ge _ _)) by lia. cbn -[sha256_hex _is_stage_marker].
  replace (is_sha256 (sha256_hex content)) with true by (symmetry; apply sha256_hex_format). cbn -[sha256_hex _is_stage_marker].
  destruct (_is_stage_marker key); [|done]. by rewrite (Hm eq_refl).
Qed.

Lemma file_entry_Ok root_name components nlink opened e :
  fullmatch _ROOT_NAME root_name = true ->
  file_entry root_name components nlink opened = Ok e <->
  exists content, file_ok (join_slash components) nlink opened content /\ e = entry_of root_name (join_slash components) content.
Proof.
  intros Hr. unfold file_entry, file_ok. set (key := join_slash components).
  destruct (_validate_restore_storage_key key) as [k|x] eqn:Hk.
  2: { split; [intros He; by inv_refused|by intros (c & [] & _)]. }
  split.
  - intros He. unfold _file_evidence in He. inv_refused. destruct opened as [view|]; [|done]. inv_refused.
    destruct (fv_content view) as [content|] eqn:Hc; [|done]. inv_refused.
    match goal with Hx : content = ?v |- _ => subst v end. subst. cbn [fst snd] in *. split_bools. subst.
    exists content. assert (_is_stage_marker key = true -> nlink = 1 /\ fv_nlink view = 1 /\ content = []) as Hm.
    { intros Hm. rewrite Hm in *. cbn [andb] in *. split_bools. split_and!; [done|done|]. destruct content; [done|]. cbn in *. lia. }
    split; [split; [done|]; exists view; by split_and!|].
    unfold entry_of. unfold entry_init in He. by inv_ok.
  - intros (content & (_ & view & -> & Hreg & Hc & Hsz & Hm) & ->). unfold _file_evidence. rewrite Hreg, Hc, Hsz. cbn -[sha256_hex].
    rewrite Z.eqb_refl. destruct (_is_stage_marker key) eqn:Hs.
    + destruct (Hm eq_refl) as (-> & -> & ->). cbn -[sha256_hex]. rewrite (bool_decide_eq_true_2 (sha256_hex [] = _)) by done.
      cbn -[sha256_hex]. apply plain_Ok, (entry_of_valid root_name key []); [done|by rewrite Hk|done].
    + cbn -[sha256_hex]. apply plain_Ok, (entry_of_valid root_name key content); [done|by rewrite Hk|by rewrite Hs].
Qed.

Lemma control_Ok n x : _verify_control_directory n = Ok x <-> control_ok n.
Proof.
  unfold control_ok. destruct x, n as [| |children complete|nlink opened|]; cbn;
    try (split; [intros Hr; by inv_refused|by intros (c & ? & _)]).
  rewrite os_refused_Ok.
  assert (forall entry, check_lock entry = Ok () <-> lock_ok entry) as Hlock.
  { intros [name child]. unfold check_lock, lock_ok. cbn. destruct child; cbn;
      try (split; [intros Hr; by inv_refused|by intros (_ & ? & ? & ?)]).
    rewrite inventory_refused_if_Ok, negb_false_iff. split; [eauto|by intros [? _]]. }
  split.
  - intros Hr. apply bind_Ok_inv in Hr as ([] & Hc%check_each_Ok & Hcomp). destruct complete; [|done]. exists children. split; [done|].
    eapply Forall_impl; [exact Hc|]. intros e. by apply Hlock.
  - intros (c & [= -> ->] & HF). rewrite (proj2 (check_each_Ok check_lock c ())); [done|].
    eapply Forall_impl; [exact HF|]. intros e. by apply Hlock.
Qed.

(** ** The walk *)

(** What one entry of a directory contributes, and the loop over them. *)
Definition child_entries (root_name : pystr) (components : list pystr) (name : pystr) (child : node)
  : outcome failure (list RestoreBlobEntry) :=
  if bool_decide (components = []) && bool_decide (name = _CONTROL_DIRECTORY)
  then _verify_control_directory child ;; Ok []
  else
    match child with
    | Unstatable => Err OSError
    | Link => inventory_refused "blob_link_unsafe"
    | Dir _ _ => _walk_root root_name (components ++ [name]) child
    | File nlink opened => e ← file_entry root_name (components ++ [name]) nlink opened; Ok [e]
    | Special => inventory_refused "blob_object_unsafe"
    end.
Fixpoint walk_entries (root_name : pystr) (components : list pystr) (complete : bool) (entries : list (pystr * node))
  : outcome failure (list RestoreBlobEntry) :=
  match entries with
  | [] => if complete then Ok [] else Err OSError
  | (name, child) :: entries' =>
      found ← child_entries root_name components name child;
      others ← walk_entries root_name components complete entries';
      Ok (found ++ others)
  end.

Lemma walk_dir root_name components children complete :
  _walk_root root_name components (Dir children complete)
  = (inventory_refused_if (_MAX_RESTORE_COMPONENTS <? length components)%nat "blob_membership_mismatch" ;;
     os_refused "blob_root_unavailable" (walk_entries root_name components complete children)).
Proof.
  cbn [_walk_root]. destruct (inventory_refused_if _ _) as [[]|]; [|done]. unfold mbind, outcome_mbind, outcome_bind. f_equal.
  induction children as [|[name child] children IH]; [done|]. cbn [walk_entries]. rewrite <- IH. reflexivity.
Qed.

Lemma walk_entries_Ok root_name components complete children es :
  walk_entries root_name components complete children = Ok es <->
  complete = true /\ exists ess, Forall2 (fun nc x => child_entries root_name components (fst nc) (snd nc) = Ok x) children ess
    /\ es = concat ess.
Proof.
  revert es. induction children as [|[name child] children IH]; intros es; cbn [walk_entries].
  - destruct complete; split; [intros [= <-]|intros (_ & ess & HF & ->)|done|by intros [? _]].
    + split; [done|]. exists []. by split; [constructor|].
    + by inversion HF.
  - split.
    + intros (x & Hx & (y & (Hc & ess & HF & ->)%IH & [= <-])%bind_Ok_inv)%bind_Ok_inv. split; [done|].
      exists (x :: ess). split; [by constructor|done].
    + intros (Hc & ess & HF & ->). inversion HF as [|? x ? ess' Hx HF']; subst. cbn [fst snd] in Hx. rewrite Hx. cbn.
      rewrite (proj2 (IH (concat ess'))) by eauto. done.
Qed.

Lemma walk_Ok root_name components children complete es :
  _walk_root root_name components (Dir children complete) = Ok es <->
  (length components <= 32)%nat /\ complete = true
  /\ exists ess, Forall2 (fun nc x => child_entries root_name components (fst nc) (snd nc) = Ok x) children ess /\ es = concat ess.
Proof.
  rewrite walk_dir. split.
  - intros ([] & Hg & Hw)%bind_Ok_inv. apply inventory_refused_if_Ok, Nat.ltb_ge in Hg. apply os_refused_Ok, walk_entries_Ok in Hw. done.
  - intros [Hl Hw]. rewrite (proj2 (inventory_refused_if_Ok _ _ ())) by (by apply Nat.ltb_ge). cbn.
    by apply os_refused_Ok, walk_entries_Ok.
Qed.

Lemma walk_leaf root_name components n es : _walk_root root_name components n = Ok es -> exists children, n = Dir children true.
Proof.
  destruct n as [| |children complete| |]; try (cbn; intros ([] & _ & Hw)%bind_Ok_inv; done).
  intros (_ & -> & _)%walk_Ok. eauto.
Qed.

Section Named.
Context (root_name : pystr) (Hroot : fullmatch _ROOT_NAME root_name = true).

Lemma child_cases components name child es :
  child_entries root_name components name child = Ok es <->
  (is_control_entry components name /\ control_ok child /\ es = [])
  \/ (~ is_control_entry components name
      /\ ((exists nlink opened content, child = File nlink opened
             /\ file_ok (join_slash (components ++ [name])) nlink opened content
             /\ es = [entry_of root_name (join_slash (components ++ [name])) content])
          \/ _walk_root root_name (components ++ [name]) child = Ok es)).
Proof.
  unfold child_entries. rewrite <- bool_decide_and. change (_ /\ _) with (is_control_entry components name) at 1.
  case_bool_decide as Hc.
  - split; [intros ([] & Hx%control_Ok & [= <-])%bind_Ok_inv; by left|]. intros [(_ & Hx & ->)|[? _]]; [|done].
    by rewrite (proj2 (control_Ok child ())).
  - split.
    + intros He. right. split; [done|]. destruct child; [done|by inv_refused|by right| |by inv_refused].
      apply bind_Ok_inv in He as (e & (content & Hf & ->)%file_entry_Ok & [= <-]); [|done]. left. eauto 10.
    + intros [[? _]|[_ [(nlink & opened & content & -> & Hf & ->)|Hw]]]; [done| |].
      * rewrite (proj2 (file_entry_Ok root_name (components ++ [name]) nlink opened (entry_of root_name (join_slash (components ++ [name])) content) Hroot));
          [done|]. eauto.
      * pose proof Hw as (children & ->)%walk_leaf. exact Hw.
Qed.

(** The walk returns exactly for clean roots. *)
Lemma walk_clean n components : (exists es, _walk_root root_name components n = Ok es) <-> clean_tree components n.
Proof.
  revert components. induction n as [| |children complete IH|nlink opened|] using node_nested_ind; intros components;
    try (split; [intros [es (children & ?)%walk_leaf]; done|inversion 1]).
  setoid_rewrite walk_Ok. split.
  - intros (es & Hl & -> & ess & HF & _). constructor; [done|]. intros name child Hin.
    apply list_elem_of_lookup in Hin as [i Hi]. destruct (Forall2_lookup_l _ _ _ _ _ HF Hi) as (x & _ & Hx%child_cases). cbn [fst snd] in Hx.
    destruct Hx as [(Hc & Hok & _)|[Hc [(nl & op & content & Hch & Hf & _)|Hw]]]; [by left|right|right]; (split; [done|]).
    + left. eauto.
    + right. rewrite Forall_forall in IH. apply (IH (name, child)); [by eapply list_elem_of_lookup_2|eauto].
  - inversion 1 as [? ? Hl Hall]; subst.
    assert (exists ess, Forall2 (fun nc x => child_entries root_name components (fst nc) (snd nc) = Ok x) children ess) as [ess HF].
    { apply Forall2_exists_l'. apply Forall_forall. intros [name child] Hin. cbn. destruct (Hall name child Hin) as [[Hc Hok]|[Hc Hx]].
      - exists []. apply child_cases. by left.
      - destruct Hx as [(nl & op & content & -> & Hf)|Hcl].
        + eexists. apply child_cases. right. split; [done|]. left. eauto 10.
        + rewrite Forall_forall in IH. apply (IH (name, child)) in Hcl as [es Hes]; [|done]. exists es. apply child_cases. right. auto. }
    exists (concat ess). eauto.
Qed.

(** The bytes of a file at a path below a directory, the locks apart. *)
Definition blob_at (components : list pystr) (n : node) (path : list pystr) (content : list N) : Prop :=
  exists nlink view, node_at n path (File nlink (Some view)) /\ fv_content view = Some content
    /\ (components = [] -> head path <> Some _CONTROL_DIRECTORY).

Lemma blob_at_file components children complete name nlink opened content :
  (name, File nlink opened) ∈ children -> ~ is_control_entry components name ->
  file_ok (join_slash (components ++ [name])) nlink opened content ->
  blob_at components (Dir children complete) [name] content.
Proof.
  intros Hin Hc (_ & view & -> & _ & Hv & _). exists nlink, view. split_and!; [by econstructor|done|].
  intros -> [= ->]. by apply Hc.
Qed.

(** The walk finds exactly the files of a root. *)
Lemma walk_elem n components es e :
  _walk_root root_name components n = Ok es ->
  e ∈ es <-> exists path content, blob_at components n path content /\ e = entry_of root_name (join_slash (components ++ path)) content.
Proof.
  revert components es. induction n as [| |children complete IH|nlink opened|] using node_nested_ind; intros components es Hw;
    try (pose proof Hw as (c & ?)%walk_leaf; done).
  apply walk_Ok in Hw as (_ & -> & ess & HF & ->). rewrite elem_of_concat_iff. rewrite Forall_forall in IH. split.
  - intros (x & He & [i Hi]%list_elem_of_lookup). destruct (Forall2_lookup_r _ _ _ _ _ HF Hi) as ([name child] & Hin & Hx%child_cases).
    apply list_elem_of_lookup_2 in Hin. cbn [fst snd] in Hx.
    destruct Hx as [(_ & _ & ->)|[Hc [(nl & op & content & -> & Hf & ->)|Hw]]]; [by apply elem_of_nil in He| |].
    + apply list_elem_of_singleton in He as ->. exists [name], content. split; [by eapply blob_at_file|done].
    + apply (IH (name, child) Hin) in Hw as Hx. apply Hx in He as (path & content & (nl & view & Hat & Hv & Hp) & ->).
      exists (name :: path), content. split; [|by rewrite <- app_assoc]. exists nl, view. split_and!; [by econstructor|done|].
      intros -> [= ->]. by apply Hc.
  - intros (path & content & (nl & view & Hat & Hv & Hp) & ->).
    inversion Hat as [? ? name child Hin|? ? name child path' ? Hin Hat']; subst;
      apply list_elem_of_lookup in Hin as [i Hi]; destruct (Forall2_lookup_l _ _ _ _ _ HF Hi) as (x & Hx & Hch%child_cases);
      apply list_elem_of_lookup_2 in Hx, Hi; cbn [fst snd] in Hch; exists x; (split; [|done]);
      destruct Hch as [([-> ->] & _ & _)|[Hc [(nl' & op & content' & Heq & Hf & ->)|Hw]]]; try (by specialize (Hp eq_refl)).
    + injection Heq as <- <-. destruct Hf as (_ & view' & [= <-] & _ & Hv' & _). rewrite Hv in Hv'. injection Hv' as <-. by left.
    + pose proof Hw as (c & ?)%walk_leaf. done.
    + subst. inversion Hat'.
    + apply (IH (name, child) Hi) in Hw as Hx'. apply Hx'. exists path', content. split; [|by rewrite <- app_assoc].
      exists nl, view. split_and!; [done|done|]. intros Hnil. by apply app_eq_nil in Hnil as [_ ?].
Qed.

(** Nothing in a clean root is hidden: every node is a listed directory or a
    readable file. *)
Lemma clean_nodes components n path m :
  clean_tree components n -> node_at n path m -> (components = [] -> head path <> Some _CONTROL_DIRECTORY) ->
  (exists children, m = Dir children true)
  \/ (exists nlink opened content, m = File nlink opened /\ file_ok (join_slash (components ++ path)) nlink opened content).
Proof.
  intros Hc Hat. revert components Hc. induction Hat as [children complete name child Hin|children complete name child path n Hin Hat IH];
    intros components Hc Hp; inversion Hc as [? ? _ Hall]; subst; destruct (Hall name child Hin) as [[[-> ->] _]|[Hn Hx]];
    try (by specialize (Hp eq_refl)).
  - destruct Hx as [(nl & op & content & -> & Hf)|Hcl]; [right; eauto 10|]. inversion Hcl; subst. left. eauto.
  - destruct Hx as [(nl & op & content & -> & Hf)|Hcl]; [inversion Hat|].
    destruct (IH _ Hcl) as [?|(nl & op & content & -> & Hf)]; [intros Hnil; by apply app_eq_nil in Hnil as [_ ?]|by left|].
    right. rewrite <- app_assoc in Hf. eauto 10.
Qed.

Lemma child_keys components name child es e :
  tree_wf child -> child_entries root_name components name child = Ok es -> e ∈ es ->
  exists path, Forall name_ok path /\ re_storage_key e = join_slash (components ++ name :: path).
Proof.
  intros Hwf Hx He. apply child_cases in Hx as [(_ & _ & ->)|[_ [(nl & op & content & -> & Hf & ->)|Hw]]]; [by apply elem_of_nil in He| |].
  - apply list_elem_of_singleton in He as ->. exists []. by split; [constructor|].
  - apply (walk_elem _ _ _ e Hw) in He as (path & content & (nl & view & Hat & _) & ->). exists path.
    split; [by apply (node_at_names _ _ _ Hwf) in Hat as [_ ?]|]. by rewrite <- app_assoc.
Qed.

(** Different files have different keys. *)
Lemma walk_keys_unique n components es :
  tree_wf n -> Forall name_ok components -> _walk_root root_name components n = Ok es -> NoDup (re_storage_key <$> es).
Proof.
  revert components es. induction n as [| |children complete IH|nlink opened|] using node_nested_ind; intros components es Hwf Hcs Hw;
    try (pose proof Hw as (c & ?)%walk_leaf; done).
  apply walk_Ok in Hw as (_ & -> & ess & HF & ->). inversion Hwf as [? ? Hnd Hall|? Hno]; subst; [|by edestruct Hno].
  clear Hwf. induction HF as [|[name child] x children ess Hx HF IHc]; [constructor|]. cbn [concat]. rewrite fmap_app.
  apply Forall_cons_1 in IH as [IHx IH]. apply Forall_cons_1 in Hall as [[Hname Hwf] Hall]. apply NoDup_cons in Hnd as [Hni Hnd].
  cbn [fst snd] in Hname, Hwf, Hni, Hx.
  apply NoDup_app. split_and!.
  - apply child_cases in Hx as [(_ & _ & ->)|[_ [(nl & op & content & -> & Hf & ->)|Hw]]]; [constructor|apply NoDup_singleton|].
    apply (IHx (components ++ [name])); [done| |done]. apply Forall_app. split; [done|by apply Forall_singleton].
  - intros k (e & -> & He)%list_elem_of_fmap (e2 & Hk & He2)%list_elem_of_fmap.
    destruct (child_keys components name child x e Hwf Hx He) as (path & Hp & Hkey). rewrite Hkey in Hk. clear Hkey.
    apply elem_of_concat_iff in He2 as (y & Hy & [i Hi]%list_elem_of_lookup).
    destruct (Forall2_lookup_r _ _ _ _ _ HF Hi) as ([name2 child2] & Hin & Hx2). apply list_elem_of_lookup_2 in Hin. cbn [fst snd] in Hx2.
    rewrite Forall_forall in Hall. destruct (Hall _ Hin) as [Hname2 Hwf2]. cbn [fst snd] in Hname2, Hwf2.
    destruct (child_keys components name2 child2 y e2 Hwf2 Hx2 Hy) as (path2 & Hp2 & Hk2).
    rewrite Hk2 in Hk. apply join_inj in Hk; [|by destruct components|by destruct components|
      apply Forall_app; by split; [|constructor]|apply Forall_app; by split; [|constructor]].
    apply app_inv_head in Hk. injection Hk as Heq _. apply Hni, list_elem_of_fmap. exists (name2, child2). by split.
  - by apply IHc.
Qed.
End Named.
End Clean.

(** ** The inventory of a root *)

Definition keyed (es : list RestoreBlobEntry) : list (pystr * RestoreBlobEntry) := (fun e => (re_storage_key e, e)) <$> es.

Lemma keyed_keys es : (keyed es).*1 = re_storage_key <$> es.
Proof. unfold keyed. rewrite <- list_fmap_compose. by apply list_fmap_ext. Qed.

Lemma dict_put_new {A} k (v : A) d : k ∉ d.*1 -> dict_put k v d = d ++ [(k, v)].
Proof.
  induction d as [|[k' v'] d IH]; [done|]. cbn. intros Hk. rewrite bool_decide_eq_false_2 by set_solver. by rewrite IH by set_solver.
Qed.

Lemma by_key_unique es : NoDup (re_storage_key <$> es) -> by_key es = keyed es.
Proof.
  unfold by_key. intros Hn.
  assert (forall seen, NoDup (re_storage_key <$> seen ++ es) ->
    fold_left (fun d e => dict_put (re_storage_key e) e d) es (keyed seen) = keyed (seen ++ es)) as Hgen; [|by apply (Hgen [])].
  clear Hn. induction es as [|e es IH]; intros seen Hn; cbn; [by rewrite app_nil_r|].
  rewrite dict_put_new.
  - change (keyed seen ++ [(re_storage_key e, e)]) with (keyed seen ++ keyed [e]). unfold keyed at 1 2. rewrite <- fmap_app.
    change ((fun e => (re_storage_key e, e)) <$> seen ++ [e]) with (keyed (seen ++ [e])).
    rewrite (IH (seen ++ [e])); [by rewrite <- app_assoc|by rewrite <- app_assoc].
  - rewrite keyed_keys. rewrite fmap_app in Hn. apply NoDup_app in Hn as (_ & Hn & _). intros Hk. apply (Hn _ Hk). by left.
Qed.

Lemma dict_get_keyed es k e : NoDup (re_storage_key <$> es) -> dict_get k (keyed es) = Some e <-> e ∈ es /\ re_storage_key e = k.
Proof.
  induction es as [|x es IH]; cbn [fmap list_fmap]; [unfold dict_get; cbn; set_solver|]. intros [Hx Hn]%NoDup_cons.
  specialize (IH Hn). unfold dict_get, keyed in *. cbn [fmap list_fmap find fst].
  case_bool_decide as Hk; cbn [fmap option_fmap option_map snd].
  - split; [intros [= <-]; split; [by left|done]|]. intros [[->|He]%elem_of_cons Hek]; [done|].
    exfalso. apply Hx. subst. apply list_elem_of_fmap. by exists e.
  - fold (dict_get (A := RestoreBlobEntry)). rewrite IH. set_solver.
Qed.

Lemma same_keys_spec {A B} (a : list (pystr * A)) (b : list (pystr * B)) :
  same_keys a b = true <-> forall k, k ∈ a.*1 <-> k ∈ b.*1.
Proof.
  unfold same_keys. rewrite andb_true_iff, !forallb_forall. setoid_rewrite bool_decide_eq_true. setoid_rewrite <- list_elem_of_In.
  split; [intros [H1 H2] k; split; auto|]. intros Hk. split; intros k; apply Hk.
Qed.

Lemma check_entry_Ok expected k e x :
  NoDup (re_storage_key <$> expected) ->
  check_entry (keyed expected) (k, e) = Ok x <->
  exists wanted, wanted ∈ expected /\ re_storage_key wanted = k /\ re_size_bytes e = re_size_bytes wanted
    /\ re_sha256 e = re_sha256 wanted.
Proof.
  intros Hn. unfold check_entry. cbn [fst snd]. destruct (dict_get k (keyed expected)) as [w|] eqn:Hg.
  - apply dict_get_keyed in Hg as [Hw <-]; [|done]. split.
    + intros Hc. inv_refused. split_bools. eauto 10.
    + intros (w' & Hw' & Hk & Hs & Hd). destruct x.
      assert (w' = w) as -> by (assert (dict_get (re_storage_key w) (keyed expected) = Some w') as H1 by (by apply dict_get_keyed);
        assert (dict_get (re_storage_key w) (keyed expected) = Some w) as H2 by (by apply dict_get_keyed); congruence).
      rewrite Hs, Hd, Z.eqb_refl, bool_decide_eq_true_2 by done. done.
  - split; [done|]. intros (w & Hw & Hk & _). assert (dict_get k (keyed expected) = Some w) by (by apply dict_get_keyed). congruence.
Qed.

(** The comparison accepts exactly the same entries. *)
Lemma comparison_exact name es expected x :
  NoDup (re_storage_key <$> es) -> NoDup (re_storage_key <$> expected) ->
  Forall (fun e => re_root e = name) es -> Forall (fun e => re_root e = name) expected ->
  same_keys (keyed es) (keyed expected) = true /\ check_each (check_entry (keyed expected)) (keyed es) = Ok x
  <-> forall e, e ∈ es <-> e ∈ expected.
Proof.
  intros N1 N2 R1 R2. rewrite same_keys_spec, check_each_Ok, !keyed_keys. rewrite Forall_forall in R1, R2. split.
  - intros [Hk Hc]. rewrite Forall_forall in Hc.
    assert (forall e, e ∈ es -> e ∈ expected) as Hsub.
    { intros e He. assert ((re_storage_key e, e) ∈ keyed es) as Hin by (apply list_elem_of_fmap; by exists e).
      apply Hc, check_entry_Ok in Hin as (w & Hw & H1 & H2 & H3); [|done].
      assert (e = w) as ->; [|done]. pose proof (R1 e He). pose proof (R2 w Hw). destruct e, w. cbn in *. congruence. }
    intros e. split; [apply Hsub|]. intros He.
    assert (re_storage_key e ∈ re_storage_key <$> es) as (e' & Hkey & He')%list_elem_of_fmap
      by (apply Hk, list_elem_of_fmap; by exists e).
    assert (e = e') as ->; [|done]. apply Hsub in He' as He2.
    assert (Some e = Some e') as [= ->]; [|done].
    rewrite <- (proj2 (dict_get_keyed expected (re_storage_key e) e N2)), <- (proj2 (dict_get_keyed expected (re_storage_key e) e' N2)); done.
  - intros Heq. split; [intros k; rewrite !list_elem_of_fmap; setoid_rewrite Heq; done|]. apply Forall_forall.
    intros [k e] (e' & [= -> ->] & He)%list_elem_of_fmap. apply check_entry_Ok; [done|]. exists e'. split_and!; try done. by apply Heq.
Qed.

Lemma same_entries_perm es expected :
  NoDup (re_storage_key <$> es) -> NoDup (re_storage_key <$> expected) -> (forall e, e ∈ es <-> e ∈ expected) -> es ≡ₚ expected.
Proof. intros N1%NoDup_fmap_1 N2%NoDup_fmap_1. by apply NoDup_Permutation. Qed.

Lemma total_size_perm es es' : es ≡ₚ es' -> total_size es = total_size es'.
Proof. unfold total_size. induction 1; cbn; lia. Qed.

(** ** The scan of a root *)

Section Scan.
Context `{PyText}.

(** The entries of a root are the files that it holds. *)
Definition holds_exactly (name : pystr) (root : node) (es : list RestoreBlobEntry) : Prop :=
  forall e, e ∈ es <-> exists path content, blob_at [] root path content /\ e = entry_of name (join_slash path) content.

(** A root whose store opens, keeps its identity and closes, whose path is a
    directory and not a link, and which is clean and holds exactly [es]. *)
Record root_scanned (name : pystr) (view : root_view) (es : list RestoreBlobEntry) (root_id : pystr) : Prop := {
  rs_open : rv_open view = Ok ();
  rs_identity : rv_identity view = Ok root_id;
  rs_supplied : exists children complete, rv_supplied view = Dir children complete;
  rs_tree : exists root, rv_resolved view = Some root /\ clean_tree [] root /\ holds_exactly name root es;
  rs_identity_again : rv_identity_again view = Ok root_id;
  rs_close : rv_close view = Ok ()
}.

Lemma scan_store_Ok name view root_id es :
  scan_store name view = Ok (root_id, es) <->
  rv_open view = Ok () /\ rv_identity view = Ok root_id /\ (exists children complete, rv_supplied view = Dir children complete)
  /\ (exists root, rv_resolved view = Some root /\ _walk_root name [] root = Ok es)
  /\ rv_identity_again view = Ok root_id /\ rv_close view = Ok ().
Proof.
  unfold scan_store. split.
  - intros Hs. destruct (scan_body name view) as [[i o]|x] eqn:Hb.
    2: { destruct (is_joint x), (caught x), (rv_open view), (rv_close view) as [|y]; try destruct (is_exception y); by inv_refused. }
    unfold scan_body in Hb. apply bind_Ok_inv in Hb as ([] & Ho%plain_Ok & Hb). rewrite Ho in Hs.
    destruct (rv_close view) as [[]|y]; [|destruct (is_exception y); by inv_refused]. injection Hs as -> ->.
    apply bind_Ok_inv in Hb as (i & Hi%plain_Ok & Hb). destruct (rv_supplied view) as [| |c b| |]; inv_refused; [].
    destruct (rv_resolved view) as [root|]; [|done]. inv_refused. split_bools. subst. split_and!; eauto.
  - intros (Ho & Hi & (c & b & Hs) & (root & Hr & Hw) & Ha & Hc). unfold scan_body. rewrite Ho, Hi, Hs, Hr, Hc. cbn -[_walk_root].
    rewrite Hw. cbn. rewrite Ha. cbn. by rewrite bool_decide_eq_true_2.
Qed.

Lemma walk_roots name n components es : _walk_root name components n = Ok es -> fullmatch _ROOT_NAME name = true ->
  Forall (fun e => re_root e = name) es.
Proof.
  intros Hw Hn. apply Forall_forall. intros e He. apply (walk_elem name Hn _ _ _ _ Hw) in He as (p & c & _ & ->). done.
Qed.

Lemma scan_root_exact name view expected root_id count size :
  fullmatch _ROOT_NAME name = true -> (forall root, rv_resolved view = Some root -> tree_wf root) ->
  NoDup (re_storage_key <$> expected) -> Forall (fun e => re_root e = name) expected ->
  _scan_root name view (keyed expected) = Ok (root_id, count, size) <->
  root_scanned name view expected root_id /\ count = Z.of_nat (length expected) /\ size = total_size expected.
Proof.
  intros Hname Hwf Hn Hr. unfold _scan_root. split.
  - intros ([i es] & Hs & Hrest)%bind_Ok_inv. apply scan_store_Ok in Hs as (Ho & Hi & Hsup & (root & Hres & Hw) & Ha & Hc).
    cbn [fst snd] in Hrest. pose proof (walk_keys_unique name Hname root [] es (Hwf root Hres) (List.Forall_nil _) Hw) as Hnes.
    rewrite by_key_unique in Hrest by done. apply bind_Ok_inv in Hrest as ([] & Hsame & Hrest).
    apply inventory_refused_if_Ok, negb_false_iff in Hsame. apply bind_Ok_inv in Hrest as (x & Hch & [= -> <- <-]).
    pose proof (proj1 (comparison_exact name es expected x Hnes Hn (walk_roots _ _ _ _ Hw Hname) Hr) (conj Hsame Hch)) as Heq.
    pose proof (same_entries_perm _ _ Hnes Hn Heq) as Hp. split_and!.
    + split; try done. exists root. split_and!; [done|by apply (walk_clean name Hname); eauto|].
      intros e. rewrite <- Heq. apply (walk_elem name Hname _ _ _ e Hw).
    + unfold keyed. by rewrite length_fmap, Hp.
    + unfold keyed. rewrite <- list_fmap_compose, (list_fmap_ext _ id), list_fmap_id by done. by apply total_size_perm.
  - intros ([Ho Hi Hsup (root & Hres & [es Hw]%(walk_clean name Hname) & Hex) Ha Hc] & -> & ->).
    pose proof (walk_keys_unique name Hname root [] es (Hwf root Hres) (List.Forall_nil _) Hw) as Hnes.
    assert (forall e, e ∈ es <-> e ∈ expected) as Heq by (intros e; rewrite (Hex e); apply (walk_elem name Hname _ _ _ e Hw)).
    pose proof (same_entries_perm _ _ Hnes Hn Heq) as Hp.
    rewrite (proj2 (scan_store_Ok name view root_id es)) by eauto 10. cbn [mbind outcome_mbind outcome_bind fst snd].
    rewrite by_key_unique by done.
    destruct (proj2 (comparison_exact name es expected () Hnes Hn (walk_roots _ _ _ _ Hw Hname) Hr) Heq) as [-> ->]. cbn.
    unfold keyed. rewrite length_fmap, <- list_fmap_compose, (list_fmap_ext _ id es), list_fmap_id by done.
    by rewrite (Permutation_length Hp), (total_size_perm es expected).
Qed.
End Scan.
