(* ===== verification/JointRestoreClaims.v ===== *)
(** * Properties of joint restore and recovery

    A restore is qualified exactly when the roots hold the inventory and the
    endpoint is writable; its evidence stands for one inventory and one fence;
    and a recovery retires every session, or says that it did not. *)

From S2P Require Import Prelude Regex Errors Domain Sha256 Json JsonDecode Pg Revision Migrations MigrationLineage Outbox AuditDelivery AuditClaims AuditDeliveryClaims BlobKeys Compatibility EndpointReadiness EndpointSpec EndpointClaims JointRestore JointRestoreSpec Pool Transaction FaultyDriver Recovery.

Section Inventory.
Context `{PyText}.

Definition entry_key (e : RestoreBlobEntry) : pystr * pystr := (re_root e, re_storage_key e).
Definition folded_key (e : RestoreBlobEntry) : pystr * pystr := (re_root e, casefold (re_storage_key e)).

Lemma check_entries_Ok roots seen folded es x :
  check_entries roots seen folded es = Ok x <->
  Forall (fun e => (re_root e ∈ roots) /\ ~ (entry_key e ∈ seen) /\ ~ (folded_key e ∈ folded)) es
  /\ NoDup (entry_key <$> es) /\ NoDup (folded_key <$> es).
Proof.
  destruct x. revert seen folded. induction es as [|e es IH]; intros seen folded; cbn [check_entries].
  - split; [|done]. intros _. split_and!; constructor.
  - rewrite !fmap_cons, Forall_cons, !NoDup_cons. change (re_root e, re_storage_key e) with (entry_key e).
    change (re_root e, casefold (re_storage_key e)) with (folded_key e). split.
    + intros ([] & Hr & ([] & Hd & (HF & Hn & Hf)%IH)%bind_Ok_inv)%bind_Ok_inv.
      apply input_refused_if_Ok in Hr, Hd. split_bools. rewrite Forall_forall in HF. split_and!; try done.
      * apply Forall_forall. intros e' He'. destruct (HF e' He') as (? & Ha & Hb).
        apply not_elem_of_cons in Ha as [_ ?], Hb as [_ ?]. done.
      * intros (e' & He & He')%list_elem_of_fmap. destruct (HF e' He') as (_ & Ha & _). apply Ha. rewrite He. left.
      * intros (e' & He & He')%list_elem_of_fmap. destruct (HF e' He') as (_ & _ & Hb). apply Hb. rewrite He. left.
    + intros ([(Hr & Hk & Hc) HF] & [Hk' Hn] & Hc' & Hf).
      rewrite (bool_decide_eq_true_2 (re_root e ∈ roots)), (bool_decide_eq_false_2 (entry_key e ∈ seen)),
        (bool_decide_eq_false_2 (folded_key e ∈ folded)) by done. cbn. apply IH. split_and!; [|done|done].
      rewrite Forall_forall in HF |- *. intros e' He'. destruct (HF e' He') as (? & ? & ?). split_and!; [done|..];
        (intros [Heq|?]%elem_of_cons; [|done]).
      * apply Hk'. rewrite <- Heq. apply list_elem_of_fmap. by exists e'.
      * apply Hc'. rewrite <- Heq. apply list_elem_of_fmap. by exists e'.
Qed.

(** The entries of one root. *)
Definition of_root (name : pystr) (es : list RestoreBlobEntry) : list RestoreBlobEntry :=
  List.filter (fun e => bool_decide (re_root e = name)) es.

Lemma of_root_elem name es e : e ∈ of_root name es <-> e ∈ es /\ re_root e = name.
Proof. unfold of_root. by rewrite !list_elem_of_In, filter_In, bool_decide_eq_true. Qed.

Lemma of_root_roots name es : Forall (fun e => re_root e = name) (of_root name es).
Proof. apply Forall_forall. by intros e [_ ?]%of_root_elem. Qed.

Lemma of_root_keys name es : NoDup (entry_key <$> es) -> NoDup (re_storage_key <$> of_root name es).
Proof.
  induction es as [|e es IH]; [constructor|]. rewrite fmap_cons, NoDup_cons. intros [He Hn]. cbn. case_bool_decide as Hr; [|by apply IH].
  rewrite fmap_cons. apply NoDup_cons. split; [|by apply IH]. intros (e' & Hk & [He' Hr']%of_root_elem)%list_elem_of_fmap.
  apply He, list_elem_of_fmap. exists e'. split; [|done]. unfold entry_key. by rewrite Hk, Hr, Hr'.
Qed.

Lemma expected_for_keyed name es : NoDup (entry_key <$> es) -> expected_for es name = keyed (of_root name es).
Proof. intros Hn. apply by_key_unique. by apply of_root_keys. Qed.

(** The entries of all roots. *)
Definition sum_roots {A} (f : list RestoreBlobEntry -> Z) (es : list RestoreBlobEntry) (roots : list (pystr * A)) : Z :=
  foldr (fun root n => f (of_root (fst root) es) + n) 0 roots.

Lemma sum_roots_nil {A} f (roots : list (pystr * A)) : f [] = 0 -> sum_roots f [] roots = 0.
Proof.
  intros Hf. induction roots as [|r roots IH]; [done|]. unfold sum_roots in *. cbn [foldr]. rewrite IH.
  change (of_root (fst r) []) with (@nil RestoreBlobEntry). by rewrite Hf.
Qed.

Lemma sum_roots_cons {A} f w e es (roots : list (pystr * A)) :
  (forall l, f (e :: l) = w + f l) -> NoDup (roots.*1) ->
  sum_roots f (e :: es) roots = (if bool_decide (re_root e ∈ roots.*1) then w else 0) + sum_roots f es roots.
Proof.
  intros Hf. induction roots as [|[name path] roots IH]; [done|]. rewrite fmap_cons, NoDup_cons. intros [Hn Hnd].
  unfold sum_roots in *. cbn [foldr fst]. rewrite (IH Hnd).
  change (of_root name (e :: es)) with (if bool_decide (re_root e = name) then e :: of_root name es else of_root name es).
  destruct (decide (re_root e = name)) as [Hr|Hr].
  - rewrite bool_decide_eq_true_2 by done. subst. rewrite Hf, (bool_decide_eq_false_2 (_ ∈ roots.*1)), (bool_decide_eq_true_2 (_ ∈ _)); [lia|by left|done].
  - rewrite (bool_decide_eq_false_2 (re_root e = name)) by done. rewrite (bool_decide_ext (re_root e ∈ (name, path).1 :: roots.*1) (re_root e ∈ roots.*1)); [lia|].
    rewrite elem_of_cons. cbn. naive_solver.
Qed.

Lemma sum_roots_count {A} es (roots : list (pystr * A)) :
  NoDup (roots.*1) -> Forall (fun e => re_root e ∈ roots.*1) es ->
  sum_roots (fun l => Z.of_nat (length l)) es roots = Z.of_nat (length es)
  /\ sum_roots total_size es roots = total_size es.
Proof.
  intros Hn. induction 1 as [|e es He HF [IH1 IH2]]; [by rewrite !sum_roots_nil|].
  rewrite (sum_roots_cons _ 1), (sum_roots_cons _ (re_size_bytes e)); [|done|done|intros l; cbn; lia|done].
  rewrite bool_decide_eq_true_2 by done. rewrite IH1, IH2. cbn. split; [lia|done].
Qed.
End Inventory.

(** ** Every root *)

Section Qualification.
Context `{PyText}.

Lemma root_scanned_ext name view es es' root_id :
  (forall e, e ∈ es <-> e ∈ es') -> root_scanned name view es root_id <-> root_scanned name view es' root_id.
Proof.
  assert (forall l l', (forall e, e ∈ l <-> e ∈ l') -> root_scanned name view l root_id -> root_scanned name view l' root_id) as Hgen.
  { intros l l' Hl [Ho Hi Hs (root & Hr & Hc & Hx) Ha Hcl]. split; try done. exists root. split_and!; try done.
    intros e. rewrite <- Hl. apply Hx. }
  intros Heq. split; apply Hgen; [done|]. intros e. by rewrite Heq.
Qed.

Definition scanned (fs : path_arg -> root_view) (es : list RestoreBlobEntry) (root : pystr * path_arg) (found : pystr * pystr) : Prop :=
  fst found = fst root /\ root_scanned (fst root) (fs (snd root)) (of_root (fst root) es) (snd found).

Section Scan.
Context (fs : path_arg -> root_view) (Hwf : forall path root, rv_resolved (fs path) = Some root -> tree_wf root).

Lemma scan_roots_Ok es roots ids count size :
  NoDup (entry_key <$> es) -> Forall (fun root => fullmatch _ROOT_NAME (fst root) = true) roots ->
  scan_roots fs es roots = Ok (ids, count, size) <->
  Forall2 (scanned fs es) roots ids /\ count = sum_roots (fun l => Z.of_nat (length l)) es roots
  /\ size = sum_roots total_size es roots.
Proof.
  intros Hn Hr. revert ids count size. induction Hr as [|[name path] roots Hname Hr IH]; intros ids count size; cbn [scan_roots].
  - split; [intros [= <- <- <-]; split_and!; [constructor|done|done]|]. intros (HF & -> & ->). by inversion HF.
  - rewrite expected_for_keyed by done. cbn [fst] in Hname. split.
    + intros ([[i c] s] & Hs & ([[ids' cs] ss] & Hrest & Hx)%bind_Ok_inv)%bind_Ok_inv. injection Hx as <- <- <-.
      apply IH in Hrest as (HF & -> & ->).
      apply scan_root_exact in Hs as (Hsc & -> & ->); [|done|apply Hwf|by apply of_root_keys|apply of_root_roots].
      split_and!; [by constructor|done|done].
    + intros (HF & -> & ->). inversion HF as [|? [n i] ? ids' [Hnm Hsc] HF']; subst. cbn in Hnm, Hsc. subst n.
      rewrite (proj2 (scan_root_exact name (fs path) (of_root name es) i _ _ Hname (Hwf path) (of_root_keys name es Hn)
                        (of_root_roots name es)) (conj Hsc (conj eq_refl eq_refl))). cbn [mbind outcome_mbind outcome_bind].
      by rewrite (proj2 (IH ids' _ _) (conj HF' (conj eq_refl eq_refl))).
Qed.

Lemma by_name_perm (roots : list (pystr * path_arg)) : by_name roots ≡ₚ roots.
Proof. apply sort_by_perm. Qed.

Lemma blob_evidence_Ok es roots b count size :
  NoDup (entry_key <$> es) -> NoDup (roots.*1) -> Forall (fun e => re_root e ∈ roots.*1) es ->
  Forall (fun root => fullmatch _ROOT_NAME (fst root) = true) roots ->
  _blob_evidence fs roots es = Ok (b, count, size) <->
  exists ids, Forall2 (scanned fs es) (by_name roots) ids /\ NoDup (ids.*2) /\ _digest (identities_document ids) = Ok b
    /\ count = Z.of_nat (length es) /\ size = total_size es.
Proof.
  intros Hn Hnr Her Hr. unfold _blob_evidence.
  assert (NoDup ((by_name roots).*1)) as Hnr' by (by rewrite by_name_perm).
  assert (Forall (fun e => re_root e ∈ (by_name roots).*1) es) as Her'
    by (eapply Forall_impl; [exact Her|]; intros e He; by rewrite by_name_perm).
  assert (Forall (fun root => fullmatch _ROOT_NAME (fst root) = true) (by_name roots)) as Hr' by (by rewrite by_name_perm).
  destruct (sum_roots_count es (by_name roots) Hnr' Her') as [Hc Hs]. split.
  - intros ([[ids c] s] & (HF & -> & ->)%scan_roots_Ok & Hrest)%bind_Ok_inv; [|done|done]. inv_refused. split_bools.
    exists ids. rewrite Hc, Hs in *. simplify_eq. done.
  - intros (ids & HF & Hnd & Hd & -> & ->).
    rewrite (proj2 (scan_roots_Ok es (by_name roots) ids _ _ Hn Hr') (conj HF (conj eq_refl eq_refl))). cbn [mbind outcome_mbind outcome_bind].
    rewrite (bool_decide_eq_true_2 (NoDup _)) by done. cbn. rewrite Hd. cbn. by rewrite Hc, Hs.
Qed.
End Scan.

Lemma sorted_names_perm a b : sorted_names a = sorted_names b <-> a ≡ₚ b.
Proof.
  unfold sorted_names. split.
  - intros Hs. by rewrite <- (sort_by_perm str_leb a), Hs, sort_by_perm.
  - intros Hp. assert (AntiSymm (=) (bool_rel str_leb)) by (intros x y; apply str_leb_antisym).
    apply (StronglySorted_unique (bool_rel str_leb));
      [apply sort_by_sorted; [apply str_leb_total|apply str_leb_trans]..|]. by rewrite !sort_by_perm.
Qed.

(** ** Qualification *)

Context (MIGRATION_DIGEST : pystr).
Let current := CURRENT_DATA_PLANE_REVISION MIGRATION_DIGEST.

(** The path is text that names something. *)
Definition restore_path_ok (path : path_arg) : bool :=
  match path with PathText s => negb (bool_decide (s = [])) | PathBytes _ | PathRaises _ | NotPath => false end.

(** The roots hold the inventory, each exactly its part; the endpoint is
    writable with the same roots; and everything the caller expected agrees. *)
Record restore_qualified (env : restore_env) (rq : restore_request) (digest : pystr) (f : EndpointFence) : Prop := {
  jq_target : _identifier (jr_expected_database rq) = true /\ schema_name_invalid (jr_expected_schema rq) = false;
  jq_current : jr_expected_schema_revision rq = dp_schema_revision current
    /\ jr_expected_migration_digest rq = dp_migration_digest current;
  jq_root_paths : jr_blob_roots rq <> []
    /\ Forall (fun root => fullmatch _ROOT_NAME (fst root) = true /\ restore_path_ok (snd root) = true) (jr_blob_roots rq);
  jq_expected_roots : forall names, jr_expected_blob_roots rq = Some names ->
    Forall (fun name => fullmatch _ROOT_NAME name = true) names /\ NoDup names /\ names ≡ₚ (jr_blob_roots rq).*1;
  jq_entries : Forall (fun e => re_root e ∈ (jr_blob_roots rq).*1) (jr_blob_inventory rq)
    /\ NoDup (entry_key <$> jr_blob_inventory rq) /\ NoDup (folded_key <$> jr_blob_inventory rq);
  jq_digest : _inventory_digest ((jr_blob_roots rq).*1) (sort_by entry_leb (jr_blob_inventory rq)) = Ok digest;
  jq_expected_digest : forall d, jr_expected_blob_inventory_digest rq = Some d -> d = digest;
  jq_scanned : exists ids, Forall2 (scanned (nv_roots env) (jr_blob_inventory rq)) (by_name (jr_blob_roots rq)) ids
    /\ NoDup (ids.*2) /\ _digest (identities_document ids) = Ok (ef_blob_identity f);
  jq_endpoint : endpoint_qualified MIGRATION_DIGEST (nv_endpoint env) (readiness_of rq (jr_blob_roots rq) digest) f
}.

Lemma existsb_Forall_names (names : list pystr) :
  existsb (fun name => negb (fullmatch _ROOT_NAME name)) names = false <-> Forall (fun name => fullmatch _ROOT_NAME name = true) names.
Proof.
  rewrite existsb_false, Forall_forall. split; intros Hn name Hx; specialize (Hn name Hx); [by apply negb_false_iff|by rewrite Hn].
Qed.

Lemma check_expected_roots_Ok rq roots x :
  check_expected_roots rq roots = Ok x <->
  forall names, jr_expected_blob_roots rq = Some names ->
    Forall (fun name => fullmatch _ROOT_NAME name = true) names /\ NoDup names /\ names ≡ₚ roots.*1.
Proof.
  unfold check_expected_roots. destruct x, (jr_expected_blob_roots rq) as [names|]; [|naive_solver]. split.
  - intros Hc. inv_refused. split_bools. intros ? [= <-]. split_and!; [by apply existsb_Forall_names|done|by apply sorted_names_perm].
  - intros Hc. destruct (Hc names eq_refl) as (HF%existsb_Forall_names & Hn & Hp%sorted_names_perm). rewrite HF.
    rewrite (bool_decide_eq_true_2 (NoDup _)) by done. cbn. unfold names_of. by rewrite (bool_decide_eq_true_2 (sorted_names _ = _)).
Qed.

Lemma restore_path_Ok path x : restore_path path = Ok x <-> restore_path_ok path = true.
Proof.
  destruct x, path as [s|b|e|]; cbn -[isinstance]; [|done|by destruct (isinstance _ _)|done].
  by destruct (bool_decide (s = [])).
Qed.

Lemma restore_roots_Ok value roots :
  restore_roots value = Ok roots <->
  roots = value /\ value <> []
  /\ Forall (fun root => fullmatch _ROOT_NAME (fst root) = true /\ restore_path_ok (snd root) = true) value.
Proof.
  assert (forall x, keep_restore_roots value = Ok x <->
    Forall (fun root => fullmatch _ROOT_NAME (fst root) = true /\ restore_path_ok (snd root) = true) value) as Hkeep.
  { induction value as [|[n p] value IH]; intros []; cbn -[isinstance]; [by split|]. rewrite Forall_cons. cbn [fst snd].
    rewrite <- (restore_path_Ok p ()). destruct (fullmatch _ROOT_NAME n); cbn; [|naive_solver].
    destruct (restore_path p) as [[]|]; cbn; [|naive_solver]. rewrite (IH ()). naive_solver. }
  unfold restore_roots. split.
  - intros Hr. inv_refused. split_bools. split_and!; [done|done|]. by eapply Hkeep.
  - intros (-> & Hne & HF). rewrite (bool_decide_eq_false_2 (value = [])) by done. cbn.
    by rewrite (proj2 (Hkeep ()) HF).
Qed.

Lemma check_request_Ok rq x :
  check_request MIGRATION_DIGEST rq = Ok x <->
  py_strip (jr_database_url rq) <> []
  /\ (_identifier (jr_expected_database rq) = true /\ schema_name_invalid (jr_expected_schema rq) = false)
  /\ (jr_expected_schema_revision rq = dp_schema_revision current /\ jr_expected_migration_digest rq = dp_migration_digest current)
  /\ jr_expected_blob_layout_version rq = BLOB_LAYOUT_VERSION
  /\ (forall d, jr_expected_blob_inventory_digest rq = Some d -> is_sha256 d = true).
Proof.
  unfold check_request. fold current. destruct x. split.
  - intros Hc. inv_refused. split_bools. split_and!; try done. intros d Hd. rewrite Hd in *. by split_bools.
  - intros (Hu & [Hd Hs] & [Hr Hm] & Hl & Hi). rewrite (bool_decide_eq_false_2 (py_strip _ = [])), Hd, Hs by done. cbn.
    rewrite !bool_decide_eq_true_2 by done. cbn. destruct (jr_expected_blob_inventory_digest rq) as [d|]; [|done].
    by rewrite (Hi d eq_refl).
Qed.

Lemma agreed_fence_Ok report digest b names f :
  agreed_fence report digest b names = Ok f <->
  er_fence report = Some f /\ writable report = true /\ ef_blob_identity f = b /\ ef_blob_inventory_digest f = digest
  /\ ef_blob_roots f = names.
Proof.
  unfold agreed_fence. destruct (er_fence report) as [x|]; [|split; [intros Hx; by inv_refused|naive_solver]].
  destruct (writable report); [|split; [intros Hx; by inv_refused|naive_solver]]. split.
  - intros Hx. inv_refused. split_bools. naive_solver.
  - intros ([= ->] & _ & -> & -> & ->). by rewrite !bool_decide_eq_true_2.
Qed.

Lemma qualify_body_Ok env rq ev :
  qualify_joint_restore MIGRATION_DIGEST env rq = Ok ev <-> qualify_body MIGRATION_DIGEST env rq = Ok ev.
Proof.
  unfold qualify_joint_restore. destruct (qualify_body MIGRATION_DIGEST env rq) as [x|e]; [done|].
  destruct (is_joint e), (caught e); done.
Qed.

Lemma sorted_entries inv : sort_by entry_leb inv ≡ₚ inv.
Proof. apply sort_by_perm. Qed.

Lemma scanned_sorted fs inv root found : scanned fs (sort_by entry_leb inv) root found <-> scanned fs inv root found.
Proof.
  unfold scanned. rewrite (root_scanned_ext _ _ _ (of_root (fst root) inv)); [done|].
  intros e. by rewrite !of_root_elem, sorted_entries.
Qed.

Section Exact.
Context (env : restore_env) (rq : restore_request).
Context (Hnames : NoDup ((jr_blob_roots rq).*1)) (Hwf : forall path root, rv_resolved (nv_roots env path) = Some root -> tree_wf root).

Lemma qualify_sound ev :
  qualify_joint_restore MIGRATION_DIGEST env rq = Ok ev ->
  exists digest f, restore_qualified env rq digest f
    /\ _evidence f digest (ef_blob_identity f) (Z.of_nat (length (jr_blob_inventory rq))) (total_size (jr_blob_inventory rq)) = Ok ev.
Proof.
  intros Hq%qualify_body_Ok. unfold qualify_body in Hq. apply bind_Ok_inv in Hq as ([] & (Hu & Ht & Hc & Hl & Hd)%check_request_Ok & Hq).
  apply bind_Ok_inv in Hq as (roots & (-> & Hne & HF)%restore_roots_Ok & Hq).
  apply bind_Ok_inv in Hq as ([] & Hexp & Hq). apply bind_Ok_inv in Hq as (es & Hes & Hq). unfold _normalized_entries in Hes.
  apply bind_Ok_inv in Hes as (x & (Hr & Hk & Hf)%check_entries_Ok & [= <-]).
  apply bind_Ok_inv in Hq as (digest & Hdg%plain_Ok & Hq). apply bind_Ok_inv in Hq as ([] & Hed%inventory_refused_if_Ok & Hq).
  apply bind_Ok_inv in Hq as ([[b count] size] & Hb & Hq). apply bind_Ok_inv in Hq as (report & Hrep & Hq).
  apply bind_Ok_inv in Hq as (f & (Hfe & Hw & <- & Hfd & Hfr)%agreed_fence_Ok & Hev%plain_Ok).
  assert (Forall (fun e => re_root e ∈ (jr_blob_roots rq).*1) (jr_blob_inventory rq)) as Hr'
    by (eapply Forall_impl; [exact Hr|]; by intros e [? _]).
  apply blob_evidence_Ok in Hb as (ids & Hids & Hnd & Hdi & -> & ->);
    [|done|by rewrite sorted_entries|done|by rewrite sorted_entries|eapply Forall_impl; [exact HF|]; by intros e [? _]].
  rewrite (Permutation_length (sorted_entries _)), (total_size_perm _ _ (sorted_entries _)) in Hev.
  exists digest, f. split; [|done]. split; try done.
  - by apply (check_expected_roots_Ok rq _ ()).
  - intros d He. rewrite He in Hed. by split_bools.
  - exists ids. split_and!; [|done|done]. eapply Forall2_impl; [exact Hids|]. intros r i. by apply scanned_sorted.
  - apply inspect_writable; [done|]. eauto.
Qed.

Lemma qualify_complete digest f ev :
  restore_qualified env rq digest f ->
  _evidence f digest (ef_blob_identity f) (Z.of_nat (length (jr_blob_inventory rq))) (total_size (jr_blob_inventory rq)) = Ok ev ->
  qualify_joint_restore MIGRATION_DIGEST env rq = Ok ev.
Proof.
  intros [Ht Hc [Hne HF] Hexp (Hr & Hk & Hf) Hdg Hed (ids & Hids & Hnd & Hdi) Hep] Hev. apply qualify_body_Ok. unfold qualify_body.
  rewrite (proj2 (check_request_Ok rq ())).
  2: { split_and!; [apply (eq_url _ _ _ _ Hep)|apply Ht..|apply Hc|apply Hc|apply (eq_layout _ _ _ _ Hep)|].
       intros d Hd. rewrite (Hed d Hd). by eapply digest_format. }
  cbn [mbind outcome_mbind outcome_bind]. rewrite (proj2 (restore_roots_Ok _ _)) by done. cbn [mbind outcome_mbind outcome_bind].
  rewrite (proj2 (check_expected_roots_Ok rq _ ())) by done. cbn [mbind outcome_mbind outcome_bind]. unfold _normalized_entries.
  rewrite (proj2 (check_entries_Ok _ [] [] _ ())).
  2: { split_and!; [|done|done]. eapply Forall_impl; [exact Hr|]. intros e He. split_and!; [done|apply not_elem_of_nil..]. }
  cbn [mbind outcome_mbind outcome_bind]. rewrite Hdg. cbn [plain map_err mbind outcome_mbind outcome_bind].
  rewrite (proj2 (inventory_refused_if_Ok _ _ ())).
  2: { destruct (jr_expected_blob_inventory_digest rq) as [d|]; [|done]. rewrite (Hed d eq_refl). by rewrite bool_decide_eq_true_2. }
  cbn [mbind outcome_mbind outcome_bind].
  rewrite (proj2 (blob_evidence_Ok (nv_roots env) Hwf (sort_by entry_leb (jr_blob_inventory rq)) (jr_blob_roots rq) (ef_blob_identity f)
             (Z.of_nat (length (jr_blob_inventory rq))) (total_size (jr_blob_inventory rq)) ltac:(by rewrite sorted_entries) Hnames
             ltac:(by rewrite sorted_entries) ltac:(eapply Forall_impl; [exact HF|]; by intros e [? _]))).
  2: { exists ids. split_and!; [|done|done|by rewrite (Permutation_length (sorted_entries _))|by rewrite (total_size_perm _ _ (sorted_entries _))].
       eapply Forall2_impl; [exact Hids|]. intros r i. by apply scanned_sorted. }
  cbn [mbind outcome_mbind outcome_bind]. pose proof Hep as (report & Hrep & Hw & Hfe)%inspect_writable; [|done].
  rewrite Hrep. cbn [mbind outcome_mbind outcome_bind]. destruct (eq_fence _ _ _ _ Hep) as (_ & Hi & Hn & _).
  rewrite (proj2 (agreed_fence_Ok report digest (ef_blob_identity f) (names_of (jr_blob_roots rq)) f)) by done.
  cbn [mbind outcome_mbind outcome_bind]. by rewrite Hev.
Qed.
End Exact.
End Qualification.

(** ** What the evidence stands for *)

(** Two documents with different texts and one SHA-256. *)
Definition colliding_documents (v1 v2 : json) : Prop :=
  exists t1 t2, dumps true v1 = Ok t1 /\ dumps true v2 = Ok t2 /\ t1 <> t2 /\ sha256_hex t1 = sha256_hex t2.

Lemma object_int items1 items2 i k z1 z2 :
  sort_json (JObj items1) = sort_json (JObj items2) -> NoDup (fst <$> items2) ->
  items1 !! i = Some (k, JInt z1) -> items2 !! i = Some (k, JInt z2) -> z1 = z2.
Proof. intros Hs Hn H1 H2. pose proof (object_member _ _ _ _ _ _ Hs Hn H1 H2) as Hm. by injection Hm. Qed.

Lemma entry_document_inj e1 e2 : sort_json (entry_document e1) = sort_json (entry_document e2) -> e1 = e2.
Proof.
  destruct e1 as [r1 k1 z1 d1], e2 as [r2 k2 z2 d2]. unfold entry_document. cbn [re_root re_storage_key re_size_bytes re_sha256]. intros Hs.
  assert (NoDup (fst <$> [(u "root", JStr r2); (u "sha256", JStr d2); (u "size_bytes", JInt z2); (u "storage_key", JStr k2)])) as Hn
    by (by apply (bool_decide_unpack _)).
  f_equal.
  - by apply (object_text _ _ 0 (u "root") _ _ Hs Hn).
  - by apply (object_text _ _ 3 (u "storage_key") _ _ Hs Hn).
  - by apply (object_int _ _ 2 (u "size_bytes") _ _ Hs Hn).
  - by apply (object_text _ _ 1 (u "sha256") _ _ Hs Hn).
Qed.

Lemma inventory_document_inj names1 names2 es1 es2 :
  sort_json (inventory_document names1 es1) = sort_json (inventory_document names2 es2) ->
  sorted_names names1 = sorted_names names2 /\ es1 = es2.
Proof.
  unfold inventory_document. intros Hs.
  assert (NoDup (fst <$> [(u "contract_version", JStr JOINT_RESTORE_CONTRACT_VERSION); (u "entries", JArr (entry_document <$> es2));
    (u "roots", JArr (JStr <$> sorted_names names2))])) as Hn by (by apply (bool_decide_unpack _)).
  split; [by apply (object_texts _ _ 2 (u "roots") _ _ Hs Hn)|].
  pose proof (object_member _ _ 1 (u "entries") _ _ Hs Hn eq_refl eq_refl) as Hm. cbn [sort_json] in Hm. injection Hm as Hm.
  rewrite <- !list_fmap_compose in Hm. assert (Inj (=) (=) (sort_json ∘ entry_document)) by (intros x y; apply entry_document_inj).
  by apply (inj (fmap (sort_json ∘ entry_document))) in Hm.
Qed.

Lemma evidence_document_inj f1 f2 i1 i2 b1 b2 c1 c2 s1 s2 :
  sort_json (evidence_document f1 i1 b1 c1 s1) = sort_json (evidence_document f2 i2 b2 c2 s2) ->
  f1 = f2 /\ i1 = i2 /\ b1 = b2 /\ c1 = c2 /\ s1 = s2.
Proof.
  unfold evidence_document. intros Hs.
  assert (NoDup (fst <$> [(u "blob_count", JInt c2); (u "blob_identity", JStr b2); (u "blob_inventory_digest", JStr i2);
    (u "blob_size_bytes", JInt s2); (u "contract_version", JStr JOINT_RESTORE_CONTRACT_VERSION); (u "fence_digest", JStr f2)])) as Hn
    by (by apply (bool_decide_unpack _)).
  split_and!.
  - by apply (object_text _ _ 5 (u "fence_digest") _ _ Hs Hn).
  - by apply (object_text _ _ 2 (u "blob_inventory_digest") _ _ Hs Hn).
  - by apply (object_text _ _ 1 (u "blob_identity") _ _ Hs Hn).
  - by apply (object_int _ _ 0 (u "blob_count") _ _ Hs Hn).
  - by apply (object_int _ _ 3 (u "blob_size_bytes") _ _ Hs Hn).
Qed.

Section Wf.
Context `{PyText} `{PyFloat}.

Lemma entry_document_wf e :
  entry_init e = Ok e -> forallb scalar (re_storage_key e) = true -> json_wf (entry_document e) = true.
Proof.
  unfold entry_init. intros Hi Hk. inv_ok. unfold entry_document. cbn [json_wf]. apply andb_true_iff.
  split; [by apply bool_decide_eq_true_2, (bool_decide_unpack _)|]. cbn [forallb json_wf]. rewrite !andb_true_iff.
  split_and!; first [apply root_name_scalar; assumption | apply sha256_scalar; assumption | assumption | reflexivity].
Qed.

Lemma inventory_document_wf names es :
  Forall (fun name => fullmatch _ROOT_NAME name = true) names ->
  Forall (fun e => entry_init e = Ok e /\ forallb scalar (re_storage_key e) = true) es ->
  json_wf (inventory_document names es) = true.
Proof.
  intros Hn He. unfold inventory_document. cbn [json_wf]. apply andb_true_iff.
  split; [by apply bool_decide_eq_true_2, (bool_decide_unpack _)|]. cbn [forallb json_wf]. rewrite !andb_true_iff. split_and!; try reflexivity.
  - apply forallb_forall. intros x Hx%list_elem_of_In. apply list_elem_of_fmap in Hx as (e & -> & Hx).
    rewrite Forall_forall in He. destruct (He e Hx). by apply entry_document_wf.
  - apply forallb_forall. intros x Hx%list_elem_of_In. apply list_elem_of_fmap in Hx as (n & -> & Hx).
    rewrite Forall_forall in Hn. cbn. apply root_name_scalar, Hn. by apply (elem_of_sort_by str_leb).
Qed.

Lemma evidence_document_wf f i b c s :
  is_sha256 f = true -> is_sha256 i = true -> is_sha256 b = true -> json_wf (evidence_document f i b c s) = true.
Proof.
  intros Hf Hi Hb. unfold evidence_document. cbn [json_wf]. apply andb_true_iff.
  split; [by apply bool_decide_eq_true_2, (bool_decide_unpack _)|]. cbn [forallb json_wf]. rewrite !andb_true_iff.
  split_and!; first [apply sha256_scalar; assumption | reflexivity].
Qed.
End Wf.

(** ** Claims about qualification *)

Section Claims.
Context `{PyText} `{PyFloat} (MIGRATION_DIGEST : pystr).

(** Arguments as the interpreter and the file system have them: a mapping has
    each name once, names in a directory are unique and without a slash, and
    an entry of the inventory went through its constructor. *)
Record restore_inputs (env : restore_env) (rq : restore_request) : Prop := {
  ri_names : NoDup ((jr_blob_roots rq).*1);
  ri_trees : forall path root, rv_resolved (nv_roots env path) = Some root -> tree_wf root;
  ri_entries : Forall (fun e => entry_init e = Ok e) (jr_blob_inventory rq)
}.

(** C24: a joint restore is qualified exactly when it is whole.  The call returns
    evidence if and only if, in every root, the store keeps its identity, the
    tree is clean (nothing unreadable, no link, no foreign object, only lock
    files among the locks), its files are exactly the entries of the inventory
    for that root, by key, size and SHA-256 of their bytes, and the endpoint
    is writable with a fence over the same roots and the same inventory.  The
    evidence counts the whole inventory. *)
Theorem joint_restore_exact env rq ev :
  restore_inputs env rq ->
  qualify_joint_restore MIGRATION_DIGEST env rq = Ok ev <->
  exists digest f, restore_qualified MIGRATION_DIGEST env rq digest f
    /\ _evidence f digest (ef_blob_identity f) (Z.of_nat (length (jr_blob_inventory rq))) (total_size (jr_blob_inventory rq)) = Ok ev.
Proof.
  intros [Hn Ht _]. split; [by apply qualify_sound|]. intros (digest & f & Hq & Hev). by eapply qualify_complete.
Qed.

Lemma evidence_fields f d b c s ev :
  _evidence f d b c s = Ok ev ->
  fence_digest f = Ok (je_fence_digest ev)
  /\ _digest (evidence_document (je_fence_digest ev) d b c s) = Ok (je_digest ev)
  /\ je_blob_inventory_digest ev = d /\ je_blob_identity ev = b /\ je_blob_count ev = c /\ je_blob_size_bytes ev = s.
Proof. unfold _evidence. intros (fd & Hf & (x & Hx & [= <-])%bind_Ok_inv)%bind_Ok_inv. done. Qed.

Definition evidence_document_of (ev : JointRestoreEvidence) : json :=
  evidence_document (je_fence_digest ev) (je_blob_inventory_digest ev) (je_blob_identity ev) (je_blob_count ev) (je_blob_size_bytes ev).
Definition inventory_document_of (rq : restore_request) : json :=
  inventory_document ((jr_blob_roots rq).*1) (sort_by entry_leb (jr_blob_inventory rq)).

Lemma qualified_documents env rq digest f :
  is_sha256 MIGRATION_DIGEST = true -> restore_inputs env rq ->
  Forall (fun e => forallb scalar (re_storage_key e) = true) (jr_blob_inventory rq) ->
  restore_qualified MIGRATION_DIGEST env rq digest f ->
  json_wf (inventory_document_of rq) = true /\ json_wf (fence_document f []) = true /\ is_sha256 (ef_blob_identity f) = true.
Proof.
  intros Hm [Hn Ht He] Hs [Ht' Hc [Hne HF] Hexp (Hr & Hk & Hf) Hdg Hed (ids & Hids & Hnd & Hdi) Hep]. split_and!.
  - apply inventory_document_wf; [apply Forall_fmap; eapply Forall_impl; [exact HF|]; by intros x [? _]|].
    rewrite sorted_entries. apply Forall_and. done.
  - apply (fence_document_wf MIGRATION_DIGEST); [done|]. pose proof (proj1 (inspect_qualified _ _ _ _ Hep)) as Hfe. rewrite Hfe.
    destruct Hep as [? ? ? ? [? ?] [? ?] ? (? & ? & ? & ?) (? & ? & ? & ? & ? & [] & ?) ? ?].
    eapply new_fence_valid; eauto using digest_format.
  - by eapply digest_format.
Qed.

(** C25: the digest of the evidence stands for one restored unit.  Two qualified
    restores with the same digest have the same evidence, the same inventory
    and the same root names, unless two of their canonical documents, of the
    evidence, of the inventory or of the fence, are a collision of SHA-256.  The
    storage keys are assumed to be Unicode scalar text: the validator accepts
    surrogates too, and two keys that differ in an escaped surrogate pair can
    have one canonical text. *)
Theorem evidence_identifies env1 rq1 ev1 env2 rq2 ev2 :
  is_sha256 MIGRATION_DIGEST = true -> restore_inputs env1 rq1 -> restore_inputs env2 rq2 ->
  Forall (fun e => forallb scalar (re_storage_key e) = true) (jr_blob_inventory rq1) ->
  Forall (fun e => forallb scalar (re_storage_key e) = true) (jr_blob_inventory rq2) ->
  qualify_joint_restore MIGRATION_DIGEST env1 rq1 = Ok ev1 -> qualify_joint_restore MIGRATION_DIGEST env2 rq2 = Ok ev2 ->
  je_digest ev1 = je_digest ev2 ->
  (ev1 = ev2 /\ jr_blob_inventory rq1 ≡ₚ jr_blob_inventory rq2 /\ names_of (jr_blob_roots rq1) = names_of (jr_blob_roots rq2))
  \/ colliding_documents (evidence_document_of ev1) (evidence_document_of ev2)
  \/ colliding_documents (inventory_document_of rq1) (inventory_document_of rq2)
  \/ exists f1 f2, fence_digest f1 = Ok (je_fence_digest ev1) /\ fence_digest f2 = Ok (je_fence_digest ev2)
       /\ colliding_documents (fence_document f1 []) (fence_document f2 []).
Proof.
  intros Hm I1 I2 S1 S2 Q1 Q2 Hd.
  destruct (qualify_sound _ _ _ (ri_names _ _ I1) (ri_trees _ _ I1) _ Q1) as (d1 & f1 & R1 & E1).
  destruct (qualify_sound _ _ _ (ri_names _ _ I2) (ri_trees _ _ I2) _ Q2) as (d2 & f2 & R2 & E2).
  destruct (qualified_documents _ _ _ _ Hm I1 S1 R1) as (W1 & F1 & B1), (qualified_documents _ _ _ _ Hm I2 S2 R2) as (W2 & F2 & B2).
  destruct (evidence_fields _ _ _ _ _ _ E1) as (X1 & Y1 & Z1 & U1 & V1 & T1), (evidence_fields _ _ _ _ _ _ E2) as (X2 & Y2 & Z2 & U2 & V2 & T2).
  pose proof (jq_digest _ _ _ _ _ R1) as G1. pose proof (jq_digest _ _ _ _ _ R2) as G2.
  rewrite <- Hd in Y2. destruct (digest_binds _ _ _ (evidence_document_wf _ _ _ _ _ (digest_format _ _ X1) (digest_format _ _ G1) B1)
    (evidence_document_wf _ _ _ _ _ (digest_format _ _ X2) (digest_format _ _ G2) B2) Y1 Y2) as [Hs|Hc].
  2: { right; left. unfold colliding_documents, evidence_document_of. by rewrite Z1, U1, V1, T1, Z2, U2, V2, T2. }
  apply evidence_document_inj in Hs as (Hf & <- & _).
  destruct (digest_binds _ _ _ W1 W2 G1 G2) as [(Hn & Hinv)%inventory_document_inj|Hc]; [|by right; right; left].
  rewrite <- Hf in X2. destruct (digest_binds _ _ _ F1 F2 X1 X2) as [<-%fence_document_inj|Hc].
  2: { right; right; right. exists f1, f2. split_and!; [done|congruence|done]. }
  left. assert (jr_blob_inventory rq1 ≡ₚ jr_blob_inventory rq2) as Hp
    by (by rewrite <- (sorted_entries (jr_blob_inventory rq1)), Hinv, sorted_entries).
  split_and!; [|done|done]. rewrite (Permutation_length Hp), (total_size_perm _ _ Hp) in E1. congruence.
Qed.
End Claims.

(** ** Retirement of sessions *)

Section Recovery.
Context {W : Type} (MIGRATION_DIGEST : pystr).
Implicit Types (env : recovery_env W) (db : restored_db W).

(** The verifier of the catalog reads: it neither commits nor ends the
    transaction, and when it returns it has changed nothing. *)
Definition verifier_reads env : Prop := forall t,
  kept t (snd (rc_verify_current env t))
  /\ (fst (rc_verify_current env t) = Ok () -> visible (snd (rc_verify_current env t)) = visible t).

(** The database that the request names, at the current revision. *)
Definition retirement_target (rq : retirement_request) db : Prop :=
  rd_target db = Some (tr_expected_database rq, Some (tr_expected_schema rq))
  /\ List.filter (fun row => bool_decide (fst row ∈ [SCHEMA_META_REVISION; SCHEMA_META_DIGEST])) (rd_meta db)
     ≡ₚ [(SCHEMA_META_REVISION, Some (tr_expected_schema_revision rq)); (SCHEMA_META_DIGEST, Some (tr_expected_migration_digest rq))].

Definition sessions_retired db : restored_db W := RestoredDb (rd_target db) (rd_meta db) [].

Section Body.
Context env (Hreads : verifier_reads env).

Lemma verify_Ok t x t' : rc_verify_current env t = (Ok x, t') -> visible t' = visible t.
Proof. destruct x. intros Hv. destruct (Hreads t) as [_ Hr]. rewrite Hv in Hr. by apply Hr. Qed.

Lemma run_statement_Ok st t x t' : run_statement env st t = (Ok x, t') -> visible t' = visible t.
Proof. intros (_ & _ & _ & Hx)%statement_Ok. by apply bind_Ok_inv in Hx as (? & _ & [= <-]). Qed.

Lemma retire_all_Ok t n t' : retire_all_for_recovery env t = (Ok n, t') ->
  n = Z.of_nat (length (rd_sessions (visible t))) /\ visible t' = sessions_retired (visible t) /\ aborted t' = false.
Proof.
  unfold retire_all_for_recovery, bound_request_execution_waits. intros Hr.
  apply tx_bind_Ok in Hr as (? & s1 & H1%run_statement_Ok & Hr). apply tx_bind_Ok in Hr as (? & s2 & H2%run_statement_Ok & Hr).
  apply tx_bind_Ok in Hr as (count & s3 & (_ & _ & _ & Hc)%statement_Ok & Hr). injection Hc as <- Hdb.
  apply tx_bind_Ok in Hr as (? & s4 & [_ ->]%tx_lift_Ok & Hr). apply tx_bind_Ok in Hr as (rem & s5 & (_ & _ & Ha & Hx)%statement_Ok & Hr).
  apply tx_bind_Ok in Hr as (? & s6 & [_ ->]%tx_lift_Ok & Hr). injection Hr as <- <-. injection Hx as _ Hx.
  rewrite <- Hx, <- Hdb, H2, H1. done.
Qed.

Lemma retirement_body_Ok rq t n t' : retirement_body MIGRATION_DIGEST env rq t = (Ok n, t') ->
  retirement_target rq (visible t) /\ n = Z.of_nat (length (rd_sessions (visible t)))
  /\ visible t' = sessions_retired (visible t) /\ aborted t' = false.
Proof.
  unfold retirement_body, bound_request_execution_waits. intros Hr.
  apply tx_bind_Ok in Hr as (? & s1 & H1%run_statement_Ok & Hr). apply tx_bind_Ok in Hr as (? & s2 & H2%run_statement_Ok & Hr).
  apply tx_bind_Ok in Hr as (target & s3 & (_ & _ & _ & H3)%statement_Ok & Hr). injection H3 as <- H3.
  apply tx_bind_Ok in Hr as (? & s4 & [Ht ->]%tx_lift_Ok & Hr). apply raise_unless_Ok, bool_decide_eq_true in Ht.
  apply tx_bind_Ok in Hr as (? & s5 & H5%run_statement_Ok & Hr). apply tx_bind_Ok in Hr as (? & s6 & H6%run_statement_Ok & Hr).
  apply tx_bind_Ok in Hr as (? & s7 & H7%run_statement_Ok & Hr). apply tx_bind_Ok in Hr as (? & s8 & H8%verify_Ok & Hr).
  apply tx_bind_Ok in Hr as (meta & s9 & (_ & _ & _ & H9)%statement_Ok & Hr). injection H9 as <- H9.
  apply tx_bind_Ok in Hr as (? & s10 & [Hm ->]%tx_lift_Ok & Hr). apply raise_unless_Ok, metadata_matches_spec in Hm.
  apply retire_all_Ok in Hr as (-> & -> & Ha). rewrite <- H9, H8, H7, H6, H5, <- H3, H2, H1 in *. split_and!; [by split|done|done|done].
Qed.

Lemma retirement_body_kept rq t : kept t (snd (retirement_body MIGRATION_DIGEST env rq t)).
Proof.
  unfold retirement_body, retire_all_for_recovery, bound_request_execution_waits, run_statement, select_target, select_metadata,
    delete_sessions, sessions_remain.
  repeat first [apply lift_kept | apply statement_kept | apply (proj1 (Hreads _)) | (apply bind_kept; [intros ?|intros ? ?]) | done].
Qed.

(** The use of the connection committed the deletion, and then something raised:
    the commit itself, whose outcome is then not known to the caller, a later
    step of the block, or [closeall]. *)
Definition raised_after_commit (rq : retirement_request) db : Prop :=
  (exists id autocommit n t, rc_getconn env = Ok (id, autocommit)
     /\ body_completed (rc_faults env) (retirement_body MIGRATION_DIGEST env rq) (Fconn (idle_conn db autocommit) 0) n t
     /\ is_ok (fst (conn_commit (Driver := faulty_driver (rc_faults env)) (_connection t))) = false)
  \/ (exists x, u_result (retirement_use MIGRATION_DIGEST env rq db) = Err x /\ late_error x)
  \/ (exists x, rc_closeall env = Some x).

Lemma completed_Ok rq db autocommit n t :
  body_completed (rc_faults env) (retirement_body MIGRATION_DIGEST env rq) (Fconn (idle_conn db autocommit) 0) n t ->
  retirement_target rq db /\ n = Z.of_nat (length (rd_sessions db)) /\ visible t = sessions_retired db /\ aborted t = false.
Proof.
  intros (t1 & Hb & Hrun & _). apply begin_spec in Hb as (_ & Hs). destruct (Hs eq_refl) as (_ & _ & Hv & _). cbn in Hv.
  apply retirement_body_Ok in Hrun. by rewrite Hv in Hrun.
Qed.

(** The use of the connection, whatever fails. *)
Lemma use_spec rq db : let use := retirement_use MIGRATION_DIGEST env rq db in
  (forall n, u_result use = Ok n ->
     retirement_target rq db /\ n = Z.of_nat (length (rd_sessions db)) /\ database_after use db = sessions_retired db)
  /\ (forall e, u_result use = Err e -> database_after use db = db
       \/ (database_after use db = sessions_retired db /\ retirement_target rq db /\ raised_after_commit rq db)).
Proof.
  cbn zeta. unfold raised_after_commit. set (use := retirement_use MIGRATION_DIGEST env rq db). unfold retirement_use in use.
  destruct (rc_getconn env) as [[id autocommit]|e] eqn:Hget; [|split; [done|by left]].
  destruct (use_outcomes (rc_faults env) (retirement_body MIGRATION_DIGEST env rq) (retirement_body_kept rq) id
    (Fconn (idle_conn db autocommit) 0) (fun _ discard => rc_putconn env discard) pool_init) as [Hok Herr].
  fold use in Hok, Herr. change (committed_after _ use) with (database_after use db) in Hok, Herr. split.
  - intros n Hn. destruct (Hok n Hn) as (t & (Ht & -> & Hv & Ha)%completed_Ok & Hc). rewrite Ha, Hv in Hc. done.
  - intros e He. destruct (Herr e He) as [?|(n & t & Hd & _ & Hc & Hlate)]; [by left|right].
    destruct (completed_Ok _ _ _ _ _ Hd) as (Ht & _ & Hv & _). split_and!; [congruence|done|].
    destruct Hlate as [Hlate|Hlate]; [left; by exists id, autocommit, n, t|right; left; by exists e].
Qed.

Lemma retire_spec rq db r db' : retire_restored_sessions MIGRATION_DIGEST env rq db = (r, db') ->
  (forall n, r = Ok n -> retirement_target rq db /\ n = Z.of_nat (length (rd_sessions db)) /\ db' = sessions_retired db)
  /\ (forall e, r = Err e -> db' = db
       \/ (db' = sessions_retired db /\ retirement_target rq db /\ raised_after_commit rq db)).
Proof.
  assert (forall e (n : Z), @report_exception Z e <> Ok n) as Hrep.
  { intros e n. unfold report_exception, retirement_unavailable. destruct (is_exception e); [|done].
    destruct (@raise_plane_Err Z SessionRetirementError CodeNone MetaNone) as [x ->]. done. }
  unfold retire_restored_sessions. destruct (retirement_request_ok _ rq); cbn [negb].
  2: { intros [= <- <-]. split; [intros n Hn; by inv_refused|by left]. }
  destruct (rc_connect env) as [|e]; [|intros [= <- <-]; split; [intros n Hn; by apply Hrep in Hn|by left]].
  destruct (use_spec rq db) as [Hok Herr]. intros [= <- <-].
  destruct (fst (close _ _)) as [[]|x] eqn:Hc.
  - destruct (u_result _) as [n|x] eqn:Hu; (split; [|]); [intros ? [= <-]; auto|done| |].
    + intros n Hn. by apply Hrep in Hn.
    + intros e _. by apply (Herr x).
  - split; [intros n Hn; by apply Hrep in Hn|]. intros e _.
    destruct (u_result (retirement_use MIGRATION_DIGEST env rq db)) as [n|y] eqn:Hu; [|by apply (Herr y)].
    destruct (Hok n eq_refl) as (Ht & _ & Hd). right. split_and!; [done|done|]. right. right.
    destruct (rc_closeall env) as [z|]; [eauto|]. rewrite idle_close in Hc; [done|]. unfold retirement_use. by apply use_pool.
Qed.
End Body.

(** ** A recovery that nothing disturbs *)

(** The driver, the server and the verifier raise nothing. *)
Record undisturbed_recovery env : Prop := {
  un_connect : rc_connect env = Ok ();
  un_getconn : is_ok (rc_getconn env) = true;
  un_faults : rc_faults env = calm_plan;
  un_execute : forall st, rc_execute env st = Ok ();
  un_verify : forall t, usable t -> exists t', rc_verify_current env t = (Ok (), t') /\ kept t t' /\ usable t' /\ visible t' = visible t;
  un_return : forall discard, rc_putconn env discard = None;
  un_closeall : rc_closeall env = None
}.


Lemma calm_then {A B} (st : restored_db W -> result (A * restored_db W)) (f : A -> TX (fconn (restored_db W)) B) (P : _ -> Prop) t a db :
  usable t -> st (visible t) = Ok (a, db) ->
  (forall t', kept t t' -> usable t' -> visible t' = db -> exists b t'', f a t' = (Ok b, t'') /\ kept t' t'' /\ usable t'' /\ P b) ->
  exists b t'', (statement calm_plan st ≫= f) t = (Ok b, t'') /\ kept t t'' /\ usable t'' /\ P b.
Proof.
  intros Hu Hst Hf. destruct (calm_statement st t a db Hu Hst) as (t' & Hrun & Hk & Hu' & Hv).
  destruct (Hf t' Hk Hu' Hv) as (b & t'' & Hb & Hk' & Hu'' & Hp). exists b, t''. unfold mbind, TX_mbind. rewrite Hrun.
  split_and!; try done; [apply (PreOrder_Transitive _ _ _ Hk Hk')..].
Qed.

Lemma undisturbed_body env rq db t :
  undisturbed_recovery env -> retirement_target rq db -> usable t -> visible t = db ->
  exists n t', retirement_body MIGRATION_DIGEST env rq t = (Ok n, t') /\ kept t t' /\ usable t' /\ n = Z.of_nat (length (rd_sessions db)).
Proof.
  intros Hun [Htarget Hmeta] Hu Hv. unfold retirement_body, retire_all_for_recovery, bound_request_execution_waits, run_statement,
    select_target, select_metadata, delete_sessions, sessions_remain. rewrite (un_faults _ Hun).
  assert (forall {B} st (f : unit -> TX (fconn (restored_db W)) B) P (t : Transaction (fconn (restored_db W))), usable t ->
    (forall t', kept t t' -> usable t' -> visible t' = visible t -> exists b t'', f () t' = (Ok b, t'') /\ kept t' t'' /\ usable t'' /\ P b) ->
    exists b t'', (statement calm_plan (fun db => rc_execute env st ;; Ok ((), db)) ≫= f) t = (Ok b, t'') /\ kept t t'' /\ usable t'' /\ P b) as Hplain.
  { intros B st f P t0 Hu0 Hf. apply (calm_then _ _ _ _ () (visible t0)); [done|by rewrite (un_execute _ Hun)|done]. }
  apply Hplain; [done|]. intros t1 _ U1 V1. apply Hplain; [done|]. intros t2 _ U2 V2.
  eapply calm_then; [done|reflexivity|]. intros t3 _ U3 V3. unfold tx_lift at 1.
  assert (rd_target (visible t2) = Some (tr_expected_database rq, Some (tr_expected_schema rq))) as -> by congruence.
  rewrite bool_decide_eq_true_2 by done. unfold mbind at 1, TX_mbind at 1. cbn [raise_unless].
  apply Hplain; [done|]. intros t4 _ U4 V4. apply Hplain; [done|]. intros t5 _ U5 V5. apply Hplain; [done|]. intros t6 _ U6 V6.
  destruct (un_verify _ Hun t6 U6) as (t7 & Hrun7 & K7 & U7 & V7). unfold mbind at 1, TX_mbind at 1. rewrite Hrun7.
  assert (visible t7 = db) as Hdb by congruence.
  match goal with |- exists n t', ?m t7 = (Ok n, t') /\ kept t6 t' /\ _ /\ _ =>
    assert (exists n t', m t7 = (Ok n, t') /\ kept t7 t' /\ usable t' /\ n = Z.of_nat (length (rd_sessions db))) as Hrest end.
  { eapply calm_then; [done|reflexivity|]. intros t8 _ U8 V8. unfold tx_lift at 1. rewrite Hdb.
    rewrite (proj2 (metadata_matches_spec _ _ _) Hmeta). unfold mbind at 1, TX_mbind at 1. cbn [raise_unless].
    apply Hplain; [done|]. intros t9 _ U9 V9. apply Hplain; [done|]. intros t10 _ U10 V10.
    eapply calm_then; [done|reflexivity|]. intros t11 _ U11 V11. unfold mbind at 1, TX_mbind at 1.
    rewrite (proj2 (Z.ltb_ge _ _)) by lia. cbn [raise_if].
    eapply calm_then; [done|reflexivity|]. intros t12 _ U12 V12. rewrite V11. cbn.
    eexists _, t12. split_and!; try done; try apply U12. assert (visible t10 = db) as -> by congruence. done. }
  destruct Hrest as (n & t' & Hr & Hk & Hu' & Hn). exists n, t'. split_and!; try done; try apply Hu'; apply (PreOrder_Transitive _ _ _ K7 Hk).
Qed.

Lemma undisturbed_retires env rq db :
  undisturbed_recovery env -> verifier_reads env -> retirement_request_ok MIGRATION_DIGEST rq = true -> retirement_target rq db ->
  retire_restored_sessions MIGRATION_DIGEST env rq db = (Ok (Z.of_nat (length (rd_sessions db))), sessions_retired db).
Proof.
  intros Hun Hreads Hok Ht. destruct (retire_restored_sessions MIGRATION_DIGEST env rq db) as [r db'] eqn:Hr.
  destruct (retire_spec env Hreads rq db r db' Hr) as [Hret _].
  assert (exists n, r = Ok n) as [n ->]; [|destruct (Hret n eq_refl) as (_ & -> & ->); done].
  pose proof (un_getconn _ Hun) as Hget. unfold retire_restored_sessions, retirement_use in Hr.
  rewrite Hok, (un_connect _ Hun), (un_faults _ Hun), (un_closeall _ Hun) in Hr. cbn [negb] in Hr.
  destruct (rc_getconn env) as [[id autocommit]|]; [|done].
  destruct (calm_use (retirement_body MIGRATION_DIGEST env rq) id db autocommit (fun _ discard => rc_putconn env discard)
    (Z.of_nat (length (rd_sessions db)))) as [Hu Hc]; [intros _; apply (un_return _ Hun)| |].
  { intros t Hus Hv. destruct (undisturbed_body env rq db t Hun Ht Hus Hv) as (n & t' & H1 & H2 & H3 & ->). eauto. }
  rewrite Hu, Hc in Hr. injection Hr as <- _. eauto.
Qed.
End Recovery.

Lemma qualified_request_ok `{PyText} MIGRATION_DIGEST restore rq ev :
  qualify_joint_restore MIGRATION_DIGEST restore rq = Ok ev -> retirement_request_ok MIGRATION_DIGEST (retirement_of rq) = true.
Proof.
  unfold qualify_joint_restore. destruct (qualify_body _ _ _) as [ev'|e] eqn:Hq.
  2: { destruct (is_joint e); [done|]. destruct (caught e); [|done]. intros Hx. by inv_refused. }
  intros _. unfold qualify_body in Hq. apply bind_Ok_inv in Hq as (x & Hq & _).
  apply check_request_Ok in Hq as (_ & [H1 H2] & [H3 H4] & _). unfold retirement_request_ok. cbn.
  rewrite H1, H2, !bool_decide_eq_true_2 by done. done.
Qed.

(** C28: a recovery retires every session or leaves them all, whatever fails.  A
    recovery that returns was qualified, with the evidence it reports, and has
    deleted all sessions of the named database at the current revision and
    reports their number.  One that raises has changed nothing, or it was
    qualified and has deleted them all and its commit took effect: then the
    commit raised although it was applied, or a step after the commit raised
    (restoring autocommit, resetting or returning the connection, closing the
    pool).  In both cases an undisturbed repetition returns, retires what is left
    and reports its number, zero when the first call had retired them. *)
Theorem recovery_retires_sessions `{PyText} {W} MIGRATION_DIGEST (restore : restore_env) (env : recovery_env W) rq db r db' :
  verifier_reads env -> recover_joint_restore MIGRATION_DIGEST restore env rq db = (r, db') ->
  (forall c, r = Ok c ->
    qualify_joint_restore MIGRATION_DIGEST restore rq = Ok (jc_evidence c) /\ retirement_target (retirement_of rq) db
    /\ jc_retired_sessions c = Z.of_nat (length (rd_sessions db)) /\ db' = sessions_retired db)
  /\ (forall e, r = Err e -> db' = db
       \/ (is_ok (qualify_joint_restore MIGRATION_DIGEST restore rq) = true /\ retirement_target (retirement_of rq) db
           /\ db' = sessions_retired db /\ raised_after_commit MIGRATION_DIGEST env (retirement_of rq) db))
  /\ (forall env2 ev, undisturbed_recovery env2 -> verifier_reads env2 ->
        qualify_joint_restore MIGRATION_DIGEST restore rq = Ok ev -> retirement_target (retirement_of rq) db ->
        recover_joint_restore MIGRATION_DIGEST restore env2 rq db'
        = (Ok {| jc_evidence := ev; jc_retired_sessions := Z.of_nat (length (rd_sessions db')) |}, sessions_retired db')).
Proof.
  intros Hreads Hrun. assert (db' = db \/ db' = sessions_retired db) as Hany.
  { unfold recover_joint_restore in Hrun. destruct (qualify_joint_restore _ _ _) as [ev|e]; [|injection Hrun as _ <-; by left].
    destruct (retire_restored_sessions MIGRATION_DIGEST env (retirement_of rq) db) as [m db1] eqn:Hr. injection Hrun as _ <-.
    destruct (retire_spec _ _ Hreads _ _ _ _ Hr) as [Hok Herr]. destruct m as [n|x]; [right; by apply (Hok n)|].
    destruct (Herr x eq_refl) as [->|(-> & _)]; auto. }
  split_and!.
  - intros c ->. unfold recover_joint_restore in Hrun. destruct (qualify_joint_restore _ _ _) as [ev|e]; [|done].
    destruct (retire_restored_sessions MIGRATION_DIGEST env (retirement_of rq) db) as [m db1] eqn:Hr. injection Hrun as Hc <-.
    apply bind_Ok_inv in Hc as (n & -> & [= <-]). destruct (retire_spec _ _ Hreads _ _ _ _ Hr) as [Hok _].
    destruct (Hok n eq_refl) as (? & -> & ->). done.
  - intros e ->. unfold recover_joint_restore in Hrun. destruct (qualify_joint_restore _ _ _) as [ev|x]; [|injection Hrun as _ <-; by left].
    destruct (retire_restored_sessions MIGRATION_DIGEST env (retirement_of rq) db) as [m db1] eqn:Hr. injection Hrun as Hc <-.
    destruct m as [n|x]; [done|]. destruct (retire_spec _ _ Hreads _ _ _ _ Hr) as [_ Herr].
    destruct (Herr x eq_refl) as [->|(-> & Ht & Hx)]; [by left|by right].
  - intros env2 ev Hun Hreads2 Hq Ht. unfold recover_joint_restore. rewrite Hq.
    rewrite (undisturbed_retires MIGRATION_DIGEST env2 (retirement_of rq) db' Hun Hreads2 (qualified_request_ok _ _ _ _ Hq)); [done|].
    destruct Hany as [->| ->]; done.
Qed.

(** ** A restored unit *)

Definition sample_file (content : list N) : node :=
  File 1 (Some {| fv_regular := true; fv_nlink := 1; fv_content := Some content; fv_final_size := Z.of_nat (length content) |}).
Definition sample_children : list (pystr * node) :=
  [(_CONTROL_DIRECTORY, Dir [(sha256_hex (u "owner1") ++ u ".lock", sample_file [])] true);
   (u "owner1", Dir [(u ".astralplane-stage-" ++ sample_migration_digest ++ u ".lock", sample_file []);
                     (u "report", Dir [(u "a.bin", sample_file [1; 2; 3]%N)] true)] true)].
Definition sample_inventory : list RestoreBlobEntry :=
  [entry_of (u "attachments") (u "owner1/report/a.bin") [1; 2; 3]%N;
   entry_of (u "attachments") (u "owner1/.astralplane-stage-" ++ sample_migration_digest ++ u ".lock") []].
Definition restore_of (children : list (pystr * node)) : restore_env :=
  {| nv_roots := fun _ => sample_root children; nv_endpoint := sample_env |}.
Definition sample_restore_request (inventory : list RestoreBlobEntry) : restore_request :=
  {| jr_database_url := u "postgresql://primary/plane"; jr_blob_roots := [(u "attachments", PathText (u "/srv/blobs"))];
     jr_blob_inventory := inventory; jr_expected_database := u "plane"; jr_expected_schema := u "public";
     jr_expected_schema_revision := u "089.014"; jr_expected_migration_digest := sample_migration_digest;
     jr_expected_blob_inventory_digest := None; jr_expected_blob_roots := Some [u "attachments"];
     jr_expected_blob_layout_version := BLOB_LAYOUT_VERSION; jr_connect_timeout_seconds := 5;
     jr_acquire_timeout_seconds := FloatSeconds (QArith_base.inject_Z 1) |}.
Definition blank_evidence : JointRestoreEvidence :=
  {| je_contract_version := []; je_schema_revision := []; je_migration_digest := []; je_database_identity := [];
     je_schema_identity := []; je_blob_roots := []; je_blob_identity := []; je_blob_inventory_digest := []; je_blob_count := 0;
     je_blob_size_bytes := 0; je_fence_digest := []; je_digest := [] |}.
Definition evidence_from (children : list (pystr * node)) (inventory : list RestoreBlobEntry) : JointRestoreEvidence :=
  match qualify_joint_restore sample_migration_digest (restore_of children) (sample_restore_request inventory) with
  | Ok ev => ev
  | Err _ => blank_evidence
  end.
Definition sample_evidence : JointRestoreEvidence := Eval vm_compute in evidence_from sample_children sample_inventory.

Example sample_evidence_counts : je_blob_count sample_evidence = 2 /\ je_blob_size_bytes sample_evidence = 3.
Proof. split; reflexivity. Qed.

(** Well-formed trees, by evaluation. *)
Fixpoint tree_wfb (n : node) : bool :=
  match n with
  | Dir children _ =>
      bool_decide (NoDup (children.*1))
      && forallb (fun '(name, child) => negb (bool_decide (name = [])) && negb (has_char 47 name) && tree_wfb child) children
  | _ => true
  end.
Lemma tree_wfb_wf n : tree_wfb n = true -> tree_wf n.
Proof.
  induction n as [| |children complete IH|nlink opened|] using node_nested_ind; try (intros _; by constructor 2).
  cbn. intros [Hn Hc]%andb_true_iff. apply bool_decide_eq_true in Hn. constructor; [done|]. rewrite forallb_forall in Hc.
  rewrite Forall_forall in IH |- *. intros [name child] Hin. pose proof (Hc _ (proj1 (list_elem_of_In _ _) Hin)) as Hx.
  cbn [fst snd]. cbn beta iota in Hx. split_bools. split; [by split|]. by apply (IH _ Hin).
Qed.

Lemma sample_restore_inputs : restore_inputs (restore_of sample_children) (sample_restore_request sample_inventory).
Proof.
  split.
  - apply (bool_decide_unpack _). vm_compute. exact I.
  - intros path root [= <-]. apply tree_wfb_wf. vm_compute. reflexivity.
  - repeat constructor; vm_compute; reflexivity.
Qed.

Lemma joint_restore_exact_witness :
  exists digest f, restore_qualified sample_migration_digest (restore_of sample_children) (sample_restore_request sample_inventory) digest f
    /\ _evidence f digest (ef_blob_identity f) 2 3 = Ok sample_evidence.
Proof.
  apply (joint_restore_exact sample_migration_digest (restore_of sample_children) (sample_restore_request sample_inventory) sample_evidence
           sample_restore_inputs).
  vm_compute. reflexivity.
Defined.

Lemma evidence_identifies_witness :
  (sample_evidence = sample_evidence /\ sample_inventory ≡ₚ reverse sample_inventory
   /\ names_of [(u "attachments", PathText (u "/srv/blobs"))] = names_of [(u "attachments", PathText (u "/srv/blobs"))])
  \/ colliding_documents (evidence_document_of sample_evidence) (evidence_document_of sample_evidence)
  \/ colliding_documents (inventory_document_of (sample_restore_request sample_inventory))
       (inventory_document_of (sample_restore_request (reverse sample_inventory)))
  \/ exists f1 f2, fence_digest f1 = Ok (je_fence_digest sample_evidence) /\ fence_digest f2 = Ok (je_fence_digest sample_evidence)
       /\ colliding_documents (fence_document f1 []) (fence_document f2 []).
Proof.
  apply (evidence_identifies sample_migration_digest (restore_of sample_children) (sample_restore_request sample_inventory) sample_evidence
           (restore_of sample_children) (sample_restore_request (reverse sample_inventory)) sample_evidence).
  - vm_compute. reflexivity.
  - exact sample_restore_inputs.
  - split.
    + apply (bool_decide_unpack _). vm_compute. exact I.
    + intros path root [= <-]. apply tree_wfb_wf. vm_compute. reflexivity.
    + repeat constructor; vm_compute; reflexivity.
  - repeat constructor; vm_compute; reflexivity.
  - repeat constructor; vm_compute; reflexivity.
  - vm_compute. reflexivity.
  - vm_compute. reflexivity.
  - reflexivity.
Defined.

Definition sample_recovery (plan : fault_plan) (closeall : option exn) : recovery_env pystr :=
  {| rc_connect := Ok (); rc_getconn := Ok (7%nat, true); rc_faults := plan; rc_execute := fun _ => Ok ();
     rc_verify_current := mret (); rc_putconn := fun _ => None; rc_closeall := closeall |}.
Definition sample_restored : restored_db pystr :=
  RestoredDb (Some (u "plane", Some (u "public"))) (current_metadata sample_migration_digest) [u "sid-1"; u "sid-2"].

Lemma sample_verifier plan closeall : verifier_reads (sample_recovery plan closeall).
Proof. by intros t. Qed.
Lemma sample_undisturbed : undisturbed_recovery (sample_recovery calm_plan None).
Proof. split; try done. intros t Ht. by exists t. Qed.

(** The commit is call 34 of the connection: [autocommit], then three calls for
    each of the eleven statements. *)
Definition commit_fault (f : fault) : fault_plan :=
  {| fp_call := fun n => if (n =? 34)%nat then f else NoFault; fp_get_autocommit := None;
     fp_closed := fun _ => Some false; fp_status := fun _ => Some 2 |}.
Definition sample_recover (plan : fault_plan) (closeall : option exn) (db : restored_db pystr) :=
  recover_joint_restore sample_migration_digest (restore_of sample_children) (sample_recovery plan closeall)
    (sample_restore_request sample_inventory) db.
Definition lost_reply : exn := Exn PgOperationalError "server closed the connection unexpectedly".
Definition retirement_failed : outcome failure JointRestoreCompletion := raise_plane SessionRetirementError CodeNone MetaNone.

(** Undisturbed; with a commit that is lost, and with one whose acknowledgement
    is lost: the same error, and another database; and the repetition. *)
Lemma recovery_retires_sessions_witness :
  sample_recover calm_plan None sample_restored
  = (Ok {| jc_evidence := sample_evidence; jc_retired_sessions := 2 |}, sessions_retired sample_restored)
  /\ sample_recover (commit_fault (Before lost_reply)) None sample_restored = (retirement_failed, sample_restored)
  /\ sample_recover (commit_fault (After lost_reply)) None sample_restored = (retirement_failed, sessions_retired sample_restored)
  /\ raised_after_commit sample_migration_digest (sample_recovery (commit_fault (After lost_reply)) None)
       (retirement_of (sample_restore_request sample_inventory)) sample_restored
  /\ sample_recover calm_plan None (sessions_retired sample_restored)
     = (Ok {| jc_evidence := sample_evidence; jc_retired_sessions := 0 |}, sessions_retired sample_restored).
Proof.
  assert (sample_recover (commit_fault (After lost_reply)) None sample_restored = (retirement_failed, sessions_retired sample_restored)) as Hlost
    by (vm_compute; reflexivity).
  destruct (recovery_retires_sessions sample_migration_digest (restore_of sample_children)
    (sample_recovery (commit_fault (After lost_reply)) None) (sample_restore_request sample_inventory) sample_restored
    retirement_failed (sessions_retired sample_restored) (sample_verifier _ _) Hlost) as (_ & Herr & Hagain).
  split; [vm_compute; reflexivity|]. split; [vm_compute; reflexivity|]. split; [exact Hlost|]. split.
  - destruct (raise_plane_Err (A := JointRestoreCompletion) SessionRetirementError CodeNone MetaNone) as [e He].
    destruct (Herr e He) as [Heq|(_ & _ & _ & Hx)]; [discriminate Heq|exact Hx].
  - apply (Hagain (sample_recovery calm_plan None) sample_evidence sample_undisturbed (sample_verifier _ _)).
    + vm_compute. reflexivity.
    + split; [reflexivity|]. apply (bool_decide_eq_true_1 _). vm_compute. reflexivity.
Defined.

(** A file whose name has a backslash is qualified under that name, although
    the store reads the key as one of another path. *)
Definition backslash_key : pystr := u "owner1\a.bin".
Lemma backslash_key_qualifies :
  entry_init (entry_of (u "attachments") backslash_key [7%N]) = Ok (entry_of (u "attachments") backslash_key [7%N])
  /\ validate_blob_storage_key backslash_key = Ok (u "owner1/a.bin")
  /\ is_ok (qualify_joint_restore sample_migration_digest (restore_of [(backslash_key, sample_file [7%N])])
              (sample_restore_request [entry_of (u "attachments") backslash_key [7%N]])) = true.
Proof. split_and!; vm_compute; reflexivity. Qed.
